(* ===== verification/_CoqProject ===== *)
-Q . S2P
Prelude.v
Mem.v
Kstring.v
Layout.v
PageAlloc.v
Buddy.v
Kalloc.v
KallocCorrect.v
KallocSpec.v
Slab.v
SlabCorrect.v
SlabCache.v
SlabSpec.v
SlabFree.v
SlabClient.v
Spinlock.v
Sleeplock.v
BufIface.v
Bio.v
BioCorrect.v
Log.v
LogDisk.v
LogCorrect.v
LogSpec.v
LogTx.v
Vm.v
VmInv.v
VmMap.v
VmUser.v
VmCopy.v
VmCollapse.v
VmProps.v
Ring.v
Pipe.v
TxIface.v
LogFs.v
Fs.v
FsBlock.v
FsFile.v
FsBmap.v
FsWrite.v
File.v
FileWrite.v
FsProps.v
Wlp.v
Proc.v
ProcInv.v
ProcProps.v
Trap.v
TrapProps.v
Khugepaged.v
Sleep.v
Sysfile.v
Exec.v
FileRefs.v
FdCalls.v
FdProps.v
Virtio.v
VirtioInv.v
VirtioSteps.v
VirtioProps.v
Uart.v
Console.v
Printf.v
Uprintf.v
Grep.v
Ulib.v
Sh.v
ShGrammar.v
ShParse.v
ShTree.v
ShRun.v
ShProps.v
Umalloc.v
UmallocCorrect.v
UmallocProps.v
Programs.v
Mkfs.v
MkfsCorrect.v
MkfsProps.v
