(* ===== verification/Prelude.v ===== *)
(** * A verification of the xv6-plus kernel, user library and programs

    xv6-plus is a small Unix-like kernel for RISC-V: the teaching kernel xv6
    with a buddy page allocator, a slab allocator, 2 MB pages, signals and
    kernel threads added.  This library translates the C code into functions
    and proves what makes its parts correct.

    ** The program and its model

    Each C file is a Rocq file, each C function a definition of the same name.
    A function that changes state is a program in the monad [M S A] of this
    file: from a state [S] it returns a result and a state ([Ok]), stops the
    machine ([Panic]), or exhausts its fuel ([NoFuel]).  A C pointer is its
    address (physical memory, [Mem]) or the index of the entry of a table it
    points to (buffers, inodes, files, processes), 0 being null.  Integers are
    [Z] with the wrap-around of their C type written out ([u32], [i32], ...).
    A lock is a flag: [acquire] of a held lock stops the machine, so that a
    theorem that a call returns also says that it does not deadlock on its own
    locks.

    From the bottom up (source files are under [src/]):

    - [Mem], [Kstring], [Layout]: byte memory, [kernel/string.c], and the
      constants of [kernel/param.h], [memlayout.h] and [riscv.h].
    - [Kalloc] ([kernel/kalloc.c]): the buddy allocator.  [Buddy] has the
      combinatorics of blocks, [KallocCorrect] the invariant of the lists in
      memory, [KallocSpec] what [kalloc] and [kfree] promise.  The promise is
      the class [PageAllocSpec] of [PageAlloc], which the allocator's clients
      are proved against.
    - [Slab] ([kernel/slab.c]) over any page allocator; [SlabCorrect],
      [SlabCache], [SlabSpec] and [SlabFree] have its invariant and operations,
      [SlabClient] the contract of [kmalloc] and [kmfree].
    - [Spinlock] ([kernel/spinlock.c]), with all harts interleaved at the atomic
      steps; [Sleeplock] ([kernel/sleeplock.c]).
    - [Bio] ([kernel/bio.c]): the LRU buffer cache, over the disk as its driver
      presents it.  [BioCorrect] proves it an instance of the class
      [BufSpec] of [BufIface].
    - [Log] ([kernel/log.c]): the write-ahead log over any buffer cache.
      [LogDisk] describes the disk while it commits or recovers, [LogCorrect]
      and [LogSpec] the operations, [LogTx] the contract of transactions.
    - [Vm] ([kernel/vm.c]): page tables in memory, over any page allocator;
      [VmInv], [VmMap], [VmUser], [VmCopy], [VmCollapse] and [VmProps].
    - [Ring], [Pipe] ([kernel/pipe.c]) and [Console] ([kernel/console.c]).
    - [Fs] ([kernel/fs.c]) over transactions ([TxIface], of which [LogFs] makes
      the log an instance); [FsBlock], [FsFile], [FsBmap] and
      [FsWrite] prove its layers; [File] ([kernel/file.c], [pipealloc]) and its
      [FileWrite]; [FsProps] states what files promise.
    - [Proc] ([kernel/proc.c]) over virtual memory and open files, with the
      invariant of its table ([ProcInv]) and what holds from the boot on
      ([ProcProps]).  [Trap] ([kernel/trap.c], [syscall.c], [sysproc.c],
      [plic.c]) is the kernel's entries from user space, with [TrapProps].
      [Sleep] has [sleep] and [wakeup] alone, with all processes interleaved at
      their atomic steps.  [Khugepaged] ([kernel/khugepaged.c]) is the kernel
      thread that makes huge pages.
    - [Sysfile] ([kernel/sysfile.c]) and [Exec] ([kernel/exec.c], [forkret],
      [kernel/machine.c]): the calls on files and [exec], which complete the
      table of system calls of [Trap].  [FileRefs], [FdCalls] and
      [FdProps] count the references to open files.
    - [Virtio] ([kernel/virtio_disk.c]): the driver of the disk.  [VirtioInv]
      has what it promises, its runs with callers, interrupts and the device
      interleaved, and its invariant; [VirtioSteps] and [VirtioProps] prove the
      promise, which is what [Bio] takes the disk for.
    - [Uart] ([kernel/uart.c]): the driver of the serial line, with writers,
      [uartputc_sync], interrupts and the chip interleaved.
    - [Printf] ([kernel/printf.c]), [Uprintf] ([user/printf.c]) and [Grep]
      ([user/grep.c]).
    - [Ulib] ([user/ulib.c]): a user program is a tree of system calls and their
      answers, [prog].  [Sh] ([user/sh.c]) is the shell; [ShGrammar] has the
      grammar of its commands, [ShParse] and [ShTree] prove the parser, [ShRun]
      has the processes a command stands for and the runs of the shell, and
      [ShProps] what it promises.
    - [Umalloc] ([user/umalloc.c]): the allocator of user programs, on the bytes
      of their memory; [UmallocCorrect] proves its operations,
      [UmallocProps] what a program may rely on.
    - [Programs]: [cat], [wc], [echo], [kill], [ln], [mkdir], [rm], [ls],
      [halt], [zombie] and [init] of [user/].
    - [Mkfs] ([mkfs/mkfs.c]), which builds the image of the disk on the host;
      [MkfsCorrect] proves its routines, [MkfsProps] what the image is.

    A call that must wait for another process ends with [Sleep]; what it does
    when it is switched to again is a definition of its own ([kwait_again],
    [sys_pause_again], ...), and the scheduler's switch is between the two.

    ** What the theorems show

    - Allocation ([KallocSpec], [SlabClient]): from the boot on, any client that
      frees only what it holds never gets a page or an object twice, never has
      its contents changed, and gets memory whenever there is some; and what
      happens when it frees twice or asks for too much.
    - Locking ([Spinlock]): mutual exclusion with interrupts off for any number
      of harts, and that [push_off] and [pop_off] nest.
    - Durability ([LogTx], [FsProps]): whatever prefix of the disk writes a crash
      lets through, recovery yields the state before a transaction or after it;
      a [write] of any length leaves a prefix of its bytes in the file and every
      other file alone; what is written is read back through the whole stack;
      and a chunk of [filewrite] fits in the log.
    - Virtual memory ([VmProps]): [mappages], [copyin] and [copyout] against
      what the process sees, and that collapsing 4 KB pages into a 2 MB page
      is invisible to it; and ([Khugepaged]) that a pass of the daemon over all
      processes, with none of them running meanwhile, is invisible to all of them
      and collapses something when it can.
    - Processes ([ProcProps], [TrapProps]): the process table is well formed
      after any sequence of calls, interrupts and switches on one hart; every process that
      can run is run in each pass of the scheduler; a signal interrupts a
      process without a trace; and how lazy [sbrk] lets a process stop the
      machine.
    - Sleeping ([Sleep]): no wakeup is lost.
    - Open files ([FdProps]): whatever processes do, the references counted for
      a file are the descriptors that hold it.
    - The disk ([VirtioProps]): each request is served exactly once, however
      callers, interrupts and the device interleave, and no check of the driver
      fails.
    - The serial line ([Uart]): the bytes of a writer go out in order, none is lost
      or repeated, and a writer that sleeps is waiting for an interrupt that the
      chip owes it.
    - The image ([MkfsProps]): what [mkfs] builds is a file system as [Fs] and
      [Log] assume it, with the files it was given.
    - Streams ([Pipe], [Console]): a pipe is a queue of bytes, the console a line
      editor.
    - The shell ([ShProps]): the parser decides the grammar, and the processes the
      shell makes for a sequence of lines are those the lines stand for.
    - Memory of programs ([UmallocProps]): held blocks do not overlap and keep
      what is in them, and no byte is lost.
    - Programs ([Programs]): what [cat], [wc] and [echo] print.
    - Text ([Printf], [Uprintf], [Grep]): printed numbers read back, the two
      [printf]s agree, [vprintf] terminates, the matcher of [grep] decides its
      regular expressions and [grep] prints the lines that match.

    Theorems named after a panic, a loss or an oversize prove a defect; the
    others are what the code means to do.

    ** Bounds and fuel

    Loops whose bound the C code states run over the list of their indices and
    need no fuel.  Other loops carry fuel computed from their arguments, one
    more than the iterations they can make (for instance [n / BSIZE + 3] blocks
    for [n] bytes, 17 merges of a buddy block, one step per table entry); the
    theorems are total, [wp m Q s] says that [m] returns from [s], so that enough
    fuel is part of what is proved.  The invariants of the process table and of
    the references to files use the partial [wlp] and its closure [keeps]
    ([Wlp]), because a call there may legitimately stop the machine.

    ** Not modelled

    - The assembly ([entry.S], [kernelvec.S], [trampoline.S], [swtch.S]) and
      [start.c]: switches between contexts appear as the ends and the
      continuations of handlers.
    - [main.c], which calls the initialisers in order; [slab_test.c] and
      [kthread_test.c], which are tests.
    - TLBs: a change of a page table is seen at once.
    - Interleavings of handlers of different processes on the tables of files,
      inodes and processes: each handler runs to its end or its switch, on one
      hart.  The
      spin locks, [sleep] and [wakeup], the disk driver and the serial line are
      modelled with their callers interleaved.
    - The test programs [usertests], [grind], [stressfs], [logstress],
      [forktest], [forphan], [dorphan] and [sigtest]. *)

From stdpp Require Export base tactics numbers list gmap strings.
From Stdlib Require Export ZArith Lia.

#[global] Open Scope Z_scope.

(** ** Machine integers

    A C integer of width [w] is a [Z] kept in the range of its type; every
    operation that can leave the range is wrapped explicitly. *)

Definition u8 (x : Z) : Z := x mod 256.
Definition u16 (x : Z) : Z := x mod 65536.
Definition u32 (x : Z) : Z := x mod 4294967296.
Definition u64 (x : Z) : Z := x mod 18446744073709551616.
Definition i32 (x : Z) : Z := (x + 2147483648) mod 4294967296 - 2147483648.
Definition i64 (x : Z) : Z := (x + 9223372036854775808) mod 18446744073709551616 - 9223372036854775808.

(** ** Lists and sets *)

Lemma size_list_to_set_le (l : list Z) : (size (list_to_set l : gset Z) ≤ length l)%nat.
Proof.
  induction l as [|y l IH]; [rewrite list_to_set_nil, size_empty; simpl; lia|].
  rewrite list_to_set_cons, size_union_alt, size_singleton. simpl.
  assert (size ((list_to_set l : gset Z) ∖ {[y]}) ≤ size (list_to_set l : gset Z))%nat; [|lia].
  apply subseteq_size. set_solver.
Qed.

Lemma filter_ext_in {A} (P Q : A → Prop) `{!∀ x, Decision (P x), !∀ x, Decision (Q x)} (l : list A) :
  (∀ x, x ∈ l → P x ↔ Q x) → filter P l = filter Q l.
Proof.
  induction l as [|y l IH]; intros Heq; [done|]. rewrite !filter_cons, IH by set_solver.
  assert (P y ↔ Q y) by (apply Heq; left). destruct (decide (P y)), (decide (Q y)); tauto.
Qed.

(** ** Effects

    Kernel code runs on an explicit state.  A computation either returns a
    value with the new state, or stops the machine: [panic] never returns in
    the source ([kernel/printf.c]).  [NoFuel] is the outcome of a bounded loop
    whose bound was too small; the theorems show it is never reached. *)

Inductive res (S A : Type) : Type :=
| Ok (a : A) (s : S)
| Panic (msg : string)
| NoFuel.
Arguments Ok {S A} _ _.
Arguments Panic {S A} _.
Arguments NoFuel {S A}.

Definition M (S A : Type) : Type := S → res S A.

#[global] Instance M_ret S : MRet (M S) := λ A a s, Ok a s.
#[global] Instance M_bind S : MBind (M S) := λ A B f m s,
  match m s with
  | Ok a s' => f a s'
  | Panic msg => Panic msg
  | NoFuel => NoFuel
  end.

Definition panic {S A} (msg : string) : M S A := λ _, Panic msg.
Definition nofuel {S A} : M S A := λ _, NoFuel.
Definition gets {S A} (f : S → A) : M S A := λ s, Ok (f s) s.
Definition modify {S} (f : S → S) : M S unit := λ s, Ok tt (f s).

(** [if (c) panic(msg);] *)
Definition panic_if {S} (c : bool) (msg : string) : M S unit :=
  if c then panic msg else mret tt.

(** Running a computation of a component inside a larger state. *)
Definition lift {S T A} (get : T → S) (set : S → T → T) (m : M S A) : M T A :=
  λ t, match m (get t) with
       | Ok a s => Ok a (set s t)
       | Panic msg => Panic msg
       | NoFuel => NoFuel
       end.

(** Spin locks as seen by the hart that runs the operation: the bit says
    whether this hart holds the lock.  Acquiring a lock the hart already holds
    and releasing one it does not hold stop the machine ([kernel/spinlock.c]). *)
Definition acquire {S} (get : S → bool) (set : bool → S → S) : M S unit :=
  b ← gets get;
  panic_if b "acquire";;
  modify (set true).

Definition release {S} (get : S → bool) (set : bool → S → S) : M S unit :=
  b ← gets get;
  panic_if (negb b) "release";;
  modify (set false).

(** [while(!c) sleep(...);] as seen by the process: the wait is over once [c]
    holds, and only other processes can make it hold. *)
Definition await {S} (c : S → bool) : M S unit :=
  gets c ≫= λ b : bool, if b then mret tt else nofuel.

(** ** Loops *)

(** [for (x in l) body(x);] *)
Fixpoint for_each {S A} (l : list A) (body : A → M S unit) : M S unit :=
  match l with
  | [] => mret tt
  | x :: l' => body x ;; for_each l' body
  end.

(** A [for] loop whose body may leave it: [Some b] is [return b] (or a
    [break] that carries [b]), [None] goes on with the next iteration. *)
Fixpoint for_ret {S A B} (l : list A) (body : A → M S (option B)) : M S (option B) :=
  match l with
  | [] => mret None
  | x :: l' =>
      r ← body x;
      match r with
      | Some b => mret (Some b)
      | None => for_ret l' body
      end
  end.

(** A [while] loop with local variables [x]: the body yields their next values
    ([inl]) or leaves the loop ([inr]).  The bound is the number of
    iterations allowed. *)
Fixpoint loop {S X B} (n : nat) (body : X → M S (X + B)) (x : X) : M S B :=
  match n with
  | O => nofuel
  | Datatypes.S n' =>
      r ← body x;
      match r with
      | inl x' => loop n' body x'
      | inr b => mret b
      end
  end.

(** ** Weakest preconditions

    [wp m Q s]: run from [s], [m] returns (no panic, no exhausted bound) and
    its result and final state satisfy [Q]. *)

Definition wp {S A} (m : M S A) (Q : A → S → Prop) (s : S) : Prop :=
  match m s with
  | Ok a s' => Q a s'
  | _ => False
  end.

Section wp_rules.
Context {S : Type}.
Implicit Types s : S.

Lemma wp_ret {A} (a : A) Q s : wp (mret a) Q s = Q a s.
Proof. reflexivity. Qed.

Lemma wp_bind {A B} (m : M S A) (f : A → M S B) Q s :
  wp (m ≫= f) Q s = wp m (λ a s', wp (f a) Q s') s.
Proof. unfold wp, mbind, M_bind. by destruct (m s). Qed.

Lemma wp_gets {A} (f : S → A) Q s : wp (gets f) Q s = Q (f s) s.
Proof. reflexivity. Qed.

Lemma wp_modify (f : S → S) Q s : wp (modify f) Q s = Q tt (f s).
Proof. reflexivity. Qed.

Lemma wp_panic {A} msg (Q : A → S → Prop) s : wp (panic msg) Q s = False.
Proof. reflexivity. Qed.

Lemma wp_panic_if c msg Q s : wp (panic_if c msg) Q s ↔ c = false ∧ Q tt s.
Proof. destruct c; unfold panic_if, wp; simpl; naive_solver. Qed.

Lemma wp_mono {A} (m : M S A) (Q Q' : A → S → Prop) s :
  wp m Q s → (∀ a s', Q a s' → Q' a s') → wp m Q' s.
Proof. unfold wp. destruct (m s); naive_solver. Qed.

Lemma wp_acquire get set Q s :
  wp (acquire get set) Q s ↔ get s = false ∧ Q tt (set true s).
Proof.
  unfold acquire. rewrite wp_bind, wp_gets, wp_bind, wp_panic_if, wp_modify.
  done.
Qed.

Lemma wp_release get set Q s :
  wp (release get set) Q s ↔ get s = true ∧ Q tt (set false s).
Proof.
  unfold release. rewrite wp_bind, wp_gets, wp_bind, wp_panic_if, wp_modify.
  by rewrite negb_false_iff.
Qed.

Lemma wp_await c Q s : wp (await c) Q s ↔ c s = true ∧ Q tt s.
Proof.
  unfold await. rewrite wp_bind, wp_gets. destruct (c s); [by rewrite wp_ret; naive_solver|].
  unfold wp, nofuel. naive_solver.
Qed.

(** A computation that satisfies a [wp] returns. *)
Lemma wp_Ok {A} (m : M S A) Q s :
  wp m Q s → ∃ a s', m s = Ok a s' ∧ Q a s'.
Proof. unfold wp. destruct (m s); naive_solver. Qed.

Lemma wp_run {A} (m : M S A) Q s : wp m Q s → wp m (λ a s', m s = Ok a s' ∧ Q a s') s.
Proof. unfold wp. by destruct (m s). Qed.

Lemma wp_intro {A} (m : M S A) (Q : A → S → Prop) s a s' :
  m s = Ok a s' → Q a s' → wp m Q s.
Proof. unfold wp. by intros ->. Qed.

(** Running a computation step by step. *)
Lemma bind_Ok {A B} (m : M S A) (f : A → M S B) s a s' :
  m s = Ok a s' → (m ≫= f) s = f a s'.
Proof. unfold mbind, M_bind. by intros ->. Qed.

Lemma bind_Panic {A B} (m : M S A) (f : A → M S B) s msg :
  m s = Panic msg → (m ≫= f) s = Panic msg.
Proof. unfold mbind, M_bind. by intros ->. Qed.

Lemma acquire_Ok (get : S → bool) set s : get s = false → acquire get set s = Ok tt (set true s).
Proof. intros H. unfold acquire, gets, panic_if, modify, mbind, M_bind. by rewrite H. Qed.

(** Loop over a list: [I] is indexed by the elements already done. *)
Lemma wp_for_each {A} (I : list A → S → Prop) (l : list A) body Q s :
  I [] s →
  (∀ done x rest s', l = done ++ x :: rest → I done s' →
     wp (body x) (λ _, I (done ++ [x])) s') →
  (∀ s', I l s' → Q tt s') →
  wp (for_each l body) Q s.
Proof.
  intros H0 Hstep Hend.
  assert (∀ d, ∀ s, I d s → ∀ rest, l = d ++ rest → wp (for_each rest body) Q s) as H.
  { clear s H0. intros d s Hd rest. revert d s Hd.
    induction rest as [|x rest IH]; intros d s Hd Heq; simpl.
    - rewrite wp_ret. apply Hend. by rewrite Heq, app_nil_r.
    - rewrite wp_bind. eapply wp_mono; [by eapply Hstep|].
      simpl. intros _ s' HI. apply (IH (d ++ [x])); [done|].
      by rewrite Heq, <-app_assoc. }
  by apply (H []).
Qed.

(** Early-exit loop: [I] holds as long as the loop goes on. *)
Lemma wp_for_ret {A B} (I : list A → S → Prop) (l : list A)
    (body : A → M S (option B)) Q s :
  I [] s →
  (∀ done x rest s', l = done ++ x :: rest → I done s' →
     wp (body x) (λ r s'', match r with
                           | Some b => Q (Some b) s''
                           | None => I (done ++ [x]) s''
                           end) s') →
  (∀ s', I l s' → Q None s') →
  wp (for_ret l body) Q s.
Proof.
  intros H0 Hstep Hend.
  assert (∀ rest d s, I d s → l = d ++ rest → wp (for_ret rest body) Q s) as H.
  { clear s H0. induction rest as [|x rest IH]; intros d s Hd Heq; simpl.
    - rewrite wp_ret. apply Hend. by rewrite Heq, app_nil_r.
    - rewrite wp_bind. eapply wp_mono; [by eapply Hstep|].
      intros [b|] s' HI; [by rewrite wp_ret|].
      apply (IH (d ++ [x])); [done|]. by rewrite Heq, <-app_assoc. }
  by apply (H l []).
Qed.

(** One iteration of a [while]. *)
Lemma wp_loop_S {X B} n (body : X → M S (X + B)) x Q s :
  wp (body x) (λ r s', match r with inl x' => wp (loop n body x') Q s' | inr b => Q b s' end) s →
  wp (loop (Datatypes.S n) body x) Q s.
Proof.
  intros H. cbn [loop]. rewrite wp_bind. eapply wp_mono; [exact H|].
  by intros [x'|b] s'; [|rewrite wp_ret].
Qed.

(** [while]: an invariant and a measure that bounds the iterations left. *)
Lemma wp_loop {X B} (I : X → S → Prop) (meas : X → S → nat) n
    (body : X → M S (X + B)) x Q s :
  I x s → (meas x s < n)%nat →
  (∀ x s, I x s →
     wp (body x) (λ r s', match r with
                          | inl x' => I x' s' ∧ (meas x' s' < meas x s)%nat
                          | inr b => Q b s'
                          end) s) →
  wp (loop n body x) Q s.
Proof.
  intros HI Hn Hbody. revert x s HI Hn.
  induction n as [|n IH]; intros x s HI Hn; [lia|]. simpl.
  rewrite wp_bind. eapply wp_mono; [by apply Hbody|].
  intros [x'|b] s'; [|by rewrite wp_ret].
  intros [HI' Hlt]. apply IH; [done|lia].
Qed.
End wp_rules.

Lemma wp_lift {S T A} (get : T → S) (set : S → T → T) (m : M S A) Q t :
  wp (lift get set m) Q t = wp m (λ a s, Q a (set s t)) (get t).
Proof. unfold wp, lift. by destruct (m (get t)). Qed.

(** ** Chunks *)

(** The number of chunks of size [c] that [len] bytes from address [a] touch:
    how often a loop that works chunk by chunk still runs. *)
Definition chunks (c a len : Z) : nat := if len <=? 0 then 0%nat else Z.to_nat ((a mod c + len + (c - 1)) / c).

Lemma chunks_bound c a len : 0 < c → 0 ≤ len → (chunks c a len < Z.to_nat (len / c) + 3)%nat.
Proof.
  intros Hc Hl. unfold chunks. case_match; [lia|].
  pose proof (Z.mod_pos_bound a c Hc). pose proof (Z.div_pos len c).
  assert ((a mod c + len + (c - 1)) / c < len / c + 3); [|lia].
  apply Z.div_lt_upper_bound; [lia|]. pose proof (Z.div_mod len c). pose proof (Z.mod_pos_bound len c Hc). nia.
Qed.

Lemma chunks_step c a a' len n :
  0 < c → 0 < len → n = Z.min (c - a mod c) len → (n < len → a' mod c = 0) → (chunks c a' (len - n) < chunks c a len)%nat.
Proof.
  intros Hc Hl Hn Ha'. pose proof (Z.mod_pos_bound a c Hc). unfold chunks. rewrite (proj2 (Z.leb_gt len 0)) by lia.
  assert (1 ≤ (a mod c + len + (c - 1)) / c) by (apply Z.div_le_lower_bound; lia).
  destruct (Z.leb_spec (len - n) 0); [lia|]. rewrite Ha' by lia.
  replace (a mod c + len + (c - 1)) with (0 + (len - n) + (c - 1) + 1 * c) by lia. rewrite Z.div_add by lia.
  pose proof (Z.div_pos (0 + (len - n) + (c - 1)) c). lia.
Qed.

(** One step of symbolic execution at the head of the goal. *)
Ltac wp_step :=
  lazymatch goal with
  | |- wp (mret _) _ _ => rewrite wp_ret
  | |- wp (mbind _ _) _ _ => rewrite wp_bind
  | |- wp (gets _) _ _ => rewrite wp_gets
  | |- wp (modify _) _ _ => rewrite wp_modify
  | |- wp (lift _ _ _) _ _ => rewrite wp_lift
  | |- wp (panic_if _ _) _ _ => apply wp_panic_if; split; [try done|]
  | |- wp (acquire _ _) _ _ => apply wp_acquire; split; [try done|]
  | |- wp (release _ _) _ _ => apply wp_release; split; [try done|]
  | |- wp (await _) _ _ => apply wp_await; split; [try done|]
  | |- wp (let '(_, _) := ?x in _) _ _ => destruct x
  end; cbv beta.

(** Reduction of the state projections; each component redefines it. *)
Ltac wp_red := idtac.

(** Symbolic execution of straight-line code. *)
Ltac wp_simpl := repeat (wp_step; cbv iota; wp_red).

(** Use a specification of the call at the head of the goal. *)
Ltac wp_apply H := eapply wp_mono; [eapply H|].

(** The hint database of the development. *)
Create HintDb xv6.
