(* ===== verification/Mem.v ===== *)
(** * Physical memory

    The kernel's memory is a map from byte addresses to bytes.  Multi-byte
    loads and stores are little-endian, as on RISC-V, at any alignment. *)

From S2P Require Import Prelude.

Abbreviation mem := (gmap Z Z).

Definition ldb (m : mem) (a : Z) : Z := u8 (default 0 (m !! a)).
Definition stb (m : mem) (a v : Z) : mem := <[a := u8 v]> m.

Fixpoint ldn (n : nat) (m : mem) (a : Z) : Z :=
  match n with
  | O => 0
  | S n' => ldb m a + 256 * ldn n' m (a + 1)
  end.

Fixpoint stn (n : nat) (m : mem) (a v : Z) : mem :=
  match n with
  | O => m
  | S n' => stb (stn n' m (a + 1) (v / 256)) a v
  end.

Abbreviation ld16 := (ldn 2).
Abbreviation ld32 := (ldn 4).
Abbreviation ld64 := (ldn 8).
Abbreviation st16 := (stn 2).
Abbreviation st32 := (stn 4).
Abbreviation st64 := (stn 8).

(** A signed 32-bit load. *)
Definition ldi32 (m : mem) (a : Z) : Z := i32 (ld32 m a).

(** Bytes [a, a + n). *)
Definition ldbytes (m : mem) (a : Z) (n : nat) : list Z :=
  (λ i, ldb m (a + Z.of_nat i)) <$> seq 0 n.

(** [m'] agrees with [m] outside the addresses that satisfy [P]. *)
Definition same_outside (P : Z → Prop) (m m' : mem) : Prop :=
  ∀ a, ¬ P a → ldb m' a = ldb m a.

Lemma ldb_range m a : 0 ≤ ldb m a < 256.
Proof. unfold ldb, u8. apply Z.mod_pos_bound. lia. Qed.

Lemma ldb_stb_eq m a v : ldb (stb m a v) a = u8 v.
Proof.
  unfold ldb, stb. rewrite lookup_insert_eq. simpl. unfold u8. apply Z.mod_mod. lia.
Qed.

Lemma ldb_stb_ne m a b v : a ≠ b → ldb (stb m a v) b = ldb m b.
Proof. intros H. unfold ldb, stb. by rewrite lookup_insert_ne. Qed.

Lemma ldb_stb m a b v : ldb (stb m a v) b = if bool_decide (a = b) then u8 v else ldb m b.
Proof.
  case_bool_decide as H; [subst; apply ldb_stb_eq | by apply ldb_stb_ne].
Qed.

Lemma ldn_range n m a : 0 ≤ ldn n m a < 256 ^ Z.of_nat n.
Proof.
  revert a. induction n as [|n IH]; intros a; simpl ldn; [simpl; lia|].
  rewrite Nat2Z.inj_succ, Z.pow_succ_r by lia.
  pose proof (ldb_range m a). specialize (IH (a + 1)). lia.
Qed.

Lemma ld64_range m a : 0 ≤ ld64 m a < 18446744073709551616.
Proof. exact (ldn_range 8 m a). Qed.

Lemma ld32_range m a : 0 ≤ ld32 m a < 4294967296.
Proof. exact (ldn_range 4 m a). Qed.

Lemma ldb_stn_out n m a v b : b < a ∨ a + Z.of_nat n ≤ b → ldb (stn n m a v) b = ldb m b.
Proof.
  revert a v. induction n as [|n IH]; intros a v Hb; simpl; [done|].
  rewrite ldb_stb_ne by lia. apply IH. lia.
Qed.

Lemma ldn_ext n m m' a :
  (∀ b, a ≤ b < a + Z.of_nat n → ldb m' b = ldb m b) → ldn n m' a = ldn n m a.
Proof.
  revert a. induction n as [|n IH]; intros a H; simpl; [done|].
  rewrite H by lia. rewrite (IH (a + 1)); [done|]. intros b Hb. apply H. lia.
Qed.

Lemma ldn_stn_eq n m a v : ldn n (stn n m a v) a = v mod 256 ^ Z.of_nat n.
Proof.
  revert a v. induction n as [|n IH]; intros a v; simpl ldn; simpl stn.
  - by rewrite Z.mod_1_r.
  - rewrite ldb_stb_eq.
    rewrite (ldn_ext n (stn n m (a + 1) (v / 256))) by (intros; apply ldb_stb_ne; lia).
    rewrite IH, Nat2Z.inj_succ, Z.pow_succ_r by lia.
    unfold u8. rewrite Z.rem_mul_r by lia. lia.
Qed.

Lemma ldn_stn_ne k n m a b v :
  b + Z.of_nat k ≤ a ∨ a + Z.of_nat n ≤ b → ldn k (stn n m a v) b = ldn k m b.
Proof. intros H. apply ldn_ext. intros c Hc. apply ldb_stn_out. lia. Qed.

Lemma ld64_st64_eq m a v : 0 ≤ v < 18446744073709551616 → ld64 (st64 m a v) a = v.
Proof. intros Hv. rewrite (ldn_stn_eq 8). by apply Z.mod_small. Qed.

Lemma ld32_st32_eq m a v : 0 ≤ v < 4294967296 → ld32 (st32 m a v) a = v.
Proof. intros Hv. rewrite (ldn_stn_eq 4). by apply Z.mod_small. Qed.

(** A word all of whose bytes are zero is zero. *)
Lemma ldn_zero n m a :
  (∀ b, a ≤ b < a + Z.of_nat n → ldb m b = 0) → ldn n m a = 0.
Proof.
  revert a. induction n as [|n IH]; intros a H; simpl; [done|].
  rewrite H, IH by (intros; try apply H; lia). done.
Qed.

(** *** [same_outside] composes. *)
Lemma same_outside_refl P m : same_outside P m m.
Proof. done. Qed.

Lemma same_outside_trans P m1 m2 m3 :
  same_outside P m1 m2 → same_outside P m2 m3 → same_outside P m1 m3.
Proof. intros H1 H2 a Ha. by rewrite H2, H1. Qed.

Lemma same_outside_weaken (P Q : Z → Prop) m m' :
  same_outside P m m' → (∀ a, P a → Q a) → same_outside Q m m'.
Proof. intros H HPQ a Ha. apply H. naive_solver. Qed.

Lemma same_outside_stn (P : Z → Prop) n m a v :
  (∀ b, a ≤ b < a + Z.of_nat n → P b) → same_outside P m (stn n m a v).
Proof.
  intros H b Hb. apply ldb_stn_out.
  destruct (decide (a ≤ b < a + Z.of_nat n)); [naive_solver | lia].
Qed.

Lemma same_outside_ldn (P : Z → Prop) n m m' a :
  same_outside P m m' → (∀ b, a ≤ b < a + Z.of_nat n → ¬ P b) → ldn n m' a = ldn n m a.
Proof. intros H HP. apply ldn_ext. intros b Hb. apply H. by apply HP. Qed.

#[export] Hint Resolve same_outside_refl : xv6.

#[global] Arguments ldb : simpl never.
#[global] Arguments stb : simpl never.
#[global] Arguments ldn : simpl never.
#[global] Arguments stn : simpl never.
