(* ===== verification/Kstring.v ===== *)
(** * [kernel/string.c]

    The memory and string routines of the kernel, on physical memory.  [char]
    is unsigned on RISC-V.  A routine that returns its first argument is
    modelled by the memory it leaves. *)

From S2P Require Import Prelude Mem.

(** [cdst[i] = c] for [i] from 0 to [n-1]. *)
Definition memset (m : mem) (dst c n : Z) : mem :=
  foldl (λ m i, stb m (dst + i) c) m (seqZ 0 n).

(** One byte of a copy. *)
Definition copy_byte (dst src : Z) (m : mem) (i : Z) : mem :=
  stb m (dst + i) (ldb m (src + i)).

(** The copy runs backwards when the source starts below the destination and
    overlaps it, forwards otherwise. *)
Definition memmove (m : mem) (dst src n : Z) : mem :=
  if n =? 0 then m
  else if (src <? dst) && (src + n >? dst)
  then foldl (copy_byte dst src) m (reverse (seqZ 0 n))
  else foldl (copy_byte dst src) m (seqZ 0 n).

(** [while(n-- > 0) { if ( *s1 != *s2) return *s1 - *s2; s1++, s2++; }] *)
Fixpoint memcmp (m : mem) (s1 s2 : Z) (n : nat) : Z :=
  match n with
  | O => 0
  | S n' => if ldb m s1 =? ldb m s2 then memcmp m (s1 + 1) (s2 + 1) n'
            else ldb m s1 - ldb m s2
  end.

Definition memcpy (m : mem) (dst src n : Z) : mem := memmove m dst src n.

Fixpoint strncmp (m : mem) (p q : Z) (n : nat) : Z :=
  match n with
  | O => 0
  | S n' => if negb (ldb m p =? 0) && (ldb m p =? ldb m q)
            then strncmp m (p + 1) (q + 1) n'
            else ldb m p - ldb m q
  end.

(** The second loop of [strncpy]: [while(n-- > 0) *s++ = 0;] *)
Fixpoint zero_fill (m : mem) (s : Z) (n : nat) : mem :=
  match n with
  | O => m
  | S n' => zero_fill (stb m s 0) (s + 1) n'
  end.

Fixpoint strncpy (m : mem) (s t : Z) (n : nat) : mem :=
  match n with
  | O => m
  | S n' => let c := ldb m t in
            let m' := stb m s c in
            if c =? 0 then zero_fill m' (s + 1) n'
            else strncpy m' (s + 1) (t + 1) n'
  end.

(** [while(--n > 0 && ( *s++ = *t++ ) != 0); *s = 0;] with [n] already
    decremented. *)
Fixpoint safestrcpy_loop (m : mem) (s t : Z) (n : nat) : mem :=
  match n with
  | O => stb m s 0
  | S n' => let c := ldb m t in
            let m' := stb m s c in
            if c =? 0 then stb m' (s + 1) 0
            else safestrcpy_loop m' (s + 1) (t + 1) n'
  end.

Definition safestrcpy (m : mem) (s t n : Z) : mem :=
  if n <=? 0 then m else safestrcpy_loop m s t (Z.to_nat (n - 1)).

(** [for(n = 0; s[n]; n++);] The bound is the number of bytes examined. *)
Fixpoint strlen_from (fuel : nat) (m : mem) (s n : Z) : option Z :=
  match fuel with
  | O => None
  | S f => if ldb m (s + n) =? 0 then Some n else strlen_from f m s (n + 1)
  end.

Definition strlen (fuel : nat) (m : mem) (s : Z) : option Z := strlen_from fuel m s 0.

(** ** Block operations *)

Lemma ldb_fill (dst c : Z) (l : list Z) (m : mem) b :
  ldb (foldl (λ m i, stb m (dst + i) c) m l) b =
  if bool_decide (b - dst ∈ l) then u8 c else ldb m b.
Proof.
  revert m. induction l as [|i l IH]; intros m; cbn [foldl].
  - by rewrite bool_decide_eq_false_2 by set_solver.
  - rewrite IH, ldb_stb.
    repeat case_bool_decide; try done; set_unfold; exfalso; intuition lia.
Qed.

Lemma memset_in m dst c n b : dst ≤ b < dst + n → ldb (memset m dst c n) b = u8 c.
Proof.
  intros Hb. unfold memset. rewrite ldb_fill, bool_decide_eq_true_2; [done|].
  apply elem_of_seqZ. lia.
Qed.

Lemma memset_out m dst c n b :
  ¬ (dst ≤ b < dst + n) → ldb (memset m dst c n) b = ldb m b.
Proof.
  intros Hb. unfold memset. rewrite ldb_fill, bool_decide_eq_false_2; [done|].
  rewrite elem_of_seqZ. lia.
Qed.

Lemma memset_same_outside (P : Z → Prop) m dst c n :
  (∀ b, dst ≤ b < dst + n → P b) → same_outside P m (memset m dst c n).
Proof. intros H b Hb. apply memset_out. naive_solver. Qed.

(** A zeroed region reads as zero at every width. *)
Lemma memset_zero_ldn k m dst n a :
  dst ≤ a → a + Z.of_nat k ≤ dst + n → ldn k (memset m dst 0 n) a = 0.
Proof. intros. apply ldn_zero. intros b Hb. by rewrite memset_in by lia. Qed.

Lemma copy_forward dst src m (n : nat) b :
  dst ≤ src ∨ src + Z.of_nat n ≤ dst →
  ldb (foldl (copy_byte dst src) m (seqZ 0 (Z.of_nat n))) b =
  if bool_decide (dst ≤ b < dst + Z.of_nat n) then ldb m (src + (b - dst)) else ldb m b.
Proof.
  induction n as [|n IH] in b |- *; intros Hov.
  - case_bool_decide; [lia|done].
  - rewrite seqZ_S, foldl_app, Nat2Z.inj_succ. cbn [foldl].
    rewrite Z.add_0_l. unfold copy_byte at 1. rewrite ldb_stb, !IH by lia. unfold u8.
    repeat case_bool_decide; subst; try lia; try done;
      rewrite Z.mod_small by apply ldb_range; f_equal; lia.
Qed.

Lemma copy_backward dst src m (n : nat) b :
  src < dst →
  ldb (foldl (copy_byte dst src) m (reverse (seqZ 0 (Z.of_nat n)))) b =
  if bool_decide (dst ≤ b < dst + Z.of_nat n) then ldb m (src + (b - dst)) else ldb m b.
Proof.
  intros Hlt. induction n as [|n IH] in m |- *.
  - case_bool_decide; [lia|done].
  - rewrite seqZ_S, reverse_snoc, Nat2Z.inj_succ. cbn [foldl].
    rewrite Z.add_0_l, IH. unfold copy_byte. rewrite !ldb_stb. unfold u8.
    repeat case_bool_decide; subst; try lia; try done;
      rewrite Z.mod_small by apply ldb_range; f_equal; lia.
Qed.

(** [memmove] copies the old contents of the source, overlapping or not, and
    nothing else changes. *)
Lemma memmove_ldb m dst src n b :
  0 ≤ n →
  ldb (memmove m dst src n) b =
  if bool_decide (dst ≤ b < dst + n) then ldb m (src + (b - dst)) else ldb m b.
Proof.
  intros Hn. destruct (Z_of_nat_complete n Hn) as [k ->]. unfold memmove.
  destruct (Z.eqb_spec (Z.of_nat k) 0) as [->|Hn0].
  { case_bool_decide; [lia|done]. }
  destruct ((src <? dst) && (src + Z.of_nat k >? dst)) eqn:E.
  - rewrite copy_backward; [done|]. apply andb_true_iff in E. lia.
  - rewrite copy_forward; [done|]. apply andb_false_iff in E. lia.
Qed.

Lemma memmove_out m dst src n b :
  0 ≤ n → ¬ (dst ≤ b < dst + n) → ldb (memmove m dst src n) b = ldb m b.
Proof. intros Hn Hb. rewrite memmove_ldb by done. by rewrite bool_decide_eq_false_2. Qed.

Lemma memmove_in m dst src n i :
  0 ≤ i < n → ldb (memmove m dst src n) (dst + i) = ldb m (src + i).
Proof.
  intros Hi. rewrite memmove_ldb by lia. rewrite bool_decide_eq_true_2 by lia. f_equal. lia.
Qed.

(** ** Comparisons *)

Lemma memcmp_zero m s1 s2 n :
  memcmp m s1 s2 n = 0 ↔ ∀ i, 0 ≤ i < Z.of_nat n → ldb m (s1 + i) = ldb m (s2 + i).
Proof.
  induction n as [|n IH] in s1, s2 |- *; simpl; [split; [lia|done]|].
  destruct (Z.eqb_spec (ldb m s1) (ldb m s2)) as [He|Hne].
  - rewrite IH. split; intros H i Hi.
    + destruct (decide (i = 0)) as [->|]; [by rewrite !Z.add_0_r|].
      replace (s1 + i) with (s1 + 1 + (i - 1)) by lia.
      replace (s2 + i) with (s2 + 1 + (i - 1)) by lia. apply H. lia.
    + rewrite <-!Z.add_assoc. apply H. lia.
  - split; [lia|]. intros H. specialize (H 0 ltac:(lia)). rewrite !Z.add_0_r in H. lia.
Qed.

(** The C string at [s], cut at [n] bytes: the bytes before the first NUL. *)
Fixpoint cstr (m : mem) (s : Z) (n : nat) : list Z :=
  match n with
  | O => []
  | S n' => if ldb m s =? 0 then [] else ldb m s :: cstr m (s + 1) n'
  end.

(** [strncmp] returns zero exactly when the two strings, cut at [n], are
    equal. *)
Lemma strncmp_zero m p q n : strncmp m p q n = 0 ↔ cstr m p n = cstr m q n.
Proof.
  induction n as [|n IH] in p, q |- *; simpl; [done|].
  pose proof (ldb_range m p). pose proof (ldb_range m q).
  destruct (Z.eqb_spec (ldb m p) 0) as [Hp|Hp]; simpl.
  - destruct (Z.eqb_spec (ldb m q) 0) as [Hq|Hq]; [by split; [|lia]|].
    split; [lia|done].
  - destruct (Z.eqb_spec (ldb m p) (ldb m q)) as [He|He]; simpl.
    + rewrite <-He. destruct (Z.eqb_spec (ldb m p) 0) as [|_]; [done|].
      rewrite IH. split; [by intros -> | by intros [= ?]].
    + destruct (Z.eqb_spec (ldb m q) 0) as [Hq|Hq].
      * split; [lia|done].
      * split; [lia|]. by intros [= ?].
Qed.

Lemma cstr_length m s n : (length (cstr m s n) ≤ n)%nat.
Proof.
  induction n as [|n IH] in s |- *; simpl; [lia|].
  destruct (ldb m s =? 0); simpl; [lia|]. specialize (IH (s + 1)). lia.
Qed.

Lemma cstr_ext m m' s n :
  (∀ b, s ≤ b < s + Z.of_nat n → ldb m' b = ldb m b) → cstr m' s n = cstr m s n.
Proof.
  induction n as [|n IH] in s |- *; intros H; simpl; [done|].
  rewrite H by lia. rewrite (IH (s + 1)); [done|]. intros b Hb. apply H. lia.
Qed.

(** ** String copies *)

Lemma zero_fill_ldb m s n b :
  ldb (zero_fill m s n) b = if bool_decide (s ≤ b < s + Z.of_nat n) then 0 else ldb m b.
Proof.
  induction n as [|n IH] in m, s |- *; cbn [zero_fill].
  - case_bool_decide; [lia|done].
  - rewrite IH, ldb_stb. repeat case_bool_decide; try lia; done.
Qed.

Lemma strncpy_out m s t n b :
  ¬ (s ≤ b < s + Z.of_nat n) → ldb (strncpy m s t n) b = ldb m b.
Proof.
  induction n as [|n IH] in m, s, t |- *; intros Hb; cbn [strncpy]; [done|].
  destruct (ldb m t =? 0).
  - rewrite zero_fill_ldb, bool_decide_eq_false_2, ldb_stb_ne by lia. done.
  - rewrite IH, ldb_stb_ne by lia. done.
Qed.

(** [strncpy] into a disjoint buffer: the string, then zeros up to [n]. *)
Lemma strncpy_in m s t n (i : nat) :
  s + Z.of_nat n ≤ t ∨ t + Z.of_nat n ≤ s → (i < n)%nat →
  ldb (strncpy m s t n) (s + Z.of_nat i) = default 0 (cstr m t n !! i).
Proof.
  induction n as [|n IH] in m, s, t, i |- *; intros Hd Hi; [lia|].
  cbn [strncpy cstr]. destruct (Z.eqb_spec (ldb m t) 0) as [Ht|Ht].
  - rewrite zero_fill_ldb, ldb_stb, Ht.
    repeat case_bool_decide; try done; lia.
  - destruct i as [|i].
    + rewrite Z.add_0_r, strncpy_out, ldb_stb_eq by lia. simpl. unfold u8.
      apply Z.mod_small, ldb_range.
    + replace (s + Z.of_nat (S i)) with (s + 1 + Z.of_nat i) by lia.
      rewrite IH by lia. simpl. f_equal. f_equal. apply cstr_ext.
      intros b Hb. apply ldb_stb_ne. lia.
Qed.

Lemma safestrcpy_loop_out m s t n b :
  ¬ (s ≤ b ≤ s + Z.of_nat n) → ldb (safestrcpy_loop m s t n) b = ldb m b.
Proof.
  induction n as [|n IH] in m, s, t |- *; intros Hb; cbn [safestrcpy_loop].
  - apply ldb_stb_ne. lia.
  - destruct (ldb m t =? 0).
    + rewrite !ldb_stb_ne by lia. done.
    + rewrite IH, ldb_stb_ne by lia. done.
Qed.

Lemma safestrcpy_loop_cstr m s t n :
  s + Z.of_nat n < t ∨ t + Z.of_nat n ≤ s →
  cstr (safestrcpy_loop m s t n) s (S n) = cstr m t n.
Proof.
  induction n as [|n IH] in m, s, t |- *; intros Hd; cbn [safestrcpy_loop].
  - simpl. by rewrite ldb_stb_eq.
  - cbn [cstr]. destruct (Z.eqb_spec (ldb m t) 0) as [Ht|Ht].
    + rewrite ldb_stb_ne, ldb_stb_eq, Ht by lia. done.
    + rewrite safestrcpy_loop_out, ldb_stb_eq by lia.
      unfold u8. rewrite Z.mod_small by apply ldb_range.
      destruct (Z.eqb_spec (ldb m t) 0); [done|]. f_equal.
      specialize (IH (stb m s (ldb m t)) (s + 1) (t + 1) ltac:(lia)).
      cbn [cstr] in IH. rewrite IH. apply cstr_ext. intros b Hb. apply ldb_stb_ne. lia.
Qed.

(** [safestrcpy] into a disjoint buffer of [n > 0] bytes: the copied string is
    the source cut at [n - 1] bytes, and it is always NUL-terminated inside
    the buffer. *)
Lemma safestrcpy_cstr m s t n :
  0 < n → s + n ≤ t ∨ t + n - 1 ≤ s →
  cstr (safestrcpy m s t n) s (Z.to_nat n) = cstr m t (Z.to_nat (n - 1)) ∧
  (length (cstr (safestrcpy m s t n) s (Z.to_nat n)) < Z.to_nat n)%nat ∧
  ∀ b, ¬ (s ≤ b < s + n) → ldb (safestrcpy m s t n) b = ldb m b.
Proof.
  intros Hn Hd. unfold safestrcpy. destruct (Z.leb_spec n 0); [lia|].
  replace (Z.to_nat n) with (S (Z.to_nat (n - 1))) by lia.
  rewrite safestrcpy_loop_cstr by lia. split; [done|]. split.
  - pose proof (cstr_length m t (Z.to_nat (n - 1))). lia.
  - intros b Hb. apply safestrcpy_loop_out. lia.
Qed.

Lemma strlen_from_spec fuel m s n :
  strlen_from fuel m s n =
  if bool_decide (length (cstr m (s + n) fuel) < fuel)%nat
  then Some (n + Z.of_nat (length (cstr m (s + n) fuel))) else None.
Proof.
  induction fuel as [|f IH] in n |- *; cbn [strlen_from cstr]; [done|].
  destruct (Z.eqb_spec (ldb m (s + n)) 0); cbn [length].
  - rewrite bool_decide_eq_true_2 by lia. f_equal. lia.
  - rewrite IH. replace (s + n + 1) with (s + (n + 1)) by lia.
    repeat case_bool_decide; try lia; try done; f_equal; lia.
Qed.

(** [strlen] returns once the bound covers the string, and its result is the
    number of bytes before the NUL. *)
Lemma strlen_spec fuel m s :
  (length (cstr m s fuel) < fuel)%nat →
  strlen fuel m s = Some (Z.of_nat (length (cstr m s fuel))).
Proof.
  intros H. unfold strlen. rewrite strlen_from_spec, Z.add_0_r, bool_decide_eq_true_2 by done.
  done.
Qed.

Lemma ldn_memset_ne k m dst c n b :
  b + Z.of_nat k ≤ dst ∨ dst + n ≤ b → ldn k (memset m dst c n) b = ldn k m b.
Proof. intros H. apply ldn_ext. intros a Ha. apply memset_out. lia. Qed.
