(* ===== verification/Layout.v ===== *)
(** * Constants and address arithmetic

    [kernel/param.h], [kernel/memlayout.h], and the page-table macros of
    [kernel/riscv.h]. *)

From S2P Require Import Prelude.

(** ** [kernel/param.h] *)
Definition NPROC : Z := 64.
Definition NCPU : Z := 8.
Definition NOFILE : Z := 16.
Definition NFILE : Z := 100.
Definition NINODE : Z := 50.
Definition NDEV : Z := 10.
Definition ROOTDEV : Z := 1.
Definition MAXARG : Z := 32.
Definition MAXOPBLOCKS : Z := 10.
Definition LOGBLOCKS : Z := MAXOPBLOCKS * 3.
Definition NBUF : Z := MAXOPBLOCKS * 3.
Definition FSSIZE : Z := 2000.
Definition MAXPATH : Z := 128.
Definition USERSTACK : Z := 1.

(** ** Pages ([kernel/riscv.h]) *)
Definition PGSIZE : Z := 4096.
Definition PGSHIFT : Z := 12.
Definition HUGEPGORDER : Z := 9.
Definition HUGEPGSIZE : Z := Z.shiftl PGSIZE HUGEPGORDER.

Definition PGROUNDUP (sz : Z) : Z :=
  Z.land (u64 (sz + PGSIZE - 1)) (u64 (Z.lnot (PGSIZE - 1))).
Definition PGROUNDDOWN (a : Z) : Z := Z.land a (u64 (Z.lnot (PGSIZE - 1))).

(** ** Physical memory ([kernel/memlayout.h]) *)
Definition UART0 : Z := 0x10000000.
Definition VIRTIO0 : Z := 0x10001000.
Definition PLIC : Z := 0x0c000000.
Definition KERNBASE : Z := 0x80000000.
Definition PHYSTOP : Z := KERNBASE + 128 * 1024 * 1024.

(** ** Sv39 ([kernel/riscv.h]) *)
Definition PTE_V : Z := 1.
Definition PTE_R : Z := 2.
Definition PTE_W : Z := 4.
Definition PTE_X : Z := 8.
Definition PTE_U : Z := 16.

Definition PA2PTE (pa : Z) : Z := u64 (Z.shiftl (Z.shiftr pa 12) 10).
Definition PTE2PA (pte : Z) : Z := u64 (Z.shiftl (Z.shiftr pte 10) 12).
Definition PTE_FLAGS (pte : Z) : Z := Z.land pte 0x3FF.

Definition PXMASK : Z := 0x1FF.
Definition PXSHIFT (level : Z) : Z := PGSHIFT + 9 * level.
Definition PX (level va : Z) : Z := Z.land (Z.shiftr va (PXSHIFT level)) PXMASK.

Definition MAXVA : Z := Z.shiftl 1 (9 + 9 + 9 + 12 - 1).

Definition TRAMPOLINE : Z := MAXVA - PGSIZE.
Definition TRAPFRAME : Z := TRAMPOLINE - PGSIZE.
Definition KSTACK (p : Z) : Z := TRAMPOLINE - (p + 1) * 2 * PGSIZE.

(** ** Facts *)

Lemma u32_small x : 0 ≤ x < 4294967296 → u32 x = x.
Proof. apply Z.mod_small. Qed.

Lemma i32_small x : 0 ≤ x < 2147483648 → i32 x = x.
Proof. intros Hx. unfold i32. rewrite Z.mod_small; lia. Qed.

Lemma u64_small x : 0 ≤ x < 18446744073709551616 → u64 x = x.
Proof. apply Z.mod_small. Qed.

Lemma u64_range x : 0 ≤ u64 x < 18446744073709551616.
Proof. apply Z.mod_pos_bound. lia. Qed.

Lemma land_page_mask x :
  0 ≤ x < 18446744073709551616 → Z.land x (u64 (Z.lnot (PGSIZE - 1))) = 4096 * (x / 4096).
Proof.
  intros Hx. change (u64 (Z.lnot (PGSIZE - 1))) with (Z.ldiff (Z.ones 64) (Z.ones 12)).
  rewrite Z.ldiff_land, Z.land_assoc, Z.land_ones by lia.
  rewrite (Z.mod_small x) by exact Hx. rewrite <-Z.ldiff_land, Z.ldiff_ones_r by lia.
  rewrite Z.shiftl_mul_pow2, Z.shiftr_div_pow2 by lia.
  change (2 ^ 12) with 4096. lia.
Qed.

Lemma PGROUNDDOWN_eq a :
  0 ≤ a < 18446744073709551616 → PGROUNDDOWN a = 4096 * (a / 4096).
Proof. apply land_page_mask. Qed.

Lemma PGROUNDUP_eq sz :
  0 ≤ sz → sz + 4095 < 18446744073709551616 →
  PGROUNDUP sz = 4096 * ((sz + 4095) / 4096).
Proof.
  intros H1 H2. unfold PGROUNDUP. unfold PGSIZE at 1.
  replace (sz + 4096 - 1) with (sz + 4095) by lia.
  rewrite u64_small by lia. apply land_page_mask. lia.
Qed.

Lemma PGROUNDDOWN_bounds a :
  0 ≤ a < 18446744073709551616 →
  PGROUNDDOWN a ≤ a < PGROUNDDOWN a + PGSIZE ∧ PGROUNDDOWN a mod PGSIZE = 0.
Proof.
  intros H. rewrite PGROUNDDOWN_eq by done. unfold PGSIZE. split.
  - pose proof (Z.div_mod a 4096). pose proof (Z.mod_pos_bound a 4096). lia.
  - rewrite Z.mul_comm. apply Z.mod_mul. lia.
Qed.

Lemma PGROUNDUP_bounds a :
  0 ≤ a → a + 4095 < 18446744073709551616 →
  a ≤ PGROUNDUP a < a + PGSIZE ∧ PGROUNDUP a mod PGSIZE = 0.
Proof.
  intros H1 H2. rewrite PGROUNDUP_eq by done. unfold PGSIZE. split.
  - pose proof (Z.div_mod (a + 4095) 4096). pose proof (Z.mod_pos_bound (a + 4095) 4096). lia.
  - rewrite Z.mul_comm. apply Z.mod_mul. lia.
Qed.
