(* ===== verification/PageAlloc.v ===== *)
(** * The page allocator as its clients see it

    [kernel/vm.c], [kernel/slab.c], [kernel/proc.c] and the other users of
    physical pages call [kalloc], [kfree], [kalloc_huge] and [kfree_huge] and
    read and write the pages they own.  The operations are one class, the
    promise the allocator makes is another: the clients' theorems are proved
    against the promise, and [KallocCorrect] shows that the buddy allocator
    keeps it. *)

From S2P Require Import Prelude Mem Layout.

Class PageAllocOps (S : Type) := {
  pa_mem : S → mem;
  pa_set_mem : mem → S → S;
  pa_kalloc : M S Z;
  pa_kfree : Z → M S unit;
  pa_kalloc_huge : M S Z;
  pa_kfree_huge : Z → M S unit
}.

(** Bytes of the pages that satisfy [P]. *)
Definition page_byte (P : Z → Prop) (a : Z) : Prop := ∃ p, P p ∧ p ≤ a < p + PGSIZE.

(** The 4 KB pages of a 2 MB page. *)
Definition in_huge (h p : Z) : Prop := ∃ k, 0 ≤ k < 512 ∧ p = h + k * PGSIZE.

(** [pa_free s p]: the page at physical address [p] is free.  [pa_managed p]:
    [p] is one of the pages the allocator hands out. *)
Class PageAllocSpec (S : Type) `{PageAllocOps S} := {
  pa_ok : S → Prop;
  pa_free : S → Z → Prop;
  pa_managed : Z → Prop;

  pa_mem_set m s : pa_mem (pa_set_mem m s) = m;
  pa_free_set m s p : pa_free (pa_set_mem m s) p ↔ pa_free s p;
  pa_set_set m m' s : pa_set_mem m (pa_set_mem m' s) = pa_set_mem m s;
  pa_ok_set m s :
    pa_ok s → (∀ a, page_byte (pa_free s) a → ldb m a = ldb (pa_mem s) a) →
    pa_ok (pa_set_mem m s);
  pa_managed_page p :
    pa_managed p → KERNBASE ≤ p ∧ p + PGSIZE ≤ PHYSTOP ∧ p mod PGSIZE = 0;
  pa_free_managed s p : pa_ok s → pa_free s p → pa_managed p;

  (** An allocation fails only when no page is free; otherwise the page it
      returns was free and is free no more.  Only free pages are written. *)
  pa_kalloc_spec s :
    pa_ok s →
    wp pa_kalloc (λ r s', pa_ok s' ∧
      ((r = 0 ∧ (∀ p, ¬ pa_free s p) ∧ s' = s) ∨
       (pa_free s r ∧ (∀ p, pa_free s' p ↔ pa_free s p ∧ p ≠ r) ∧
        same_outside (page_byte (pa_free s)) (pa_mem s) (pa_mem s')))) s;

  pa_kfree_spec s p :
    pa_ok s → pa_managed p → ¬ pa_free s p →
    wp (pa_kfree p) (λ _ s', pa_ok s' ∧
      (∀ q, pa_free s' q ↔ pa_free s q ∨ q = p) ∧
      same_outside (page_byte (pa_free s')) (pa_mem s) (pa_mem s')) s;

  pa_kalloc_huge_spec s :
    pa_ok s →
    wp pa_kalloc_huge (λ r s', pa_ok s' ∧
      ((r = 0 ∧ s' = s) ∨
       (r mod HUGEPGSIZE = 0 ∧ (∀ p, in_huge r p → pa_free s p) ∧
        (∀ p, pa_free s' p ↔ pa_free s p ∧ ¬ in_huge r p) ∧
        same_outside (page_byte (pa_free s)) (pa_mem s) (pa_mem s')))) s;

  pa_kfree_huge_spec s h :
    pa_ok s → h mod HUGEPGSIZE = 0 → (∀ p, in_huge h p → pa_managed p ∧ ¬ pa_free s p) →
    wp (pa_kfree_huge h) (λ _ s', pa_ok s' ∧
      (∀ q, pa_free s' q ↔ pa_free s q ∨ in_huge h q) ∧
      same_outside (page_byte (pa_free s')) (pa_mem s) (pa_mem s')) s
}.
