(* ===== verification/Buddy.v ===== *)
(** * Buddy blocks, abstractly

    The combinatorics behind [kernel/kalloc.c], on page indices.  A block map
    [p] gives, for each page index, the order of the free block that starts
    there, or -1; this is what the array [page_state] holds. *)

From S2P Require Import Prelude Layout.

(** Number of managed page frames: [2 ^ MAX_ORDER]. *)
Definition npages : Z := 32768.

Definition upd (p : Z → Z) (i v : Z) : Z → Z := λ j, if decide (j = i) then v else p j.

(** The free block that starts at [j] contains page [i]. *)
Definition covers (p : Z → Z) (j i : Z) : Prop :=
  0 ≤ j < npages ∧ 0 ≤ p j ∧ j ≤ i < j + 2 ^ p j.

Definition page_free (p : Z → Z) (i : Z) : Prop := ∃ j, covers p j i.

(** No page of the block [i, i + 2^o) is free. *)
Definition block_used (p : Z → Z) (i o : Z) : Prop :=
  ∀ k, i ≤ k < i + 2 ^ o → ¬ page_free p k.

Record buddy_ok (p : Z → Z) : Prop := {
  bo_range : ∀ i, 0 ≤ i < npages → p i = -1 ∨ 0 ≤ p i ≤ 15;
  bo_align : ∀ i, 0 ≤ i < npages → 0 ≤ p i → i mod 2 ^ p i = 0;
  bo_disj : ∀ i j k, covers p j i → covers p k i → j = k;
  bo_coalesced : ∀ i, 0 ≤ i < npages → 0 ≤ p i < 15 → p (Z.lxor i (2 ^ p i)) ≠ p i
}.

Lemma elem_of_seqZ_npages j : j ∈ seqZ 0 npages ↔ 0 ≤ j < npages.
Proof. rewrite elem_of_seqZ. lia. Qed.

#[global] Instance page_free_dec p i : Decision (page_free p i).
Proof.
  refine (cast_if (decide (Exists (λ j, 0 ≤ p j ∧ j ≤ i < j + 2 ^ p j) (seqZ 0 npages))));
    unfold page_free, covers; setoid_rewrite <-elem_of_seqZ_npages; rewrite <-Exists_exists; done.
Defined.

Lemma upd_eq p i v : upd p i v i = v.
Proof. unfold upd. by rewrite decide_True. Qed.

Lemma upd_ne p i v j : j ≠ i → upd p i v j = p j.
Proof. intros H. unfold upd. by rewrite decide_False. Qed.

Lemma pow2_pos o : 0 ≤ o → 0 < 2 ^ o.
Proof. intros. apply Z.pow_pos_nonneg; lia. Qed.

Lemma pow2_succ o : 0 ≤ o → 2 ^ (o + 1) = 2 * 2 ^ o.
Proof. intros. by rewrite Z.pow_add_r, Z.mul_comm by lia. Qed.

Lemma pow2_le o : 0 ≤ o ≤ 15 → 2 ^ o ≤ npages.
Proof. intros. change npages with (2 ^ 15). apply Z.pow_le_mono_r; lia. Qed.

(** Alignment: [i mod 2^o = 0] iff [i = 2^o * q]. *)
Lemma aligned_mult i o : 0 ≤ o → i mod 2 ^ o = 0 → i = 2 ^ o * (i / 2 ^ o).
Proof. intros Ho H. pose proof (Z.div_mod i (2 ^ o)). pose proof (pow2_pos o). lia. Qed.

Lemma aligned_in_range i o :
  0 ≤ o ≤ 15 → 0 ≤ i < npages → i mod 2 ^ o = 0 → i + 2 ^ o ≤ npages.
Proof.
  intros Ho Hi Ha. apply aligned_mult in Ha; [|lia].
  replace npages with (2 ^ o * 2 ^ (15 - o)) in *
    by (rewrite <-Z.pow_add_r by lia; replace (o + (15 - o)) with 15 by lia; done).
  pose proof (pow2_pos o). pose proof (pow2_pos (15 - o)).
  assert (i / 2 ^ o < 2 ^ (15 - o)) by nia. nia.
Qed.

(** Two aligned blocks are nested or disjoint. *)
Lemma aligned_nested i j o o' k :
  0 ≤ o ≤ o' → i mod 2 ^ o = 0 → j mod 2 ^ o' = 0 →
  i ≤ k < i + 2 ^ o → j ≤ k < j + 2 ^ o' → j ≤ i ∧ i + 2 ^ o ≤ j + 2 ^ o'.
Proof.
  intros Ho Hi Hj Hk Hk'. apply aligned_mult in Hi; [|lia]. apply aligned_mult in Hj; [|lia].
  assert (2 ^ o' = 2 ^ o * 2 ^ (o' - o)) as Hp
    by (rewrite <-Z.pow_add_r by lia; f_equal; lia).
  pose proof (pow2_pos o). pose proof (pow2_pos (o' - o)).
  set (a := i / 2 ^ o) in *. set (b := j / 2 ^ o') in *. clearbody a b.
  rewrite Hp in *. set (P := 2 ^ o) in *. set (Q := 2 ^ (o' - o)) in *. clearbody P Q.
  subst i j. assert (Q * b ≤ a) by nia. assert (a + 1 ≤ Q * (b + 1)) by nia. nia.
Qed.

Lemma half_not_aligned i P : 0 < P → i mod (2 * P) = 0 → (i - P) mod (2 * P) = 0 → False.
Proof.
  intros HP H1 H2. apply Z.mod_divide in H1, H2; try lia.
  destruct H1 as [a H1], H2 as [b H2].
  assert (P * 1 = P * (2 * (a - b))) as H by lia. apply Z.mul_reg_l in H; lia.
Qed.

(** The buddy of an aligned block of order [o] is its other half inside the
    enclosing block of order [o + 1]. *)
Lemma xor_buddy i o :
  0 ≤ i → 0 ≤ o → i mod 2 ^ o = 0 →
  (i mod 2 ^ (o + 1) = 0 ∧ Z.lxor i (2 ^ o) = i + 2 ^ o) ∨
  ((i - 2 ^ o) mod 2 ^ (o + 1) = 0 ∧ 2 ^ o ≤ i ∧ Z.lxor i (2 ^ o) = i - 2 ^ o).
Proof.
  intros Hi Ho Ha. apply aligned_mult in Ha; [|lia].
  pose proof (pow2_pos o) as HP. set (q := i / 2 ^ o) in *. clearbody q.
  assert (0 ≤ q) by nia.
  assert (Z.lxor i (2 ^ o) = 2 ^ o * Z.lxor q 1) as ->.
  { subst i. rewrite (Z.mul_comm _ q), (Z.mul_comm _ (Z.lxor _ _)).
    rewrite <-!Z.shiftl_mul_pow2, Z.shiftl_lxor, Z.shiftl_1_l by lia. done. }
  rewrite pow2_succ by lia.
  destruct (Z.Even_or_Odd q) as [[c ->]|[c ->]].
  - left. assert (Z.lxor (2 * c) 1 = 2 * c + 1) as -> by (destruct c; [done|done|lia]).
    split; [|lia]. replace i with (c * (2 * 2 ^ o)) by lia. apply Z.mod_mul. lia.
  - right. assert (Z.lxor (2 * c + 1) 1 = 2 * c) as -> by (destruct c; [done|done|lia]).
    split; [|nia]. replace (i - 2 ^ o) with (c * (2 * 2 ^ o)) by lia. apply Z.mod_mul. lia.
Qed.

Lemma xor_buddy_range i o :
  0 ≤ i < npages → 0 ≤ o < 15 → i mod 2 ^ o = 0 →
  0 ≤ Z.lxor i (2 ^ o) < npages ∧ Z.lxor i (2 ^ o) + 2 ^ o ≤ npages ∧
  Z.lxor i (2 ^ o) mod 2 ^ o = 0 ∧ Z.lxor i (2 ^ o) ≠ i.
Proof.
  intros Hi Ho Ha. pose proof (pow2_pos o ltac:(lia)) as HP.
  assert (i + 2 ^ o ≤ npages) by (apply aligned_in_range; auto; lia).
  destruct (xor_buddy i o) as [[H1 ->]|(H1 & H2 & ->)]; try lia.
  - assert (i + 2 ^ (o + 1) ≤ npages) by (apply aligned_in_range; auto; lia).
    rewrite pow2_succ in * by lia. split_and!; try lia.
    rewrite <-(Z.mul_1_l (2 ^ o)) at 1. by rewrite Z.mod_add by lia.
  - split_and!; try lia. replace (i - 2 ^ o) with (i + -1 * 2 ^ o) by lia.
    by rewrite Z.mod_add by lia.
Qed.

Lemma xor_involutive i o : Z.lxor (Z.lxor i (2 ^ o)) (2 ^ o) = i.
Proof. by rewrite Z.lxor_assoc, Z.lxor_nilpotent, Z.lxor_0_r. Qed.

(** ** Taking a block out of the map *)

Lemma covers_upd_neg p i v j k :
  v < 0 → covers (upd p i v) j k ↔ covers p j k ∧ j ≠ i.
Proof.
  intros Hv. unfold covers, upd. destruct (decide (j = i)); intuition lia.
Qed.

Lemma remove_ok p i v :
  v = -1 → buddy_ok p → buddy_ok (upd p i v).
Proof.
  intros -> [H1 H2 H3 H4]. split.
  - intros j Hj. unfold upd. case_decide; auto.
  - intros j Hj. unfold upd. case_decide; [lia|auto].
  - intros k j j' [Hc _]%covers_upd_neg [Hc' _]%covers_upd_neg; [|lia..]. eauto.
  - intros j Hj. unfold upd. repeat case_decide; try lia. intros Ho.
    specialize (H4 j Hj Ho). lia.
Qed.

Lemma remove_free p i v k :
  v = -1 → buddy_ok p → 0 ≤ i < npages → 0 ≤ p i →
  page_free (upd p i v) k ↔ page_free p k ∧ ¬ (i ≤ k < i + 2 ^ p i).
Proof.
  intros -> Hok Hi Hp. unfold page_free. split.
  - intros [j Hj]. apply covers_upd_neg in Hj as [Hj Hne]; [|lia]. split; [eauto|].
    intros Hk. apply Hne. eapply (bo_disj p Hok k); [done|]. unfold covers. lia.
  - intros [[j Hj] Hk]. exists j. apply covers_upd_neg; [lia|]. split; [done|].
    intros ->. apply Hk. apply Hj.
Qed.

(** ** Putting a block into the map *)

Lemma covers_upd_free p i o j k :
  0 ≤ i < npages → 0 ≤ o →
  covers (upd p i o) j k ↔ (covers p j k ∧ j ≠ i) ∨ (j = i ∧ i ≤ k < i + 2 ^ o).
Proof.
  intros Hi Ho. unfold covers, upd. destruct (decide (j = i)); [subst|]; intuition lia.
Qed.

Lemma block_used_head p i o :
  buddy_ok p → 0 ≤ i < npages → 0 ≤ o → block_used p i o → p i = -1.
Proof.
  intros Hok Hi Ho Hb. pose proof (pow2_pos o Ho).
  destruct (bo_range p Hok i Hi) as [|Hp]; [done|].
  exfalso. apply (Hb i); [lia|]. exists i. pose proof (pow2_pos (p i)).
  unfold covers. lia.
Qed.

Lemma insert_free p i o k :
  p i = -1 → 0 ≤ i < npages → 0 ≤ o →
  page_free (upd p i o) k ↔ page_free p k ∨ i ≤ k < i + 2 ^ o.
Proof.
  intros Hpi Hi Ho. unfold page_free. setoid_rewrite covers_upd_free; [|done..]. split.
  - intros [j [[Hj _]|[-> Hk]]]; eauto.
  - intros [[j Hj]|Hk]; [|by eauto]. exists j. left. split; [done|].
    intros ->. destruct Hj as (_ & Hj & _). lia.
Qed.

Lemma insert_ok p i o :
  buddy_ok p → 0 ≤ i < npages → 0 ≤ o ≤ 15 → i mod 2 ^ o = 0 → block_used p i o →
  (o < 15 → p (Z.lxor i (2 ^ o)) ≠ o) →
  buddy_ok (upd p i o).
Proof.
  intros Hok Hi Ho Ha Hb Hbud.
  assert (p i = -1) as Hpi by (eapply block_used_head; eauto; lia).
  pose proof Hok as [H1 H2 H3 H4]. split.
  - intros j Hj. unfold upd. case_decide; auto.
  - intros j Hj. unfold upd. case_decide; subst; auto.
  - intros k j j' Hc Hc'. rewrite covers_upd_free in Hc, Hc' by lia.
    destruct Hc as [[Hc Hne]|[-> Hk]], Hc' as [[Hc' Hne']|[-> Hk']]; eauto.
    + exfalso. apply (Hb k Hk'). by exists j.
    + exfalso. apply (Hb k Hk). by exists j'.
  - intros j Hj. unfold upd. destruct (decide (j = i)) as [->|Hji].
    + intros Ho'. destruct (decide (Z.lxor i (2 ^ o) = i)) as [He|]; [|auto with lia].
      exfalso. apply (xor_buddy_range i o) in He; auto with lia.
    + intros Hpj. destruct (decide (Z.lxor j (2 ^ p j) = i)) as [He|]; [|by auto].
      intros Heq. apply Hbud; [lia|]. rewrite <-He, Heq, xor_involutive. done.
Qed.

(** ** Coalescing and splitting *)

Lemma merge_step p i o :
  buddy_ok p → 0 ≤ i < npages → 0 ≤ o < 15 → i mod 2 ^ o = 0 → block_used p i o →
  p (Z.lxor i (2 ^ o)) = o →
  let b := Z.lxor i (2 ^ o) in
  let i' := if b <? i then b else i in
  let p' := upd p b (-1) in
  buddy_ok p' ∧ 0 ≤ i' < npages ∧ i' mod 2 ^ (o + 1) = 0 ∧ block_used p' i' (o + 1) ∧
  ∀ k, page_free p' k ∨ i' ≤ k < i' + 2 ^ (o + 1) ↔ page_free p k ∨ i ≤ k < i + 2 ^ o.
Proof.
  intros Hok Hi Ho Ha Hb Hpb. cbv zeta.
  destruct (xor_buddy_range i o) as (Hbr & _ & _ & Hbi); auto.
  pose proof (pow2_pos o ltac:(lia)) as HP.
  assert (∀ k, page_free (upd p (Z.lxor i (2 ^ o)) (-1)) k ↔
     page_free p k ∧ ¬ (Z.lxor i (2 ^ o) ≤ k < Z.lxor i (2 ^ o) + 2 ^ o)) as Hfree.
  { intros k. rewrite remove_free by (auto; lia). by rewrite Hpb. }
  assert (∀ k, Z.lxor i (2 ^ o) ≤ k < Z.lxor i (2 ^ o) + 2 ^ o → page_free p k) as Hbf.
  { intros k Hk. exists (Z.lxor i (2 ^ o)). unfold covers. rewrite Hpb. lia. }
  split; [by apply remove_ok|].
  unfold block_used in *. setoid_rewrite Hfree.
  pose proof (xor_buddy i o ltac:(lia) ltac:(lia) Ha) as Hx.
  set (b := Z.lxor i (2 ^ o)) in *. clearbody b. clear Hfree Hpb.
  rewrite pow2_succ in * by lia. set (i' := if b <? i then b else i).
  assert (i' = Z.min i b ∧ i' mod (2 * 2 ^ o) = 0 ∧ (b = i + 2 ^ o ∨ b = i - 2 ^ o))
    as (Hi' & Hm & Hb').
  { unfold i'. destruct (Z.ltb_spec b i); destruct Hx as [[H1 ->]|(H1 & H2 & ->)]; lia. }
  clearbody i'. clear Hx. split_and!; try lia.
  - intros k Hk [Hf Hn]. apply (Hb k); [lia|done].
  - intros k. specialize (Hb k). specialize (Hbf k).
    destruct (decide (b ≤ k < b + 2 ^ o)), (decide (i ≤ k < i + 2 ^ o)); intuition lia.
Qed.

Lemma split_step p i o :
  buddy_ok p → 0 ≤ i < npages → 0 ≤ o < 15 → i mod 2 ^ (o + 1) = 0 →
  block_used p i (o + 1) →
  let p' := upd p (i + 2 ^ o) o in
  buddy_ok p' ∧ p (i + 2 ^ o) = -1 ∧ 0 ≤ i + 2 ^ o < npages ∧ i mod 2 ^ o = 0 ∧
  block_used p' i o ∧
  ∀ k, page_free p' k ↔ page_free p k ∨ i + 2 ^ o ≤ k < i + 2 ^ (o + 1).
Proof.
  intros Hok Hi Ho Ha Hb. cbv zeta. pose proof (pow2_pos o ltac:(lia)) as HP.
  assert (i + 2 ^ (o + 1) ≤ npages) as Hr by (apply aligned_in_range; auto; lia).
  assert (i mod 2 ^ o = 0) as Ha'.
  { apply aligned_mult in Ha; [|lia]. rewrite Ha, pow2_succ by lia.
    replace (2 * 2 ^ o * _) with (2 * (i / (2 * 2 ^ o)) * 2 ^ o) by lia. apply Z.mod_mul. lia. }
  assert ((i + 2 ^ o) mod 2 ^ o = 0) as Ha''.
  { rewrite <-(Z.mul_1_l (2 ^ o)) at 1. by rewrite Z.mod_add by lia. }
  unfold block_used in *. rewrite pow2_succ in * by lia.
  assert (block_used p (i + 2 ^ o) o) as Hb2 by (intros k Hk; apply Hb; lia).
  assert (p (i + 2 ^ o) = -1) as Hp by (apply (block_used_head p _ o); auto; lia).
  assert (Z.lxor (i + 2 ^ o) (2 ^ o) = i) as Hx.
  { destruct (xor_buddy i o) as [[H1 He]|(H1 & H2 & He)]; try lia.
    - by rewrite <-He, xor_involutive.
    - exfalso. rewrite pow2_succ in H1 by lia. by apply (half_not_aligned i (2 ^ o)). }
  split; [|split; [|split; [|split; [|split]]]]; try lia; try done.
  - apply insert_ok; auto; try lia. intros _. rewrite Hx.
    assert (p i = -1); [|lia]. eapply (block_used_head p i o); auto; try lia.
    intros k Hk. apply Hb. lia.
  - intros k Hk. rewrite insert_free by lia. intros [?|?]; [|lia]. by apply (Hb k); [lia|].
  - intros k. rewrite insert_free by lia. intuition lia.
Qed.

(** ** A maximal block covers every aligned free region

    With no two free buddies of the same order, a region of [2^o] aligned free
    pages always lies inside one free block. *)
Lemma coalesced_complete p o i :
  buddy_ok p → 0 ≤ o ≤ 15 → 0 ≤ i < npages → i mod 2 ^ o = 0 →
  (∀ k, i ≤ k < i + 2 ^ o → page_free p k) →
  ∃ j, covers p j i ∧ o ≤ p j ∧ i + 2 ^ o ≤ j + 2 ^ p j.
Proof.
  intros Hok Ho. destruct Ho as [Ho0 Ho15]. revert i Ho15. pattern o.
  apply natlike_ind; [| |done].
  - intros i _ Hi _ Hf. destruct (Hf i) as [j Hj]; [simpl; lia|].
    exists j. split; [done|]. destruct Hj as (? & ? & ?).
    split; [lia|]. simpl. pose proof (pow2_pos (p j)). lia.
  - clear o Ho0. intros o Ho IH i Ho15 Hi Ha Hf. rewrite <-Z.add_1_r in *.
    pose proof (pow2_pos o Ho) as HP. pose proof (pow2_succ o Ho) as HS.
    assert (i + 2 ^ (o + 1) ≤ npages) as Hr by (apply aligned_in_range; auto; lia).
    assert (i mod 2 ^ o = 0) as Ha'.
    { apply aligned_mult in Ha; [|lia]. rewrite Ha, HS.
      replace (2 * 2 ^ o * _) with (2 * (i / (2 * 2 ^ o)) * 2 ^ o) by lia.
      apply Z.mod_mul. lia. }
    destruct (IH i) as (j & Hj & Hoj & Hej); auto; try lia; [intros; apply Hf; lia|].
    assert (p j ≤ 15) as Hj15 by (destruct Hj as (? & ? & _); destruct (bo_range p Hok j); lia).
    pose proof (bo_align p Hok j ltac:(apply Hj) ltac:(apply Hj)) as Haj.
    destruct (decide (o + 1 ≤ p j)) as [Hbig|Hsmall].
    { exists j. split; [done|]. split; [done|].
      destruct Hj as (? & ? & ?).
      edestruct (aligned_nested i j (o + 1) (p j) i); eauto; try lia. }
    assert (p j = o) as Hpj by lia. clear Hoj Hsmall.
    assert (j = i) as ->.
    { destruct Hj as (? & ? & ?). rewrite Hpj in *.
      destruct (aligned_nested j i o o i); auto; try lia. }
    exfalso. destruct (IH (i + 2 ^ o)) as (j' & Hj' & Hoj' & Hej'); auto; try lia.
    { rewrite <-(Z.mul_1_l (2 ^ o)) at 1. by rewrite Z.mod_add by lia. }
    { intros; apply Hf; lia. }
    assert (p j' ≤ 15) as Hj15' by (destruct Hj' as (? & ? & _); destruct (bo_range p Hok j'); lia).
    pose proof (bo_align p Hok j' ltac:(apply Hj') ltac:(apply Hj')) as Haj'.
    assert (j' ≠ i) as Hne.
    { intros ->. destruct Hj' as (_ & _ & ?). rewrite Hpj in *. lia. }
    assert (p j' = o) as Hpj'.
    { destruct (decide (o + 1 ≤ p j')) as [Hbig|]; [|lia]. exfalso. apply Hne.
      destruct Hj' as (? & ? & ?).
      destruct (aligned_nested i j' (o + 1) (p j') (i + 2 ^ o)) as [? ?]; auto; try lia.
      eapply (bo_disj p Hok i); [|done]. unfold covers. lia. }
    assert (j' = i + 2 ^ o) as ->.
    { destruct Hj' as (? & ? & ?). rewrite Hpj' in *. lia. }
    apply (bo_coalesced p Hok i); auto; [lia|]. rewrite Hpj.
    destruct (xor_buddy i o) as [[H1 ->]|(H1 & H2 & _)]; auto; try lia.
    exfalso. rewrite HS in *. by apply (half_not_aligned i (2 ^ o)).
Qed.

(** ** Block maps up to pointwise equality *)

Notation "p ≐ q" := (pointwise_relation Z (@eq Z) p q) (at level 70).

#[global] Instance covers_proper :
  Proper (pointwise_relation Z eq ==> eq ==> eq ==> iff) covers.
Proof. intros p q H j _ <- i _ <-. unfold covers. by rewrite (H j). Qed.

#[global] Instance page_free_proper :
  Proper (pointwise_relation Z eq ==> eq ==> iff) page_free.
Proof.
  intros p q H i _ <-. unfold page_free.
  split; intros [j Hj]; exists j; [by rewrite <-H|by rewrite H].
Qed.

#[global] Instance block_used_proper :
  Proper (pointwise_relation Z eq ==> eq ==> eq ==> iff) block_used.
Proof.
  intros p q H i _ <- o _ <-. unfold block_used.
  split; intros Hb k Hk Hf; apply (Hb k Hk); [by rewrite H|by rewrite <-H].
Qed.

#[global] Instance buddy_ok_proper :
  Proper (pointwise_relation Z eq ==> iff) buddy_ok.
Proof.
  assert (∀ p q, p ≐ q → buddy_ok p → buddy_ok q) as Hx.
  { intros p q H [H1 H2 H3 H4]. split.
    - intros i. rewrite <-(H i). apply H1.
    - intros i. rewrite <-(H i). apply H2.
    - intros i j k. rewrite <-H. apply H3.
    - intros i. rewrite <-!(H _). apply H4. }
  intros p q H. split; apply Hx; [done|by symmetry].
Qed.
