(* ===== verification/Kalloc.v ===== *)
(** * The buddy page allocator: [kernel/kalloc.c]

    The free lists are intrusive: a free block of order [o] is a
    [struct run] in its own first page, at physical address [r], with [next]
    at [r], [prev] at [r + 8] and [order] (an [int]) at [r + 16].  The globals
    [buddy] and [page_state] and the physical memory are the state. *)

From S2P Require Import Prelude Mem Kstring Layout.

Definition MIN_ORDER : Z := 0.
Definition MAX_ORDER : Z := 15.
Definition HUGE_ORDER : Z := HUGEPGORDER.
Definition NPAGES : Z := (PHYSTOP - KERNBASE) / PGSIZE.
Definition PAGE_STATE_ALLOC : Z := -1.

Record kmem := KMem {
  k_lock : bool;               (* buddy.lock *)
  k_freelist : list Z;         (* buddy.freelist, a null pointer is 0 *)
  k_base : Z;                  (* buddy.base *)
  k_limit : Z;                 (* buddy.limit *)
  k_page_state : gmap Z Z;     (* page_state, zero where nothing was stored *)
  k_mem : mem                  (* physical memory *)
}.

Definition set_k_lock (b : bool) (s : kmem) : kmem :=
  KMem b (k_freelist s) (k_base s) (k_limit s) (k_page_state s) (k_mem s).
Definition set_k_freelist (l : list Z) (s : kmem) : kmem :=
  KMem (k_lock s) l (k_base s) (k_limit s) (k_page_state s) (k_mem s).
Definition set_k_range (b l : Z) (s : kmem) : kmem :=
  KMem (k_lock s) (k_freelist s) b l (k_page_state s) (k_mem s).
Definition set_k_page_state (p : gmap Z Z) (s : kmem) : kmem :=
  KMem (k_lock s) (k_freelist s) (k_base s) (k_limit s) p (k_mem s).
Definition set_k_mem (m : mem) (s : kmem) : kmem :=
  KMem (k_lock s) (k_freelist s) (k_base s) (k_limit s) (k_page_state s) m.

(** Reads and writes of the globals and of memory. *)
Definition head_of (s : kmem) (order : Z) : Z := default 0 (k_freelist s !! Z.to_nat order).
Definition pstate (s : kmem) (i : Z) : Z := default 0 (k_page_state s !! i).
Definition set_head (order r : Z) : M kmem unit :=
  modify (λ s, set_k_freelist (<[Z.to_nat order := r]> (k_freelist s)) s).
Definition set_pstate (i v : Z) : M kmem unit :=
  modify (λ s, set_k_page_state (<[i := v]> (k_page_state s)) s).
Definition rd64 (a : Z) : M kmem Z := gets (λ s, ld64 (k_mem s) a).
Definition wr64 (a v : Z) : M kmem unit := modify (λ s, set_k_mem (st64 (k_mem s) a v) s).
Definition wr32 (a v : Z) : M kmem unit := modify (λ s, set_k_mem (st32 (k_mem s) a v) s).

Definition acquire_kmem : M kmem unit := acquire k_lock set_k_lock.
Definition release_kmem : M kmem unit := release k_lock set_k_lock.

Definition order_size (order : Z) : Z := u64 (Z.shiftl PGSIZE order).

Definition pa_to_index (pa : Z) : M kmem Z :=
  base ← gets k_base;
  limit ← gets k_limit;
  panic_if ((pa <? base) || (pa >=? limit)) "pa_to_index";;
  mret ((pa - base) / PGSIZE).

Definition list_insert (order r : Z) : M kmem unit :=
  wr32 (r + 16) order;;
  wr64 (r + 8) 0;;
  h ← gets (λ s, head_of s order);
  wr64 r h;;
  next ← rd64 r;
  (if next =? 0 then mret tt else wr64 (next + 8) r);;
  set_head order r.

Definition list_remove (order r : Z) : M kmem unit :=
  prev ← rd64 (r + 8);
  (if negb (prev =? 0) then
     next ← rd64 r;
     wr64 prev next
   else
     h ← gets (λ s, head_of s order);
     if h =? r then
       next ← rd64 r;
       set_head order next
     else mret tt);;
  next ← rd64 r;
  (if negb (next =? 0) then
     prev ← rd64 (r + 8);
     wr64 (next + 8) prev
   else mret tt);;
  wr64 (r + 8) 0;;
  wr64 r 0.

(** One turn of the coalescing loop; [inr] leaves it with the block to
    insert. *)
Definition buddy_merge_step (x : Z * Z * Z) : M kmem ((Z * Z * Z) + (Z * Z * Z)) :=
  let '(pa, idx, order) := x in
  if negb (order <? MAX_ORDER) then mret (inr x) else
  base ← gets k_base;
  limit ← gets k_limit;
  let offset := u64 (pa - base) in
  let buddy_off := Z.lxor offset (order_size order) in
  let buddy_pa := u64 (base + buddy_off) in
  if (buddy_pa <? base) || (u64 (buddy_pa + order_size order) >? limit) then mret (inr x) else
  buddy_idx ← pa_to_index buddy_pa;
  st ← gets (λ s, pstate s buddy_idx);
  if negb (st =? order) then mret (inr x) else
  list_remove order buddy_pa;;
  set_pstate buddy_idx PAGE_STATE_ALLOC;;
  let pa' := if buddy_pa <? pa then buddy_pa else pa in
  idx' ← pa_to_index pa';
  mret (inl (pa', idx', order + 1)).

Definition buddy_free_locked (pa order : Z) : M kmem unit :=
  panic_if ((order <? MIN_ORDER) || (order >? MAX_ORDER)) "buddy_free_locked order";;
  panic_if (negb (pa mod order_size order =? 0)) "buddy_free_locked align";;
  idx ← pa_to_index pa;
  st ← gets (λ s, pstate s idx);
  panic_if (negb (st =? PAGE_STATE_ALLOC)) "buddy double free";;
  x ← loop 17 buddy_merge_step (pa, idx, order);
  let '(pa, idx, order) := x in
  list_insert order pa;;
  set_pstate idx order.

(** One turn of the splitting loop of [buddy_alloc_locked]. *)
Definition buddy_split_step (order r current : Z) : M kmem (Z + unit) :=
  if negb (current >? order) then mret (inr tt) else
  let current := current - 1 in
  let pa := u64 (r + order_size current) in
  list_insert current pa;;
  i ← pa_to_index pa;
  set_pstate i current;;
  mret (inl current).

Definition buddy_alloc_at (order current : Z) : M kmem (option Z) :=
  r ← gets (λ s, head_of s current);
  if r =? 0 then mret None else
  list_remove current r;;
  i ← pa_to_index r;
  set_pstate i PAGE_STATE_ALLOC;;
  loop 17 (buddy_split_step order r) current;;
  modify (λ s, set_k_mem (memset (k_mem s) r 5 (order_size order)) s);;
  mret (Some r).

Definition buddy_alloc_locked (order : Z) : M kmem Z :=
  panic_if ((order <? MIN_ORDER) || (order >? MAX_ORDER)) "buddy_alloc_locked order";;
  r ← for_ret (seqZ order (MAX_ORDER + 1 - order)) (buddy_alloc_at order);
  mret (default 0 r).

(** The inner loop of [buddy_add_range]: the largest order that is aligned at
    [start] and fits before [end_]. *)
Fixpoint fit_order (order : nat) (start end_ : Z) : Z :=
  match order with
  | O => MIN_ORDER
  | S o => let sz := order_size (Z.of_nat order) in
           if (start mod sz =? 0) && (u64 (start + sz) <=? end_) then Z.of_nat order
           else fit_order o start end_
  end.

Definition add_range_step (end_ start : Z) : M kmem (Z + unit) :=
  if negb (u64 (start + PGSIZE) <=? end_) then mret (inr tt) else
  let order := fit_order (Z.to_nat MAX_ORDER) start end_ in
  let sz := order_size order in
  buddy_free_locked start order;;
  mret (inl (u64 (start + sz))).

Definition buddy_add_range (start end_ : Z) : M kmem unit :=
  if start >=? end_ then mret tt else
  acquire_kmem;;
  loop (Z.to_nat (NPAGES + 1)) (add_range_step (PGROUNDDOWN end_)) (PGROUNDUP start);;
  release_kmem.

Section Kalloc.
(** [end], the first address after the kernel, comes from the linker script. *)
Variable kend : Z.

Definition kinit : M kmem unit :=
  modify (set_k_lock false);;
  modify (set_k_range KERNBASE PHYSTOP);;
  for_each (seqZ 0 (MAX_ORDER + 1)) (λ i, set_head i 0);;
  for_each (seqZ 0 NPAGES) (λ i, set_pstate i PAGE_STATE_ALLOC);;
  let managed_start := PGROUNDUP kend in
  limit ← gets k_limit;
  buddy_add_range managed_start limit.

Definition kfree (pa : Z) : M kmem unit :=
  limit ← gets k_limit;
  panic_if (negb (pa mod PGSIZE =? 0) || (pa <? kend) || (pa >=? limit)) "kfree";;
  modify (λ s, set_k_mem (memset (k_mem s) pa 1 PGSIZE) s);;
  acquire_kmem;;
  buddy_free_locked pa MIN_ORDER;;
  release_kmem.
End Kalloc.

Definition kalloc : M kmem Z :=
  acquire_kmem;;
  result ← buddy_alloc_locked MIN_ORDER;
  release_kmem;;
  mret result.

Definition kalloc_huge : M kmem Z :=
  acquire_kmem;;
  result ← buddy_alloc_locked HUGE_ORDER;
  release_kmem;;
  mret result.

Definition kfree_huge (pa : Z) : M kmem unit :=
  base ← gets k_base;
  limit ← gets k_limit;
  panic_if (negb (pa mod HUGEPGSIZE =? 0) || (pa <? base) || (u64 (pa + HUGEPGSIZE) >? limit))
    "kfree_huge";;
  modify (λ s, set_k_mem (memset (k_mem s) pa 1 HUGEPGSIZE) s);;
  acquire_kmem;;
  buddy_free_locked pa HUGE_ORDER;;
  release_kmem.
