(* ===== verification/KallocCorrect.v ===== *)
(** * Correctness of the buddy allocator

    The invariant of [kernel/kalloc.c] and what each operation does to the set
    of free pages. *)

From S2P Require Import Prelude Mem Kstring Layout Buddy Kalloc.

Ltac ksimp := cbn [k_lock k_freelist k_base k_limit k_page_state k_mem
  set_k_lock set_k_freelist set_k_range set_k_page_state set_k_mem negb andb orb] in *.
Ltac wp_red ::= ksimp.

(** Physical address of page frame [i]. *)
Definition addr (i : Z) : Z := KERNBASE + PGSIZE * i.

Definition in_page (i a : Z) : Prop := addr i ≤ a < addr i + PGSIZE.

(** The doubly linked list of [struct run] that starts at [head], as the list
    of its page frames. *)
Fixpoint dlist (m : mem) (prev head : Z) (l : list Z) : Prop :=
  match l with
  | [] => head = 0
  | i :: l' => head = addr i ∧ ld64 m (addr i + 8) = prev ∧
               dlist m (addr i) (ld64 m (addr i)) l'
  end.

(** Free list [o] holds exactly the frames where a block of order [o] starts. *)
Definition lists_rep (s : kmem) (p : Z → Z) : Prop :=
  ∀ o, 0 ≤ o ≤ 15 → ∃ l, dlist (k_mem s) 0 (head_of s o) l ∧ NoDup l ∧
    ∀ i, i ∈ l ↔ 0 ≤ i < npages ∧ p i = o.

Record kinv (s : kmem) : Prop := {
  ki_base : k_base s = KERNBASE;
  ki_limit : k_limit s = PHYSTOP;
  ki_len : length (k_freelist s) = 16%nat;
  ki_lists : lists_rep s (pstate s);
  ki_ok : buddy_ok (pstate s)
}.

(** The abstract state: the set of free page frames. *)
Definition kfree_page (s : kmem) (i : Z) : Prop := page_free (pstate s) i.

(** Bytes that belong to free pages. *)
Definition kfree_byte (s : kmem) (a : Z) : Prop := ∃ i, kfree_page s i ∧ in_page i a.

(** Bytes of the first pages of the free blocks of [p], where the list nodes
    live. *)
Definition node_byte (p : Z → Z) (a : Z) : Prop :=
  ∃ i, 0 ≤ i < npages ∧ 0 ≤ p i ∧ in_page i a.

(** ** Lists in memory *)

Lemma addr_inj i j : addr i = addr j → i = j.
Proof. unfold addr, PGSIZE. lia. Qed.

Lemma addr_nonzero i : 0 ≤ i → addr i ≠ 0.
Proof. unfold addr, KERNBASE, PGSIZE. lia. Qed.

Lemma addr_u64 i : 0 ≤ i < npages → 0 ≤ addr i < 18446744073709551616.
Proof. unfold addr, KERNBASE, PGSIZE, npages. lia. Qed.

Lemma dlist_frame m m' prev head l :
  (∀ i, i ∈ l → ld64 m' (addr i) = ld64 m (addr i) ∧
                ld64 m' (addr i + 8) = ld64 m (addr i + 8)) →
  dlist m prev head l → dlist m' prev head l.
Proof.
  induction l as [|i l IH] in prev, head |- *; intros Hf; simpl; [done|].
  intros (-> & Hp & Hl). destruct (Hf i) as [H1 H2]; [set_solver|].
  rewrite H1, H2. split_and!; [done|done|]. apply IH; [set_solver|done].
Qed.

(** Pushing a node: [next] of the new node is the old head, whose [prev] is
    set. *)
Lemma dlist_cons m m' i head l :
  dlist m 0 head l → i ∉ l → NoDup l →
  ld64 m' (addr i) = head → ld64 m' (addr i + 8) = 0 →
  (∀ j, j ∈ l → ld64 m' (addr j) = ld64 m (addr j) ∧
     ld64 m' (addr j + 8) = if decide (addr j = head) then addr i else ld64 m (addr j + 8)) →
  dlist m' 0 (addr i) (i :: l).
Proof.
  intros Hl Hi Hnd H1 H2 Hf. simpl. split_and!; [done|done|]. rewrite H1. clear H1 H2.
  destruct l as [|j l]; simpl in *; [done|]. destruct Hl as (-> & _ & Hl).
  destruct (Hf j) as [Hn Hp]; [set_solver|]. rewrite decide_True in Hp by done.
  split_and!; [done|done|]. rewrite Hn. eapply dlist_frame; [|done].
  intros k Hk. destruct (Hf k) as [Hkn Hkp]; [set_solver|]. split; [done|].
  rewrite Hkp, decide_False; [done|]. intros He%addr_inj. subst.
  apply NoDup_cons in Hnd. naive_solver.
Qed.

(** The neighbours of a node. *)
Lemma dlist_mid m prev h l1 i l2 :
  dlist m prev h (l1 ++ i :: l2) →
  ld64 m (addr i + 8) = from_option addr prev (last l1) ∧
  ld64 m (addr i) = from_option addr 0 (head l2).
Proof.
  induction l1 as [|y l1 IH] in prev, h |- *; cbn [app dlist].
  - intros (_ & -> & Hl). split; [done|]. destruct l2; simpl in *; naive_solver.
  - intros (_ & _ & Hl). apply IH in Hl as [-> ->]. split; [|done].
    rewrite last_cons. by destruct (last l1).
Qed.

(** Unlinking node [i]: its neighbours point at each other. *)
Lemma dlist_remove m m' prev h l1 i l2 :
  dlist m prev h (l1 ++ i :: l2) → NoDup (l1 ++ i :: l2) →
  (∀ j, j ∈ l1 ++ l2 → 0 ≤ j ∧ addr j ≠ prev) →
  (∀ j, j ∈ l1 ++ l2 →
     ld64 m' (addr j) = (if decide (addr j = ld64 m (addr i + 8)) then ld64 m (addr i)
                         else ld64 m (addr j)) ∧
     ld64 m' (addr j + 8) = (if decide (addr j = ld64 m (addr i)) then ld64 m (addr i + 8)
                             else ld64 m (addr j + 8))) →
  dlist m' prev (if decide (l1 = []) then ld64 m (addr i) else h) (l1 ++ l2).
Proof.
  induction l1 as [|y l1 IH] in prev, h |- *; cbn [app dlist]; intros Hl Hnd Hprev Hf.
  - destruct Hl as (-> & Hpi & Hl). rewrite decide_True by done.
    apply NoDup_cons in Hnd as [Hi Hnd].
    destruct l2 as [|j l2]; simpl in *; [done|]. destruct Hl as (Hn & _ & Hl).
    destruct (Hf j) as [Hjn Hjp]; [set_solver|].
    rewrite decide_True in Hjp by done.
    rewrite decide_False in Hjn by (rewrite Hpi; apply Hprev; set_solver).
    split_and!; [done|congruence|]. rewrite Hjn. eapply dlist_frame; [|done].
    intros k Hk. destruct (Hf k) as [Hkn Hkp]; [set_solver|].
    rewrite decide_False in Hkn by (rewrite Hpi; apply Hprev; set_solver).
    rewrite decide_False in Hkp; [done|]. rewrite Hn. intros ->%addr_inj.
    apply NoDup_cons in Hnd. naive_solver.
  - destruct Hl as (-> & Hpy & Hl). rewrite decide_False by done.
    apply NoDup_cons in Hnd as [Hy Hnd]. pose proof (dlist_mid _ _ _ _ _ _ Hl) as [Hp Hn].
    destruct (Hf y) as [Hyn Hyp]; [set_solver|].
    rewrite decide_False in Hyp.
    2: { rewrite Hn. destruct (Hprev y) as [Hy0 _]; [set_solver|].
         destruct (head l2) as [z|] eqn:Hz; simpl; [|by apply addr_nonzero].
         intros <-%addr_inj. apply Hy. apply head_Some_elem_of in Hz. set_solver. }
    split_and!; [done|congruence|]. rewrite Hyn, Hp.
    replace (if decide (addr y = from_option addr (addr y) (last l1)) then _ else _)
      with (if decide (l1 = []) then ld64 m (addr i) else ld64 m (addr y)).
    + apply IH; [done|done| |].
      * intros j Hj. split; [apply Hprev; set_solver|]. intros ->%addr_inj. set_solver.
      * intros j Hj. apply Hf. set_solver.
    + destruct l1 as [|z l1]; [simpl; by rewrite !decide_True|].
      rewrite (decide_False (P := _ :: _ = _)) by done. rewrite decide_False; [done|].
      rewrite last_cons. simpl.
      destruct (last l1) as [w|] eqn:Hw; simpl; intros <-%addr_inj; apply Hy.
      * apply last_Some_elem_of in Hw. set_solver.
      * set_solver.
Qed.

(** ** [list_insert] and [list_remove] *)

(** The memory after [r->prev->next = r->next; r->next->prev = r->prev;
    r->next = r->prev = 0]. *)
Definition unlinked (m : mem) (r : Z) : mem :=
  let pr := ld64 m (r + 8) in
  let nx := ld64 m r in
  let m1 := if pr =? 0 then m else st64 m pr nx in
  let m2 := if nx =? 0 then m1 else st64 m1 (nx + 8) pr in
  st64 (st64 m2 (r + 8) 0) r 0.

Ltac page_lia := unfold in_page, addr, KERNBASE, PGSIZE, npages in *; lia.

(** Simplify loads from stores to fields of list nodes. *)
Ltac mem_simp :=
  repeat first
    [ rewrite ldn_stn_ne by page_lia
    | rewrite ld64_st64_eq by first [apply ld64_range | page_lia] ].

(** [x] is null or a list node other than [i]. *)
Definition null_or_node (i x : Z) : Prop :=
  x = 0 ∨ ∃ j, 0 ≤ j < npages ∧ j ≠ i ∧ x = addr j.

Lemma list_remove_wp o i s Q :
  0 ≤ i < npages →
  null_or_node i (ld64 (k_mem s) (addr i + 8)) → null_or_node i (ld64 (k_mem s) (addr i)) →
  (ld64 (k_mem s) (addr i + 8) = 0 → head_of s o = addr i) →
  Q tt (set_k_mem (unlinked (k_mem s) (addr i))
         (set_k_freelist (if ld64 (k_mem s) (addr i + 8) =? 0
                          then <[Z.to_nat o := ld64 (k_mem s) (addr i)]> (k_freelist s)
                          else k_freelist s) s)) →
  wp (list_remove o (addr i)) Q s.
Proof.
  intros Hi Hp Hn Hh HQ. unfold list_remove, rd64, wr64, set_head, unlinked in *.
  wp_simpl. destruct s as [lk fl bs lm ps m]; ksimp.
  destruct Hp as [Hp|(a & Ha & Hai & Hp)]; rewrite Hp in *.
  - rewrite Z.eqb_refl in *. ksimp. wp_simpl. rewrite Hh, Z.eqb_refl by done. wp_simpl.
    destruct Hn as [Hn|(b & Hb & Hbi & Hn)]; rewrite Hn in *.
    + rewrite Z.eqb_refl in *. ksimp. by wp_simpl.
    + rewrite (proj2 (Z.eqb_neq (addr b) 0)) in * by (apply addr_nonzero; lia).
      ksimp. wp_simpl. by rewrite Hp.
  - rewrite (proj2 (Z.eqb_neq (addr a) 0)) in * by (apply addr_nonzero; lia).
    ksimp. wp_simpl. rewrite (ldn_stn_ne _ _ _ _ (addr i)) by page_lia.
    destruct Hn as [Hn|(b & Hb & Hbi & Hn)]; rewrite Hn in *.
    + rewrite Z.eqb_refl in *. ksimp. by wp_simpl.
    + rewrite (proj2 (Z.eqb_neq (addr b) 0)) in * by (apply addr_nonzero; lia).
      ksimp. wp_simpl. rewrite (ldn_stn_ne _ _ _ _ (addr i + 8)) by page_lia. by rewrite Hp.
Qed.

(** A conditional store [if (x) x->f = v;] seen by a load. *)
Lemma ld64_cond_st m x f v a :
  0 ≤ v < 18446744073709551616 →
  x = 0 ∨ a = x + f ∨ a + 8 ≤ x + f ∨ x + f + 8 ≤ a →
  ld64 (if x =? 0 then m else st64 m (x + f) v) a =
  if decide (x ≠ 0 ∧ a = x + f) then v else ld64 m a.
Proof.
  intros Hv Ha. destruct (Z.eqb_spec x 0).
  - rewrite decide_False; [done|]. tauto.
  - case_decide as Hd.
    + destruct Hd as [_ ->]. by apply ld64_st64_eq.
    + apply ldn_stn_ne. lia.
Qed.

(** What [unlinked] does to the other nodes. *)
Lemma unlinked_node m i j :
  0 ≤ i < npages → 0 ≤ j < npages → j ≠ i →
  null_or_node i (ld64 m (addr i + 8)) → null_or_node i (ld64 m (addr i)) →
  ld64 (unlinked m (addr i)) (addr j) =
    (if decide (addr j = ld64 m (addr i + 8)) then ld64 m (addr i) else ld64 m (addr j)) ∧
  ld64 (unlinked m (addr i)) (addr j + 8) =
    (if decide (addr j = ld64 m (addr i)) then ld64 m (addr i + 8) else ld64 m (addr j + 8)).
Proof.
  intros Hi Hj Hji Hp Hn. unfold unlinked.
  pose proof (ld64_range m (addr i)). pose proof (ld64_range m (addr i + 8)).
  assert (addr i + 4096 ≤ addr j ∨ addr j + 4096 ≤ addr i) by page_lia.
  set (pr := ld64 m (addr i + 8)) in *. set (nx := ld64 m (addr i)) in *. clearbody pr nx.
  assert (∀ x, null_or_node i x →
    x = 0 ∨ x ≠ 0 ∧ (addr j = x ∨ addr j + 4096 ≤ x ∨ x + 4096 ≤ addr j)) as Hx.
  { intros x [->|(a & ? & ? & ->)]; [by left|right]. pose proof (addr_nonzero a). page_lia. }
  pose proof (addr_nonzero j ltac:(lia)).
  apply Hx in Hp, Hn. clear Hx Hi Hj. rewrite !ldn_stn_ne by lia.
  replace (if pr =? 0 then m else st64 m pr nx)
    with (if pr =? 0 then m else st64 m (pr + 0) nx) by (by rewrite Z.add_0_r).
  rewrite !ld64_cond_st by lia.
  split; repeat case_decide; done || lia.
Qed.

Lemma unlinked_same_outside (P : Z → Prop) m i :
  0 ≤ i < npages → (∀ a, in_page i a → P a) →
  (∀ x, null_or_node i x → x ≠ 0 → x = ld64 m (addr i) ∨ x = ld64 m (addr i + 8) →
        ∀ a, x ≤ a < x + 16 → P a) →
  null_or_node i (ld64 m (addr i + 8)) → null_or_node i (ld64 m (addr i)) →
  same_outside P m (unlinked m (addr i)).
Proof.
  intros Hi HPi HP Hp Hn. unfold unlinked.
  eapply same_outside_trans;
    [|eapply same_outside_trans; [|apply same_outside_stn; intros; apply HPi; page_lia]].
  2: apply same_outside_stn; intros; apply HPi; page_lia.
  destruct (Z.eqb_spec (ld64 m (addr i + 8)) 0), (Z.eqb_spec (ld64 m (addr i)) 0);
    [apply same_outside_refl| | |].
  - apply same_outside_stn. intros b Hb. apply (HP (ld64 m (addr i))); auto with lia.
  - apply same_outside_stn. intros b Hb. apply (HP (ld64 m (addr i + 8))); auto with lia.
  - eapply same_outside_trans; apply same_outside_stn; intros b Hb.
    + apply (HP (ld64 m (addr i + 8))); auto with lia.
    + apply (HP (ld64 m (addr i))); auto with lia.
Qed.

Lemma head_of_set_head s o r o' :
  length (k_freelist s) = 16%nat → 0 ≤ o ≤ 15 → 0 ≤ o' ≤ 15 →
  head_of (set_k_freelist (<[Z.to_nat o := r]> (k_freelist s)) s) o' =
  if decide (o' = o) then r else head_of s o'.
Proof.
  intros Hl Ho Ho'. unfold head_of. ksimp. case_decide; subst.
  - rewrite list_lookup_insert_eq by lia. done.
  - rewrite list_lookup_insert_ne by lia. done.
Qed.

(** The two neighbours of a node of a represented list. *)
Lemma lists_rep_node s p o i :
  lists_rep s p → 0 ≤ o ≤ 15 → 0 ≤ i < npages → p i = o →
  ∃ l1 l2, dlist (k_mem s) 0 (head_of s o) (l1 ++ i :: l2) ∧ NoDup (l1 ++ i :: l2) ∧
    (∀ j, j ∈ l1 ++ i :: l2 ↔ 0 ≤ j < npages ∧ p j = o) ∧
    null_or_node i (ld64 (k_mem s) (addr i + 8)) ∧ null_or_node i (ld64 (k_mem s) (addr i)) ∧
    (∀ j, addr j = ld64 (k_mem s) (addr i + 8) ∨ addr j = ld64 (k_mem s) (addr i) →
          0 ≤ j → j ∈ l1 ++ l2) ∧
    (ld64 (k_mem s) (addr i + 8) = 0 ↔ l1 = []).
Proof.
  intros Hrep Ho Hi Hp. destruct (Hrep o Ho) as (l & Hl & Hnd & Hmem).
  assert (i ∈ l) as Hil by (by apply Hmem).
  apply list_elem_of_split in Hil as (l1 & l2 & ->). exists l1, l2.
  destruct (dlist_mid _ _ _ _ _ _ Hl) as [H1 H2].
  assert (∀ j, j ∈ l1 ++ l2 → 0 ≤ j < npages ∧ j ≠ i) as Hin.
  { intros j Hj. split; [apply (Hmem j); set_solver|]. intros ->.
    apply NoDup_app in Hnd as (_ & Hd & Hnd%NoDup_cons). set_solver. }
  assert (∀ x y, x = from_option addr 0 y → (∀ j, y = Some j → j ∈ l1 ++ l2) →
    null_or_node i x ∧ (∀ j, addr j = x → 0 ≤ j → j ∈ l1 ++ l2)) as Hx.
  { intros x [j|] -> Hj; simpl.
    - split; [right; exists j; split_and!; try apply Hin; auto|]. by intros ? ->%addr_inj _; auto.
    - split; [by left|]. intros j Hj0 ?. by apply addr_nonzero in Hj0. }
  destruct (Hx _ _ H1) as [Hn1 Hj1]; [intros j Hj%last_Some_elem_of; set_solver|].
  destruct (Hx _ _ H2) as [Hn2 Hj2]; [intros j Hj%head_Some_elem_of; set_solver|].
  split_and!; auto; [naive_solver|]. rewrite H1.
  destruct l1 as [|z l1]; [done|]. split; [|done].
  destruct (last (z :: l1)) as [w|] eqn:Hw; [|by apply last_None in Hw].
  simpl. intros Hz. exfalso. apply (addr_nonzero w); [|done].
  apply (Hin w). apply last_Some_elem_of in Hw. set_solver.
Qed.

Lemma list_remove_spec s p o i Q :
  length (k_freelist s) = 16%nat → lists_rep s p → 0 ≤ o ≤ 15 → 0 ≤ i < npages → p i = o →
  (∀ m' fl', length fl' = 16%nat →
     let s' := set_k_mem m' (set_k_freelist fl' s) in
     lists_rep s' (upd p i (-1)) → same_outside (node_byte p) (k_mem s) m' → Q tt s') →
  wp (list_remove o (addr i)) Q s.
Proof.
  intros Hlen Hrep Ho Hi Hp HQ.
  destruct (lists_rep_node s p o i) as (l1 & l2 & Hl & Hnd & Hmem & Hn1 & Hn2 & Hj & H0); auto.
  apply list_remove_wp; auto.
  { intros Hz. apply H0 in Hz. subst l1. by destruct Hl. }
  apply HQ; clear HQ.
  - by destruct (_ =? 0); rewrite ?length_insert.
  - intros o' Ho'. destruct (decide (o' = o)) as [->|Hne].
    + exists (l1 ++ l2). split_and!.
      * replace (head_of _ o) with (if decide (l1 = []) then ld64 (k_mem s) (addr i)
                                    else head_of s o).
        { apply dlist_remove; auto.
          - intros j Hjl. assert (0 ≤ j < npages) by (apply (Hmem j); set_solver).
            split; [lia|]. apply addr_nonzero. lia.
          - intros j Hjl. apply unlinked_node; auto; [apply (Hmem j); set_solver|].
            intros ->. apply NoDup_app in Hnd as (_ & Hd & Hnd%NoDup_cons). set_solver. }
        destruct (Z.eqb_spec (ld64 (k_mem s) (addr i + 8)) 0) as [Hz|Hz].
        -- rewrite decide_True by tauto. unfold head_of. ksimp.
           rewrite list_lookup_insert_eq by lia. done.
        -- rewrite decide_False by tauto. done.
      * apply NoDup_app in Hnd as (Hnd1 & Hd & Hnd2%NoDup_cons).
        apply NoDup_app. split_and!; [done| |naive_solver]. set_solver.
      * intros j. unfold upd. case_decide as Hji; [subst|].
        -- split; [|lia]. intros Hin. exfalso.
           apply NoDup_app in Hnd as (_ & Hd & Hnd%NoDup_cons). set_solver.
        -- rewrite <-Hmem. set_solver.
    + destruct (Hrep o' Ho') as (l' & Hl' & Hnd' & Hmem'). exists l'. split_and!; auto.
      * replace (head_of _ o') with (head_of s o').
        2: { unfold head_of. ksimp. destruct (_ =? 0); [|done].
             rewrite list_lookup_insert_ne by lia. done. }
        eapply dlist_frame; [|done]. intros j Hjl. apply Hmem' in Hjl as [Hjr Hpj].
        assert (j ≠ i) by congruence.
        ksimp. destruct (unlinked_node (k_mem s) i j) as [-> ->]; auto.
        assert (¬ (addr j = ld64 (k_mem s) (addr i + 8) ∨ addr j = ld64 (k_mem s) (addr i)))
          as Hnot.
        { intros Hx. apply Hj in Hx; [|lia]. assert (p j = o); [|congruence].
          apply (Hmem j). set_solver. }
        rewrite !decide_False by tauto. done.
      * intros j. rewrite Hmem'. unfold upd. case_decide; [subst|done].
        split; [|lia]. intros [? ?]. congruence.
  - apply unlinked_same_outside; auto.
    + intros a Ha. exists i. split_and!; auto; lia.
    + intros x Hx Hx0 Hxe a Ha. destruct Hx as [|(j & Hjr & Hji & ->)]; [done|].
      exists j. split; [done|]. split; [|page_lia].
      assert (j ∈ l1 ++ l2) by (apply Hj; [naive_solver|lia]).
      assert (p j = o); [|lia]. apply (Hmem j). set_solver.
Qed.

Lemma list_insert_spec s p o i Q :
  length (k_freelist s) = 16%nat → lists_rep s p → 0 ≤ o ≤ 15 → 0 ≤ i < npages → p i = -1 →
  (∀ m' fl', length fl' = 16%nat →
     let s' := set_k_mem m' (set_k_freelist fl' s) in
     lists_rep s' (upd p i o) → same_outside (node_byte (upd p i o)) (k_mem s) m' → Q tt s') →
  wp (list_insert o (addr i)) Q s.
Proof.
  intros Hlen Hrep Ho Hi Hp HQ. unfold list_insert, rd64, wr64, wr32, set_head. wp_simpl.
  change (head_of (set_k_mem _ _) o) with (head_of s o).
  destruct (Hrep o Ho) as (l & Hl & Hnd & Hmem).
  assert (i ∉ l) as Hil by (intros [_ ?]%Hmem; lia).
  assert (head_of s o = 0 ∨ ∃ j, j ∈ l ∧ head_of s o = addr j) as Hh.
  { destruct l as [|j l]; [by left|right]. exists j. split; [set_solver|]. by destruct Hl. }
  assert (∀ j, j ∈ l → 0 ≤ j < npages ∧ j ≠ i ∧ p j = o) as Hlr.
  { intros j Hj. assert (j ≠ i) by (intros ->; done). apply Hmem in Hj. naive_solver. }
  assert (0 ≤ head_of s o < 18446744073709551616) as Hhr.
  { destruct Hh as [->|(j & Hj & ->)]; [lia|]. apply addr_u64. by apply Hlr. }
  assert (null_or_node i (head_of s o)) as Hhn.
  { destruct Hh as [->|(j & Hj & ->)]; [by left|right]. exists j. naive_solver. }
  rewrite ld64_st64_eq by done. set (h := head_of s o) in *.
  set (m3 := st64 (st64 (st32 (k_mem s) (addr i + 16) o) (addr i + 8) 0) (addr i) h).
  set (m' := if h =? 0 then m3 else st64 m3 (h + 8) (addr i)).
  pose proof (addr_u64 i Hi) as Hiu.
  assert (wp (if h =? 0 then mret () else modify (λ s0, set_k_mem (st64 (k_mem s0) (h + 8) (addr i)) s0))
    (λ _ s', s' = set_k_mem m' s) (set_k_mem m3 s)) as Hcond.
  { unfold m'. destruct (h =? 0); wp_simpl; done. }
  eapply wp_mono; [exact Hcond|]. clear Hcond. intros _ s' ->. ksimp.
  (* the fields of the nodes in the new memory *)
  assert (∀ j, 0 ≤ j < npages → j ≠ i →
    ld64 m' (addr j) = ld64 (k_mem s) (addr j) ∧
    ld64 m' (addr j + 8) = if decide (addr j = h) then addr i else ld64 (k_mem s) (addr j + 8))
    as Hother.
  { intros j Hj Hji.
    assert (h = 0 ∨ h ≠ 0 ∧ (addr j = h ∨ addr j + 4096 ≤ h ∨ h + 4096 ≤ addr j)) as Hd.
    { destruct Hhn as [->|(a & ? & ? & ->)]; [by left|right].
      pose proof (addr_nonzero a). page_lia. }
    pose proof (addr_nonzero j ltac:(lia)).
    assert (addr i + 4096 ≤ addr j ∨ addr j + 4096 ≤ addr i) by page_lia.
    unfold m'. rewrite !ld64_cond_st by lia. unfold m3. rewrite !ldn_stn_ne by lia.
    split; repeat case_decide; done || lia. }
  assert (ld64 m' (addr i) = h ∧ ld64 m' (addr i + 8) = 0) as [Hi1 Hi2].
  { assert (h = 0 ∨ addr i + 4096 ≤ h ∨ h + 4096 ≤ addr i) as Hd.
    { destruct Hhn as [->|(a & ? & ? & ->)]; [by left|right]. page_lia. }
    unfold m'. rewrite !ld64_cond_st, !decide_False by lia. unfold m3.
    rewrite ld64_st64_eq by done. split; [done|].
    rewrite ldn_stn_ne by lia. apply ld64_st64_eq. lia. }
  wp_simpl. refine (HQ m' (<[Z.to_nat o := addr i]> (k_freelist s)) _ _ _); clear HQ.
  - by rewrite length_insert.
  - intros o' Ho'.
    change (head_of (set_k_mem m' ?s) o') with (head_of s o').
    rewrite head_of_set_head by done. ksimp. case_decide as Hoo; [subst o'|].
    + exists (i :: l). split_and!.
      * eapply dlist_cons; [exact Hl|done..|]. intros j Hj. apply Hother; by apply Hlr.
      * by apply NoDup_cons.
      * intros j. rewrite elem_of_cons, Hmem. unfold upd. case_decide; subst; naive_solver.
    + destruct (Hrep o' Ho') as (l' & Hl' & Hnd' & Hmem'). exists l'. split_and!; auto.
      * eapply dlist_frame; [|done]. intros j [Hj Hpj]%Hmem'.
        assert (j ≠ i) by (intros ->; lia). destruct (Hother j) as [-> ->]; auto.
        rewrite decide_False; [done|]. intros Hjh. destruct Hh as [Hz|(a & Ha & Ha')].
        { rewrite Hz in Hjh. apply addr_nonzero in Hjh; [done|lia]. }
        rewrite Ha' in Hjh. apply addr_inj in Hjh. subst. apply Hlr in Ha. lia.
      * intros j. rewrite Hmem'. unfold upd. case_decide; subst; naive_solver lia.
  - unfold m', m3. assert (∀ a, in_page i a → node_byte (upd p i o) a) as Hpi.
    { intros a Ha. exists i. rewrite upd_eq. split_and!; auto; lia. }
    assert (same_outside (node_byte (upd p i o)) (k_mem s) m3) as Hm3.
    { unfold m3. repeat (eapply same_outside_trans;
        [|apply same_outside_stn; intros; apply Hpi; page_lia]). apply same_outside_refl. }
    destruct (Z.eqb_spec h 0); [done|]. eapply same_outside_trans; [exact Hm3|].
    apply same_outside_stn. intros b Hb. destruct Hh as [|(j & Hj & Hhj)]; [done|].
    exists j. destruct (Hlr j Hj) as (? & ? & ?). rewrite upd_ne by done.
    split_and!; try lia; page_lia.
Qed.

(** ** Sizes and indices *)

Lemma order_size_eq o : 0 ≤ o ≤ 15 → order_size o = PGSIZE * 2 ^ o.
Proof.
  intros Ho. unfold order_size. rewrite Z.shiftl_mul_pow2 by lia. apply u64_small.
  pose proof (pow2_pos o). pose proof (pow2_le o Ho). page_lia.
Qed.

Lemma addr_mod_order i o : 0 ≤ o ≤ 15 → addr i mod order_size o = PGSIZE * (i mod 2 ^ o).
Proof.
  intros Ho. rewrite order_size_eq by done. pose proof (pow2_pos o ltac:(lia)).
  unfold addr. change KERNBASE with (PGSIZE * 2 ^ 19).
  rewrite <-Z.mul_add_distr_l, Z.mul_mod_distr_l by (unfold PGSIZE; lia). f_equal.
  replace (2 ^ 19) with (2 ^ (19 - o) * 2 ^ o) by (rewrite <-Z.pow_add_r by lia; f_equal; lia).
  by rewrite Z.add_comm, Z.mod_add by lia.
Qed.

Lemma pa_to_index_wp s i Q :
  k_base s = KERNBASE → k_limit s = PHYSTOP → 0 ≤ i < npages → Q i s →
  wp (pa_to_index (addr i)) Q s.
Proof.
  intros Hb Hl Hi HQ. unfold pa_to_index. wp_simpl; rewrite Hb, ?Hl.
  - unfold PHYSTOP. page_lia.
  - replace ((addr i - KERNBASE) / PGSIZE) with i; [done|]. unfold addr.
    replace (KERNBASE + PGSIZE * i - KERNBASE) with (i * PGSIZE) by lia.
    by rewrite Z.div_mul.
Qed.

Lemma pstate_set s i v :
  pstate (set_k_page_state (<[i := v]> (k_page_state s)) s) ≐ upd (pstate s) i v.
Proof.
  intros j. unfold pstate, upd. ksimp. case_decide; subst.
  - by rewrite lookup_insert_eq.
  - by rewrite lookup_insert_ne.
Qed.

#[global] Instance lists_rep_proper s :
  Proper (pointwise_relation Z eq ==> iff) (lists_rep s).
Proof.
  assert (∀ p q, p ≐ q → lists_rep s p → lists_rep s q) as Hx.
  { intros p q H Hl o Ho. destruct (Hl o Ho) as (l & ? & ? & Hm). exists l.
    split_and!; auto. intros i. by rewrite <-(H i). }
  intros p q H. split; apply Hx; [done|by symmetry].
Qed.

(** Lists and free pages do not depend on the other fields. *)
Lemma lists_rep_state s s' p :
  k_mem s' = k_mem s → k_freelist s' = k_freelist s → lists_rep s p → lists_rep s' p.
Proof. unfold lists_rep, head_of. by intros -> ->. Qed.

Lemma node_byte_free p a : buddy_ok p → node_byte p a → ∃ k, page_free p k ∧ in_page k a.
Proof.
  intros Hok (i & Hi & Hp & Ha). exists i. split; [|done]. exists i.
  unfold covers. pose proof (pow2_pos (p i) Hp). lia.
Qed.

(** ** Freeing *)

(** Bytes of free pages and of the block being freed. *)
Definition grown_byte (s : kmem) (i o a : Z) : Prop :=
  ∃ k, (kfree_page s k ∨ i ≤ k < i + 2 ^ o) ∧ in_page k a.

(** The loop invariant of the coalescing loop. *)
Definition merge_inv (s0 : kmem) (i0 o0 : Z) (x : Z * Z * Z) (s : kmem) : Prop :=
  let '(pa, i, o) := x in
  pa = addr i ∧ 0 ≤ i < npages ∧ 0 ≤ o ≤ 15 ∧ i mod 2 ^ o = 0 ∧
  k_base s = KERNBASE ∧ k_limit s = PHYSTOP ∧ length (k_freelist s) = 16%nat ∧
  k_lock s = k_lock s0 ∧ lists_rep s (pstate s) ∧ buddy_ok (pstate s) ∧
  block_used (pstate s) i o ∧
  (∀ k, page_free (pstate s) k ∨ i ≤ k < i + 2 ^ o ↔ kfree_page s0 k ∨ i0 ≤ k < i0 + 2 ^ o0) ∧
  same_outside (grown_byte s0 i0 o0) (k_mem s0) (k_mem s).

(** The address [buddy_free_locked] computes for the buddy of a block. *)
Lemma buddy_addr i o :
  0 ≤ i < npages → 0 ≤ o < 15 → i mod 2 ^ o = 0 →
  u64 (KERNBASE + Z.lxor (u64 (addr i - KERNBASE)) (order_size o)) = addr (Z.lxor i (2 ^ o)).
Proof.
  intros Hi Ho Ha. destruct (xor_buddy_range i o) as (Hbr & Hbe & Hba & Hbi); auto.
  pose proof (pow2_pos o ltac:(lia)) as HP.
  replace (addr i - KERNBASE) with (i * 2 ^ 12) by page_lia.
  rewrite (u64_small (i * _)) by page_lia.
  rewrite order_size_eq by lia. replace (PGSIZE * 2 ^ o) with (2 ^ o * 2 ^ 12) by page_lia.
  rewrite <-!Z.shiftl_mul_pow2, <-Z.shiftl_lxor, Z.shiftl_mul_pow2 by lia.
  replace (KERNBASE + _ * _) with (addr (Z.lxor i (2 ^ o))) by page_lia.
  apply u64_small, addr_u64. lia.
Qed.

Lemma buddy_merge_step_spec s0 i0 o0 x s :
  merge_inv s0 i0 o0 x s →
  wp (buddy_merge_step x)
     (λ r s', match r with
              | inl x' => merge_inv s0 i0 o0 x' s' ∧ x'.2 = x.2 + 1
              | inr x' => x' = x ∧ s' = s ∧ ∀ pa i o, x = (pa, i, o) →
                          o < 15 → pstate s (Z.lxor i (2 ^ o)) ≠ o
              end) s.
Proof.
  destruct x as [[pa i] o].
  intros (-> & Hi & Ho & Ha & Hb & Hl & Hlen & Hlk & Hrep & Hok & Hused & Hfree & Hmem).
  unfold buddy_merge_step. unfold MAX_ORDER. destruct (Z.ltb_spec o 15) as [Ho'|Ho']; ksimp.
  2: { wp_simpl. split_and!; auto. intros ? ? ? [= <- <- <-]. lia. }
  destruct (xor_buddy_range i o) as (Hbr & Hbe & Hba & Hbi); auto; [lia|].
  pose proof (pow2_pos o ltac:(lia)) as HP.
  wp_simpl. rewrite Hb, Hl.
  rewrite buddy_addr by (auto; lia).
  set (b := Z.lxor i (2 ^ o)) in *.
  rewrite order_size_eq, (u64_small (addr b + _)) by page_lia.
  rewrite (proj2 (Z.ltb_ge _ _)) by page_lia.
  replace (_ >? PHYSTOP) with false by (unfold PHYSTOP; page_lia). ksimp. wp_simpl.
  apply pa_to_index_wp; auto. wp_simpl.
  destruct (Z.eqb_spec (pstate s b) o) as [Hpb|Hpb]; ksimp.
  2: { wp_simpl. split_and!; auto. intros ? ? ? [= <- <- <-]. done. }
  wp_simpl. apply (list_remove_spec s (pstate s) o b); auto.
  intros m' fl' Hlen' s' Hrep' Hout. unfold set_pstate. wp_simpl.
  destruct (merge_step (pstate s) i o) as (Hok' & Hi' & Ha' & Hused' & Hfree'); auto; [lia|].
  fold b in Hok', Hi', Ha', Hused', Hfree'.
  replace (if addr b <? addr i then addr b else addr i) with (addr (if b <? i then b else i)).
  2: { destruct (Z.ltb_spec b i), (Z.ltb_spec (addr b) (addr i)); done || page_lia. }
  apply pa_to_index_wp; auto. wp_simpl. simpl. split; [|done].
  unfold PAGE_STATE_ALLOC in *.
  set (s2 := set_k_page_state _ s').
  assert (pstate s2 ≐ upd (pstate s) b (-1)) as Hps by apply (pstate_set s').
  split_and!; try rewrite Hps; try done; try lia.
  - intros k. by rewrite Hps, Hfree', Hfree.
  - eapply same_outside_trans; [exact Hmem|]. eapply same_outside_weaken; [exact Hout|].
    intros a (k & Hk & Hka)%node_byte_free; [|done]. exists k. split; [|done].
    apply Hfree. by left.
Qed.

(** [buddy_free_locked] on a block whose pages are all in use: it returns, the
    block's pages become free and no other page changes status. *)
Lemma buddy_free_spec s i o Q :
  kinv s → 0 ≤ o ≤ 15 → 0 ≤ i < npages → i mod 2 ^ o = 0 → block_used (pstate s) i o →
  (∀ s', kinv s' → k_lock s' = k_lock s →
     (∀ k, kfree_page s' k ↔ kfree_page s k ∨ i ≤ k < i + 2 ^ o) →
     same_outside (kfree_byte s') (k_mem s) (k_mem s') → Q tt s') →
  wp (buddy_free_locked (addr i) o) Q s.
Proof.
  intros [Hb Hl Hlen Hrep Hok] Ho Hi Ha Hused HQ. unfold buddy_free_locked.
  wp_simpl; [unfold MIN_ORDER, MAX_ORDER; lia| |].
  { rewrite addr_mod_order, Ha by done. done. }
  apply pa_to_index_wp; auto. wp_simpl.
  { rewrite (block_used_head (pstate s) i o) by (auto; lia). done. }
  eapply (wp_loop (λ x s', merge_inv s i o x s') (λ x _, Z.to_nat (15 - x.2))).
  { split_and!; auto; try lia; apply same_outside_refl. }
  { simpl. lia. }
  intros x s1 Hx. eapply wp_mono; [by apply buddy_merge_step_spec|].
  intros [x'|x'] s2.
  { intros [Hx' He]. split; [done|]. rewrite He. destruct x as [[pa' i'] o']. simpl.
    destruct x' as [[pa2 i2] o2]. simpl in He. destruct Hx' as (_ & _ & ? & _).
    destruct Hx as (_ & _ & ? & _). lia. }
  intros (-> & -> & Hbud). clear Ha Hused Hi.
  destruct x as [[pa i'] o'].
  destruct Hx as (-> & Hi' & Ho' & Ha' & Hb' & Hl' & Hlen' & Hlk' & Hrep' & Hok' & Hused' & Hfree' & Hmem').
  specialize (Hbud _ _ _ eq_refl).
  assert (pstate s1 i' = -1) as Hpi by (apply (block_used_head _ _ o'); auto; lia).
  wp_simpl. apply (list_insert_spec s1 (pstate s1) o' i'); auto.
  intros m' fl' Hfl s' Hrep2 Hout. unfold set_pstate. wp_simpl.
  set (s3 := set_k_page_state _ s').
  assert (pstate s3 ≐ upd (pstate s1) i' o') as Hps by apply (pstate_set s').
  assert (∀ k, kfree_page s3 k ↔ kfree_page s k ∨ i ≤ k < i + 2 ^ o) as Hfree3.
  { intros k. unfold kfree_page at 1. rewrite Hps, insert_free, Hfree' by lia. done. }
  assert (buddy_ok (upd (pstate s1) i' o')) as Hok3 by (apply insert_ok; auto).
  apply HQ; auto.
  - split; auto; rewrite Hps; done.
  - eapply same_outside_trans.
    + eapply same_outside_weaken; [exact Hmem'|]. intros a (k & Hk & Hka).
      exists k. by rewrite Hfree3.
    + eapply same_outside_weaken; [exact Hout|].
      intros a (k & Hk & Hka)%node_byte_free; [|done]. exists k. split; [|done].
      unfold kfree_page. by rewrite Hps.
Qed.

(** ** Memory outside the free pages belongs to its owners *)

Lemma lists_rep_mem s p m' :
  (∀ a, node_byte p a → ldb m' a = ldb (k_mem s) a) → lists_rep s p →
  lists_rep (set_k_mem m' s) p.
Proof.
  intros Hm Hrep o Ho. destruct (Hrep o Ho) as (l & Hl & Hnd & Hin). exists l.
  split_and!; auto. eapply dlist_frame; [|exact Hl]. intros i [Hi Hpi]%Hin. ksimp.
  split; apply ldn_ext; intros b Hb; apply Hm; exists i; split_and!; try lia; page_lia.
Qed.

(** The allocator's invariant and its free set survive any write to pages that
    are in use. *)
Lemma kinv_set_mem s m' :
  kinv s → (∀ a, kfree_byte s a → ldb m' a = ldb (k_mem s) a) → kinv (set_k_mem m' s).
Proof.
  intros [Hb Hl Hlen Hrep Hok] Hm. split; auto. apply lists_rep_mem; [|exact Hrep].
  intros a Ha. apply Hm. by apply node_byte_free.
Qed.

(** ** Allocation *)

(** The loop invariant of the splitting loop: the block [i] of order [c] is
    taken, everything else is as in the initial state. *)
Definition split_inv (s0 : kmem) (i o c : Z) (s : kmem) : Prop :=
  o ≤ c ≤ 15 ∧ i mod 2 ^ c = 0 ∧ kinv s ∧ k_lock s = k_lock s0 ∧
  block_used (pstate s) i c ∧
  (∀ k, kfree_page s k ↔ kfree_page s0 k ∧ ¬ (i ≤ k < i + 2 ^ c)) ∧
  (∀ k, i ≤ k < i + 2 ^ c → kfree_page s0 k) ∧
  same_outside (kfree_byte s0) (k_mem s0) (k_mem s).

Lemma buddy_split_step_spec s0 i o c s :
  0 ≤ o → 0 ≤ i < npages → split_inv s0 i o c s →
  wp (buddy_split_step o (addr i) c)
     (λ r s', match r with
              | inl c' => split_inv s0 i o c' s' ∧ c' = c - 1
              | inr _ => s' = s ∧ c = o
              end) s.
Proof.
  intros Ho Hi (Hc & Ha & [Hb Hl Hlen Hrep Hok] & Hlk & Hused & Hfree & Hwas & Hmem).
  unfold buddy_split_step. destruct (c >? o) eqn:Hco; ksimp; [|wp_simpl; split; [done|lia]].
  assert (o < c) as Hco' by lia. clear Hco.
  replace c with (c - 1 + 1) in Ha, Hused by lia.
  destruct (split_step (pstate s) i (c - 1)) as (Hok' & Hp & Hr & Ha' & Hused' & Hfree'); auto; [lia|].
  replace (u64 (addr i + order_size (c - 1))) with (addr (i + 2 ^ (c - 1))).
  2: { rewrite order_size_eq by lia. pose proof (addr_u64 _ Hr). rewrite u64_small; page_lia. }
  wp_simpl. apply (list_insert_spec s (pstate s)); auto; [lia|].
  intros m' fl' Hfl s' Hrep' Hout. wp_simpl. apply pa_to_index_wp; auto.
  unfold set_pstate. wp_simpl. set (s2 := set_k_page_state _ s').
  assert (pstate s2 ≐ upd (pstate s) (i + 2 ^ (c - 1)) (c - 1)) as Hps by apply (pstate_set s').
  replace (c - 1 + 1) with c in * by lia.
  assert (2 ^ c = 2 * 2 ^ (c - 1)) as HS by (rewrite <-pow2_succ by lia; f_equal; lia).
  pose proof (pow2_pos (c - 1) ltac:(lia)) as HP.
  split; [|done]. split_and!; auto; try lia.
  - split; auto; rewrite Hps; done.
  - by rewrite Hps.
  - intros k. unfold kfree_page at 1. rewrite Hps, Hfree'. fold (kfree_page s k). rewrite Hfree.
    destruct (decide (i ≤ k < i + 2 ^ c)) as [Hin|]; [pose proof (Hwas k Hin)|];
      intuition lia.
  - intros k Hk. apply Hwas. lia.
  - eapply same_outside_trans; [exact Hmem|]. eapply same_outside_weaken; [exact Hout|].
    intros a (k & Hk & Hka)%node_byte_free; [|done]. exists k. split; [|done].
    rewrite Hfree' in Hk. destruct Hk as [Hk|Hk]; [by apply Hfree|]. apply Hwas. lia.
Qed.

Lemma buddy_alloc_at_spec s o c Q :
  kinv s → 0 ≤ o ≤ c → c ≤ 15 →
  (head_of s c = 0 → Q None s) →
  (∀ i s', kinv s' → k_lock s' = k_lock s → 0 ≤ i < npages → i mod 2 ^ o = 0 →
     (∀ k, i ≤ k < i + 2 ^ o → kfree_page s k) →
     (∀ k, kfree_page s' k ↔ kfree_page s k ∧ ¬ (i ≤ k < i + 2 ^ o)) →
     same_outside (kfree_byte s) (k_mem s) (k_mem s') →
     (∀ a, addr i ≤ a < addr i + PGSIZE * 2 ^ o → ldb (k_mem s') a = 5) →
     Q (Some (addr i)) s') →
  wp (buddy_alloc_at o c) Q s.
Proof.
  intros [Hb Hl Hlen Hrep Hok] Ho Hc HQ0 HQ. unfold buddy_alloc_at. wp_simpl.
  destruct (Hrep c ltac:(lia)) as (l & Hdl & Hnd & Hin).
  destruct l as [|i l]; cbn [dlist] in Hdl.
  { rewrite Hdl. rewrite Z.eqb_refl. wp_simpl. auto. }
  destruct Hdl as (Hh & _ & _). rewrite Hh in *.
  destruct (proj1 (Hin i)) as [Hi Hpi]; [set_solver|].
  rewrite (proj2 (Z.eqb_neq _ _)) by (apply addr_nonzero; lia). wp_simpl.
  apply (list_remove_spec s (pstate s)); auto; [lia|].
  intros m' fl' Hfl s' Hrep' Hout. wp_simpl. apply pa_to_index_wp; auto.
  unfold set_pstate. wp_simpl. set (s2 := set_k_page_state _ s'). unfold PAGE_STATE_ALLOC in *.
  assert (pstate s2 ≐ upd (pstate s) i (-1)) as Hps by apply (pstate_set s').
  assert (buddy_ok (upd (pstate s) i (-1))) as Hok2 by (by apply remove_ok).
  assert (∀ k, page_free (upd (pstate s) i (-1)) k ↔ kfree_page s k ∧ ¬ (i ≤ k < i + 2 ^ c))
    as Hfr by (intros k; rewrite remove_free by (auto; lia); by rewrite Hpi).
  assert (kinv s2) as Hinv2 by (split; auto; rewrite Hps; done).
  eapply (wp_loop (λ c' s1, split_inv s i o c' s1) (λ c' _, Z.to_nat (c' - o))); [|lia|].
  { split_and!; auto; try lia.
    - rewrite <-Hpi. apply bo_align; auto; lia.
    - rewrite Hps. intros k Hk. rewrite Hfr. tauto.
    - intros k. unfold kfree_page at 1. by rewrite Hps, Hfr.
    - intros k Hk. exists i. unfold covers. rewrite Hpi. lia.
    - eapply same_outside_weaken; [exact Hout|].
      intros a (k & Hk & Hka)%node_byte_free; [|done]. by exists k. }
  intros c' s1 Hs1. eapply wp_mono; [apply (buddy_split_step_spec s i o c'); auto; lia|].
  intros [c2|[]] s3.
  { intros [Hs3 ->]. split; [done|]. destruct Hs3 as (? & _). lia. }
  intros [-> ->]. destruct Hs1 as (_ & Ha & Hinv & Hlk & Hused & Hfree & Hwas & Hmem).
  wp_simpl. rewrite order_size_eq by lia. pose proof (pow2_pos o ltac:(lia)) as HP.
  assert (∀ a, kfree_byte s1 a → ¬ (addr i ≤ a < addr i + PGSIZE * 2 ^ o)) as Hdis.
  { intros a (k & Hk & Hka) Har. apply (Hused k); [|done].
    unfold in_page, addr, PGSIZE in *. nia. }
  apply HQ; auto.
  - apply kinv_set_mem; [done|]. intros a Ha'. apply memset_out. by apply Hdis.
  - ksimp. eapply same_outside_trans; [exact Hmem|]. apply memset_same_outside.
    intros a Har. exists ((a - KERNBASE) / PGSIZE). split.
    + apply Hwas. unfold addr, PGSIZE in *. split.
      * apply Z.div_le_lower_bound; lia.
      * apply Z.div_lt_upper_bound; nia.
    + unfold in_page, addr, PGSIZE. pose proof (Z.div_mod (a - KERNBASE) 4096).
      pose proof (Z.mod_pos_bound (a - KERNBASE) 4096). lia.
  - intros a Har. ksimp. by rewrite memset_in.
Qed.

(** [buddy_alloc_locked]: either nothing changes and no free block of that
    order or more exists, or an aligned block of free pages is handed out. *)
Lemma buddy_alloc_spec s o Q :
  kinv s → 0 ≤ o ≤ 15 →
  ((∀ j, 0 ≤ j < npages → pstate s j < o) → Q 0 s) →
  (∀ i s', kinv s' → k_lock s' = k_lock s → 0 ≤ i < npages → i mod 2 ^ o = 0 →
     (∀ k, i ≤ k < i + 2 ^ o → kfree_page s k) →
     (∀ k, kfree_page s' k ↔ kfree_page s k ∧ ¬ (i ≤ k < i + 2 ^ o)) →
     same_outside (kfree_byte s) (k_mem s) (k_mem s') →
     (∀ a, addr i ≤ a < addr i + PGSIZE * 2 ^ o → ldb (k_mem s') a = 5) →
     Q (addr i) s') →
  wp (buddy_alloc_locked o) Q s.
Proof.
  intros Hinv Ho HQ0 HQ. unfold buddy_alloc_locked. wp_simpl;
    [unfold MIN_ORDER, MAX_ORDER; lia|].
  apply (wp_for_ret (λ d s', s' = s ∧ ∀ c, c ∈ d → head_of s c = 0)).
  - split; [done|]. set_solver.
  - intros d c rest s' Heq [-> Hd].
    assert (o ≤ c ≤ 15) as Hc.
    { assert (c ∈ seqZ o (MAX_ORDER + 1 - o)) as Hc by (rewrite Heq; set_solver).
      apply elem_of_seqZ in Hc. unfold MAX_ORDER in Hc. lia. }
    apply buddy_alloc_at_spec; auto; try lia.
    + intros Hh. split; [done|]. intros c' [Hc'|Hc']%elem_of_app; [auto|]. set_solver.
  - intros s' [-> Hd]. wp_simpl. simpl. apply HQ0. intros j Hj.
    destruct (decide (o ≤ pstate s j)) as [Hle|]; [|lia]. exfalso.
    destruct (bo_range _ (ki_ok s Hinv) j Hj) as [|Hr]; [lia|].
    destruct (ki_lists s Hinv (pstate s j) Hr) as (l & Hdl & _ & Hin).
    assert (j ∈ l) as Hjl by (by apply Hin).
    assert (head_of s (pstate s j) = 0) as Hz.
    { apply Hd, elem_of_seqZ. unfold MAX_ORDER. lia. }
    destruct l as [|i l]; [set_solver|]. destruct Hdl as (Hh & _).
    destruct (proj1 (Hin i)) as [? _]; [set_solver|].
    apply (addr_nonzero i); [lia|]. congruence.
Qed.

(** ** [kinit] *)

Lemma fit_order_spec n i :
  (n ≤ 15)%nat → 0 ≤ i < npages →
  let o := fit_order n (addr i) PHYSTOP in
  0 ≤ o ≤ 15 ∧ i mod 2 ^ o = 0 ∧ i + 2 ^ o ≤ npages.
Proof.
  intros Hn Hi. induction n as [|n IH]; cbn [fit_order].
  { unfold MIN_ORDER. rewrite Z.mod_1_r. lia. }
  destruct (_ && _) eqn:E; [|apply IH; lia]. apply andb_true_iff in E as [E1 E2].
  pose proof (pow2_pos (Z.of_nat (S n)) ltac:(lia)) as HP.
  rewrite addr_mod_order in E1 by lia. split; [lia|].
  apply Z.eqb_eq, Z.mul_eq_0 in E1 as [?|Ha]; [done|]. split; [done|].
  apply aligned_in_range; auto; lia.
Qed.

(** One iteration of [buddy_add_range] over free-to-be pages. *)
Definition range_inv (s0 : kmem) (i0 start : Z) (s : kmem) : Prop :=
  ∃ i, start = addr i ∧ i0 ≤ i ≤ npages ∧ kinv s ∧ k_lock s = k_lock s0 ∧
    (∀ k, kfree_page s k ↔ i0 ≤ k < i).

Lemma add_range_step_spec s0 i0 start s :
  0 ≤ i0 → range_inv s0 i0 start s →
  wp (add_range_step PHYSTOP start)
     (λ r s', match r with
              | inl start' => range_inv s0 i0 start' s' ∧ start < start'
              | inr _ => s' = s ∧ start = PHYSTOP
              end) s.
Proof.
  intros Hi0 (i & -> & Hi & Hinv & Hlk & Hfree). unfold add_range_step.
  rewrite u64_small by page_lia.
  destruct (Z.leb_spec (addr i + PGSIZE) PHYSTOP) as [Hle|Hgt]; ksimp.
  2: { wp_simpl. split; [done|]. unfold PHYSTOP in *. page_lia. }
  assert (i < npages) as Hin by (unfold PHYSTOP in *; page_lia).
  destruct (fit_order_spec 15 i) as (Ho & Ha & He); [lia|lia|].
  change (Z.to_nat MAX_ORDER) with 15%nat in *.
  set (o := fit_order 15 (addr i) PHYSTOP) in *. clearbody o.
  pose proof (pow2_pos o ltac:(lia)) as HP.
  wp_simpl. apply buddy_free_spec; auto; [lia| |].
  { intros k Hk Hf. apply Hfree in Hf. lia. }
  intros s' Hinv' Hlk' Hfree' _. wp_simpl. rewrite order_size_eq, u64_small by page_lia.
  split; [|page_lia]. exists (i + 2 ^ o). split_and!; auto; try page_lia; [congruence|].
  intros k. rewrite Hfree', Hfree. lia.
Qed.

(** The state [kinit] starts the range loop from: every page in use. *)
Definition all_used (s : kmem) : Prop :=
  k_base s = KERNBASE ∧ k_limit s = PHYSTOP ∧ length (k_freelist s) = 16%nat ∧
  (∀ o, 0 ≤ o ≤ 15 → head_of s o = 0) ∧ (∀ i, 0 ≤ i < npages → pstate s i = -1).

Lemma all_used_not_free s k : all_used s → ¬ kfree_page s k.
Proof. intros (_ & _ & _ & _ & Hp) (j & Hj & Hpj & _). rewrite Hp in Hpj by done. lia. Qed.

Lemma all_used_kinv s : all_used s → kinv s.
Proof.
  intros Hs. pose proof (all_used_not_free s) as Hnf.
  pose proof Hs as (Hb & Hl & Hlen & Hh & Hp). split; auto.
  - intros o Ho. exists []. split_and!; [by apply Hh|constructor|].
    intros i. rewrite elem_of_nil. split; [done|]. intros [Hi Hpi]. rewrite Hp in Hpi by done. lia.
  - split.
    + intros i Hi. left. auto.
    + intros i Hi. rewrite Hp by done. lia.
    + intros i j k Hj _. exfalso. apply (Hnf i Hs). by exists j.
    + intros i Hi. rewrite Hp by done. lia.
Qed.

Lemma set_heads_wp s Q :
  length (k_freelist s) = 16%nat →
  (∀ fl, length fl = 16%nat → (∀ o, 0 ≤ o ≤ 15 → head_of (set_k_freelist fl s) o = 0) →
     Q tt (set_k_freelist fl s)) →
  wp (for_each (seqZ 0 (MAX_ORDER + 1)) (λ i, set_head i 0)) Q s.
Proof.
  intros Hlen HQ.
  apply (wp_for_each (λ d s', ∃ fl, s' = set_k_freelist fl s ∧ length fl = 16%nat ∧
    ∀ o, o ∈ d → head_of s' o = 0)).
  - exists (k_freelist s). split_and!; [by destruct s|done|set_solver].
  - intros d x rest s' Heq (fl & -> & Hfl & Hd). unfold set_head. wp_simpl.
    assert (x ∈ seqZ 0 (MAX_ORDER + 1)) as Hx by (rewrite Heq; set_solver).
    apply elem_of_seqZ in Hx. unfold MAX_ORDER in Hx.
    exists (<[Z.to_nat x := 0]> fl). split_and!; [done|by rewrite length_insert|].
    intros o Ho. unfold head_of. ksimp. destruct (decide (Z.to_nat o = Z.to_nat x)) as [He|He].
    + rewrite He, list_lookup_insert_eq by lia. done.
    + rewrite list_lookup_insert_ne by lia. apply Hd.
      apply elem_of_app in Ho as [Ho|Ho]; [done|]. set_solver.
  - intros s' (fl & -> & Hfl & Hd). apply HQ; [done|]. intros o Ho. apply Hd.
    apply elem_of_seqZ. unfold MAX_ORDER. lia.
Qed.

Lemma set_pstates_wp s Q :
  (∀ ps, (∀ i, 0 ≤ i < npages → pstate (set_k_page_state ps s) i = -1) →
     Q tt (set_k_page_state ps s)) →
  wp (for_each (seqZ 0 NPAGES) (λ i, set_pstate i PAGE_STATE_ALLOC)) Q s.
Proof.
  intros HQ.
  apply (wp_for_each (λ d s', ∃ ps, s' = set_k_page_state ps s ∧
    ∀ i, i ∈ d → pstate s' i = -1)).
  - exists (k_page_state s). split; [by destruct s|set_solver].
  - intros d x rest s' Heq (ps & -> & Hd). unfold set_pstate. wp_simpl.
    exists (<[x := -1]> ps). split; [done|]. intros i Hi.
    unfold pstate. ksimp. destruct (decide (i = x)) as [->|He].
    + by rewrite lookup_insert_eq.
    + rewrite lookup_insert_ne by done. apply Hd.
      apply elem_of_app in Hi as [Hi|Hi]; [done|]. set_solver.
  - intros s' (ps & -> & Hd). apply HQ. intros i Hi. apply Hd.
    apply elem_of_seqZ. change NPAGES with npages. lia.
Qed.

Lemma kinit_spec kend s Q :
  KERNBASE ≤ kend ≤ PHYSTOP → length (k_freelist s) = 16%nat →
  (∀ s', kinv s' → k_lock s' = false →
     (∀ i, kfree_page s' i ↔ 0 ≤ i < npages ∧ kend ≤ addr i) → Q tt s') →
  wp (kinit kend) Q s.
Proof.
  intros Hend Hlen HQ. unfold kinit. wp_simpl.
  apply set_heads_wp; [done|]. intros fl Hfl Hh. wp_simpl.
  apply set_pstates_wp. intros ps Hps. wp_simpl.
  set (s1 := set_k_page_state _ _) in *.
  assert (all_used s1) as Hall by (split_and!; auto).
  destruct (PGROUNDUP_bounds kend) as [Hup Hmod]; [unfold PHYSTOP, KERNBASE in *; lia..|].
  assert (∃ i0, PGROUNDUP kend = addr i0 ∧ 0 ≤ i0 ≤ npages ∧ ∀ k, i0 ≤ k ↔ kend ≤ addr k)
    as (i0 & Hi0 & Hi0r & Hi0k).
  { exists ((PGROUNDUP kend - KERNBASE) / PGSIZE).
    apply Z.mod_divide in Hmod as [q Hq]; [|done].
    replace ((PGROUNDUP kend - KERNBASE) / PGSIZE) with (q - 524288).
    2: { rewrite Hq. change KERNBASE with (524288 * PGSIZE).
         by rewrite <-Z.mul_sub_distr_r, Z.div_mul. }
    rewrite Hq in *. unfold PHYSTOP in *. split_and!; try page_lia. }
  rewrite Hi0. change (k_limit s1) with PHYSTOP. unfold buddy_add_range.
  destruct (Z.geb_spec (addr i0) PHYSTOP) as [Hge|Hlt].
  { wp_simpl. apply HQ; [by apply all_used_kinv|done|]. intros i. split.
    - intros Hf. by apply all_used_not_free in Hf.
    - intros [Hi Hk%Hi0k]. unfold PHYSTOP in *. page_lia. }
  unfold acquire_kmem, release_kmem. wp_simpl.
  replace (PGROUNDDOWN PHYSTOP) with PHYSTOP by done.
  replace (PGROUNDUP (addr i0)) with (addr i0).
  2: { rewrite PGROUNDUP_eq by (unfold PHYSTOP in *; page_lia).
       unfold addr. change KERNBASE with (524288 * 4096). unfold PGSIZE.
       replace (524288 * 4096 + 4096 * i0 + 4095) with (4095 + (524288 + i0) * 4096) by lia.
       rewrite Z.div_add by lia. change (4095 / 4096) with 0. lia. }
  eapply (wp_loop (λ st s', range_inv (set_k_lock true s1) i0 st s')
    (λ st _, Z.to_nat ((PHYSTOP - st) / PGSIZE))).
  { exists i0. split_and!; auto; try lia.
    - apply all_used_kinv. by split_and!.
    - intros k. split; [|lia]. intros Hf. by apply (all_used_not_free s1) in Hf. }
  { change (NPAGES + 1) with (npages + 1). unfold PHYSTOP in *.
    apply Z2Nat.inj_lt; [apply Z.div_pos; page_lia|page_lia|].
    apply Z.div_lt_upper_bound; page_lia. }
  intros st s2 Hst. eapply wp_mono; [apply (add_range_step_spec (set_k_lock true s1) i0); [lia|exact Hst]|].
  intros [st'|[]] s3.
  - intros [Hst' Hlt']. split; [done|]. destruct Hst as (i & -> & Hi & _).
    destruct Hst' as (i' & -> & Hi' & _).
    apply Z2Nat.inj_lt; [apply Z.div_pos; unfold PHYSTOP; page_lia..|].
    replace (PHYSTOP - addr i) with ((npages - i) * PGSIZE) by (unfold PHYSTOP; page_lia).
    replace (PHYSTOP - addr i') with ((npages - i') * PGSIZE) by (unfold PHYSTOP; page_lia).
    rewrite !Z.div_mul by done. page_lia.
  - intros [-> ->]. destruct Hst as (i & Hieq & Hi & Hinv & Hlk & Hfree). ksimp.
    wp_simpl. apply HQ; auto.
    + destruct Hinv as [? ? ? Hrep ?]. split; auto.
    + intros k. change (kfree_page (set_k_lock false s2) k) with (kfree_page s2 k).
      rewrite Hfree, <-Hi0k. assert (i = npages) by (unfold PHYSTOP in *; page_lia). lia.
Qed.

(** ** [kalloc], [kfree] and their huge variants *)

Lemma kinv_set_lock s b : kinv s → kinv (set_k_lock b s).
Proof. intros [? ? ? Hrep ?]. by split. Qed.

Lemma no_block_no_page s : kinv s → (∀ j, 0 ≤ j < npages → pstate s j < 0) → ∀ k, ¬ kfree_page s k.
Proof. intros Hinv Hp k (j & Hj & Hpj & _). specialize (Hp j Hj). lia. Qed.

Lemma kalloc_order_wp s o Q :
  kinv s → k_lock s = false → 0 ≤ o ≤ 15 →
  ((∀ j, 0 ≤ j < npages → pstate s j < o) → Q 0 s) →
  (∀ i s', kinv s' → k_lock s' = false → 0 ≤ i < npages → i mod 2 ^ o = 0 →
     (∀ k, i ≤ k < i + 2 ^ o → kfree_page s k) →
     (∀ k, kfree_page s' k ↔ kfree_page s k ∧ ¬ (i ≤ k < i + 2 ^ o)) →
     same_outside (kfree_byte s) (k_mem s) (k_mem s') →
     (∀ a, addr i ≤ a < addr i + PGSIZE * 2 ^ o → ldb (k_mem s') a = 5) →
     Q (addr i) s') →
  wp (acquire_kmem;; result ← buddy_alloc_locked o; release_kmem;; mret result) Q s.
Proof.
  intros Hinv Hlk Ho HQ0 HQ. unfold acquire_kmem, release_kmem. wp_simpl.
  apply buddy_alloc_spec; auto using kinv_set_lock.
  - intros Hp. wp_simpl. destruct s as [lk fl bs lm ps m]; ksimp. subst lk. by apply HQ0.
  - intros i s' Hinv' Hlk' Hi Ha Hwas Hfree Hmem H5. wp_simpl.
    apply (HQ i (set_k_lock false s')); auto using kinv_set_lock.
Qed.

Lemma kfree_order_wp s o i Q :
  kinv s → k_lock s = false → 0 ≤ o ≤ 15 → 0 ≤ i < npages → i mod 2 ^ o = 0 →
  block_used (pstate s) i o →
  (∀ s', kinv s' → k_lock s' = false →
     (∀ k, kfree_page s' k ↔ kfree_page s k ∨ i ≤ k < i + 2 ^ o) →
     same_outside (kfree_byte s') (k_mem s) (k_mem s') → Q tt s') →
  wp (modify (λ s, set_k_mem (memset (k_mem s) (addr i) 1 (PGSIZE * 2 ^ o)) s);;
      acquire_kmem;; buddy_free_locked (addr i) o;; release_kmem) Q s.
Proof.
  intros Hinv Hlk Ho Hi Ha Hused HQ. unfold acquire_kmem, release_kmem. wp_simpl.
  pose proof (pow2_pos o ltac:(lia)) as HP.
  set (s1 := set_k_lock _ _).
  assert (kinv s1) as Hinv1.
  { apply kinv_set_lock, kinv_set_mem; [done|]. intros a (k & Hk & Hka). apply memset_out.
    intros Har. apply (Hused k); [|done]. unfold in_page, addr, PGSIZE in *. nia. }
  apply (buddy_free_spec s1 i o); auto. intros s' Hinv' Hlk' Hfree Hmem. wp_simpl.
  apply HQ; auto using kinv_set_lock. ksimp.
  eapply same_outside_trans; [|exact Hmem]. apply memset_same_outside.
  intros a Har. exists ((a - KERNBASE) / PGSIZE). split.
  - apply Hfree. right. unfold addr, PGSIZE in *. split.
    + apply Z.div_le_lower_bound; lia.
    + apply Z.div_lt_upper_bound; nia.
  - unfold in_page, addr, PGSIZE. pose proof (Z.div_mod (a - KERNBASE) 4096).
    pose proof (Z.mod_pos_bound (a - KERNBASE) 4096). lia.
Qed.
