(* ===== verification/KallocSpec.v ===== *)
(** * What the page allocator promises

    The public operations of [kernel/kalloc.c] on the set of free pages, the
    instance of the interface of [PageAlloc], and the safety of every
    well-behaved client. *)

From S2P Require Import Prelude Mem Kstring Layout PageAlloc Buddy Kalloc KallocCorrect.


(** What an allocation of order [o] that returned [r] did. *)
Definition allocated (o : Z) (s : kmem) (r : Z) (s' : kmem) : Prop :=
  ∃ i, r = addr i ∧ 0 ≤ i < npages ∧ i mod 2 ^ o = 0 ∧
    (∀ k, i ≤ k < i + 2 ^ o → kfree_page s k) ∧
    (∀ k, kfree_page s' k ↔ kfree_page s k ∧ ¬ (i ≤ k < i + 2 ^ o)) ∧
    same_outside (kfree_byte s) (k_mem s) (k_mem s') ∧
    (∀ a, addr i ≤ a < addr i + PGSIZE * 2 ^ o → ldb (k_mem s') a = 5).

(** What freeing the block of order [o] at frame [i] did. *)
Definition freed (o i : Z) (s s' : kmem) : Prop :=
  (∀ k, kfree_page s' k ↔ kfree_page s k ∨ i ≤ k < i + 2 ^ o) ∧
  same_outside (kfree_byte s') (k_mem s) (k_mem s').

(** The invariant between two calls: nobody holds the lock. *)
Definition kidle (s : kmem) : Prop := kinv s ∧ k_lock s = false.

Ltac conj_done := repeat (split; [done|]); done.

Lemma kalloc_idle s : kidle s →
  wp kalloc (λ r s', kidle s' ∧
    ((r = 0 ∧ s' = s ∧ ∀ k, ¬ kfree_page s k) ∨ allocated 0 s r s')) s.
Proof.
  intros [Hinv Hlk]. apply (kalloc_order_wp s 0); [done|done|lia| |].
  - intros Hp. split; [done|]. left. split_and!; auto. by apply no_block_no_page.
  - intros i s' Hinv' Hlk' Hi Ha Hwas Hfree Hmem H5. split; [done|]. right.
    exists i. conj_done.
Qed.

Lemma kalloc_huge_idle s : kidle s →
  wp kalloc_huge (λ r s', kidle s' ∧
    ((r = 0 ∧ s' = s ∧ ∀ j, 0 ≤ j < npages → pstate s j < 9) ∨ allocated 9 s r s')) s.
Proof.
  intros [Hinv Hlk]. apply (kalloc_order_wp s 9); [done|done|lia| |].
  - intros Hp. split; [done|]. left. by split_and!.
  - intros i s' Hinv' Hlk' Hi Ha Hwas Hfree Hmem H5. split; [done|]. right.
    exists i. conj_done.
Qed.

Lemma kfree_idle kend s i :
  kidle s → 0 ≤ i < npages → kend ≤ addr i → ¬ kfree_page s i →
  wp (kfree kend (addr i)) (λ _ s', kidle s' ∧ freed 0 i s s') s.
Proof.
  intros [Hinv Hlk] Hi Hk Hn. unfold kfree. do 4 wp_step.
  { rewrite (ki_limit _ Hinv). unfold addr, PHYSTOP, KERNBASE, PGSIZE, npages in *.
    rewrite (Z.mul_comm 4096 i), Z.mod_add, !orb_false_iff by lia. split_and!; [done|lia..]. }
  apply (kfree_order_wp s 0 i); auto; [lia|apply Z.mod_1_r| |].
  - intros k Hk'. by replace k with i by lia.
  - intros s' Hinv' Hlk' Hfree Hmem. by split_and!.
Qed.

Lemma kfree_huge_idle s i :
  kidle s → 0 ≤ i < npages → i mod 512 = 0 → block_used (pstate s) i 9 →
  wp (kfree_huge (addr i)) (λ _ s', kidle s' ∧ freed 9 i s s') s.
Proof.
  intros [Hinv Hlk] Hi Ha Hu. unfold kfree_huge. do 6 wp_step.
  { rewrite (ki_limit _ Hinv), (ki_base _ Hinv).
    apply Z.mod_divide in Ha as [q ->]; [|lia].
    change HUGEPGSIZE with 2097152. unfold addr, u64, PHYSTOP, KERNBASE, PGSIZE, npages in *.
    rewrite !orb_false_iff, negb_false_iff. split_and!.
    - apply Z.eqb_eq, Z.mod_divide; [lia|]. exists (1024 + q). lia.
    - lia.
    - rewrite Z.mod_small; lia. }
  apply (kfree_order_wp s 9 i); auto; [lia|].
  intros s' Hinv' Hlk' Hfree Hmem. by split_and!.
Qed.

(** ** Freeing a page that is already free *)

Lemma merge_break s i o Q :
  k_base s = KERNBASE → k_limit s = PHYSTOP → 0 ≤ i < npages → 0 ≤ o < 15 → i mod 2 ^ o = 0 →
  pstate s (Z.lxor i (2 ^ o)) ≠ o → Q (inr (addr i, i, o)) s →
  wp (buddy_merge_step (addr i, i, o)) Q s.
Proof.
  intros Hb Hl Hi Ho Ha Hp HQ. unfold buddy_merge_step.
  rewrite (proj2 (Z.ltb_lt o MAX_ORDER)) by (unfold MAX_ORDER; lia). ksimp. wp_simpl.
  destruct (xor_buddy_range i o) as (Hbr & _); auto.
  rewrite Hb, Hl, buddy_addr by auto. set (b := Z.lxor i (2 ^ o)) in *.
  destruct (_ || _); [by wp_simpl|]. wp_simpl. apply pa_to_index_wp; auto. wp_simpl.
  apply Z.eqb_neq in Hp as ->. ksimp. by wp_simpl.
Qed.

(** [kfree] up to the call of [buddy_free_locked]. *)
Lemma kfree_enter_wp kend s i Q :
  kidle s → 0 ≤ i < npages → kend ≤ addr i →
  wp (buddy_free_locked (addr i) 0;; release_kmem) Q
     (set_k_lock true (set_k_mem (memset (k_mem s) (addr i) 1 PGSIZE) s)) →
  wp (kfree kend (addr i)) Q s.
Proof.
  intros [Hinv Hlk] Hi Hk HQ. unfold kfree, acquire_kmem. rewrite wp_bind in HQ.
  do 4 wp_step; [|wp_simpl; exact HQ].
  rewrite (ki_limit _ Hinv). unfold addr, PHYSTOP, KERNBASE, PGSIZE, npages in *.
  rewrite (Z.mul_comm 4096 i), Z.mod_add, !orb_false_iff by lia. split_and!; [done|lia..].
Qed.

Lemma kfree_interior_wp kend s j :
  kidle s → 0 ≤ j < npages → pstate s j = 1 → kend ≤ addr (j + 1) →
  wp (kfree kend (addr (j + 1))) (λ _ s', pstate s' j = 1 ∧ pstate s' (j + 1) = 0) s.
Proof.
  intros Hid Hj Hp Hk. pose proof Hid as [[Hb Hl Hlen Hrep Hok] _].
  pose proof (bo_align _ Hok j Hj ltac:(lia)) as Ha. rewrite Hp in Ha.
  pose proof (aligned_in_range j 1 ltac:(lia) Hj Ha) as Hr. change (2 ^ 1) with 2 in *.
  assert (pstate s (j + 1) = -1) as Hp1.
  { destruct (bo_range _ Hok (j + 1)) as [?|Hr1]; [lia|done|].
    assert (j + 1 = j); [|lia]. pose proof (pow2_pos (pstate s (j + 1)) ltac:(lia)).
    apply (bo_disj _ Hok (j + 1)); unfold covers; rewrite ?Hp; lia. }
  apply kfree_enter_wp; auto; [lia|]. set (s1 := set_k_lock _ _). wp_simpl.
  unfold buddy_free_locked. wp_simpl; [rewrite addr_mod_order, Z.mod_1_r by lia; done|].
  apply pa_to_index_wp; auto; [lia|]. wp_simpl.
  { by change (pstate s1) with (pstate s); rewrite Hp1. }
  apply wp_loop_S, merge_break; auto; [lia|lia|apply Z.mod_1_r| |].
  { change (pstate s1) with (pstate s).
    destruct (xor_buddy (j + 1) 0) as [[Hx _]|(_ & _ & ->)]; try lia; [apply Z.mod_1_r| |].
    - exfalso. change (2 ^ (0 + 1)) with 2 in Hx. rewrite Z.add_mod, Ha in Hx by lia. done.
    - replace (j + 1 - 2 ^ 0) with j by lia. lia. }
  wp_simpl. apply (list_insert_spec s1 (pstate s) 0 (j + 1)); auto; [|lia|lia|].
  { apply lists_rep_mem; [|done]. intros a (i & Hi & Hpi & Hia). apply memset_out.
    intros Hin. assert (i = j + 1) as -> by (unfold in_page, addr, PGSIZE in *; lia). lia. }
  intros m' fl' Hfl s' _ _. unfold set_pstate, release_kmem. wp_simpl.
  unfold pstate in *. ksimp. rewrite lookup_insert_ne, lookup_insert_eq by lia. done.
Qed.

(** From here on the operations are known by their specifications. *)
#[local] Opaque kinit kalloc kfree kalloc_huge kfree_huge.

(** ** The interface of [PageAlloc] *)

Section interface.
Context (kend : Z).

#[local] Instance kmem_ops : PageAllocOps kmem := {
  pa_mem := k_mem;
  pa_set_mem := set_k_mem;
  pa_kalloc := kalloc;
  pa_kfree := kfree kend;
  pa_kalloc_huge := kalloc_huge;
  pa_kfree_huge := kfree_huge
}.

Definition kpage_free (s : kmem) (p : Z) : Prop := ∃ i, kfree_page s i ∧ p = addr i.

(** Pages below [end] are never on a free list. *)
Definition kpool (s : kmem) : Prop := kidle s ∧ ∀ i, kfree_page s i → kend ≤ addr i.

Definition kmanaged (p : Z) : Prop := ∃ i, 0 ≤ i < npages ∧ p = addr i ∧ kend ≤ p.

Lemma kpage_free_addr s i : kpage_free s (addr i) ↔ kfree_page s i.
Proof.
  split; [|by exists i]. intros (j & Hj & Heq). by apply addr_inj in Heq as ->.
Qed.

Lemma in_huge_addr i p : in_huge (addr i) p ↔ ∃ k, i ≤ k < i + 512 ∧ p = addr k.
Proof.
  unfold in_huge, addr, PGSIZE. split.
  - intros (k & Hk & ->). exists (i + k). lia.
  - intros (k & Hk & ->). exists (k - i). lia.
Qed.

Lemma addr_huge_aligned i : addr i mod HUGEPGSIZE = 0 ↔ i mod 512 = 0.
Proof.
  change HUGEPGSIZE with (4096 * 512). unfold addr, KERNBASE, PGSIZE.
  replace (2147483648 + 4096 * i) with (4096 * (i + 1024 * 512)) by ring.
  rewrite Z.mul_mod_distr_l, Z.mod_add by lia. lia.
Qed.

Lemma kpage_byte s a : page_byte (kpage_free s) a ↔ kfree_byte s a.
Proof. unfold page_byte, kfree_byte, kpage_free, in_page. naive_solver. Qed.

Lemma kfree_page_range s i : kinv s → kfree_page s i → 0 ≤ i < npages.
Proof.
  intros Hinv (j & Hj & Hp & Hc). destruct (ki_ok _ Hinv) as [Hr Ha _ _].
  pose proof (Hr j Hj). pose proof (Ha j Hj Hp).
  pose proof (aligned_in_range j (pstate s j)). lia.
Qed.

Lemma kmanaged_page p :
  KERNBASE ≤ kend → kmanaged p → KERNBASE ≤ p ∧ p + PGSIZE ≤ PHYSTOP ∧ p mod PGSIZE = 0.
Proof.
  intros Hk (i & Hi & -> & _). unfold addr, PHYSTOP, npages, PGSIZE, KERNBASE in *.
  rewrite (Z.mul_comm 4096), Z.mod_add by lia. split_and!; [lia..|done].
Qed.

Lemma kpool_set m s :
  kpool s → (∀ a, page_byte (kpage_free s) a → ldb m a = ldb (k_mem s) a) →
  kpool (set_k_mem m s).
Proof.
  intros [[Hinv Hlk] Hk] Hm. split; [|done]. split; [|done].
  apply kinv_set_mem; [done|]. intros a Ha. by apply Hm, kpage_byte.
Qed.

Lemma same_outside_kpage s m m' :
  same_outside (kfree_byte s) m m' → same_outside (page_byte (kpage_free s)) m m'.
Proof. intros H. eapply same_outside_weaken; [exact H|]. intros a. apply kpage_byte. Qed.

Lemma kpage_free_alloc o s r s' :
  allocated o s r s' → 
  ∃ i, r = addr i ∧ (∀ k, i ≤ k < i + 2 ^ o → kpage_free s (addr k)) ∧
  ∀ p, kpage_free s' p ↔ kpage_free s p ∧ ¬ (∃ k, i ≤ k < i + 2 ^ o ∧ p = addr k).
Proof.
  intros (i & -> & Hi & Ha & Hwas & Hfree & _). exists i. split; [done|].
  split; [by intros k Hk; apply kpage_free_addr, Hwas|].
  intros p. split.
  - intros (k & Hk & ->). apply Hfree in Hk as [Hk Hn]. split; [by exists k|].
    intros (k' & Hk' & Heq). apply addr_inj in Heq as ->. done.
  - intros [(k & Hk & ->) Hn]. exists k. split; [|done]. apply Hfree. split; [done|].
    intros Hk'. apply Hn. by exists k.
Qed.

Lemma kpage_free_freed o i s s' :
  freed o i s s' →
  ∀ p, kpage_free s' p ↔ kpage_free s p ∨ ∃ k, i ≤ k < i + 2 ^ o ∧ p = addr k.
Proof.
  intros [Hfree _] p. unfold kpage_free. setoid_rewrite Hfree. naive_solver.
Qed.

Lemma kpool_alloc o s r s' : kpool s → kidle s' → allocated o s r s' → kpool s'.
Proof.
  intros [_ Hk] Hid (i & _ & _ & _ & _ & Hfree & _). split; [done|].
  intros k Hk'. by apply Hk, Hfree.
Qed.

Lemma kalloc_promise s :
  kpool s →
  wp kalloc (λ r s', kpool s' ∧
    ((r = 0 ∧ (∀ p, ¬ kpage_free s p) ∧ s' = s) ∨
     (kpage_free s r ∧ (∀ p, kpage_free s' p ↔ kpage_free s p ∧ p ≠ r) ∧
      same_outside (page_byte (kpage_free s)) (k_mem s) (k_mem s')))) s.
Proof.
  intros Hs. eapply wp_mono; [apply kalloc_idle, Hs|]. cbn.
  intros r s' [Hid [(-> & -> & Hno)|Ha]].
  - split; [done|]. left. split_and!; [done| |done]. intros p (i & Hi & _). by apply (Hno i).
  - split; [by eapply kpool_alloc|]. right.
    destruct (kpage_free_alloc _ _ _ _ Ha) as (i & -> & Hwas & Hf).
    destruct Ha as (? & ? & ? & ? & ? & ? & Hm & _).
    split; [apply Hwas; lia|]. split; [|by apply same_outside_kpage].
    intros p. rewrite Hf. apply and_iff_compat_l. split.
    + intros Hn ->. apply Hn. exists i. lia.
    + intros Hn (k & Hk & ->). apply Hn. f_equal. lia.
Qed.

Lemma kfree_promise s p :
  kpool s → kmanaged p → ¬ kpage_free s p →
  wp (kfree kend p) (λ _ s', kpool s' ∧
    (∀ q, kpage_free s' q ↔ kpage_free s q ∨ q = p) ∧
    same_outside (page_byte (kpage_free s')) (k_mem s) (k_mem s')) s.
Proof.
  intros [Hid Hk] (i & Hi & -> & Hke) Hn.
  rewrite kpage_free_addr in Hn.
  eapply wp_mono; [apply kfree_idle; eauto|]. cbn. intros _ s' [Hid' Hf].
  assert (∀ q, kpage_free s' q ↔ kpage_free s q ∨ q = addr i) as Hf'.
  { intros q. rewrite (kpage_free_freed _ _ _ _ Hf). apply or_iff_compat_l. split.
    - intros (k & ? & ->). f_equal. lia.
    - intros ->. exists i. lia. }
  destruct Hf as [Hf Hm]. split; [split; [done|]|split; [done|by apply same_outside_kpage]].
  intros k Hk'. apply Hf in Hk' as [Hk'|Hk']; [auto|]. by replace k with i by lia.
Qed.

Lemma kalloc_huge_promise s :
  kpool s →
  wp kalloc_huge (λ r s', kpool s' ∧
    ((r = 0 ∧ s' = s) ∨
     (r mod HUGEPGSIZE = 0 ∧ (∀ p, in_huge r p → kpage_free s p) ∧
      (∀ p, kpage_free s' p ↔ kpage_free s p ∧ ¬ in_huge r p) ∧
      same_outside (page_byte (kpage_free s)) (k_mem s) (k_mem s')))) s.
Proof.
  intros Hs. eapply wp_mono; [apply kalloc_huge_idle, Hs|]. cbn.
  intros r s' [Hid [(-> & -> & _)|Ha]]; [by split; auto|].
  split; [by eapply kpool_alloc|]. right.
  destruct (kpage_free_alloc _ _ _ _ Ha) as (i & -> & Hwas & Hf).
  destruct Ha as (i' & Heq & Hi & Hal & _ & _ & Hm & _). apply addr_inj in Heq as <-.
  split; [by apply addr_huge_aligned|]. setoid_rewrite in_huge_addr.
  split; [by intros p (k & Hk & ->); apply Hwas|].
  split; [done|by apply same_outside_kpage].
Qed.

Lemma kfree_huge_promise s h :
  kpool s → h mod HUGEPGSIZE = 0 →
  (∀ p, in_huge h p → kmanaged p ∧ ¬ kpage_free s p) →
  wp (kfree_huge h) (λ _ s', kpool s' ∧
    (∀ q, kpage_free s' q ↔ kpage_free s q ∨ in_huge h q) ∧
    same_outside (page_byte (kpage_free s')) (k_mem s) (k_mem s')) s.
Proof.
  intros [Hid Hk] Ha Hall.
  destruct (Hall h) as [(i & Hi & -> & Hke) _]; [by exists 0; split; [lia|ring]|].
  assert (i mod 512 = 0) as Hi512 by by apply addr_huge_aligned.
  assert (∀ k, i ≤ k < i + 512 → kmanaged (addr k) ∧ ¬ kfree_page s k) as Hused.
  { intros k Hk'. rewrite <-kpage_free_addr. apply Hall, in_huge_addr. by exists k. }
  eapply wp_mono; [apply kfree_huge_idle; eauto|].
  { intros k Hk'. by apply Hused. }
  cbn. intros _ s' [Hid' Hf]. pose proof (kpage_free_freed _ _ _ _ Hf) as Hf'.
  setoid_rewrite in_huge_addr.
  destruct Hf as [Hf Hm]. split; [split; [done|]|split; [done|by apply same_outside_kpage]].
  intros k Hk'. apply Hf in Hk' as [Hk'|Hk']; [auto|].
  by destruct (Hused k Hk') as [(j & _ & ? & ?) _].
Qed.

Lemma kpool_managed s p : kpool s → kpage_free s p → kmanaged p.
Proof.
  intros [[Hinv _] Hk] (i & Hi & ->). exists i.
  split_and!; try apply (kfree_page_range s i Hinv Hi); auto.
Qed.

Context (Hkend : KERNBASE ≤ kend).

#[local] Instance kmem_spec : PageAllocSpec kmem := {|
  pa_ok := kpool;
  pa_free := kpage_free;
  pa_managed := kmanaged;
  pa_mem_set _ _ := eq_refl;
  pa_free_set _ _ _ := iff_refl _;
  pa_set_set _ _ _ := eq_refl;
  pa_ok_set := kpool_set;
  pa_managed_page p := kmanaged_page p Hkend;
  pa_free_managed := kpool_managed;
  pa_kalloc_spec := kalloc_promise;
  pa_kfree_spec := kfree_promise;
  pa_kalloc_huge_spec := kalloc_huge_promise;
  pa_kfree_huge_spec := kfree_huge_promise
|}.
End interface.

(** ** Clients of the allocator

    A client holds a list of live blocks, each a frame and an order.  It may
    call the four operations, freeing only blocks it holds, and write any byte
    of a block it holds. *)

Definition client : Type := kmem * list (Z * Z).

(** The page frames of the live blocks. *)
Definition live_pages (L : list (Z * Z)) : list Z := L ≫= λ '(i, o), seqZ i (2 ^ o).

Inductive kcall (kend : Z) : client → client → Prop :=
| call_kalloc s L i s' :
    kalloc s = Ok (addr i) s' → 0 ≤ i → kcall kend (s, L) (s', (i, 0) :: L)
| call_kalloc_fail s L s' :
    kalloc s = Ok 0 s' → kcall kend (s, L) (s', L)
| call_kalloc_huge s L i s' :
    kalloc_huge s = Ok (addr i) s' → 0 ≤ i → kcall kend (s, L) (s', (i, 9) :: L)
| call_kalloc_huge_fail s L s' :
    kalloc_huge s = Ok 0 s' → kcall kend (s, L) (s', L)
| call_kfree s L L' i s' :
    L ≡ₚ (i, 0) :: L' → kfree kend (addr i) s = Ok tt s' → kcall kend (s, L) (s', L')
| call_kfree_huge s L L' i s' :
    L ≡ₚ (i, 9) :: L' → kfree_huge (addr i) s = Ok tt s' → kcall kend (s, L) (s', L').

Inductive kstep (kend : Z) : client → client → Prop :=
| step_call c c' : kcall kend c c' → kstep kend c c'
| step_write s L k a v :
    k ∈ live_pages L → in_page k a →
    kstep kend (s, L) (set_k_mem (stb (k_mem s) a v) s, L).

(** The pages of the pool are the free pages and the live pages, and no page is
    both or live twice. *)
Record client_inv (kend : Z) (c : client) : Prop := {
  ci_idle : kidle c.1;
  ci_nodup : NoDup (live_pages c.2);
  ci_align : ∀ i o, (i, o) ∈ c.2 → i mod 2 ^ o = 0;
  ci_pool : ∀ k, kfree_page c.1 k ∨ k ∈ live_pages c.2 ↔ 0 ≤ k < npages ∧ kend ≤ addr k;
  ci_apart : ∀ k, kfree_page c.1 k → k ∉ live_pages c.2
}.

Lemma live_pages_cons i o L k :
  0 ≤ o → k ∈ live_pages ((i, o) :: L) ↔ i ≤ k < i + 2 ^ o ∨ k ∈ live_pages L.
Proof.
  intros Ho. unfold live_pages. rewrite bind_cons, elem_of_app, elem_of_seqZ. done.
Qed.

#[global] Instance live_pages_perm : Proper ((≡ₚ) ==> (≡ₚ)) live_pages.
Proof. intros L L' HL. unfold live_pages. by rewrite HL. Qed.

Lemma client_inv_alloc kend s L o r s' i :
  client_inv kend (s, L) → kidle s' → 0 ≤ o → allocated o s r s' → r = addr i →
  client_inv kend (s', (i, o) :: L).
Proof.
  intros [Hid Hnd Hal Hpool Hap] Hid' Ho (j & -> & Hj & Ha & Hwas & Hf & _) Heq.
  apply addr_inj in Heq as <-. cbn [fst snd] in *. split; cbn [fst snd]; [done|..].
  - unfold live_pages in *. rewrite bind_cons. apply NoDup_app. split_and!.
    + apply NoDup_seqZ.
    + intros k Hk. apply elem_of_seqZ in Hk. by apply Hap, Hwas.
    + done.
  - intros i' o'. rewrite elem_of_cons. intros [[= -> ->]|]; auto.
  - intros k. rewrite live_pages_cons, <-Hpool, Hf by done. split; [naive_solver|].
    intros [Hk|Hk]; [|tauto]. destruct (decide (j ≤ k < j + 2 ^ o)); tauto.
  - intros k Hk. rewrite live_pages_cons by done. apply Hf in Hk. naive_solver.
Qed.

Lemma client_inv_free kend s L L' o i s' :
  client_inv kend (s, L) → L ≡ₚ (i, o) :: L' → kidle s' → 0 ≤ o → freed o i s s' →
  client_inv kend (s', L').
Proof.
  intros [Hid Hnd Hal Hpool Hap] HL Hid' Ho [Hf _]. cbn [fst snd] in *.
  assert (∀ k, k ∈ live_pages L ↔ i ≤ k < i + 2 ^ o ∨ k ∈ live_pages L') as Hlive.
  { intros k. by rewrite HL, live_pages_cons. }
  rewrite HL in Hnd. unfold live_pages in Hnd. rewrite bind_cons in Hnd.
  apply NoDup_app in Hnd as (_ & Hd & Hnd). split; cbn [fst snd]; [done|done|..].
  - intros i' o' Hin. apply Hal. rewrite HL. by right.
  - intros k. rewrite <-Hpool, Hf, Hlive. tauto.
  - intros k Hk. apply Hf in Hk as [Hk|Hk].
    + specialize (Hap _ Hk). rewrite Hlive in Hap. tauto.
    + apply Hd. by apply elem_of_seqZ.
Qed.

Lemma client_used kend s L i o :
  client_inv kend (s, L) → (i, o) ∈ L → 0 ≤ o →
  0 ≤ i < npages ∧ kend ≤ addr i ∧ i mod 2 ^ o = 0 ∧ block_used (pstate s) i o.
Proof.
  intros [Hid Hnd Hal Hpool Hap] Hin Ho. cbn [fst snd] in *.
  assert (∀ k, i ≤ k < i + 2 ^ o → k ∈ live_pages L) as Hl.
  { intros k Hk. unfold live_pages. apply list_elem_of_bind. exists (i, o).
    split; [by apply elem_of_seqZ|done]. }
  pose proof (pow2_pos o Ho). destruct (Hpool i) as [Hp _].
  destruct Hp as [? ?]; [right; apply Hl; lia|]. split_and!; auto; try lia.
  intros k Hk Hf. by apply (Hap k Hf), Hl.
Qed.

(** From a client state, every operation the client may call returns. *)
Lemma client_kfree kend s L i :
  client_inv kend (s, L) → (i, 0) ∈ L →
  ∃ s', kfree kend (addr i) s = Ok tt s' ∧ kidle s' ∧ freed 0 i s s'.
Proof.
  intros Hc Hin. destruct (client_used _ _ _ _ _ Hc Hin) as (Hi & Hk & _ & Hu); [lia|].
  destruct (wp_Ok _ _ _ (kfree_idle kend s i (ci_idle _ _ Hc) Hi Hk (Hu i ltac:(lia))))
    as ([] & s' & H). eauto.
Qed.

Lemma client_kfree_huge kend s L i :
  client_inv kend (s, L) → (i, 9) ∈ L →
  ∃ s', kfree_huge (addr i) s = Ok tt s' ∧ kidle s' ∧ freed 9 i s s'.
Proof.
  intros Hc Hin. destruct (client_used _ _ _ _ _ Hc Hin) as (Hi & Hk & Ha & Hu); [lia|].
  destruct (wp_Ok _ _ _ (kfree_huge_idle s i (ci_idle _ _ Hc) Hi Ha Hu))
    as ([] & s' & H). eauto.
Qed.

(** The outcomes of a call, by the operation called. *)
Lemma kcall_inv kend c c' :
  client_inv kend c → kcall kend c c' →
  client_inv kend c' ∧
  ((c.1 = c'.1 ∧ c.2 = c'.2) ∨ (∃ o r, 0 ≤ o ∧ allocated o c.1 r c'.1 ∧ c.2 ⊆ c'.2) ∨
   (∃ o i, 0 ≤ o ∧ freed o i c.1 c'.1 ∧ c.2 ≡ₚ (i, o) :: c'.2)).
Proof.
  intros Hc Hcall. destruct Hcall as [s L i s' H Hi|s L s' H|s L i s' H Hi|s L s' H|s L L' i s' HL H|s L L' i s' HL H].
  1,2: destruct (wp_Ok _ _ _ (kalloc_idle s (ci_idle _ _ Hc))) as (r & s1 & Heq & Hid & Hr).
  3,4: destruct (wp_Ok _ _ _ (kalloc_huge_idle s (ci_idle _ _ Hc))) as (r & s1 & Heq & Hid & Hr).
  1-4: rewrite H in Heq; injection Heq as <- <-; destruct Hr as [(? & -> & _)|Ha];
    [first [by destruct (addr_nonzero i Hi) | by auto]|].
  - split; [by eapply client_inv_alloc|]. right; left. exists 0, (addr i).
    split_and!; [lia|done|set_solver].
  - destruct Ha as (j & Hj & [? _] & _). by destruct (addr_nonzero j).
  - split; [by eapply client_inv_alloc|]. right; left. exists 9, (addr i).
    split_and!; [lia|done|set_solver].
  - destruct Ha as (j & Hj & [? _] & _). by destruct (addr_nonzero j).
  - destruct (client_kfree kend s L i Hc) as (s1 & Heq & Hid & Hf); [rewrite HL; set_solver|].
    rewrite H in Heq. injection Heq as <-.
    split; [by eapply client_inv_free|]. right; right. by exists 0, i.
  - destruct (client_kfree_huge kend s L i Hc) as (s1 & Heq & Hid & Hf); [rewrite HL; set_solver|].
    rewrite H in Heq. injection Heq as <-.
    split; [by eapply client_inv_free|]. right; right. by exists 9, i.
Qed.

Lemma kstep_inv kend c c' : client_inv kend c → kstep kend c c' → client_inv kend c'.
Proof.
  intros Hc Hs. destruct Hs as [c0 c1 Hcall|s L k a v Hk Ha];
    [exact (proj1 (kcall_inv kend c0 c1 Hc Hcall))|].
  destruct Hc as [[Hinv Hlk] Hnd Hal Hpool Hap]. split; try done. split; [|done].
  apply kinv_set_mem; [done|]. intros b (j & Hj & Hb). apply ldb_stb_ne. intros ->.
  apply (Hap j Hj). replace j with k; [done|]. unfold in_page, addr, PGSIZE in *. lia.
Qed.

Lemma client_inv_start kend s1 :
  kidle s1 → (∀ i, kfree_page s1 i ↔ 0 ≤ i < npages ∧ kend ≤ addr i) → client_inv kend (s1, []).
Proof.
  intros Hid Hf. split; cbn; [done|constructor|set_solver| |set_solver].
  intros k. rewrite Hf. set_solver.
Qed.

Lemma kinit_idle kend s0 :
  KERNBASE ≤ kend ≤ PHYSTOP → length (k_freelist s0) = 16%nat →
  wp (kinit kend) (λ _ s1, kidle s1 ∧
    ∀ i, kfree_page s1 i ↔ 0 ≤ i < npages ∧ kend ≤ addr i) s0.
Proof. intros Hk Hlen. apply kinit_spec; auto. by intros; split_and. Qed.

(** Without a free block of order 9 no aligned run of 512 pages is free. *)
Lemma no_huge_block s i :
  kinv s → (∀ j, 0 ≤ j < npages → pstate s j < 9) → 0 ≤ i < npages → i mod 512 = 0 →
  ∃ k, i ≤ k < i + 512 ∧ ¬ kfree_page s k.
Proof.
  intros Hinv Hno Hi Ha.
  destruct (decide (Exists (λ k, ¬ page_free (pstate s) k) (seqZ i 512))) as [He|Hn].
  - apply Exists_exists in He as (k & Hk & Hf). apply elem_of_seqZ in Hk. by exists k.
  - destruct (coalesced_complete (pstate s) 9 i (ki_ok _ Hinv)) as (j & Hj & Hp & _);
      [lia|exact Hi|exact Ha| |destruct Hj as [Hj _]; specialize (Hno j Hj); lia].
    intros k Hk. apply dec_stable. intros Hf. apply Hn, Exists_exists. exists k.
    split; [apply elem_of_seqZ; exact Hk|exact Hf].
Qed.

Lemma reachable_inv kend s0 s1 c :
  KERNBASE ≤ kend ≤ PHYSTOP → length (k_freelist s0) = 16%nat →
  kinit kend s0 = Ok tt s1 → rtc (kstep kend) (s1, []) c → client_inv kend c.
Proof.
  intros Hk Hlen Hinit Hsteps. destruct (wp_Ok _ _ _ (kinit_idle kend s0 Hk Hlen))
    as ([] & s1' & Heq & Hid & Hf). rewrite Hinit in Heq. injection Heq as <-.
  assert (client_inv kend (s1, [])) as Hc by by apply client_inv_start.
  clear Hinit. induction Hsteps; eauto using kstep_inv.
Qed.

(** ** The properties *)

(** C9: After [kinit], whatever sequence of calls and writes a client that frees
    only what it holds makes: a page is never in two live blocks, every page
    from [end] to [PHYSTOP] is either free or live and never both (nothing is
    leaked or handed out twice), and no call the client may make next
    panics. *)
Theorem page_client_safety kend s0 s1 s L :
  KERNBASE ≤ kend ≤ PHYSTOP → length (k_freelist s0) = 16%nat →
  kinit kend s0 = Ok tt s1 → rtc (kstep kend) (s1, []) (s, L) →
  NoDup (live_pages L) ∧
  (∀ k, 0 ≤ k < npages → kend ≤ addr k → (kfree_page s k ↔ k ∉ live_pages L)) ∧
  (∃ r s', kalloc s = Ok r s') ∧ (∃ r s', kalloc_huge s = Ok r s') ∧
  (∀ i, (i, 0) ∈ L → ∃ s', kfree kend (addr i) s = Ok tt s') ∧
  (∀ i, (i, 9) ∈ L → ∃ s', kfree_huge (addr i) s = Ok tt s').
Proof.
  intros Hk Hlen Hinit Hsteps.
  pose proof (reachable_inv _ _ _ _ Hk Hlen Hinit Hsteps) as Hc.
  destruct (wp_Ok _ _ _ (kalloc_idle s (ci_idle _ _ Hc))) as (r & s' & Ha & _).
  destruct (wp_Ok _ _ _ (kalloc_huge_idle s (ci_idle _ _ Hc))) as (rh & sh & Hh & _).
  split; [exact (ci_nodup _ _ Hc)|]. split; [|split; [exists r, s'; exact Ha|split; [exists rh, sh; exact Hh|]]];
    [|split; intros i Hi].
  - intros k Hk1 Hk2. clear Ha Hh Hinit. split; [apply (ci_apart _ _ Hc)|]. intros Hn.
    destruct (ci_pool _ _ Hc k) as [_ H']. by destruct (H' (conj Hk1 Hk2)).
  - destruct (client_kfree _ _ _ _ Hc Hi) as (sf & Hf & _). exists sf. exact Hf.
  - destruct (client_kfree_huge _ _ _ _ Hc Hi) as (sf & Hf & _). exists sf. exact Hf.
Qed.

(** No call of the allocator, by whoever makes it, changes a byte of a page
    that is live before and after the call. *)
Theorem page_client_frame kend s0 s1 s L s' L' k a :
  KERNBASE ≤ kend ≤ PHYSTOP → length (k_freelist s0) = 16%nat →
  kinit kend s0 = Ok tt s1 → rtc (kstep kend) (s1, []) (s, L) →
  kcall kend (s, L) (s', L') →
  k ∈ live_pages L → k ∈ live_pages L' → in_page k a →
  ldb (k_mem s') a = ldb (k_mem s) a.
Proof.
  intros Hk Hlen Hinit Hsteps Hcall Hl Hl' Ha.
  pose proof (reachable_inv _ _ _ _ Hk Hlen Hinit Hsteps) as Hc.
  clear Hinit Hsteps.
  destruct (kcall_inv _ _ _ Hc Hcall) as [Hc' [[Hs _]|[(o & r & _ & Hr & _)|(o & i & _ & Hf & _)]]];
    cbn [fst snd] in *; [by rewrite Hs|..].
  - destruct Hr as (? & _ & _ & _ & _ & _ & Hm & _). apply Hm.
    intros (j & Hj & Hja). apply (ci_apart _ _ Hc j Hj).
    replace j with k; [done|]. unfold in_page, addr, PGSIZE in *. lia.
  - destruct Hf as [_ Hm]. apply Hm.
    intros (j & Hj & Hja). apply (ci_apart _ _ Hc' j Hj).
    replace j with k; [done|]. unfold in_page, addr, PGSIZE in *. lia.
Qed.

(** C26: [kalloc] always returns.  It returns 0, changing nothing, exactly when no
    page is free; otherwise it returns a page that was free, which it takes off
    the free set and fills with 5, and it writes only pages that were free. *)
Theorem kalloc_correct s :
  kidle s →
  ∃ r s', kalloc s = Ok r s' ∧ kidle s' ∧
    (r = 0 ↔ ∀ k, ¬ kfree_page s k) ∧ (r = 0 → s' = s) ∧
    (r ≠ 0 → ∃ i, r = addr i ∧ kfree_page s i ∧
       (∀ k, kfree_page s' k ↔ kfree_page s k ∧ k ≠ i) ∧
       (∀ a, in_page i a → ldb (k_mem s') a = 5) ∧
       same_outside (kfree_byte s) (k_mem s) (k_mem s')).
Proof.
  intros Hs. destruct (wp_Ok _ _ _ (kalloc_idle s Hs)) as (r & s' & Heq & Hid & Hr).
  exists r, s'. split; [exact Heq|]. split; [exact Hid|].
  clear Heq.
  destruct Hr as [(-> & -> & Hno)|(i & -> & Hi & _ & Hwas & Hf & Hm & H5)]; [by split_and!|].
  pose proof (addr_nonzero i ltac:(lia)). assert (kfree_page s i) by (apply Hwas; lia).
  split_and!; [naive_solver|done|]. intros _. exists i.
  split_and!; [done|done| |by intros a [? ?]; apply H5; lia|done].
  intros k. rewrite Hf. apply and_iff_compat_l. lia.
Qed.

(** C25: [kalloc_huge] fails exactly when no 2 MB-aligned run of 512 pages is
    entirely free: merging buddies on every free loses no huge page. *)
Theorem kalloc_huge_complete s :
  kidle s →
  ∃ r s', kalloc_huge s = Ok r s' ∧ kidle s' ∧
    (r = 0 ↔ ∀ i, 0 ≤ i < npages → i mod 512 = 0 →
       ∃ k, i ≤ k < i + 512 ∧ ¬ kfree_page s k) ∧
    (r ≠ 0 → ∃ i, r = addr i ∧ i mod 512 = 0 ∧
       (∀ k, i ≤ k < i + 512 → kfree_page s k) ∧
       (∀ k, kfree_page s' k ↔ kfree_page s k ∧ ¬ (i ≤ k < i + 512))).
Proof.
  intros Hs. destruct (wp_Ok _ _ _ (kalloc_huge_idle s Hs)) as (r & s' & Heq & Hid & Hr).
  exists r, s'. split; [exact Heq|]. split; [exact Hid|].
  clear Heq.
  destruct Hr as [(-> & -> & Hno)|(i & -> & Hi & Ha & Hwas & Hf & _)]; split; [|done| |].
  - split; [|done]. intros _ i Hi Ha. apply no_huge_block; auto. apply Hs.
  - split; [intros Hz; by destruct (addr_nonzero i ltac:(lia))|].
    intros Hno. destruct (Hno i Hi Ha) as (k & Hk & Hn). by destruct Hn; apply Hwas.
  - intros _. by exists i.
Qed.

(** C34: The double-free check of [buddy_free_locked] sees only the first page of a
    free block.  Freeing the second page of a free block of two pages, a page
    that is already free, returns without a panic and leaves that page in two
    free blocks. *)
Theorem kfree_double_free_missed kend s j :
  kidle s → 0 ≤ j < npages → pstate s j = 1 → kend ≤ addr (j + 1) →
  kfree_page s (j + 1) ∧
  ∃ s', kfree kend (addr (j + 1)) s = Ok tt s' ∧
    covers (pstate s') j (j + 1) ∧ covers (pstate s') (j + 1) (j + 1).
Proof.
  intros Hs Hj Hp Hk. pose proof (bo_align _ (ki_ok _ (proj1 Hs)) j Hj) as Ha.
  rewrite Hp in Ha. pose proof (aligned_in_range j 1 ltac:(lia) Hj (Ha ltac:(lia))) as Hr.
  change (2 ^ 1) with 2 in Hr. split.
  - exists j. unfold covers. rewrite Hp. lia.
  - destruct (wp_Ok _ _ _ (kfree_interior_wp kend s j Hs Hj Hp Hk)) as ([] & s' & Heq & H1 & H2).
    exists s'. split; [exact Heq|]. clear Heq. unfold covers. rewrite H1, H2. lia.
Qed.

(** ** Witnesses *)

Module KallocWitness.
(** The zeroed globals at boot, and an [end] 38 pages into the kernel. *)
Definition boot : kmem := KMem false (replicate 16 0) 0 0 ∅ ∅.
Definition kend0 : Z := KERNBASE + 38 * PGSIZE.

(** Everything allocated: no free list entry. *)
Definition full_states (l : list Z) : gmap Z Z := gset_to_gmap (-1) (list_to_set l).
Definition full : kmem :=
  KMem false (replicate 16 0) KERNBASE PHYSTOP (full_states (seqZ 0 npages)) ∅.

Lemma full_states_lookup l i : i ∈ l → full_states l !! i = Some (-1).
Proof.
  intros Hi. apply lookup_gset_to_gmap_Some. split; [by apply elem_of_list_to_set|done].
Qed.
#[local] Opaque full_states.

Lemma kend0_ok : KERNBASE ≤ kend0 ≤ PHYSTOP.
Proof. done. Qed.

Lemma full_used : all_used full.
Proof.
  split; [reflexivity|]. split; [reflexivity|]. split; [reflexivity|]. split.
  - intros o Ho. unfold head_of. cbn [full k_freelist].
    destruct (replicate 16 0 !! Z.to_nat o) eqn:E; [|done]. by apply lookup_replicate in E as [-> _].
  - intros i Hi. unfold pstate. cbn [full k_page_state].
    rewrite full_states_lookup; [reflexivity|]. apply elem_of_seqZ_npages. exact Hi.
Qed.

(** A state in which the block of two pages at frame 100 is the only free
    one. *)
Lemma two_pages : ∃ s, kidle s ∧ pstate s 100 = 1.
Proof.
  pose proof (all_used_kinv _ full_used) as Hinv.
  destruct (wp_Ok _ _ _ (buddy_free_spec full 100 1
    (λ _ s', kinv s' ∧ k_lock s' = false ∧ ∀ k, kfree_page s' k ↔ 100 ≤ k < 102) Hinv
    ltac:(lia) ltac:(done) ltac:(done)
    ltac:(intros k _; by apply all_used_not_free, full_used)
    ltac:(intros s' ? ? Hf _; split_and!; auto; intros k; rewrite Hf; split; [|lia];
          intros [Hk|?]; [by apply all_used_not_free in Hk; [|apply full_used]|lia])))
    as ([] & s & _ & Hs & Hlk & Hf).
  exists s. split; [done|].
  destruct (coalesced_complete (pstate s) 1 100 (ki_ok _ Hs)) as (j & Hj & Ho & He);
    [lia|done|done|intros k Hk; apply Hf; lia|].
  assert (∀ k, j ≤ k < j + 2 ^ pstate s j → 100 ≤ k < 102) as Hin.
  { intros k Hk. apply Hf. exists j. destruct Hj as (? & ? & ?). by split. }
  destruct Hj as (Hj & _ & Hc). pose proof (Hin j) as H1.
  pose proof (Hin (j + 2 ^ pstate s j - 1)) as H2. change (2 ^ 1) with 2 in He.
  assert (j = 100) as -> by lia.
  destruct (decide (pstate s 100 = 1)); [done|].
  pose proof (Z.pow_le_mono_r 2 2 (pstate s 100)). lia.
Qed.

Lemma kinit_boot :
  ∃ s1, kinit kend0 boot = Ok tt s1 ∧ kidle s1 ∧ kfree_page s1 100.
Proof.
  destruct (wp_Ok _ _ _ (kinit_idle kend0 boot kend0_ok eq_refl)) as ([] & s1 & Heq & Hid & Hf).
  exists s1. split; [exact Heq|]. clear Heq. split; [exact Hid|]. by apply Hf.
Qed.

(** A first allocation after boot. *)
Lemma kalloc_first s1 : kidle s1 → kfree_page s1 100 →
  ∃ i s2, kalloc s1 = Ok (addr i) s2 ∧ 0 ≤ i.
Proof.
  intros Hid Hf. destruct (wp_Ok _ _ _ (kalloc_idle s1 Hid)) as (r & s2 & Heq & _ & Hr).
  destruct Hr as [(_ & _ & Hno)|(i & -> & Hi & _)]; [by destruct (Hno 100)|].
  exists i, s2. split; [exact Heq|lia].
Qed.

(** Boot, allocate a page, free it. *)
Lemma page_client_safety_witness :
  ∃ s1 i s2 s3, kinit kend0 boot = Ok tt s1 ∧ kalloc s1 = Ok (addr i) s2 ∧
    kfree kend0 (addr i) s2 = Ok tt s3.
Proof.
  destruct kinit_boot as (s1 & H1 & Hid & Hf).
  destruct (kalloc_first s1 Hid Hf) as (i & s2 & H2 & Hi).
  destruct (page_client_safety kend0 boot s1 s2 [(i, 0)] kend0_ok eq_refl H1
    (rtc_once _ _ (step_call _ _ _ (call_kalloc kend0 s1 [] i s2 H2 Hi))))
    as (_ & _ & _ & _ & Hfree & _).
  destruct (Hfree i) as (s3 & H3); [left|].
  exists s1, i, s2, s3. split; [exact H1|]. split; [exact H2|exact H3].
Defined.

(** A second allocation leaves the first page alone. *)
Lemma page_client_frame_witness :
  ∃ s1 i s2 r s3, kinit kend0 boot = Ok tt s1 ∧ kalloc s1 = Ok (addr i) s2 ∧
    kalloc s2 = Ok r s3 ∧ ldb (k_mem s3) (addr i) = ldb (k_mem s2) (addr i).
Proof.
  destruct kinit_boot as (s1 & H1 & Hid & Hf).
  destruct (kalloc_first s1 Hid Hf) as (i & s2 & H2 & Hi).
  pose proof (rtc_once _ _ (step_call _ _ _ (call_kalloc kend0 s1 [] i s2 H2 Hi))) as Hr.
  pose proof (reachable_inv kend0 boot _ _ kend0_ok eq_refl H1 Hr) as Hc.
  destruct (wp_Ok _ _ _ (kalloc_idle s2 (ci_idle _ _ Hc))) as (r & s3 & H3 & _ & Hd).
  exists s1, i, s2, r, s3. split; [exact H1|]. split; [exact H2|]. split; [exact H3|].
  assert (in_page i (addr i)) as Hp by (unfold in_page, PGSIZE; lia).
  assert (i ∈ live_pages [(i, 0)]) as Hl by (apply live_pages_cons; lia).
  destruct Hd as [(-> & _)|(j & -> & Hj & _)].
  - exact (page_client_frame kend0 boot s1 s2 _ s3 [(i, 0)] i _ kend0_ok eq_refl H1 Hr
      (call_kalloc_fail kend0 s2 _ s3 H3) Hl Hl Hp).
  - refine (page_client_frame kend0 boot s1 s2 _ s3 [(j, 0); (i, 0)] i _ kend0_ok eq_refl H1 Hr
      (call_kalloc kend0 s2 _ j s3 H3 (proj1 Hj)) Hl _ Hp).
    apply live_pages_cons; [lia|]. right. exact Hl.
Defined.

Lemma kalloc_correct_witness : ∃ r s', kalloc full = Ok r s' ∧ r = 0.
Proof.
  destruct (kalloc_correct full (conj (all_used_kinv _ full_used) eq_refl))
    as (r & s' & H & _ & [_ H0] & _).
  exists r, s'. split; [exact H|]. apply H0. intros k. apply all_used_not_free, full_used.
Defined.

Lemma kalloc_huge_complete_witness : ∃ r s', kalloc_huge full = Ok r s' ∧ r = 0.
Proof.
  destruct (kalloc_huge_complete full (conj (all_used_kinv _ full_used) eq_refl))
    as (r & s' & H & _ & [_ H0] & _).
  exists r, s'. split; [exact H|]. apply H0. intros i _ _. exists i. split; [lia|].
  apply all_used_not_free, full_used.
Defined.

Lemma kfree_double_free_missed_witness :
  ∃ s s', kfree_page s 101 ∧ kfree kend0 (addr 101) s = Ok tt s' ∧
    covers (pstate s') 100 101 ∧ covers (pstate s') 101 101.
Proof.
  destruct two_pages as (s & Hid & Hp).
  destruct (kfree_double_free_missed kend0 s 100 Hid ltac:(done) Hp ltac:(done))
    as (Hf & s' & H & Hc).
  exists s, s'. split; [exact Hf|]. split; [exact H|exact Hc].
Defined.
End KallocWitness.
