(* ===== verification/Slab.v ===== *)
(** * The slab allocator: [kernel/slab.c]

    A [struct slab] lives at the start of a page of its own: [next] at offset
    0, [mem] at 8, [capacity] at 16, [nr_free] at 20 and [freemap] at 24.  Its
    objects live in a second page.  The [kmem_cache] records are globals.  The
    allocator runs on the state of any page allocator. *)

From S2P Require Import Prelude Mem Kstring Layout PageAlloc.

Definition cmin (a b : Z) : Z := if a <? b then a else b.

Record kmem_cache := KmemCache {
  obj_size : Z;
  c_partial : Z;
  c_full : Z;
  c_empty : Z;
  c_lock : bool
}.

Definition set_c_partial (p : Z) (c : kmem_cache) : kmem_cache :=
  KmemCache (obj_size c) p (c_full c) (c_empty c) (c_lock c).
Definition set_c_full (p : Z) (c : kmem_cache) : kmem_cache :=
  KmemCache (obj_size c) (c_partial c) p (c_empty c) (c_lock c).
Definition set_c_empty (p : Z) (c : kmem_cache) : kmem_cache :=
  KmemCache (obj_size c) (c_partial c) (c_full c) p (c_lock c).
Definition set_c_lock (b : bool) (c : kmem_cache) : kmem_cache :=
  KmemCache (obj_size c) (c_partial c) (c_full c) (c_empty c) b.

(** The three lists of a cache. *)
Inductive which := Partial | Full | Empty.

Definition list_head (w : which) (c : kmem_cache) : Z :=
  match w with Partial => c_partial c | Full => c_full c | Empty => c_empty c end.
Definition set_list_head (w : which) (p : Z) (c : kmem_cache) : kmem_cache :=
  match w with
  | Partial => set_c_partial p c
  | Full => set_c_full p c
  | Empty => set_c_empty p c
  end.

(** Byte offsets in [struct slab]. *)
Definition S_NEXT : Z := 0.
Definition S_MEM : Z := 8.
Definition S_CAPACITY : Z := 16.
Definition S_NR_FREE : Z := 20.
Definition S_FREEMAP : Z := 24.

(** [1ULL << i] *)
Definition bit (i : Z) : Z := u64 (Z.shiftl 1 i).

Section Slab.
Context {S : Type} `{PageAllocOps S}.

(** The running state: the page allocator and the cache worked on. *)
Definition cst : Type := S * kmem_cache.

Definition s_mem (t : cst) : mem := pa_mem t.1.
Definition rd32 (a : Z) : M cst Z := gets (λ t, ld32 (s_mem t) a).
Definition rd64 (a : Z) : M cst Z := gets (λ t, ld64 (s_mem t) a).
Definition wr_mem (f : mem → mem) : M cst unit := modify (λ t, (pa_set_mem (f (s_mem t)) t.1, t.2)).
Definition wr32 (a v : Z) : M cst unit := wr_mem (λ m, st32 m a v).
Definition wr64 (a v : Z) : M cst unit := wr_mem (λ m, st64 m a v).
Definition wr_set (a c n : Z) : M cst unit := wr_mem (λ m, memset m a c n).
Definition on_pages {A} (m : M S A) : M cst A := lift fst (λ s t, (s, t.2)) m.
Definition get_head (w : which) : M cst Z := gets (λ t, list_head w t.2).
Definition put_head (w : which) (p : Z) : M cst unit := modify (λ t, (t.1, set_list_head w p t.2)).
Definition acquire_c : M cst unit := acquire (λ t, c_lock t.2) (λ b t, (t.1, set_c_lock b t.2)).
Definition release_c : M cst unit := release (λ t, c_lock t.2) (λ b t, (t.1, set_c_lock b t.2)).

Definition slab_init (s mem_ capacity : Z) : M cst unit :=
  wr64 (s + S_NEXT) 0;;
  wr64 (s + S_MEM) mem_;;
  wr32 (s + S_CAPACITY) capacity;;
  wr32 (s + S_NR_FREE) capacity;;
  wr64 (s + S_FREEMAP) (Z.shiftr (2 ^ 64 - 1) (64 - capacity)).

(** One turn of the search of [slab_alloc]. *)
Definition slab_alloc_at (s size i : Z) : M cst (option Z) :=
  fm ← rd64 (s + S_FREEMAP);
  if Z.land fm (bit i) =? 0 then mret None else
  wr64 (s + S_FREEMAP) (Z.land fm (u64 (Z.lnot (bit i))));;
  nr ← rd32 (s + S_NR_FREE);
  wr32 (s + S_NR_FREE) (u32 (nr - 1));;
  base ← rd64 (s + S_MEM);
  wr_set (u64 (base + u32 (i * size))) 0xAA size;;
  base ← rd64 (s + S_MEM);
  mret (Some (u64 (base + u32 (i * size)))).

Definition slab_alloc (s size : Z) : M cst Z :=
  nr ← rd32 (s + S_NR_FREE);
  if nr =? 0 then mret 0 else
  cap ← rd32 (s + S_CAPACITY);
  r ← for_ret (seqZ 0 cap) (slab_alloc_at s size);
  mret (default 0 r).

Definition slab_free (s obj size : Z) : M cst unit :=
  base ← rd64 (s + S_MEM);
  let i := u32 (Z.quot (i64 (obj - base)) size) in
  cap ← rd32 (s + S_CAPACITY);
  if i >=? cap then mret tt else
  fm ← rd64 (s + S_FREEMAP);
  if negb (Z.land fm (bit i) =? 0) then mret tt else
  wr_set obj 0xDD size;;
  fm ← rd64 (s + S_FREEMAP);
  wr64 (s + S_FREEMAP) (Z.lor fm (bit i));;
  nr ← rd32 (s + S_NR_FREE);
  wr32 (s + S_NR_FREE) (u32 (nr + 1)).

Definition kmem_cache_init (size : Z) : M cst unit :=
  modify (λ t, (t.1, KmemCache size 0 0 0 false)).

(** [s->next = c->w; c->w = s;] *)
Definition push (w : which) (s : Z) : M cst unit :=
  h ← get_head w;
  wr64 (s + S_NEXT) h;;
  put_head w s.

(** [slab *s = c->w; c->w = c->w->next;] *)
Definition pop (w : which) : M cst Z :=
  s ← get_head w;
  n ← rd64 (s + S_NEXT);
  put_head w n;;
  mret s.

Definition kmem_cache_alloc : M cst Z :=
  acquire_c;;
  size ← gets (λ t, obj_size t.2);
  partial ← get_head Partial;
  empty ← get_head Empty;
  r ← (if negb (partial =? 0) then
         m ← slab_alloc partial size;
         nr ← rd32 (partial + S_NR_FREE);
         (if nr =? 0 then s ← pop Partial; push Full s else mret tt);;
         mret m
       else if negb (empty =? 0) then
         m ← slab_alloc empty size;
         nr ← rd32 (empty + S_NR_FREE);
         (if nr =? 0 then s ← pop Empty; push Full s
          else s ← pop Empty; push Partial s);;
         mret m
       else
         s ← on_pages pa_kalloc;
         if s =? 0 then mret 0 else
         objs ← on_pages pa_kalloc;
         if objs =? 0 then on_pages (pa_kfree s);; mret 0 else
         slab_init s objs (cmin 64 (4096 / size));;
         m ← slab_alloc s size;
         nr ← rd32 (s + S_NR_FREE);
         (if nr =? 0 then push Full s else push Partial s);;
         mret m);
  release_c;;
  mret r.

(** Bound on the length of the lists: no more slabs than pages. *)
Definition list_bound : nat := Z.to_nat ((PHYSTOP - KERNBASE) / PGSIZE + 1).

(** The first slab from [s] on whose objects contain [obj]. *)
Definition find_step (size obj s : Z) : M cst (Z + Z) :=
  if s =? 0 then mret (inr 0) else
  base ← rd64 (s + S_MEM);
  cap ← rd32 (s + S_CAPACITY);
  if (obj >=? base) && (obj <? u64 (base + u32 (cap * size))) then mret (inr s) else
  n ← rd64 (s + S_NEXT);
  mret (inl n).

Definition find_slab (w : which) (size obj : Z) : M cst Z :=
  h ← get_head w;
  loop list_bound (find_step size obj) h.

(** A [slab **]: the head of a list or the [next] field of a slab. *)
Inductive slot := Head (w : which) | Next (s : Z).

Definition get_slot (p : slot) : M cst Z :=
  match p with Head w => get_head w | Next s => rd64 (s + S_NEXT) end.
Definition put_slot (p : slot) (v : Z) : M cst unit :=
  match p with Head w => put_head w v | Next s => wr64 (s + S_NEXT) v end.

(** [for (pp = &c->w; *pp && *pp != s; pp = &( *pp)->next);] *)
Definition slot_step (s : Z) (pp : slot) : M cst (slot + slot) :=
  v ← get_slot pp;
  if negb (v =? 0) && negb (v =? s) then mret (inl (Next v)) else mret (inr pp).

(** Moves [s] from list [w] to the front of list [w']. *)
Definition move_slab (w w' : which) (s : Z) : M cst unit :=
  pp ← loop list_bound (slot_step s) (Head w);
  v ← get_slot pp;
  if v =? s then
    n ← rd64 (s + S_NEXT);
    put_slot pp n;;
    push w' s
  else mret tt.

(** One turn of the loop that gives empty slabs back. *)
Definition trim_step (x : Z * Z) : M cst (Z * Z + Z) :=
  let '(counter, pp) := x in
  if pp =? 0 then mret (inr pp) else
  n ← rd64 (pp + S_NEXT);
  if n =? 0 then mret (inr pp) else
  if counter >=? 1 then
    tofree ← rd64 (pp + S_NEXT);
    nn ← rd64 (tofree + S_NEXT);
    wr64 (pp + S_NEXT) nn;;
    m ← rd64 (tofree + S_MEM);
    on_pages (pa_kfree m);;
    on_pages (pa_kfree tofree);;
    mret (inl (counter, pp))
  else
    n ← rd64 (pp + S_NEXT);
    mret (inl (counter + 1, n)).

Definition trim_empty : M cst unit :=
  h ← get_head Empty;
  pp ← loop (2 * list_bound) trim_step (0, h);
  if negb (pp =? 0) then wr64 (pp + S_NEXT) 0 else mret tt.

Definition kmem_cache_free (obj : Z) : M cst unit :=
  acquire_c;;
  size ← gets (λ t, obj_size t.2);
  s ← find_slab Partial size obj;
  s ← (if negb (s =? 0) then
         slab_free s obj size;;
         nr ← rd32 (s + S_NR_FREE);
         cap ← rd32 (s + S_CAPACITY);
         (if nr =? cap then move_slab Partial Empty s else mret tt);;
         mret s
       else
         s ← find_slab Full size obj;
         if negb (s =? 0) then
           slab_free s obj size;;
           nr ← rd32 (s + S_NR_FREE);
           cap ← rd32 (s + S_CAPACITY);
           (if nr =? 1 then move_slab Full Partial s
            else if nr =? cap then move_slab Full Empty s else mret tt);;
           mret s
         else mret 0);
  if s =? 0 then release_c else
  trim_empty;;
  release_c.

(** ** [kmalloc] and [kmfree] over the six caches *)

Definition assist_size (size : Z) : Z :=
  if size <=? 64 then 64
  else if size <=? 128 then 128
  else if size <=? 256 then 256
  else if size <=? 512 then 512
  else if size <=? 1024 then 1024
  else if size <=? 2048 then 2048
  else 0.

Definition caches : Type := S * list kmem_cache.

Definition nocache : kmem_cache := KmemCache 0 0 0 0 false.

Definition on_cache {A} (i : nat) (m : M cst A) : M caches A :=
  lift (λ t, (t.1, default nocache (t.2 !! i))) (λ u t, (u.1, <[i := u.2]> t.2)) m.

Definition find_cache (asize : Z) : M caches (option nat) :=
  for_ret (seq 0 6) (λ i,
    c ← gets (λ t, default nocache (t.2 !! i));
    mret (if obj_size c =? asize then Some i else None)).

(** A null [kmem_cache *] is dereferenced when no cache has the size: the
    kernel stops in [kerneltrap]. *)
Definition kmalloc (size : Z) : M caches Z :=
  let asize := assist_size size in
  if asize =? 0 then lift fst (λ s t, (s, t.2)) pa_kalloc else
  c ← find_cache asize;
  match c with
  | Some i => on_cache i kmem_cache_alloc
  | None => panic "kerneltrap"
  end.

Definition kmfree (obj size : Z) : M caches unit :=
  let asize := assist_size size in
  if asize =? 0 then lift fst (λ s t, (s, t.2)) (pa_kfree obj) else
  c ← find_cache asize;
  match c with
  | Some i => on_cache i (kmem_cache_free obj)
  | None => panic "kerneltrap"
  end.

Definition init_all_slabs : M caches unit :=
  on_cache 0 (kmem_cache_init 64);;
  on_cache 1 (kmem_cache_init 128);;
  on_cache 2 (kmem_cache_init 256);;
  on_cache 3 (kmem_cache_init 512);;
  on_cache 4 (kmem_cache_init 1024);;
  on_cache 5 (kmem_cache_init 2048).

(** ** [print_statistics] *)

(** The loop over one list: number of slabs, free objects, objects. *)
Definition count_step (x : Z * Z * Z * Z) : M cst (Z * Z * Z * Z + Z * Z * Z) :=
  let '(s, n, total_free, total_capacity) := x in
  if s =? 0 then mret (inr (n, total_free, total_capacity)) else
  nr ← rd32 (s + S_NR_FREE);
  cap ← rd32 (s + S_CAPACITY);
  nx ← rd64 (s + S_NEXT);
  mret (inl (nx, i32 (n + 1), u32 (total_free + nr), u32 (total_capacity + cap))).

(** The numbers printed for one cache: the lengths of the three lists, and
    when there are objects their use in percent, their number and the number of
    free ones. *)
Definition statistics : M cst (Z * Z * Z * option (Z * Z * Z)) :=
  acquire_c;;
  p ← get_head Partial;
  r ← loop list_bound count_step (p, 0, 0, 0);
  let '(partial_count, f, c) := r in
  p ← get_head Full;
  r ← loop list_bound count_step (p, 0, f, c);
  let '(full_count, f, c) := r in
  p ← get_head Empty;
  r ← loop list_bound count_step (p, 0, f, c);
  let '(empty_count, f, c) := r in
  release_c;;
  mret (partial_count, full_count, empty_count,
        if c >? 0 then Some (u32 (100 - u32 (f * 100) / c), c, f) else None).

End Slab.
