(* ===== verification/SlabCorrect.v ===== *)
(** * Correctness of the slab allocator

    The lists of a cache in memory, what each routine of [kernel/slab.c] does
    to them, and the set of live objects. *)

From S2P Require Import Prelude Mem Kstring Layout PageAlloc Slab.

(** A slab: the page of its [struct slab], its object page, its free map. *)
Record slab := Slab { sa : Z; sm : Z; sfm : Z }.

#[global] Instance slab_eq_dec : EqDecision slab.
Proof. solve_decision. Defined.

(** Objects per slab, for a cache of objects of [size] bytes. *)
Definition cap (size : Z) : Z := cmin 64 (4096 / size).

(** Number of objects of the free map that are free. *)
Definition nfree (n fm : Z) : Z := Z.of_nat (length (filter (λ i, Z.testbit fm i = true) (seqZ 0 n))).

Definition slab_at (size : Z) (m : mem) (x : slab) : Prop :=
  ld64 m (sa x + S_MEM) = sm x ∧ ld32 m (sa x + S_CAPACITY) = cap size ∧
  ld32 m (sa x + S_NR_FREE) = nfree (cap size) (sfm x) ∧
  ld64 m (sa x + S_FREEMAP) = sfm x ∧ 0 ≤ sfm x < 2 ^ cap size.

(** The [struct slab]s linked from [head], by their addresses. *)
Fixpoint chain (m : mem) (head : Z) (l : list Z) : Prop :=
  match l with
  | [] => head = 0
  | a :: l' => head = a ∧ a ≠ 0 ∧ chain m (ld64 m a) l'
  end.

#[global] Instance which_eq_dec : EqDecision which.
Proof. solve_decision. Defined.

(** One entry per list of a cache. *)
Definition set_l {A} (w : which) (l : A) (L : which → A) : which → A :=
  λ w', if decide (w' = w) then l else L w'.
Definition chains (m : mem) (c : kmem_cache) (L : which → list Z) : Prop :=
  ∀ w, chain m (list_head w c) (L w).
Definition all_l {A} (L : which → list A) : list A := L Partial ++ L Full ++ L Empty.

Definition slab_pages (l : list slab) : list Z := l ≫= λ x, [sa x; sm x].

(** The address of object [i] of a slab. *)
Definition obj_at (size : Z) (x : slab) (i : Z) : Z := sm x + i * size.

(** The live objects. *)
Definition live (size : Z) (l : list slab) (r : Z) : Prop :=
  ∃ x i, x ∈ l ∧ 0 ≤ i < cap size ∧ Z.testbit (sfm x) i = false ∧ r = obj_at size x i.

(** Different page-aligned addresses are far apart. *)
Lemma sep_aligned a b :
  a mod 4096 = 0 → b mod 4096 = 0 → a ≠ b → b + 8 ≤ a ∨ a + 8 ≤ b.
Proof. intros Ha Hb Hab. Z.div_mod_to_equations. lia. Qed.

(** ** Free maps *)

Lemma cap_range size : 64 ≤ size ≤ 2048 → 2 ≤ cap size ≤ 64 ∧ cap size * size ≤ 4096.
Proof.
  intros Hs. unfold cap, cmin.
  assert (2 ≤ 4096 / size) by (apply Z.div_le_lower_bound; lia).
  pose proof (Z.mul_div_le 4096 size). destruct (Z.ltb_spec 64 (4096 / size)); nia.
Qed.

Lemma bit_eq i : 0 ≤ i < 64 → bit i = 2 ^ i.
Proof.
  intros Hi. unfold bit. rewrite Z.shiftl_1_l. apply u64_small.
  split; [apply Z.pow_nonneg; lia|]. change 18446744073709551616 with (2 ^ 64).
  apply Z.pow_lt_mono_r; lia.
Qed.

Lemma land_bit fm i : 0 ≤ i < 64 → (Z.land fm (bit i) =? 0) = negb (Z.testbit fm i).
Proof.
  intros Hi. rewrite bit_eq by done.
  destruct (Z.testbit fm i) eqn:E; cbn.
  - apply Z.eqb_neq. intros H0. assert (Z.testbit (Z.land fm (2 ^ i)) i = true) as H1.
    { rewrite Z.land_spec, E, Z.pow2_bits_true by lia. done. }
    by rewrite H0, Z.bits_0 in H1.
  - apply Z.eqb_eq, Z.bits_inj'. intros k Hk. rewrite Z.land_spec, Z.bits_0.
    rewrite Z.pow2_bits_eqb by lia. destruct (Z.eqb_spec i k) as [->|]; [by rewrite E|].
    by rewrite andb_false_r.
Qed.

(** The two updates of a free map are [Z.clearbit] and [Z.setbit]. *)
Lemma land_clear fm i :
  0 ≤ fm < 2 ^ 64 → 0 ≤ i < 64 → Z.land fm (u64 (Z.lnot (bit i))) = Z.clearbit fm i.
Proof.
  intros Hf Hi. apply Z.bits_inj'. intros k Hk. rewrite Z.land_spec, Z.clearbit_eqb.
  unfold u64. change 18446744073709551616 with (2 ^ 64). destruct (Z.ltb_spec k 64).
  - rewrite Z.mod_pow2_bits_low, Z.lnot_spec, bit_eq, Z.pow2_bits_eqb by lia. done.
  - rewrite Z.mod_pow2_bits_high, andb_false_r by lia.
    rewrite (proj1 (Z.bounded_iff_bits_nonneg' 64 fm ltac:(lia) ltac:(lia)) Hf k) by lia. done.
Qed.

Lemma lor_set fm i : 0 ≤ i < 64 → Z.lor fm (bit i) = Z.setbit fm i.
Proof. intros Hi. by rewrite bit_eq, <-Z.setbit_spec' by lia. Qed.

Lemma clearbit_range fm i n : 0 ≤ n → 0 ≤ fm < 2 ^ n → 0 ≤ Z.clearbit fm i < 2 ^ n.
Proof.
  intros Hn Hf. rewrite Z.clearbit_spec'.
  assert (0 ≤ Z.ldiff fm (2 ^ i)) as H0 by (apply Z.ldiff_nonneg; lia).
  apply Z.bounded_iff_bits_nonneg'; [done..|]. intros l Hl. rewrite Z.ldiff_spec.
  by rewrite (proj1 (Z.bounded_iff_bits_nonneg' n fm Hn ltac:(lia)) Hf l).
Qed.

Lemma setbit_range fm i n : 0 ≤ i < n → 0 ≤ fm < 2 ^ n → 0 ≤ Z.setbit fm i < 2 ^ n.
Proof.
  intros Hi Hf. rewrite Z.setbit_spec'.
  assert (0 ≤ Z.lor fm (2 ^ i)) as H0.
  { apply Z.lor_nonneg. split; [lia|]. apply Z.pow_nonneg. lia. }
  apply Z.bounded_iff_bits_nonneg'; [lia..|]. intros l Hl. rewrite Z.lor_spec.
  rewrite (proj1 (Z.bounded_iff_bits_nonneg' n fm ltac:(lia) ltac:(lia)) Hf l) by done.
  by rewrite Z.pow2_bits_false by lia.
Qed.

(** Counting with one element taken out. *)
Lemma filter_length_one {A} (P Q : A → Prop) `{!∀ x, Decision (P x), !∀ x, Decision (Q x)} l x :
  NoDup l → x ∈ l → P x → ¬ Q x → (∀ y, y ≠ x → P y ↔ Q y) →
  length (filter P l) = Datatypes.S (length (filter Q l)).
Proof.
  intros Hnd Hin HP HQ Heq. induction l as [|y l IH]; [by apply not_elem_of_nil in Hin|].
  apply NoDup_cons in Hnd as [Hy Hnd]. rewrite !filter_cons.
  apply elem_of_cons in Hin as [->|Hin].
  - rewrite decide_True, decide_False by done. cbn. f_equal. f_equal.
    apply filter_ext_in. intros z Hz. apply Heq. by intros ->.
  - assert (y ≠ x) as Hyx by (by intros ->). specialize (Heq y Hyx) as Hyq.
    destruct (decide (P y)), (decide (Q y)); try tauto; cbn; rewrite IH; auto.
Qed.

Lemma nfree_clear n fm i :
  0 ≤ i < n → Z.testbit fm i = true → nfree n (Z.clearbit fm i) = nfree n fm - 1.
Proof.
  intros Hi Hb. unfold nfree.
  rewrite (filter_length_one (λ k, Z.testbit fm k = true)
    (λ k, Z.testbit (Z.clearbit fm i) k = true) (seqZ 0 n) i); [lia|apply NoDup_seqZ| |done|..].
  - apply elem_of_seqZ. lia.
  - by rewrite Z.clearbit_eq.
  - intros k Hk. by rewrite Z.clearbit_neq.
Qed.

Lemma nfree_set n fm i :
  0 ≤ i < n → Z.testbit fm i = false → nfree n (Z.setbit fm i) = nfree n fm + 1.
Proof.
  intros Hi Hb. unfold nfree.
  rewrite (filter_length_one (λ k, Z.testbit (Z.setbit fm i) k = true)
    (λ k, Z.testbit fm k = true) (seqZ 0 n) i); [lia|apply NoDup_seqZ|..].
  - apply elem_of_seqZ. lia.
  - apply Z.setbit_eq. lia.
  - by rewrite Hb.
  - intros k Hk. rewrite Z.setbit_neq by lia. done.
Qed.

Lemma nfree_range n fm : 0 ≤ n → 0 ≤ nfree n fm ≤ n.
Proof.
  intros Hn. unfold nfree. pose proof (length_filter (λ i, Z.testbit fm i = true) (seqZ 0 n)) as Hl.
  rewrite length_seqZ in Hl. lia.
Qed.

Lemma nfree_zero n fm i : nfree n fm = 0 → 0 ≤ i < n → Z.testbit fm i = false.
Proof.
  intros Hz Hi. apply not_true_is_false. intros Hb.
  pose proof (nfree_clear n fm i Hi Hb). pose proof (nfree_range n (Z.clearbit fm i)). lia.
Qed.

Lemma nfree_all n fm i : nfree n fm = n → 0 ≤ i < n → Z.testbit fm i = true.
Proof.
  intros Hz Hi. apply not_false_is_true. intros Hb.
  pose proof (nfree_set n fm i Hi Hb). pose proof (nfree_range n (Z.setbit fm i)). lia.
Qed.

Lemma nfree_some n fm : 0 < nfree n fm → ∃ i, 0 ≤ i < n ∧ Z.testbit fm i = true.
Proof.
  unfold nfree. destruct (filter _ _) as [|i l] eqn:E; [cbn; lia|]. intros _. exists i.
  assert (i ∈ filter (λ i, Z.testbit fm i = true) (seqZ 0 n)) as Hi by (rewrite E; left).
  apply list_elem_of_filter in Hi as [Hb Hi]. apply elem_of_seqZ in Hi. split; [lia|done].
Qed.

Lemma nfree_ones n : 0 ≤ n → nfree n (Z.ones n) = n.
Proof.
  intros Hn. unfold nfree. rewrite (filter_ext_in _ (λ _, True)).
  - assert (∀ l : list Z, length (filter (λ _, True) l) = length l) as ->.
    { induction l as [|y l IH]; [done|]. rewrite filter_cons_True by done. cbn. by rewrite IH. }
    rewrite length_seqZ. lia.
  - intros i Hi. apply elem_of_seqZ in Hi. by rewrite Z.ones_spec_low by lia.
Qed.

(** ** Lists in memory *)

Lemma chain_ext m m' h l :
  (∀ a, a ∈ l → ld64 m' a = ld64 m a) → chain m h l → chain m' h l.
Proof.
  revert h. induction l as [|a l IH]; intros h Hm Hc; [done|]. destruct Hc as (-> & Ha & Hc).
  split_and!; [done..|]. rewrite Hm by left. apply IH; [set_solver|done].
Qed.

Lemma chain_head m h l : chain m h l → (h = 0 ∧ l = []) ∨ (∃ l', h ≠ 0 ∧ l = h :: l').
Proof. destruct l as [|a l]; [by left|]. intros (-> & ? & _). right. eauto. Qed.

(** What the slot after [l1] holds, in a list that starts at [h]. *)
Definition after (m : mem) (h : Z) (l1 : list Z) : Z :=
  match last l1 with Some b => ld64 m b | None => h end.

Lemma chain_tail m h l1 l2 : chain m h (l1 ++ l2) → chain m (after m h l1) l2.
Proof.
  revert h. induction l1 as [|b l1 IH]; intros h; [done|]. intros (-> & _ & Hc).
  apply IH in Hc. unfold after in *. rewrite last_cons. by destruct (last l1).
Qed.

(** A write to the [next] field of the node after [l1] splices its tail. *)
Lemma chain_splice m h l1 a l2 v l2' :
  NoDup (l1 ++ a :: l2) → (∀ b, b ∈ l1 ++ a :: l2 ++ l2' → b mod 4096 = 0) →
  0 ≤ v < 18446744073709551616 → a ∉ l2' →
  chain m h (l1 ++ a :: l2) → chain m v l2' → chain (st64 m a v) h (l1 ++ a :: l2').
Proof.
  revert h. induction l1 as [|b l1 IH]; intros h Hnd Hal Hv Ha (-> & Hb & Hc) Hc'; cbn.
  - split_and!; [done..|]. rewrite ld64_st64_eq by done. apply (chain_ext m); [|done].
    intros b' Hb'. apply ldn_stn_ne. pose proof (Hal a ltac:(set_solver)).
    pose proof (Hal b' ltac:(set_solver)). assert (a ≠ b') by (by intros ->).
    apply sep_aligned; auto; lia.
  - apply NoDup_cons in Hnd as [Hn Hnd]. split_and!; [done..|].
    rewrite ldn_stn_ne.
    + apply IH; auto. intros b' Hb'. apply Hal. set_solver.
    + apply sep_aligned; [apply Hal; set_solver..|]. intros ->. set_solver.
Qed.

(** ** The routines on one slab *)

(** Offsets, and the state after a sequence of writes. *)
Ltac off := unfold S_NEXT, S_MEM, S_CAPACITY, S_NR_FREE, S_FREEMAP in *.
Ltac slab_red := cbn [fst snd s_mem]; unfold s_mem; cbn [fst snd];
  rewrite ?pa_mem_set, ?pa_set_set; cbn [negb andb orb].
Ltac wp_red ::= slab_red.
Ltac slab_unfold := unfold rd32, rd64, wr32, wr64, wr_set, wr_mem.

(** Loads through stores at offsets that [lia] tells apart. *)
Ltac ld_simp := repeat first
  [ rewrite ld64_st64_eq by lia
  | rewrite ld32_st32_eq by lia
  | rewrite ldn_stn_ne by lia
  | rewrite ldn_memset_ne by lia ].

Section Routines.
Context {S : Type} `{PS : PageAllocSpec S}.
Context (size : Z) (Hsize : 64 ≤ size ≤ 2048).

(** Where the two pages of a slab are. *)
Definition slab_geom (x : slab) : Prop :=
  KERNBASE ≤ sa x ∧ sa x + 4096 ≤ PHYSTOP ∧ KERNBASE ≤ sm x ∧ sm x + 4096 ≤ PHYSTOP ∧
  (sa x + 4096 ≤ sm x ∨ sm x + 4096 ≤ sa x).

Definition set_fm (x : slab) (fm : Z) : slab := Slab (sa x) (sm x) fm.

Lemma obj_u64 x i :
  slab_geom x → 0 ≤ i < cap size → u64 (sm x + u32 (i * size)) = obj_at size x i ∧
  sm x ≤ obj_at size x i ∧ obj_at size x i + size ≤ sm x + 4096.
Proof.
  intros (?&?&?&?&?) Hi. pose proof (cap_range size Hsize) as [Hc Hm].
  assert (i * size + size ≤ 4096) by nia. unfold obj_at, u64, u32, PHYSTOP, KERNBASE in *.
  rewrite (Z.mod_small (i * size)) by nia. rewrite Z.mod_small by nia. split_and!; nia.
Qed.

(** Bytes that an operation on object [i] of a slab may change. *)
Definition obj_byte (x : slab) (i a : Z) : Prop :=
  sa x + S_NR_FREE ≤ a < sa x + 32 ∨ obj_at size x i ≤ a < obj_at size x i + size.

Lemma slab_alloc_at_spec s c x i Q :
  slab_at size (pa_mem s) x → slab_geom x → 0 ≤ i < cap size →
  (Z.testbit (sfm x) i = false → Q None (s, c)) →
  (∀ m', Z.testbit (sfm x) i = true → slab_at size m' (set_fm x (Z.clearbit (sfm x) i)) →
     same_outside (obj_byte x i) (pa_mem s) m' →
     Q (Some (obj_at size x i)) (pa_set_mem m' s, c)) →
  wp (slab_alloc_at (sa x) size i) Q (s, c).
Proof.
  intros (H1 & H2 & H3 & H4 & H5) Hg Hi HQ0 HQ. unfold slab_alloc_at. slab_unfold. wp_simpl.
  pose proof (cap_range size Hsize) as [Hc _]. destruct (obj_u64 x i Hg Hi) as (Ho & Hlo & Hhi).
  rewrite H4, land_bit by lia. destruct (Z.testbit (sfm x) i) eqn:Hb; slab_red; [|wp_simpl; auto].
  pose proof (nfree_range (cap size) (sfm x)).
  pose proof (Z.pow_le_mono_r 2 (cap size) 64 ltac:(lia) ltac:(lia)).
  pose proof (clearbit_range (sfm x) i (cap size) ltac:(lia) H5).
  pose proof (nfree_clear (cap size) (sfm x) i Hi Hb).
  pose proof (nfree_range (cap size) (Z.clearbit (sfm x) i)). 
  rewrite land_clear by lia. destruct Hg as (?&?&?&?&?). off. unfold PHYSTOP, KERNBASE in *.
  change (2 ^ 64) with 18446744073709551616 in *.
  wp_simpl. ld_simp. rewrite H1, H3, Ho. ld_simp. rewrite H1, Ho, (u32_small (_ - 1)) by lia.
  apply HQ; [done| |].
  - unfold slab_at, set_fm. off. cbn [sa sm sfm]. ld_simp. split_and!; [done..|lia|done|lia|lia].
  - intros a Ha. unfold obj_byte in Ha. off. rewrite memset_out, !ldb_stn_out by lia. done.
Qed.

Lemma slab_alloc_spec s c x Q :
  slab_at size (pa_mem s) x → slab_geom x → 0 < nfree (cap size) (sfm x) →
  (∀ i m', 0 ≤ i < cap size → Z.testbit (sfm x) i = true →
     slab_at size m' (set_fm x (Z.clearbit (sfm x) i)) →
     same_outside (obj_byte x i) (pa_mem s) m' →
     Q (obj_at size x i) (pa_set_mem m' s, c)) →
  wp (slab_alloc (sa x) size) Q (s, c).
Proof.
  intros Hx Hg Hn HQ. pose proof Hx as (_ & H2 & H3 & _).
  unfold slab_alloc. slab_unfold. wp_simpl. rewrite H3.
  destruct (Z.eqb_spec (nfree (cap size) (sfm x)) 0); [lia|]. wp_simpl. rewrite H2.
  eapply (wp_for_ret (λ l t, t = (s, c) ∧ ∀ i, i ∈ l → Z.testbit (sfm x) i = false)).
  - split; [done|]. set_solver.
  - intros l i rest t' Hl [-> Hz]. assert (0 ≤ i < cap size) as Hi.
    { assert (i ∈ seqZ 0 (cap size)) as Hin by (rewrite Hl; set_solver).
      apply elem_of_seqZ in Hin. lia. }
    apply slab_alloc_at_spec; auto.
    + intros Hb. split; [done|]. set_solver.
    + intros m' Hb Hx' Ho. wp_simpl. by apply (HQ i m').
  - intros t' [-> Hz]. destruct (nfree_some _ _ Hn) as (i & Hi & Hb).
    rewrite Hz in Hb; [done|]. apply elem_of_seqZ. lia.
Qed.

Lemma obj_index x i :
  slab_geom x → 0 ≤ i < cap size → u32 (Z.quot (i64 (obj_at size x i - sm x)) size) = i.
Proof.
  intros Hg Hi. pose proof (cap_range size Hsize) as [Hc Hm]. unfold obj_at.
  assert (i * size ≤ 4096) by nia. replace (sm x + i * size - sm x) with (i * size) by lia.
  unfold i64. rewrite Z.mod_small by nia.
  replace (i * size + 9223372036854775808 - 9223372036854775808) with (i * size) by lia.
  rewrite Z.quot_mul by lia. apply u32_small. lia.
Qed.

Lemma slab_free_spec s c x i Q :
  slab_at size (pa_mem s) x → slab_geom x → 0 ≤ i < cap size → Z.testbit (sfm x) i = false →
  (∀ m', slab_at size m' (set_fm x (Z.setbit (sfm x) i)) →
     same_outside (obj_byte x i) (pa_mem s) m' → Q tt (pa_set_mem m' s, c)) →
  wp (slab_free (sa x) (obj_at size x i) size) Q (s, c).
Proof.
  intros (H1 & H2 & H3 & H4 & H5) Hg Hi Hb HQ. unfold slab_free. slab_unfold. wp_simpl.
  pose proof (cap_range size Hsize) as [Hc _]. destruct (obj_u64 x i Hg Hi) as (Ho & Hlo & Hhi).
  rewrite H1, H2, obj_index by done. replace (i >=? cap size) with false by lia. wp_simpl.
  rewrite H4, land_bit, Hb by lia. slab_red.
  pose proof (nfree_range (cap size) (sfm x)).
  pose proof (Z.pow_le_mono_r 2 (cap size) 64 ltac:(lia) ltac:(lia)).
  pose proof (setbit_range (sfm x) i (cap size) ltac:(lia) H5).
  pose proof (nfree_set (cap size) (sfm x) i Hi Hb).
  destruct Hg as (?&?&?&?&?). off. unfold PHYSTOP, KERNBASE in *.
  change (2 ^ 64) with 18446744073709551616 in *.
  wp_simpl. ld_simp. rewrite H4, lor_set, H3, (u32_small (_ + 1)) by lia. apply HQ.
  - unfold slab_at, set_fm. off. cbn [sa sm sfm]. ld_simp. split_and!; [done..|lia|done|lia|lia].
  - intros a Ha. unfold obj_byte in Ha. off. rewrite !ldb_stn_out, memset_out by lia. done.
Qed.

Lemma slab_init_spec s c a p Q :
  KERNBASE ≤ a → a + 4096 ≤ PHYSTOP → KERNBASE ≤ p < PHYSTOP →
  (∀ m', slab_at size m' (Slab a p (Z.ones (cap size))) →
     same_outside (λ b, a ≤ b < a + 32) (pa_mem s) m' → Q tt (pa_set_mem m' s, c)) →
  wp (slab_init a p (cap size)) Q (s, c).
Proof.
  intros Ha1 Ha2 Hp HQ. unfold slab_init. slab_unfold. wp_simpl.
  pose proof (cap_range size Hsize) as [Hc _].
  assert (Z.shiftr (2 ^ 64 - 1) (64 - cap size) = Z.ones (cap size)) as Hones.
  { replace (2 ^ 64 - 1) with (Z.ones 64) by done. apply Z.bits_inj'. intros k Hk.
    rewrite Z.shiftr_spec, !Z.testbit_ones_nonneg by lia. lia. }
  rewrite Hones. assert (0 ≤ Z.ones (cap size) < 2 ^ cap size) as Hb.
  { rewrite Z.ones_equiv. pose proof (Z.pow_pos_nonneg 2 (cap size)). lia. }
  pose proof (Z.pow_le_mono_r 2 (cap size) 64 ltac:(lia) ltac:(lia)).
  off. unfold PHYSTOP, KERNBASE in *. change (2 ^ 64) with 18446744073709551616 in *.
  apply HQ.
  - unfold slab_at. off. cbn [sa sm sfm]. rewrite nfree_ones by lia. ld_simp.
    split_and!; lia.
  - intros b Hb'. rewrite !ldb_stn_out by lia. done.
Qed.

End Routines.

(** ** The routines on lists *)

Lemma list_head_set w p c w' :
  list_head w' (set_list_head w p c) = if decide (w' = w) then p else list_head w' c.
Proof. by destruct w, w'. Qed.

Lemma set_head_size w p c : obj_size (set_list_head w p c) = obj_size c.
Proof. by destruct w. Qed.

Lemma set_head_lock w p c : c_lock (set_list_head w p c) = c_lock c.
Proof. by destruct w. Qed.

(** Page-aligned, non-null machine addresses. *)
Definition good (l : list Z) : Prop :=
  ∀ a, a ∈ l → a mod 4096 = 0 ∧ 0 < a < 18446744073709551616.

Lemma chain_range m h l : good l → chain m h l → 0 ≤ h < 18446744073709551616.
Proof.
  intros Hg [[-> ->]|(l' & ? & ->)]%chain_head; [lia|]. destruct (Hg h ltac:(left)). lia.
Qed.

Lemma elem_of_all {A} (L : which → list A) x : x ∈ all_l L ↔ ∃ w, x ∈ L w.
Proof.
  unfold all_l. rewrite !elem_of_app. split; [|intros [[] ?]; auto]. intros [?|[?|?]]; eauto.
Qed.

Lemma all_l_nodup {A} (L : which → list A) w : NoDup (all_l L) → NoDup (L w).
Proof.
  unfold all_l. intros (? & _ & Hnd)%NoDup_app. apply NoDup_app in Hnd as (? & _ & ?). by destruct w.
Qed.

(** The lists are disjoint. *)
Lemma all_l_disj {A} (L : which → list A) w w' x :
  NoDup (all_l L) → w' ≠ w → x ∈ L w → x ∉ L w'.
Proof.
  intros Hnd Hne Hx Hx'. unfold all_l in Hnd. apply NoDup_app in Hnd as (? & Hd & Hnd).
  apply NoDup_app in Hnd as (? & Hd' & _). destruct w, w'; set_solver.
Qed.

Lemma chains_ext m m' c L :
  (∀ a, a ∈ all_l L → ld64 m' a = ld64 m a) → chains m c L → chains m' c L.
Proof.
  intros Hm Hc w. apply (chain_ext m); [|apply Hc]. intros a Ha. apply Hm, elem_of_all. eauto.
Qed.

Lemma chains_push m c L w a :
  chains m c L → good (a :: all_l L) → a ∉ all_l L →
  chains (st64 m a (list_head w c)) (set_list_head w a c) (set_l w (a :: L w) L).
Proof.
  intros Hc Hg Ha. assert (chains (st64 m a (list_head w c)) c L) as Hc'.
  { apply (chains_ext m); [|done]. intros b Hb. apply ldn_stn_ne.
    destruct (Hg a ltac:(left)), (Hg b ltac:(by right)). apply sep_aligned; auto. by intros ->. }
  intros w'. rewrite list_head_set. unfold set_l. destruct (decide (w' = w)) as [->|]; [|apply Hc'].
  destruct (Hg a ltac:(left)). split_and!; [done|lia|]. rewrite ld64_st64_eq; [apply Hc'|].
  apply (chain_range m _ (L w)); [|apply Hc]. intros b Hb. apply Hg. right. apply elem_of_all. eauto.
Qed.

Lemma chains_pop m c L w a l :
  chains m c L → L w = a :: l →
  list_head w c = a ∧ chains m (set_list_head w (ld64 m a) c) (set_l w l L).
Proof.
  intros Hc Hl. pose proof (Hc w) as Hw. rewrite Hl in Hw. destruct Hw as (Hh & _ & Hw).
  split; [done|]. intros w'. rewrite list_head_set. unfold set_l.
  destruct (decide (w' = w)) as [->|]; [done|apply Hc].
Qed.

Section Lists.
Context {S : Type} `{PS : PageAllocSpec S}.

Lemma push_wp s (c : kmem_cache) w a Q :
  Q tt (pa_set_mem (st64 (pa_mem s) a (list_head w c)) s, set_list_head w a c) →
  wp (push w a) Q (s, c).
Proof.
  intros HQ. unfold push, get_head, put_head. slab_unfold. wp_simpl. off. by rewrite Z.add_0_r.
Qed.

Lemma pop_wp s (c : kmem_cache) w Q :
  Q (list_head w c) (s, set_list_head w (ld64 (pa_mem s) (list_head w c)) c) →
  wp (pop w) Q (s, c).
Proof.
  intros HQ. unfold pop, get_head, put_head. slab_unfold. wp_simpl. off. by rewrite Z.add_0_r.
Qed.

(** The slot that holds [a] in a list: the head, or the [next] field of the node
    before it. *)
Definition slot_of (w : which) (l1 : list Z) : slot :=
  match last l1 with Some b => Next b | None => Head w end.

Lemma get_slot_wp s c w l0 Q :
  Q (after (pa_mem s) (list_head w c) l0) (s, c) → wp (get_slot (slot_of w l0)) Q (s, c).
Proof.
  unfold slot_of, after, get_slot, get_head, rd64. intros HQ.
  destruct (last l0); wp_simpl; off; by rewrite ?Z.add_0_r.
Qed.

Lemma slot_loop_wp s c w l0 l1 a l2 n Q :
  chain (pa_mem s) (list_head w c) (l0 ++ l1 ++ a :: l2) →
  a ∉ l1 → (length l1 < n)%nat → Q (slot_of w (l0 ++ l1)) (s, c) →
  wp (loop n (slot_step a) (slot_of w l0)) Q (s, c).
Proof.
  revert l0 n. induction l1 as [|b l1 IH]; intros l0 n Hc Ha Hn HQ;
    (destruct n as [|n]; [cbn in Hn; lia|]); apply wp_loop_S; unfold slot_step;
    pose proof (chain_tail _ _ _ _ Hc) as (Hh & Hz & _); rewrite wp_bind;
    apply get_slot_wp; rewrite Hh.
  - rewrite Z.eqb_refl, andb_false_r. wp_simpl. by rewrite app_nil_r in HQ.
  - replace (negb (b =? 0)) with true by lia.
    replace (negb (b =? a)) with true by (assert (b ≠ a) by (intros ->; set_solver); lia).
    wp_simpl. replace (Next b) with (slot_of w (l0 ++ [b])) by (unfold slot_of; by rewrite last_snoc).
    apply (IH (l0 ++ [b])); [by rewrite <-app_assoc|set_solver|cbn in Hn; lia|].
    by rewrite <-app_assoc.
Qed.

(** Bytes of the [next] fields of a list. *)
Definition next_byte (l : list Z) (b : Z) : Prop := ∃ y, y ∈ l ∧ y ≤ b < y + 8.

Lemma unlink_wp s c w L l1 a l2 (k : M cst unit) Q :
  chains (pa_mem s) c L → L w = l1 ++ a :: l2 → NoDup (all_l L) → good (all_l L) →
  (∀ s1 c1, chains (pa_mem s1) c1 (set_l w (l1 ++ l2) L) →
     same_outside (next_byte (L w)) (pa_mem s) (pa_mem s1) →
     (∀ m, pa_set_mem m s1 = pa_set_mem m s) →
     obj_size c1 = obj_size c → c_lock c1 = c_lock c → wp k Q (s1, c1)) →
  wp (n ← rd64 (a + S_NEXT); put_slot (slot_of w l1) n;; k) Q (s, c).
Proof.
  intros Hc Hl Hnd Hg HQ. slab_unfold. wp_simpl. off. rewrite Z.add_0_r.
  pose proof (Hc w) as Hw. rewrite Hl in Hw. unfold slot_of.
  destruct (last l1) as [b|] eqn:Hlast.
  - apply last_Some in Hlast as [l0 ->]. unfold put_slot. slab_unfold. wp_simpl. off.
    rewrite Z.add_0_r. rewrite <-app_assoc in Hw, Hl. cbn in Hw, Hl.
    assert (∀ y, y ∈ L w → y ∈ all_l L) as Hin by (intros; apply elem_of_all; eauto).
    assert (NoDup (l0 ++ b :: a :: l2)) as Hndw.
    { rewrite <-Hl. by apply all_l_nodup. }
    assert (chain (pa_mem s) (ld64 (pa_mem s) a) l2 ∧ 0 ≤ ld64 (pa_mem s) a < 18446744073709551616) as [Hc2 Hr].
    { split; [|apply ld64_range]. replace (l0 ++ b :: a :: l2) with ((l0 ++ [b; a]) ++ l2) in Hw
        by (rewrite <-app_assoc; done).
      apply chain_tail in Hw. unfold after in Hw. by rewrite last_app in Hw. }
    apply HQ; rewrite ?pa_mem_set; auto using pa_set_set.
    + intros w'. unfold set_l. destruct (decide (w' = w)) as [->|Hne].
      * rewrite <-app_assoc. cbn. eapply (chain_splice _ _ _ _ (a :: l2)); eauto.
        { intros y Hy. apply Hg, Hin. rewrite Hl. set_solver. }
        { apply NoDup_app in Hndw as (_ & _ & Hndw). apply NoDup_cons in Hndw. set_solver. }
      * apply (chain_ext (pa_mem s)); [|apply Hc]. intros y Hy. apply ldn_stn_ne.
        destruct (Hg y) as [? _]; [apply elem_of_all; eauto|].
        destruct (Hg b) as [? _]; [apply Hin; rewrite Hl; set_solver|].
        apply sep_aligned; auto. intros ->. apply (all_l_disj L w w' y); auto.
        rewrite Hl; set_solver.
    + apply same_outside_stn. intros y Hy. exists b. split; [rewrite Hl; set_solver|lia].
  - apply last_None in Hlast as ->. unfold put_slot, put_head. wp_simpl. cbn in Hl.
    destruct (chains_pop _ _ _ _ _ _ Hc Hl) as [Hh Hc'].
    apply HQ; auto using same_outside_refl, set_head_size, set_head_lock.
Qed.

Lemma move_slab_spec s c w w' L l1 a l2 Q :
  chains (pa_mem s) c L → L w = l1 ++ a :: l2 → w' ≠ w → NoDup (all_l L) → good (all_l L) →
  (length (L w) < list_bound)%nat →
  (∀ m' c', chains m' c' (set_l w' (a :: L w') (set_l w (l1 ++ l2) L)) →
     same_outside (next_byte (L w)) (pa_mem s) m' →
     obj_size c' = obj_size c → c_lock c' = c_lock c → Q tt (pa_set_mem m' s, c')) →
  wp (move_slab w w' a) Q (s, c).
Proof.
  intros Hc Hl Hne Hnd Hg Hlen HQ. unfold move_slab. rewrite wp_bind.
  assert (a ∈ all_l L) as Hin by (apply elem_of_all; exists w; rewrite Hl; set_solver).
  assert (∀ y, y ∈ all_l (set_l w (l1 ++ l2) L) → y ∈ all_l L ∧ y ≠ a) as Hsub.
  { intros y [w2 Hy]%elem_of_all. rewrite elem_of_all. unfold set_l in Hy.
    pose proof (all_l_nodup L w Hnd) as Hw. rewrite Hl in Hw.
    apply NoDup_app in Hw as (_ & Hd & Hw). apply NoDup_cons in Hw as [Hw _].
    destruct (decide (w2 = w)) as [->|Hw2].
    - split; [exists w; rewrite Hl; set_solver|]. intros ->. set_solver.
    - split; [by exists w2|]. intros ->. apply (all_l_disj L w w2 a); auto.
      rewrite Hl. set_solver. }
  apply (slot_loop_wp s c w [] l1 a l2 list_bound); [by rewrite <-Hl; apply Hc| |..].
  { pose proof (all_l_nodup L w Hnd) as Hw. rewrite Hl in Hw. apply NoDup_app in Hw. set_solver. }
  { rewrite Hl, length_app in Hlen. lia. }
  cbn [app]. rewrite wp_bind. apply get_slot_wp. pose proof (Hc w) as Hw. rewrite Hl in Hw.
  apply chain_tail in Hw as (-> & Hz & _). rewrite Z.eqb_refl.
  apply (unlink_wp s c w L l1 a l2); auto. intros s1 c1 Hc1 Hm1 Hset Hs1 Hlk1.
  apply push_wp. rewrite Hset. apply HQ; [| |by rewrite set_head_size|by rewrite set_head_lock].
  - replace (L w') with (set_l w (l1 ++ l2) L w') by (unfold set_l; by rewrite decide_False).
    apply chains_push; [done| |].
    + intros y [->|Hy]%elem_of_cons; apply Hg; [done|by apply Hsub].
    + intros Hy. by apply Hsub in Hy as [_ ?].
  - eapply same_outside_trans; [exact Hm1|]. apply same_outside_stn. intros b Hb.
    exists a. split; [rewrite Hl; set_solver|lia].
Qed.
End Lists.
