(* ===== verification/SlabCache.v ===== *)
(** * The caches of the slab allocator

    The invariant of a [kmem_cache] and what [kmem_cache_alloc] and
    [kmem_cache_free] do to the set of live objects. *)

From S2P Require Import Prelude Mem Kstring Layout PageAlloc Slab SlabCorrect.

(** ** Lists of a cache as one list *)

Lemma all_l_ins {A} (X : which → list A) w l1 x l2 :
  all_l (set_l w (l1 ++ x :: l2) X) ≡ₚ x :: all_l (set_l w (l1 ++ l2) X).
Proof.
  unfold all_l, set_l. destruct w; cbn; rewrite <-?app_assoc; cbn; solve_Permutation.
Qed.

Lemma all_l_split {A} (X : which → list A) w l1 x l2 :
  X w = l1 ++ x :: l2 → all_l X ≡ₚ x :: all_l (set_l w (l1 ++ l2) X).
Proof.
  intros HX. rewrite <-all_l_ins. unfold all_l, set_l.
  destruct w; cbn; rewrite HX; done.
Qed.

Lemma all_l_move {A} (X : which → list A) w w' l x :
  w' ≠ w → all_l (set_l w' (x :: X w') (set_l w l X)) ≡ₚ x :: all_l (set_l w l X).
Proof.
  intros Hne. unfold all_l, set_l. destruct w, w'; try done; cbn; solve_Permutation.
Qed.

Lemma all_l_fmap {A B} (f : A → B) (X : which → list A) :
  all_l (λ w, f <$> X w) = f <$> all_l X.
Proof. unfold all_l. by rewrite !fmap_app. Qed.

Lemma chains_fmap m c {A} (f : A → Z) (X : which → list A) w l L :
  (∀ w, L w = f <$> X w) → chains m c (set_l w (f <$> l) L) →
  chains m c (λ w', f <$> set_l w l X w').
Proof.
  intros HL Hc w'. specialize (Hc w'). unfold set_l in *.
  destruct (decide (w' = w)); [done|]. by rewrite <-HL.
Qed.

#[global] Instance slab_pages_perm : Proper ((≡ₚ) ==> (≡ₚ)) slab_pages.
Proof. intros L L' HL. unfold slab_pages. by rewrite HL. Qed.

#[global] Instance live_perm size : Proper ((≡ₚ) ==> (=) ==> iff) (live size).
Proof. intros L L' HL r ? <-. unfold live. by setoid_rewrite HL. Qed.

Lemma elem_slab_pages R p : p ∈ slab_pages R ↔ ∃ x, x ∈ R ∧ (p = sa x ∨ p = sm x).
Proof.
  unfold slab_pages. rewrite list_elem_of_bind. split.
  - intros (x & Hp & Hx). exists x. split; [done|]. set_solver.
  - intros (x & Hx & Hp). exists x. set_solver.
Qed.

Section Cache.
Context {S : Type} `{PS : PageAllocSpec S}.
Context (size : Z).

(** The slabs of a cache: their pages belong to the cache, none twice. *)
Record slabs_ok (s : S) (R : list slab) : Prop := {
  so_pa : pa_ok s;
  so_nodup : NoDup (slab_pages R);
  so_own : ∀ p, p ∈ slab_pages R → pa_managed p ∧ ¬ pa_free s p;
  so_at : ∀ x, x ∈ R → slab_at size (pa_mem s) x
}.

#[global] Instance slabs_ok_perm s : Proper ((≡ₚ) ==> iff) (slabs_ok s).
Proof.
  assert (∀ R R', R ≡ₚ R' → slabs_ok s R → slabs_ok s R') as H1.
  { intros R R' HR [? Hn Ho Ha]. split; [done|by rewrite <-HR|..].
    - intros p. rewrite <-HR. apply Ho.
    - intros x. rewrite <-HR. apply Ha. }
  intros R R' HR. split; apply H1; [done|by symmetry].
Qed.

(** Two pages of the cache, at different places of the list of its pages, do not
    overlap. *)
Lemma managed_apart p q :
  pa_managed p → pa_managed q → p ≠ q → p + 4096 ≤ q ∨ q + 4096 ≤ p.
Proof.
  intros (_ & _ & Hp)%pa_managed_page (_ & _ & Hq)%pa_managed_page Hne. unfold PGSIZE in *.
  Z.div_mod_to_equations. lia.
Qed.

Lemma slabs_geom s R x : slabs_ok s R → x ∈ R → slab_geom x.
Proof.
  intros [_ Hn Ho _] Hx. destruct (Ho (sa x)) as [Ha _]; [apply elem_slab_pages; eauto|].
  destruct (Ho (sm x)) as [Hm _]; [apply elem_slab_pages; eauto|].
  assert (sa x ≠ sm x) as Hne.
  { apply list_elem_of_split in Hx as (l1 & l2 & ->). unfold slab_pages in Hn.
    rewrite bind_app in Hn. apply NoDup_app in Hn as (_ & _ & Hn). cbn in Hn.
    apply NoDup_cons in Hn as [Hn _]. set_solver. }
  pose proof (managed_apart _ _ Ha Hm Hne). apply pa_managed_page in Ha, Hm.
  unfold slab_geom, PGSIZE in *. lia.
Qed.

Lemma slabs_apart s x R y :
  slabs_ok s (x :: R) → y ∈ R →
  (∀ p q, (p = sa x ∨ p = sm x) → (q = sa y ∨ q = sm y) → p + 4096 ≤ q ∨ q + 4096 ≤ p).
Proof.
  intros [_ Hn Ho _] Hy p q Hp Hq.
  assert (q ∈ slab_pages R) as HqR by (apply elem_slab_pages; eauto).
  apply managed_apart.
  - apply Ho. apply elem_slab_pages. exists x. set_solver.
  - apply Ho. unfold slab_pages. rewrite bind_cons. set_solver.
  - intros <-. unfold slab_pages in *. rewrite bind_cons in Hn.
    apply NoDup_app in Hn as (_ & Hd & _). apply (Hd p); [|done]. set_solver.
Qed.

Definition own_byte (R : list slab) (a : Z) : Prop := page_byte (λ p, p ∈ slab_pages R) a.

(** Writes to the cache's own pages. *)
Lemma slabs_write s R R' m' :
  slabs_ok s R → same_outside (own_byte R) (pa_mem s) m' → slab_pages R' = slab_pages R →
  (∀ x, x ∈ R' → slab_at size m' x) → slabs_ok (pa_set_mem m' s) R'.
Proof.
  intros [Hpa Hn Ho Ha] Hm Hp Hx. split.
  - apply pa_ok_set; [done|]. intros a (p & Hf & Hpa'). apply Hm. intros (q & Hq & Hqa).
    destruct (Ho q Hq) as [Hqm Hqf]. apply Hqf. replace q with p; [done|].
    destruct (decide (p = q)); [done|].
    destruct (managed_apart p q); eauto using pa_free_managed; unfold PGSIZE in *; lia.
  - by rewrite Hp.
  - intros p. rewrite Hp, pa_free_set. apply Ho.
  - rewrite pa_mem_set. done.
Qed.

Lemma slab_at_ext m m' x :
  (∀ a, sa x + 8 ≤ a < sa x + 32 → ldb m' a = ldb m a) → slab_at size m x → slab_at size m' x.
Proof.
  intros Hm (H1 & H2 & H3 & H4 & H5). unfold slab_at. off.
  split_and!; try lia; (rewrite (ldn_ext _ m m'); [done|]); intros b Hb; apply Hm; lia.
Qed.

(** A change to one slab. *)
Lemma slabs_update s x R x' m' :
  slabs_ok s (x :: R) → slab_at size m' x' → sa x' = sa x → sm x' = sm x →
  same_outside (λ a, sa x ≤ a < sa x + 4096 ∨ sm x ≤ a < sm x + 4096) (pa_mem s) m' →
  slabs_ok (pa_set_mem m' s) (x' :: R).
Proof.
  intros Hs Hx Hsa Hsm Hm. apply (slabs_write s (x :: R)); [done| | |].
  - eapply same_outside_weaken; [exact Hm|]. intros a [Ha|Ha]; [exists (sa x)|exists (sm x)];
      (split; [apply elem_slab_pages; exists x; set_solver|done]).
  - unfold slab_pages. rewrite !bind_cons. by rewrite Hsa, Hsm.
  - intros y [->|Hy]%elem_of_cons; [done|]. eapply slab_at_ext; [|apply Hs; by right].
    intros a Ha. apply Hm. pose proof (slabs_apart _ _ _ _ Hs Hy) as Hap.
    pose proof (Hap (sa x) (sa y)). pose proof (Hap (sm x) (sa y)). lia.
Qed.

(** A change to [next] fields. *)
Lemma slabs_next s R m' :
  slabs_ok s R → same_outside (next_byte (sa <$> R)) (pa_mem s) m' →
  slabs_ok (pa_set_mem m' s) R.
Proof.
  intros Hs Hm. apply (slabs_write s R); [done| |done|].
  - eapply same_outside_weaken; [exact Hm|].
    intros a (y & (x & -> & Hx)%list_elem_of_fmap & Ha). exists (sa x).
    split; [apply elem_slab_pages; eauto|unfold PGSIZE; lia].
  - intros x Hx. eapply slab_at_ext; [|by apply Hs]. intros a Ha. apply Hm.
    intros (y & (z & -> & Hz)%list_elem_of_fmap & Hza).
    assert (pa_managed (sa x) ∧ pa_managed (sa z)) as [Hax Haz].
    { split; apply Hs, elem_slab_pages; eauto. }
    destruct (decide (sa x = sa z)); [lia|]. destruct (managed_apart _ _ Hax Haz); [done|lia..].
Qed.

Lemma slabs_good s R : slabs_ok s R → good (sa <$> R).
Proof.
  intros Hs a (x & -> & Hx)%list_elem_of_fmap.
  assert (pa_managed (sa x)) as (? & ? & ?)%pa_managed_page.
  { apply Hs, elem_slab_pages; eauto. }
  unfold PHYSTOP, KERNBASE, PGSIZE in *. split; [done|lia].
Qed.

Lemma slabs_nodup_sa s R : slabs_ok s R → NoDup (sa <$> R).
Proof.
  intros [_ Hn _ _]. induction R as [|x R IH]; [constructor|].
  unfold slab_pages in Hn. rewrite bind_cons in Hn. apply NoDup_app in Hn as (_ & Hd & Hn).
  cbn. constructor; [|by apply IH]. intros (y & Hy & Hin)%list_elem_of_fmap.
  apply (Hd (sa x)); [set_solver|]. apply elem_slab_pages. exists y. auto.
Qed.

(** No more slabs than pages: the bound of the list loops is enough. *)
Lemma slabs_bound s R : slabs_ok s R → (length R < list_bound)%nat.
Proof.
  intros Hs. pose proof (slabs_nodup_sa s R Hs) as Hnd.
  assert (sa <$> R ⊆+ (λ k, KERNBASE + PGSIZE * k) <$> seqZ 0 ((PHYSTOP - KERNBASE) / PGSIZE)) as Hsub.
  { apply NoDup_submseteq; [done|]. intros a (x & -> & Hx)%list_elem_of_fmap.
    assert (pa_managed (sa x)) as (? & ? & ?)%pa_managed_page.
    { apply Hs, elem_slab_pages; eauto. }
    apply list_elem_of_fmap. exists ((sa x - KERNBASE) / PGSIZE). rewrite elem_of_seqZ.
    unfold PHYSTOP, KERNBASE, PGSIZE in *. Z.div_mod_to_equations. lia. }
  apply submseteq_length in Hsub. rewrite !length_fmap, length_seqZ in Hsub.
  unfold list_bound. assert (0 ≤ (PHYSTOP - KERNBASE) / PGSIZE) by done.
  set (n := (PHYSTOP - KERNBASE) / PGSIZE) in *. clearbody n. lia.
Qed.

(** ** Live objects *)

Lemma live_cons x R r :
  live size (x :: R) r ↔
  (∃ i, 0 ≤ i < cap size ∧ Z.testbit (sfm x) i = false ∧ r = obj_at size x i) ∨ live size R r.
Proof.
  unfold live. split.
  - intros (y & i & [->|Hy]%elem_of_cons & ?); [left|right]; eauto.
  - intros [(i & ?)|(y & i & ? & ?)]; [exists x, i|exists y, i]; set_solver.
Qed.

Context (Hsize : 64 ≤ size ≤ 2048).

Lemma obj_inj s R x y i j :
  slabs_ok s R → x ∈ R → y ∈ R → 0 ≤ i < cap size → 0 ≤ j < cap size →
  sa x = sa y ∧ i = j ∨
  (obj_at size x i + size ≤ obj_at size y j ∨ obj_at size y j + size ≤ obj_at size x i).
Proof.
  intros Hs Hx Hy Hi Hj. pose proof (cap_range size Hsize) as [Hc Hm].
  destruct (decide (x = y)) as [->|Hne].
  { destruct (decide (i = j)); [by left|right]. unfold obj_at. nia. }
  right. assert (x ∈ R ∧ ∃ R', R ≡ₚ y :: R' ∧ x ∈ R') as (_ & R' & HR & HxR).
  { split; [done|]. apply elem_of_Permutation in Hy as [R' HR]. exists R'. split; [done|].
    rewrite HR in Hx. set_solver. }
  rewrite HR in Hs.
  pose proof (slabs_apart _ _ _ _ Hs HxR (sm y) (sm x) (or_intror eq_refl) (or_intror eq_refl)).
  unfold obj_at. nia.
Qed.

Lemma live_clear x R i r :
  0 ≤ i < cap size →
  live size (set_fm x (Z.clearbit (sfm x) i) :: R) r ↔
  live size (x :: R) r ∨ r = obj_at size x i.
Proof.
  intros Hi. rewrite !live_cons. split.
  - intros [(j & Hj & Hb & ->)|?]; [|tauto]. cbn in Hb. rewrite Z.clearbit_eqb in Hb.
    destruct (Z.eqb_spec i j) as [->|]; [by right|]. left; left. exists j.
    rewrite andb_true_r in Hb. done.
  - intros [[(j & Hj & Hb & ->)|?]| ->]; [left|tauto|left].
    + exists j. split_and!; [lia..| |done]. cbn. by rewrite Z.clearbit_eqb, Hb.
    + exists i. split_and!; [lia..| |done]. apply Z.clearbit_eq.
Qed.

Lemma live_set s x R i r :
  slabs_ok s (x :: R) → 0 ≤ i < cap size →
  live size (set_fm x (Z.setbit (sfm x) i) :: R) r ↔
  live size (x :: R) r ∧ r ≠ obj_at size x i.
Proof.
  intros Hs Hi. rewrite !live_cons. split.
  - intros [(j & Hj & Hb & ->)|(y & j & Hy & Hj & Hb & ->)].
    + cbn in Hb. rewrite Z.setbit_eqb in Hb by lia. apply orb_false_iff in Hb as [Hij Hb].
      split; [left; by exists j|]. unfold obj_at. cbn. apply Z.eqb_neq in Hij. nia.
    + split; [right; by exists y, j|].
      pose proof (slabs_apart _ _ _ _ Hs Hy (sm x) (sm y) (or_intror eq_refl) (or_intror eq_refl)).
      pose proof (cap_range size Hsize) as [Hc Hm]. unfold obj_at. nia.
  - intros [[(j & Hj & Hb & ->)|?] Hne]; [left|tauto]. exists j. split_and!; [lia..| |done].
    cbn. rewrite Z.setbit_eqb, Hb by lia. rewrite orb_false_r. apply Z.eqb_neq. by intros ->.
Qed.

(** An object of a free map bit that is set is not live. *)
Lemma free_not_live s x R i :
  slabs_ok s (x :: R) → 0 ≤ i < cap size → Z.testbit (sfm x) i = true →
  ¬ live size (x :: R) (obj_at size x i).
Proof.
  intros Hs Hi Hb Hl. assert (live size (x :: R) (obj_at size x i) ∧ obj_at size x i ≠ obj_at size x i)
    as [_ ?]; [|done].
  rewrite <-(live_set s) by done. apply live_cons in Hl. apply live_cons.
  destruct Hl as [(j & Hj & Hb' & Heq)|?]; [|by right].
  assert (i = j) as -> by (unfold obj_at in Heq; nia). congruence.
Qed.
End Cache.
