(* ===== verification/SlabSpec.v ===== *)
(** * What the slab allocator promises

    [kmem_cache_alloc] and [kmem_cache_free] on the live objects of a cache,
    then [kmalloc] and [kmfree] over the six caches. *)

From S2P Require Import Prelude Mem Kstring Layout PageAlloc Slab SlabCorrect SlabCache.

Section Spec.
Context {S : Type} `{PS : PageAllocSpec S}.
Context (size : Z).

#[local] Abbreviation lists := (which → list slab).
Implicit Types (s : S) (c : kmem_cache) (X : lists) (w : which).

Record cache_ok (t : cst) (X : lists) : Prop := {
  ck_slabs : slabs_ok size t.1 (all_l X);
  ck_size : obj_size t.2 = size;
  ck_chains : chains (pa_mem t.1) t.2 (λ w, sa <$> X w)
}.

(** Which list a slab belongs to. *)
Definition in_class (w : which) (x : slab) : Prop :=
  match w with
  | Partial => 0 < nfree (cap size) (sfm x) < cap size
  | Full => nfree (cap size) (sfm x) = 0
  | Empty => nfree (cap size) (sfm x) = cap size
  end.

Definition classified (X : lists) : Prop := ∀ w x, x ∈ X w → in_class w x.

(** The invariant of a cache between two calls. *)
Record cache_inv (t : cst) (X : lists) : Prop := {
  ci_ok : cache_ok t X;
  ci_class : classified X;
  ci_lock : c_lock t.2 = false
}.

(** The pages a cache may change: its own and the free ones. *)
Definition pool_page (s : S) (X : lists) (p : Z) : Prop := pa_free s p ∨ p ∈ slab_pages (all_l X).

(** What every operation respects: pages only move between the cache and the
    page allocator, other pages are not written, and neither are the objects in
    [Keep]. *)
Record frame (Keep : Z → Prop) (s : S) (X : lists) (s' : S) (X' : lists) : Prop := {
  fr_pages : ∀ p, pool_page s' X' p ↔ pool_page s X p;
  fr_mem : same_outside (page_byte (pool_page s X)) (pa_mem s) (pa_mem s');
  fr_keep : ∀ o a, Keep o → o ≤ a < o + size → ldb (pa_mem s') a = ldb (pa_mem s) a
}.

Lemma frame_trans Keep s1 X1 s2 X2 s3 X3 :
  frame Keep s1 X1 s2 X2 → frame Keep s2 X2 s3 X3 → frame Keep s1 X1 s3 X3.
Proof.
  intros [Hp Hm Hk] [Hp' Hm' Hk']. split.
  - intros p. by rewrite Hp'.
  - eapply same_outside_trans; [exact Hm|]. eapply same_outside_weaken; [exact Hm'|].
    intros a (p & Hpa & Ha). exists p. by rewrite <-Hp.
  - intros o a Ho Ha. by rewrite (Hk' o), (Hk o).
Qed.

Lemma frame_refl Keep s X : frame Keep s X s X.
Proof. by split. Qed.

(** The objects in [Keep] are objects of the cache. *)
Definition keeps (Keep : Z → Prop) (X : lists) : Prop :=
  ∀ o, Keep o → ∃ y j, y ∈ all_l X ∧ 0 ≤ j < cap size ∧ o = obj_at size y j.

(** *** Consequences of the invariant *)

Lemma ck_nodup t X : cache_ok t X → NoDup (all_l (λ w, sa <$> X w)).
Proof. intros Hok. rewrite all_l_fmap. apply (slabs_nodup_sa size t.1), Hok. Qed.

Lemma ck_good t X : cache_ok t X → good (all_l (λ w, sa <$> X w)).
Proof. intros Hok. rewrite all_l_fmap. apply (slabs_good size t.1), Hok. Qed.

Lemma ck_len t X w : cache_ok t X → (length (X w) < list_bound)%nat.
Proof.
  intros Hok. pose proof (slabs_bound size t.1 _ (ck_slabs _ _ Hok)) as Hb.
  unfold all_l in Hb. rewrite !length_app in Hb. destruct w; lia.
Qed.

Lemma elem_all X w x : x ∈ X w → x ∈ all_l X.
Proof. intros Hx. apply elem_of_all. eauto. Qed.

Lemma sm_page t X x : cache_ok t X → x ∈ all_l X → pa_managed (sm x) ∧ sm x ∈ slab_pages (all_l X).
Proof.
  intros Hok Hx. assert (sm x ∈ slab_pages (all_l X)) by (apply elem_slab_pages; eauto).
  split; [|done]. by apply (so_own _ _ _ (ck_slabs _ _ Hok)).
Qed.

(** Different slabs of the cache have all their pages apart. *)
Lemma slab_pair t X x y p q :
  cache_ok t X → x ∈ all_l X → y ∈ all_l X → x ≠ y →
  (p = sa x ∨ p = sm x) → (q = sa y ∨ q = sm y) → p + 4096 ≤ q ∨ q + 4096 ≤ p.
Proof.
  intros [Hs _ _] Hx Hy Hne Hp Hq. apply elem_of_Permutation in Hx as [R HR].
  rewrite HR in Hs, Hy. apply elem_of_cons in Hy as [?|Hy]; [by subst|].
  by apply (slabs_apart size _ _ _ _ Hs Hy).
Qed.

Lemma sa_sm_apart t X x y :
  cache_ok t X → x ∈ all_l X → y ∈ all_l X → sa x + 4096 ≤ sm y ∨ sm y + 4096 ≤ sa x.
Proof.
  intros Hok Hx Hy. destruct (decide (x = y)) as [->|Hne].
  - pose proof (slabs_geom size _ _ _ (ck_slabs _ _ Hok) Hy) as (?&?&?&?&?). lia.
  - apply (slab_pair t X x y); auto.
Qed.

Lemma sa_inj t X x y : cache_ok t X → x ∈ all_l X → y ∈ all_l X → sa x = sa y → x = y.
Proof.
  intros Hok Hx Hy Heq. destruct (decide (x = y)) as [|Hne]; [done|].
  destruct (slab_pair t X x y (sa x) (sa y) Hok Hx Hy Hne); auto; lia.
Qed.

Context (Hsize : 64 ≤ size ≤ 2048).

(** Bytes of an object lie in the object page of its slab. *)
Lemma obj_in_page y j a :
  0 ≤ j < cap size → obj_at size y j ≤ a < obj_at size y j + size → sm y ≤ a < sm y + 4096.
Proof. intros Hj Ha. pose proof (cap_range size Hsize) as [_ ?]. unfold obj_at in Ha. nia. Qed.

Lemma pa_free_byte s X a :
  (∃ x, x ∈ all_l X ∧ (sa x ≤ a < sa x + 4096 ∨ sm x ≤ a < sm x + 4096)) →
  page_byte (pool_page s X) a.
Proof.
  intros (x & Hx & Ha). destruct Ha as [Ha|Ha]; [exists (sa x)|exists (sm x)];
    (split; [right; apply elem_slab_pages; eauto|done]).
Qed.

(** *** The page allocator below the cache *)

(** A call of the page allocator that touches no page of the cache. *)
Lemma pages_step s s' c X (F : Z → Prop) Keep :
  cache_ok (s, c) X → pa_ok s' → (∀ p, F p → pa_managed p ∧ p ∉ slab_pages (all_l X)) →
  (∀ p, p ∈ slab_pages (all_l X) → ¬ pa_free s' p) →
  same_outside (page_byte F) (pa_mem s) (pa_mem s') → keeps Keep X →
  cache_ok (s', c) X ∧
  ∀ o a, Keep o → o ≤ a < o + size → ldb (pa_mem s') a = ldb (pa_mem s) a.
Proof.
  intros Hok Hpa HF Hno Hm HK. pose proof Hok as [[Hpa0 Hnd Hown Hat] Hs Hc]. cbn in *.
  assert (∀ p a, p ∈ slab_pages (all_l X) → p ≤ a < p + 4096 → ldb (pa_mem s') a = ldb (pa_mem s) a)
    as Hsame.
  { intros p a Hp Ha. apply Hm. intros (q & Hq & Hqa). destruct (HF q Hq) as [Hqm Hqn].
    destruct (decide (p = q)) as [->|Hne]; [done|].
    destruct (managed_apart p q); [by apply Hown|done|done|unfold PGSIZE in *; lia..]. }
  split; [split; cbn|].
  - split; [done|done| |].
    + intros p Hp. split; [by apply Hown|by apply Hno].
    + intros x Hx. apply (slab_at_ext size (pa_mem s)); [|by apply Hat]. intros a Ha.
      apply (Hsame (sa x)); [apply elem_slab_pages; eauto|lia].
  - done.
  - apply (chains_ext (pa_mem s)); [|done]. intros a. rewrite all_l_fmap.
    intros (x & -> & Hx)%list_elem_of_fmap. apply ldn_ext. intros b Hb.
    apply (Hsame (sa x)); [apply elem_slab_pages; eauto|lia].
  - intros o a Ho Ha. destruct (HK o Ho) as (y & j & Hy & Hj & ->).
    apply (Hsame (sm y)); [apply elem_slab_pages; eauto|]. by apply (obj_in_page y j).
Qed.

(** *** A change to one slab of a list *)

Lemma cache_update s c X w l1 x l2 i fm' m' Keep :
  cache_ok (s, c) X → X w = l1 ++ x :: l2 → 0 ≤ i < cap size →
  slab_at size m' (set_fm x fm') → same_outside (obj_byte size x i) (pa_mem s) m' →
  keeps Keep X → ¬ Keep (obj_at size x i) →
  cache_ok (pa_set_mem m' s, c) (set_l w (l1 ++ set_fm x fm' :: l2) X) ∧
  frame Keep s X (pa_set_mem m' s) (set_l w (l1 ++ set_fm x fm' :: l2) X).
Proof.
  intros Hok HX Hi Hx Hm HK Hnk. pose proof Hok as [Hs Hsz Hc]. cbn in *.
  assert (x ∈ all_l X) as Hin by (apply (elem_all X w); rewrite HX; set_solver).
  pose proof (all_l_split X w l1 x l2 HX) as Hsplit.
  assert (all_l (set_l w (l1 ++ set_fm x fm' :: l2) X) ≡ₚ set_fm x fm' :: all_l (set_l w (l1 ++ l2) X))
    as Hsplit' by apply all_l_ins.
  pose proof (slabs_geom size _ _ _ Hs Hin) as Hg.
  assert (slab_pages (all_l (set_l w (l1 ++ set_fm x fm' :: l2) X)) ≡ₚ slab_pages (all_l X)) as Hpg.
  { rewrite Hsplit, Hsplit'. done. }
  assert (∀ a, obj_byte size x i a → sa x + 8 ≤ a < sa x + 4096 ∨ sm x ≤ a < sm x + 4096) as Hby.
  { intros a [Ha|Ha]; off; [left; lia|right]. by apply (obj_in_page x i). }
  split; [split; cbn|split].
  - rewrite Hsplit'. rewrite Hsplit in Hs. apply (slabs_update size s x); auto.
    eapply same_outside_weaken; [exact Hm|]. intros a Ha%Hby. lia.
  - done.
  - rewrite pa_mem_set. apply (chains_ext (pa_mem s)).
    + intros a. rewrite all_l_fmap, Hsplit'. cbn. intros Ha. apply ldn_ext. intros b Hb.
      apply Hm. intros Hob%Hby. apply elem_of_cons in Ha as [->|(y & -> & Hy)%list_elem_of_fmap].
      * destruct Hg as (?&?&?&?&?). lia.
      * rewrite Hsplit in Hs. pose proof (slabs_apart size _ _ _ _ Hs Hy) as Hap.
        pose proof (Hap (sa x) (sa y)). pose proof (Hap (sm x) (sa y)). lia.
    + intros w'. specialize (Hc w'). unfold set_l. destruct (decide (w' = w)) as [->|]; [|done].
      rewrite HX in Hc. rewrite fmap_app in *. done.
  - intros p. unfold pool_page. by rewrite pa_free_set, Hpg.
  - rewrite pa_mem_set. eapply same_outside_weaken; [exact Hm|]. intros a Ha%Hby.
    apply pa_free_byte. exists x. split; [done|lia].
  - intros o a Ho Ha. rewrite pa_mem_set. apply Hm. destruct (HK o Ho) as (y & j & Hy & Hj & ->).
    intros [Hob|Hob].
    + pose proof (obj_in_page y j a Hj Ha). pose proof (sa_sm_apart _ _ _ _ Hok Hin Hy). off. lia.
    + destruct (obj_inj size Hsize s _ x y i j Hs Hin Hy Hi Hj) as [[Hxy ->]|Hd]; [|lia].
      apply Hnk. by rewrite (sa_inj _ _ _ _ Hok Hin Hy Hxy).
Qed.

(** *** Moving a slab between lists *)

Lemma cache_move s c X w w' l1 x l2 m' c' Keep :
  cache_ok (s, c) X → X w = l1 ++ x :: l2 → w' ≠ w →
  chains m' c' (set_l w' (sa x :: (sa <$> X w')) (set_l w ((sa <$> l1) ++ (sa <$> l2)) (λ w, sa <$> X w))) →
  same_outside (next_byte (sa <$> X w)) (pa_mem s) m' → obj_size c' = obj_size c →
  keeps Keep X →
  cache_ok (pa_set_mem m' s, c') (set_l w' (x :: X w') (set_l w (l1 ++ l2) X)) ∧
  frame Keep s X (pa_set_mem m' s) (set_l w' (x :: X w') (set_l w (l1 ++ l2) X)).
Proof.
  intros Hok HX Hne Hc Hm Hsz' HK. pose proof Hok as [Hs Hsz _]. cbn in *.
  assert (all_l (set_l w' (x :: X w') (set_l w (l1 ++ l2) X)) ≡ₚ all_l X) as Hperm.
  { rewrite all_l_move by done. by rewrite <-all_l_split. }
  assert (∀ a, next_byte (sa <$> X w) a → ∃ y, y ∈ all_l X ∧ sa y ≤ a < sa y + 8) as Hnb.
  { intros a (b & (y & -> & Hy)%list_elem_of_fmap & Ha). exists y. split; [by eapply elem_all|done]. }
  split; [split; cbn|split].
  - rewrite Hperm. apply slabs_next; [done|]. eapply same_outside_weaken; [exact Hm|].
    intros a (y & Hy & Ha)%Hnb. exists (sa y). split; [by apply list_elem_of_fmap; eauto|done].
  - by rewrite Hsz'.
  - rewrite pa_mem_set. intros w2. specialize (Hc w2). unfold set_l in *.
    destruct (decide (w2 = w')); [done|]. destruct (decide (w2 = w)); [by rewrite fmap_app|done].
  - intros p. unfold pool_page. by rewrite pa_free_set, Hperm.
  - rewrite pa_mem_set. eapply same_outside_weaken; [exact Hm|]. intros a (y & Hy & Ha)%Hnb.
    apply pa_free_byte. exists y. split; [done|lia].
  - intros o a Ho Ha. rewrite pa_mem_set. apply Hm. intros (z & Hz & Hza)%Hnb.
    destruct (HK o Ho) as (y & j & Hy & Hj & ->). pose proof (obj_in_page y j a Hj Ha).
    pose proof (sa_sm_apart _ _ _ _ Hok Hz Hy). lia.
Qed.

(** [kmem_cache_alloc] moves the first slab of a list. *)
Lemma move_first_spec s c X w w' x l Keep Q :
  cache_ok (s, c) X → X w = x :: l → w' ≠ w → keeps Keep X →
  (∀ s' c', cache_ok (s', c') (set_l w' (x :: X w') (set_l w l X)) →
     frame Keep s X s' (set_l w' (x :: X w') (set_l w l X)) → c_lock c' = c_lock c → Q tt (s', c')) →
  wp (a ← pop w; push w' a) Q (s, c).
Proof.
  intros Hok HX Hne HK HQ. pose proof Hok as [Hs Hsz Hc]. cbn in *. rewrite wp_bind.
  apply pop_wp. destruct (chains_pop _ _ _ w (sa x) (sa <$> l) Hc) as [Hh Hc1].
  { by rewrite HX. }
  apply push_wp. rewrite Hh. set (c1 := set_list_head w _ c) in *.
  set (L1 := set_l w (sa <$> l) (λ w0, sa <$> X w0)) in *.
  assert (L1 w' = sa <$> X w') as HL1 by (unfold L1, set_l; by rewrite decide_False).
  assert (∀ a, a ∈ all_l L1 → a ∈ sa <$> all_l X ∧ a ≠ sa x) as Hin.
  { intros a [w2 Ha]%elem_of_all. pose proof (ck_nodup _ _ Hok) as Hnd. rewrite <-all_l_fmap.
    unfold L1, set_l in Ha. destruct (decide (w2 = w)) as [->|Hw2].
    - split; [apply elem_of_all; exists w; rewrite HX; cbn; set_solver|].
      apply (all_l_nodup _ w) in Hnd. cbv beta in Hnd. rewrite HX in Hnd. cbn in Hnd.
      apply NoDup_cons in Hnd as [Hnd _]. intros ->. done.
    - split; [apply elem_of_all; by exists w2|]. intros ->.
      apply (all_l_disj _ w w2 (sa x) Hnd); [done| |done]. rewrite HX. cbn. set_solver. }
  assert (good (sa x :: all_l L1)) as Hg.
  { pose proof (ck_good _ _ Hok) as Hg. rewrite all_l_fmap in Hg.
    intros a [->|Ha]%elem_of_cons; apply Hg; [|by apply Hin].
    apply list_elem_of_fmap. exists x. split; [done|]. apply (elem_all X w). rewrite HX. set_solver. }
  pose proof (chains_push _ _ _ w' (sa x) Hc1 Hg ltac:(intros Ha; by apply Hin in Ha as [_ ?])) as Hc2.
  rewrite HL1 in Hc2.
  destruct (cache_move s c X w w' [] x l _ _ Keep Hok HX Hne Hc2) as [Hok' Hf]; auto.
  - apply same_outside_stn. intros b Hb. exists (sa x). split; [rewrite HX; cbn; set_solver|lia].
  - unfold c1. by rewrite !set_head_size.
  - apply HQ; auto. unfold c1. by rewrite !set_head_lock.
Qed.

(** ** [kmem_cache_alloc] *)

Abbreviation lives X := (live size (all_l X)).

Lemma keeps_live (Keep : Z → Prop) X : (∀ o, Keep o → lives X o) → keeps Keep X.
Proof. intros HK o Ho. destruct (HK o Ho) as (y & j & Hy & Hj & _ & ->). eauto. Qed.

Lemma cache_ok_lock s c X b : cache_ok (s, c) X → cache_ok (s, set_c_lock b c) X.
Proof. intros [Hs Hsz Hc]. split; [done|done|]. intros w. specialize (Hc w). by destruct w. Qed.

Lemma live_update X w l1 x l2 fm' o :
  X w = l1 ++ x :: l2 →
  (lives (set_l w (l1 ++ set_fm x fm' :: l2) X) o ↔
     live size (set_fm x fm' :: all_l (set_l w (l1 ++ l2) X)) o) ∧
  (lives X o ↔ live size (x :: all_l (set_l w (l1 ++ l2) X)) o).
Proof. intros HX. split; [by rewrite all_l_ins|by rewrite (all_l_split X w l1 x l2 HX)]. Qed.

(** Allocating from the first slab of a list and looking at what is left of it. *)
Lemma alloc_head_spec s c X w x l (k : Z → Z → M cst Z) Q :
  cache_ok (s, c) X → X w = x :: l → 0 < nfree (cap size) (sfm x) →
  (∀ i s', let x' := set_fm x (Z.clearbit (sfm x) i) in
     let X' := set_l w (x' :: l) X in let r := obj_at size x i in
     r ≠ 0 → cache_ok (s', c) X' → frame (lives X) s X s' X' → ¬ lives X r →
     (∀ o, lives X' o ↔ lives X o ∨ o = r) →
     nfree (cap size) (sfm x') = nfree (cap size) (sfm x) - 1 →
     wp (k r (nfree (cap size) (sfm x'))) Q (s', c)) →
  wp (m ← slab_alloc (sa x) size; nr ← rd32 (sa x + S_NR_FREE); k m nr) Q (s, c).
Proof.
  intros Hok HX Hn HQ. rewrite wp_bind.
  assert (x ∈ all_l X) as Hin by (apply (elem_all X w); rewrite HX; left).
  pose proof (slabs_geom size _ _ _ (ck_slabs _ _ Hok) Hin) as Hg.
  apply slab_alloc_spec; auto; [by apply (ck_slabs _ _ Hok)|].
  intros i m' Hi Hb Hx' Hm. unfold rd32. wp_simpl.
  pose proof (all_l_split X w [] x l HX) as Hsplit. cbn in Hsplit.
  pose proof (ck_slabs _ _ Hok) as Hs. cbn in Hs. rewrite Hsplit in Hs.
  assert (¬ lives X (obj_at size x i)) as Hnl by (rewrite Hsplit; by apply (free_not_live size Hsize s)).
  destruct (cache_update s c X w [] x l i (Z.clearbit (sfm x) i) m' (lives X) Hok HX Hi Hx' Hm)
    as [Hok' Hf]; [by apply keeps_live|done|].
  pose proof Hx' as (_ & _ & Hnr & _). cbn [sa sfm set_fm] in Hnr. rewrite Hnr. apply (HQ i); auto.
  - pose proof (cap_range size Hsize). destruct Hg as (?&?&?&?&?).
    unfold obj_at, KERNBASE in *. nia.
  - intros o. destruct (live_update X w [] x l (Z.clearbit (sfm x) i) o HX) as [H1 H2].
    cbn in H1, H2. rewrite H1, H2. by apply live_clear.
  - by apply nfree_clear.
Qed.

Lemma classified_set X w l : classified X → (∀ x, x ∈ l → in_class w x) → classified (set_l w l X).
Proof.
  intros HX Hl w' x Hx. unfold set_l in Hx. destruct (decide (w' = w)) as [->|]; [auto|by apply HX].
Qed.

(** The outcome of an allocation. *)
Definition alloc_post (s : S) (X : lists) (r : Z) (t' : cst) : Prop :=
  ∃ X', cache_ok t' X' ∧ classified X' ∧ frame (lives X) s X t'.1 X' ∧
    ((r = 0 ∧ X Partial = [] ∧ X Empty = [] ∧ (∀ p q, pa_free s p → pa_free s q → p = q) ∧
      ∀ o, lives X' o ↔ lives X o) ∨
     (r ≠ 0 ∧ ¬ lives X r ∧ ∀ o, lives X' o ↔ lives X o ∨ o = r)).

Lemma alloc_partial s c X x l :
  cache_ok (s, c) X → classified X → X Partial = x :: l →
  wp (m ← slab_alloc (sa x) size;
      nr ← rd32 (sa x + S_NR_FREE);
      (if nr =? 0 then a ← pop Partial; push Full a else mret tt);;
      mret m) (λ r t', alloc_post s X r t' ∧ c_lock t'.2 = c_lock c) (s, c).
Proof.
  intros Hok Hcl HX. pose proof (Hcl Partial x ltac:(rewrite HX; left)) as Hx. cbn in Hx.
  apply (alloc_head_spec s c X Partial x l); auto; [lia|].
  intros i s' x' X' r Hr Hok' Hf Hnl Hl Hn. rewrite wp_bind.
  assert (keeps (lives X) X') as HK by (apply keeps_live; intros o ?; apply Hl; by left).
  destruct (Z.eqb_spec (nfree (cap size) (sfm x')) 0) as [Hz|Hz].
  - apply (move_first_spec s' c X' Partial Full x' l (lives X)); auto.
    intros s2 c2 Hok2 Hf2 Hlk. wp_simpl. split; [|done].
    eexists. split; [exact Hok2|]. split; [|split; [by eapply frame_trans|right]].
    + intros [] y Hy; unfold X', set_l in Hy; cbn in Hy.
      * apply (Hcl Partial). rewrite HX. by right.
      * apply elem_of_cons in Hy as [->|Hy]; [done|by apply (Hcl Full)].
      * by apply (Hcl Empty).
    + split_and!; [done..|]. intros o. rewrite all_l_move by done. rewrite <-Hl.
      by rewrite <-(all_l_split X' Partial [] x' l).
  - wp_simpl. split; [|done]. exists X'. split_and!; auto.
    intros [] y Hy; unfold X', set_l in Hy; cbn in Hy; [|by apply (Hcl Full)|by apply (Hcl Empty)].
    apply elem_of_cons in Hy as [->|Hy]; [|apply (Hcl Partial); rewrite HX; by right].
    cbn. pose proof (nfree_range (cap size) (sfm x')). cbn in Hn, Hz. lia.
Qed.

Lemma alloc_empty s c X x l :
  cache_ok (s, c) X → classified X → X Partial = [] → X Empty = x :: l →
  wp (m ← slab_alloc (sa x) size;
      nr ← rd32 (sa x + S_NR_FREE);
      (if nr =? 0 then a ← pop Empty; push Full a else a ← pop Empty; push Partial a);;
      mret m) (λ r t', alloc_post s X r t' ∧ c_lock t'.2 = c_lock c) (s, c).
Proof.
  intros Hok Hcl HP HX. pose proof (Hcl Empty x ltac:(rewrite HX; left)) as Hx. cbn in Hx.
  pose proof (cap_range size Hsize) as [Hcap _].
  apply (alloc_head_spec s c X Empty x l); auto; [lia|].
  intros i s' x' X' r Hr Hok' Hf Hnl Hl Hn. rewrite wp_bind.
  assert (keeps (lives X) X') as HK by (apply keeps_live; intros o ?; apply Hl; by left).
  destruct (Z.eqb_spec (nfree (cap size) (sfm x')) 0) as [Hz|Hz]; [lia|].
  apply (move_first_spec s' c X' Empty Partial x' l (lives X)); auto.
  intros s2 c2 Hok2 Hf2 Hlk. wp_simpl. split; [|done].
  eexists. split; [exact Hok2|]. split; [|split; [by eapply frame_trans|right]].
  - intros [] y Hy; unfold X', set_l in Hy; cbn in Hy.
    + rewrite HP in Hy. apply list_elem_of_singleton in Hy as ->. cbn in Hn. cbn. lia.
    + by apply (Hcl Full).
    + apply (Hcl Empty). rewrite HX. by right.
  - split_and!; [done..|]. intros o. rewrite all_l_move by done. rewrite <-Hl.
    by rewrite <-(all_l_split X' Empty [] x' l).
Qed.

(** A page taken from the page allocator while a cache is being worked on. *)
Lemma cache_kalloc s c X Keep Q :
  cache_ok (s, c) X → keeps Keep X →
  ((∀ p, ¬ pa_free s p) → Q 0 (s, c)) →
  (∀ p s', p ≠ 0 → pa_free s p → pa_managed p → p ∉ slab_pages (all_l X) → cache_ok (s', c) X →
     (∀ q, pa_free s' q ↔ pa_free s q ∧ q ≠ p) →
     same_outside (page_byte (pa_free s)) (pa_mem s) (pa_mem s') →
     (∀ o a, Keep o → o ≤ a < o + size → ldb (pa_mem s') a = ldb (pa_mem s) a) → Q p (s', c)) →
  wp (on_pages pa_kalloc) Q (s, c).
Proof.
  intros Hok HK HQ0 HQ. unfold on_pages. rewrite wp_lift. pose proof (ck_slabs _ _ Hok) as Hs.
  eapply wp_mono; [apply pa_kalloc_spec, Hs|]. cbn.
  intros r s' [Hpa' [(-> & Hno & ->)|(Hr & Hf & Hm)]]; [by apply HQ0|].
  assert (pa_managed r) as Hmr by (eapply pa_free_managed; [apply Hs|done]).
  destruct (pages_step s s' c X (pa_free s) Keep) as [Hok' Hk]; auto.
  - intros p Hp. split; [eapply pa_free_managed; [apply Hs|done]|].
    intros Hin. by apply (so_own _ _ _ Hs) in Hin as [_ ?].
  - intros p Hin [Hp _]%Hf. by apply (so_own _ _ _ Hs) in Hin as [_ ?].
  - apply HQ; auto.
    + apply pa_managed_page in Hmr. unfold KERNBASE in Hmr. lia.
    + intros Hin. by apply (so_own _ _ _ Hs) in Hin as [_ ?].
Qed.

(** Linking a slab whose two pages the cache did not have. *)
Lemma cache_add s c X x m w Keep :
  cache_ok (s, c) X → pa_managed (sa x) → pa_managed (sm x) → sa x ≠ sm x →
  ¬ pa_free s (sa x) → ¬ pa_free s (sm x) →
  sa x ∉ slab_pages (all_l X) → sm x ∉ slab_pages (all_l X) → slab_at size m x →
  same_outside (λ a, sa x ≤ a < sa x + 4096 ∨ sm x ≤ a < sm x + 4096) (pa_mem s) m →
  keeps Keep X →
  let m' := st64 m (sa x) (list_head w c) in
  cache_ok (pa_set_mem m' s, set_list_head w (sa x) c) (set_l w (x :: X w) X) ∧
  ∀ o a, Keep o → o ≤ a < o + size → ldb m' a = ldb (pa_mem s) a.
Proof.
  intros Hok Hma Hmp Hne Hfa Hfp Hna Hnp Hx Hm HK m'. pose proof Hok as [Hs Hsz Hc]. cbn in *.
  assert (same_outside (λ a, sa x ≤ a < sa x + 4096 ∨ sm x ≤ a < sm x + 4096) (pa_mem s) m') as Hm'.
  { eapply same_outside_trans; [exact Hm|]. apply same_outside_stn. lia. }
  assert (∀ p a, pa_managed p → p ≠ sa x → p ≠ sm x → p ≤ a < p + 4096 →
            ldb m' a = ldb (pa_mem s) a) as Hsame.
  { intros p a Hp Hpa Hpp Ha. apply Hm'. destruct (managed_apart p (sa x)), (managed_apart p (sm x));
      auto; lia. }
  assert (∀ p, p ∈ slab_pages (all_l X) → pa_managed p ∧ p ≠ sa x ∧ p ≠ sm x) as Hold.
  { intros p Hp. split; [by apply Hs|]. split; by intros ->. }
  assert (all_l (set_l w (x :: X w) X) ≡ₚ x :: all_l X) as Hperm.
  { pose proof (all_l_ins X w [] x (X w)) as Hp. cbn [app] in Hp. rewrite Hp.
    by unfold all_l, set_l; destruct w. }
  split; [split; cbn|].
  - rewrite Hperm. split.
    + apply pa_ok_set; [apply Hs|]. intros a (p & Hp & Ha). unfold PGSIZE in Ha.
      apply (Hsame p); [eapply pa_free_managed; [apply Hs|done]|by intros ->..|done].
    + unfold slab_pages. rewrite bind_cons. cbn. apply NoDup_cons. split; [set_solver|].
      apply NoDup_cons. split; [done|apply Hs].
    + intros p. unfold slab_pages. rewrite bind_cons, pa_free_set. cbn.
      intros [->|[->|Hp]%elem_of_cons]%elem_of_cons; [done..|by apply Hs].
    + intros y. rewrite pa_mem_set. intros [->|Hy]%elem_of_cons.
      * apply (slab_at_ext size m); [|done]. intros a Ha. apply ldb_stn_out. lia.
      * apply (slab_at_ext size (pa_mem s)); [|by apply Hs]. intros a Ha.
        destruct (Hold (sa y)) as (?&?&?); [apply elem_slab_pages; eauto|].
        apply (Hsame (sa y)); auto; lia.
  - by rewrite set_head_size.
  - rewrite pa_mem_set.
    assert (chains m c (λ w, sa <$> X w)) as Hcm.
    { apply (chains_ext (pa_mem s)); [|done]. intros a. rewrite all_l_fmap.
      intros (y & -> & Hy)%list_elem_of_fmap. apply ldn_ext. intros b Hb.
      destruct (Hold (sa y)) as (?&?&?); [apply elem_slab_pages; eauto|]. apply Hm.
      destruct (managed_apart (sa y) (sa x)), (managed_apart (sa y) (sm x)); auto; lia. }
    apply (chains_push _ _ _ w (sa x)) in Hcm.
    + intros w2. specialize (Hcm w2). unfold set_l in *. destruct (decide (w2 = w)); done.
    + intros a [->|Ha]%elem_of_cons; [|by apply (ck_good _ _ Hok)].
      apply pa_managed_page in Hma. unfold PHYSTOP, KERNBASE, PGSIZE in *. split; [lia|lia].
    + rewrite all_l_fmap. intros (y & Hy & Hin)%list_elem_of_fmap. apply Hna.
      apply elem_slab_pages. eauto.
  - intros o a Ho Ha. destruct (HK o Ho) as (y & j & Hy & Hj & ->).
    destruct (Hold (sm y)) as (?&?&?); [apply elem_slab_pages; eauto|].
    apply (Hsame (sm y)); auto. by apply (obj_in_page y j).
Qed.

(** The page given back when the second allocation fails. *)
Lemma cache_kfree s c X p Keep Q :
  cache_ok (s, c) X → pa_managed p → ¬ pa_free s p → p ∉ slab_pages (all_l X) → keeps Keep X →
  (∀ s', cache_ok (s', c) X → (∀ q, pa_free s' q ↔ pa_free s q ∨ q = p) →
     same_outside (page_byte (pa_free s')) (pa_mem s) (pa_mem s') →
     (∀ o a, Keep o → o ≤ a < o + size → ldb (pa_mem s') a = ldb (pa_mem s) a) → Q tt (s', c)) →
  wp (on_pages (pa_kfree p)) Q (s, c).
Proof.
  intros Hok Hmp Hfp Hnp HK HQ. unfold on_pages. rewrite wp_lift. pose proof (ck_slabs _ _ Hok) as Hs.
  eapply wp_mono; [apply pa_kfree_spec; [apply Hs|done..]|]. cbn. intros [] s' (Hpa & Hf & Hm).
  assert (∀ q, pa_free s' q → q ∉ slab_pages (all_l X)) as Hno.
  { intros q [Hq| ->]%Hf Hin; [|done]. by apply (so_own _ _ _ Hs) in Hin as [_ ?]. }
  destruct (pages_step s s' c X (pa_free s') Keep) as [Hok' Hk]; auto.
  - intros q Hq. split; [by eapply pa_free_managed|by apply Hno].
  - intros q Hin Hq. by apply (Hno q).
Qed.

(** A new slab in two pages just obtained, and an object from it. *)
Lemma alloc_fresh s c X a p :
  cache_ok (s, c) X → classified X → X Partial = [] → pa_managed a → pa_managed p → a ≠ p →
  ¬ pa_free s a → ¬ pa_free s p → a ∉ slab_pages (all_l X) → p ∉ slab_pages (all_l X) →
  wp (slab_init a p (cap size);;
      m ← slab_alloc a size;
      nr ← rd32 (a + S_NR_FREE);
      (if nr =? 0 then push Full a else push Partial a);;
      mret m)
    (λ r t', ∃ X' m', t'.1 = pa_set_mem m' s ∧ cache_ok t' X' ∧ classified X' ∧
       slab_pages (all_l X') ≡ₚ a :: p :: slab_pages (all_l X) ∧
       same_outside (λ b, a ≤ b < a + 4096 ∨ p ≤ b < p + 4096) (pa_mem s) m' ∧
       (∀ o b, lives X o → o ≤ b < o + size → ldb m' b = ldb (pa_mem s) b) ∧
       r ≠ 0 ∧ ¬ lives X r ∧ (∀ o, lives X' o ↔ lives X o ∨ o = r) ∧
       c_lock t'.2 = c_lock c) (s, c).
Proof.
  intros Hok Hcl HP Hma Hmp Hap Hfa Hfp Hna Hnp. pose proof (cap_range size Hsize) as [Hcap Hcs].
  destruct (pa_managed_page _ Hma) as (?&?&?), (pa_managed_page _ Hmp) as (?&?&?).
  unfold PGSIZE in *. rewrite wp_bind. apply (slab_init_spec size Hsize s c a p); auto; [lia|].
  intros m3 Hx3 Hm3. rewrite wp_bind. set (x0 := Slab a p (Z.ones (cap size))) in *.
  assert (slab_geom x0) as Hg0.
  { unfold slab_geom. cbn. pose proof (managed_apart a p Hma Hmp Hap). lia. }
  apply (slab_alloc_spec size Hsize _ c x0); auto; [by rewrite pa_mem_set|by cbn; rewrite nfree_ones; lia|].
  intros i m4 Hi Hb Hx4 Hm4. rewrite pa_set_set. rewrite pa_mem_set in Hm4. unfold rd32. wp_simpl.
  set (x1 := set_fm x0 (Z.clearbit (Z.ones (cap size)) i)) in *.
  assert (nfree (cap size) (sfm x1) = cap size - 1) as Hn1.
  { cbn. rewrite nfree_clear by done. rewrite nfree_ones; lia. }
  pose proof Hx4 as (_ & _ & Hnr & _). change (sa (set_fm x0 _)) with a in Hnr. rewrite Hnr.
  change (sfm (set_fm x0 _)) with (sfm x1). rewrite Hn1.
  replace (cap size - 1 =? 0) with false by lia. apply push_wp. wp_simpl.
  assert (same_outside (λ b, a ≤ b < a + 4096 ∨ p ≤ b < p + 4096) (pa_mem s) m4) as Hm.
  { eapply same_outside_trans; (eapply same_outside_weaken; [eassumption|]); intros b Hb'; [cbn in Hb'; lia|].
    destruct Hb' as [Hb'|Hb']; [off; left; cbn in Hb'; lia|right]. by apply (obj_in_page x0 i). }
  destruct (cache_add s c X x1 m4 Partial (lives X) Hok) as [Hok5 Hk5]; auto; [by apply keeps_live|].
  assert (all_l (set_l Partial (x1 :: X Partial) X) ≡ₚ x1 :: all_l X) as Hperm by by unfold all_l, set_l.
  assert (∀ o, live size [x1] o ↔ o = obj_at size x0 i) as Hl1.
  { intros o. etransitivity; [exact (live_clear size Hsize x0 [] i o Hi)|].
    rewrite live_cons. split; [|by right].
    intros [[(j & Hj & Hbj & _)|(y & _ & Hy & _)]|?]; [|by apply not_elem_of_nil in Hy|done].
    cbn in Hbj. by rewrite Z.ones_spec_low in Hbj by lia.
  }
  eexists _, _. split; [done|]. split; [exact Hok5|]. split.
  { apply classified_set; [done|]. rewrite HP. intros y ->%list_elem_of_singleton. cbn in *. lia. }
  split; [by rewrite Hperm|]. split.
  { eapply same_outside_trans; [exact Hm|]. apply same_outside_stn. cbn. lia. }
  split; [exact Hk5|]. split; [|split; [|split; [|by rewrite set_head_lock]]].
  - unfold obj_at. cbn. unfold KERNBASE in *. nia.
  - intros (y & j & Hy & Hj & _ & Heq). pose proof (cap_range size Hsize).
    assert (pa_managed (sm y) ∧ sm y ∈ slab_pages (all_l X)) as [Hmy Hiny] by by apply (sm_page (s, c)).
    destruct (managed_apart p (sm y)) as [?|?]; auto; [by intros ->|..]; unfold obj_at in Heq; cbn in Heq; nia.
  - intros o. rewrite Hperm, live_cons. rewrite <-(Hl1 o), live_cons.
    split; [intros [?|?]; tauto|]. intros [?|[?|(y & _ & Hy & _)]]; [tauto..|by apply not_elem_of_nil in Hy].
Qed.

Lemma alloc_new s c X :
  cache_ok (s, c) X → classified X → X Partial = [] → X Empty = [] →
  wp (a ← on_pages pa_kalloc;
      if a =? 0 then mret 0 else
      objs ← on_pages pa_kalloc;
      if objs =? 0 then on_pages (pa_kfree a);; mret 0 else
      slab_init a objs (cap size);;
      m ← slab_alloc a size;
      nr ← rd32 (a + S_NR_FREE);
      (if nr =? 0 then push Full a else push Partial a);;
      mret m) (λ r t', alloc_post s X r t' ∧ c_lock t'.2 = c_lock c) (s, c).
Proof.
  intros Hok Hcl HP HE.
  assert (keeps (lives X) X) as HK by by apply keeps_live. rewrite wp_bind.
  apply (cache_kalloc s c X (lives X)); auto.
  { intros Hno. wp_simpl. split; [|done]. exists X. split_and!; auto using frame_refl.
    left. split_and!; auto. intros p q Hp. by apply Hno in Hp. }
  intros a s1 Ha Hfa Hma Hna Hok1 Hf1 Hm1 Hk1. replace (a =? 0) with false by lia. rewrite wp_bind.
  assert (∀ b, page_byte (pa_free s) b → page_byte (pool_page s X) b) as Hin.
  { intros b (q & Hq & Hb). exists q. by split; [left|]. }
  apply (cache_kalloc s1 c X (lives X)); auto.
  { intros Hno. rewrite Z.eqb_refl, wp_bind. apply (cache_kfree s1 c X a (lives X)); auto.
    intros s2 Hok2 Hf2 Hm2 Hk2. wp_simpl. split; [|done].
    assert (∀ q, pa_free s2 q ↔ pa_free s q) as Hf.
    { intros q. rewrite Hf2, Hf1. destruct (decide (q = a)) as [->|]; tauto. }
    exists X. split_and!; auto.
    - split; [by intros p; unfold pool_page; rewrite Hf| |].
      + eapply same_outside_weaken; [eapply same_outside_trans; [exact Hm1|]|exact Hin].
        eapply same_outside_weaken; [exact Hm2|]. intros b (q & Hq & Hb). exists q. by rewrite <-Hf.
      + intros o b Ho Hb. by rewrite (Hk2 o), (Hk1 o).
    - left. split_and!; auto. intros p q Hp Hq. specialize (Hf1 p) as Hp1. specialize (Hf1 q) as Hq1.
      destruct (decide (p = a)), (decide (q = a)); naive_solver. }
  intros p s2 Hp Hfp Hmp Hnp Hok2 Hf2 Hm2 Hk2. replace (p =? 0) with false by lia.
  pose proof Hfp as [Hfps Hap]%Hf1.
  eapply wp_mono; [apply (alloc_fresh s2 c X a p); auto; [rewrite Hf2, Hf1; tauto|rewrite Hf2; tauto]|].
  cbn. intros r t' (X' & m' & Ht' & Hok' & Hcl' & Hpg & Hm & Hk & Hr & Hnl & Hl & Hlk). split; [|done].
  exists X'. split_and!; auto. rewrite Ht'. split.
  - intros q. unfold pool_page. rewrite pa_free_set, Hpg, !elem_of_cons, Hf2, Hf1.
    destruct (decide (q = a)) as [->|]; [tauto|]. destruct (decide (q = p)) as [->|]; tauto.
  - rewrite pa_mem_set. eapply same_outside_trans; [eapply same_outside_weaken; [exact Hm1|exact Hin]|].
    eapply same_outside_trans; (eapply same_outside_weaken; [eassumption|]).
    + intros b (q & Hq & Hb). apply Hin. exists q. by apply Hf1 in Hq as [? _].
    + intros b [Hb|Hb]; apply Hin; [exists a|exists p]; done.
  - intros o b Ho Hb. by rewrite pa_mem_set, (Hk o), (Hk2 o), (Hk1 o).
Qed.

Lemma kmem_cache_alloc_spec s c X :
  cache_inv (s, c) X →
  wp kmem_cache_alloc (λ r t', alloc_post s X r t' ∧ c_lock t'.2 = false) (s, c).
Proof.
  intros [Hok Hcl Hlk]. pose proof (cache_ok_lock s c X true Hok) as Hok1.
  unfold kmem_cache_alloc, acquire_c, release_c, get_head. wp_simpl. cbn [list_head].
  set (c1 := set_c_lock true c) in *. change (c_partial c) with (c_partial c1).
  change (c_empty c) with (c_empty c1). change (obj_size c) with (obj_size c1).
  rewrite (ck_size _ _ Hok1 : obj_size c1 = size). fold (cap size).
  assert (∀ m : M cst Z,
    wp m (λ r t', alloc_post s X r t' ∧ c_lock t'.2 = true) (s, c1) →
    wp m (λ r t', wp (release (λ t, c_lock t.2) (λ b t, (t.1, set_c_lock b t.2));; mret r)
      (λ r t', alloc_post s X r t' ∧ c_lock t'.2 = false) t') (s, c1))
    as Hrel.
  { intros m Hm. eapply wp_mono; [exact Hm|]. intros r [s' c'] [(X' & Hok' & Hp) Hlk']. wp_simpl.
    split; [|done]. exists X'. split; [by apply cache_ok_lock|done]. }
  pose proof (ck_chains _ _ Hok1 Partial) as HcP. pose proof (ck_chains _ _ Hok1 Empty) as HcE.
  cbn [list_head fst snd] in HcP, HcE.
  destruct (X Partial) as [|x l] eqn:HP.
  - rewrite (HcP : c_partial c1 = 0). cbn [Z.eqb negb]. destruct (X Empty) as [|x l] eqn:HE.
    + rewrite (HcE : c_empty c1 = 0). cbn [Z.eqb negb]. apply Hrel. by apply alloc_new.
    + destruct HcE as (HcE & Hz & _). rewrite (HcE : c_empty c1 = sa x). replace (sa x =? 0) with false by lia. cbn [negb].
      apply Hrel. by apply (alloc_empty s c1 X x l).
  - destruct HcP as (HcP & Hz & _). rewrite (HcP : c_partial c1 = sa x). replace (sa x =? 0) with false by lia. cbn [negb].
    apply Hrel. by apply (alloc_partial s c1 X x l).
Qed.
End Spec.
