(* ===== verification/SlabFree.v ===== *)
(** * Freeing an object

    [kmem_cache_free]: the search for the slab, the move between the lists and
    the release of empty slabs beyond the second. *)

From S2P Require Import Prelude Mem Kstring Layout PageAlloc Slab SlabCorrect SlabCache SlabSpec.

Section Free.
Context {S : Type} `{PS : PageAllocSpec S}.
Context (size : Z) (Hsize : 64 ≤ size ≤ 2048).

#[local] Abbreviation lists := (which → list slab).
#[local] Abbreviation lives X := (live size (all_l X)).
Implicit Types (s : S) (c : kmem_cache) (X : lists) (w : which).

(** [obj] lies in the objects of slab [x]. *)
Definition in_slab (obj : Z) (x : slab) : Prop := sm x ≤ obj < sm x + cap size * size.

Lemma find_loop_wp s c obj l n h Q :
  chain (pa_mem s) h (sa <$> l) → (∀ x, x ∈ l → slab_at size (pa_mem s) x ∧ slab_geom x) →
  (length l < n)%nat →
  ((∀ x, x ∈ l → ¬ in_slab obj x) → Q 0 (s, c)) →
  (∀ x, x ∈ l → in_slab obj x → Q (sa x) (s, c)) →
  wp (loop n (find_step size obj) h) Q (s, c).
Proof.
  revert n h. induction l as [|x l IH]; intros n h Hc Hl Hn HQ0 HQ;
    (destruct n as [|n]; [cbn in Hn; lia|]); apply wp_loop_S; unfold find_step.
  - rewrite (Hc : h = 0). rewrite Z.eqb_refl. wp_simpl. apply HQ0. set_solver.
  - destruct Hc as (-> & Hz & Hc). replace (sa x =? 0) with false by lia.
    destruct (Hl x ltac:(left)) as [(H1 & H2 & _) (?&?&?&?&?)].
    pose proof (cap_range size Hsize) as [Hcap Hcs].
    unfold rd64, rd32. wp_simpl. rewrite H1, H2. unfold PHYSTOP, KERNBASE in *.
    rewrite u32_small, u64_small by nia.
    assert ((obj >=? sm x) && (obj <? sm x + cap size * size) = bool_decide (in_slab obj x)) as ->.
    { unfold in_slab. case_bool_decide; lia. }
    case_bool_decide as Hin; wp_simpl; [by apply HQ; [left|]|]. off. rewrite Z.add_0_r.
    apply IH; [done| |cbn in Hn; lia| |].
    + intros y Hy. apply Hl. by right.
    + intros Hno. apply HQ0. intros y [->|Hy]%elem_of_cons; auto.
    + intros y Hy. apply HQ. by right.
Qed.

Lemma find_slab_spec s c X w obj Q :
  cache_ok size (s, c) X →
  ((∀ x, x ∈ X w → ¬ in_slab obj x) → Q 0 (s, c)) →
  (∀ x, x ∈ X w → in_slab obj x → Q (sa x) (s, c)) →
  wp (find_slab w size obj) Q (s, c).
Proof.
  intros Hok HQ0 HQ. unfold find_slab, get_head. wp_simpl.
  apply (find_loop_wp s c obj (X w)); auto; [apply (ck_chains _ _ _ Hok)| |by eapply ck_len].
  intros x Hx%elem_all. split; [by apply (ck_slabs _ _ _ Hok)|].
  eapply slabs_geom; [apply (ck_slabs _ _ _ Hok)|done].
Qed.

Lemma obj_in_slab x i : 0 ≤ i < cap size → in_slab (obj_at size x i) x.
Proof. intros Hi. unfold in_slab, obj_at. nia. Qed.

(** The slab found is the slab of the object. *)
Lemma in_slab_unique s c X x y i :
  cache_ok size (s, c) X → x ∈ all_l X → y ∈ all_l X → 0 ≤ i < cap size →
  in_slab (obj_at size x i) y → y = x.
Proof.
  intros Hok Hx Hy Hi Hin. destruct (decide (y = x)) as [|Hne]; [done|].
  pose proof (slab_pair size (s, c) X y x (sm y) (sm x) Hok Hy Hx Hne ltac:(auto) ltac:(auto)).
  pose proof (cap_range size Hsize). unfold in_slab, obj_at in *. nia.
Qed.

(** ** Changes to [next] fields *)

(** Relinking: the slabs [D] leave the lists. *)
Lemma cache_next s c X X' D m' Keep :
  cache_ok size (s, c) X → same_outside (next_byte (sa <$> all_l X)) (pa_mem s) m' →
  chains m' c (λ w, sa <$> X' w) → all_l X ≡ₚ D ++ all_l X' → keeps size Keep X →
  cache_ok size (pa_set_mem m' s, c) X' ∧
  ∀ o a, Keep o → o ≤ a < o + size → ldb m' a = ldb (pa_mem s) a.
Proof.
  intros Hok Hm Hc Hp HK. pose proof Hok as [Hs Hsz _]. cbn in *. split; [split; cbn|].
  - apply (slabs_next size s _ m') in Hs; [|done]. rewrite Hp in Hs. destruct Hs as [H1 H2 H3 H4].
    unfold slab_pages in *. rewrite bind_app in *. split; [done|by apply NoDup_app in H2 as (_ & _ & ?)| |].
    + intros p Hin. apply H3. set_solver.
    + intros x Hin. apply H4. set_solver.
  - done.
  - by rewrite pa_mem_set.
  - intros o a Ho Ha. apply Hm. intros (b & (z & -> & Hz)%list_elem_of_fmap & Hb).
    destruct (HK o Ho) as (y & j & Hy & Hj & ->). pose proof (obj_in_page size Hsize y j a Hj Ha).
    pose proof (sa_sm_apart size _ _ _ _ Hok Hz Hy). lia.
Qed.

Lemma next_pool s X a : next_byte (sa <$> all_l X) a → page_byte (pool_page s X) a.
Proof.
  intros (b & (z & -> & Hz)%list_elem_of_fmap & Hb). apply pa_free_byte. exists z. split; [done|lia].
Qed.

(** Rewriting the tail of list [w] after node [y]. *)
Lemma chains_retail s c X w l1 y l2 l2' v :
  cache_ok size (s, c) X → X w = l1 ++ y :: l2 → (∀ x, x ∈ l2' → x ∈ l2) →
  chain (pa_mem s) v (sa <$> l2') → 0 ≤ v < 18446744073709551616 →
  chains (st64 (pa_mem s) (sa y) v) c (λ w', sa <$> set_l w (l1 ++ y :: l2') X w').
Proof.
  intros Hok HX Hsub Hc' Hv w'. pose proof (ck_chains _ _ _ Hok w') as Hc. cbn in Hc.
  pose proof (ck_nodup _ _ _ Hok) as Hnd. pose proof (ck_good _ _ _ Hok) as Hg.
  assert (y ∈ X w) as Hy by (rewrite HX; set_solver).
  unfold set_l. destruct (decide (w' = w)) as [->|Hne].
  - rewrite HX in Hc. rewrite !fmap_app in *. cbn in Hc |- *.
    apply (all_l_nodup _ w) in Hnd. cbv beta in Hnd. rewrite HX, fmap_app in Hnd. cbn in Hnd.
    apply (chain_splice _ _ _ _ (sa <$> l2)); auto.
    + intros b Hb. apply Hg, elem_of_all. exists w. rewrite HX, fmap_app. cbn. set_solver.
    + apply NoDup_app in Hnd as (_ & _ & [Hn _]%NoDup_cons). intros Hin. apply Hn. set_solver.
  - apply (chain_ext (pa_mem s)); [|done]. intros b Hb. apply ldn_stn_ne.
    apply sep_aligned; [apply Hg, elem_of_all; exists w; set_solver|apply Hg, elem_of_all; eauto|].
    intros <-. apply (all_l_disj _ w' w (sa y) Hnd); [by intros ->|done|]. set_solver.
Qed.

Lemma next_write s X y v :
  y ∈ all_l X → same_outside (next_byte (sa <$> all_l X)) (pa_mem s) (st64 (pa_mem s) (sa y) v).
Proof.
  intros Hy. apply same_outside_stn. intros b Hb. exists (sa y). split; [|lia].
  apply list_elem_of_fmap. eauto.
Qed.

Lemma trim_stop_wp s c k a Q :
  a ≠ 0 → ld64 (pa_mem s) a = 0 → Q (inr a) (s, c) → wp (trim_step (k, a)) Q (s, c).
Proof.
  intros Ha Hn HQ. unfold trim_step, rd64. replace (a =? 0) with false by lia. wp_simpl. off.
  rewrite Z.add_0_r, Hn, Z.eqb_refl. by wp_simpl.
Qed.

Lemma trim_skip_wp s c a b Q :
  a ≠ 0 → ld64 (pa_mem s) a = b → b ≠ 0 → Q (inl (1, b)) (s, c) → wp (trim_step (0, a)) Q (s, c).
Proof.
  intros Ha Hn Hb HQ. unfold trim_step, rd64. replace (a =? 0) with false by lia. wp_simpl. off.
  rewrite Z.add_0_r, Hn. replace (b =? 0) with false by lia. change (0 >=? 1) with false. cbv iota.
  wp_simpl. by rewrite Hn.
Qed.

(** One turn of the loop on the third empty slab. *)
Lemma trim_drop s c X e1 e2 f rest Keep Q :
  let X1 := set_l Empty (e1 :: e2 :: rest) X in
  cache_ok size (s, c) X → X Empty = e1 :: e2 :: f :: rest → keeps size Keep X1 →
  (∀ s', cache_ok size (s', c) X1 → frame size Keep s X s' X1 → Q (inl (1, sa e2)) (s', c)) →
  wp (trim_step (1, sa e2)) Q (s, c).
Proof.
  intros X1 Hok HX HK HQ. pose proof (ck_chains _ _ _ Hok Empty) as Hc. cbn [list_head fst snd] in Hc.
  rewrite HX in Hc. destruct Hc as (_ & _ & _ & He2 & Hnf & Hf & Hrest).
  assert (all_l X ≡ₚ [f] ++ all_l X1) as Hperm by apply (all_l_split X Empty [e1; e2] f rest HX).
  assert (f ∈ all_l X ∧ e2 ∈ all_l X) as [Hinf Hine].
  { split; apply (elem_all X Empty); rewrite HX; set_solver. }
  assert (keeps size Keep X) as HK0.
  { intros o Ho. destruct (HK o Ho) as (y & j & Hy & ?). exists y, j. rewrite Hperm. set_solver. }
  unfold trim_step. replace (sa e2 =? 0) with false by lia. unfold rd64, wr64, wr_mem. wp_simpl. off.
  rewrite !Z.add_0_r, Hnf. replace (sa f =? 0) with false by lia. change (1 >=? 1) with true. cbv iota. wp_simpl.
  rewrite !Z.add_0_r, Hnf.
  pose proof (ck_slabs _ _ _ Hok) as Hs. cbn in Hs.
  assert (ld64 (pa_mem s) (sa f + 8) = sm f) as Hmf by (by apply Hs in Hinf as [? _]).
  set (m1 := st64 (pa_mem s) (sa e2) (ld64 (pa_mem s) (sa f))).
  destruct (cache_next s c X X1 [f] m1 Keep Hok) as [Hok1 Hk1]; auto.
  { by apply next_write. }
  { apply (chains_retail s c X Empty [e1] e2 (f :: rest) rest); auto; [set_solver|apply ld64_range]. }
  assert (ld64 m1 (sa f + 8) = sm f) as ->.
  { unfold m1. rewrite ldn_stn_ne; [done|]. pose proof (slab_pair size (s, c) X f e2 (sa f) (sa e2)) as Hp.
    destruct (decide (f = e2)) as [->|Hne]; [lia|]. destruct (Hp Hok Hinf Hine Hne); auto; lia. }
  assert (NoDup (sa f :: sm f :: slab_pages (all_l X1))) as Hnd.
  { pose proof (so_nodup _ _ _ Hs) as Hnd. by rewrite Hperm in Hnd. }
  apply NoDup_cons in Hnd as [Hn1 Hnd]. apply NoDup_cons in Hnd as [Hn2 _].
  destruct (so_own _ _ _ Hs (sa f)) as [Hma Hfa]; [apply elem_slab_pages; eauto|].
  destruct (so_own _ _ _ Hs (sm f)) as [Hmm Hfm]; [apply elem_slab_pages; eauto|].
  apply (cache_kfree size Hsize (pa_set_mem m1 s) c X1 (sm f) Keep); auto; [by rewrite pa_free_set|].
  intros s2 Hok2 Hf2 Hm2 Hk2. wp_simpl.
  assert (sa f ≠ sm f ∧ sa f ∉ slab_pages (all_l X1)) as [Hne Hn1']
    by (apply not_elem_of_cons in Hn1; exact Hn1).
  apply (cache_kfree size Hsize s2 c X1 (sa f) Keep); [done|done| |done|done|].
  { rewrite Hf2, pa_free_set. tauto. }
  intros s3 Hok3 Hf3 Hm3 Hk3. wp_simpl. apply HQ; [done|].
  rewrite pa_mem_set in Hm2, Hk2. setoid_rewrite pa_free_set in Hf2.
  assert (∀ q, pa_free s3 q ↔ pa_free s q ∨ q = sm f ∨ q = sa f) as Hf3'.
  { intros q. rewrite Hf3, Hf2. tauto. }
  assert (∀ q, pool_page s3 X1 q ↔ pool_page s X q) as Hpool.
  { intros q. unfold pool_page. rewrite Hf3', Hperm. change (slab_pages ([f] ++ all_l X1))
      with (sa f :: sm f :: slab_pages (all_l X1)). rewrite !elem_of_cons. tauto. }
  split; [done| |by intros o a Ho Ha; rewrite (Hk3 o), (Hk2 o), (Hk1 o)].
  assert (∀ b, page_byte (pa_free s3) b → page_byte (pool_page s X) b) as Hin.
  { intros b (q & Hq & Hb). exists q. split; [|done]. apply Hpool. by left. }
  eapply same_outside_trans; [eapply same_outside_weaken; [by apply next_write|apply next_pool]|].
  eapply same_outside_trans; (eapply same_outside_weaken; [eassumption|]); [|done].
  intros b (q & Hq & Hb). apply Hin. exists q. split; [|done]. apply Hf3. by left.
Qed.

(** The empty slabs beyond the second are given back. *)
Lemma trim_loop_wp s c X e1 e2 rest Keep n Q :
  cache_ok size (s, c) X → X Empty = e1 :: e2 :: rest → (length rest < n)%nat →
  keeps size Keep (set_l Empty [e1; e2] X) →
  (∀ s' X', cache_ok size (s', c) X' → frame size Keep s X s' X' → X' Empty = [e1; e2] →
     X' Partial = X Partial → X' Full = X Full → Q (sa e2) (s', c)) →
  wp (loop n trim_step (1, sa e2)) Q (s, c).
Proof.
  revert s X n. induction rest as [|f rest IH]; intros s X n Hok HX Hn HK HQ;
    (destruct n as [|n]; [cbn in Hn; lia|]); apply wp_loop_S.
  - pose proof (ck_chains _ _ _ Hok Empty) as Hc. cbn [list_head fst snd] in Hc.
    rewrite HX in Hc. destruct Hc as (_ & _ & _ & He2 & Hz).
    apply trim_stop_wp; [done..|]. apply (HQ s X); auto using frame_refl.
  - apply (trim_drop s c X e1 e2 f rest Keep); auto.
    + intros o Ho. destruct (HK o Ho) as (y & j & Hy & ?). exists y, j. split; [|done].
      unfold all_l, set_l in *. cbn in *. set_solver.
    + intros s' Hok' Hf. eapply IH; [exact Hok'|done|cbn in Hn; lia|done|].
      intros s2 X2 Hok2 Hf2 HE HP HF. apply (HQ s2 X2); auto. by eapply frame_trans.
Qed.

(** [pp->next = 0] on the last empty slab. *)
Lemma zero_last s c X l e Keep :
  cache_ok size (s, c) X → X Empty = l ++ [e] → keeps size Keep X →
  let s' := pa_set_mem (st64 (pa_mem s) (sa e) 0) s in
  cache_ok size (s', c) X ∧ frame size Keep s X s' X.
Proof.
  intros Hok HX HK s'. assert (e ∈ all_l X) as He by (apply (elem_all X Empty); rewrite HX; set_solver).
  pose proof (next_write s X e 0 He) as Hm.
  assert (chains (st64 (pa_mem s) (sa e) 0) c (λ w, sa <$> X w)) as Hc.
  { pose proof (chains_retail s c X Empty l e [] [] 0 Hok HX ltac:(done) ltac:(done) ltac:(lia)) as Hc.
    intros w. specialize (Hc w). unfold set_l in Hc. destruct (decide (w = Empty)) as [->|]; [|done].
    by rewrite HX. }
  destruct (cache_next s c X X [] _ Keep Hok Hm Hc) as [Hok' Hk]; [done..|].
  split; [done|]. split.
  - intros p. unfold pool_page, s'. by rewrite pa_free_set.
  - unfold s'. rewrite pa_mem_set. eapply same_outside_weaken; [exact Hm|apply next_pool].
  - unfold s'. by rewrite pa_mem_set.
Qed.

Lemma trim_empty_spec s c X Keep Q :
  cache_ok size (s, c) X → keeps size Keep (set_l Empty (take 2 (X Empty)) X) →
  (∀ s' X', cache_ok size (s', c) X' → frame size Keep s X s' X' → X' Empty = take 2 (X Empty) →
     X' Partial = X Partial → X' Full = X Full → Q tt (s', c)) →
  wp trim_empty Q (s, c).
Proof.
  intros Hok HK HQ. assert (keeps size Keep X) as HK0.
  { intros o Ho. destruct (HK o Ho) as (y & j & Hy & ?). exists y, j. split; [|done].
    unfold all_l, set_l in *. cbn in *. rewrite !elem_of_app in *.
    destruct Hy as [?|[?|Hy]]; auto. right; right.
    rewrite <-(take_drop 2 (X Empty)). apply elem_of_app. by left. }
  pose proof (ck_chains _ _ _ Hok Empty) as Hc. cbn [list_head fst snd] in Hc.
  unfold trim_empty, get_head. wp_simpl. cbn [list_head].
  assert (list_bound = Datatypes.S (pred list_bound)) as Hlb.
  { pose proof (ck_len _ _ _ Empty Hok). lia. }
  replace (2 * list_bound)%nat with (Datatypes.S (2 * list_bound - 1)) by lia.
  destruct (X Empty) as [|e1 [|e2 rest]] eqn:HX.
  - rewrite (Hc : c_empty c = 0). apply wp_loop_S. unfold trim_step. wp_simpl.
    apply (HQ s X); auto using frame_refl.
  - destruct Hc as (-> & He & Hn). apply wp_loop_S, trim_stop_wp; [done..|].
    replace (sa e1 =? 0) with false by lia. unfold wr64, wr_mem. wp_simpl. off. rewrite Z.add_0_r.
    destruct (zero_last s c X [] e1 Keep Hok HX HK0) as [Hok' Hf]. by apply (HQ _ X).
  - destruct Hc as (-> & He1 & Hn & He2 & _). apply wp_loop_S, (trim_skip_wp _ _ _ (sa e2)); [done..|].
    apply (trim_loop_wp s c X e1 e2 rest Keep); auto.
    { pose proof (ck_len _ _ _ Empty Hok) as Hl. rewrite HX in Hl. cbn in Hl. lia. }
    intros s' X' Hok' Hf HE HP HF. replace (sa e2 =? 0) with false by lia.
    unfold wr64, wr_mem. wp_simpl. off. rewrite Z.add_0_r.
    destruct (zero_last s' c X' [e1] e2 Keep Hok' HE) as [Hok2 Hf2].
    { intros o Ho. destruct (HK o Ho) as (y & j & Hy & ?). exists y, j. split; [|done].
      unfold all_l, set_l in *. cbn in Hy. by rewrite HE, HP, HF. }
    apply (HQ _ X'); auto. by eapply frame_trans.
Qed.

(** ** [kmem_cache_free] *)

(** What is kept when [obj] is freed. *)
Definition others (X : lists) (obj o : Z) : Prop := lives X o ∧ o ≠ obj.

Lemma free_slab_spec s c X w l1 x l2 i (k : Z → Z → M cst Z) Q :
  let obj := obj_at size x i in
  cache_ok size (s, c) X → X w = l1 ++ x :: l2 → 0 ≤ i < cap size → Z.testbit (sfm x) i = false →
  (∀ s', let x' := set_fm x (Z.setbit (sfm x) i) in let X' := set_l w (l1 ++ x' :: l2) X in
     cache_ok size (s', c) X' → frame size (others X obj) s X s' X' →
     (∀ o, lives X' o ↔ others X obj o) →
     nfree (cap size) (sfm x') = nfree (cap size) (sfm x) + 1 →
     wp (k (nfree (cap size) (sfm x')) (cap size)) Q (s', c)) →
  wp (slab_free (sa x) obj size;; nr ← rd32 (sa x + S_NR_FREE); cp ← rd32 (sa x + S_CAPACITY); k nr cp)
    Q (s, c).
Proof.
  intros obj Hok HX Hi Hb HQ. rewrite wp_bind.
  assert (x ∈ all_l X) as Hin by (apply (elem_all X w); rewrite HX; set_solver).
  pose proof (ck_slabs _ _ _ Hok) as Hs. pose proof (slabs_geom size _ _ _ Hs Hin) as Hg.
  apply slab_free_spec; auto; [by apply Hs|]. intros m' Hx' Hm. unfold rd32. wp_simpl.
  pose proof Hx' as (_ & Hcp & Hnr & _). change (sa (set_fm x _)) with (sa x) in Hcp, Hnr.
  rewrite Hcp, Hnr.
  destruct (cache_update size Hsize s c X w l1 x l2 i (Z.setbit (sfm x) i) m' (others X obj)
    Hok HX Hi Hx' Hm) as [Hok' Hf]; [apply keeps_live; by intros o [? _]|by intros [_ ?]|].
  apply HQ; auto.
  - intros o. destruct (live_update size X w l1 x l2 (Z.setbit (sfm x) i) o HX) as [H1 H2].
    unfold others. rewrite H1, H2. cbn in Hs. rewrite (all_l_split X w l1 x l2 HX) in Hs.
    by apply (live_set size Hsize s).
  - by apply nfree_set.
Qed.

Lemma cache_move_slab s c X w w' l1 x l2 Keep Q :
  cache_ok size (s, c) X → X w = l1 ++ x :: l2 → w' ≠ w → keeps size Keep X →
  (∀ s' c', let X' := set_l w' (x :: X w') (set_l w (l1 ++ l2) X) in
     cache_ok size (s', c') X' → frame size Keep s X s' X' → c_lock c' = c_lock c → Q tt (s', c')) →
  wp (move_slab w w' (sa x)) Q (s, c).
Proof.
  intros Hok HX Hne HK HQ. pose proof (ck_chains _ _ _ Hok) as Hc. cbn in Hc.
  eapply (move_slab_spec s c w w' _ (sa <$> l1) (sa x) (sa <$> l2)); [exact Hc|by cbv beta; rewrite HX, fmap_app|done|..].
  - by apply (ck_nodup size (s, c)).
  - by apply (ck_good size (s, c)).
  - cbv beta. rewrite length_fmap. by apply (ck_len size (s, c)).
  - intros m' c' Hc' Hm Hsz Hlk.
    destruct (cache_move size Hsize s c X w w' l1 x l2 m' c' Keep Hok HX Hne Hc' Hm Hsz HK). auto.
Qed.

(** The outcome of a free. *)
Definition free_post (s : S) (X : lists) (obj : Z) (t' : cst) : Prop :=
  ∃ X', cache_ok size t' X' ∧ classified size X' ∧ frame size (others X obj) s X t'.1 X' ∧
    (∀ o, lives X' o ↔ lives X o ∧ o ≠ obj) ∧ (length (X' Empty) ≤ 2)%nat.

Lemma empty_not_live X x : classified size X → x ∈ X Empty → ∀ i, 0 ≤ i < cap size → Z.testbit (sfm x) i = true.
Proof. intros Hcl Hx i Hi. apply (nfree_all (cap size)); [|done]. exact (Hcl Empty x Hx). Qed.

Lemma trim_keeps_live X o : classified size X → lives X o → lives (set_l Empty (take 2 (X Empty)) X) o.
Proof.
  intros Hcl (x & j & Hx & Hj & Hb & ->). exists x, j. split_and!; [|lia..|done|done].
  unfold all_l, set_l in *. cbn. rewrite !elem_of_app in *. destruct Hx as [?|[?|Hx]]; auto.
  rewrite (empty_not_live X x Hcl Hx j Hj) in Hb. done.
Qed.

(** The end of a successful free: trimming and releasing the lock. *)
Lemma free_finish s0 X0 obj s c X :
  cache_ok size (s, c) X → classified size X → c_lock c = true →
  frame size (others X0 obj) s0 X0 s X → (∀ o, lives X o ↔ others X0 obj o) →
  wp (trim_empty;; release_c) (λ _ t', free_post s0 X0 obj t' ∧ c_lock t'.2 = false) (s, c).
Proof.
  intros Hok Hcl Hlk Hf Hl. rewrite wp_bind.
  apply (trim_empty_spec s c X (others X0 obj)); auto.
  { apply keeps_live. intros o Ho. apply trim_keeps_live; [done|]. by apply Hl. }
  intros s' X' Hok' Hf' HE HP HF. unfold release_c. wp_simpl. split; [|done].
  assert (∀ w x, x ∈ X' w → x ∈ X w) as Hsub.
  { intros [] x; rewrite ?HE, ?HP, ?HF; [done..|]. apply subseteq_take. }
  exists X'. split; [by apply cache_ok_lock|]. split; [by intros w x Hx; apply Hcl, Hsub|].
  split; [by eapply frame_trans|]. split.
  - intros o. change (lives X0 o ∧ o ≠ obj) with (others X0 obj o). rewrite <-Hl. split.
    + intros (x & j & [w Hx]%elem_of_all & ?). exists x, j. split; [|done]. apply (elem_all X w). auto.
    + intros (x & j & Hx & ?)%(trim_keeps_live X o Hcl). exists x, j. split; [|done].
      unfold all_l, set_l in *. cbn in Hx. by rewrite HE, HP, HF.
  - rewrite HE, length_take. lia.
Qed.

(** The cache between the free of the object and the trimming. *)
Definition freed_mid (s0 : S) (X0 : lists) (obj : Z) (t : cst) : Prop :=
  ∃ X, cache_ok size t X ∧ classified size X ∧ c_lock t.2 = true ∧
    frame size (others X0 obj) s0 X0 t.1 X ∧ (∀ o, lives X o ↔ others X0 obj o).

Lemma free_mid_intro s0 X0 obj s c X s' c' X' :
  frame size (others X0 obj) s0 X0 s X → (∀ o, lives X o ↔ others X0 obj o) →
  c_lock c = true → cache_ok size (s', c') X' → frame size (others X0 obj) s X s' X' →
  c_lock c' = c_lock c → all_l X' ≡ₚ all_l X → classified size X' → freed_mid s0 X0 obj (s', c').
Proof.
  intros Hf Hl Hlk Hok' Hf' Hlk' Hp Hcl. exists X'. split_and!; auto; [by cbn; rewrite Hlk'|..].
  - by eapply frame_trans.
  - intros o. by rewrite Hp.
Qed.

Lemma free_partial s c X l1 x l2 i :
  let obj := obj_at size x i in
  cache_ok size (s, c) X → classified size X → c_lock c = true →
  X Partial = l1 ++ x :: l2 → 0 ≤ i < cap size → Z.testbit (sfm x) i = false →
  wp (slab_free (sa x) obj size;;
      nr ← rd32 (sa x + S_NR_FREE);
      cp ← rd32 (sa x + S_CAPACITY);
      (if nr =? cp then move_slab Partial Empty (sa x) else mret tt);;
      mret (sa x)) (λ r t', r = sa x ∧ freed_mid s X obj t') (s, c).
Proof.
  intros obj Hok Hcl Hlk HX Hi Hb. pose proof (Hcl Partial x ltac:(rewrite HX; set_solver)) as Hx. cbn in Hx.
  apply (free_slab_spec s c X Partial l1 x l2 i (λ nr cp,
    (if nr =? cp then move_slab Partial Empty (sa x) else mret tt);; mret (sa x))); auto.
  intros s' x' X' Hok' Hf Hl Hn. rewrite wp_bind.
  assert (∀ y, y ∈ l1 ++ l2 → in_class size Partial y) as Hrest.
  { intros y Hy. apply Hcl. rewrite HX. set_solver. }
  destruct (Z.eqb_spec (nfree (cap size) (sfm x')) (cap size)) as [Hc|Hc].
  - change (sa x) with (sa x') at 1.
    apply (cache_move_slab s' c X' Partial Empty l1 x' l2 (others X obj)); auto.
    { apply keeps_live. intros o Ho. by apply Hl. }
    intros s2 c2 X2 Hok2 Hf2 Hlk2. wp_simpl. split; [done|].
    eapply free_mid_intro; [exact Hf|done|exact Hlk|exact Hok2|done|done|..].
    + unfold X2. rewrite all_l_move by done. by rewrite <-(all_l_split X' Partial l1 x' l2).
    + intros [] y Hy; unfold X2, X', set_l in Hy; cbn in Hy; [auto|by apply (Hcl Full)|].
      apply elem_of_cons in Hy as [->|Hy]; [exact Hc|by apply (Hcl Empty)].
  - wp_simpl. split; [done|]. exists X'. split_and!; auto.
    intros [] y Hy; unfold X', set_l in Hy; cbn in Hy; [|by apply (Hcl Full)|by apply (Hcl Empty)].
    apply elem_of_app in Hy as [Hy|[->|Hy]%elem_of_cons]; [apply Hrest; set_solver| |apply Hrest; set_solver].
    pose proof (nfree_range (cap size) (sfm x')). cbn in *. lia.
Qed.

Lemma free_full s c X l1 x l2 i :
  let obj := obj_at size x i in
  cache_ok size (s, c) X → classified size X → c_lock c = true →
  X Full = l1 ++ x :: l2 → 0 ≤ i < cap size → Z.testbit (sfm x) i = false →
  wp (slab_free (sa x) obj size;;
      nr ← rd32 (sa x + S_NR_FREE);
      cp ← rd32 (sa x + S_CAPACITY);
      (if nr =? 1 then move_slab Full Partial (sa x)
       else if nr =? cp then move_slab Full Empty (sa x) else mret tt);;
      mret (sa x)) (λ r t', r = sa x ∧ freed_mid s X obj t') (s, c).
Proof.
  intros obj Hok Hcl Hlk HX Hi Hb. pose proof (Hcl Full x ltac:(rewrite HX; set_solver)) as Hx. cbn in Hx.
  pose proof (cap_range size Hsize) as [Hcap _].
  apply (free_slab_spec s c X Full l1 x l2 i (λ nr cp,
    (if nr =? 1 then move_slab Full Partial (sa x)
     else if nr =? cp then move_slab Full Empty (sa x) else mret tt);; mret (sa x))); auto.
  intros s' x' X' Hok' Hf Hl Hn. rewrite wp_bind. rewrite Hx in Hn. rewrite Hn. cbn [Z.eqb Z.add Pos.eqb].
  change (sa x) with (sa x') at 1.
  apply (cache_move_slab s' c X' Full Partial l1 x' l2 (others X obj)); auto.
  { apply keeps_live. intros o Ho. by apply Hl. }
  intros s2 c2 X2 Hok2 Hf2 Hlk2. wp_simpl. split; [done|].
  eapply free_mid_intro; [exact Hf|done|exact Hlk|exact Hok2|done|done|..].
  - unfold X2. rewrite all_l_move by done. by rewrite <-(all_l_split X' Full l1 x' l2).
  - intros [] y Hy; unfold X2, X', set_l in Hy; cbn in Hy; [| |by apply (Hcl Empty)].
    + apply elem_of_cons in Hy as [->|Hy]; [cbn in *; lia|by apply (Hcl Partial)].
    + apply (Hcl Full). rewrite HX. set_solver.
Qed.

Lemma kmem_cache_free_spec s c X obj :
  cache_inv size (s, c) X → lives X obj →
  wp (kmem_cache_free obj) (λ _ t', free_post s X obj t' ∧ c_lock t'.2 = false) (s, c).
Proof.
  intros [Hok Hcl Hlk] (x & i & Hx & Hi & Hb & ->).
  pose proof (cache_ok_lock size s c X true Hok) as Hok1. set (c1 := set_c_lock true c) in *.
  assert (sa x ≠ 0) as Hnz.
  { pose proof (slabs_geom size _ _ _ (ck_slabs _ _ _ Hok) Hx) as (?&_). unfold KERNBASE in *. lia. }
  assert (∀ w, x ∉ X w → ∀ y, y ∈ X w → ¬ in_slab (obj_at size x i) y) as Hother.
  { intros w Hn y Hy Hin. apply Hn. rewrite <-(in_slab_unique s c1 X x y i Hok1 Hx); auto. by eapply elem_all. }
  assert (∀ w, x ∈ X w → ∀ y, y ∈ X w → in_slab (obj_at size x i) y → y = x) as Hsame.
  { intros w _ y Hy. apply (in_slab_unique s c1 X); auto. by eapply elem_all. }
  assert (∀ m : M cst Z, wp m (λ r t', r = sa x ∧ freed_mid s X (obj_at size x i) t') (s, c1) →
    wp m (λ r t', wp (if r =? 0 then release_c else trim_empty;; release_c)
      (λ _ t', free_post s X (obj_at size x i) t' ∧ c_lock t'.2 = false) t') (s, c1)) as Hend.
  { intros m Hm. eapply wp_mono; [exact Hm|]. intros r [s' c'] (-> & X' & Hok' & Hcl' & Hlk' & Hf & Hl).
    replace (sa x =? 0) with false by lia. by apply (free_finish s X _ s' c' X'). }
  unfold kmem_cache_free, acquire_c. wp_simpl. fold c1.
  change (obj_size c) with (obj_size c1). rewrite (ck_size _ _ _ Hok1 : obj_size c1 = size).
  apply elem_of_all in Hx as [[] Hx].
  - apply (find_slab_spec s c1 X Partial); auto.
    { intros Hno. by destruct (Hno x Hx); apply obj_in_slab. }
    intros y Hy Hin. rewrite (Hsame Partial Hx y Hy Hin). replace (sa x =? 0) with false by lia. cbn [negb].
    wp_step. apply Hend. apply list_elem_of_split in Hx as (l1 & l2 & HX).
    by apply (free_partial s c1 X l1 x l2 i).
  - assert (x ∉ X Partial) as Hnp.
    { intros Hp. pose proof (Hcl Partial x Hp) as H1. pose proof (Hcl Full x Hx) as H2. cbn in *. lia. }
    apply (find_slab_spec s c1 X Partial); auto.
    2: { intros y Hy Hin. by destruct (Hother Partial Hnp y Hy). }
    intros _. cbn [Z.eqb negb]. wp_step. apply Hend. rewrite wp_bind.
    apply (find_slab_spec s c1 X Full); auto.
    { intros Hno. by destruct (Hno x Hx); apply obj_in_slab. }
    intros y Hy Hin. rewrite (Hsame Full Hx y Hy Hin). replace (sa x =? 0) with false by lia. cbn [negb].
    apply list_elem_of_split in Hx as (l1 & l2 & HX). by apply (free_full s c1 X l1 x l2 i).
  - by rewrite (empty_not_live X x Hcl Hx i Hi) in Hb.
Qed.
End Free.
