(* ===== verification/SlabClient.v ===== *)
(** * [kmalloc] and [kmfree] and their clients

    The six caches together, and the safety of every client that frees only
    what it allocated. *)

From S2P Require Import Prelude Mem Kstring Layout PageAlloc Buddy Kalloc KallocCorrect KallocSpec.
From S2P Require Import Slab SlabCorrect SlabCache SlabSpec SlabFree.

(** Object size of cache [i]. *)
Definition sz (i : nat) : Z := 64 * 2 ^ Z.of_nat i.

Lemma sz_range i : (i < 6)%nat → 64 ≤ sz i ≤ 2048.
Proof. intros Hi. unfold sz. do 6 (destruct i as [|i]; [lia|]). lia. Qed.

Lemma assist_size_spec size :
  (assist_size size = 0 ∧ 2048 < size) ∨
  (∃ i, (i < 6)%nat ∧ assist_size size = sz i ∧ size ≤ sz i).
Proof.
  unfold assist_size.
  repeat (match goal with |- context [Z.leb ?a ?b] => destruct (Z.leb_spec a b) end;
    [right|]); [exists 0%nat|exists 1%nat|exists 2%nat|exists 3%nat|exists 4%nat|exists 5%nat|left];
    (try change (sz _) with (64 * 1)); (split; [lia|]); unfold sz; lia.
Qed.

Lemma sz_inj i j : (i < 6)%nat → (j < 6)%nat → sz i = sz j → i = j.
Proof. intros Hi Hj. unfold sz. do 6 (destruct i as [|i]; [do 6 (destruct j as [|j]; [lia|]); lia|]). lia. Qed.

(** Bytes set aside for the block [kmalloc] returns for [size]. *)
Definition block_size (size : Z) : Z := if assist_size size =? 0 then PGSIZE else assist_size size.

(** The sizes [kmalloc] can serve; see [kmalloc_oversize] for the others. *)
Definition servable (size : Z) : Prop := 0 ≤ size ≤ PGSIZE.

Lemma servable_fits size : servable size → size ≤ block_size size.
Proof.
  intros [_ Hs]. unfold block_size. destruct (assist_size_spec size) as [[-> _]|(i & Hi & -> & Hle)]; [done|].
  destruct (Z.eqb_spec (sz i) 0); [done|lia].
Qed.

Section Client.
Context {S : Type} `{PS : PageAllocSpec S}.

#[local] Abbreviation lists := (which → list slab).
#[local] Abbreviation pages X := (slab_pages (all_l X)).
Implicit Types (s : S) (cs : list kmem_cache) (G : nat → lists).

Record caches_inv (t : caches) (G : nat → lists) : Prop := {
  cv_len : length t.2 = 6%nat;
  cv_pa : pa_ok t.1;
  cv_cache : ∀ i c, t.2 !! i = Some c → cache_inv (sz i) (t.1, c) (G i);
  cv_disj : ∀ i j p, (i < 6)%nat → (j < 6)%nat → i ≠ j → p ∈ pages (G i) → p ∉ pages (G j)
}.

Lemma cache_at (t : caches) G i :
  caches_inv t G → (i < 6)%nat → ∃ c, t.2 !! i = Some c ∧ cache_inv (sz i) (t.1, c) (G i).
Proof.
  intros Hv Hi. destruct (lookup_lt_is_Some_2 t.2 i) as [c Hc]; [by rewrite (cv_len _ _ Hv)|].
  exists c. split; [done|]. by apply Hv.
Qed.

Lemma find_cache_wp (t : caches) G i Q :
  caches_inv t G → (i < 6)%nat → Q (Some i) t → wp (find_cache (sz i)) Q t.
Proof.
  intros Hv Hi HQ. unfold find_cache.
  eapply (wp_for_ret (λ l t', t' = t ∧ i ∉ l)); [by split; [|apply not_elem_of_nil]| |].
  - intros l j rest t' Hl [-> Hn]. wp_simpl.
    assert (j ∈ seq 0 6) as Hj%elem_of_seq by (rewrite Hl; set_solver).
    destruct (cache_at t G j Hv) as (c & Hc & Hok); [lia|]. rewrite Hc. change (default nocache (Some c)) with c.
    rewrite (ck_size _ _ _ (ci_ok _ _ _ Hok) : obj_size c = sz j).
    destruct (Z.eqb_spec (sz j) (sz i)) as [Heq|Hne].
    + apply sz_inj in Heq as ->; [done|lia..].
    + split; [done|]. intros [?| ->%list_elem_of_singleton]%elem_of_app; [done|]. done.
  - intros t' [-> Hn]. destruct Hn. apply elem_of_seq. lia.
Qed.

Definition set_g (i : nat) (X : lists) (G : nat → lists) : nat → lists :=
  λ j, if decide (j = i) then X else G j.

Lemma set_g_eq i X G : set_g i X G i = X.
Proof. unfold set_g. by rewrite decide_True. Qed.

Lemma set_g_ne i X G j : j ≠ i → set_g i X G j = G j.
Proof. intros Hne. unfold set_g. by rewrite decide_False. Qed.

Lemma pool_managed t G i p :
  caches_inv t G → (i < 6)%nat → pool_page t.1 (G i) p →
  pa_managed p ∧ ∀ j, (j < 6)%nat → j ≠ i → p ∉ pages (G j).
Proof.
  intros Hv Hi Hp. destruct (cache_at t G i Hv Hi) as (c & _ & Hok).
  pose proof (ck_slabs _ _ _ (ci_ok _ _ _ Hok)) as Hs. destruct Hp as [Hp|Hp].
  - split; [by eapply pa_free_managed; [apply Hv|]|]. intros j Hj Hne Hin.
    destruct (cache_at t G j Hv Hj) as (cj & _ & Hokj).
    destruct (so_own _ _ _ (ck_slabs _ _ _ (ci_ok _ _ _ Hokj)) p Hin) as [_ Hnf]. done.
  - split; [by apply (so_own _ _ _ Hs)|]. intros j Hj Hne. by apply (cv_disj _ _ Hv i).
Qed.

(** An operation on cache [i] leaves the other caches alone. *)
Lemma caches_step s cs G i s' c' X' Keep :
  caches_inv (s, cs) G → (i < 6)%nat → cache_inv (sz i) (s', c') X' →
  frame (sz i) Keep s (G i) s' X' →
  caches_inv (s', <[i := c']> cs) (set_g i X' G) ∧
  (∀ j o a, (j < 6)%nat → j ≠ i → live (sz j) (all_l (G j)) o → o ≤ a < o + sz j →
     ldb (pa_mem s') a = ldb (pa_mem s) a).
Proof.
  intros Hv Hi Hc' [Hpg Hm _]. pose proof (pool_managed (s, cs) G i) as Hpool. cbn in Hpool.
  assert (∀ j c, (j < 6)%nat → j ≠ i → cs !! j = Some c →
    cache_inv (sz j) (s', c) (G j) ∧ ∀ o a, live (sz j) (all_l (G j)) o → o ≤ a < o + sz j →
      ldb (pa_mem s') a = ldb (pa_mem s) a) as Hj.
  { intros j c Hj Hne Hc. pose proof (cv_cache _ _ Hv j c Hc) as [Hok Hcl Hlk]. cbn in Hok.
    destruct (pages_step (sz j) (sz_range j Hj) s s' c (G j) (pool_page s (G i))
      (live (sz j) (all_l (G j)))) as [Hok' Hk]; auto.
    - apply (ck_slabs _ _ _ (ci_ok _ _ _ Hc')).
    - intros p Hp. destruct (Hpool p Hv Hi Hp) as [? Hd]. auto.
    - intros p Hin Hf. apply (proj2 (Hpool p Hv Hi (proj1 (Hpg p) (or_introl Hf))) j); auto.
    - by apply keeps_live.
    - split; [by split|exact Hk]. }
  split.
  - split; cbn.
    + rewrite length_insert. apply Hv.
    + apply (ck_slabs _ _ _ (ci_ok _ _ _ Hc')).
    + intros j c. destruct (decide (j = i)) as [->|Hne].
      * rewrite list_lookup_insert_eq by (rewrite (cv_len _ _ Hv : length cs = 6%nat); done). intros [= <-]. by rewrite set_g_eq.
      * rewrite list_lookup_insert_ne, set_g_ne by done. intros Hc. apply Hj; auto.
        rewrite <-(cv_len _ _ Hv : length cs = 6%nat). by eapply lookup_lt_Some.
    + intros j k p Hj' Hk Hne.
      assert (∀ k, (k < 6)%nat → k ≠ i → p ∈ pages X' → p ∉ pages (G k)) as Hd.
      { intros k' Hk' Hne' Hin. apply (Hpool p Hv Hi); auto. apply Hpg. by right. }
      destruct (decide (j = i)) as [->|], (decide (k = i)) as [->|]; rewrite ?set_g_eq, ?set_g_ne by done;
        [done|by apply Hd| |by apply (cv_disj _ _ Hv)].
      intros Hin Hin'. by apply (Hd j).
  - intros j o a Hj' Hne Ho Ha. destruct (cache_at _ G j Hv Hj') as (c & Hc & _).
    by apply (proj2 (Hj j c Hj' Hne Hc) o a).
Qed.

(** A call of the page allocator leaves all caches alone. *)
Lemma caches_pages s s' cs G (F : Z → Prop) :
  caches_inv (s, cs) G → pa_ok s' → (∀ p, F p → pa_managed p ∧ ∀ i, (i < 6)%nat → p ∉ pages (G i)) →
  (∀ p, pa_free s' p → pa_free s p ∨ F p) →
  same_outside (page_byte F) (pa_mem s) (pa_mem s') →
  caches_inv (s', cs) G ∧
  (∀ j o a, (j < 6)%nat → live (sz j) (all_l (G j)) o → o ≤ a < o + sz j →
     ldb (pa_mem s') a = ldb (pa_mem s) a).
Proof.
  intros Hv Hpa HF Hf Hm.
  assert (∀ j c, (j < 6)%nat → cs !! j = Some c →
    cache_inv (sz j) (s', c) (G j) ∧ ∀ o a, live (sz j) (all_l (G j)) o → o ≤ a < o + sz j →
      ldb (pa_mem s') a = ldb (pa_mem s) a) as Hj.
  { intros j c Hj Hc. pose proof (cv_cache _ _ Hv j c Hc) as [Hok Hcl Hlk]. cbn in Hok.
    destruct (pages_step (sz j) (sz_range j Hj) s s' c (G j) F
      (live (sz j) (all_l (G j)))) as [Hok' Hk]; auto.
    - intros p Hp. destruct (HF p Hp). auto.
    - intros p Hin [Hp|Hp]%Hf; [|by apply (HF p Hp) in Hin].
      destruct (so_own _ _ _ (ck_slabs _ _ _ Hok) p Hin) as [_ Hnf]. done.
    - by apply keeps_live.
    - split; [by split|exact Hk]. }
  split.
  - split; cbn; [apply Hv|done| |apply Hv]. intros j c Hc. apply Hj; [|done].
    rewrite <-(cv_len _ _ Hv : length cs = 6%nat). by eapply lookup_lt_Some.
  - intros j o a Hj' Ho Ha. destruct (cache_at _ G j Hv Hj') as (c & Hc & _).
    by apply (proj2 (Hj j c Hj' Hc) o a).
Qed.

(** *** Clients *)

Definition client : Type := caches (S := S) * list (Z * Z).

Record client_ok (t : caches) (L : list (Z * Z)) (G : nat → lists) : Prop := {
  cl_inv : caches_inv t G;
  cl_nodup : NoDup (L.*1);
  cl_small : ∀ i r, (i < 6)%nat →
    live (sz i) (all_l (G i)) r ↔ ∃ size, (r, size) ∈ L ∧ assist_size size = sz i;
  cl_large : ∀ r size, (r, size) ∈ L → assist_size size = 0 →
    pa_managed r ∧ ¬ pa_free t.1 r ∧ ∀ i, (i < 6)%nat → r ∉ pages (G i)
}.

Lemma same_page p q a :
  pa_managed p → pa_managed q → p ≤ a < p + 4096 → q ≤ a < q + 4096 → p = q.
Proof.
  intros Hp Hq Ha Ha'. destruct (decide (p = q)); [done|].
  destruct (managed_apart p q); auto; lia.
Qed.

Lemma live_home t G i r :
  caches_inv t G → (i < 6)%nat → live (sz i) (all_l (G i)) r →
  ∃ p, p ∈ pages (G i) ∧ pa_managed p ∧ ¬ pa_free t.1 p ∧ p ≤ r ∧ r + sz i ≤ p + 4096.
Proof.
  intros Hv Hi (x & j & Hx & Hj & _ & ->). destruct (cache_at t G i Hv Hi) as (c & _ & Hok).
  assert (sm x ∈ pages (G i)) as Hp by (apply elem_slab_pages; eauto).
  destruct (so_own _ _ _ (ck_slabs _ _ _ (ci_ok _ _ _ Hok)) _ Hp) as [Hm Hf].
  pose proof (cap_range (sz i) (sz_range i Hi)). pose proof (sz_range i Hi). exists (sm x). split_and!; auto; unfold obj_at; nia.
Qed.

(** The page a live block lies in. *)
Lemma block_home t L G r size :
  client_ok t L G → (r, size) ∈ L →
  ∃ p, pa_managed p ∧ ¬ pa_free t.1 p ∧ p ≤ r ∧ r + block_size size ≤ p + 4096 ∧ 0 < block_size size ∧
    ((assist_size size = 0 ∧ p = r ∧ ∀ i, (i < 6)%nat → p ∉ pages (G i)) ∨
     (∃ i, (i < 6)%nat ∧ assist_size size = sz i ∧ p ∈ pages (G i) ∧ live (sz i) (all_l (G i)) r)).
Proof.
  intros Hc Hin. unfold block_size. destruct (assist_size_spec size) as [[H0 _]|(i & Hi & Hs & _)].
  - destruct (cl_large _ _ _ Hc r size Hin H0) as (Hm & Hf & Hn). exists r. rewrite H0.
    unfold PGSIZE. cbn [Z.eqb]. split_and!; auto; lia.
  - assert (live (sz i) (all_l (G i)) r) as Hl by (apply (cl_small _ _ _ Hc); eauto).
    destruct (live_home t G i r (cl_inv _ _ _ Hc) Hi Hl) as (p & Hp & Hm & Hf & Hlo & Hhi).
    pose proof (sz_range i Hi). exists p. rewrite Hs. replace (sz i =? 0) with false by lia.
    split_and!; auto; [lia|]. right. eauto 6.
Qed.

(** Live blocks do not overlap. *)
Lemma blocks_apart t L G r1 size1 r2 size2 :
  client_ok t L G → (r1, size1) ∈ L → (r2, size2) ∈ L → r1 ≠ r2 →
  r1 + block_size size1 ≤ r2 ∨ r2 + block_size size2 ≤ r1.
Proof.
  intros Hc H1 H2 Hne.
  destruct (block_home t L G r1 size1 Hc H1) as (p & Hpm & _ & Hlo & Hhi & Hb1 & Hp).
  destruct (block_home t L G r2 size2 Hc H2) as (q & Hqm & _ & Hlo' & Hhi' & Hb2 & Hq).
  destruct (decide (p = q)) as [->|Hpq]; [|destruct (managed_apart p q); auto; lia].
  destruct Hp as [(_ & -> & Hn)|(i & Hi & Hs1 & Hp & Hl1)], Hq as [(_ & -> & Hn')|(j & Hj & Hs2 & Hq & Hl2)].
  - lia.
  - by destruct (Hn j).
  - by destruct (Hn' i).
  - destruct (decide (i = j)) as [->|Hij].
    2: { by destruct (cv_disj _ _ (cl_inv _ _ _ Hc) i j q Hi Hj Hij). }
    destruct Hl1 as (x & k & Hx & Hk & Hbx & ->), Hl2 as (y & k' & Hy & Hk' & Hby & ->).
    destruct (cache_at t G j (cl_inv _ _ _ Hc) Hj) as (c & _ & Hok).
    pose proof (ck_slabs _ _ _ (ci_ok _ _ _ Hok)) as Hsl. pose proof (sz_range j Hj).
    unfold block_size. rewrite Hs1, Hs2. replace (sz j =? 0) with false by lia.
    destruct (obj_inj (sz j) (sz_range j Hj) _ _ x y k k' Hsl Hx Hy Hk Hk') as [[Hxy ->]|?]; [|done].
    rewrite (sa_inj (sz j) _ _ _ _ (ci_ok _ _ _ Hok) Hx Hy Hxy) in Hne. done.
Qed.

(** The bytes of the live blocks that satisfy [P] are unchanged. *)
Definition blocks_kept (P : Z → Prop) (L : list (Z * Z)) (m m' : mem) : Prop :=
  ∀ r size a, (r, size) ∈ L → P r → r ≤ a < r + block_size size → ldb m' a = ldb m a.

(** An operation on cache [i], seen by the client. *)
Lemma client_step_small s cs L G i s' c' X' Keep L' :
  client_ok (s, cs) L G → (i < 6)%nat → cache_inv (sz i) (s', c') X' →
  frame (sz i) Keep s (G i) s' X' → NoDup (L'.*1) →
  (∀ r, live (sz i) (all_l X') r ↔ ∃ size, (r, size) ∈ L' ∧ assist_size size = sz i) →
  (∀ r size, assist_size size ≠ sz i → (r, size) ∈ L' ↔ (r, size) ∈ L) →
  client_ok (s', <[i := c']> cs) L' (set_g i X' G) ∧ blocks_kept (λ r, ∀ size,
    (r, size) ∈ L → assist_size size = sz i → Keep r) L (pa_mem s) (pa_mem s').
Proof.
  intros Hc Hi Hc' Hf Hnd Hl Hother. pose proof (cl_inv _ _ _ Hc) as Hv. pose proof (sz_range i Hi) as Hsz.
  destruct (caches_step s cs G i s' c' X' Keep Hv Hi Hc' Hf) as [Hv' Hj].
  pose proof (pool_managed (s, cs) G i) as Hpool. cbn in Hpool. destruct Hf as [Hpg Hm Hk].
  assert (∀ r size, (r, size) ∈ L → assist_size size = 0 → ¬ pool_page s (G i) r) as Hlarge.
  { intros r size Hin H0 [Hp|Hp]; destruct (cl_large _ _ _ Hc r size Hin H0) as (_ & Hnf & Hn); [done|].
    by apply (Hn i). }
  split; [split; [done|done|..]|].
  - intros j r Hj'. destruct (decide (j = i)) as [->|Hne]; [by rewrite set_g_eq|].
    rewrite set_g_ne, (cl_small _ _ _ Hc) by done. apply exist_proper. intros size.
    split; intros [Hin Ha]; (split; [|done]); apply (Hother r size); auto;
      rewrite Ha; intros ?%sz_inj; auto.
  - intros r size Hin H0. assert ((r, size) ∈ L) as Hin' by (apply Hother; [lia|done]).
    pose proof (Hlarge r size Hin' H0) as Hnp.
    destruct (cl_large _ _ _ Hc r size Hin' H0) as (Hmr & Hnf & Hn). split; [done|]. split.
    + intros Hf'. apply Hnp, Hpg. by left.
    + intros j Hj'. destruct (decide (j = i)) as [->|Hne]; [|rewrite set_g_ne by done; by apply Hn].
      rewrite set_g_eq. intros Hin2. apply Hnp, Hpg. by right.
  - intros r size a Hin HK Ha.
    destruct (block_home _ _ _ _ _ Hc Hin) as (p & Hpm & Hpf & Hlo & Hhi & Hb & [(H0 & -> & Hn)|(j & Hj' & Hs & Hp & Hlr)]).
    + apply Hm. intros (q & Hq & Hqa). destruct (Hpool q Hv Hi Hq) as [Hqm _]. unfold PGSIZE in Hqa.
      assert (q = r) as -> by (apply (same_page q r a); auto; lia). by apply (Hlarge r size).
    + assert (block_size size = sz j) as Hbs.
      { unfold block_size. rewrite Hs. pose proof (sz_range j Hj'). by replace (sz j =? 0) with false by lia. }
      rewrite Hbs in Ha. destruct (decide (j = i)) as [->|Hne]; [|by apply (Hj j r)].
      apply (Hk r); [|done]. by apply (HK size).
Qed.

(** A call of the page allocator, seen by the client. *)
Lemma client_step_large s cs L G s' (F : Z → Prop) L' :
  client_ok (s, cs) L G → pa_ok s' →
  (∀ p, F p → pa_managed p ∧ ∀ i, (i < 6)%nat → p ∉ pages (G i)) →
  (∀ p, pa_free s' p → pa_free s p ∨ F p) →
  same_outside (page_byte F) (pa_mem s) (pa_mem s') → NoDup (L'.*1) →
  (∀ r size, assist_size size ≠ 0 → (r, size) ∈ L' ↔ (r, size) ∈ L) →
  (∀ r size, (r, size) ∈ L' → assist_size size = 0 →
     pa_managed r ∧ ¬ pa_free s' r ∧ ∀ i, (i < 6)%nat → r ∉ pages (G i)) →
  client_ok (s', cs) L' G ∧ blocks_kept (λ r, ¬ F r) L (pa_mem s) (pa_mem s').
Proof.
  intros Hc Hpa HF Hf Hm Hnd Hsm Hlg. pose proof (cl_inv _ _ _ Hc) as Hv.
  destruct (caches_pages s s' cs G F Hv Hpa HF Hf Hm) as [Hv' Hj]. split; [split; auto|].
  - intros i r Hi. rewrite (cl_small _ _ _ Hc) by done. apply exist_proper. intros size.
    pose proof (sz_range i Hi). split; intros [Hin Ha]; (split; [|done]); apply Hsm; auto; lia.
  - intros r size a Hin HnF Ha.
    destruct (block_home _ _ _ _ _ Hc Hin) as (p & Hpm & Hpf & Hlo & Hhi & Hb & [(H0 & -> & Hn)|(j & Hj' & Hs & Hp & Hlr)]).
    + apply Hm. intros (q & Hq & Hqa). destruct (HF q Hq) as [Hqm _]. unfold PGSIZE in Hqa.
      apply HnF. replace r with q; [done|]. apply (same_page q r a); auto; lia.
    + assert (block_size size = sz j) as Hbs.
      { unfold block_size. rewrite Hs. pose proof (sz_range j Hj'). by replace (sz j =? 0) with false by lia. }
      rewrite Hbs in Ha. by apply (Hj j r).
Qed.

Lemma fst_in (L : list (Z * Z)) r : r ∈ L.*1 ↔ ∃ size, (r, size) ∈ L.
Proof.
  rewrite list_elem_of_fmap. split.
  - intros ([r' size] & -> & Hin). eauto.
  - intros (size & Hin). by exists (r, size).
Qed.

(** An object just taken from cache [i] is no block the client holds. *)
Lemma fresh_not_in s cs L G i s' c' X' Keep r :
  client_ok (s, cs) L G → (i < 6)%nat → cache_inv (sz i) (s', c') X' →
  frame (sz i) Keep s (G i) s' X' → live (sz i) (all_l X') r → ¬ live (sz i) (all_l (G i)) r →
  r ∉ L.*1.
Proof.
  intros Hc Hi Hc' Hf Hl Hnl (size & Hin)%fst_in. pose proof (cl_inv _ _ _ Hc) as Hv.
  destruct (caches_step s cs G i s' c' X' Keep Hv Hi Hc' Hf) as [Hv' _].
  destruct (live_home _ _ i r Hv' Hi) as (q & Hq & Hqm & _ & Hlo & Hhi); [by rewrite set_g_eq|].
  rewrite set_g_eq in Hq. pose proof (sz_range i Hi).
  assert (pool_page s (G i) q) as Hpq by (apply Hf; by right).
  destruct (block_home _ _ _ _ _ Hc Hin) as (p & Hpm & Hpf & Hlo' & Hhi' & Hb & Hcase).
  assert (p = q) as -> by (apply (same_page p q r); auto; lia).
  destruct Hcase as [(_ & -> & Hn)|(j & Hj & _ & Hp & Hlr)].
  - destruct Hpq as [?|?]; [done|]. by apply (Hn i).
  - destruct (decide (j = i)) as [->|Hne]; [done|].
    by apply (proj2 (pool_managed (s, cs) G i q Hv Hi Hpq) j).
Qed.

Definition kmalloc_post (t : caches) L size r (t' : caches) : Prop :=
  ∃ G', (r = 0 ∧ client_ok t' L G' ∨ r ≠ 0 ∧ client_ok t' ((r, size) :: L) G') ∧
    blocks_kept (λ _, True) L (pa_mem t.1) (pa_mem t'.1).

Lemma kmalloc_large_wp s cs L G size :
  client_ok (s, cs) L G → assist_size size = 0 → wp (kmalloc size) (kmalloc_post (s, cs) L size) (s, cs).
Proof.
  intros Hc H0. pose proof (cl_inv _ _ _ Hc) as Hv. unfold kmalloc.
  rewrite H0. cbn [Z.eqb]. rewrite wp_lift. eapply wp_mono; [apply pa_kalloc_spec, Hv|].
  cbn. intros r s' [Hpa [(-> & _ & ->)|(Hr & Hf & Hm)]].
  { exists G. split; [by left|]. by intros ? ? ?. }
  assert (pa_managed r) as Hmr by (by eapply pa_free_managed; [apply Hv|]).
  assert (∀ p, pa_free s p → pa_managed p ∧ ∀ i, (i < 6)%nat → p ∉ pages (G i)) as HF.
  { intros p Hp. destruct (pool_managed (s, cs) G 0 p Hv) as [Hpm Hd]; [lia|by left|].
    split; [done|]. intros j Hj. destruct (decide (j = 0%nat)) as [->|]; [|by apply Hd].
    apply (pool_managed (s, cs) G 1 p Hv); [lia|by left|lia..]. }
  assert (r ∉ L.*1) as Hnew.
  { intros (size0 & Hin)%fst_in. destruct (block_home _ _ _ _ _ Hc Hin) as (p & Hpm & Hpf & Hlo & Hhi & Hb & _).
    apply Hpf. replace p with r; [done|]. apply (same_page r p r); auto; lia. }
  exists G. destruct (client_step_large s cs L G s' (pa_free s) ((r, size) :: L) Hc) as [Hok Hk]; auto.
  - intros p [Hp _]%Hf. by left.
  - cbn. constructor; [done|apply Hc].
  - intros r0 size0 Hne. rewrite elem_of_cons. split; [|by right]. intros [[= -> ->]|]; [lia|done].
  - intros r0 size0 [[= -> ->]|Hin]%elem_of_cons Ha.
    + split; [done|]. rewrite Hf. split; [tauto|]. by apply HF.
    + destruct (cl_large _ _ _ Hc r0 size0 Hin Ha) as (?&?&?). rewrite Hf. tauto.
  - split; [right; split; [|done]|].
    + apply pa_managed_page in Hmr. unfold KERNBASE in Hmr. lia.
    + intros r0 size0 a Hin _ Ha. apply (Hk r0 size0); auto. intros Hf0.
      destruct (block_home _ _ _ _ _ Hc Hin) as (p & Hpm & Hpf & Hlo & Hhi & Hb & _).
      apply Hpf. replace p with r0; [done|]. apply (same_page r0 p r0); auto; [by apply HF|lia..].
Qed.

Lemma kmalloc_small_wp s cs L G i size :
  client_ok (s, cs) L G → (i < 6)%nat → assist_size size = sz i →
  wp (kmalloc size) (kmalloc_post (s, cs) L size) (s, cs).
Proof.
  intros Hc Hi Hs. pose proof (cl_inv _ _ _ Hc) as Hv. unfold kmalloc.
  pose proof (sz_range i Hi) as Hsz. rewrite Hs. replace (sz i =? 0) with false by lia. rewrite wp_bind.
  apply (find_cache_wp (s, cs) G i); auto. destruct (cache_at (s, cs) G i Hv Hi) as (c & Hci & Hinv).
  unfold on_cache. rewrite wp_lift. cbn [fst snd] in *. rewrite Hci. change (default nocache (Some c)) with c.
  eapply wp_mono; [by apply kmem_cache_alloc_spec|].
  cbn. intros r [s' c'] [(X' & Hok' & Hcl' & Hf & Hr) Hlk]. exists (set_g i X' G).
  assert (cache_inv (sz i) (s', c') X') as Hinv' by by split.
  assert (∀ r0, live (sz i) (all_l (G i)) r0 ↔ ∃ size, (r0, size) ∈ L ∧ assist_size size = sz i) as Hl
    by (intros r0; by apply (cl_small _ _ _ Hc)).
  destruct Hr as [(-> & _ & _ & _ & Hlr)|(Hr & Hnl & Hlr)].
  - destruct (client_step_small s cs L G i s' c' X' _ L Hc Hi Hinv' Hf) as [Hok Hk]; auto; [apply Hc|..].
    { intros r0. by rewrite Hlr. }
    split; [by left|]. intros r0 size0 a Hin _ Ha. apply (Hk r0 size0); auto. intros size1 ? ?. apply Hl. eauto.
  - assert (r ∉ L.*1) as Hnew.
    { eapply fresh_not_in; eauto. apply Hlr. by right. }
    destruct (client_step_small s cs L G i s' c' X' _ ((r, size) :: L) Hc Hi Hinv' Hf) as [Hok Hk].
    + cbn. constructor; [done|apply Hc].
    + intros r0. rewrite Hlr, Hl. setoid_rewrite elem_of_cons. split.
      * intros [(size0 & ? & ?)| ->]; eauto.
      * intros (size0 & [[= -> ->]|?] & ?); eauto.
    + intros r0 size0 Hne. rewrite elem_of_cons. split; [|by right]. intros [[= -> ->]|]; done.
    + split; [by right|]. intros r0 size0 a Hin _ Ha. apply (Hk r0 size0); auto. intros size1 ? ?. apply Hl. eauto.
Qed.

Lemma kmalloc_wp t L G size :
  client_ok t L G → wp (kmalloc size) (kmalloc_post t L size) t.
Proof.
  intros Hc. destruct t as [s cs]. destruct (assist_size_spec size) as [[H0 _]|(i & Hi & Hs & _)].
  - by eapply kmalloc_large_wp.
  - by eapply kmalloc_small_wp.
Qed.

Lemma kmfree_large_wp s cs L L' G r size :
  client_ok (s, cs) L G → L ≡ₚ (r, size) :: L' → assist_size size = 0 →
  wp (kmfree r size) (λ _ t', client_ok t' L' G ∧ blocks_kept (λ r0, r0 ≠ r) L (pa_mem s) (pa_mem t'.1))
    (s, cs).
Proof.
  intros Hc HL H0. pose proof (cl_inv _ _ _ Hc) as Hv. pose proof (cl_nodup _ _ _ Hc) as Hnd.
  rewrite HL in Hnd. cbn in Hnd. apply NoDup_cons in Hnd as [Hr Hnd].
  assert ((r, size) ∈ L) as Hin by (rewrite HL; left).
  destruct (cl_large _ _ _ Hc r size Hin H0) as (Hm & Hnf & Hn).
  unfold kmfree. rewrite H0. cbn [Z.eqb]. rewrite wp_lift.
  eapply wp_mono; [apply pa_kfree_spec; [apply Hv|done..]|]. cbn. intros _ s' (Hpa & Hf & Hmem).
  assert (∀ r0 size0, (r0, size0) ∈ L' → (r0, size0) ∈ L ∧ r0 ≠ r) as Hsub.
  { intros r0 size0 Hin0. split; [rewrite HL; by right|]. intros ->. apply Hr, fst_in. eauto. }
  destruct (client_step_large s cs L G s' (pa_free s') L' Hc) as [Hok Hk]; auto.
  - intros p [Hp| ->]%Hf; [|done]. destruct (pool_managed (s, cs) G 0 p Hv) as [Hpm Hd]; [lia|by left|].
    split; [done|]. intros j Hj. destruct (decide (j = 0%nat)) as [->|]; [|by apply Hd].
    apply (pool_managed (s, cs) G 1 p Hv); [lia|by left|lia..].
  - intros r0 size0 Hne. rewrite HL, elem_of_cons. split; [by right|]. intros [[= -> ->]|]; done.
  - intros r0 size0 [Hin0 Hne]%Hsub Ha. destruct (cl_large _ _ _ Hc r0 size0 Hin0 Ha) as (?&?&?).
    rewrite Hf. tauto.
  - split; [done|]. intros r0 size0 a Hin0 Hne Ha. apply (Hk r0 size0); auto.
    intros [Hf0| ->]%Hf; [|done].
    destruct (block_home _ _ _ _ _ Hc Hin0) as (p & Hpm & Hpf & Hlo & Hhi & Hb & _).
    apply Hpf. replace p with r0; [done|].
    apply (same_page r0 p r0); auto; [by eapply pa_free_managed; [apply Hv|]|lia..].
Qed.

Lemma kmfree_small_wp s cs L L' G i r size :
  client_ok (s, cs) L G → L ≡ₚ (r, size) :: L' → (i < 6)%nat → assist_size size = sz i →
  wp (kmfree r size) (λ _ t', (∃ G', client_ok t' L' G') ∧
    blocks_kept (λ r0, r0 ≠ r) L (pa_mem s) (pa_mem t'.1)) (s, cs).
Proof.
  intros Hc HL Hi Hs. pose proof (cl_inv _ _ _ Hc) as Hv. pose proof (cl_nodup _ _ _ Hc) as Hnd.
  rewrite HL in Hnd. cbn in Hnd. apply NoDup_cons in Hnd as [Hr Hnd].
  pose proof (sz_range i Hi) as Hsz. unfold kmfree. rewrite Hs. replace (sz i =? 0) with false by lia.
  rewrite wp_bind. apply (find_cache_wp (s, cs) G i); auto.
  destruct (cache_at (s, cs) G i Hv Hi) as (c & Hci & Hinv).
  unfold on_cache. rewrite wp_lift. cbn [fst snd] in *. rewrite Hci. change (default nocache (Some c)) with c.
  assert (∀ r0, live (sz i) (all_l (G i)) r0 ↔ ∃ size, (r0, size) ∈ L ∧ assist_size size = sz i) as Hl
    by (intros r0; by apply (cl_small _ _ _ Hc)).
  eapply wp_mono; [apply (kmem_cache_free_spec (sz i) Hsz s c (G i) r); auto; apply Hl; exists size;
    by rewrite HL; split; [left|]|].
  cbn. intros _ [s' c'] [(X' & Hok' & Hcl' & Hf & Hlr & _) Hlk].
  assert (cache_inv (sz i) (s', c') X') as Hinv' by by split.
  assert (∀ r0 size0, (r0, size0) ∈ L ∧ r0 ≠ r ↔ (r0, size0) ∈ L') as Hsub.
  { intros r0 size0. rewrite HL, elem_of_cons. split; [intros [[[= -> ->]|?] ?]; done|].
    intros Hin0. split; [by right|]. intros ->. apply Hr, fst_in. eauto. }
  destruct (client_step_small s cs L G i s' c' X' _ L' Hc Hi Hinv' Hf) as [Hok Hk]; auto.
  - intros r0. rewrite Hlr, Hl. setoid_rewrite <-Hsub. naive_solver.
  - intros r0 size0 Hne. rewrite HL, elem_of_cons. split; [by right|]. intros [[= -> ->]|]; done.
  - split; [eauto|]. intros r0 size0 a Hin0 Hne Ha. apply (Hk r0 size0); auto. intros size1 ? ?.
    split; [apply Hl; eauto|done].
Qed.

Lemma kmfree_wp t L L' G r size :
  client_ok t L G → L ≡ₚ (r, size) :: L' →
  wp (kmfree r size) (λ _ t', (∃ G', client_ok t' L' G') ∧
    blocks_kept (λ r0, r0 ≠ r) L (pa_mem t.1) (pa_mem t'.1)) t.
Proof.
  intros Hc HL. destruct t as [s cs]. destruct (assist_size_spec size) as [[H0 _]|(i & Hi & Hs & _)].
  - eapply wp_mono; [by apply (kmfree_large_wp s cs L L' G)|]. intros _ t' [? ?]. eauto.
  - by apply (kmfree_small_wp s cs L L' G i).
Qed.

Inductive mcall : client → client → Prop :=
| call_kmalloc t L size r t' :
    servable size → kmalloc size t = Ok r t' → r ≠ 0 → mcall (t, L) (t', (r, size) :: L)
| call_kmalloc_fail t L size t' :
    servable size → kmalloc size t = Ok 0 t' → mcall (t, L) (t', L)
| call_kmfree t L L' r size t' :
    L ≡ₚ (r, size) :: L' → kmfree r size t = Ok tt t' → mcall (t, L) (t', L').

Inductive mstep : client → client → Prop :=
| mstep_call c c' : mcall c c' → mstep c c'
| mstep_write s cs L r size a v :
    (r, size) ∈ L → r ≤ a < r + size →
    mstep ((s, cs), L) ((pa_set_mem (stb (pa_mem s) a v) s, cs), L).

Lemma mcall_ok t L t' L' G :
  client_ok t L G → mcall (t, L) (t', L') →
  (∃ G', client_ok t' L' G') ∧ blocks_kept (λ r, r ∈ L'.*1) L (pa_mem t.1) (pa_mem t'.1).
Proof.
  intros Hc Hcall. inversion Hcall as [? ? size r ? _ Hrun Hr|? ? size ? _ Hrun|? ? ? r size ? HL Hrun]; subst.
  - destruct (wp_Ok _ _ _ (kmalloc_wp t L G size Hc)) as (r' & t1 & Heq & G' & Hok & Hk).
    rewrite Hrun in Heq. injection Heq as <- <-. destruct Hok as [[? _]|[_ Hok]]; [done|].
    split; [eauto|]. intros r0 size0 a Hin _. by apply Hk.
  - destruct (wp_Ok _ _ _ (kmalloc_wp t L' G size Hc)) as (r' & t1 & Heq & G' & Hok & Hk).
    rewrite Hrun in Heq. injection Heq as <- <-. destruct Hok as [[_ Hok]|[? _]]; [|done].
    split; [eauto|]. intros r0 size0 a Hin _. by apply Hk.
  - destruct (wp_Ok _ _ _ (kmfree_wp t L L' G r size Hc HL)) as ([] & t1 & Heq & Hok & Hk).
    rewrite Hrun in Heq. injection Heq as <-. split; [done|]. intros r0 size0 a Hin Hin'. apply (Hk r0 size0); [done|].
    pose proof (cl_nodup _ _ _ Hc) as Hnd. rewrite HL in Hnd. cbn in Hnd. apply NoDup_cons in Hnd as [Hn _].
    by intros ->.
Qed.

Lemma mcall_servable t L t' L' :
  Forall (λ x, servable x.2) L → mcall (t, L) (t', L') → Forall (λ x, servable x.2) L'.
Proof.
  intros HL Hcall. inversion Hcall as [? ? size r ? Hs _ _| |? ? ? r size ? Hp _]; subst; [by constructor|done|].
  rewrite Hp in HL. by apply Forall_cons in HL as [_ HL].
Qed.

(** Writes outside the [struct slab]s. *)
Lemma cache_ok_write size s c X m' :
  pa_ok (pa_set_mem m' s) →
  (∀ x a, x ∈ all_l X → sa x ≤ a < sa x + 32 → ldb m' a = ldb (pa_mem s) a) →
  cache_ok size (s, c) X → cache_ok size (pa_set_mem m' s, c) X.
Proof.
  intros Hpa Hm [[_ Hnd Hown Hat] Hsz Hc]. cbn in *. split; cbn; [split|done|]; auto.
  - intros p Hp. rewrite pa_free_set. by apply Hown.
  - intros x Hx. rewrite pa_mem_set. apply (slab_at_ext size (pa_mem s)); [|by apply Hat].
    intros a Ha. apply (Hm x); [done|lia].
  - rewrite pa_mem_set. apply (chains_ext (pa_mem s)); [|done]. intros a. rewrite all_l_fmap.
    intros (x & -> & Hx)%list_elem_of_fmap. apply ldn_ext. intros b Hb. apply (Hm x); [done|lia].
Qed.

Lemma client_write s cs L G r size a v :
  client_ok (s, cs) L G → (r, size) ∈ L → r ≤ a < r + block_size size →
  client_ok (pa_set_mem (stb (pa_mem s) a v) s, cs) L G.
Proof.
  intros Hc Hin Ha. pose proof (cl_inv _ _ _ Hc) as Hv.
  destruct (block_home _ _ _ _ _ Hc Hin) as (p & Hpm & Hpf & Hlo & Hhi & Hb & Hcase).
  assert (∀ i x b, (i < 6)%nat → x ∈ all_l (G i) → sa x ≤ b < sa x + 32 → b ≠ a) as Hst.
  { intros i x b Hi Hx Hb' ->. destruct (cache_at _ G i Hv Hi) as (c & _ & [Hok _ _]).
    assert (sa x ∈ pages (G i)) as Hsa by (apply elem_slab_pages; eauto).
    destruct (so_own _ _ _ (ck_slabs _ _ _ Hok) _ Hsa) as [Hsm _].
    assert (sa x = p) as Hp by (apply (same_page (sa x) p a); auto; lia).
    destruct Hcase as [(_ & -> & Hn)|(j & Hj & _ & Hpj & Hl)]; [apply (Hn i Hi); by rewrite <-Hp|].
    destruct (decide (i = j)) as [->|Hne]; [|apply (cv_disj _ _ Hv i j p); auto; by rewrite <-Hp].
    destruct Hl as (y & k & Hy & Hk & _ & ->).
    pose proof (sa_sm_apart (sz j) _ _ _ _ Hok Hx Hy). pose proof (sz_range j Hj).
    pose proof (obj_in_page (sz j) (sz_range j Hj) y k (obj_at (sz j) y k) Hk). lia. }
  assert (pa_ok (pa_set_mem (stb (pa_mem s) a v) s)) as Hpa.
  { apply pa_ok_set; [apply Hv|]. intros b (q & Hq & Hb'). apply ldb_stb_ne. intros Heq. subst b.
    apply Hpf. replace p with q; [done|]. unfold PGSIZE in Hb'.
    apply (same_page q p a); auto; [by eapply pa_free_managed; [apply Hv|]|lia]. }
  split; [split; cbn; [apply Hv|done| |apply Hv]|apply Hc|apply Hc|].
  - intros i c Hi. destruct (cv_cache _ _ Hv i c Hi) as [Hok Hcl Hlk]. split; [|done|done].
    apply cache_ok_write; auto. intros x b Hx Hb'. apply ldb_stb_ne, not_eq_sym.
    apply (Hst i x b); auto. rewrite <-(cv_len _ _ Hv : length cs = 6%nat). by eapply lookup_lt_Some.
  - cbn. intros r0 size0 Hin0 H0. rewrite pa_free_set. by apply (cl_large _ _ _ Hc r0 size0).
Qed.

(** What holds of a client: its blocks are live in the caches, and of sizes it may
    ask for. *)
Definition client_fine (c : client) : Prop := (∃ G, client_ok c.1 c.2 G) ∧ Forall (λ x, servable x.2) c.2.

Lemma mstep_ok c c' : client_fine c → mstep c c' → client_fine c'.
Proof.
  intros [[G Hc] HL] Hstep. destruct Hstep as [[t L] [t' L'] Hcall|s cs L r size a v Hin Ha]; cbn [fst snd] in *.
  - split; [by apply (mcall_ok t L t' L' G)|by eapply mcall_servable].
  - split; [|done]. exists G. eapply client_write; [done..|]. rewrite Forall_forall in HL.
    pose proof (servable_fits size (HL _ Hin)). lia.
Qed.

Lemma init_all_slabs_wp s cs :
  pa_ok s → length cs = 6%nat →
  wp init_all_slabs (λ _ t', client_ok t' [] (λ _ _, []) ∧ t'.1 = s) (s, cs).
Proof.
  intros Hpa Hlen. destruct cs as [|c0 [|c1 [|c2 [|c3 [|c4 [|c5 [|]]]]]]]; try discriminate Hlen.
  unfold init_all_slabs, on_cache, kmem_cache_init. repeat (wp_step; cbn [fst snd]).
  split; [|done]. split; [split; cbn; [done|done| |]|constructor|..].
  - intros i c Hc.
    assert (c = KmemCache (sz i) 0 0 0 false) as ->.
    { do 6 (destruct i as [|i]; [by injection Hc as <-|]). done. }
    split; [split; cbn|by intros ? ? ?%not_elem_of_nil|done].
    + split; [done|constructor|by intros ? ?%not_elem_of_nil..].
    + done.
    + by intros [].
  - intros i j p _ _ _ Hp. by apply not_elem_of_nil in Hp.
  - intros i r _. split; [|by intros (? & ?%not_elem_of_nil & _)].
    intros (x & _ & Hx & _). by apply not_elem_of_nil in Hx.
  - intros r size ?%not_elem_of_nil. done.
Qed.

Lemma mreachable s cs t0 c :
  pa_ok s → length cs = 6%nat → init_all_slabs (s, cs) = Ok tt t0 →
  rtc mstep (t0, []) c → client_fine c.
Proof.
  intros Hpa Hlen Hinit Hsteps. destruct (wp_Ok _ _ _ (init_all_slabs_wp s cs Hpa Hlen))
    as ([] & t1 & Heq & Hc & _). rewrite Hinit in Heq. injection Heq as <-.
  assert (client_fine (t0, [])) as Hf by (split; [by eexists|constructor]).
  clear Hc Hinit. induction Hsteps as [|c1 c2 c3 Hstep _ IH]; [done|]. apply IH. by eapply mstep_ok.
Qed.

(** ** The properties *)

(** C3: After [init_all_slabs] on any page allocator that keeps its promise,
    whatever a client does that asks for at most a page at a time, frees only
    what it holds, with its size, and writes only inside its blocks: the bytes
    asked for of two live blocks never overlap, [kmalloc] of any size up to a
    page returns, [kmfree] of any live block returns, and neither changes a
    byte of a block that is live before and after the call. *)
Theorem kmalloc_client_safety s cs t0 t L :
  pa_ok s → length cs = 6%nat → init_all_slabs (s, cs) = Ok tt t0 → rtc mstep (t0, []) (t, L) →
  (∀ k1 k2 r1 size1 r2 size2, L !! k1 = Some (r1, size1) → L !! k2 = Some (r2, size2) → k1 ≠ k2 →
     r1 ≠ r2 ∧ (r1 + size1 ≤ r2 ∨ r2 + size2 ≤ r1)) ∧
  (∀ size, servable size → ∃ r t', kmalloc size t = Ok r t') ∧
  (∀ r size, (r, size) ∈ L → ∃ t', kmfree r size t = Ok tt t') ∧
  (∀ t' L' r size a, mcall (t, L) (t', L') → (r, size) ∈ L → r ∈ L'.*1 → r ≤ a < r + size →
     ldb (pa_mem t'.1) a = ldb (pa_mem t.1) a).
Proof.
  intros Hpa Hlen Hinit Hsteps. destruct (mreachable _ _ _ _ Hpa Hlen Hinit Hsteps) as [[G Hc] HL].
  cbn [fst snd] in *. rewrite Forall_forall in HL. split_and!.
  - intros k1 k2 r1 size1 r2 size2 H1 H2 Hne.
    assert (r1 ≠ r2) as Hr.
    { intros ->. apply Hne. apply (NoDup_lookup (L.*1) k1 k2 r2); [apply Hc|..]; by rewrite list_lookup_fmap, ?H1, ?H2. }
    apply list_elem_of_lookup_2 in H1, H2. split; [done|].
    pose proof (servable_fits _ (HL _ H1)). pose proof (servable_fits _ (HL _ H2)). cbn [snd] in *.
    destruct (blocks_apart t L G r1 size1 r2 size2 Hc H1 H2 Hr); lia.
  - intros size _. destruct (wp_Ok _ _ _ (kmalloc_wp t L G size Hc)) as (r & t' & Heq & _).
    exists r, t'. exact Heq.
  - intros r size (L' & HL')%elem_of_Permutation.
    destruct (wp_Ok _ _ _ (kmfree_wp t L L' G r size Hc HL')) as ([] & t' & Heq & _).
    exists t'. exact Heq.
  - intros t' L' r size a Hcall Hin Hin' Ha. destruct (mcall_ok t L t' L' G Hc Hcall) as [_ Hk].
    apply (Hk r size); [done..|]. pose proof (servable_fits _ (HL _ Hin)). cbn [snd] in *. lia.
Qed.

(** C23: [kmem_cache_alloc] always returns.  When it returns an object, the object
    was not live and is the only one added to the live objects; it returns 0
    only when no slab has a free object and fewer than two pages are free, and
    then no object and no page of the pool is lost.  No live object is
    written. *)
Theorem kmem_cache_alloc_correct size s c X :
  64 ≤ size ≤ 2048 → cache_inv size (s, c) X →
  ∃ r s' c' X', kmem_cache_alloc (s, c) = Ok r (s', c') ∧ cache_inv size (s', c') X' ∧
    (r = 0 → X Partial = [] ∧ X Empty = [] ∧ (∀ p q, pa_free s p → pa_free s q → p = q) ∧
       ∀ o, live size (all_l X') o ↔ live size (all_l X) o) ∧
    (r ≠ 0 → ¬ live size (all_l X) r ∧
       ∀ o, live size (all_l X') o ↔ live size (all_l X) o ∨ o = r) ∧
    (∀ p, pool_page s' X' p ↔ pool_page s X p) ∧
    (∀ o a, live size (all_l X) o → o ≤ a < o + size → ldb (pa_mem s') a = ldb (pa_mem s) a).
Proof.
  intros Hsize Hinv.
  destruct (wp_Ok _ _ _ (kmem_cache_alloc_spec size Hsize s c X Hinv))
    as (r & [s' c'] & Heq & (X' & Hok & Hcl & [Hpg Hm Hk] & Hr) & Hlk).
  exists r, s', c', X'. split; [exact Heq|]. clear Heq. split; [by split|].
  destruct Hr as [(-> & ? & ? & ? & ?)|(? & ? & ?)]; split_and!; done.
Qed.

(** C24: [kmem_cache_free] of a live object always returns.  The object, and only
    it, stops being live; at most two empty slabs stay in the cache, and the
    pages of the others go back to the page allocator; no other live object is
    written. *)
Theorem kmem_cache_free_correct size s c X obj :
  64 ≤ size ≤ 2048 → cache_inv size (s, c) X → live size (all_l X) obj →
  ∃ s' c' X', kmem_cache_free obj (s, c) = Ok tt (s', c') ∧ cache_inv size (s', c') X' ∧
    (∀ o, live size (all_l X') o ↔ live size (all_l X) o ∧ o ≠ obj) ∧
    (length (X' Empty) ≤ 2)%nat ∧
    (∀ p, pool_page s' X' p ↔ pool_page s X p) ∧
    (∀ o a, live size (all_l X) o → o ≠ obj → o ≤ a < o + size →
       ldb (pa_mem s') a = ldb (pa_mem s) a).
Proof.
  intros Hsize Hinv Hl.
  destruct (wp_Ok _ _ _ (kmem_cache_free_spec size Hsize s c X obj Hinv Hl))
    as ([] & [s' c'] & Heq & (X' & Hok & Hcl & [Hpg Hm Hk] & Hlr & Hlen) & Hlk).
  exists s', c', X'. split; [exact Heq|]. clear Heq. split; [by split|].
  split_and!; [done..|]. intros o a Ho Hne. by apply Hk.
Qed.

(** C35: [kmalloc] of more than a page returns a single page: it succeeds when one
    page is free, so the requested bytes beyond the first 4096 belong to other
    pages. *)
Theorem kmalloc_oversize s cs p size :
  pa_ok s → 4096 < size → pa_free s p → (∀ q, pa_free s q → q = p) →
  ∃ t', kmalloc size (s, cs) = Ok p t'.
Proof.
  intros Hpa Hs Hp Hone. assert (assist_size size = 0) as H0.
  { destruct (assist_size_spec size) as [[? _]|(i & Hi & _ & ?)]; [done|].
    pose proof (sz_range i Hi). lia. }
  assert (wp (kmalloc size) (λ r _, r = p) (s, cs)) as Hwp.
  { unfold kmalloc. rewrite H0. cbn [Z.eqb]. rewrite wp_lift.
    eapply wp_mono; [by apply pa_kalloc_spec|]. intros r s' [_ [(_ & Hno & _)|(Hr & _)]].
    - by destruct (Hno p).
    - by apply Hone. }
  destruct (wp_Ok _ _ _ Hwp) as (r & t' & Heq & ->). exists t'. exact Heq.
Qed.
End Client.

(** ** Witnesses, on the buddy allocator *)

Module SlabWitness.
Import KallocWitness.

#[local] Instance ops : PageAllocOps kmem := kmem_ops kend0.
#[local] Instance spec : PageAllocSpec kmem := kmem_spec kend0 (proj1 kend0_ok).
#[local] Opaque kinit kalloc kfree kalloc_huge kfree_huge.

Definition cs0 : list kmem_cache := replicate 6 nocache.

Lemma boot_pool : ∃ s, pa_ok s ∧ pa_free s (addr 100) ∧ pa_free s (addr 101).
Proof.
  destruct (wp_Ok _ _ _ (kinit_idle kend0 boot kend0_ok eq_refl)) as ([] & s & _ & Hid & Hf).
  exists s. split; [split; [exact Hid|]|].
  - intros i Hi. by apply Hf.
  - split; apply kpage_free_addr; by apply Hf.
Qed.

Lemma one_page : ∃ s, pa_ok s ∧ pa_free s (addr 100) ∧ ∀ q, pa_free s q → q = addr 100.
Proof.
  destruct (wp_Ok _ _ _ (kfree_idle kend0 full 100 (conj (all_used_kinv _ full_used) eq_refl)
    ltac:(done) ltac:(done) (all_used_not_free _ 100 full_used))) as ([] & s & _ & Hid & Hf & _).
  assert (∀ k, kfree_page s k → k = 100) as Hone.
  { intros k Hk. apply Hf in Hk as [Hk|Hk]; [|lia]. by apply all_used_not_free in Hk; [|apply full_used]. }
  exists s. split; [split; [exact Hid|]|split].
  - intros i Hi. by rewrite (Hone i Hi).
  - apply kpage_free_addr, Hf. right. lia.
  - intros q (i & Hi & ->). by rewrite (Hone i Hi).
Qed.

(** A page-sized block can be had while a page is free. *)
Lemma kmalloc_page (s : kmem) cs p : pa_ok s → pa_free s p → wp (kmalloc 4096) (λ r _, r ≠ 0) (s, cs).
Proof.
  intros Hpa Hp. unfold kmalloc. change (assist_size 4096) with 0. cbn [Z.eqb]. rewrite wp_lift.
  eapply wp_mono; [by apply pa_kalloc_spec|]. intros r s' [_ [(_ & Hno & _)|(Hr & _)]].
  - by destruct (Hno p).
  - apply (pa_free_managed s r Hpa), pa_managed_page in Hr. unfold KERNBASE in Hr. lia.
Qed.

Lemma start : ∃ s t0 r t1, pa_ok s ∧ init_all_slabs (s, cs0) = Ok tt t0 ∧
  kmalloc 4096 t0 = Ok r t1 ∧ r ≠ 0.
Proof.
  destruct boot_pool as (s & Hs & Hp & _).
  destruct (wp_Ok _ _ _ (init_all_slabs_wp s cs0 Hs eq_refl)) as ([] & [s0 cs1] & H0 & _ & Heq).
  cbn in Heq. subst s0. destruct (wp_Ok _ _ _ (kmalloc_page s cs1 _ Hs Hp)) as (r & t1 & H1 & Hr).
  exists s, (s, cs1), r, t1. split; [exact Hs|]. split; [exact H0|]. split; [exact H1|exact Hr].
Qed.

Lemma kmalloc_client_safety_witness :
  ∃ t0 r t1 r2 t2 t3, kmalloc 4096 t0 = Ok r t1 ∧ kmfree r 4096 t1 = Ok tt t2 ∧ kmalloc 64 t1 = Ok r2 t3 ∧
    ldb (pa_mem t3.1) r = ldb (pa_mem t1.1) r.
Proof.
  destruct start as (s & t0 & r & t1 & Hs & H0 & H1 & Hr).
  assert (servable 4096 ∧ servable 64) as [S1 S2] by (split; split; vm_compute; discriminate).
  destruct (kmalloc_client_safety s cs0 t0 t1 [(r, 4096)] Hs eq_refl H0
    (rtc_once _ _ (mstep_call _ _ (call_kmalloc t0 [] 4096 r t1 S1 H1 Hr)))) as (_ & Hal & Hfree & Hk).
  destruct (Hfree r 4096) as [t2 H2]; [left|]. destruct (Hal 64 S2) as (r2 & t3 & H3).
  exists t0, r, t1, r2, t2, t3. split; [exact H1|]. split; [exact H2|]. split; [exact H3|].
  destruct (Z.eq_dec r2 0) as [Hz|Hnz].
  - rewrite Hz in H3. refine (Hk t3 _ r 4096 r (call_kmalloc_fail t1 _ 64 t3 S2 H3) _ _ _); [left|left|lia].
  - refine (Hk t3 _ r 4096 r (call_kmalloc t1 _ 64 r2 t3 S2 H3 Hnz) _ _ _); [left|right; left|lia].
Defined.

Definition c64 : kmem_cache := KmemCache 64 0 0 0 false.
Definition nil_lists : which → list slab := λ _, [].

Lemma c64_inv (s : kmem) : pa_ok s → cache_inv 64 (s, c64) nil_lists.
Proof.
  intros Hs. split; [split; cbn|by intros ? ? ?%not_elem_of_nil|done].
  - split; [done|constructor|by intros ? ?%not_elem_of_nil..].
  - done.
  - by intros [].
Qed.

Lemma kmem_cache_alloc_correct_witness :
  ∃ s r s' c' X', kmem_cache_alloc (s, c64) = Ok r (s', c') ∧ cache_inv 64 (s', c') X' ∧
    r ≠ 0 ∧ live 64 (all_l X') r.
Proof.
  destruct boot_pool as (s & Hs & Hp & Hq).
  destruct (kmem_cache_alloc_correct 64 s c64 nil_lists ltac:(lia) (c64_inv s Hs))
    as (r & s' & c' & X' & H1 & Hinv & Hr0 & Hr1 & _).
  assert (r ≠ 0) as Hnz.
  { intros Hz. destruct (Hr0 Hz) as (_ & _ & Heq & _). by specialize (Heq _ _ Hp Hq). }
  exists s, r, s', c', X'. split; [exact H1|]. split; [exact Hinv|]. split; [exact Hnz|].
  apply (proj2 (Hr1 Hnz)). by right.
Defined.

Lemma one_object : ∃ s c X obj, cache_inv 64 (s, c) X ∧ live 64 (all_l X) obj.
Proof.
  destruct boot_pool as (s & Hs & Hp & Hq).
  destruct (wp_Ok _ _ _ (kmem_cache_alloc_spec 64 ltac:(lia) s c64 nil_lists (c64_inv s Hs)))
    as (r & [s' c'] & _ & (X' & Hok & Hcl & _ & Hr) & Hlk).
  exists s', c', X', r. split; [by split|].
  destruct Hr as [(_ & _ & _ & Heq & _)|(_ & _ & Hl)]; [by specialize (Heq _ _ Hp Hq)|].
  apply Hl. by right.
Qed.

Lemma kmem_cache_free_correct_witness :
  ∃ s c obj s' c' X', kmem_cache_free obj (s, c) = Ok tt (s', c') ∧
    cache_inv 64 (s', c') X' ∧ ¬ live 64 (all_l X') obj.
Proof.
  destruct one_object as (s & c & X & obj & Hinv & Hl).
  destruct (kmem_cache_free_correct 64 s c X obj ltac:(lia) Hinv Hl)
    as (s' & c' & X' & H1 & Hinv' & Hlr & _).
  exists s, c, obj, s', c', X'. split; [exact H1|]. split; [exact Hinv'|]. intros Hlo.
  by apply Hlr in Hlo as [_ ?].
Defined.

Lemma kmalloc_oversize_witness : ∃ s t', kmalloc 8192 (s, cs0) = Ok (addr 100) t'.
Proof.
  destruct one_page as (s & Hs & Hp & Hone).
  destruct (kmalloc_oversize s cs0 (addr 100) 8192 Hs ltac:(lia) Hp Hone) as [t' H].
  exists s, t'. exact H.
Defined.
End SlabWitness.
