(* ===== verification/Spinlock.v ===== *)
(** * Spin locks: [kernel/spinlock.c]

    The locks and the per-hart interrupt state they maintain.  [me] is the hart
    that runs the code.  The rest of the development sees a spin lock only as
    "held by this hart" ([Prelude.acquire]); here the lock itself is modelled:
    one hart alone, then all harts interleaved at the atomic steps. *)

From S2P Require Import Prelude.

(** [struct cpu]: the fields spin locks use, and the interrupt enable bit
    (SIE of [sstatus]) of the hart. *)
Record cpu := Cpu { noff : Z; intena : bool; sie : bool }.

(** [struct spinlock]; a null [cpu] is [None]. *)
Record spinlock := Spin { locked : Z; owner : option nat }.

Record locks := Locks { l_cpu : gmap nat cpu; l_lock : gmap nat spinlock }.

Definition cpu0 : cpu := Cpu 0 false false.
Definition lock0 : spinlock := Spin 0 None.
Definition mycpu (me : nat) (s : locks) : cpu := default cpu0 (l_cpu s !! me).
Definition lk_of (lk : nat) (s : locks) : spinlock := default lock0 (l_lock s !! lk).
Definition set_cpu (me : nat) (c : cpu) (s : locks) : locks := Locks (<[me := c]> (l_cpu s)) (l_lock s).
Definition set_lk (lk : nat) (v : spinlock) (s : locks) : locks := Locks (l_cpu s) (<[lk := v]> (l_lock s)).

Definition initlock (lk : nat) : M locks unit := modify (set_lk lk lock0).

Definition holding (me lk : nat) (s : locks) : bool :=
  negb (locked (lk_of lk s) =? 0) && bool_decide (owner (lk_of lk s) = Some me).

(** [push_off] and [pop_off] on the hart's record. *)
Definition push_off_cpu (c : cpu) : cpu :=
  Cpu (noff c + 1) (if noff c =? 0 then sie c else intena c) false.
Definition pop_off_cpu (c : cpu) : cpu :=
  Cpu (noff c - 1) (intena c) (if (noff c - 1 =? 0) && intena c then true else sie c).

Definition push_off (me : nat) : M locks unit := modify (λ s, set_cpu me (push_off_cpu (mycpu me s)) s).

Definition pop_off (me : nat) : M locks unit :=
  c ← gets (mycpu me);
  panic_if (sie c) "pop_off - interruptible";;
  panic_if (noff c <? 1) "pop_off";;
  modify (set_cpu me (pop_off_cpu c)).

(** The atomic swap of [acquire] succeeds when the lock was free; until then the
    hart spins. *)
Definition acquire (me lk : nat) : M locks unit :=
  push_off me;;
  h ← gets (holding me lk);
  panic_if h "acquire";;
  await (λ s, locked (lk_of lk s) =? 0);;
  modify (λ s, set_lk lk (Spin 1 (owner (lk_of lk s))) s);;
  modify (λ s, set_lk lk (Spin (locked (lk_of lk s)) (Some me)) s).

Definition release (me lk : nat) : M locks unit :=
  h ← gets (holding me lk);
  panic_if (negb h) "release";;
  modify (λ s, set_lk lk (Spin (locked (lk_of lk s)) None) s);;
  modify (λ s, set_lk lk (Spin 0 (owner (lk_of lk s))) s);;
  pop_off me.

(** ** All harts together

    Each hart runs [acquire], a critical section and [release] over and over;
    between two atomic steps any other hart may run. *)

Inductive pc :=
| Out                      (* not using a lock *)
| Swap (lk : nat)          (* push_off done, lock not held: spinning *)
| Mark (lk : nat)          (* swap done, cpu field not yet set *)
| Crit (lk : nat)          (* acquire returned *)
| Unmark (lk : nat)        (* release: cpu field cleared *)
| Pop (lk : nat).          (* lock word cleared, pop_off left *)

Record machine := Machine { m_pc : nat → pc; m_st : locks }.

Definition set_pc (h : nat) (p : pc) (f : nat → pc) : nat → pc := λ h', if decide (h' = h) then p else f h'.

Inductive mstep : machine → machine → Prop :=
| m_enter f s h lk :
    f h = Out → holding h lk s = false →
    mstep (Machine f s) (Machine (set_pc h (Swap lk) f) (set_cpu h (push_off_cpu (mycpu h s)) s))
| m_spin f s h lk :
    f h = Swap lk → locked (lk_of lk s) ≠ 0 → mstep (Machine f s) (Machine f s)
| m_swap f s h lk :
    f h = Swap lk → locked (lk_of lk s) = 0 →
    mstep (Machine f s) (Machine (set_pc h (Mark lk) f) (set_lk lk (Spin 1 (owner (lk_of lk s))) s))
| m_mark f s h lk :
    f h = Mark lk →
    mstep (Machine f s)
      (Machine (set_pc h (Crit lk) f) (set_lk lk (Spin (locked (lk_of lk s)) (Some h)) s))
| m_unmark f s h lk :
    f h = Crit lk → holding h lk s = true →
    mstep (Machine f s)
      (Machine (set_pc h (Unmark lk) f) (set_lk lk (Spin (locked (lk_of lk s)) None) s))
| m_clear f s h lk :
    f h = Unmark lk →
    mstep (Machine f s) (Machine (set_pc h (Pop lk) f) (set_lk lk (Spin 0 (owner (lk_of lk s))) s))
| m_pop f s h lk :
    f h = Pop lk → sie (mycpu h s) = false → 1 ≤ noff (mycpu h s) →
    mstep (Machine f s) (Machine (set_pc h Out f) (set_cpu h (pop_off_cpu (mycpu h s)) s)).

(** The hart is between its swap and the clearing of the lock word. *)
Definition owns (p : pc) (lk : nat) : Prop := p = Mark lk ∨ p = Crit lk ∨ p = Unmark lk.

Record minv (m : machine) : Prop := {
  mi_excl : ∀ h h' lk, owns (m_pc m h) lk → owns (m_pc m h') lk → h = h';
  mi_word : ∀ h lk, owns (m_pc m h) lk → locked (lk_of lk (m_st m)) ≠ 0;
  mi_held : ∀ lk, locked (lk_of lk (m_st m)) ≠ 0 → ∃ h, owns (m_pc m h) lk;
  mi_crit : ∀ h lk, m_pc m h = Crit lk → owner (lk_of lk (m_st m)) = Some h;
  mi_owner : ∀ h lk, owner (lk_of lk (m_st m)) = Some h → m_pc m h = Crit lk;
  mi_off : ∀ h, m_pc m h ≠ Out → sie (mycpu h (m_st m)) = false ∧ noff (mycpu h (m_st m)) = 1;
  mi_noff : ∀ h, m_pc m h = Out → noff (mycpu h (m_st m)) = 0
}.

(** ** Lemmas *)

Lemma lk_of_set lk v s lk' : lk_of lk' (set_lk lk v s) = if decide (lk' = lk) then v else lk_of lk' s.
Proof.
  unfold lk_of, set_lk. cbn. destruct (decide (lk' = lk)) as [->|Hne].
  - by rewrite lookup_insert_eq.
  - by rewrite lookup_insert_ne.
Qed.

Lemma mycpu_set h c s h' : mycpu h' (set_cpu h c s) = if decide (h' = h) then c else mycpu h' s.
Proof.
  unfold mycpu, set_cpu. cbn. destruct (decide (h' = h)) as [->|Hne].
  - by rewrite lookup_insert_eq.
  - by rewrite lookup_insert_ne.
Qed.

Lemma lk_of_set_cpu h c s lk : lk_of lk (set_cpu h c s) = lk_of lk s.
Proof. done. Qed.

Lemma mycpu_set_lk h lk v s : mycpu h (set_lk lk v s) = mycpu h s.
Proof. done. Qed.

(** Case analysis on who moved and which lock is meant. *)
Ltac lock_cases :=
  repeat first
    [ rewrite lk_of_set_cpu in * | rewrite mycpu_set_lk in * | rewrite lk_of_set in * | rewrite mycpu_set in * ];
  unfold set_pc in *;
  repeat match goal with
    | H : context [decide (?a = ?b)] |- _ => destruct (decide (a = b)); subst
    | |- context [decide (?a = ?b)] => destruct (decide (a = b)); subst
    end; cbn [locked owner noff intena sie push_off_cpu pop_off_cpu] in *.

Lemma set_pc_eq h p f : set_pc h p f h = p.
Proof. unfold set_pc. by rewrite decide_True. Qed.

Lemma set_pc_ne h p f h' : h' ≠ h → set_pc h p f h' = f h'.
Proof. intros Hne. unfold set_pc. by rewrite decide_False. Qed.

(** A hart that neither owned the lock before nor after its move changes nobody's
    ownership. *)
Lemma owns_same f h p lk : (owns p lk ↔ owns (f h) lk) → ∀ h', owns (set_pc h p f h') lk ↔ owns (f h') lk.
Proof.
  intros Hp h'. unfold set_pc. destruct (decide (h' = h)) as [->|]; done.
Qed.

(** *** One lemma per step *)

Section Steps.
Context (f : nat → pc) (s : locks) (h lk : nat) (Hinv : minv (Machine f s)).

Ltac open_inv := destruct Hinv as [He Hw Hh Hc Ho Hoff Hn]; cbn [m_pc m_st] in *.

Lemma minv_enter :
  f h = Out →  minv (Machine (set_pc h (Swap lk) f) (set_cpu h (push_off_cpu (mycpu h s)) s)).
Proof.
  intros Hp. open_inv.
  assert (∀ lk' h', owns (set_pc h (Swap lk) f h') lk' ↔ owns (f h') lk') as Hs.
  { intros lk'. apply owns_same. rewrite Hp. unfold owns. naive_solver. }
  split; cbn [m_pc m_st]; try setoid_rewrite Hs; try done.
  - intros h' lk'. lock_cases; [done|apply Hc].
  - intros h' lk' Hown. specialize (Ho h' lk' Hown). lock_cases; congruence.
  - intros h'. lock_cases; [|apply Hoff]. intros _. rewrite (Hn h Hp). lia.
  - intros h'. lock_cases; [done|apply Hn].
Qed.

Lemma minv_swap :
  f h = Swap lk → locked (lk_of lk s) = 0 →
  minv (Machine (set_pc h (Mark lk) f) (set_lk lk (Spin 1 (owner (lk_of lk s))) s)).
Proof.
  intros Hp Hl. open_inv.
  assert (∀ h', ¬ owns (f h') lk) as Hfree by (intros h' Hown; by apply (Hw h' lk)).
  assert (∀ h' lk', owns (set_pc h (Mark lk) f h') lk' ↔ (h' = h ∧ lk' = lk) ∨ owns (f h') lk') as Hs.
  { intros h' lk'. unfold set_pc. destruct (decide (h' = h)) as [->|]; [rewrite Hp|];
      unfold owns; naive_solver. }
  split; cbn [m_pc m_st]; try setoid_rewrite Hs.
  - intros h1 h2 lk' [[-> ->]|H1] [[-> H2]|H2]; try done; subst; [by destruct (Hfree h2)|by destruct (Hfree h1)|].
    by apply (He h1 h2 lk').
  - intros h' lk' [[-> ->]|Hown]; lock_cases; try done. by apply (Hw h').
  - intros lk'. lock_cases; [intros _; exists h; by left|]. intros Hl'. destruct (Hh lk' Hl') as [h' ?]. eauto.
  - intros h' lk'. unfold set_pc. destruct (decide (h' = h)); [done|]. intros Hcr. specialize (Hc h' lk' Hcr).
    by lock_cases.
  - intros h' lk' Hown. assert (owner (lk_of lk' s) = Some h') as Hown' by (by lock_cases).
    specialize (Ho h' lk' Hown'). rewrite set_pc_ne; [done|]. intros ->. congruence.
  - intros h'. lock_cases; [|apply Hoff]. intros _. apply Hoff. congruence.
  - intros h'. lock_cases; [done|apply Hn].
Qed.

Lemma minv_mark :
  f h = Mark lk →
  minv (Machine (set_pc h (Crit lk) f) (set_lk lk (Spin (locked (lk_of lk s)) (Some h)) s)).
Proof.
  intros Hp. open_inv.
  assert (∀ lk' h', owns (set_pc h (Crit lk) f h') lk' ↔ owns (f h') lk') as Hs.
  { intros lk'. apply owns_same. rewrite Hp. unfold owns. naive_solver. }
  assert (owns (f h) lk) as Hown by (rewrite Hp; by left).
  split; cbn [m_pc m_st]; try setoid_rewrite Hs; try done.
  - intros h' lk' Hl. specialize (Hw h' lk' Hl). by lock_cases.
  - intros lk' Hl. apply Hh. by lock_cases.
  - intros h' lk'. unfold set_pc. destruct (decide (h' = h)) as [->|Hne]; [intros [= ->]; by lock_cases|].
    intros Hcr. specialize (Hc h' lk' Hcr). lock_cases; [|done].
    destruct Hne. apply (He h' h lk); [rewrite Hcr; right; by left|done].
  - intros h' lk' Hl. lock_cases; try congruence; [by apply Ho in Hl; congruence|by apply Ho].
  - intros h'. lock_cases; [|apply Hoff]. intros _. apply Hoff. congruence.
  - intros h'. lock_cases; [done|apply Hn].
Qed.

Lemma minv_unmark :
  f h = Crit lk →
  minv (Machine (set_pc h (Unmark lk) f) (set_lk lk (Spin (locked (lk_of lk s)) None) s)).
Proof.
  intros Hp. open_inv.
  assert (∀ lk' h', owns (set_pc h (Unmark lk) f h') lk' ↔ owns (f h') lk') as Hs.
  { intros lk'. apply owns_same. rewrite Hp. unfold owns. naive_solver. }
  assert (owns (f h) lk) as Hown by (rewrite Hp; right; by left).
  split; cbn [m_pc m_st]; try setoid_rewrite Hs; try done.
  - intros h' lk' Hl. specialize (Hw h' lk' Hl). by lock_cases.
  - intros lk' Hl. apply Hh. by lock_cases.
  - intros h' lk'. unfold set_pc. destruct (decide (h' = h)) as [->|Hne]; [done|].
    intros Hcr. specialize (Hc h' lk' Hcr). lock_cases; [|done].
    destruct Hne. apply (He h' h lk); [rewrite Hcr; right; by left|done].
  - intros h' lk' Hl. lock_cases; try congruence; [by apply Ho in Hl; congruence|by apply Ho].
  - intros h'. lock_cases; [|apply Hoff]. intros _. apply Hoff. congruence.
  - intros h'. lock_cases; [done|apply Hn].
Qed.

Lemma minv_clear :
  f h = Unmark lk → minv (Machine (set_pc h (Pop lk) f) (set_lk lk (Spin 0 (owner (lk_of lk s))) s)).
Proof.
  intros Hp. open_inv.
  assert (owns (f h) lk) as Hown by (rewrite Hp; right; by right).
  assert (∀ h' lk', owns (set_pc h (Pop lk) f h') lk' ↔ owns (f h') lk' ∧ h' ≠ h) as Hs.
  { intros h' lk'. unfold set_pc. destruct (decide (h' = h)) as [->|]; unfold owns; naive_solver. }
  split; cbn [m_pc m_st]; try setoid_rewrite Hs.
  - intros h1 h2 lk' [H1 _] [H2 _]. by apply (He h1 h2 lk').
  - intros h' lk' [Hl Hne]. specialize (Hw h' lk' Hl). lock_cases; [|done].
    intros _. apply Hne. by apply (He h' h lk).
  - intros lk'. lock_cases; [done|]. intros Hl. destruct (Hh lk' Hl) as [h' Hl']. exists h'.
    split; [done|]. intros ->. unfold owns in Hl'. rewrite Hp in Hl'. naive_solver.
  - intros h' lk'. unfold set_pc. destruct (decide (h' = h)); [done|]. intros Hcr.
    specialize (Hc h' lk' Hcr). by lock_cases.
  - intros h' lk' Hl. assert (owner (lk_of lk' s) = Some h') as Hl' by (by lock_cases).
    specialize (Ho h' lk' Hl'). rewrite set_pc_ne; [done|]. intros ->. congruence.
  - intros h'. lock_cases; [|apply Hoff]. intros _. apply Hoff. congruence.
  - intros h'. lock_cases; [done|apply Hn].
Qed.

Lemma minv_pop :
  f h = Pop lk → minv (Machine (set_pc h Out f) (set_cpu h (pop_off_cpu (mycpu h s)) s)).
Proof.
  intros Hp. open_inv.
  assert (∀ lk' h', owns (set_pc h Out f h') lk' ↔ owns (f h') lk') as Hs.
  { intros lk'. apply owns_same. rewrite Hp. unfold owns. naive_solver. }
  split; cbn [m_pc m_st]; try setoid_rewrite Hs; try done.
  - intros h' lk'. lock_cases; [done|apply Hc].
  - intros h' lk' Hown. specialize (Ho h' lk' Hown). lock_cases; congruence.
  - intros h'. lock_cases; [done|apply Hoff].
  - intros h'. lock_cases; [|apply Hn]. intros _. destruct (Hoff h) as [_ ->]; [congruence|lia].
Qed.
End Steps.

Lemma minv_step m m' : minv m → mstep m m' → minv m'.
Proof.
  intros Hinv Hs. destruct Hs; auto using minv_swap, minv_mark, minv_unmark, minv_clear.
  - by apply minv_enter.
  - by eapply minv_pop.
Qed.

(** All harts out, all locks free, no [push_off] pending. *)
Definition quiet (m : machine) : Prop :=
  (∀ h, m_pc m h = Out ∧ noff (mycpu h (m_st m)) = 0) ∧ ∀ lk, lk_of lk (m_st m) = lock0.

Lemma minv_quiet m : quiet m → minv m.
Proof.
  intros [Hq Hl]. split.
  - intros h h' lk Ho. rewrite (proj1 (Hq h)) in Ho. unfold owns in Ho. naive_solver.
  - intros h lk Ho. rewrite (proj1 (Hq h)) in Ho. unfold owns in Ho. naive_solver.
  - intros lk. by rewrite Hl.
  - intros h lk Ho. by rewrite (proj1 (Hq h)) in Ho.
  - intros h lk. by rewrite Hl.
  - intros h Ho. by rewrite (proj1 (Hq h)) in Ho.
  - intros h _. apply Hq.
Qed.

Lemma minv_reach m m' : quiet m → rtc mstep m m' → minv m'.
Proof. intros Hq Hr. apply minv_quiet in Hq. induction Hr; eauto using minv_step. Qed.

(** ** The properties *)

(** C20: However the harts interleave, two of them are never in the critical
    section of the same lock; a hart in a critical section holds the lock by
    [holding], so its [release] does not panic, runs with interrupts off, and
    never panics in [pop_off] on the way out. *)
Theorem spinlock_mutual_exclusion m m' h lk :
  quiet m → rtc mstep m m' →
  (m_pc m' h = Crit lk →
     holding h lk (m_st m') = true ∧ sie (mycpu h (m_st m')) = false ∧
     ∀ h', m_pc m' h' = Crit lk → h' = h) ∧
  (m_pc m' h = Pop lk → ∃ s', pop_off h (m_st m') = Ok tt s').
Proof.
  intros Hq Hr. pose proof (minv_reach m m' Hq Hr) as [He Hw Hh Hc Ho Hoff Hn]. split.
  - intros Hp. assert (owns (m_pc m' h) lk) as Hown by (rewrite Hp; right; by left).
    split_and!; [|apply Hoff; congruence|].
    + unfold holding. rewrite (Hc h lk Hp), bool_decide_true, andb_true_r by done.
      specialize (Hw h lk Hown). lia.
    + intros h' Hp'. apply (He h' h lk); [rewrite Hp'; right; by left|done].
  - intros Hp. destruct (Hoff h) as [Hi Hno]; [congruence|].
    exists (set_cpu h (pop_off_cpu (mycpu h (m_st m'))) (m_st m')).
    unfold pop_off, panic_if, mbind, M_bind, gets. rewrite Hi, Hno. done.
Qed.

(** [push_off] and [pop_off] are matched: after [n] calls of the first and [k]
    of the second, interrupts are off while [k < n], and once [k = n] the hart
    is back in the state it started from, whether interrupts were on or off. *)
Theorem push_pop_balanced c n k :
  noff c = 0 → (1 ≤ n)%nat → (k ≤ n)%nat →
  let c' := Nat.iter k pop_off_cpu (Nat.iter n push_off_cpu c) in
  noff c' = Z.of_nat n - Z.of_nat k ∧ sie c' = if decide (k = n) then sie c else false.
Proof.
  intros Hc Hn Hk. assert (∀ n, (1 ≤ n)%nat → Nat.iter n push_off_cpu c = Cpu (Z.of_nat n) (sie c) false) as Hpush.
  { clear n k Hn Hk. intros n Hn. induction n as [|n IH]; [lia|]. cbn [Nat.iter nat_rect].
    destruct n as [|n]; [cbn; unfold push_off_cpu; by rewrite Hc|].
    change (push_off_cpu (Nat.iter (S n) push_off_cpu c) = Cpu (Z.of_nat (S (S n))) (sie c) false).
    rewrite IH by lia. unfold push_off_cpu. cbn [noff intena sie].
    clear IH. rewrite (proj2 (Z.eqb_neq _ 0)) by lia. f_equal. lia. }
  cbn zeta. rewrite Hpush by done.
  assert (Nat.iter k pop_off_cpu (Cpu (Z.of_nat n) (sie c) false) =
    Cpu (Z.of_nat n - Z.of_nat k) (sie c) (if decide (k = n) then sie c else false)) as ->; [|done].
  induction k as [|k IH].
  - rewrite decide_False by lia. cbn. f_equal. lia.
  - change (pop_off_cpu (Nat.iter k pop_off_cpu (Cpu (Z.of_nat n) (sie c) false)) =
      Cpu (Z.of_nat n - Z.of_nat (S k)) (sie c) (if decide (S k = n) then sie c else false)).
    rewrite IH, decide_False by lia. unfold pop_off_cpu. cbn [noff intena sie].
    destruct (decide (S k = n)) as [<-|Hne].
    + clear IH. rewrite (proj2 (Z.eqb_eq _ 0)) by lia. cbn. f_equal; [lia|]. by destruct (sie c).
    + clear IH. rewrite (proj2 (Z.eqb_neq _ 0)) by lia. cbn. f_equal. lia.
Qed.

Module SpinWitness.
Definition m0 : machine := Machine (λ _, Out) (Locks ∅ ∅).

Lemma m0_quiet : quiet m0.
Proof. done. Qed.

(** Hart 0 enters the critical section of lock 7. *)
Definition in_crit : ∃ m', rtc mstep m0 m' ∧ m_pc m' 0%nat = Crit 7.
Proof.
  eexists. split.
  - eapply rtc_l; [apply (m_enter _ _ 0%nat 7%nat); done|].
    eapply rtc_l; [apply (m_swap _ _ 0%nat 7%nat); done|].
    eapply rtc_l; [apply (m_mark _ _ 0%nat 7%nat); done|]. apply rtc_refl.
  - done.
Defined.

Lemma spinlock_mutual_exclusion_witness :
  ∃ m', rtc mstep m0 m' ∧ holding 0 7 (m_st m') = true.
Proof.
  destruct in_crit as (m' & Hr & Hp). exists m'. split; [exact Hr|].
  apply (proj1 (spinlock_mutual_exclusion m0 m' 0 7 m0_quiet Hr) Hp).
Defined.
End SpinWitness.
