(* ===== verification/Sleeplock.v ===== *)
(** * Sleep locks: [kernel/sleeplock.c]

    A sleep lock lives inside a larger structure (a buffer, an inode); the
    operations take the accessors of that structure.  The spin lock inside is
    seen as in the prelude; [pid] is [myproc()->pid].  [wakeup] changes only the
    process table, so it has no effect on this state; a process that finds
    the lock taken waits until it is free ([await]). *)

From S2P Require Import Prelude.

(** [struct sleeplock], without the name kept for debugging. *)
Record sleeplock := SL { sl_locked : Z; sl_lk : bool; sl_pid : Z }.

Section Sleeplock.
Context {S : Type} (get : S → sleeplock) (set : sleeplock → S → S) (pid : Z).

Definition sl_set_lk (b : bool) (s : S) : S := set (SL (sl_locked (get s)) b (sl_pid (get s))) s.
Definition sl_set_locked (v : Z) (s : S) : S := set (SL v (sl_lk (get s)) (sl_pid (get s))) s.
Definition sl_set_pid (v : Z) (s : S) : S := set (SL (sl_locked (get s)) (sl_lk (get s)) v) s.

Definition initsleeplock : M S unit := modify (set (SL 0 false 0)).

Definition acquiresleep : M S unit :=
  acquire (λ s, sl_lk (get s)) sl_set_lk;;
  await (λ s, sl_locked (get s) =? 0);;
  modify (sl_set_locked 1);;
  modify (sl_set_pid pid);;
  release (λ s, sl_lk (get s)) sl_set_lk.

Definition releasesleep : M S unit :=
  acquire (λ s, sl_lk (get s)) sl_set_lk;;
  modify (sl_set_locked 0);;
  modify (sl_set_pid 0);;
  release (λ s, sl_lk (get s)) sl_set_lk.

Definition holdingsleep : M S bool :=
  acquire (λ s, sl_lk (get s)) sl_set_lk;;
  r ← gets (λ s, negb (sl_locked (get s) =? 0) && (sl_pid (get s) =? pid));
  release (λ s, sl_lk (get s)) sl_set_lk;;
  mret r.

(** Writing then reading, and writing twice. *)
Hypothesis get_set : ∀ v s, get (set v s) = v.
Hypothesis set_set : ∀ v w s, set v (set w s) = set v s.

Lemma wp_acquiresleep Q s p :
  get s = SL 0 false p → Q tt (set (SL 1 false pid) s) → wp acquiresleep Q s.
Proof.
  intros Hs HQ. unfold acquiresleep, sl_set_lk, sl_set_locked, sl_set_pid.
  wp_simpl; rewrite ?Hs, ?get_set, ?set_set; cbn; done.
Qed.

Lemma wp_releasesleep Q s v p :
  get s = SL v false p → Q tt (set (SL 0 false 0) s) → wp releasesleep Q s.
Proof.
  intros Hs HQ. unfold releasesleep, sl_set_lk, sl_set_locked, sl_set_pid.
  wp_simpl; rewrite ?Hs, ?get_set, ?set_set; cbn; done.
Qed.

Lemma wp_holdingsleep Q s v p :
  get s = SL v false p → Q (negb (v =? 0) && (p =? pid)) (set (get s) s) → wp holdingsleep Q s.
Proof.
  intros Hs HQ. unfold holdingsleep, sl_set_lk. wp_simpl; rewrite ?Hs, ?get_set, ?set_set; cbn; try done.
  by rewrite Hs in HQ.
Qed.
End Sleeplock.
