(* ===== verification/BufIface.v ===== *)
(** * The buffer cache as its clients see it

    [kernel/log.c] and [kernel/fs.c] read and write disk blocks only through
    the buffer cache ([kernel/bio.c]).  The operations are one class; the
    promise is another, stated on an abstract view of the cache: the disk, the
    writes it received in order, and the current contents, holders and pins of
    the blocks.  [BioCorrect] shows that the LRU cache keeps the promise. *)

From S2P Require Import Prelude Mem Layout.

Definition BSIZE : Z := 1024.

(** A disk maps block numbers to the bytes of the blocks. *)
Abbreviation disk := (gmap Z mem).
Definition dblk (d : disk) (b : Z) : mem := default ∅ (d !! b).

(** Writes applied in order; a crash keeps a prefix of them. *)
Definition dwrite (d : disk) (w : Z * mem) : disk := <[w.1 := w.2]> d.
Definition dwrites (ws : list (Z * mem)) (d : disk) : disk := foldl dwrite d ws.

Class BufOps (S : Type) := {
  bo_boot : disk → S;            (* memory after a reset, with this disk *)
  bo_binit : M S unit;
  bo_bread : Z → Z → M S Z;
  bo_bwrite : Z → M S unit;
  bo_brelse : Z → M S unit;
  bo_bpin : Z → M S unit;
  bo_bunpin : Z → M S unit;
  bo_blockno : Z → S → Z;        (* b->blockno *)
  bo_data : Z → S → mem;         (* b->data *)
  bo_set_data : Z → mem → S → S
}.

(** [bv_over]: contents of blocks that may differ from the disk's.
    [bv_held]: the buffers this process holds, with their block numbers.
    [bv_pin]: the pinned blocks. *)
Record bview := BView {
  bv_disk : disk;
  bv_trace : list (Z * mem);
  bv_over : gmap Z mem;
  bv_held : gmap Z Z;
  bv_pin : gset Z
}.

Definition bv_cur (v : bview) (b : Z) : mem := default (dblk (bv_disk v) b) (bv_over v !! b).

Definition v_hold (b bno : Z) (v : bview) : bview :=
  BView (bv_disk v) (bv_trace v) (bv_over v) (<[b := bno]> (bv_held v)) (bv_pin v).
Definition v_drop (b : Z) (v : bview) : bview :=
  BView (bv_disk v) (bv_trace v) (bv_over v) (delete b (bv_held v)) (bv_pin v).
Definition v_set (bno : Z) (m : mem) (v : bview) : bview :=
  BView (bv_disk v) (bv_trace v) (<[bno := m]> (bv_over v)) (bv_held v) (bv_pin v).
Definition v_write (bno : Z) (v : bview) : bview :=
  BView (dwrite (bv_disk v) (bno, bv_cur v bno)) (bv_trace v ++ [(bno, bv_cur v bno)])
    (bv_over v) (bv_held v) (bv_pin v).
Definition v_pin (bno : Z) (v : bview) : bview :=
  BView (bv_disk v) (bv_trace v) (bv_over v) (bv_held v) (bv_pin v ∪ {[bno]}).
Definition v_unpin (bno : Z) (v : bview) : bview :=
  BView (bv_disk v) (bv_trace v) (bv_over v) (bv_held v) (bv_pin v ∖ {[bno]}).

(** Blocks that keep a buffer busy. *)
Definition bv_used (v : bview) : gset Z := bv_pin v ∪ map_img (bv_held v).

Class BufSpec (S : Type) `{BufOps S} := {
  bo_ok : bview → S → Prop;

  bo_boot_spec d : wp bo_binit (λ _, bo_ok (BView d [] ∅ ∅ ∅)) (bo_boot d);

  bo_data_spec v s b bno :
    bo_ok v s → bv_held v !! b = Some bno →
    bo_data b s = bv_cur v bno ∧ bo_blockno b s = bno;

  bo_set_data_spec v s b bno m :
    bo_ok v s → bv_held v !! b = Some bno → bo_ok (v_set bno m v) (bo_set_data b m s);

  (** [bread] returns when the block has a buffer or a buffer is free, and the
      caller does not hold the block already. *)
  bo_bread_spec v s bno :
    bo_ok v s → bno ∉ (map_img (bv_held v) : gset Z) →
    bno ∈ bv_pin v ∨ Z.of_nat (size (bv_used v)) < NBUF →
    wp (bo_bread ROOTDEV bno) (λ b s', bv_held v !! b = None ∧ bo_ok (v_hold b bno v) s') s;

  (** Otherwise every buffer is busy and it stops the machine. *)
  bo_bread_full v s bno :
    bo_ok v s → bno ∉ bv_used v → Z.of_nat (size (bv_used v)) = NBUF →
    bo_bread ROOTDEV bno s = Panic "bget: no buffers";

  bo_bwrite_spec v s b bno :
    bo_ok v s → bv_held v !! b = Some bno → wp (bo_bwrite b) (λ _, bo_ok (v_write bno v)) s;

  (** A buffer is given back clean, or pinned. *)
  bo_brelse_spec v s b bno :
    bo_ok v s → bv_held v !! b = Some bno →
    bno ∈ bv_pin v ∨ bv_cur v bno = dblk (bv_disk v) bno →
    wp (bo_brelse b) (λ _, bo_ok (v_drop b v)) s;

  bo_bpin_spec v s b bno :
    bo_ok v s → bv_held v !! b = Some bno → bno ∉ bv_pin v →
    wp (bo_bpin b) (λ _, bo_ok (v_pin bno v)) s;

  bo_bunpin_spec v s b bno :
    bo_ok v s → bv_held v !! b = Some bno → bno ∈ bv_pin v →
    wp (bo_bunpin b) (λ _, bo_ok (v_unpin bno v)) s
}.
