(* ===== verification/Bio.v ===== *)
(** * The buffer cache: [kernel/bio.c]

    The cache is [NBUF] buffers linked in a circular list through a head,
    most recently used first.  A buffer pointer is the index of the buffer;
    [HEAD] is [bcache.head].  The driver appears as its contract: a read fills
    the data from the disk, a write is appended to the trace of the disk;
    like [virtio_disk_rw] both look at the block number only. *)

From S2P Require Import Prelude Mem Layout Sleeplock BufIface.

(** [struct buf]; the [disk] flag belongs to the driver. *)
Record buf := Buf {
  b_valid : Z;
  b_dev : Z;
  b_blockno : Z;
  b_lock : sleeplock;
  b_refcnt : Z;
  b_prev : Z;
  b_next : Z;
  b_data : mem
}.

(** [bcache] and the disk. *)
Record bcache := BCache {
  bc_lock : bool;
  bc_buf : gmap Z buf;
  bc_disk : disk;
  bc_trace : list (Z * mem)
}.

Definition HEAD : Z := NBUF.

Definition buf0 : buf := Buf 0 0 0 (SL 0 false 0) 0 0 0 ∅.
Definition getb (i : Z) (s : bcache) : buf := default buf0 (bc_buf s !! i).
Definition setb (i : Z) (b : buf) (s : bcache) : bcache :=
  BCache (bc_lock s) (<[i := b]> (bc_buf s)) (bc_disk s) (bc_trace s).
Definition set_bc_lock (l : bool) (s : bcache) : bcache :=
  BCache l (bc_buf s) (bc_disk s) (bc_trace s).

Definition set_valid (v : Z) (b : buf) : buf :=
  Buf v (b_dev b) (b_blockno b) (b_lock b) (b_refcnt b) (b_prev b) (b_next b) (b_data b).
Definition set_dev (v : Z) (b : buf) : buf :=
  Buf (b_valid b) v (b_blockno b) (b_lock b) (b_refcnt b) (b_prev b) (b_next b) (b_data b).
Definition set_blockno (v : Z) (b : buf) : buf :=
  Buf (b_valid b) (b_dev b) v (b_lock b) (b_refcnt b) (b_prev b) (b_next b) (b_data b).
Definition set_lock (v : sleeplock) (b : buf) : buf :=
  Buf (b_valid b) (b_dev b) (b_blockno b) v (b_refcnt b) (b_prev b) (b_next b) (b_data b).
Definition set_refcnt (v : Z) (b : buf) : buf :=
  Buf (b_valid b) (b_dev b) (b_blockno b) (b_lock b) v (b_prev b) (b_next b) (b_data b).
Definition set_prev (v : Z) (b : buf) : buf :=
  Buf (b_valid b) (b_dev b) (b_blockno b) (b_lock b) (b_refcnt b) v (b_next b) (b_data b).
Definition set_next (v : Z) (b : buf) : buf :=
  Buf (b_valid b) (b_dev b) (b_blockno b) (b_lock b) (b_refcnt b) (b_prev b) v (b_data b).
Definition set_data (v : mem) (b : buf) : buf :=
  Buf (b_valid b) (b_dev b) (b_blockno b) (b_lock b) (b_refcnt b) (b_prev b) (b_next b) v.

(** [b->field = value], the value read off the current state. *)
Definition bupd (i : Z) (f : bcache → buf → buf) : M bcache unit :=
  modify (λ s, setb i (f s (getb i s)) s).
Definition bupd_at (i : bcache → Z) (f : bcache → buf → buf) : M bcache unit :=
  modify (λ s, setb (i s) (f s (getb (i s) s)) s).

Definition nx (s : bcache) (i : Z) : Z := b_next (getb i s).
Definition pv (s : bcache) (i : Z) : Z := b_prev (getb i s).

Definition get_block (i : Z) (s : bcache) : sleeplock := b_lock (getb i s).
Definition set_block (i : Z) (l : sleeplock) (s : bcache) : bcache := setb i (set_lock l (getb i s)) s.

Section Bio.
Context (pid : Z).    (* myproc()->pid *)

(** [b->next->prev = b->prev; b->prev->next = b->next;] *)
Definition unlink (b : Z) : M bcache unit :=
  bupd_at (λ s, nx s b) (λ s, set_prev (pv s b));;
  bupd_at (λ s, pv s b) (λ s, set_next (nx s b)).

(** Linking a buffer in front: its own links, then its neighbours'. *)
Definition link_front (b : Z) : M bcache unit :=
  bupd b (λ s, set_next (nx s HEAD));;
  bupd b (λ s, set_prev HEAD).
Definition link_back (b : Z) : M bcache unit :=
  bupd_at (λ s, nx s HEAD) (λ s, set_prev b);;
  bupd HEAD (λ s, set_next b).

Definition binit : M bcache unit :=
  modify (set_bc_lock false);;
  bupd HEAD (λ _, set_prev HEAD);;
  bupd HEAD (λ _, set_next HEAD);;
  for_each (seqZ 0 NBUF) (λ b,
    link_front b;;
    initsleeplock (set_block b);;
    link_back b).

(** Walk the list from [b] along [step] until the head, or a buffer that
    satisfies [p]. *)
Definition scan (step : bcache → Z → Z) (p : bcache → Z → bool) : Z → M bcache (option Z) :=
  loop (Z.to_nat NBUF + 1) (λ b,
    if b =? HEAD then mret (inr None) else
    gets (λ s, (p s b, step s b)) ≫= λ r : bool * Z,
    if r.1 then mret (inr (Some b)) else mret (inl r.2)).

Definition bget (dev blockno : Z) : M bcache Z :=
  acquire bc_lock set_bc_lock;;
  h ← gets (λ s, nx s HEAD);
  r ← scan nx (λ s b, (b_dev (getb b s) =? dev) && (b_blockno (getb b s) =? blockno)) h;
  match r with
  | Some b =>
      bupd b (λ s b, set_refcnt (u32 (b_refcnt b + 1)) b);;
      release bc_lock set_bc_lock;;
      acquiresleep (get_block b) (set_block b) pid;;
      mret b
  | None =>
      h ← gets (λ s, pv s HEAD);
      r ← scan pv (λ s b, b_refcnt (getb b s) =? 0) h;
      match r with
      | Some b =>
          bupd b (λ _, set_dev dev);;
          bupd b (λ _, set_blockno blockno);;
          bupd b (λ _, set_valid 0);;
          bupd b (λ _, set_refcnt 1);;
          release bc_lock set_bc_lock;;
          acquiresleep (get_block b) (set_block b) pid;;
          mret b
      | None => panic "bget: no buffers"
      end
  end.

(** What [virtio_disk_rw] does, seen from outside: the request is complete
    when it returns. *)
Definition disk_rw (b : Z) (write : bool) : M bcache unit :=
  if write then
    modify (λ s, let w := (b_blockno (getb b s), b_data (getb b s)) in
                 BCache (bc_lock s) (bc_buf s) (dwrite (bc_disk s) w) (bc_trace s ++ [w]))
  else bupd b (λ s b, set_data (dblk (bc_disk s) (b_blockno b)) b).

Definition bread (dev blockno : Z) : M bcache Z :=
  b ← bget dev blockno;
  gets (λ s, b_valid (getb b s) =? 0) ≫= λ c : bool,
  (if c then disk_rw b false;; bupd b (λ _, set_valid 1) else mret tt);;
  mret b.

Definition bwrite (b : Z) : M bcache unit :=
  h ← holdingsleep (get_block b) (set_block b) pid;
  panic_if (negb h) "bwrite";;
  disk_rw b true.

Definition brelse (b : Z) : M bcache unit :=
  h ← holdingsleep (get_block b) (set_block b) pid;
  panic_if (negb h) "brelse";;
  releasesleep (get_block b) (set_block b);;
  acquire bc_lock set_bc_lock;;
  bupd b (λ s b, set_refcnt (u32 (b_refcnt b - 1)) b);;
  gets (λ s, b_refcnt (getb b s) =? 0) ≫= λ c : bool,
  (if c then
     unlink b;;
     link_front b;;
     link_back b
   else mret tt);;
  release bc_lock set_bc_lock.

Definition bpin (b : Z) : M bcache unit :=
  acquire bc_lock set_bc_lock;;
  bupd b (λ s b, set_refcnt (u32 (b_refcnt b + 1)) b);;
  release bc_lock set_bc_lock.

Definition bunpin (b : Z) : M bcache unit :=
  acquire bc_lock set_bc_lock;;
  bupd b (λ s b, set_refcnt (u32 (b_refcnt b - 1)) b);;
  release bc_lock set_bc_lock.

#[export] Instance bio_ops : BufOps bcache := {|
  bo_boot := λ d, BCache false ∅ d [];
  bo_binit := binit;
  bo_bread := bread;
  bo_bwrite := bwrite;
  bo_brelse := brelse;
  bo_bpin := bpin;
  bo_bunpin := bunpin;
  bo_blockno := λ b s, b_blockno (getb b s);
  bo_data := λ b s, b_data (getb b s);
  bo_set_data := λ b m s, setb b (set_data m (getb b s)) s
|}.
End Bio.
