(* ===== verification/BioCorrect.v ===== *)
(** * The LRU buffer cache keeps the promise of [BufIface]

    [seg n p a l b]: following [n] from [a] visits [l] and then [b], and [p]
    goes back the same way.  The list of the cache is a segment from the head
    to itself.  The first lemmas are about unlinking a member and linking one in
    front, the two steps of [brelse].

    The invariant relates the cache to the abstract view: the buffers form one
    circular list, no block has two buffers, a buffer's reference count is its
    holders plus its pins, and a block whose buffer may be recycled has the
    same contents on the disk. *)

From S2P Require Import Prelude Mem Layout Sleeplock BufIface Bio.

Fixpoint seg (n p : Z → Z) (a : Z) (l : list Z) (b : Z) : Prop :=
  match l with
  | [] => n a = b ∧ p b = a
  | x :: l' => n a = x ∧ p x = a ∧ seg n p x l' b
  end.

(** Following [f] from [a] visits [l] and then [b]. *)
Fixpoint path (f : Z → Z) (a : Z) (l : list Z) (b : Z) : Prop :=
  match l with
  | [] => f a = b
  | x :: l' => f a = x ∧ path f x l' b
  end.

Section Seg.
Implicit Types (n p : Z → Z) (l : list Z).

Lemma seg_path n p a l b : seg n p a l b → path n a l b.
Proof. revert a. induction l as [|x l IH]; intros a; simpl; naive_solver. Qed.

Lemma path_snoc f a l x b : path f a l x → f x = b → path f a (l ++ [x]) b.
Proof. revert a. induction l as [|y l IH]; intros a; simpl; naive_solver. Qed.

Lemma seg_path_back n p a l b : seg n p a l b → path p b (reverse l) a.
Proof.
  revert a. induction l as [|x l IH]; intros a; simpl; [naive_solver|].
  intros (_ & Hp & Hs). rewrite reverse_cons. apply path_snoc; auto.
Qed.

Lemma seg_ext n p n' p' a l b :
  (∀ x, x ∈ a :: l → n' x = n x) → (∀ x, x ∈ l ++ [b] → p' x = p x) →
  seg n p a l b → seg n' p' a l b.
Proof.
  revert a. induction l as [|x l IH]; intros a Hn Hp; simpl.
  - rewrite Hn, Hp by set_solver. done.
  - rewrite Hn, Hp by set_solver. intros (? & ? & Hs). split_and!; [done..|].
    apply IH; [set_solver..|done].
Qed.

Lemma seg_prev_in n p a l1 x l2 b : seg n p a (l1 ++ x :: l2) b → p x ∈ a :: l1.
Proof.
  revert a. induction l1 as [|y l1 IH]; intros a; simpl.
  - intros (_ & -> & _). set_solver.
  - intros (_ & _ & Hs). apply IH in Hs. set_solver.
Qed.

Lemma seg_next_in n p a l1 x l2 b : seg n p a (l1 ++ x :: l2) b → n x ∈ l2 ++ [b].
Proof.
  revert a. induction l1 as [|y l1 IH]; intros a; simpl.
  - intros (_ & _ & Hs). destruct l2; simpl in Hs; [destruct Hs as [-> _]|destruct Hs as [-> _]]; set_solver.
  - intros (_ & _ & Hs). by apply IH in Hs.
Qed.

Section Unlink.
Context (n p n' p' : Z → Z) (x b : Z).
Hypothesis Hn' : ∀ j, n' j = if decide (j = p x) then n x else n j.
Hypothesis Hp' : ∀ j, p' j = if decide (j = n x) then p x else p j.

Lemma seg_unlink a l1 l2 :
  NoDup (a :: l1 ++ x :: l2) → b ∉ l1 ++ x :: l2 →
  seg n p a (l1 ++ x :: l2) b → seg n' p' a (l1 ++ l2) b.
Proof.
  revert a. induction l1 as [|z l1 IH]; intros a Hnd Hb; simpl.
  - intros (Ha & Hpx & Hs). apply NoDup_cons in Hnd as [Hax Hnd]. apply NoDup_cons in Hnd as [Hx Hnd].
    destruct l2 as [|y l2]; simpl in *.
    + destruct Hs as [Hx1 Hx2]. by rewrite Hn', Hp', !decide_True by done.
    + destruct Hs as (Hx1 & Hx2 & Hs). apply NoDup_cons in Hnd as [Hy Hnd].
      rewrite Hn', Hp', !decide_True by done. split_and!; [done..|].
      eapply seg_ext; [| |exact Hs]; intros j Hj.
      * rewrite Hn', decide_False; [done|]. rewrite Hpx. clear -Hax Hj. set_solver.
      * rewrite Hp', decide_False; [done|]. rewrite Hx1. clear -Hb Hy Hj. set_solver.
  - intros (Ha & Hpz & Hs). apply NoDup_cons in Hnd as [Hax Hnd].
    pose proof (seg_prev_in _ _ _ _ _ _ _ Hs) as H1. pose proof (seg_next_in _ _ _ _ _ _ _ Hs) as H2.
    split_and!.
    + rewrite Hn', decide_False; [done|]. clear -Hax H1. set_solver.
    + rewrite Hp', decide_False; [done|]. apply NoDup_cons in Hnd as [Hz _]. clear -Hb Hz H2. set_solver.
    + apply IH; [done|clear -Hb; set_solver|done].
Qed.
End Unlink.

Lemma seg_front n p n' p' h l x :
  NoDup (x :: h :: l) → seg n p h l h →
  n' x = n h → n' h = x → p' x = h → p' (n h) = x →
  (∀ j, j ≠ x → j ≠ h → n' j = n j) → (∀ j, j ≠ x → j ≠ n h → p' j = p j) →
  seg n' p' h (x :: l) h.
Proof.
  intros Hnd Hs Hnx Hnh Hpx Hpn Hn Hp. simpl. split_and!; [done..|].
  apply NoDup_cons in Hnd as [Hx Hnd]. apply NoDup_cons in Hnd as [Hh Hnd].
  destruct l as [|y l]; simpl in *.
  - destruct Hs as [Hs1 Hs2]. split; congruence.
  - destruct Hs as (Hs1 & Hs2 & Hs). apply NoDup_cons in Hnd as [Hy Hnd].
    split_and!; [congruence..|]. eapply seg_ext; [| |exact Hs]; intros j Hj.
    + apply Hn; clear -Hx Hh Hj; set_solver.
    + apply Hp; [|rewrite Hs1]; clear -Hx Hh Hy Hj; set_solver.
Qed.
End Seg.

Definition idx (i : Z) : Prop := 0 ≤ i < NBUF.

Definition is_held (v : bview) (i : Z) : bool := bool_decide (is_Some (bv_held v !! i)).
Definition is_pinned (v : bview) (b : buf) : bool :=
  bool_decide (b_dev b = ROOTDEV ∧ b_blockno b ∈ bv_pin v).

(** The contents of the buffers; the links play no part. *)
Record cok (pid : Z) (v : bview) (g : Z → buf) : Prop := {
  ok_uniq : ∀ i j, idx i → idx j → b_dev (g i) = ROOTDEV → b_dev (g j) = ROOTDEV →
    b_blockno (g i) = b_blockno (g j) → i = j;
  ok_ref : ∀ i, idx i →
    b_refcnt (g i) = Z.b2z (is_held v i) + Z.b2z (is_pinned v (g i));
  ok_held : ∀ i bno, bv_held v !! i = Some bno →
    idx i ∧ b_dev (g i) = ROOTDEV ∧ b_blockno (g i) = bno ∧ b_valid (g i) ≠ 0;
  ok_lock : ∀ i, idx i → b_lock (g i) = if is_held v i then SL 1 false pid else SL 0 false 0;
  ok_pin : ∀ bno, bno ∈ bv_pin v →
    ∃ i, idx i ∧ b_dev (g i) = ROOTDEV ∧ b_blockno (g i) = bno;
  ok_data : ∀ i, idx i → b_dev (g i) = ROOTDEV → b_valid (g i) ≠ 0 →
    b_data (g i) = bv_cur v (b_blockno (g i));
  ok_valid : ∀ i, idx i → b_dev (g i) = ROOTDEV → b_valid (g i) ≠ 0;
  ok_clean : ∀ bno, bno ∉ bv_used v → bv_cur v bno = dblk (bv_disk v) bno
}.

Definition ring (s : bcache) : Prop := ∃ l, l ≡ₚ seqZ 0 NBUF ∧ seg (nx s) (pv s) HEAD l HEAD.

Definition bok (pid : Z) (v : bview) (s : bcache) : Prop :=
  bc_lock s = false ∧ bc_disk s = bv_disk v ∧ bc_trace s = bv_trace v ∧
  ring s ∧ cok pid v (λ i, getb i s).

(** ** Basic facts *)

Lemma getb_setb i j b s : getb j (setb i b s) = if decide (j = i) then b else getb j s.
Proof.
  unfold getb, setb. cbn. destruct (decide (j = i)) as [->|Hne].
  - by rewrite lookup_insert_eq.
  - by rewrite lookup_insert_ne.
Qed.

Lemma getb_lock l s i : getb i (set_bc_lock l s) = getb i s.
Proof. done. Qed.

(** Equal but for the links. *)
Definition same_buf (b b' : buf) : Prop :=
  b_valid b = b_valid b' ∧ b_dev b = b_dev b' ∧ b_blockno b = b_blockno b' ∧
  b_lock b = b_lock b' ∧ b_refcnt b = b_refcnt b' ∧ b_data b = b_data b'.

Lemma same_buf_eq b b' :
  same_buf b b' →
  b = Buf (b_valid b') (b_dev b') (b_blockno b') (b_lock b') (b_refcnt b') (b_prev b) (b_next b) (b_data b').
Proof. destruct b, b'. unfold same_buf. cbn. naive_solver. Qed.

Lemma cok_ext pid v g g' : (∀ i, idx i → same_buf (g' i) (g i)) → cok pid v g → cok pid v g'.
Proof.
  intros Hg [U R H L P D V C]. split; try done.
  - intros i j Hi Hj. destruct (Hg i Hi) as (_ & -> & -> & _), (Hg j Hj) as (_ & -> & -> & _).
    by apply U.
  - intros i Hi. unfold is_pinned. destruct (Hg i Hi) as (_ & -> & -> & _ & -> & _). by apply R.
  - intros i bno Hh. destruct (H i bno Hh) as (Hi & ?). split; [done|].
    destruct (Hg i Hi) as (-> & -> & -> & _). done.
  - intros i Hi. destruct (Hg i Hi) as (_ & _ & _ & -> & _). by apply L.
  - intros bno Hb. destruct (P bno Hb) as (i & Hi & ?). exists i. split; [done|].
    destruct (Hg i Hi) as (_ & -> & -> & _). done.
  - intros i Hi. destruct (Hg i Hi) as (-> & -> & -> & _ & _ & ->). by apply D.
  - intros i Hi. destruct (Hg i Hi) as (-> & -> & _). by apply V.
Qed.

Lemma idx_seqZ i : idx i ↔ i ∈ seqZ 0 NBUF.
Proof. rewrite elem_of_seqZ. unfold idx. lia. Qed.

Lemma ring_idx l i : l ≡ₚ seqZ 0 NBUF → i ∈ l ↔ idx i.
Proof. intros ->. by rewrite idx_seqZ. Qed.

Lemma ring_NoDup l : l ≡ₚ seqZ 0 NBUF → NoDup (HEAD :: l).
Proof.
  intros Hl. apply NoDup_cons. split; [|rewrite Hl; apply NoDup_seqZ].
  rewrite (ring_idx l HEAD Hl). unfold idx, HEAD, NBUF, MAXOPBLOCKS. lia.
Qed.

(** A loop over the list finds the first member that satisfies the test. *)
Lemma wp_scan step q l s Q :
  path (step s) HEAD l HEAD → HEAD ∉ l → (length l ≤ Z.to_nat NBUF)%nat →
  Q (List.find (q s) l) s → wp (scan step q (step s HEAD)) Q s.
Proof.
  unfold scan. intros Hp Hh Hlen HQ. generalize dependent (Z.to_nat NBUF). intros k Hlen.
  generalize dependent HEAD. intros h.
  assert (∀ a, path (step s) a l h → h ∉ l → Q (List.find (q s) l) s →
    wp (loop (k + 1) (λ b, if b =? h then mret (inr None)
      else gets (λ s0, (q s0 b, step s0 b)) ≫= λ r : bool * Z,
        if r.1 then mret (inr (Some b)) else mret (inl r.2)) (step s a)) Q s) as Hgen;
    [|intros Hp Hh; by apply Hgen].
  clear HQ. revert k Hlen. induction l as [|x l IH]; intros k Hlen a Hp Hh HQ; simpl in *.
  - rewrite Nat.add_1_r. apply wp_loop_S. rewrite Hp, Z.eqb_refl. done.
  - destruct Hp as [-> Hp]. apply not_elem_of_cons in Hh as [Hne Hh].
    destruct k as [|k]; [lia|]. rewrite Nat.add_1_r. apply wp_loop_S.
    rewrite (proj2 (Z.eqb_neq x h)) by congruence. wp_simpl. cbn [fst snd].
    destruct (q s x); [done|]. rewrite wp_ret, <-Nat.add_1_r. apply IH; [lia|done..].
Qed.

Lemma ring_scan_nx q s Q :
  ring s → (∀ l, l ≡ₚ seqZ 0 NBUF → Q (List.find (q s) l) s) → wp (scan nx q (nx s HEAD)) Q s.
Proof.
  intros (l & Hl & Hs) HQ. pose proof (ring_NoDup l Hl) as [? _]%NoDup_cons.
  apply wp_scan with l; [by eapply seg_path|done| |by apply HQ].
  rewrite Hl, length_seqZ. lia.
Qed.

Lemma ring_scan_pv q s Q :
  ring s → (∀ l, l ≡ₚ seqZ 0 NBUF → Q (List.find (q s) l) s) → wp (scan pv q (pv s HEAD)) Q s.
Proof.
  intros (l & Hl & Hs) HQ. pose proof (ring_NoDup l Hl) as [? _]%NoDup_cons.
  apply wp_scan with (reverse l); [by eapply seg_path_back|by rewrite elem_of_reverse| |].
  - rewrite length_reverse, Hl, length_seqZ. lia.
  - apply HQ. by rewrite reverse_Permutation.
Qed.

Lemma find_idx q l b : l ≡ₚ seqZ 0 NBUF → List.find q l = Some b → idx b ∧ q b = true.
Proof.
  intros Hl Hf. apply List.find_some in Hf as [Hin Hq]. split; [|done].
  by apply (ring_idx l), list_elem_of_In.
Qed.

Lemma find_none q l i : l ≡ₚ seqZ 0 NBUF → List.find q l = None → idx i → q i = false.
Proof.
  intros Hl Hf Hi. eapply List.find_none; [exact Hf|]. by apply list_elem_of_In, (ring_idx l).
Qed.

(** ** The view's transitions on the contents *)

Definition upd (b : Z) (B : buf) (g : Z → buf) (i : Z) : buf := if decide (i = b) then B else g i.

Lemma bupd_eq b B g : upd b B g b = B.
Proof. unfold upd. by rewrite decide_True. Qed.
Lemma bupd_ne b B g i : i ≠ b → upd b B g i = g i.
Proof. intros. unfold upd. by rewrite decide_False. Qed.

Lemma elem_of_held (v : bview) x : x ∈ (map_img (bv_held v) : gset Z) ↔ ∃ b, bv_held v !! b = Some x.
Proof. by rewrite elem_of_map_img. Qed.

Lemma elem_of_used v x : x ∈ bv_used v ↔ x ∈ bv_pin v ∨ ∃ b, bv_held v !! b = Some x.
Proof. unfold bv_used. by rewrite elem_of_union, elem_of_held. Qed.

Lemma is_held_hold v b bno i : is_held (v_hold b bno v) i = bool_decide (i = b) || is_held v i.
Proof.
  unfold is_held, v_hold. cbn. destruct (decide (i = b)) as [->|Hne].
  - rewrite lookup_insert_eq, (bool_decide_true (b = b)), bool_decide_true by eauto. done.
  - rewrite lookup_insert_ne by done. by rewrite (bool_decide_false (i = b)).
Qed.

Lemma is_held_drop v b i : is_held (v_drop b v) i = negb (bool_decide (i = b)) && is_held v i.
Proof.
  unfold is_held, v_drop. cbn. destruct (decide (i = b)) as [->|Hne].
  - rewrite lookup_delete_eq, (bool_decide_true (b = b)), bool_decide_false; [done| |done].
    by intros [? ?].
  - rewrite lookup_delete_ne by done. by rewrite (bool_decide_false (i = b)).
Qed.

Lemma is_held_None v i : bv_held v !! i = None → is_held v i = false.
Proof. intros H. unfold is_held. rewrite H. apply bool_decide_false. by intros [? ?]. Qed.

Lemma is_held_Some v i x : bv_held v !! i = Some x → is_held v i = true.
Proof. intros H. unfold is_held. rewrite H. apply bool_decide_true. eauto. Qed.

Lemma is_pinned_at v B : b_dev B = ROOTDEV → is_pinned v B = bool_decide (b_blockno B ∈ bv_pin v).
Proof. intros H. unfold is_pinned. apply bool_decide_ext. naive_solver. Qed.

Ltac at_buf i b := destruct (decide (i = b)) as [->|]; [rewrite ?bupd_eq in *|rewrite ?bupd_ne in * by done].

Section Transitions.
Context (pid : Z) (v : bview) (g : Z → buf) (Hok : cok pid v g) (b : Z).

Ltac open_ok := destruct Hok as [U R H L P D V C].

Lemma cok_hold bno B :
  idx b → bv_held v !! b = None → bno ∉ (map_img (bv_held v) : gset Z) →
  (∀ j, idx j → j ≠ b → b_dev (g j) = ROOTDEV → b_blockno (g j) ≠ bno) →
  (is_pinned v (g b) = true → b_blockno (g b) = bno) →
  b_valid B ≠ 0 → b_dev B = ROOTDEV → b_blockno B = bno → b_lock B = SL 1 false pid →
  b_refcnt B = 1 + Z.b2z (bool_decide (bno ∈ bv_pin v)) → b_data B = bv_cur v bno →
  cok pid (v_hold b bno v) (upd b B g).
Proof.
  intros Hb Hnh Hni Hoth Hpb BV BD BN BL BR BX. open_ok. split.
  - intros i j Hi Hj. at_buf i b; at_buf j b; rewrite ?BN; try done.
    + intros _ Hd Heq. by destruct (Hoth j Hj ltac:(done) Hd).
    + intros Hd _ Heq. by destruct (Hoth i Hi ltac:(done) Hd).
    + by apply U.
  - intros i Hi. rewrite is_held_hold. at_buf i b.
    + rewrite (is_pinned_at _ B BD), BR, BN, (bool_decide_true (b = b)) by done. done.
    + rewrite (bool_decide_false (i = b)) by done. apply R, Hi.
  - intros i x. unfold v_hold. cbn. at_buf i b.
    + rewrite lookup_insert_eq. intros [= <-]. done.
    + rewrite lookup_insert_ne by done. apply H.
  - intros i Hi. rewrite is_held_hold. at_buf i b.
    + by rewrite (bool_decide_true (b = b)) by done.
    + rewrite (bool_decide_false (i = b)) by done. apply L, Hi.
  - intros x Hx. destruct (P x Hx) as (i & Hi & Hd & Hbn). at_buf i b.
    + exists b. rewrite bupd_eq. split_and!; [done..|]. rewrite BN, <-Hbn. symmetry. apply Hpb.
      rewrite is_pinned_at by done. apply bool_decide_true. by rewrite Hbn.
    + exists i. by rewrite bupd_ne.
  - intros i Hi. at_buf i b; [by rewrite BN|apply D, Hi].
  - intros i Hi. at_buf i b; [done|apply V, Hi].
  - intros x Hx. apply C. rewrite elem_of_used in *. intros [Hp|[j Hj]]; apply Hx; [by left|].
    right. exists j. cbn. rewrite lookup_insert_ne by congruence. done.
Qed.

Context (bno : Z) (Hh : bv_held v !! b = Some bno).

Lemma cok_at : idx b ∧ b_dev (g b) = ROOTDEV ∧ b_blockno (g b) = bno ∧ b_valid (g b) ≠ 0.
Proof. open_ok. by apply H. Qed.

Lemma cok_refcnt : b_refcnt (g b) = 1 + Z.b2z (bool_decide (bno ∈ bv_pin v)).
Proof.
  destruct cok_at as (Hi & Hd & Hn & _). open_ok.
  by rewrite R, (is_held_Some _ _ _ Hh), is_pinned_at, Hn.
Qed.

Lemma cok_blocked : b_lock (g b) = SL 1 false pid.
Proof. destruct cok_at as (Hi & _). open_ok. by rewrite L, (is_held_Some _ _ _ Hh). Qed.

Lemma cok_drop B :
  bno ∈ bv_pin v ∨ bv_cur v bno = dblk (bv_disk v) bno →
  same_buf B (set_lock (SL 0 false 0) (set_refcnt (b_refcnt (g b) - 1) (g b))) →
  cok pid (v_drop b v) (upd b B g).
Proof.
  intros Hcl (BV & BD & BN & BL & BR & BX). cbn in *.
  destruct cok_at as (Hb & Hd & Hn & Hv). pose proof cok_refcnt as Hr. open_ok. split.
  - intros i j Hi Hj. at_buf i b; at_buf j b; rewrite ?BD, ?BN; auto.
  - intros i Hi. rewrite is_held_drop. at_buf i b.
    + rewrite (bool_decide_true (b = b)) by done. rewrite is_pinned_at by congruence.
      rewrite BR, Hr, BN, Hn. cbn. lia.
    + rewrite (bool_decide_false (i = b)) by done. apply R, Hi.
  - intros i x. unfold v_drop. cbn. at_buf i b; [by rewrite lookup_delete_eq|].
    rewrite lookup_delete_ne by done. apply H.
  - intros i Hi. rewrite is_held_drop. at_buf i b.
    + by rewrite (bool_decide_true (b = b)) by done.
    + rewrite (bool_decide_false (i = b)) by done. apply L, Hi.
  - intros x Hx. destruct (P x Hx) as (i & Hi & Hdi & Hbn). exists i. at_buf i b; rewrite ?BD, ?BN; done.
  - intros i Hi. at_buf i b; [|apply D, Hi]. rewrite BD, BV, BX, BN. apply D, Hi.
  - intros i Hi. at_buf i b; [|apply V, Hi]. by rewrite BV.
  - intros x Hx. destruct (decide (x = bno)) as [->|Hne].
    + destruct Hcl as [Hp|Hc]; [|done]. destruct Hx. rewrite elem_of_used. by left.
    + apply C. rewrite elem_of_used in *. intros [Hp|[j Hj]]; apply Hx; [by left|].
      right. exists j. cbn. rewrite lookup_delete_ne by congruence. done.
Qed.

Lemma cok_set m B :
  same_buf B (set_data m (g b)) → cok pid (v_set bno m v) (upd b B g).
Proof.
  intros (BV & BD & BN & BL & BR & BX). cbn in *.
  destruct cok_at as (Hb & Hd & Hn & Hv). open_ok.
  assert (∀ x, x ≠ bno → bv_cur (v_set bno m v) x = bv_cur v x) as Hcur.
  { intros x Hx. unfold bv_cur, v_set. cbn. by rewrite lookup_insert_ne. }
  split.
  - intros i j Hi Hj. at_buf i b; at_buf j b; rewrite ?BD, ?BN; auto.
  - intros i Hi. unfold is_pinned. at_buf i b; rewrite ?BD, ?BN, ?BR; by apply R.
  - intros i x. at_buf i b; rewrite ?BV, ?BD, ?BN; apply H.
  - intros i Hi. at_buf i b; rewrite ?BL; by apply L.
  - intros x Hx. destruct (P x Hx) as (i & Hi & Hdi & Hbn). exists i. at_buf i b; rewrite ?BD, ?BN; done.
  - intros i Hi. at_buf i b.
    + intros _ _. rewrite BX, BN, Hn. unfold bv_cur, v_set. cbn. by rewrite lookup_insert_eq.
    + intros Hdi Hvi. rewrite Hcur; [by apply D|]. intros Heq. destruct n. apply U; congruence.
  - intros i Hi. at_buf i b; [|apply V, Hi]. by rewrite BV.
  - intros x Hx. rewrite Hcur; [by apply C|]. intros ->. apply Hx. rewrite elem_of_used. eauto.
Qed.

Lemma cur_write x : bv_cur (v_write bno v) x = bv_cur v x.
Proof.
  unfold bv_cur, v_write. cbn. destruct (bv_over v !! x) eqn:Ho; cbn; [done|].
  unfold dblk, dwrite. cbn. destruct (decide (x = bno)) as [->|Hne].
  - rewrite lookup_insert_eq. cbn. unfold bv_cur. by rewrite Ho.
  - by rewrite lookup_insert_ne.
Qed.

Lemma cok_write : cok pid (v_write bno v) g.
Proof.
  open_ok. split; try done.
  - intros i Hi Hd Hv. rewrite cur_write. by apply D.
  - intros x Hx. rewrite cur_write, C by done. unfold dblk, v_write, dwrite. cbn.
    rewrite lookup_insert_ne; [done|]. intros <-. apply Hx. rewrite elem_of_used. eauto.
Qed.

Lemma cok_repin v' B :
  bv_disk v' = bv_disk v → bv_over v' = bv_over v → bv_held v' = bv_held v →
  (∀ x, x ≠ bno → x ∈ bv_pin v' ↔ x ∈ bv_pin v) →
  same_buf B (set_refcnt (1 + Z.b2z (bool_decide (bno ∈ bv_pin v'))) (g b)) →
  cok pid v' (upd b B g).
Proof.
  intros Hdk Hov Hhe Hpin (BV & BD & BN & BL & BR & BX). cbn in *.
  destruct cok_at as (Hb & Hd & Hn & Hv). open_ok.
  assert (∀ i, is_held v' i = is_held v i) as Hih by (intros; unfold is_held; by rewrite Hhe).
  assert (∀ x, bv_cur v' x = bv_cur v x) as Hcur by (intros; unfold bv_cur; by rewrite Hov, Hdk).
  split.
  - intros i j Hi Hj. at_buf i b; at_buf j b; rewrite ?BD, ?BN; auto.
  - intros i Hi. rewrite Hih. at_buf i b.
    + rewrite is_pinned_at, BR, BN, Hn, (is_held_Some _ _ _ Hh) by congruence. done.
    + rewrite R by done. do 2 f_equal. apply bool_decide_ext.
      split; intros [? ?]; (split; [done|]); apply Hpin; try done; intros Heq; destruct n; apply U; congruence.
  - intros i x. rewrite Hhe. at_buf i b; rewrite ?BV, ?BD, ?BN; apply H.
  - intros i Hi. rewrite Hih. at_buf i b; rewrite ?BL; by apply L.
  - intros x Hx. destruct (decide (x = bno)) as [->|Hne].
    { exists b. rewrite bupd_eq. split_and!; congruence. }
    destruct (P x) as (i & Hi & Hdi & Hbn); [by apply Hpin|]. exists i. at_buf i b; rewrite ?BD, ?BN; done.
  - intros i Hi. rewrite Hcur. at_buf i b; [|apply D, Hi]. rewrite BD, BV, BX, BN. apply D, Hi.
  - intros i Hi. at_buf i b; [|apply V, Hi]. by rewrite BV.
  - intros x Hx. rewrite Hcur, Hdk. apply C. rewrite elem_of_used in *. rewrite Hhe in Hx.
    intros [Hp|[j Hj]]; apply Hx; [|by right; eauto].
    destruct (decide (x = bno)) as [->|Hne]; [right; eauto|left; by apply Hpin].
Qed.
End Transitions.

(** ** The operations *)

Section Ops.
Context (pid : Z).

Lemma bok_ext v s s' :
  bc_lock s' = bc_lock s → bc_disk s' = bc_disk s → bc_trace s' = bc_trace s →
  (∀ i, getb i s' = getb i s) → bok pid v s → bok pid v s'.
Proof.
  intros Hl Hd Ht Hg (? & ? & ? & (l & Hp & Hs) & Hc). unfold bok. rewrite Hl, Hd, Ht.
  split_and!; [done..| |].
  - exists l. split; [done|]. eapply seg_ext; [| |exact Hs]; intros; unfold nx, pv; by rewrite Hg.
  - eapply cok_ext; [|exact Hc]. intros i _. by rewrite Hg.
Qed.

(** An update of one buffer that leaves its links alone. *)
Lemma ring_setb i b s :
  b_next b = nx s i → b_prev b = pv s i → ring s → ring (setb i b s).
Proof.
  intros Hn Hp (l & Hl & Hs). exists l. split; [done|].
  eapply seg_ext; [| |exact Hs]; intros j _; unfold nx, pv; rewrite getb_setb; by destruct (decide _) as [->|].
Qed.

Lemma get_set_block i l s : get_block i (set_block i l s) = l.
Proof. unfold get_block, set_block. by rewrite getb_setb, decide_True. Qed.

Lemma setb_setb i b b' s : setb i b (setb i b' s) = setb i b s.
Proof. unfold setb. cbn. by rewrite insert_insert_eq. Qed.

Lemma set_set_block i l l' s : set_block i l (set_block i l' s) = set_block i l s.
Proof. unfold set_block. rewrite setb_setb, getb_setb, decide_True by done. done. Qed.

Lemma set_get_block v s i : bok pid v s → bok pid v (set_block i (get_block i s) s).
Proof.
  apply bok_ext; [done..|]. intros j. unfold set_block, get_block. rewrite getb_setb.
  destruct (decide (j = i)) as [->|]; [|done]. by destruct (getb i s).
Qed.

Lemma bok_upd v v' s b B :
  bok pid v s → bv_disk v' = bv_disk v → bv_trace v' = bv_trace v →
  b_next B = nx s b → b_prev B = pv s b →
  cok pid v' (upd b B (λ i, getb i s)) → bok pid v' (setb b B s).
Proof.
  intros (? & ? & ? & Hr & _) Hd Ht Hn Hp Hc. unfold bok. cbn. rewrite Hd, Ht.
  split_and!; [done..|by apply ring_setb|].
  eapply cok_ext; [|exact Hc]. intros i _. unfold upd. by rewrite getb_setb.
Qed.

Lemma wp_bupd i f Q s : wp (bupd i f) Q s = Q tt (setb i (f s (getb i s)) s).
Proof. done. Qed.
Lemma wp_bupd_at i f Q s : wp (bupd_at i f) Q s = Q tt (setb (i s) (f s (getb (i s) s)) s).
Proof. done. Qed.

Lemma b2z_range c : 0 ≤ Z.b2z c ≤ 1.
Proof. destruct c; simpl; lia. Qed.

Lemma bwrite_spec v s b bno :
  bok pid v s → bv_held v !! b = Some bno → wp (bwrite pid b) (λ _, bok pid (v_write bno v)) s.
Proof.
  intros Hok Hh. pose proof (set_get_block v s b Hok) as Hok'.
  destruct Hok as (Hl & Hd & Ht & Hr & Hc). unfold bwrite. wp_step.
  eapply wp_holdingsleep with (v := 1) (p := pid);
    [apply get_set_block|apply set_set_block|exact (cok_blocked _ _ _ Hc _ _ Hh)|].
  rewrite Z.eqb_refl. wp_simpl. unfold disk_rw. wp_simpl.
  destruct Hok' as (Hl' & Hd' & Ht' & Hr' & Hc').
  destruct (cok_at _ _ _ Hc' _ _ Hh) as (Hi & Hdv & Hn & Hv). destruct Hc' as [U R H L P D V C].
  cbv zeta. unfold bok. cbn [bc_lock bc_disk bc_trace].
  rewrite Hd', Ht', Hn, D, Hn by done. unfold v_write. cbn [bv_disk bv_trace].
  split_and!; [done..|]. by apply cok_write with b.
Qed.

(** The critical sections of the cache lock that change one buffer. *)
Lemma locked_setb b B s :
  bc_lock s = false → set_bc_lock false (setb b B (set_bc_lock true s)) = setb b B s.
Proof. unfold setb, set_bc_lock. cbn. intros <-. done. Qed.

Lemma refcnt_held v s b bno :
  bok pid v s → bv_held v !! b = Some bno →
  b_refcnt (getb b s) = 1 + Z.b2z (bool_decide (bno ∈ bv_pin v)).
Proof. intros (_ & _ & _ & _ & Hc) Hh. exact (cok_refcnt _ _ _ Hc _ _ Hh). Qed.

Lemma repin_ok v v' s b bno r :
  bok pid v s → bv_held v !! b = Some bno →
  bv_disk v' = bv_disk v → bv_trace v' = bv_trace v → bv_over v' = bv_over v → bv_held v' = bv_held v →
  (∀ x, x ≠ bno → x ∈ bv_pin v' ↔ x ∈ bv_pin v) →
  r = 1 + Z.b2z (bool_decide (bno ∈ bv_pin v')) →
  bok pid v' (setb b (set_refcnt r (getb b s)) s).
Proof.
  intros Hok Hh Hd Ht Ho Hhe Hp ->. eapply bok_upd; [exact Hok|done..|].
  destruct Hok as (_ & _ & _ & _ & Hc).
  eapply cok_repin; [exact Hc|exact Hh|done..].
Qed.

Lemma bpin_spec v s b bno :
  bok pid v s → bv_held v !! b = Some bno → bno ∉ bv_pin v →
  wp (bpin b) (λ _, bok pid (v_pin bno v)) s.
Proof.
  intros Hok Hh Hnp. unfold bpin. wp_simpl; [apply Hok|]. rewrite wp_bupd. wp_simpl.
  rewrite locked_setb, getb_lock, (refcnt_held v s b bno), (bool_decide_false _ Hnp) by (done || apply Hok).
  apply (repin_ok v _ _ _ bno); [done..| |].
  - cbn. set_solver.
  - rewrite bool_decide_true; [done|]. cbn. set_solver.
Qed.

Lemma bunpin_spec v s b bno :
  bok pid v s → bv_held v !! b = Some bno → bno ∈ bv_pin v →
  wp (bunpin b) (λ _, bok pid (v_unpin bno v)) s.
Proof.
  intros Hok Hh Hnp. unfold bunpin. wp_simpl; [apply Hok|]. rewrite wp_bupd. wp_simpl.
  rewrite locked_setb, getb_lock, (refcnt_held v s b bno), (bool_decide_true _ Hnp) by (done || apply Hok).
  apply (repin_ok v _ _ _ bno); [done..| |].
  - cbn. set_solver.
  - rewrite bool_decide_false; [done|]. cbn. set_solver.
Qed.

Lemma bio_data_spec v s b bno :
  bok pid v s → bv_held v !! b = Some bno →
  b_data (getb b s) = bv_cur v bno ∧ b_blockno (getb b s) = bno.
Proof.
  intros (_ & _ & _ & _ & Hc) Hh. destruct (cok_at _ _ _ Hc _ _ Hh) as (Hi & Hdv & Hn & Hv).
  destruct Hc as [U R H L P D V C]. by rewrite D, Hn.
Qed.

Lemma bio_set_data_spec v s b bno m :
  bok pid v s → bv_held v !! b = Some bno →
  bok pid (v_set bno m v) (setb b (set_data m (getb b s)) s).
Proof.
  intros Hok Hh. eapply bok_upd; [exact Hok|done..|]. destruct Hok as (_ & _ & _ & _ & Hc).
  by apply cok_set.
Qed.

(** *** [bread] *)

(** Buffer [b] taken for block [bno]. *)
Definition got (b bno : Z) (v : bview) (s : bcache) : Prop :=
  idx b ∧ bv_held v !! b = None ∧
  (∀ j, idx j → j ≠ b → b_dev (getb j s) = ROOTDEV → b_blockno (getb j s) ≠ bno) ∧
  (is_pinned v (getb b s) = true → b_blockno (getb b s) = bno).

Lemma hold_ok v s b bno B :
  bok pid v s → bno ∉ (map_img (bv_held v) : gset Z) → got b bno v s →
  b_next B = nx s b → b_prev B = pv s b →
  b_valid B ≠ 0 → b_dev B = ROOTDEV → b_blockno B = bno → b_lock B = SL 1 false pid →
  b_refcnt B = 1 + Z.b2z (bool_decide (bno ∈ bv_pin v)) → b_data B = bv_cur v bno →
  bok pid (v_hold b bno v) (setb b B s).
Proof.
  intros Hok Hni (Hi & Hnh & Ho & Hp) **. eapply bok_upd; [exact Hok|done..|].
  destruct Hok as (_ & _ & _ & _ & Hc). by apply cok_hold.
Qed.

(** The hit: the block has a buffer. *)
Lemma bget_hit v s bno b :
  bok pid v s → bno ∉ (map_img (bv_held v) : gset Z) → idx b →
  b_dev (getb b s) = ROOTDEV → b_blockno (getb b s) = bno →
  got b bno v s ∧ b_lock (getb b s) = SL 0 false 0 ∧ b_valid (getb b s) ≠ 0 ∧
  b_refcnt (getb b s) = Z.b2z (bool_decide (bno ∈ bv_pin v)) ∧ b_data (getb b s) = bv_cur v bno.
Proof.
  intros (_ & _ & _ & _ & [U R H L P D V C]) Hni Hi Hd Hn.
  assert (bv_held v !! b = None) as Hnh.
  { destruct (bv_held v !! b) as [x|] eqn:E; [|done]. destruct Hni. rewrite elem_of_held.
    exists b. destruct (H b x E) as (_ & _ & Hx & _). congruence. }
  rewrite L, R, (is_held_None _ _ Hnh), is_pinned_at, Hn, D, Hn by auto.
  split_and!; [|done|by apply V|done|done]. split_and!; [done..| |done].
  intros j Hj Hne Hdj Heq. apply Hne. apply U; congruence.
Qed.

(** The miss: no buffer has the block, and [b] is free. *)
Lemma bget_miss v s bno b :
  bok pid v s → (∀ i, idx i → b_dev (getb i s) = ROOTDEV → b_blockno (getb i s) ≠ bno) →
  idx b → b_refcnt (getb b s) = 0 →
  got b bno v s ∧ b_lock (getb b s) = SL 0 false 0 ∧ bno ∉ bv_pin v ∧
  (bno ∉ (map_img (bv_held v) : gset Z) → bv_cur v bno = dblk (bv_disk v) bno).
Proof.
  intros (_ & _ & _ & _ & [U R H L P D V C]) Hmiss Hi Hr.
  pose proof (R b Hi) as Hr'. pose proof (b2z_range (is_held v b)). pose proof (b2z_range (is_pinned v (getb b s))).
  assert (is_held v b = false) as Hh by (destruct (is_held v b); simpl in *; [lia|done]).
  assert (is_pinned v (getb b s) = false) as Hp.
  { destruct (is_pinned v (getb b s)); simpl in *; [lia|done]. }
  assert (bno ∉ bv_pin v) as Hnp.
  { intros Hin. destruct (P bno Hin) as (i & Hii & Hdi & Hbi). by apply (Hmiss i). }
  split_and!; [|by rewrite L, Hh|done|].
  - split_and!; [done| |by auto|by rewrite Hp].
    unfold is_held in Hh. destruct (bv_held v !! b); [|done]. by rewrite bool_decide_true in Hh by eauto.
  - intros Hni. apply C. rewrite elem_of_used, <-elem_of_held. tauto.
Qed.

Lemma busy_used v s i :
  bok pid v s → idx i → b_refcnt (getb i s) ≠ 0 →
  b_dev (getb i s) = ROOTDEV ∧ b_blockno (getb i s) ∈ bv_used v.
Proof.
  intros (_ & _ & _ & _ & [U R H L P D V C]) Hi Hr. rewrite R in Hr by done. rewrite elem_of_used.
  destruct (bv_held v !! i) as [x|] eqn:E.
  - destruct (H i x E) as (_ & Hd & Hb & _). rewrite Hb. eauto.
  - rewrite (is_held_None _ _ E) in Hr. unfold is_pinned in Hr. case_bool_decide; [naive_solver|done].
Qed.

Lemma all_busy v s :
  bok pid v s → (∀ i, idx i → b_refcnt (getb i s) ≠ 0) →
  (list_to_set ((λ i, b_blockno (getb i s)) <$> seqZ 0 NBUF) : gset Z) ⊆ bv_used v ∧
  size (list_to_set ((λ i, b_blockno (getb i s)) <$> seqZ 0 NBUF) : gset Z) = Z.to_nat NBUF.
Proof.
  intros Hok Hbusy. split.
  - intros x. rewrite elem_of_list_to_set, list_elem_of_fmap. intros (i & -> & Hi%idx_seqZ).
    by apply busy_used; auto.
  - rewrite size_list_to_set; [by rewrite length_fmap, length_seqZ|].
    apply NoDup_fmap_2_strong; [|apply NoDup_seqZ]. intros i j Hi%idx_seqZ Hj%idx_seqZ Heq.
    destruct (busy_used v s i), (busy_used v s j); auto. destruct Hok as (_ & _ & _ & _ & [U _]).
    by apply U.
Qed.

(** The converse: with [NBUF] blocks in use every buffer is busy. *)
Lemma used_all_busy v s i :
  bok pid v s → Z.of_nat (size (bv_used v)) = NBUF → idx i → b_refcnt (getb i s) ≠ 0.
Proof.
  intros Hok Hsz Hi Hr. set (f := λ j, b_blockno (getb j s)).
  assert (bv_used v ⊆ list_to_set (f <$> filter (λ j, j ≠ i) (seqZ 0 NBUF))) as Hsub.
  { intros x Hx. rewrite elem_of_list_to_set, list_elem_of_fmap.
    assert (∃ j, idx j ∧ b_refcnt (getb j s) ≠ 0 ∧ f j = x) as (j & Hj & Hrj & Hf).
    { destruct Hok as (_ & _ & _ & _ & [U R H L P D V C]).
      apply elem_of_used in Hx as [Hx|[j Hj]].
      - destruct (P x Hx) as (j & Hj & Hd & Hb). exists j. split_and!; [done| |done].
        rewrite R, is_pinned_at, Hb, (bool_decide_true _ Hx) by done.
        pose proof (b2z_range (is_held v j)). simpl. lia.
      - destruct (H j x Hj) as (Hij & Hd & Hb & _). exists j. split_and!; [done| |done].
        rewrite R, (is_held_Some _ _ _ Hj) by done. pose proof (b2z_range (is_pinned v (getb j s))).
        simpl. lia. }
    exists j. split; [done|]. rewrite list_elem_of_filter, <-idx_seqZ. split; [congruence|done]. }
  apply subseteq_size in Hsub. revert Hsub.
  intros Hsub. pose proof (size_list_to_set_le (f <$> filter (λ j, j ≠ i) (seqZ 0 NBUF))) as Hlen.
  rewrite length_fmap in Hlen.
  assert (length (filter (λ j, j ≠ i) (seqZ 0 NBUF)) < length (seqZ 0 NBUF))%nat as Hlt.
  { apply length_filter_lt with i; [by apply idx_seqZ|]. tauto. }
  rewrite length_seqZ in Hlt. unfold NBUF, MAXOPBLOCKS in *. lia.
Qed.

Lemma getb_setb_eq i b s : getb i (setb i b s) = b.
Proof. by rewrite getb_setb, decide_True. Qed.

Ltac bsimp := rewrite ?wp_bupd, ?setb_setb, ?getb_setb_eq, ?getb_lock.

Lemma bread_spec v s bno :
  bok pid v s → bno ∉ (map_img (bv_held v) : gset Z) →
  bno ∈ bv_pin v ∨ Z.of_nat (size (bv_used v)) < NBUF →
  wp (bread pid ROOTDEV bno) (λ b s', bv_held v !! b = None ∧ bok pid (v_hold b bno v) s') s.
Proof.
  intros Hok Hni Hroom. unfold bread, bget. wp_simpl; [apply Hok|].
  apply ring_scan_nx; [apply Hok|]. intros l Hl. cbv beta.
  match goal with |- context[List.find ?q l] => destruct (List.find q l) as [b|] eqn:Hf end.
  - apply find_idx in Hf as [Hi Hq]; [|done]. rewrite andb_true_iff, !Z.eqb_eq in Hq. destruct Hq as [Hd Hn].
    destruct (bget_hit v s bno b) as (Hg & Hlk & Hv & Hr & Hx); [done..|].
    repeat (wp_simpl; bsimp). rewrite locked_setb by apply Hok.
    eapply wp_acquiresleep; [apply get_set_block|apply set_set_block|unfold get_block; bsimp; exact Hlk|].
    wp_simpl. unfold set_block. bsimp. cbn [b_valid set_lock set_refcnt].
    rewrite (proj2 (Z.eqb_neq _ _) Hv). wp_simpl. split; [apply Hg|].
    apply hold_ok; try done. cbn. rewrite Hr, u32_small; [lia|].
    pose proof (b2z_range (bool_decide (bno ∈ bv_pin v))). lia.
  - pose proof (λ i, find_none _ _ i Hl Hf) as Hmiss. cbv beta in Hmiss. wp_simpl.
    apply ring_scan_pv; [apply Hok|]. intros l' Hl'. cbv beta.
    assert (∀ i, idx i → b_dev (getb i s) = ROOTDEV → b_blockno (getb i s) ≠ bno) as Hm.
    { intros i Hi Hd Hb. specialize (Hmiss i Hi). rewrite getb_lock, Hd, Hb, !Z.eqb_refl in Hmiss. done. }
    match goal with |- context[List.find ?q l'] => destruct (List.find q l') as [b|] eqn:Hf' end.
    + apply find_idx in Hf' as [Hi Hq]; [|done]. rewrite Z.eqb_eq in Hq.
      destruct (bget_miss v s bno b) as (Hg & Hlk & Hnp & Hc); [done..|].
      repeat (wp_simpl; bsimp). rewrite locked_setb by apply Hok.
      eapply wp_acquiresleep; [apply get_set_block|apply set_set_block|unfold get_block; bsimp; exact Hlk|].
      unfold disk_rw, set_block. repeat (wp_simpl; bsimp; cbn [b_valid set_lock set_refcnt set_valid Z.eqb]).
      split; [apply Hg|]. apply hold_ok; try done.
      * cbn. rewrite (bool_decide_false _ Hnp). done.
      * cbn. destruct Hok as (_ & -> & _). symmetry. by apply Hc.
    + exfalso. pose proof (λ i Hi, proj1 (Z.eqb_neq _ _) (find_none _ _ i Hl' Hf' Hi)) as Hb. cbv beta in Hb.
      destruct Hroom as [Hp|Hsz].
      * destruct Hok as (_ & _ & _ & _ & [U R H L P D V C]).
        destruct (P bno Hp) as (i & Hi & Hd & Hbi). by apply (Hm i).
      * destruct (all_busy v s Hok Hb) as [Hsub Hsize]. apply subseteq_size in Hsub.
        rewrite Hsize in Hsub. unfold NBUF, MAXOPBLOCKS in *. lia.
Qed.

Lemma scan_run step q l s :
  path (step s) HEAD l HEAD → HEAD ∉ l → (length l ≤ Z.to_nat NBUF)%nat →
  scan step q (step s HEAD) s = Ok (List.find (q s) l) s.
Proof.
  intros Hp Hh Hlen.
  destruct (wp_Ok _ (λ r s', r = List.find (q s) l ∧ s' = s) _ (wp_scan step q l s _ Hp Hh Hlen (conj eq_refl eq_refl)))
    as (r & s' & -> & -> & ->). done.
Qed.

Lemma find_all_false (q : Z → bool) l : (∀ i, i ∈ l → q i = false) → List.find q l = None.
Proof.
  intros Hq. destruct (List.find q l) as [b|] eqn:E; [|done].
  apply List.find_some in E as [Hin Hb]. rewrite Hq in Hb; [done|]. by apply list_elem_of_In.
Qed.

Lemma bread_full v s bno :
  bok pid v s → bno ∉ bv_used v → Z.of_nat (size (bv_used v)) = NBUF →
  bread pid ROOTDEV bno s = Panic "bget: no buffers".
Proof.
  intros Hok Hnu Hsz.
  assert (∀ i, idx i → b_refcnt (getb i s) ≠ 0) as Hb by (intros; by apply used_all_busy with v).
  assert (∀ i, idx i → b_blockno (getb i s) ≠ bno) as Hn.
  { intros i Hi <-. apply Hnu. by apply busy_used; auto. }
  destruct Hok as (Hl & _ & _ & (l & Hp & Hs) & _). pose proof (ring_NoDup l Hp) as [Hh _]%NoDup_cons.
  assert (length l = Z.to_nat NBUF) as Hlen by (by rewrite Hp, length_seqZ).
  unfold bread, bget. apply bind_Panic.
  rewrite (bind_Ok _ _ _ _ _ (acquire_Ok _ _ _ Hl)). erewrite bind_Ok; [|reflexivity].
  erewrite bind_Ok; [|apply (scan_run nx _ l); [exact (seg_path _ _ _ _ _ Hs)|done|lia]].
  rewrite find_all_false.
  2: { intros i Hi%(ring_idx l); [|done]. rewrite getb_lock. apply andb_false_iff. right. by apply Z.eqb_neq, Hn. }
  erewrite bind_Ok; [|reflexivity].
  erewrite bind_Ok; [|apply (scan_run pv _ (reverse l)); [exact (seg_path_back _ _ _ _ _ Hs)|
    by rewrite elem_of_reverse|rewrite length_reverse; lia]].
  rewrite find_all_false; [done|]. intros i. rewrite elem_of_reverse. intros Hi%(ring_idx l); [|done].
  by apply Z.eqb_neq, Hb.
Qed.

(** *** [brelse] and [binit]: the links *)

Definition only_links (s s' : bcache) : Prop :=
  bc_lock s' = bc_lock s ∧ bc_disk s' = bc_disk s ∧ bc_trace s' = bc_trace s ∧
  ∀ i, same_buf (getb i s') (getb i s).

Lemma only_links_trans s1 s2 s3 : only_links s1 s2 → only_links s2 s3 → only_links s1 s3.
Proof.
  intros (? & ? & ? & Hb1) (? & ? & ? & Hb2). split_and!; [congruence..|]. intros i.
  destruct (Hb1 i) as (? & ? & ? & ? & ? & ?), (Hb2 i) as (? & ? & ? & ? & ? & ?). split_and!; congruence.
Qed.

Lemma only_links_next i x s : only_links s (setb i (set_next x (getb i s)) s).
Proof.
  split_and!; [done..|]. intros j. rewrite getb_setb. by destruct (decide (j = i)) as [->|].
Qed.

Lemma only_links_prev i x s : only_links s (setb i (set_prev x (getb i s)) s).
Proof.
  split_and!; [done..|]. intros j. rewrite getb_setb. by destruct (decide (j = i)) as [->|].
Qed.

Lemma nx_set_next i x s j :
  nx (setb i (set_next x (getb i s)) s) j = if decide (j = i) then x else nx s j.
Proof. unfold nx. rewrite getb_setb. by destruct (decide _). Qed.
Lemma pv_set_prev i x s j :
  pv (setb i (set_prev x (getb i s)) s) j = if decide (j = i) then x else pv s j.
Proof. unfold pv. rewrite getb_setb. by destruct (decide _). Qed.
Lemma nx_set_prev i x s j : nx (setb i (set_prev x (getb i s)) s) j = nx s j.
Proof. unfold nx. rewrite getb_setb. by destruct (decide (j = i)) as [->|]. Qed.
Lemma pv_set_next i x s j : pv (setb i (set_next x (getb i s)) s) j = pv s j.
Proof. unfold pv. rewrite getb_setb. by destruct (decide (j = i)) as [->|]. Qed.

Lemma wp_link_front b s :
  b ≠ HEAD →
  wp (link_front b) (λ _ s', only_links s s' ∧
    (∀ j, nx s' j = if decide (j = b) then nx s HEAD else nx s j) ∧
    (∀ j, pv s' j = if decide (j = b) then HEAD else pv s j)) s.
Proof.
  intros Hb. unfold link_front. wp_simpl. rewrite !wp_bupd. split_and!.
  - eapply only_links_trans; [apply only_links_next|apply only_links_prev].
  - intros j. by rewrite nx_set_prev, nx_set_next.
  - intros j. by rewrite pv_set_prev, pv_set_next.
Qed.

Lemma wp_link_back b s :
  wp (link_back b) (λ _ s', only_links s s' ∧
    (∀ j, nx s' j = if decide (j = HEAD) then b else nx s j) ∧
    (∀ j, pv s' j = if decide (j = nx s HEAD) then b else pv s j)) s.
Proof.
  unfold link_back. wp_simpl. rewrite wp_bupd_at, wp_bupd. split_and!.
  - eapply only_links_trans; [apply only_links_prev|apply only_links_next].
  - intros j. by rewrite nx_set_next, nx_set_prev.
  - intros j. by rewrite pv_set_next, pv_set_prev.
Qed.

Lemma wp_unlink b s :
  nx s b ≠ b →
  wp (unlink b) (λ _ s', only_links s s' ∧
    (∀ j, nx s' j = if decide (j = pv s b) then nx s b else nx s j) ∧
    (∀ j, pv s' j = if decide (j = nx s b) then pv s b else pv s j)) s.
Proof.
  intros Hne. unfold unlink. wp_simpl. rewrite !wp_bupd_at.
  rewrite nx_set_prev, pv_set_prev, decide_False by done. split_and!.
  - eapply only_links_trans; [apply only_links_prev|apply only_links_next].
  - intros j. by rewrite nx_set_next, nx_set_prev.
  - intros j. by rewrite pv_set_next, pv_set_prev.
Qed.

(** Linking in front, whatever happens to the other fields in between. *)
Lemma seg_link b l s s1 s2 s3 :
  NoDup (b :: HEAD :: l) → seg (nx s) (pv s) HEAD l HEAD →
  (∀ j, nx s1 j = if decide (j = b) then nx s HEAD else nx s j) →
  (∀ j, pv s1 j = if decide (j = b) then HEAD else pv s j) →
  (∀ j, nx s2 j = nx s1 j) → (∀ j, pv s2 j = pv s1 j) →
  (∀ j, nx s3 j = if decide (j = HEAD) then b else nx s2 j) →
  (∀ j, pv s3 j = if decide (j = nx s2 HEAD) then b else pv s2 j) →
  seg (nx s3) (pv s3) HEAD (b :: l) HEAD.
Proof.
  intros Hnd Hs N1 P1 N2 P2 N3 P3. pose proof Hnd as [Hb _]%NoDup_cons.
  apply not_elem_of_cons in Hb as [Hbh Hbl].
  assert (nx s2 HEAD = nx s HEAD) as Hh by (by rewrite N2, N1, decide_False).
  assert (nx s HEAD ≠ b) as Hnb.
  { destruct l as [|y l]; simpl in Hs; destruct Hs as [-> _]; set_solver. }
  apply (seg_front (nx s) (pv s)); [done..| | | | | |].
  - by rewrite N3, decide_False, N2, N1, decide_True.
  - by rewrite N3, decide_True.
  - by rewrite P3, Hh, decide_False, P2, P1, decide_True by done.
  - by rewrite P3, Hh, decide_True.
  - intros j Hj1 Hj2. by rewrite N3, decide_False, N2, N1, decide_False by done.
  - intros j Hj1 Hj2. by rewrite P3, Hh, decide_False, P2, P1, decide_False by done.
Qed.

Lemma move_front_spec b s :
  ring s → idx b →
  wp (unlink b;; link_front b;; link_back b) (λ _ s', only_links s s' ∧ ring s') s.
Proof.
  intros (l & Hl & Hs) Hb. pose proof (ring_NoDup l Hl) as Hnd.
  assert (b ∈ l) as (l1 & l2 & ->)%list_elem_of_split by (by apply (ring_idx l)).
  pose proof Hnd as [Hh Hnd']%NoDup_cons. pose proof (seg_next_in _ _ _ _ _ _ _ Hs) as Hin.
  assert (NoDup (b :: HEAD :: l1 ++ l2)) as Hnd2.
  { rewrite <-Permutation_middle in Hnd'. apply NoDup_cons in Hnd' as [Hb1 Hb2]. repeat apply NoDup_cons_2; set_solver. }
  assert (nx s b ≠ b) as Hne.
  { intros Heq. rewrite Heq in Hin. apply NoDup_cons in Hnd2 as [Hb1 _]. clear -Hin Hb1. set_solver. }
  rewrite !wp_bind. wp_apply wp_unlink; [done|]. intros [] s1 (O1 & N1 & P1). rewrite wp_bind.
  assert (seg (nx s1) (pv s1) HEAD (l1 ++ l2) HEAD) as Hs1.
  { by apply (seg_unlink (nx s) (pv s) _ _ b). }
  wp_apply wp_link_front; [by intros ->; clear -Hh; set_solver|]. intros [] s2 (O2 & N2 & P2).
  wp_apply wp_link_back. intros [] s3 (O3 & N3 & P3). split.
  - eauto using only_links_trans.
  - exists (b :: l1 ++ l2). split; [by rewrite Permutation_middle|].
    by apply (seg_link b (l1 ++ l2) s1 s2 s2 s3).
Qed.

Lemma bok_links v s s' :
  bok pid v s → only_links (set_bc_lock true s) s' → ring s' → bok pid v (set_bc_lock false s').
Proof.
  intros (Hl & Hd & Ht & Hr & Hc) (_ & Hd' & Ht' & Hb) Hr'.
  split_and!; [done|by cbn; rewrite Hd'|by cbn; rewrite Ht'|exact Hr'|].
  eapply cok_ext; [|exact Hc]. intros i _. apply Hb.
Qed.

Lemma setb_lock b B l s B' : setb b B (set_bc_lock l (setb b B' s)) = set_bc_lock l (setb b B s).
Proof. unfold setb, set_bc_lock. cbn. by rewrite insert_insert_eq. Qed.

Lemma brelse_spec v s b bno :
  bok pid v s → bv_held v !! b = Some bno →
  bno ∈ bv_pin v ∨ bv_cur v bno = dblk (bv_disk v) bno →
  wp (brelse pid b) (λ _, bok pid (v_drop b v)) s.
Proof.
  intros Hok Hh Hcl. pose proof (set_get_block v s b Hok) as Hok1.
  unfold brelse. wp_step. destruct Hok as (_ & _ & _ & _ & Hc0).
  eapply wp_holdingsleep with (v := 1) (p := pid);
    [apply get_set_block|apply set_set_block|exact (cok_blocked _ _ _ Hc0 _ _ Hh)|].
  rewrite Z.eqb_refl. wp_simpl. revert Hok1. generalize (set_block b (get_block b s) s). clear s Hc0.
  intros s Hok. pose proof Hok as (Hl & _ & _ & _ & Hc).
  eapply wp_releasesleep; [apply get_set_block|apply set_set_block|exact (cok_blocked _ _ _ Hc _ _ Hh)|].
  wp_simpl. rewrite wp_bupd. unfold set_block. rewrite setb_lock, getb_lock, getb_setb_eq.
  cbn [b_refcnt set_lock]. rewrite (refcnt_held v s b bno) by done.
  pose proof (b2z_range (bool_decide (bno ∈ bv_pin v))). rewrite u32_small by lia.
  set (B := set_refcnt _ _).
  assert (bok pid (v_drop b v) (setb b B s)) as Hok'.
  { eapply bok_upd; [exact Hok|done..|]. eapply cok_drop; [exact Hc|exact Hh|exact Hcl|].
    split_and!; try done. cbn. by rewrite (refcnt_held v s b bno). }
  wp_simpl. rewrite getb_lock, getb_setb_eq. generalize dependent (setb b B s). intros s4 Hok4.
  destruct (b_refcnt B =? 0).
  - wp_apply move_front_spec; [apply Hok4|apply (cok_at _ _ _ Hc _ _ Hh)|].
    intros [] s5 [O5 R5]. wp_simpl; [apply O5|]. by eapply bok_links.
  - wp_simpl. destruct Hok4 as [_ Hok4]. exact (conj eq_refl Hok4).
Qed.

Lemma binit_spec d : wp binit (λ _, bok pid (BView d [] ∅ ∅ ∅)) (BCache false ∅ d []).
Proof.
  unfold binit. wp_simpl. rewrite !wp_bupd, wp_bind.
  set (zero := λ s, bc_lock s = false ∧ bc_disk s = d ∧ bc_trace s = [] ∧ ∀ i, same_buf (getb i s) buf0).
  apply wp_for_each with (I := λ done s, zero s ∧ seg (nx s) (pv s) HEAD (reverse done) HEAD).
  - split; [|done]. split_and!; [done..|]. intros i. rewrite !getb_setb. by repeat destruct (decide _).
  - intros done b rest s Heq ((Hl & Hd & Ht & Hz) & Hs).
    assert (NoDup (seqZ 0 NBUF)) as Hnd by apply NoDup_seqZ. rewrite Heq in Hnd.
    assert (∀ x, x ∈ b :: done → x ≠ HEAD) as Hlt.
    { intros x Hx. assert (x ∈ seqZ 0 NBUF) as Hin by (rewrite Heq; set_solver).
      apply idx_seqZ in Hin. unfold idx, HEAD, NBUF, MAXOPBLOCKS in *. lia. }
    rewrite wp_bind. wp_apply wp_link_front; [apply Hlt; set_solver|]. intros [] s1 (O1 & N1 & P1).
    wp_simpl. unfold initsleeplock. rewrite wp_modify.
    wp_apply wp_link_back. intros [] s3 (O3 & N3 & P3). split.
    + destruct O1 as (E1 & E2 & E3 & E4), O3 as (F1 & F2 & F3 & F4).
      split_and!; [by rewrite F1; cbn; rewrite E1|by rewrite F2; cbn; rewrite E2|by rewrite F3; cbn; rewrite E3|].
      intros i. specialize (F4 i). revert F4. unfold set_block. rewrite getb_setb.
      specialize (Hz i). specialize (E4 i).
      destruct (decide (i = b)) as [->|]; unfold same_buf in *; cbn in *; intuition congruence.
    + rewrite reverse_snoc.
      eapply (seg_link b (reverse done) s s1 (set_block b (SL 0 false 0) s1) s3); try done.
      * apply NoDup_cons_2; [|apply NoDup_cons_2; [|rewrite reverse_Permutation]].
        -- apply not_elem_of_cons. split; [apply Hlt; set_solver|]. rewrite elem_of_reverse. intros Hi.
           apply NoDup_app in Hnd as (_ & Hd1 & _). apply (Hd1 b Hi). set_solver.
        -- rewrite elem_of_reverse. intros Hi. apply (Hlt HEAD); [set_solver|done].
        -- by apply NoDup_app in Hnd as [? _].
      * intros j. unfold nx, set_block. rewrite getb_setb. by destruct (decide (j = b)) as [->|].
      * intros j. unfold pv, set_block. rewrite getb_setb. by destruct (decide (j = b)) as [->|].
  - intros s ((Hl & Hd & Ht & Hz) & Hs). split_and!; [done..| |].
    + eexists. split; [|exact Hs]. apply reverse_Permutation.
    + apply cok_ext with (g := λ _, buf0); [by intros i _; apply Hz|]. split; try done.
Qed.
End Ops.

#[export] Instance bio_spec pid : @BufSpec bcache (bio_ops pid) :=
  Build_BufSpec bcache (bio_ops pid) (bok pid) (binit_spec pid) (bio_data_spec pid)
    (bio_set_data_spec pid) (bread_spec pid) (bread_full pid) (bwrite_spec pid)
    (brelse_spec pid) (bpin_spec pid) (bunpin_spec pid).
