(* ===== verification/Log.v ===== *)
(** * The write-ahead log: [kernel/log.c]

    [struct log] over a buffer cache of which only the operations are known
    ([BufOps]).  [sleep(&log, ..)] in [begin_op] is [await]; [wakeup] has no
    effect on this state, and neither have the messages printed while
    recovering.  A block copied by [memmove(.., BSIZE)] is copied whole. *)

From S2P Require Import Prelude Mem Layout BufIface.

(** [struct log], with the cache below it; [lh_n] and [lh_block] are the fields
    of [log.lh]. *)
Record logst (S : Type) := Log {
  lg_lock : bool;
  lg_start : Z;
  lg_outstanding : Z;
  lg_committing : bool;
  lg_dev : Z;
  lh_n : Z;
  lh_block : list Z;
  lg_s : S
}.
Arguments Log {S}.
Arguments lg_lock {S}. Arguments lg_start {S}. Arguments lg_outstanding {S}.
Arguments lg_committing {S}. Arguments lg_dev {S}. Arguments lh_n {S}.
Arguments lh_block {S}. Arguments lg_s {S}.

Section Setters.
Context {S : Type}.
Implicit Types s : logst S.

Definition set_lg_lock (v : bool) s : logst S :=
  Log v (lg_start s) (lg_outstanding s) (lg_committing s) (lg_dev s) (lh_n s) (lh_block s) (lg_s s).
Definition set_start (v : Z) s : logst S :=
  Log (lg_lock s) v (lg_outstanding s) (lg_committing s) (lg_dev s) (lh_n s) (lh_block s) (lg_s s).
Definition set_outstanding (v : Z) s : logst S :=
  Log (lg_lock s) (lg_start s) v (lg_committing s) (lg_dev s) (lh_n s) (lh_block s) (lg_s s).
Definition set_committing (v : bool) s : logst S :=
  Log (lg_lock s) (lg_start s) (lg_outstanding s) v (lg_dev s) (lh_n s) (lh_block s) (lg_s s).
Definition set_lg_dev (v : Z) s : logst S :=
  Log (lg_lock s) (lg_start s) (lg_outstanding s) (lg_committing s) v (lh_n s) (lh_block s) (lg_s s).
Definition set_n (v : Z) s : logst S :=
  Log (lg_lock s) (lg_start s) (lg_outstanding s) (lg_committing s) (lg_dev s) v (lh_block s) (lg_s s).
Definition set_lh (v : list Z) s : logst S :=
  Log (lg_lock s) (lg_start s) (lg_outstanding s) (lg_committing s) (lg_dev s) (lh_n s) v (lg_s s).
Definition set_s (v : S) s : logst S :=
  Log (lg_lock s) (lg_start s) (lg_outstanding s) (lg_committing s) (lg_dev s) (lh_n s) (lh_block s) v.
End Setters.

Section Log.
Context {S : Type} {BO : BufOps S}.

(** The memory of the log after a reset. *)
Definition log_boot (d : disk) : logst S := Log false 0 0 false 0 0 (replicate (Z.to_nat LOGBLOCKS) 0) (bo_boot d).

Definition bio {A} (m : M S A) : M (logst S) A := lift lg_s set_s m.

Definition bdata (b : Z) (s : logst S) : mem := bo_data b (lg_s s).
Definition set_bdata (b : Z) (m : mem) : M (logst S) unit :=
  modify (λ s, set_s (bo_set_data b m (lg_s s)) s).

(** [log.lh.block[i]]; an index outside the array is an error of the program. *)
Definition lh_get (i : Z) : M (logst S) Z :=
  panic_if (negb ((0 <=? i) && (i <? LOGBLOCKS))) "index out of bounds";;
  gets (λ s, default 0 (lh_block s !! Z.to_nat i)).
Definition lh_put (i v : Z) : M (logst S) unit :=
  panic_if (negb ((0 <=? i) && (i <? LOGBLOCKS))) "index out of bounds";;
  modify (λ s, set_lh (<[Z.to_nat i := v]> (lh_block s)) s).

(** [struct logheader] in a block: [n] at 0, [block[i]] at [4 + 4 * i]. *)
Definition hd_n (m : mem) : Z := ldi32 m 0.
Definition hd_block (m : mem) (i : Z) : Z := ldi32 m (4 + 4 * i).
Definition hd_set_n (m : mem) (v : Z) : mem := st32 m 0 v.
Definition hd_set_block (m : mem) (i v : Z) : mem := st32 m (4 + 4 * i) v.

(** The body of the loop of [install_trans]. *)
Definition install_step (recovering : bool) (tail : Z) : M (logst S) unit :=
  dev ← gets lg_dev;
  start ← gets lg_start;
  lbuf ← bio (bo_bread (u32 dev) (u32 (start + tail + 1)));
  bl ← lh_get tail;
  dbuf ← bio (bo_bread (u32 dev) (u32 bl));
  m ← gets (bdata lbuf);
  set_bdata dbuf m;;
  bio (bo_bwrite dbuf);;
  (if recovering then mret tt else bio (bo_bunpin dbuf));;
  bio (bo_brelse lbuf);;
  bio (bo_brelse dbuf).

Definition install_trans (recovering : bool) : M (logst S) unit :=
  n ← gets lh_n;
  for_each (seqZ 0 n) (install_step recovering).

Definition read_head : M (logst S) unit :=
  dev ← gets lg_dev;
  start ← gets lg_start;
  buf ← bio (bo_bread (u32 dev) (u32 start));
  n ← gets (λ s, hd_n (bdata buf s));
  modify (set_n n);;
  for_each (seqZ 0 n) (λ i,
    v ← gets (λ s, hd_block (bdata buf s) i);
    lh_put i v);;
  bio (bo_brelse buf).

Definition write_head : M (logst S) unit :=
  dev ← gets lg_dev;
  start ← gets lg_start;
  buf ← bio (bo_bread (u32 dev) (u32 start));
  n ← gets lh_n;
  m ← gets (bdata buf);
  set_bdata buf (hd_set_n m n);;
  for_each (seqZ 0 n) (λ i,
    v ← lh_get i;
    m ← gets (bdata buf);
    set_bdata buf (hd_set_block m i v));;
  bio (bo_bwrite buf);;
  bio (bo_brelse buf).

Definition recover_from_log : M (logst S) unit :=
  read_head;;
  install_trans true;;
  modify (set_n 0);;
  write_head.

(** [sizeof(struct logheader)] *)
Definition sizeof_logheader : Z := 4 + 4 * LOGBLOCKS.

Definition initlog (dev logstart : Z) : M (logst S) unit :=
  panic_if (BSIZE <=? sizeof_logheader) "initlog: too big logheader";;
  modify (set_lg_lock false);;
  modify (set_start (i32 logstart));;
  modify (set_lg_dev dev);;
  recover_from_log.

Definition begin_op : M (logst S) unit :=
  acquire lg_lock set_lg_lock;;
  await (λ s, negb (lg_committing s) &&
              (lh_n s + (lg_outstanding s + 1) * MAXOPBLOCKS <=? LOGBLOCKS));;
  modify (λ s, set_outstanding (lg_outstanding s + 1) s);;
  release lg_lock set_lg_lock.

(** The body of the loop of [write_log]. *)
Definition write_log_step (tail : Z) : M (logst S) unit :=
  dev ← gets lg_dev;
  start ← gets lg_start;
  to ← bio (bo_bread (u32 dev) (u32 (start + tail + 1)));
  bl ← lh_get tail;
  from ← bio (bo_bread (u32 dev) (u32 bl));
  m ← gets (bdata from);
  set_bdata to m;;
  bio (bo_bwrite to);;
  bio (bo_brelse from);;
  bio (bo_brelse to).

Definition write_log : M (logst S) unit :=
  n ← gets lh_n;
  for_each (seqZ 0 n) write_log_step.

Definition commit : M (logst S) unit :=
  gets (λ s, 0 <? lh_n s) ≫= λ c : bool,
  if c then
    write_log;;
    write_head;;
    install_trans false;;
    modify (set_n 0);;
    write_head
  else mret tt.

Definition end_op : M (logst S) unit :=
  acquire lg_lock set_lg_lock;;
  modify (λ s, set_outstanding (lg_outstanding s - 1) s);;
  c ← gets lg_committing;
  panic_if c "log.committing";;
  gets (λ s, lg_outstanding s =? 0) ≫= λ do_commit : bool,
  (if do_commit then modify (set_committing true) else mret tt);;
  release lg_lock set_lg_lock;;
  if do_commit then
    commit;;
    acquire lg_lock set_lg_lock;;
    modify (set_committing false);;
    release lg_lock set_lg_lock
  else mret tt.

Definition log_write (b : Z) : M (logst S) unit :=
  acquire lg_lock set_lg_lock;;
  n ← gets lh_n;
  panic_if (LOGBLOCKS <=? n) "too big a transaction";;
  o ← gets lg_outstanding;
  panic_if (o <? 1) "log_write outside of trans";;
  bno ← gets (λ s, bo_blockno b (lg_s s));
  r ← for_ret (seqZ 0 n) (λ i,
        v ← lh_get i;
        mret (if u32 v =? bno then Some i else None));
  let i := default n r in
  lh_put i (i32 bno);;
  (if i =? n then
     bio (bo_bpin b);;
     modify (set_n (n + 1))
   else mret tt);;
  release lg_lock set_lg_lock.
End Log.
