(* ===== verification/LogDisk.v ===== *)
(** * What is on the disk while the log commits or recovers

    The log header in a block, sequences of block writes, and when a disk
    recovers to given contents of the home blocks. *)

From S2P Require Import Prelude Mem Layout BufIface Log.

(** ** Sequences of writes *)

Definition keys (ws : list (Z * mem)) : list Z := fst <$> ws.

Lemma dwrites_app ws1 ws2 d : dwrites (ws1 ++ ws2) d = dwrites ws2 (dwrites ws1 d).
Proof. apply foldl_app. Qed.

Lemma dblk_dwrite d x m y : dblk (dwrite d (x, m)) y = if decide (y = x) then m else dblk d y.
Proof.
  unfold dblk, dwrite. cbn. destruct (decide (y = x)) as [->|]; [by rewrite lookup_insert_eq|].
  by rewrite lookup_insert_ne.
Qed.

Lemma dwrites_other ws d x : x ∉ keys ws → dblk (dwrites ws d) x = dblk d x.
Proof.
  revert d. induction ws as [|[y m] ws IH]; intros d Hx; [done|]. cbn [keys fmap list_fmap fst] in Hx.
  apply not_elem_of_cons in Hx as [Hne Hx]. change (dblk (dwrites ws (dwrite d (y, m))) x = dblk d x).
  by rewrite IH, dblk_dwrite, decide_False.
Qed.

Lemma dwrites_at ws d x m : NoDup (keys ws) → (x, m) ∈ ws → dblk (dwrites ws d) x = m.
Proof.
  revert d. induction ws as [|[y m'] ws IH]; intros d Hnd Hin; [by apply not_elem_of_nil in Hin|].
  cbn [keys fmap list_fmap fst] in Hnd. apply NoDup_cons in Hnd as [Hy Hnd].
  change (dblk (dwrites ws (dwrite d (y, m'))) x = m). apply elem_of_cons in Hin as [[= -> ->]|Hin].
  - by rewrite dwrites_other, dblk_dwrite, decide_True.
  - by apply IH.
Qed.

Lemma keys_take k ws x : x ∈ keys (take k ws) → x ∈ keys ws.
Proof. unfold keys. rewrite fmap_take. apply subseteq_take. Qed.

(** ** The header block *)

(** The header block says that the blocks [bl] are in the log. *)
Definition hd_ok (m : mem) (bl : list Z) : Prop :=
  hd_n m = Z.of_nat (length bl) ∧ ∀ i x, bl !! i = Some x → hd_block m (Z.of_nat i) = x.

(** What [write_head] makes of the header block. *)
Definition hd_put (m : mem) (bl : list Z) (k : nat) : mem :=
  foldl (λ m i, hd_set_block m (Z.of_nat i) (default 0 (bl !! i)))
    (hd_set_n m (Z.of_nat (length bl))) (seq 0 k).

Lemma i32_u32_small x : 0 ≤ x < 2147483648 → i32 (x mod 4294967296) = x.
Proof. intros Hx. unfold i32. rewrite (Z.mod_small x) by lia. rewrite Z.mod_small; lia. Qed.

Lemma hd_put_S m bl k :
  hd_put m bl (S k) = hd_set_block (hd_put m bl k) (Z.of_nat k) (default 0 (bl !! k)).
Proof. unfold hd_put. by rewrite seq_S, foldl_snoc. Qed.

Lemma hd_put_n m bl k : Z.of_nat (length bl) < 2147483648 → hd_n (hd_put m bl k) = Z.of_nat (length bl).
Proof.
  intros Hl. unfold hd_n, ldi32. induction k as [|k IH].
  - unfold hd_put. cbn [seq foldl]. unfold hd_set_n. rewrite (ldn_stn_eq 4). change (256 ^ Z.of_nat 4) with 4294967296.
    apply i32_u32_small. lia.
  - rewrite hd_put_S. unfold hd_set_block. rewrite (ldn_stn_ne 4 4) by lia. exact IH.
Qed.

Lemma hd_put_block m bl k i x :
  (i < k)%nat → bl !! i = Some x → 0 ≤ x < 2147483648 → hd_block (hd_put m bl k) (Z.of_nat i) = x.
Proof.
  intros Hi Hx Hr. unfold hd_block, ldi32. induction k as [|k IH]; [lia|]. rewrite hd_put_S.
  unfold hd_set_block. destruct (decide (i = k)) as [->|Hne].
  - rewrite (ldn_stn_eq 4), Hx. change (256 ^ Z.of_nat 4) with 4294967296. by apply i32_u32_small.
  - rewrite (ldn_stn_ne 4 4) by lia. apply IH. lia.
Qed.

Lemma hd_put_ok m bl :
  Z.of_nat (length bl) < 2147483648 → Forall (λ x, 0 ≤ x < 2147483648) bl →
  hd_ok (hd_put m bl (length bl)) bl.
Proof.
  intros Hl Hbl. split; [by apply hd_put_n|]. intros i x Hx. apply hd_put_block; [|done|].
  - by apply lookup_lt_Some in Hx.
  - rewrite Forall_lookup in Hbl. eauto.
Qed.

(** ** Recovery, on the disk *)

Section Area.
Context (st : Z).

Definition log_area (x : Z) : Prop := st ≤ x ≤ st + LOGBLOCKS.
Definition home (x : Z) : Prop := 0 ≤ x < 2147483648 ∧ ¬ log_area x.

(** [log.start + tail + 1] *)
Definition slot (i : nat) : Z := st + Z.of_nat i + 1.

Definition blocks_ok (bl : list Z) : Prop :=
  Forall home bl ∧ NoDup bl ∧ Z.of_nat (length bl) ≤ LOGBLOCKS.

(** The disk [d] is recovered to the home blocks [h] by installing [bl]. *)
Definition recovers_with (bl : list Z) (d : disk) (h : Z → mem) : Prop :=
  hd_ok (dblk d st) bl ∧ blocks_ok bl ∧
  (∀ i x, bl !! i = Some x → h x = dblk d (slot i)) ∧
  (∀ x, home x → x ∉ bl → h x = dblk d x).

Definition recovers (d : disk) (h : Z → mem) : Prop := ∃ bl, recovers_with bl d h.

(** The header is empty and the home blocks are [h]. *)
Definition settled (d : disk) (h : Z → mem) : Prop :=
  hd_n (dblk d st) = 0 ∧ ∀ x, home x → h x = dblk d x.

Lemma hd_ok_nil m : hd_ok m [] ↔ hd_n m = 0.
Proof. unfold hd_ok. split; [naive_solver|]. intros ->. done. Qed.

Lemma blocks_nil : blocks_ok [].
Proof. split_and!; [done|constructor|done]. Qed.

Lemma settled_recovers d h : settled d h → recovers d h.
Proof.
  intros [Hn Hh]. exists []. split_and!; [by apply hd_ok_nil|apply blocks_nil|done|]. auto.
Qed.

(** The writes of [write_log]: block [i] of [bl] to slot [i]. *)
Definition log_ws (c : Z → mem) (bl : list Z) : list (Z * mem) := imap (λ i x, (slot i, c x)) bl.

(** The writes of [install_trans]. *)
Definition home_ws (c : Z → mem) (bl : list Z) : list (Z * mem) := (λ x, (x, c x)) <$> bl.

Lemma slot_area (i n : nat) : (i < n)%nat → Z.of_nat n ≤ LOGBLOCKS → log_area (slot i) ∧ slot i ≠ st.
Proof. intros. unfold log_area, slot. lia. Qed.

Lemma elem_of_log_ws c bl w : w ∈ log_ws c bl ↔ ∃ i x, bl !! i = Some x ∧ w = (slot i, c x).
Proof. unfold log_ws. rewrite elem_of_lookup_imap. naive_solver. Qed.

Lemma log_ws_keys c bl x :
  x ∈ keys (log_ws c bl) → ∃ i, (i < length bl)%nat ∧ x = slot i.
Proof.
  unfold keys. rewrite list_elem_of_fmap. intros (w & -> & (i & y & Hi & ->)%elem_of_log_ws).
  apply lookup_lt_Some in Hi. eauto.
Qed.

Lemma keys_log_ws c bl : keys (log_ws c bl) = slot <$> seq 0 (length bl).
Proof.
  unfold keys, log_ws. rewrite fmap_imap.
  assert (∀ k, imap (λ i, fst ∘ (λ x, (slot (k + i), c x))) bl = slot <$> seq k (length bl)) as Hg.
  { induction bl as [|x bl IH]; intros k; [done|]. rewrite imap_cons. simpl. f_equal; [by rewrite Nat.add_0_r|].
    rewrite <-IH. apply imap_ext. intros i y _. cbn. do 2 f_equal. lia. }
  exact (Hg 0%nat).
Qed.

Lemma log_ws_NoDup c bl : NoDup (keys (log_ws c bl)).
Proof.
  rewrite keys_log_ws. apply NoDup_fmap_2; [|apply NoDup_seq]. intros i j. unfold slot. lia.
Qed.

Lemma keys_home_ws c bl : keys (home_ws c bl) = bl.
Proof. unfold keys, home_ws. rewrite <-list_fmap_compose. by apply list_fmap_id. Qed.

Lemma blocks_home bl x : blocks_ok bl → x ∈ bl → home x.
Proof. intros (H & _) Hx. rewrite Forall_forall in H. auto. Qed.

Lemma home_not_area x y : home x → log_area y → x ≠ y.
Proof. intros [_ Hx] Hy ->. done. Qed.

Lemma st_area : log_area st.
Proof. unfold log_area, LOGBLOCKS, MAXOPBLOCKS. lia. Qed.

(** A crash while the log blocks are written: nothing has happened. *)
Lemma crash_logging d h c bl k :
  settled d h → blocks_ok bl → settled (dwrites (take k (log_ws c bl)) d) h.
Proof.
  intros [Hn Hh] (_ & _ & Hl). split.
  - rewrite dwrites_other; [done|]. intros (i & Hi & Heq)%keys_take%log_ws_keys.
    by destruct (slot_area i (length bl)).
  - intros x Hx. rewrite dwrites_other; [by apply Hh|]. intros (i & Hi & ->)%keys_take%log_ws_keys.
    by destruct (slot_area i (length bl)), Hx.
Qed.

(** The header is written: the transaction has happened. *)
Lemma crash_committed d c bl m :
  blocks_ok bl → (∀ x, home x → x ∉ bl → c x = dblk d x) → hd_ok m bl →
  recovers_with bl (dwrite (dwrites (log_ws c bl) d) (st, m)) c.
Proof.
  intros Hbl Hc Hm. pose proof Hbl as (_ & _ & Hl). split_and!; [|done|..].
  - by rewrite dblk_dwrite, decide_True.
  - intros i x Hi. pose proof (lookup_lt_Some _ _ _ Hi).
    rewrite dblk_dwrite, decide_False by (by apply (slot_area i (length bl))).
    symmetry. apply dwrites_at; [apply log_ws_NoDup|]. apply elem_of_log_ws. eauto.
  - intros x Hx Hnin. rewrite dblk_dwrite, decide_False by (by intros ->; apply Hx, st_area).
    rewrite dwrites_other; [by apply Hc|]. intros (i & Hi & ->)%log_ws_keys.
    by destruct (slot_area i (length bl)), Hx.
Qed.

(** Installing keeps the log; any prefix of it recovers to the same. *)
Lemma crash_installing d c bl k :
  recovers_with bl d c → recovers_with bl (dwrites (take k (home_ws c bl)) d) c.
Proof.
  intros (Hh & Hbl & Hs & Ho). pose proof Hbl as (_ & Hnd & Hl).
  assert (∀ y, log_area y → y ∉ keys (take k (home_ws c bl))) as Hk.
  { intros y Hy Hin%keys_take. rewrite keys_home_ws in Hin.
    by destruct (home_not_area y y (blocks_home _ _ Hbl Hin) Hy). }
  split_and!; [|done|..].
  - rewrite dwrites_other; [done|]. apply Hk, st_area.
  - intros i x Hi. rewrite dwrites_other; [by apply Hs|]. apply Hk.
    apply (slot_area i (length bl)); [by eapply lookup_lt_Some|done].
  - intros x Hx Hnin. rewrite dwrites_other; [by apply Ho|]. intros Hin%keys_take.
    by rewrite keys_home_ws in Hin.
Qed.

Lemma installed d c bl m :
  recovers_with bl d c → hd_n m = 0 → settled (dwrite (dwrites (home_ws c bl) d) (st, m)) c.
Proof.
  intros (Hh & Hbl & Hs & Ho) Hm. pose proof Hbl as (_ & Hnd & Hl). split.
  - by rewrite dblk_dwrite, decide_True.
  - intros x Hx. rewrite dblk_dwrite, decide_False by (by intros ->; apply Hx, st_area).
    destruct (decide (x ∈ bl)) as [Hin|Hnin].
    + symmetry. apply dwrites_at; [by rewrite keys_home_ws|]. apply list_elem_of_fmap. eauto.
    + rewrite dwrites_other; [by apply Ho|]. by rewrite keys_home_ws.
Qed.

(** All the writes of a commit, in order. *)
Definition commit_ws (c : Z → mem) (bl : list Z) (h1 h2 : mem) : list (Z * mem) :=
  log_ws c bl ++ [(st, h1)] ++ home_ws c bl ++ [(st, h2)].

(** A disk with an empty header and home blocks [h], then any prefix of a
    commit of the blocks [bl] of [c]. *)
Lemma commit_crash d h c bl h1 h2 k :
  settled d h → blocks_ok bl → (∀ x, home x → x ∉ bl → c x = h x) →
  hd_ok h1 bl → hd_n h2 = 0 →
  recovers (dwrites (take k (commit_ws c bl h1 h2)) d) h ∨
  recovers (dwrites (take k (commit_ws c bl h1 h2)) d) c.
Proof.
  intros Hd Hbl Hc H1 H2. unfold commit_ws.
  assert (∀ x, home x → x ∉ bl → c x = dblk d x) as Hc'.
  { intros x Hx Hn. rewrite Hc by done. by apply Hd. }
  set (a := log_ws c bl). set (b := home_ws c bl).
  destruct (decide (k ≤ length a)%nat) as [Hk|Hk].
  - left. rewrite take_app_le by done. apply settled_recovers. by apply crash_logging.
  - right. rewrite take_app_ge by lia. remember (k - length a)%nat as j eqn:Hj.
    destruct j as [|j]; [lia|]. rewrite dwrites_app. cbn [app take].
    pose proof (crash_committed d c bl h1 Hbl Hc' H1) as Hr. fold a in Hr.
    change (recovers (dwrites (take j (b ++ [(st, h2)])) (dwrite (dwrites a d) (st, h1))) c).
    destruct (decide (j ≤ length b)%nat) as [Hjb|Hjb].
    + rewrite take_app_le by done. exists bl. by apply crash_installing.
    + rewrite take_ge by (rewrite length_app; simpl; lia). rewrite dwrites_app.
      apply settled_recovers. by apply installed.
Qed.
End Area.
