(* ===== verification/LogCorrect.v ===== *)
(** * The log commits atomically

    Proved against the promise of the buffer cache ([BufSpec]) only: what each
    operation of [kernel/log.c] does to the view of the cache, and which disk
    writes it makes, in order. *)

From S2P Require Import Prelude Mem Layout BufIface Log LogDisk.

(** One block read, replaced and written through. *)
Definition v_put (y : Z) (m : mem) (v : bview) : bview :=
  BView (dwrite (bv_disk v) (y, m)) (bv_trace v ++ [(y, m)]) (<[y := m]> (bv_over v)) (bv_held v) (bv_pin v).
Definition v_puts (ws : list (Z * mem)) (v : bview) : bview := foldl (λ v w, v_put w.1 w.2 v) v ws.

Lemma cur_set y m v x : bv_cur (v_set y m v) x = if decide (x = y) then m else bv_cur v x.
Proof.
  unfold bv_cur, v_set. cbn. destruct (decide (x = y)) as [->|]; [by rewrite lookup_insert_eq|].
  by rewrite lookup_insert_ne.
Qed.

Lemma cur_put y m v x : bv_cur (v_put y m v) x = if decide (x = y) then m else bv_cur v x.
Proof.
  unfold bv_cur, v_put. cbn [bv_disk bv_over]. destruct (decide (x = y)) as [->|]; [by rewrite lookup_insert_eq|].
  rewrite lookup_insert_ne by done. by rewrite dblk_dwrite, decide_False.
Qed.

(** A block replaced and written through is clean. *)
Lemma write_set y m v : v_write y (v_set y m v) = v_put y m v.
Proof. unfold v_write. by rewrite cur_set, decide_True. Qed.

Lemma clean_put y m v : bv_cur (v_put y m v) y = dblk (bv_disk (v_put y m v)) y.
Proof. rewrite cur_put, decide_True by done. unfold v_put. cbn [bv_disk]. by rewrite dblk_dwrite, decide_True. Qed.

Lemma v_puts_snoc ws w v : v_puts (ws ++ [w]) v = v_put w.1 w.2 (v_puts ws v).
Proof. unfold v_puts. by rewrite foldl_snoc. Qed.

Lemma v_puts_fields ws v :
  bv_disk (v_puts ws v) = dwrites ws (bv_disk v) ∧ bv_trace (v_puts ws v) = bv_trace v ++ ws ∧
  bv_held (v_puts ws v) = bv_held v ∧ bv_pin (v_puts ws v) = bv_pin v.
Proof.
  induction ws as [|[y m] ws IH] using rev_ind; [by rewrite app_nil_r|].
  rewrite v_puts_snoc, dwrites_app, app_assoc. destruct IH as (? & IH2 & IH3 & IH4). cbn. split_and!; congruence.
Qed.

Lemma cur_puts ws v x : x ∉ keys ws → bv_cur (v_puts ws v) x = bv_cur v x.
Proof.
  induction ws as [|[y m] ws IH] using rev_ind; [done|]. unfold keys. rewrite fmap_app.
  intros [Hx Hy]%not_elem_of_app. rewrite v_puts_snoc, cur_put, decide_False by set_solver. by apply IH.
Qed.

(** A block written through is clean. *)
Lemma cur_puts_at ws v x :
  x ∈ keys ws → bv_cur (v_puts ws v) x = dblk (bv_disk (v_puts ws v)) x.
Proof.
  induction ws as [|[y m] ws IH] using rev_ind; [set_solver|]. unfold keys. rewrite fmap_app, elem_of_app.
  rewrite v_puts_snoc, cur_put. cbn [v_put bv_disk fst snd]. rewrite dblk_dwrite. intros Hx. case_decide; [done|].
  apply IH. set_solver.
Qed.

Lemma cur_pin y v : bv_cur (v_pin y v) = bv_cur v.
Proof. done. Qed.

Section LogCorrect.
Context {S : Type} {BO : BufOps S} {BS : BufSpec S} (st : Z) (Hst : 0 ≤ st) (Hst' : st + LOGBLOCKS < 2147483648).

(** The log in memory lists [bl]. *)
Definition lcore (bl : list Z) (s : logst S) : Prop :=
  lg_start s = st ∧ lg_dev s = ROOTDEV ∧ lh_n s = Z.of_nat (length bl) ∧
  take (length bl) (lh_block s) = bl ∧ length (lh_block s) = Z.to_nat LOGBLOCKS ∧ blocks_ok st bl.

Lemma lcore_set_s bl s x : lcore bl (set_s x s) ↔ lcore bl s.
Proof. done. Qed.

Lemma wp_lh_get bl (s : logst S) i x Q :
  lcore bl s → bl !! i = Some x → Q x s → wp (lh_get (Z.of_nat i)) Q s.
Proof.
  intros (_ & _ & _ & Ht & Hl & (_ & _ & Hn)) Hi HQ. unfold lh_get. pose proof (lookup_lt_Some _ _ _ Hi).
  wp_simpl.
  - rewrite negb_false_iff, andb_true_iff, Z.leb_le, Z.ltb_lt. lia.
  - rewrite Nat2Z.id. rewrite <-Ht in Hi. rewrite lookup_take_Some in Hi. destruct Hi as [-> _]. done.
Qed.

(** The buffer operations, seen in the state of the log. *)
Lemma wp_lread v (s : logst S) y Q :
  bo_ok v (lg_s s) → 0 ≤ y < 4294967296 → y ∉ (map_img (bv_held v) : gset Z) →
  y ∈ bv_pin v ∨ Z.of_nat (size (bv_used v)) < NBUF →
  (∀ b x, bv_held v !! b = None → bo_ok (v_hold b y v) x → Q b (set_s x s)) →
  wp (bio (bo_bread (u32 ROOTDEV) (u32 y))) Q s.
Proof.
  intros Hok Hy Hni Hroom HQ. unfold bio. rewrite wp_lift, !u32_small by (try done; unfold ROOTDEV; lia).
  wp_apply bo_bread_spec; [done..|]. cbn. intros b x [Hb Hok']. by apply HQ.
Qed.

Lemma wp_lset v (s : logst S) b y m Q :
  bo_ok v (lg_s s) → bv_held v !! b = Some y →
  (∀ x, bo_ok (v_set y m v) x → Q tt (set_s x s)) → wp (set_bdata b m) Q s.
Proof. intros Hok Hh HQ. unfold set_bdata. rewrite wp_modify. apply HQ. by apply bo_set_data_spec. Qed.

Lemma wp_lwrite v (s : logst S) b y Q :
  bo_ok v (lg_s s) → bv_held v !! b = Some y →
  (∀ x, bo_ok (v_write y v) x → Q tt (set_s x s)) → wp (bio (bo_bwrite b)) Q s.
Proof.
  intros Hok Hh HQ. unfold bio. rewrite wp_lift. wp_apply bo_bwrite_spec; [done..|].
  intros [] x Hx. by apply HQ.
Qed.

Lemma wp_lrelse v (s : logst S) b y Q :
  bo_ok v (lg_s s) → bv_held v !! b = Some y →
  y ∈ bv_pin v ∨ bv_cur v y = dblk (bv_disk v) y →
  (∀ x, bo_ok (v_drop b v) x → Q tt (set_s x s)) → wp (bio (bo_brelse b)) Q s.
Proof.
  intros Hok Hh Hcl HQ. unfold bio. rewrite wp_lift. wp_apply bo_brelse_spec; [done..|].
  intros [] x Hx. by apply HQ.
Qed.

Lemma wp_lunpin v (s : logst S) b y Q :
  bo_ok v (lg_s s) → bv_held v !! b = Some y → y ∈ bv_pin v →
  (∀ x, bo_ok (v_unpin y v) x → Q tt (set_s x s)) → wp (bio (bo_bunpin b)) Q s.
Proof.
  intros Hok Hh Hcl HQ. unfold bio. rewrite wp_lift. wp_apply bo_bunpin_spec; [done..|].
  intros [] x Hx. by apply HQ.
Qed.

Lemma wp_lpin v (s : logst S) b y Q :
  bo_ok v (lg_s s) → bv_held v !! b = Some y → y ∉ bv_pin v →
  (∀ x, bo_ok (v_pin y v) x → Q tt (set_s x s)) → wp (bio (bo_bpin b)) Q s.
Proof.
  intros Hok Hh Hcl HQ. unfold bio. rewrite wp_lift. wp_apply bo_bpin_spec; [done..|].
  intros [] x Hx. by apply HQ.
Qed.

(** *** The loop bodies: two buffers held at once *)

Lemma img_empty (v : bview) y : bv_held v = ∅ → y ∉ (map_img (bv_held v) : gset Z).
Proof. intros ->. rewrite elem_of_map_img. by intros (? & ?). Qed.

Lemma img_one (v : bview) b x y : bv_held v = ∅ → y ≠ x → y ∉ (map_img (bv_held (v_hold b x v)) : gset Z).
Proof.
  cbn. intros -> Hne. rewrite elem_of_map_img. intros (c & Hc). apply lookup_insert_Some in Hc.
  destruct Hc as [[_ ->]|[_ Hc]]; [done|]. by rewrite lookup_empty in Hc.
Qed.

Lemma used_none v : bv_held v = ∅ → bv_used v = bv_pin v.
Proof. intros Hh. unfold bv_used. rewrite Hh, map_img_empty_L. by rewrite right_id_L by apply _. Qed.

Lemma used_one v b x : bv_held v = ∅ → bv_used (v_hold b x v) = bv_pin v ∪ {[x]}.
Proof.
  intros Hh. unfold bv_used, v_hold. cbn. rewrite Hh, insert_empty, map_img_singleton_L. done.
Qed.

(** Block [y] read and its contents copied to [x], which is written. *)
Definition v_two (b1 y1 b2 y2 : Z) (v : bview) : bview := v_hold b2 y2 (v_hold b1 y1 v).

Lemma two_held b1 y1 b2 y2 (v : bview) :
  bv_held v = ∅ → bv_held (v_hold b1 y1 v) !! b2 = None →
  b1 ≠ b2 ∧ bv_held (v_two b1 y1 b2 y2 v) !! b1 = Some y1 ∧ bv_held (v_two b1 y1 b2 y2 v) !! b2 = Some y2.
Proof.
  cbn. intros Hh Hb. assert (b1 ≠ b2) as Hne. { intros ->. by rewrite lookup_insert_eq in Hb. }
  split_and!; [done| |]; [rewrite lookup_insert_ne by congruence|]; by rewrite lookup_insert_eq.
Qed.

Lemma two_dropped b1 y1 b2 y2 (h : gmap Z Z) :
  h = ∅ → b1 ≠ b2 →
  delete b1 (delete b2 (<[b2 := y2]> (<[b1 := y1]> h))) = h ∧
  delete b2 (delete b1 (<[b2 := y2]> (<[b1 := y1]> h))) = h.
Proof.
  intros -> Hne. split; apply map_eq; intros c.
  - rewrite lookup_empty. destruct (decide (c = b1)) as [->|]; [by rewrite lookup_delete_eq|].
    rewrite lookup_delete_ne by done. destruct (decide (c = b2)) as [->|]; [by rewrite lookup_delete_eq|].
    by rewrite lookup_delete_ne, !lookup_insert_ne by done.
  - rewrite lookup_empty. destruct (decide (c = b2)) as [->|]; [by rewrite lookup_delete_eq|].
    rewrite lookup_delete_ne by done. destruct (decide (c = b1)) as [->|]; [by rewrite lookup_delete_eq|].
    by rewrite lookup_delete_ne, !lookup_insert_ne by done.
Qed.

Lemma slot_range (i : nat) : (i < Z.to_nat LOGBLOCKS)%nat → 0 ≤ slot st i < 4294967296.
Proof. unfold slot, LOGBLOCKS, MAXOPBLOCKS in *. lia. Qed.

Lemma lcore_at bl (s : logst S) k y :
  lcore bl s → bl !! k = Some y →
  0 ≤ y < 4294967296 ∧ 0 ≤ slot st k < 4294967296 ∧ y ≠ slot st k ∧ home st y.
Proof.
  intros (_ & _ & _ & _ & _ & Hb) Hk. pose proof Hb as (_ & _ & Hl).
  pose proof (lookup_lt_Some _ _ _ Hk) as Hlt. apply list_elem_of_lookup_2 in Hk.
  pose proof (blocks_home _ _ _ Hb Hk) as Hy. destruct (Hy) as [Hr _].
  assert (k < Z.to_nat LOGBLOCKS)%nat by lia.
  split_and!; [lia..|by apply slot_range|by apply slot_range| |done].
  eapply home_not_area; [exact Hy|]. by eapply slot_area.
Qed.

Lemma write_log_body bl v (s : logst S) k y :
  lcore bl s → bo_ok v (lg_s s) → bv_held v = ∅ → bl !! k = Some y → y ∈ bv_pin v →
  Z.of_nat (size (bv_pin v)) < NBUF →
  wp (write_log_step (Z.of_nat k)) (λ _ s', ∃ x, s' = set_s x s ∧ bo_ok (v_put (slot st k) (bv_cur v y) v) x) s.
Proof.
  intros Hc Hok Hh Hk Hp Hsz. destruct (lcore_at _ _ _ _ Hc Hk) as (Hy & Hs & Hne & _).
  destruct (Hc) as (Es & Ed & _). unfold write_log_step. wp_simpl. rewrite Es, Ed.
  change (st + Z.of_nat k + 1) with (slot st k).
  apply (wp_lread v); [done..|by apply img_empty|by right; rewrite used_none|]. intros to x1 Hto Hok1.
  wp_step. eapply wp_lh_get; [apply lcore_set_s, Hc|exact Hk|]. wp_step.
  apply (wp_lread (v_hold to (slot st k) v)); [done..|by apply img_one|by left|]. intros from x2 Hfr Hok2.
  destruct (two_held to (slot st k) from y v Hh Hfr) as (Hneb & Ht & Hf).
  wp_simpl. unfold bdata at 1. cbn [lg_s set_s]. rewrite (proj1 (bo_data_spec _ _ _ _ Hok2 Hf)).
  eapply wp_lset; [exact Hok2|exact Ht|]. intros x3 Hok3. wp_step.
  eapply wp_lwrite; [exact Hok3|exact Ht|]. intros x4 Hok4. wp_step. rewrite write_set in Hok4.
  eapply wp_lrelse; [exact Hok4|exact Hf|by left|]. intros x5 Hok5.
  eapply wp_lrelse; [exact Hok5| |right; exact (clean_put (slot st k) _ _)|].
  - cbn. rewrite lookup_delete_ne by done. exact Ht.
  - intros x6 Hok6. exists x6. split; [done|]. revert Hok6. unfold v_drop, v_put. cbn.
    rewrite (proj1 (two_dropped to (slot st k) from y (bv_held v) Hh Hneb)). done.
Qed.

(** A loop over the blocks of the log, each of which is written once: [ws i]
    is the write made for block [i], [pin] the effect on the pins. *)
Lemma seqZ_nat n : seqZ 0 (Z.of_nat n) = Z.of_nat <$> seq 0 n.
Proof. unfold seqZ. rewrite Nat2Z.id. apply list_fmap_ext. intros. lia. Qed.

Lemma wp_for_tail (bl : list Z) (body : Z → M (logst S) unit) (I : nat → logst S → Prop) Q s :
  I 0%nat s →
  (∀ k y s', bl !! k = Some y → I k s' → wp (body (Z.of_nat k)) (λ _, I (k + 1)%nat) s') →
  (∀ s', I (length bl) s' → Q tt s') →
  wp (for_each (seqZ 0 (Z.of_nat (length bl))) body) Q s.
Proof.
  intros H0 Hstep Hend. apply wp_for_each with (I := λ done, I (length done)); [done| |].
  - intros done x rest s' Heq HI. rewrite seqZ_nat in Heq.
    assert ((Z.of_nat <$> seq 0 (length bl)) !! length done = Some x) as Hx.
    { rewrite Heq. by rewrite lookup_app_r, Nat.sub_diag by lia. }
    rewrite list_lookup_fmap_Some in Hx. destruct Hx as (k & -> & Hk).
    apply lookup_seq in Hk as [-> Hk]. destruct (lookup_lt_is_Some_2 bl (length done) Hk) as [y Hy].
    rewrite length_app. cbn [length]. by apply (Hstep _ y).
  - intros s' HI. apply Hend. by rewrite length_seqZ, Nat2Z.id in HI.
Qed.

Lemma log_ws_take c bl k y :
  bl !! k = Some y → log_ws st c (take (k + 1) bl) = log_ws st c (take k bl) ++ [(slot st k, c y)].
Proof.
  intros Hk. rewrite Nat.add_1_r, (take_S_r _ _ _ Hk). unfold log_ws. rewrite imap_app. f_equal.
  cbn. do 3 f_equal. rewrite length_take. apply lookup_lt_Some in Hk. lia.
Qed.

Lemma home_ws_take c bl k y :
  bl !! k = Some y → home_ws c (take (k + 1) bl) = home_ws c (take k bl) ++ [(y, c y)].
Proof. intros Hk. rewrite Nat.add_1_r, (take_S_r _ _ _ Hk). unfold home_ws. by rewrite fmap_app. Qed.

Lemma slot_not_home c bl k y :
  blocks_ok st bl → y ∈ bl → y ∉ keys (log_ws st c (take k bl)).
Proof.
  intros Hb Hy (i & Hi & ->)%log_ws_keys. pose proof (blocks_home _ _ _ Hb Hy) as [_ Hn]. apply Hn.
  destruct Hb as (_ & _ & Hl). rewrite length_take in Hi. by apply (slot_area st i (length bl)); [lia|].
Qed.

Lemma write_log_spec bl v (s : logst S) :
  lcore bl s → bo_ok v (lg_s s) → bv_held v = ∅ → bv_pin v = list_to_set bl →
  Z.of_nat (length bl) < NBUF →
  wp write_log (λ _ s', ∃ x, s' = set_s x s ∧ bo_ok (v_puts (log_ws st (bv_cur v) bl) v) x) s.
Proof.
  intros Hc Hok Hh Hp Hn. unfold write_log. wp_step. wp_step. destruct (Hc) as (_ & _ & -> & _ & _ & Hb).
  apply wp_for_tail with (I := λ k s', ∃ x, s' = set_s x s ∧ bo_ok (v_puts (log_ws st (bv_cur v) (take k bl)) v) x).
  - exists (lg_s s). split; [by destruct s|]. done.
  - intros k y s' Hk (x & -> & Hx).
    destruct (v_puts_fields (log_ws st (bv_cur v) (take k bl)) v) as (_ & _ & Eh & Ep).
    wp_apply (write_log_body bl (v_puts (log_ws st (bv_cur v) (take k bl)) v) (set_s x s) k y);
      [done|done|congruence|done| | |].
    + rewrite Ep, Hp, elem_of_list_to_set. by eapply list_elem_of_lookup_2.
    + rewrite Ep, Hp. rewrite size_list_to_set by apply Hb. done.
    + intros [] s'' (x' & -> & Hx'). exists x'. split; [done|].
      rewrite (log_ws_take _ _ _ _ Hk), v_puts_snoc. cbn [fst snd].
      rewrite cur_puts in Hx'; [done|]. apply slot_not_home; [done|]. by eapply list_elem_of_lookup_2.
  - intros s' (x & -> & Hx). exists x. split; [done|]. by rewrite take_ge in Hx by lia.
Qed.

(** *** The header *)

Lemma write_head_spec bl v (s : logst S) :
  lcore bl s → bo_ok v (lg_s s) → bv_held v = ∅ → st ∉ bv_pin v → Z.of_nat (size (bv_pin v)) < NBUF →
  wp write_head (λ _ s', ∃ x, s' = set_s x s ∧
    bo_ok (v_put st (hd_put (bv_cur v st) bl (length bl)) v) x) s.
Proof.
  intros Hc Hok Hh Hp Hsz. unfold write_head. wp_simpl. destruct (Hc) as (Es & Ed & En & Et & El & Hb).
  rewrite Es, Ed. unfold LOGBLOCKS, MAXOPBLOCKS in Hst'.
  apply (wp_lread v); [done|lia|by apply img_empty|by right; rewrite used_none|]. intros b x1 Hbn Hok1.
  assert (∀ w, bv_held (v_set st w (v_hold b st v)) !! b = Some st) as Hhb.
  { intros w. cbn. by rewrite lookup_insert_eq. }
  wp_simpl. cbn [lh_n set_s]. unfold bdata at 1. cbn [lg_s set_s].
  rewrite (proj1 (bo_data_spec _ _ _ st Hok1 (Hhb ∅))). change (bv_cur (v_hold b st v) st) with (bv_cur v st).
  eapply wp_lset; [exact Hok1|exact (Hhb ∅)|]. intros x2 Hok2. wp_step. rewrite En.
  apply wp_for_tail with (I := λ k s', ∃ x, s' = set_s x s ∧
    bo_ok (v_set st (hd_put (bv_cur v st) bl k) (v_hold b st v)) x).
  - exists x2. split; [done|by rewrite En in Hok2].
  - intros k y s' Hk (x & -> & Hx). wp_step. eapply wp_lh_get; [apply lcore_set_s, Hc|exact Hk|].
    wp_simpl. unfold bdata. cbn [lg_s set_s]. rewrite (proj1 (bo_data_spec _ _ _ st Hx (Hhb _))).
    rewrite cur_set, decide_True by done. eapply wp_lset; [exact Hx|exact (Hhb _)|].
    intros x3 Hx3. exists x3. split; [done|]. rewrite Nat.add_1_r, hd_put_S, Hk.
    revert Hx3. unfold v_set. cbn. by rewrite insert_insert_eq.
  - intros s' (x & -> & Hx). wp_step. eapply wp_lwrite; [exact Hx|exact (Hhb _)|]. intros x3 Hx3.
    rewrite write_set in Hx3. eapply wp_lrelse; [exact Hx3|exact (Hhb ∅)|right; exact (clean_put st _ _)|].
    intros x4 Hx4. exists x4. split; [done|]. revert Hx4. unfold v_drop, v_put. cbn.
    rewrite Hh, delete_insert_id; [done|]. by rewrite lookup_empty.
Qed.

(** *** Installing *)

Definition v_pins (p : gset Z) (v : bview) : bview :=
  BView (bv_disk v) (bv_trace v) (bv_over v) (bv_held v) p.

Definition inst_pin (recovering : bool) (y : Z) (p : gset Z) : gset Z := if recovering then p else p ∖ {[y]}.

Lemma install_body (rec : bool) bl v (s : logst S) k y :
  lcore bl s → bo_ok v (lg_s s) → bv_held v = ∅ → bl !! k = Some y →
  (if rec then bv_pin v = ∅ else y ∈ bv_pin v) →
  Z.of_nat (size (bv_pin v)) < NBUF →
  bv_cur v (slot st k) = dblk (bv_disk v) (slot st k) →
  wp (install_step rec (Z.of_nat k)) (λ _ s', ∃ x, s' = set_s x s ∧
    bo_ok (v_pins (inst_pin rec y (bv_pin v)) (v_put y (bv_cur v (slot st k)) v)) x) s.
Proof.
  intros Hc Hok Hh Hk Hp Hsz Hcl. destruct (lcore_at _ _ _ _ Hc Hk) as (Hy & Hs & Hne & _).
  destruct (Hc) as (Es & Ed & _). unfold install_step. wp_simpl. rewrite Es, Ed.
  change (st + Z.of_nat k + 1) with (slot st k).
  apply (wp_lread v); [done..|by apply img_empty|by right; rewrite used_none|]. intros lb x1 Hlb Hok1.
  wp_step. eapply wp_lh_get; [apply lcore_set_s, Hc|exact Hk|]. wp_step.
  apply (wp_lread (v_hold lb (slot st k) v)); [done..|by apply img_one| |].
  { rewrite used_one by done. destruct rec; [right|by left]. rewrite Hp, left_id_L by apply _.
    rewrite size_singleton. unfold NBUF, MAXOPBLOCKS. lia. }
  intros db x2 Hdb Hok2.
  destruct (two_held lb (slot st k) db y v Hh Hdb) as (Hneb & Hl & Hd).
  wp_simpl. unfold bdata at 1. cbn [lg_s set_s]. rewrite (proj1 (bo_data_spec _ _ _ _ Hok2 Hl)).
  eapply wp_lset; [exact Hok2|exact Hd|]. intros x3 Hok3. wp_step.
  eapply wp_lwrite; [exact Hok3|exact Hd|]. intros x4 Hok4. wp_step. rewrite write_set in Hok4.
  change (bv_cur (v_hold db y (v_hold lb (slot st k) v)) (slot st k)) with (bv_cur v (slot st k)) in Hok4.
  set (w := v_put y (bv_cur v (slot st k)) (v_two lb (slot st k) db y v)).
  assert (wp (if rec then mret tt else bio (bo_bunpin db)) (λ _ s', ∃ x, s' = set_s x s ∧
    bo_ok (v_pins (inst_pin rec y (bv_pin v)) w) x) (set_s x4 s)) as Hun.
  { destruct rec; [rewrite wp_ret; exists x4; by split|].
    eapply wp_lunpin; [exact Hok4|exact Hd|exact Hp|]. intros x5 Hx5. exists x5. done. }
  wp_apply Hun. intros [] s' (x5 & -> & Hok5). wp_step.
  eapply wp_lrelse; [exact Hok5|exact Hl|right|].
  { change (bv_cur w (slot st k) = dblk (bv_disk w) (slot st k)). unfold w.
    rewrite cur_put, decide_False by done. unfold v_put. cbn [bv_disk]. rewrite dblk_dwrite, decide_False by done.
    exact Hcl. }
  intros x6 Hok6. eapply wp_lrelse; [exact Hok6| |right; exact (clean_put y _ (v_two lb (slot st k) db y v))|].
  - cbn. rewrite lookup_delete_ne by congruence. exact Hd.
  - intros x7 Hok7. exists x7. split; [done|]. revert Hok7. unfold v_drop, w, v_put, v_pins. cbn.
    rewrite (proj2 (two_dropped lb (slot st k) db y (bv_held v) Hh Hneb)). done.
Qed.

Definition left_pins (rec : bool) (bl : list Z) (k : nat) : gset Z :=
  if rec then ∅ else list_to_set (drop k bl).

Lemma left_pins_S rec bl k y :
  NoDup bl → bl !! k = Some y → inst_pin rec y (left_pins rec bl k) = left_pins rec bl (k + 1).
Proof.
  intros Hnd Hk. destruct rec; [done|]. cbn. rewrite Nat.add_1_r, (drop_S _ _ _ Hk).
  assert (y ∉ drop (Datatypes.S k) bl) as Hy.
  { rewrite <-(take_drop_middle bl k y Hk) in Hnd. apply NoDup_app in Hnd as (_ & _ & Hnd).
    by apply NoDup_cons in Hnd as [? _]. }
  set_solver.
Qed.

Lemma left_pins_size rec bl k :
  Z.of_nat (length bl) < NBUF → Z.of_nat (size (left_pins rec bl k)) < NBUF.
Proof.
  intros Hl. destruct rec; [done|]. cbn.
  pose proof (size_list_to_set_le (drop k bl)) as Hs.
  rewrite length_drop in Hs. lia.
Qed.

Lemma home_not_slot bl c k i :
  blocks_ok st bl → (i < length bl)%nat → slot st i ∉ keys (home_ws c (take k bl)).
Proof.
  intros Hb Hi. rewrite keys_home_ws. intros Hin%subseteq_take.
  pose proof (blocks_home _ _ _ Hb Hin) as [_ Hn]. apply Hn. destruct Hb as (_ & _ & Hl).
  by apply (slot_area st i (length bl)).
Qed.

Lemma install_spec rec bl v (s : logst S) c :
  lcore bl s → bo_ok v (lg_s s) → bv_held v = ∅ → bv_pin v = left_pins rec bl 0 →
  (rec = true ∨ Z.of_nat (length bl) < NBUF) →
  (∀ i y, bl !! i = Some y → c y = bv_cur v (slot st i) ∧
     bv_cur v (slot st i) = dblk (bv_disk v) (slot st i)) →
  wp (install_trans rec) (λ _ s', ∃ x, s' = set_s x s ∧
    bo_ok (v_pins ∅ (v_puts (home_ws c bl) v)) x) s.
Proof.
  intros Hc Hok Hh Hp Hn Hslot. unfold install_trans. wp_step. wp_step.
  destruct (Hc) as (_ & _ & -> & _ & _ & Hb).
  apply wp_for_tail with (I := λ k s', ∃ x, s' = set_s x s ∧
    bo_ok (v_pins (left_pins rec bl k) (v_puts (home_ws c (take k bl)) v)) x).
  - exists (lg_s s). split; [by destruct s|]. rewrite <-Hp. by destruct v.
  - intros k y s' Hk (x & -> & Hx).
    pose proof (lookup_lt_Some _ _ _ Hk) as Hlt.
    destruct (v_puts_fields (home_ws c (take k bl)) v) as (Ed & _ & Eh & Ep).
    destruct (Hslot k y Hk) as [Ec Ecl]. set (w := v_puts (home_ws c (take k bl)) v) in *.
    assert (bv_cur w (slot st k) = c y) as Ecw.
    { unfold w. rewrite cur_puts; [done|]. by apply home_not_slot. }
    wp_apply (install_body rec bl (v_pins (left_pins rec bl k) w) (set_s x s) k y);
      [done|done|by cbn; rewrite Eh|done| | | |].
    + destruct rec; [done|]. cbn. rewrite elem_of_list_to_set, (drop_S _ _ _ Hk). apply list_elem_of_here.
    + destruct Hn as [->|Hn]; [done|]. by apply left_pins_size.
    + change (bv_cur w (slot st k) = dblk (bv_disk w) (slot st k)).
      rewrite Ecw, Ed, dwrites_other by (by apply home_not_slot). congruence.
    + intros [] s'' (x' & -> & Hx'). exists x'. split; [done|].
      rewrite (home_ws_take _ _ _ _ Hk), v_puts_snoc. cbn [fst snd]. fold w. cbn [v_pins bv_pin] in Hx'.
      rewrite left_pins_S in Hx' by (done || apply Hb).
      change (bv_cur (v_pins (left_pins rec bl k) w) (slot st k)) with (bv_cur w (slot st k)) in Hx'.
      by rewrite Ecw in Hx'.
  - intros s' (x & -> & Hx). exists x. split; [done|]. rewrite take_ge in Hx by lia.
    unfold left_pins in Hx. rewrite drop_ge in Hx by lia. by destruct rec.
Qed.

(** *** Commit *)

Section Commit.
Context (bl : list Z) (v : bview) (Hb : blocks_ok st bl).
Let c := bv_cur v.
Let v1 := v_puts (log_ws st c bl) v.
Let h1 := hd_put (bv_cur v1 st) bl (length bl).
Let v2 := v_put st h1 v1.
Let v3 := v_pins ∅ (v_puts (home_ws c bl) v2).
Let h2 := hd_put (bv_cur v3 st) [] 0.
Let v4 := v_put st h2 v3.

Lemma commit_slot i y :
  bl !! i = Some y → c y = bv_cur v2 (slot st i) ∧ bv_cur v2 (slot st i) = dblk (bv_disk v2) (slot st i).
Proof.
  intros Hi. pose proof (lookup_lt_Some _ _ _ Hi) as Hlt. destruct (Hb) as (_ & _ & Hl).
  destruct (slot_area st i (length bl) Hlt Hl) as [_ Hns].
  assert ((slot st i, c y) ∈ log_ws st c bl) as Hin by (apply elem_of_log_ws; eauto).
  assert (slot st i ∈ keys (log_ws st c bl)) as Hk by (apply list_elem_of_fmap; eexists; split; [|exact Hin]; done).
  assert (bv_cur v1 (slot st i) = c y) as E1.
  { unfold v1. rewrite cur_puts_at by done. destruct (v_puts_fields (log_ws st c bl) v) as (-> & _).
    apply dwrites_at; [apply log_ws_NoDup|done]. }
  unfold v2. rewrite cur_put, decide_False by done. split; [congruence|].
  unfold v_put. cbn [bv_disk]. rewrite dblk_dwrite, decide_False by done. by apply cur_puts_at.
Qed.

Lemma commit_h1 : hd_ok h1 bl.
Proof.
  destruct Hb as (Hf & _ & Hl). apply hd_put_ok; [unfold LOGBLOCKS, MAXOPBLOCKS in *; lia|].
  eapply Forall_impl; [exact Hf|]. by intros x [Hx _].
Qed.

Lemma commit_h2 : hd_n h2 = 0.
Proof. unfold h2. by rewrite hd_put_n by (cbn; lia). Qed.

Lemma commit_fields :
  bv_disk v4 = dwrites (commit_ws st c bl h1 h2) (bv_disk v) ∧
  bv_trace v4 = bv_trace v ++ commit_ws st c bl h1 h2 ∧ bv_held v4 = bv_held v ∧ bv_pin v4 = ∅.
Proof.
  unfold v4, v_put. cbn [bv_disk bv_trace bv_held bv_pin]. unfold v3, v_pins. cbn [bv_disk bv_trace bv_held bv_pin].
  destruct (v_puts_fields (home_ws c bl) v2) as (-> & -> & -> & _). unfold v2, v_put, v1. cbn [bv_disk bv_trace bv_held bv_pin].
  destruct (v_puts_fields (log_ws st c bl) v) as (-> & -> & -> & _). split_and!; [| |done..].
  - unfold commit_ws. by rewrite !dwrites_app.
  - unfold commit_ws. by rewrite <-!app_assoc.
Qed.

Lemma commit_cur x : home st x → bv_cur v4 x = c x.
Proof.
  intros Hx. assert (x ≠ st) as Hxs by (by intros ->; apply Hx, st_area).
  unfold v4. rewrite cur_put, decide_False by done.
  change (bv_cur (v_puts (home_ws c bl) v2) x = c x).
  destruct (decide (x ∈ bl)) as [Hin|Hnin].
  - rewrite cur_puts_at by (by rewrite keys_home_ws). destruct (v_puts_fields (home_ws c bl) v2) as (-> & _).
    apply dwrites_at; [rewrite keys_home_ws; apply Hb|]. apply list_elem_of_fmap. eauto.
  - rewrite cur_puts by (by rewrite keys_home_ws). unfold v2. rewrite cur_put, decide_False by done.
    unfold v1. apply cur_puts. intros (i & Hi & ->)%log_ws_keys. apply Hx.
    destruct Hb as (_ & _ & Hl). by apply (slot_area st i (length bl)).
Qed.

Lemma st_not_logged : st ∉ bl.
Proof. intros Hin. apply (blocks_home _ _ _ Hb Hin). apply st_area. Qed.

Lemma commit_run (s : logst S) :
  lcore bl s → bo_ok v (lg_s s) → bv_held v = ∅ → bv_pin v = list_to_set bl →
  Z.of_nat (length bl) < NBUF → bl ≠ [] →
  wp commit (λ _ s', ∃ x, s' = set_n 0 (set_s x s) ∧ bo_ok v4 x) s.
Proof.
  intros Hc Hok Hh Hp Hn Hne. unfold commit. wp_simpl. destruct (Hc) as (Es & Ed & En & Et & El & _).
  assert (0 < length bl)%nat as Hpos by (clear -Hne; destruct bl; [done|cbn; lia]).
  rewrite En, (proj2 (Z.ltb_lt 0 (Z.of_nat (length bl)))) by lia. cbv iota. wp_step.
  destruct (v_puts_fields (log_ws st c bl) v) as (_ & _ & Eh1 & Ep1). fold v1 in Eh1, Ep1.
  assert (st ∉ bv_pin v1) as Hst1 by (rewrite Ep1, Hp, elem_of_list_to_set; apply st_not_logged).
  assert (Z.of_nat (size (bv_pin v1)) < NBUF) as Hsz.
  { rewrite Ep1, Hp, size_list_to_set by apply Hb. done. }
  wp_apply (write_log_spec bl v s); [done..|]. intros [] s1 (x1 & -> & Hx1). wp_step.
  wp_apply (write_head_spec bl v1 (set_s x1 s)); [done|done|congruence|done|done|].
  intros [] s2 (x2 & -> & Hx2). wp_step.
  wp_apply (install_spec false bl v2 (set_s x2 s) c); [done|exact Hx2| | |by right|exact commit_slot|].
  { cbn. congruence. } { cbn. rewrite Ep1. by rewrite drop_0. }
  intros [] s3 (x3 & -> & Hx3). wp_simpl.
  wp_apply (write_head_spec [] v3 (set_n 0 (set_s x3 s))); [|exact Hx3| |done|done|].
  - split_and!; try done. apply blocks_nil.
  - unfold v3, v_pins. cbn [bv_held]. destruct (v_puts_fields (home_ws c bl) v2) as (_ & _ & -> & _).
    cbn. congruence.
  - intros [] s4 (x4 & -> & Hx4). exists x4. done.
Qed.
End Commit.

(** *** The invariant between operations

    [h] is what the disk would be recovered to, [bl] the blocks logged by the
    current transaction, [out] the number of system calls in it. *)
Record linv (h : Z → mem) (bl : list Z) (out : Z) (v : bview) (s : logst S) : Prop := {
  li_core : lcore bl s;
  li_ok : bo_ok v (lg_s s);
  li_lock : lg_lock s = false;
  li_committing : lg_committing s = false;
  li_out : lg_outstanding s = out;
  li_pin : bv_pin v = list_to_set bl;
  li_settled : settled st (bv_disk v) h;
  li_clean : ∀ x, home st x → x ∉ bl → x ∉ (map_img (bv_held v) : gset Z) → bv_cur v x = h x
}.

Lemma begin_op_spec h bl out v s :
  linv h bl out v s → Z.of_nat (length bl) + (out + 1) * MAXOPBLOCKS ≤ LOGBLOCKS →
  wp begin_op (λ _ s', linv h bl (out + 1) v s') s.
Proof.
  intros [Hc Hok Hl Hcm Ho Hp Hs Hcl] Hroom. unfold begin_op. wp_simpl.
  - destruct Hc as (_ & _ & En & _). cbn. rewrite Hcm, En, Ho. apply Z.leb_le. done.
  - cbn. by split; cbn; try congruence.
Qed.

(** [log_write]'s search. *)
Lemma log_search bl (s : logst S) y Q :
  lcore bl s → 0 ≤ y < 4294967296 →
  (∀ i, bl !! i = Some y → Q (Some (Z.of_nat i)) s) → (y ∉ bl → Q None s) →
  wp (for_ret (seqZ 0 (Z.of_nat (length bl))) (λ i,
        v ← lh_get i; mret (if u32 v =? y then Some i else None))) Q s.
Proof.
  intros Hc Hy Hsome Hnone. rewrite seqZ_nat.
  apply wp_for_ret with (I := λ done s', s' = s ∧ ∀ x, x ∈ take (length done) bl → x ≠ y).
  - split; [done|]. cbn. set_solver.
  - intros done z rest s' Heq [-> Hd].
    assert ((Z.of_nat <$> seq 0 (length bl)) !! length done = Some z) as Hz.
    { rewrite Heq. by rewrite lookup_app_r, Nat.sub_diag by lia. }
    rewrite list_lookup_fmap_Some in Hz. destruct Hz as (k & -> & Hk).
    apply lookup_seq in Hk as [-> Hk]. destruct (lookup_lt_is_Some_2 bl (length done) Hk) as [w Hw].
    wp_step. eapply wp_lh_get; [exact Hc|exact Hw|]. wp_step.
    destruct (lcore_at _ _ _ _ Hc Hw) as (Hwr & _). rewrite u32_small by done. cbn [Nat.add].
    destruct (Z.eqb_spec w y) as [->|Hne]; [by apply Hsome|]. split; [done|].
    rewrite length_app. cbn [length]. rewrite Nat.add_1_r, (take_S_r _ _ _ Hw). set_solver.
  - intros s' [-> Hd]. apply Hnone. rewrite length_fmap, length_seq, take_ge in Hd by lia. by intros Hin%Hd.
Qed.

Definition log_add (y : Z) (bl : list Z) : list Z := if decide (y ∈ bl) then bl else bl ++ [y].

Lemma blocks_add y bl :
  blocks_ok st bl → home st y → Z.of_nat (length bl) < LOGBLOCKS → blocks_ok st (log_add y bl).
Proof.
  intros (Hf & Hnd & Hl) Hy Hlt. unfold log_add. case_decide; [done|]. split_and!.
  - apply Forall_app. split; [done|]. by apply Forall_singleton.
  - apply NoDup_app. split_and!; [done|set_solver|]. apply NoDup_singleton.
  - rewrite length_app. cbn. lia.
Qed.

Lemma log_write_spec h bl out v s b y :
  linv h bl out v s → bv_held v !! b = Some y → home st y → 1 ≤ out → Z.of_nat (length bl) < LOGBLOCKS →
  wp (log_write b) (λ _ s', ∃ v', linv h (log_add y bl) out v' s' ∧
    v' = v_pins (list_to_set (log_add y bl)) v) s.
Proof.
  intros [Hc Hok Hl Hcm Ho Hp Hs Hcl] Hh Hy Hout Hlt. pose proof (blocks_add y bl) as Hb'.
  destruct (Hc) as (Es & Ed & En & Et & El & Hb). destruct (Hy) as [Hyr _].
  unfold log_write. wp_simpl; [cbn; rewrite En; apply Z.leb_gt; lia|cbn; rewrite Ho; apply Z.ltb_ge; lia|].
  cbn [lh_n lg_s set_lg_lock]. rewrite (proj2 (bo_data_spec _ _ _ _ Hok Hh)), En.
  apply (log_search bl); [done|lia|..].
  - intros i Hi. pose proof (lookup_lt_Some _ _ _ Hi) as Hlti. cbn [default from_option id]. unfold lh_put. wp_simpl.
    { rewrite negb_false_iff, andb_true_iff, Z.leb_le, Z.ltb_lt. lia. }
    rewrite (proj2 (Z.eqb_neq _ _)) by lia. wp_simpl. exists v.
    assert (y ∈ bl) as Hin by (by eapply list_elem_of_lookup_2).
    unfold log_add in *. rewrite decide_True in * by done. split.
    + split; cbn; try done. split_and!; try done; [|by cbn; rewrite length_insert]. cbn.
      rewrite Nat2Z.id, i32_small by lia. rewrite list_insert_id; [done|].
      rewrite <-Et in Hi. apply lookup_take_Some in Hi as [Hi _]. done.
    + rewrite <-Hp. by destruct v.
  - intros Hnin. cbn [default from_option id]. unfold lh_put. wp_simpl.
    { rewrite negb_false_iff, andb_true_iff, Z.leb_le, Z.ltb_lt. lia. }
    rewrite Z.eqb_refl. wp_simpl.
    eapply wp_lpin; [exact Hok|exact Hh|rewrite Hp, elem_of_list_to_set; done|]. intros x Hx. wp_simpl.
    unfold log_add in *. rewrite decide_False in * by done.
    exists (v_pin y v). split.
    + split; cbn; try done.
      * split_and!; try done; cbn; [rewrite length_app; cbn; lia| |by rewrite length_insert|by apply Hb'].
        rewrite Nat2Z.id, i32_small by lia. rewrite length_app. cbn [length].
        rewrite Nat.add_1_r. erewrite take_S_r; [|apply list_lookup_insert_eq; lia].
        by rewrite take_insert_ge, Et by lia.
      * rewrite Hp. set_solver.
      * intros z Hz Hn. apply Hcl; [done|set_solver].
    + unfold v_pin, v_pins. f_equal. rewrite Hp. set_solver.
Qed.
End LogCorrect.
