(* ===== verification/LogSpec.v ===== *)
(** * Transactions over the log survive crashes

    Recovery ([initlog]), [end_op], and the two together: whatever prefix of
    the disk writes a crash lets through, recovery brings back the contents
    before the transaction or after it, never a mixture. *)

From S2P Require Import Prelude Mem Layout BufIface Log LogDisk LogCorrect Sleeplock Bio BioCorrect.

Section LogSpec.
Context {S : Type} {BO : BufOps S} {BS : BufSpec S} (st : Z) (Hst : 0 ≤ st) (Hst' : st + LOGBLOCKS < 2147483648).
Implicit Types (s : logst S) (v : bview).

#[local] Abbreviation linv := (linv st).
#[local] Abbreviation lcore := (lcore st).

(** ** Recovery *)

Definition fresh (d : disk) : bview := BView d [] ∅ ∅ ∅.

Lemma cur_fresh d x : bv_cur (fresh d) x = dblk d x.
Proof. done. Qed.

Lemma read_head_spec d bl s :
  lg_start s = st → lg_dev s = ROOTDEV → length (lh_block s) = Z.to_nat LOGBLOCKS →
  bo_ok (fresh d) (lg_s s) → hd_ok (dblk d st) bl → blocks_ok st bl →
  wp read_head (λ _ s', ∃ x lh, s' = set_lh lh (set_n (Z.of_nat (length bl)) (set_s x s)) ∧
    lcore bl s' ∧ bo_ok (fresh d) x) s.
Proof.
  intros Es Ed El Hok [Hn Hbk] Hb. pose proof Hb as (_ & _ & Hlen). unfold LOGBLOCKS, MAXOPBLOCKS in Hst'.
  unfold read_head. wp_simpl. rewrite Es, Ed.
  eapply wp_lread; [done..|exact Hok|lia|by apply img_empty|by right; rewrite used_none|].
  intros b x1 Hbn Hok1.
  assert (bv_held (v_hold b st (fresh d)) !! b = Some st) as Hh by apply lookup_insert_eq.
  destruct (bo_data_spec _ _ _ _ Hok1 Hh) as [Edata _].
  change (bv_cur (v_hold b st (fresh d)) st) with (dblk d st) in Edata.
  wp_simpl. unfold bdata at 1 3. cbn [lg_s set_s]. rewrite Edata, Hn.
  set (s1 := set_n (Z.of_nat (length bl)) (set_s x1 s)).
  apply wp_for_tail with (I := λ k s', ∃ lh, s' = set_lh lh s1 ∧ take k lh = take k bl ∧
    length lh = Z.to_nat LOGBLOCKS).
  - exists (lh_block s1). split_and!; [by unfold s1; destruct s|done|done].
  - intros k y s' Hk (lh & -> & Ht & Hl). wp_simpl. unfold bdata, s1. cbn [lg_s set_s set_n set_lh].
    rewrite Edata, (Hbk _ _ Hk). pose proof (lookup_lt_Some _ _ _ Hk) as Hlt. unfold lh_put. wp_simpl.
    { rewrite negb_false_iff, andb_true_iff, Z.leb_le, Z.ltb_lt. lia. }
    eexists. split; [reflexivity|]. cbn. rewrite Nat2Z.id, length_insert. split; [|done].
    rewrite Nat.add_1_r, (take_S_r _ _ _ Hk). erewrite take_S_r by (apply list_lookup_insert_eq; lia).
    by rewrite take_insert_ge, Ht by lia.
  - intros s' (lh & -> & Ht & Hl). eapply wp_lrelse; [done..|exact Hok1|exact Hh|by right|].
    intros x2 Hok2. exists x2, lh. split_and!; [done| |].
    + split_and!; try done. cbn. by rewrite Ht, take_ge by lia.
    + revert Hok2. unfold v_drop, v_hold, fresh. cbn. rewrite delete_insert_id; [done|by apply lookup_empty].
Qed.

(** The writes of a recovery, and the state it ends in. *)
Lemma initlog_spec d bl h s :
  length (lh_block s) = Z.to_nat LOGBLOCKS → lg_committing s = false → lg_outstanding s = 0 →
  bo_ok (fresh d) (lg_s s) → recovers_with st bl d h →
  wp (initlog ROOTDEV st) (λ _ s', ∃ v' h2, hd_n h2 = 0 ∧ linv h [] 0 v' s' ∧ bv_held v' = ∅ ∧
    (∀ x, home st x → bv_cur v' x = h x) ∧
    bv_trace v' = home_ws h bl ++ [(st, h2)] ∧ bv_disk v' = dwrites (bv_trace v') d) s.
Proof.
  intros El Ec Eo Hok Hr. pose proof Hr as (Hhd & Hb & Hslot & Hoth). unfold initlog. wp_simpl.
  rewrite i32_small by (unfold LOGBLOCKS, MAXOPBLOCKS in *; lia). unfold recover_from_log. wp_step.
  wp_apply (read_head_spec d bl); [done..|]. intros [] s1 (x1 & lh & -> & Hc & Hok1). wp_step.
  set (s1 := set_lh lh _) in *.
  wp_apply (install_spec st Hst Hst' true bl (fresh d) s1 h); [done|done|done|done|by left| |].
  { intros i y Hi. split; [|done]. by apply Hslot. }
  intros [] s2 (x2 & -> & Hok2). wp_simpl.
  destruct (v_puts_fields (home_ws h bl) (fresh d)) as (Ed & Et & Eh & Ep).
  set (v2 := v_pins ∅ (v_puts (home_ws h bl) (fresh d))) in *.
  wp_apply (write_head_spec st Hst Hst' [] v2); [|exact Hok2|exact Eh|done|done|].
  { destruct Hc as (? & ? & _ & _ & ? & _). split_and!; try done. apply blocks_nil. }
  intros [] s3 (x3 & -> & Hok3). cbn [length] in Hok3. set (h2 := hd_put (bv_cur v2 st) [] 0) in *.
  assert (hd_n h2 = 0) as Hh2 by (unfold h2; rewrite hd_put_n by (cbn; lia); done).
  assert (bv_disk (v_put st h2 v2) = dwrite (dwrites (home_ws h bl) d) (st, h2)) as Ed2.
  { unfold v_put. cbn [bv_disk]. unfold v2, v_pins. cbn [bv_disk]. by rewrite Ed. }
  assert (∀ x, home st x → bv_cur (v_put st h2 v2) x = h x) as Hcur.
  { intros x Hx. rewrite cur_put, decide_False by (by intros ->; apply Hx, st_area).
    change (bv_cur (v_puts (home_ws h bl) (fresh d)) x = h x). destruct (decide (x ∈ bl)) as [Hin|Hnin].
    - rewrite cur_puts_at by (by rewrite keys_home_ws). rewrite Ed. apply dwrites_at.
      + rewrite keys_home_ws. apply Hb.
      + apply list_elem_of_fmap. eauto.
    - rewrite cur_puts by (by rewrite keys_home_ws). by rewrite Hoth. }
  exists (v_put st h2 v2), h2. split_and!; [done| |done|done| |].
  - split; try done.
    + destruct Hc as (? & ? & _ & _ & ? & _). split_and!; try done. apply blocks_nil.
    + rewrite Ed2. by apply installed.
    + intros x Hx _ _. by apply Hcur.
  - unfold v_put. cbn [bv_trace]. unfold v2, v_pins. cbn [bv_trace]. by rewrite Et.
  - rewrite Ed2. unfold v_put. cbn [bv_trace]. unfold v2, v_pins. cbn [bv_trace]. rewrite Et.
    cbn [fresh bv_trace app]. by rewrite dwrites_app.
Qed.

(** ** [end_op] *)

Lemma linv_ext h h' bl out v s :
  (∀ x, home st x → h x = h' x) → linv h bl out v s → linv h' bl out v s.
Proof.
  intros Hh [Hc Hok Hl Hcm Ho Hp [Hs1 Hs2] Hcl]. split; try done.
  - split; [done|]. intros x Hx. rewrite <-Hh by done. by apply Hs2.
  - intros x Hx Hb Hi. rewrite <-Hh by done. by apply Hcl.
Qed.

Lemma recovers_ext d h h' : (∀ x, home st x → h x = h' x) → recovers st d h → recovers st d h'.
Proof.
  intros Hh (bl & H1 & H2 & H3 & H4). exists bl. split_and!; [done..| |].
  - intros i x Hi. rewrite <-(H3 i x Hi). symmetry. apply Hh. apply (blocks_home _ _ _ H2). by eapply list_elem_of_lookup_2.
  - intros x Hx Hnx. rewrite <-Hh by done. by apply H4.
Qed.

(** The writes a crash may cut short, from a disk that recovers to [h] to one
    that recovers to [h']. *)
Definition atomic (h h' : Z → mem) (d : disk) (ws : list (Z * mem)) : Prop :=
  ∀ k, recovers st (dwrites (take k ws) d) h ∨ recovers st (dwrites (take k ws) d) h'.

Lemma commit_spec h bl v s :
  lcore bl s → bo_ok v (lg_s s) → bv_held v = ∅ → bv_pin v = list_to_set bl →
  settled st (bv_disk v) h → (∀ x, home st x → x ∉ bl → bv_cur v x = h x) →
  Z.of_nat (length bl) < NBUF →
  wp commit (λ _ s', ∃ v' ws x, s' = set_n 0 (set_s x s) ∧ bo_ok v' x ∧ bv_held v' = ∅ ∧ bv_pin v' = ∅ ∧
    bv_disk v' = dwrites ws (bv_disk v) ∧ bv_trace v' = bv_trace v ++ ws ∧
    (∀ x, home st x → bv_cur v' x = bv_cur v x) ∧
    settled st (bv_disk v') (bv_cur v) ∧ atomic h (bv_cur v) (bv_disk v) ws) s.
Proof.
  intros Hc Hok Hh Hp Hs Hcl Hn. destruct (Hc) as (Es & Ed & En & Et & El & Hb).
  destruct (decide (bl = [])) as [->|Hne].
  - unfold commit. wp_simpl. rewrite En. wp_simpl. exists v, [], (lg_s s).
    assert (settled st (bv_disk v) (bv_cur v)) as Hs'.
    { destruct Hs as [Hs1 Hs2]. split; [done|]. intros x Hx. rewrite Hcl by (done || set_solver). by apply Hs2. }
    split_and!; try done; [by destruct s; cbn in *; subst|by rewrite app_nil_r|].
    intros k. left. rewrite take_nil. by apply settled_recovers.
  - wp_apply (commit_run st Hst Hst' bl v Hb); [done..|]. intros [] s' (x & -> & Hx).
    destruct (commit_fields st bl v) as (Edk & Etr & Ehd & Epn). eexists _, _, x.
    split_and!; [done|exact Hx|congruence|exact Epn|exact Edk|exact Etr|by apply commit_cur| |].
    + rewrite Edk. unfold commit_ws. rewrite !dwrites_app. apply installed; [|by apply commit_h2].
      apply crash_committed; [done| |by apply commit_h1]. intros y Hy Hn'. rewrite Hcl by done. by apply Hs.
    + intros k. apply commit_crash; try done; [by apply commit_h1|by apply commit_h2].
Qed.

Lemma end_op_last h bl v s :
  linv h bl 1 v s → bv_held v = ∅ → Z.of_nat (length bl) < NBUF →
  wp end_op (λ _ s', ∃ v' ws, linv (bv_cur v) [] 0 v' s' ∧ bv_held v' = ∅ ∧
    bv_disk v' = dwrites ws (bv_disk v) ∧ bv_trace v' = bv_trace v ++ ws ∧
    (∀ x, home st x → bv_cur v' x = bv_cur v x) ∧ atomic h (bv_cur v) (bv_disk v) ws) s.
Proof.
  intros [Hc Hok Hl Hcm Ho Hp Hs Hcl] Hh Hn. unfold end_op. wp_simpl.
  cbn [lg_outstanding set_outstanding set_lg_lock]. rewrite Ho. change (1 - 1 =? 0) with true. cbv iota.
  wp_simpl. set (s1 := set_lg_lock false _).
  wp_apply (commit_spec h bl v s1); [done|done|done|done|done| |done|].
  { intros x Hx Hb. apply Hcl; [done..|]. by apply img_empty. }
  intros [] s2 (v' & ws & x & -> & Hok' & Hh' & Hp' & Ed & Et & Hcur & Hset & Hat). wp_simpl.
  exists v', ws. split_and!; try done. split; try done.
  - destruct Hc as (? & ? & _ & _ & ? & _). split_and!; try done. apply blocks_nil.
  - intros y Hy _ _. by apply Hcur.
Qed.

Lemma end_op_more h bl out v s :
  linv h bl out v s → 1 < out → wp end_op (λ _ s', linv h bl (out - 1) v s') s.
Proof.
  intros [Hc Hok Hl Hcm Ho Hp Hs Hcl] Hout. unfold end_op. wp_simpl.
  cbn [lg_outstanding set_outstanding set_lg_lock]. rewrite Ho, (proj2 (Z.eqb_neq _ _)) by lia. wp_simpl.
  split; try done.
Qed.

(** With [NBUF] blocks pinned, [write_log] finds no buffer for the log block. *)
Lemma end_op_full h bl v s :
  linv h bl 1 v s → bv_held v = ∅ → Z.of_nat (length bl) = NBUF →
  end_op s = Panic "bget: no buffers".
Proof.
  intros [Hc Hok Hl Hcm Ho Hp Hs Hcl] Hh Hn. destruct (Hc) as (Es & Ed & En & Et & El & Hb).
  unfold end_op. rewrite (bind_Ok _ _ _ _ _ (acquire_Ok _ _ _ Hl)).
  do 2 (erewrite bind_Ok; [|reflexivity]). cbn [lg_committing set_outstanding set_lg_lock]. rewrite Hcm.
  do 2 (erewrite bind_Ok; [|reflexivity]). cbn [lg_outstanding set_outstanding set_lg_lock]. rewrite Ho.
  change (1 - 1 =? 0) with true. cbv iota. do 2 (erewrite bind_Ok; [|reflexivity]).
  apply bind_Panic. unfold commit. erewrite bind_Ok; [|reflexivity].
  cbn [lh_n set_lg_lock set_committing set_outstanding]. rewrite En.
  rewrite (proj2 (Z.ltb_lt _ _)) by (unfold NBUF, MAXOPBLOCKS in *; lia). apply bind_Panic.
  unfold write_log. erewrite bind_Ok; [|reflexivity]. cbn [lh_n set_lg_lock set_committing set_outstanding].
  rewrite En, Hn. change (seqZ 0 NBUF) with (0 :: seqZ 1 29). cbn [for_each]. apply bind_Panic.
  unfold write_log_step. do 2 (erewrite bind_Ok; [|reflexivity]).
  cbn [lg_dev lg_start set_lg_lock set_committing set_outstanding]. rewrite Es, Ed. apply bind_Panic.
  unfold bio, lift. cbn [lg_s set_lg_lock set_committing set_outstanding].
  rewrite !u32_small by (unfold ROOTDEV, LOGBLOCKS, MAXOPBLOCKS in *; lia).
  erewrite bo_bread_full; [done|exact Hok| |].
  - rewrite used_none, Hp, elem_of_list_to_set by done. intros Hin. apply (blocks_home _ _ _ Hb Hin).
    unfold log_area, LOGBLOCKS, MAXOPBLOCKS. lia.
  - rewrite used_none, Hp, size_list_to_set by (done || apply Hb). done.
Qed.
End LogSpec.
