(* ===== verification/LogTx.v ===== *)
(** * Atomic transactions: the contract of the log

    The specification is a disk with transactions: system calls open one with
    [Begin], write blocks, and close it with [End]; the last [End] makes all
    the writes durable at once.  The log over the LRU buffer cache refines it,
    and a crash at any disk write leaves a disk that recovers to a state of the
    specification. *)

From S2P Require Import Prelude Mem Layout BufIface Log LogDisk LogCorrect LogSpec Sleeplock Bio BioCorrect.

(** ** The specification *)

Inductive lop := Begin | Write (x : Z) (m : mem) | End.

(** [t_disk]: what survives a crash; [t_cur]: what reads see; [t_blocks]: the
    blocks written since the last commit; [t_out]: system calls open. *)
Record tx := Tx { t_disk : Z → mem; t_cur : Z → mem; t_blocks : list Z; t_out : Z }.

Definition tx0 (h : Z → mem) : tx := Tx h h [] 0.

Definition tstep (o : lop) (t : tx) : tx :=
  match o with
  | Begin => Tx (t_disk t) (t_cur t) (t_blocks t) (t_out t + 1)
  | Write x m => Tx (t_disk t) (λ y, if decide (y = x) then m else t_cur t y) (log_add x (t_blocks t)) (t_out t)
  | End => if decide (t_out t = 1) then Tx (t_cur t) (t_cur t) [] 0
           else Tx (t_disk t) (t_cur t) (t_blocks t) (t_out t - 1)
  end.

Definition trun (ops : list lop) (t : tx) : tx := foldl (λ t o, tstep o t) t ops.

#[global] Instance home_dec st x : Decision (home st x).
Proof. unfold home, log_area. apply _. Defined.

(** When the operation returns: [Begin] has the log space it reserves, writes
    are inside a system call and the log is not full, and a commit leaves one
    buffer for the log blocks. *)
Definition tok (st : Z) (o : lop) (t : tx) : bool :=
  let n := Z.of_nat (length (t_blocks t)) in
  match o with
  | Begin => n + (t_out t + 1) * MAXOPBLOCKS <=? LOGBLOCKS
  | Write x m => bool_decide (home st x) && (1 <=? t_out t) && (n <? LOGBLOCKS)
  | End => (1 <=? t_out t) && ((t_out t >? 1) || (n <? NBUF))
  end.

Fixpoint toks (st : Z) (ops : list lop) (t : tx) : bool :=
  match ops with
  | [] => true
  | o :: ops' => tok st o t && toks st ops' (tstep o t)
  end.

(** ** The implementation *)

Section Tx.
Context {S : Type} {BO : BufOps S}.

(** A block replaced the way the file system does it. *)
Definition run_lop (o : lop) : M (logst S) unit :=
  match o with
  | Begin => begin_op
  | Write x m =>
      b ← bio (bo_bread ROOTDEV x);
      set_bdata b m;;
      log_write b;;
      bio (bo_brelse b)
  | End => end_op
  end.

(** Booting: [binit], then [initlog] from [fsinit]. *)
Definition mount (st : Z) : M (logst S) unit := bio bo_binit;; initlog ROOTDEV st.

Context {BS : BufSpec S} (st : Z) (Hst : 0 ≤ st) (Hst' : st + LOGBLOCKS < 2147483648).

Definition refines (t : tx) (v : bview) (s : logst S) : Prop :=
  linv st (t_disk t) (t_blocks t) (t_out t) v s ∧ bv_held v = ∅ ∧
  ∀ x, home st x → bv_cur v x = t_cur t x.

Lemma mount_spec d bl h :
  recovers_with st bl d h →
  wp (mount st) (λ _ s, ∃ v h2, hd_n h2 = 0 ∧ refines (tx0 h) v s ∧
    bv_trace v = home_ws h bl ++ [(st, h2)] ∧ bv_disk v = dwrites (bv_trace v) d) (log_boot d).
Proof.
  intros Hr. unfold mount. wp_step. unfold bio at 1. rewrite wp_lift. wp_apply bo_boot_spec.
  intros [] x Hx. cbv beta. wp_apply (initlog_spec st Hst Hst' d bl h); [|done|done|exact Hx|done|].
  - done.
  - intros [] s (v & h2 & Hh2 & Hi & Hh & Hc & Ht & Hd). exists v, h2. split_and!; try done.
Qed.

Lemma refines_room t v s :
  refines t v s → Z.of_nat (length (t_blocks t)) < NBUF →
  Z.of_nat (size (bv_used v)) < NBUF.
Proof.
  intros ([Hc _ _ _ _ Hp _ _] & Hh & _) Hn. rewrite used_none, Hp by done.
  pose proof (size_list_to_set_le (t_blocks t)). lia.
Qed.

Lemma run_write t v s x m :
  refines t v s → tok st (Write x m) t = true →
  wp (run_lop (Write x m)) (λ _ s', ∃ v', refines (tstep (Write x m) t) v' s' ∧
    bv_trace v' = bv_trace v ∧ bv_disk v' = bv_disk v) s.
Proof.
  intros Href Hok. cbn [tok] in Hok. rewrite !andb_true_iff, Z.leb_le, Z.ltb_lt, bool_decide_eq_true in Hok.
  destruct Hok as ((Hx & Hout) & Hn). pose proof Hx as [Hxr _].
  pose proof (refines_room t v s Href ltac:(unfold LOGBLOCKS, NBUF in *; lia)) as Hroom.
  destruct Href as (Hi & Hh & Hcur). cbn [run_lop]. wp_step.
  replace ROOTDEV with (u32 ROOTDEV) by done. replace x with (u32 x) at 1 by (apply u32_small; lia).
  eapply wp_lread; [done..|apply Hi|lia|by apply img_empty|by right|]. intros b x1 Hb Hok1. wp_step.
  assert (bv_held (v_hold b x v) !! b = Some x) as Hbx by apply lookup_insert_eq.
  eapply wp_lset; [done..|exact Hok1|exact Hbx|]. intros x2 Hok2. wp_step.
  assert (linv st (t_disk t) (t_blocks t) (t_out t) (v_set x m (v_hold b x v)) (set_s x2 s)) as Hi2.
  { destruct Hi as [Hc Hok Hl Hcm Ho Hp Hs Hcl]. split; try done. intros y Hy Hny Hni.
    assert (y ≠ x) as Hyx.
    { intros ->. apply Hni. cbn. rewrite elem_of_map_img. exists b. apply lookup_insert_eq. }
    rewrite cur_set, decide_False by done. apply Hcl; [done..|]. by apply img_empty. }
  wp_apply (log_write_spec st Hst Hst' _ _ _ _ _ b x Hi2); [exact Hbx|done..|].
  intros [] s3 (v3 & Hi3 & Ev3). destruct (Hi3) as [Hc3 Hok3 Hl3 Hcm3 Ho3 Hp3 Hs3 Hcl3].
  eapply wp_lrelse; [done..|exact Hok3| |left|].
  - rewrite Ev3. exact Hbx.
  - rewrite Hp3, elem_of_list_to_set. unfold log_add. case_decide; [done|]. set_solver.
  - intros x4 Hok4. exists (v_drop b v3). split_and!; [|by rewrite Ev3|by rewrite Ev3].
    assert (bv_held (v_drop b v3) = ∅) as Hh3.
    { rewrite Ev3. cbn. rewrite Hh, delete_insert_id; [done|apply lookup_empty]. }
    assert (∀ y, home st y → bv_cur (v_drop b v3) y = if decide (y = x) then m else t_cur t y) as Hcur3.
    { intros y Hy. change (bv_cur v3 y = if decide (y = x) then m else t_cur t y). rewrite Ev3.
      change (bv_cur (v_set x m (v_hold b x v)) y = if decide (y = x) then m else t_cur t y).
      rewrite cur_set. case_decide; [done|]. by apply Hcur. }
    split_and!; [|done|exact Hcur3]. split; try done. intros y Hy Hny _.
    change (bv_cur v3 y = t_disk t y). destruct (decide (y = x)) as [->|Hne].
    + destruct Hny. unfold tstep. cbn. unfold log_add. case_decide; [done|set_solver].
    + apply Hcl3; [done..|]. rewrite Ev3. cbn. rewrite Hh, elem_of_map_img.
      intros (c & Hc'). apply lookup_insert_Some in Hc' as [[_ ?]|[_ Hc']]; [done|]. by rewrite lookup_empty in Hc'.
Qed.

(** One operation: it returns, refines the specification, and its disk writes
    are atomic. *)
Lemma run_lop_spec t v s o :
  refines t v s → tok st o t = true →
  wp (run_lop o) (λ _ s', ∃ v' ws, refines (tstep o t) v' s' ∧
    bv_trace v' = bv_trace v ++ ws ∧ bv_disk v' = dwrites ws (bv_disk v) ∧
    atomic st (t_disk t) (t_disk (tstep o t)) (bv_disk v) ws) s.
Proof.
  intros Href Hok. assert (∀ h', atomic st (t_disk t) h' (bv_disk v) []) as Hnone.
  { intros h' k. left. rewrite take_nil. apply settled_recovers. apply Href. }
  destruct o as [|x m|]; cbn [tok] in Hok.
  - rewrite Z.leb_le in Hok. destruct Href as (Hi & Hh & Hc). cbn [run_lop].
    wp_apply begin_op_spec; [done..|]. intros [] s' Hi'. exists v, [].
    split_and!; [done|by rewrite app_nil_r|done|done].
  - wp_apply run_write; [done..|]. intros [] s' (v' & Hr & Ht & Hd). exists v', [].
    rewrite app_nil_r. split_and!; try done.
  - rewrite andb_true_iff, orb_true_iff, Z.leb_le, Z.gtb_lt, Z.ltb_lt in Hok. destruct Hok as [Hout Hn].
    destruct Href as (Hi & Hh & Hc). cbn [run_lop tstep]. destruct (decide (t_out t = 1)) as [E1|Hne].
    + rewrite E1 in Hi. destruct Hn as [Hn|Hn]; [lia|].
      wp_apply end_op_last; [done..|]. intros [] s' (v' & ws & Hi' & Hh' & Hd & Ht & Hc' & Hat).
      exists v', ws. split_and!; [|done|done|].
      * split_and!; [|done|]; cbn.
        -- eapply linv_ext; [|exact Hi']. exact Hc.
        -- intros x Hx. rewrite Hc' by done. by apply Hc.
      * intros k. destruct (Hat k) as [?|Hk]; [by left|right]. by eapply recovers_ext.
    + wp_apply end_op_more; [done|lia|]. intros [] s' Hi'. exists v, [].
      rewrite app_nil_r. by split_and!.
Qed.

Lemma run_ops_spec ops t v s :
  refines t v s → toks st ops t = true →
  wp (for_each ops run_lop) (λ _ s', ∃ v', refines (trun ops t) v' s' ∧
    ∃ ws, bv_trace v' = bv_trace v ++ ws ∧ bv_disk v' = dwrites ws (bv_disk v)) s.
Proof.
  revert t v s. induction ops as [|o ops IH]; intros t v s Hr Hok; cbn [for_each toks] in *.
  - rewrite wp_ret. exists v. split; [done|]. exists []. by rewrite app_nil_r.
  - apply andb_true_iff in Hok as [Ho Hok]. wp_step. wp_apply run_lop_spec; [done..|].
    intros [] s1 (v1 & ws & Hr1 & Ht1 & Hd1 & _). wp_apply IH; [done..|].
    intros [] s2 (v2 & Hr2 & ws2 & Ht2 & Hd2). exists v2. split; [done|]. exists (ws ++ ws2).
    rewrite dwrites_app, app_assoc. split; congruence.
Qed.
End Tx.

(** ** The log over the LRU cache *)

Section Properties.
Context (pid st : Z) (Hst : 0 ≤ st) (Hst' : st + LOGBLOCKS < 2147483648).

#[local] Instance cache_ops : BufOps bcache := bio_ops pid.
#[local] Instance cache_spec : BufSpec bcache := bio_spec pid.

Lemma toks_app ops o t :
  toks st (ops ++ [o]) t = true → toks st ops t = true ∧ tok st o (trun ops t) = true.
Proof.
  revert t. induction ops as [|o' ops IH]; intros t; cbn.
  - by rewrite andb_true_r.
  - rewrite !andb_true_iff. intros [? [? ?]%IH]. done.
Qed.

Lemma trun_snoc ops o t : trun (ops ++ [o]) t = tstep o (trun ops t).
Proof. unfold trun. by rewrite foldl_snoc. Qed.

Definition boot_and_run (ops : list lop) : M (logst bcache) unit := mount st;; for_each ops run_lop.

Lemma boot_run_spec d h ops :
  recovers st d h → toks st ops (tx0 h) = true →
  ∃ s v, boot_and_run ops (log_boot d) = Ok tt s ∧ refines st (trun ops (tx0 h)) v s ∧
    bc_trace (lg_s s) = bv_trace v ∧ bc_disk (lg_s s) = bv_disk v ∧
    bv_disk v = dwrites (bv_trace v) d.
Proof.
  intros [bl Hr] Hok.
  assert (wp (boot_and_run ops) (λ _ s, ∃ v, refines st (trun ops (tx0 h)) v s ∧
    bv_disk v = dwrites (bv_trace v) d) (log_boot d)) as Hwp.
  { unfold boot_and_run. wp_step. wp_apply (mount_spec st Hst Hst' d bl h Hr).
    intros [] s (v & h2 & _ & Href & _ & Hd). wp_apply run_ops_spec; [done..|].
    intros [] s' (v' & Href' & ws & Ht & Hd'). exists v'. split; [done|].
    by rewrite Ht, dwrites_app, <-Hd. }
  apply wp_Ok in Hwp as ([] & s & Hrun & v & Href & Hd). exists s, v.
  destruct (li_ok _ _ _ _ _ _ (proj1 Href)) as (_ & Ed & Et & _).
  exact (conj Hrun (conj Href (conj Et (conj Ed Hd)))).
Qed.

(** C2: Crash atomicity.  Boot from any disk that recovers to [h], run any
    sequence of system-call operations the log admits, then one more operation
    [o].  All of them return; and if the machine stops after any number [k] of
    the disk writes of [o], the disk recovers to the state the specification
    has before [o] or to the one it has after [o]. *)
Theorem log_crash_atomic d h ops o :
  recovers st d h → toks st (ops ++ [o]) (tx0 h) = true →
  ∃ s1 s2 ws1 ws2, boot_and_run ops (log_boot d) = Ok tt s1 ∧ run_lop o s1 = Ok tt s2 ∧
    bc_trace (lg_s s1) = ws1 ∧ bc_trace (lg_s s2) = ws1 ++ ws2 ∧
    ∀ k, recovers st (dwrites (ws1 ++ take k ws2) d) (t_disk (trun ops (tx0 h))) ∨
         recovers st (dwrites (ws1 ++ take k ws2) d) (t_disk (trun (ops ++ [o]) (tx0 h))).
Proof.
  intros Hr [Hok Ho]%toks_app. destruct (boot_run_spec d h ops Hr Hok) as (s1 & v1 & Hrun & Href & Et & Ed & Hd).
  destruct (wp_Ok _ _ _ (run_lop_spec st Hst Hst' _ v1 s1 o Href Ho)) as ([] & s2 & Hrun2 & v2 & ws & Href2 & Ht2 & Hd2 & Hat).
  exists s1, s2, (bv_trace v1), ws. split_and!; [exact Hrun|exact Hrun2|exact Et| |].
  - destruct (li_ok _ _ _ _ _ _ (proj1 Href2)) as (_ & _ & -> & _). done.
  - intros k. rewrite trun_snoc, dwrites_app, <-Hd. apply Hat.
Qed.

(** C21: Recovery.  Booting from a disk whose header says that the blocks [bl] are in
    the log returns, with the header cleared, the logged contents in each block of
    [bl], and every block other than those and the header as it was.  If the
    machine stops again after any number [k] of the disk writes of the recovery,
    the disk still recovers to the same home blocks [h]. *)
Theorem log_recovery_correct d bl h :
  recovers_with st bl d h →
  ∃ s, mount st (log_boot d) = Ok tt s ∧ let d' := bc_disk (lg_s s) in
    hd_n (dblk d' st) = 0 ∧
    (∀ i x, bl !! i = Some x → dblk d' x = dblk d (slot st i)) ∧
    (∀ x, x ≠ st → x ∉ bl → dblk d' x = dblk d x) ∧
    (∀ x, home st x → dblk d' x = h x) ∧
    d' = dwrites (bc_trace (lg_s s)) d ∧
    ∀ k, recovers st (dwrites (take k (bc_trace (lg_s s))) d) h.
Proof.
  intros Hr. destruct (wp_Ok _ _ _ (mount_spec st Hst Hst' d bl h Hr)) as ([] & s & Hrun & v & h2 & Hh2 & Href & Ht & Hd).
  exists s. split; [exact Hrun|]. destruct (li_ok _ _ _ _ _ _ (proj1 Href)) as (_ & -> & -> & _).
  assert (bv_disk v = dwrite (dwrites (home_ws h bl) d) (st, h2)) as Ed by (by rewrite Hd, Ht, dwrites_app).
  assert (∀ x, home st x → dblk (bv_disk v) x = h x) as Hhome.
  { intros x Hx. symmetry. apply (li_settled _ _ _ _ _ _ (proj1 Href)). done. }
  pose proof Hr as (_ & Hb & Hslot & _). split_and!; [| | |done|done|].
  - by rewrite Ed, dblk_dwrite, decide_True.
  - intros i x Hi. rewrite Hhome; [by apply Hslot|]. apply (blocks_home _ _ _ Hb). by eapply list_elem_of_lookup_2.
  - intros x Hx Hn. rewrite Ed, dblk_dwrite, decide_False by done. apply dwrites_other. by rewrite keys_home_ws.
  - intros k. rewrite Ht. destruct (decide (k ≤ length (home_ws h bl))%nat) as [Hk|Hk].
    + rewrite take_app_le by done. exists bl. by apply crash_installing.
    + rewrite take_ge by (rewrite length_app; cbn; lia). rewrite dwrites_app. apply settled_recovers.
      by apply installed.
Qed.

(** Reading one block. *)
Definition read_block (x : Z) : M (logst bcache) mem :=
  b ← bio (bo_bread ROOTDEV x);
  gets (bdata b).

(** C22: Functional correctness of reads.  After any admitted sequence of operations
    a read of a home block returns, through the buffer cache, what the
    specification's current contents say, whether or not the writes have
    been committed. *)
Theorem log_read_correct d h ops x :
  recovers st d h → toks st ops (tx0 h) = true → home st x →
  Z.of_nat (length (t_blocks (trun ops (tx0 h)))) < NBUF →
  ∃ s1 s2, boot_and_run ops (log_boot d) = Ok tt s1 ∧
    read_block x s1 = Ok (t_cur (trun ops (tx0 h)) x) s2.
Proof.
  intros Hr Hok Hx Hn. destruct (boot_run_spec d h ops Hr Hok) as (s1 & v1 & Hrun & Href & _).
  pose proof (refines_room st _ _ _ Href Hn) as Hroom.
  assert (wp (read_block x) (λ m _, m = t_cur (trun ops (tx0 h)) x) s1) as Hwp.
  { destruct Href as (Hi & Hh & Hc). destruct (Hx) as [Hxr _]. unfold read_block. wp_step.
    replace ROOTDEV with (u32 ROOTDEV) by done. replace x with (u32 x) at 1 by (apply u32_small; lia).
    eapply wp_lread; [done..|apply Hi|lia|by apply img_empty|by right|]. intros b x1 Hb Hok1.
    rewrite wp_gets. unfold bdata. cbn [lg_s set_s].
    rewrite (proj1 (bo_data_spec _ _ b x Hok1 (lookup_insert_eq _ _ _))). by apply Hc. }
  apply wp_Ok in Hwp as (m & s2 & Hrd & ->). exists s1, s2. exact (conj Hrun Hrd).
Qed.

(** C33: The log admits more blocks than the cache can commit.  When a transaction
    has logged [LOGBLOCKS] distinct blocks, all [NBUF] buffers are pinned and
    the [end_op] that should commit it stops the machine in [bget]. *)
Theorem log_full_commit_panics d h ops :
  recovers st d h → toks st ops (tx0 h) = true →
  t_out (trun ops (tx0 h)) = 1 → Z.of_nat (length (t_blocks (trun ops (tx0 h)))) = LOGBLOCKS →
  ∃ s, boot_and_run ops (log_boot d) = Ok tt s ∧ run_lop End s = Panic "bget: no buffers".
Proof.
  intros Hr Hok Hout Hn. destruct (boot_run_spec d h ops Hr Hok) as (s1 & v1 & Hrun & (Hi & Hh & _) & _).
  exists s1. split; [exact Hrun|]. rewrite Hout in Hi. eapply end_op_full; [exact Hst|exact Hst'|exact Hi|exact Hh|exact Hn].
Qed.
End Properties.

Module LogWitness.
(** A zeroed disk: the header block is empty. *)
Definition d0 : disk := ∅.
Definition h0 : Z → mem := λ _, ∅.

Lemma d0_recovers : recovers 2 d0 h0.
Proof. apply settled_recovers. split; [vm_compute; reflexivity|done]. Qed.

Definition ops1 : list lop := [Begin; Write 50 {[0 := 7]}; Write 60 {[3 := 9]}].

Lemma log_crash_atomic_witness :
  ∃ s1 s2, boot_and_run 1 2 ops1 (log_boot (BO := bio_ops 1) d0) = Ok tt s1 ∧
    run_lop (BO := bio_ops 1) End s1 = Ok tt s2.
Proof.
  destruct (log_crash_atomic 1 2 ltac:(lia) ltac:(unfold LOGBLOCKS, MAXOPBLOCKS; lia) d0 h0 ops1 End
    d0_recovers ltac:(vm_compute; reflexivity)) as (s1 & s2 & _ & _ & Hrun & Hrun2 & _). exists s1, s2. exact (conj Hrun Hrun2).
Defined.

(** A disk on which blocks 50 and 60 are committed and not yet installed. *)
Definition d2 : disk := {[2 := st32 (st32 (st32 ∅ 0 2) 4 50) 8 60; 3 := {[0 := 7]}; 4 := {[3 := 9]}; 50 := {[0 := 1]}]}.
Definition h2 (x : Z) : mem := if x =? 50 then {[0 := 7]} else if x =? 60 then {[3 := 9]} else dblk d2 x.

Lemma d2_recovers : recovers_with 2 [50; 60] d2 h2.
Proof.
  split_and!.
  - split; [vm_compute; reflexivity|]. intros [|[|i]] x [= <-]; vm_compute; reflexivity.
  - split_and!; [repeat constructor; unfold home, log_area, LOGBLOCKS, MAXOPBLOCKS; lia| |done].
    apply NoDup_cons. split; [set_solver|apply NoDup_singleton].
  - intros [|[|i]] x [= <-]; vm_compute; reflexivity.
  - intros x _ Hn. unfold h2. rewrite !(proj2 (Z.eqb_neq _ _)) by set_solver. done.
Qed.

Lemma log_recovery_correct_witness : ∃ s, mount (BO := bio_ops 1) 2 (log_boot (BO := bio_ops 1) d2) = Ok tt s ∧
  hd_n (dblk (bc_disk (lg_s s)) 2) = 0 ∧ dblk (bc_disk (lg_s s)) 50 = {[0 := 7]} ∧ dblk (bc_disk (lg_s s)) 60 = {[3 := 9]}.
Proof.
  destruct (log_recovery_correct 1 2 ltac:(lia) ltac:(unfold LOGBLOCKS, MAXOPBLOCKS; lia) d2 [50; 60] h2 d2_recovers)
    as (s & Hrun & Hhd & Hin & _). exists s. split; [exact Hrun|]. split; [exact Hhd|]. split.
  - exact (Hin 0%nat 50 eq_refl).
  - exact (Hin 1%nat 60 eq_refl).
Defined.

Lemma log_read_correct_witness :
  ∃ s1 s2, boot_and_run 1 2 ops1 (log_boot (BO := bio_ops 1) d0) = Ok tt s1 ∧
    read_block 1 50 s1 = Ok {[0 := 7]} s2.
Proof.
  exact (log_read_correct 1 2 ltac:(lia) ltac:(unfold LOGBLOCKS, MAXOPBLOCKS; lia) d0 h0 ops1 50
    d0_recovers ltac:(vm_compute; reflexivity) ltac:(unfold home, log_area, LOGBLOCKS, MAXOPBLOCKS; lia)
    ltac:(vm_compute; reflexivity)).
Defined.

(** Three system calls that write ten blocks each. *)
Definition ops30 : list lop :=
  [Begin; Begin; Begin] ++ ((λ x, Write x ∅) <$> seqZ 100 30) ++ [End; End].

Lemma log_full_commit_panics_witness :
  ∃ s, boot_and_run 1 2 ops30 (log_boot (BO := bio_ops 1) d0) = Ok tt s ∧
    run_lop (BO := bio_ops 1) End s = Panic "bget: no buffers".
Proof.
  exact (log_full_commit_panics 1 2 ltac:(lia) ltac:(unfold LOGBLOCKS, MAXOPBLOCKS; lia) d0 h0 ops30
    d0_recovers ltac:(vm_compute; reflexivity) ltac:(vm_compute; reflexivity) ltac:(vm_compute; reflexivity)).
Defined.
End LogWitness.
