(* ===== verification/Vm.v ===== *)
(** * Virtual memory: [kernel/vm.c]

    Page tables live in physical memory, which the kernel maps one to one; a
    pagetable is the address of its root page, a PTE pointer the address of
    the entry.  Pages come from the page allocator, of which only the
    operations are known.  [sfence_vma] has no effect on this state. *)

From S2P Require Import Prelude Mem Kstring Layout PageAlloc.

Definition MAP_HUGE : Z := 1.

Definition level_page_size (level : Z) : Z := u64 (Z.shiftl PGSIZE (level * 9)).

(** [flags & bits] as a condition. *)
Definition hasbit (x bits : Z) : bool := negb (Z.land x bits =? 0).

Definition PTE_RWX : Z := Z.lor (Z.lor PTE_R PTE_W) PTE_X.

Section Vm.
Context {S : Type} {PO : PageAllocOps S}.

(** Loads and stores of the kernel through its direct map. *)
Definition ldpte (a : Z) : M S Z := gets (λ s, ld64 (pa_mem s) a).
Definition stpte (a v : Z) : M S unit := modify (λ s, pa_set_mem (st64 (pa_mem s) a v) s).
Definition kmemset (a c n : Z) : M S unit := modify (λ s, pa_set_mem (memset (pa_mem s) a c n) s).
Definition kmemmove (dst src n : Z) : M S unit := modify (λ s, pa_set_mem (memmove (pa_mem s) dst src n) s).

(** One level of the walk. *)
Definition walk_step (va : Z) (alloc : bool) (stop_level : Z) (x : Z * Z) : M S (Z * Z + Z * Z) :=
  let (level, pagetable) := x in
  let pte := u64 (pagetable + 8 * PX level va) in
  if level =? stop_level then mret (inr (pte, level)) else
  e ← ldpte pte;
  if hasbit e PTE_V then
    if hasbit e PTE_RWX then mret (inr (pte, level))
    else mret (inl (level - 1, PTE2PA e))
  else if negb alloc then mret (inr (0, -1)) else
  next ← pa_kalloc;
  if next =? 0 then mret (inr (0, -1)) else
  kmemset next 0 PGSIZE;;
  stpte pte (Z.lor (PA2PTE next) PTE_V);;
  mret (inl (level - 1, next)).

(** The entry for [va] at [stop_level], or the leaf met above it; with the level
    it is at.  0 when there is none and none may be made. *)
Definition walk_to_level (pagetable va : Z) (alloc : bool) (stop_level : Z) : M S (Z * Z) :=
  panic_if (MAXVA <=? va) "walk";;
  panic_if ((stop_level <? 0) || (stop_level >? 2)) "walk level";;
  loop 3 (walk_step va alloc stop_level) (2, pagetable).

Definition walk_with_level (pagetable va : Z) (alloc : bool) : M S (Z * Z) :=
  walk_to_level pagetable va alloc 0.

Definition walk (pagetable va : Z) (alloc : bool) : M S Z :=
  '(pte, _) ← walk_with_level pagetable va alloc;
  mret pte.

Definition walkaddr (pagetable va : Z) : M S Z :=
  if MAXVA <=? va then mret 0 else
  '(pte, level) ← walk_with_level pagetable va false;
  if pte =? 0 then mret 0 else
  e ← ldpte pte;
  if negb (hasbit e PTE_V) then mret 0 else
  if negb (hasbit e PTE_U) then mret 0 else
  let pa := PTE2PA e in
  let offset := Z.land va (level_page_size level - 1) in
  mret (u64 (pa + offset)).

(** The loop of [mappages_flags] over pages of size [step], entries at level
    [lvl]. *)
Definition map_loop (pagetable va size pa perm step lvl : Z) : M S Z :=
  let last := u64 (va + size - step) in
  loop (Z.to_nat (size / step) + 1) (λ x : Z * Z,
    let (a, pa) := x in
    '(pte, _) ← walk_to_level pagetable a true lvl;
    if pte =? 0 then mret (inr (-1)) else
    e ← ldpte pte;
    panic_if (hasbit e PTE_V) "mappages: remap";;
    stpte pte (Z.lor (Z.lor (PA2PTE pa) perm) PTE_V);;
    if a =? last then mret (inr 0) else mret (inl (u64 (a + step), u64 (pa + step)))) (va, pa).

Definition mappages_flags (pagetable va size pa perm flags : Z) : M S Z :=
  panic_if (size =? 0) "mappages: size";;
  if hasbit flags MAP_HUGE then
    panic_if (negb (va mod HUGEPGSIZE =? 0) || negb (pa mod HUGEPGSIZE =? 0) || negb (size mod HUGEPGSIZE =? 0))
      "mappages: huge align";;
    map_loop pagetable va size pa perm HUGEPGSIZE 1
  else
    panic_if (negb (va mod PGSIZE =? 0)) "mappages: va not aligned";;
    panic_if (negb (size mod PGSIZE =? 0)) "mappages: size not aligned";;
    map_loop pagetable va size pa perm PGSIZE 0.

Definition mappages (pagetable va size pa perm : Z) : M S Z := mappages_flags pagetable va size pa perm 0.

Definition kvmmap (kpgtbl va pa sz perm : Z) : M S unit :=
  r ← mappages kpgtbl va sz pa perm;
  panic_if (negb (r =? 0)) "kvmmap".

(** [proc_mapstacks] ([kernel/proc.c]): a stack and an invalid guard page for
    each process. *)
Definition proc_mapstacks (kpgtbl : Z) : M S unit :=
  for_each (seqZ 0 NPROC) (λ p,
    pa ← pa_kalloc;
    panic_if (pa =? 0) "kalloc";;
    kvmmap kpgtbl (KSTACK p) pa PGSIZE (Z.lor PTE_R PTE_W)).

(** [etext] and [trampoline] are addresses the linker chooses. *)
Definition kvmmake (etext trampoline : Z) : M S Z :=
  kpgtbl ← pa_kalloc;
  kmemset kpgtbl 0 PGSIZE;;
  kvmmap kpgtbl UART0 UART0 PGSIZE (Z.lor PTE_R PTE_W);;
  kvmmap kpgtbl VIRTIO0 VIRTIO0 PGSIZE (Z.lor PTE_R PTE_W);;
  kvmmap kpgtbl PLIC PLIC 0x4000000 (Z.lor PTE_R PTE_W);;
  kvmmap kpgtbl KERNBASE KERNBASE (u64 (etext - KERNBASE)) (Z.lor PTE_R PTE_X);;
  kvmmap kpgtbl etext etext (u64 (PHYSTOP - etext)) (Z.lor PTE_R PTE_W);;
  kvmmap kpgtbl TRAMPOLINE trampoline PGSIZE (Z.lor PTE_R PTE_X);;
  proc_mapstacks kpgtbl;;
  mret kpgtbl.

Definition uvmcreate : M S Z :=
  pagetable ← pa_kalloc;
  if pagetable =? 0 then mret 0 else
  kmemset pagetable 0 PGSIZE;;
  mret pagetable.

(** The copies of the pages of a huge page, and the pages allocated so far
    when one is missing: [inr i]. *)
Definition split_copy (pa flags l0 scratch : Z) : M S (option Z) :=
  for_ret (seqZ 0 512) (λ i,
    page ← pa_kalloc;
    if page =? 0 then mret (Some i) else
    kmemmove page (u64 (pa + i * PGSIZE)) PGSIZE;;
    stpte (scratch + 8 * i) page;;
    stpte (l0 + 8 * i) (Z.lor (PA2PTE page) flags);;
    mret None).

Definition split_huge_page (pagetable va : Z) : M S Z :=
  let va := va - va mod HUGEPGSIZE in
  '(pte, level) ← walk_with_level pagetable va false;
  e ← (if pte =? 0 then mret 0 else ldpte pte);
  if (pte =? 0) || negb (level =? 1) || negb (hasbit e PTE_V) then mret (-1) else
  let pa := PTE2PA e in
  let flags := PTE_FLAGS e in
  l0 ← pa_kalloc;
  if l0 =? 0 then mret (-1) else
  kmemset l0 0 PGSIZE;;
  scratch ← pa_kalloc;
  if scratch =? 0 then pa_kfree l0;; mret (-1) else
  r ← split_copy pa flags l0 scratch;
  match r with
  | None =>
      stpte pte (Z.lor (PA2PTE l0) PTE_V);;
      pa_kfree_huge pa;;
      pa_kfree scratch;;
      mret 0
  | Some allocated =>
      for_each (seqZ 0 allocated) (λ i, page ← ldpte (scratch + 8 * i); pa_kfree page);;
      pa_kfree l0;;
      pa_kfree scratch;;
      mret (-1)
  end.

(** Every iteration moves on by a page or splits a huge page, after which the
    next one moves on. *)
Definition uvmunmap (pagetable va npages : Z) (do_free : bool) : M S unit :=
  panic_if (negb (va mod PGSIZE =? 0)) "uvmunmap: not aligned";;
  let end_ := u64 (va + npages * PGSIZE) in
  loop (Z.to_nat (2 * npages) + 1) (λ a,
    if negb (a <? end_) then mret (inr tt) else
    '(pte, level) ← walk_with_level pagetable a false;
    e ← (if pte =? 0 then mret 0 else ldpte pte);
    if (pte =? 0) || negb (hasbit e PTE_V) then mret (inl (u64 (a + PGSIZE))) else
    let leaf_size := level_page_size level in
    let block_start := a - a mod leaf_size in
    let block_end := u64 (block_start + leaf_size) in
    if (0 <? level) && (negb (block_start =? a) || (block_end >? end_)) then
      r ← split_huge_page pagetable block_start;
      panic_if (negb (r =? 0)) "uvmunmap split";;
      mret (inl a)
    else
      (if do_free then
         let pa := PTE2PA e in
         if level =? 0 then pa_kfree pa
         else if level =? 1 then pa_kfree_huge pa
         else panic "uvmunmap lvl"
       else mret tt);;
      stpte pte 0;;
      mret (inl (if 0 <? level then block_end else u64 (a + PGSIZE)))) va.

Definition uvmdealloc (pagetable oldsz newsz : Z) : M S Z :=
  if oldsz <=? newsz then mret oldsz else
  (if PGROUNDUP newsz <? PGROUNDUP oldsz then
     let npages := i32 ((PGROUNDUP oldsz - PGROUNDUP newsz) / PGSIZE) in
     uvmunmap pagetable (PGROUNDUP newsz) npages true
   else mret tt);;
  mret newsz.

Definition uvmalloc (pagetable oldsz newsz xperm : Z) : M S Z :=
  if newsz <? oldsz then mret oldsz else
  let oldsz := PGROUNDUP oldsz in
  loop (Z.to_nat ((newsz - oldsz) / PGSIZE) + 2) (λ a,
    if negb (a <? newsz) then mret (inr newsz) else
    mem ← pa_kalloc;
    if mem =? 0 then
      uvmdealloc pagetable a oldsz;; mret (inr 0)
    else
      kmemset mem 0 PGSIZE;;
      r ← mappages pagetable a PGSIZE mem (Z.lor (Z.lor PTE_R PTE_U) xperm);
      if negb (r =? 0) then
        pa_kfree mem;;
        uvmdealloc pagetable a oldsz;;
        mret (inr 0)
      else mret (inl (u64 (a + PGSIZE)))) oldsz.

(** The recursion is bounded by the three levels of the tree. *)
Fixpoint freewalk (depth : nat) (pagetable : Z) : M S unit :=
  match depth with
  | O => nofuel
  | Datatypes.S depth' =>
      for_each (seqZ 0 512) (λ i,
        pte ← ldpte (pagetable + 8 * i);
        if hasbit pte PTE_V && negb (hasbit pte PTE_RWX) then
          freewalk depth' (PTE2PA pte);;
          stpte (pagetable + 8 * i) 0
        else panic_if (hasbit pte PTE_V) "freewalk: leaf");;
      pa_kfree pagetable
  end.

Definition uvmfree (pagetable sz : Z) : M S unit :=
  (if 0 <? sz then uvmunmap pagetable 0 (PGROUNDUP sz / PGSIZE) true else mret tt);;
  freewalk 3 pagetable.

Definition uvmcopy (old new sz : Z) : M S Z :=
  r ← loop (Z.to_nat (sz / PGSIZE) + 2) (λ i,
    if negb (i <? sz) then mret (inr None) else
    '(pte, level) ← walk_with_level old i false;
    e ← (if pte =? 0 then mret 0 else ldpte pte);
    if (pte =? 0) || negb (hasbit e PTE_V) then mret (inl (u64 (i + PGSIZE))) else
    let pa := PTE2PA e in
    let flags := PTE_FLAGS e in
    if level =? 1 then
      mem ← pa_kalloc_huge;
      if mem =? 0 then mret (inr (Some i)) else
      kmemmove mem pa HUGEPGSIZE;;
      r ← mappages_flags new i HUGEPGSIZE mem flags MAP_HUGE;
      if negb (r =? 0) then pa_kfree_huge mem;; mret (inr (Some i))
      else mret (inl (u64 (i + HUGEPGSIZE)))
    else
      mem ← pa_kalloc;
      if mem =? 0 then mret (inr (Some i)) else
      kmemmove mem pa PGSIZE;;
      r ← mappages new i PGSIZE mem flags;
      if negb (r =? 0) then pa_kfree mem;; mret (inr (Some i))
      else mret (inl (u64 (i + PGSIZE)))) 0;
  match r with
  | None => mret 0
  | Some i => uvmunmap new 0 (PGROUNDUP i / PGSIZE) true;; mret (-1)
  end.

Definition uvmclear (pagetable va : Z) : M S unit :=
  pte ← walk pagetable va false;
  panic_if (pte =? 0) "uvmclear";;
  e ← ldpte pte;
  stpte pte (Z.land e (u64 (Z.lnot PTE_U))).

Definition ismapped (pagetable va : Z) : M S bool :=
  pte ← walk pagetable va false;
  if pte =? 0 then mret false else
  e ← ldpte pte;
  mret (hasbit e PTE_V).

(** [psz] and [ppagetable] are [myproc()->sz] and [myproc()->pagetable]. *)
Section Proc.
Context (psz ppagetable : Z).

Definition vmfault (pagetable va : Z) : M S Z :=
  if psz <=? va then mret 0 else
  let va := PGROUNDDOWN va in
  m ← ismapped pagetable va;
  if (m : bool) then mret 0 else
  mem ← pa_kalloc;
  if mem =? 0 then mret 0 else
  kmemset mem 0 PGSIZE;;
  r ← mappages ppagetable va PGSIZE mem (Z.lor (Z.lor PTE_W PTE_U) PTE_R);
  if negb (r =? 0) then pa_kfree mem;; mret 0 else mret mem.

(** The physical page of [va0], allocated if it was left to be. *)
Definition fault_in (pagetable va0 : Z) : M S Z :=
  pa0 ← walkaddr pagetable va0;
  if pa0 =? 0 then vmfault pagetable va0 else mret pa0.

Definition copyout (pagetable dstva src len : Z) : M S Z :=
  loop (Z.to_nat (len / PGSIZE) + 3) (λ x : Z * Z * Z,
    let '(dstva, src, len) := x in
    if negb (0 <? len) then mret (inr 0) else
    let va0 := PGROUNDDOWN dstva in
    if MAXVA <=? va0 then mret (inr (-1)) else
    pa0 ← fault_in pagetable va0;
    if pa0 =? 0 then mret (inr (-1)) else
    pte ← walk pagetable va0 false;
    e ← ldpte pte;
    if negb (hasbit e PTE_W) then mret (inr (-1)) else
    let n := Z.min (PGSIZE - (dstva - va0)) len in
    kmemmove (pa0 + (dstva - va0)) src n;;
    mret (inl (u64 (va0 + PGSIZE), src + n, len - n))) (dstva, src, len).

Definition copyin (pagetable dst srcva len : Z) : M S Z :=
  loop (Z.to_nat (len / PGSIZE) + 3) (λ x : Z * Z * Z,
    let '(dst, srcva, len) := x in
    if negb (0 <? len) then mret (inr 0) else
    let va0 := PGROUNDDOWN srcva in
    pa0 ← fault_in pagetable va0;
    if pa0 =? 0 then mret (inr (-1)) else
    let n := Z.min (PGSIZE - (srcva - va0)) len in
    kmemmove dst (pa0 + (srcva - va0)) n;;
    mret (inl (dst + n, u64 (va0 + PGSIZE), len - n))) (dst, srcva, len).
End Proc.

(** The bytes of one page: whether the terminating zero was found. *)
Definition copy_str (dst p n : Z) : M S bool :=
  r ← for_ret (seqZ 0 n) (λ i,
    c ← gets (λ s, ldb (pa_mem s) (p + i));
    modify (λ s, pa_set_mem (stb (pa_mem s) (dst + i) c) s);;
    mret (if c =? 0 then Some tt else None));
  mret (bool_decide (is_Some r)).

Definition copyinstr (pagetable dst srcva max : Z) : M S Z :=
  loop (Z.to_nat (max / PGSIZE) + 3) (λ x : Z * Z * Z,
    let '(dst, srcva, max) := x in
    if negb (0 <? max) then mret (inr (-1)) else
    let va0 := PGROUNDDOWN srcva in
    pa0 ← walkaddr pagetable va0;
    if pa0 =? 0 then mret (inr (-1)) else
    let n := Z.min (PGSIZE - (srcva - va0)) max in
    got_null ← copy_str dst (pa0 + (srcva - va0)) n;
    if (got_null : bool) then mret (inr 0)
    else mret (inl (dst + n, u64 (va0 + PGSIZE), max - n))) (dst, srcva, max).

(** The flags all entries of [l0] share, if they are all user pages. *)
Definition collapse_flags (l0 : Z) : M S (option Z) :=
  first ← ldpte l0;
  r ← for_ret (seqZ 0 512) (λ i,
    entry ← ldpte (l0 + 8 * i);
    mret (if negb (hasbit entry PTE_V) then Some tt
          else if negb (hasbit entry PTE_U) then Some tt
          else if negb (PTE_FLAGS entry =? PTE_FLAGS first) then Some tt
          else None));
  mret (match r with Some _ => None | None => Some (PTE_FLAGS first) end).

(** [held] is [holding(&p->lock)]. *)
Definition vm_try_collapse (pagetable psz : Z) (held : bool) (va : Z) : M S Z :=
  if pagetable =? 0 then mret 0 else
  if negb (va mod HUGEPGSIZE =? 0) then mret 0 else
  if u64 (va + HUGEPGSIZE) >? psz then mret 0 else
  panic_if (negb held) "vm_try_collapse lock";;
  '(l1, _) ← walk_to_level pagetable va false 1;
  if l1 =? 0 then mret 0 else
  e ← ldpte l1;
  if negb (hasbit e PTE_V) then mret 0 else
  if hasbit e PTE_RWX then mret 0 else
  let l0 := PTE2PA e in
  fl ← collapse_flags l0;
  match fl with
  | None => mret 0
  | Some flags =>
      new_page ← pa_kalloc_huge;
      if new_page =? 0 then mret 0 else
      for_each (seqZ 0 512) (λ i,
        pte ← ldpte (l0 + 8 * i);
        kmemmove (new_page + i * PGSIZE) (PTE2PA pte) PGSIZE);;
      for_each (seqZ 0 512) (λ i,
        pte ← ldpte (l0 + 8 * i);
        pa_kfree (PTE2PA pte));;
      pa_kfree l0;;
      stpte l1 (Z.lor (PA2PTE new_page) flags);;
      mret 1
  end.
End Vm.
