(* ===== verification/VmInv.v ===== *)
(** * The shape of a page table in memory

    First the bit operations of [kernel/riscv.h] on entries made from an aligned
    physical address and ten bits of flags, and the Sv39 indices of an address.

    [T] gives the table pages by path from the root (the empty path), [L] the
    leaf mappings by path: three indices for a 4 KB page, two for a 2 MB page.
    [pt_ok] says that physical memory holds exactly this tree.  The walk is
    shown to follow it, and to extend it when it may allocate. *)

From S2P Require Import Prelude Mem Kstring Layout PageAlloc Vm.

(** ** Entries *)

(** An entry for the page at [pa] with the flags [f]. *)
Definition mkpte (pa f : Z) : Z := pa / 4096 * 1024 + f.

Definition pa_ok12 (pa : Z) : Prop := 0 ≤ pa < 72057594037927936 ∧ pa mod 4096 = 0.

Lemma PA2PTE_eq pa : pa_ok12 pa → PA2PTE pa = mkpte pa 0.
Proof.
  intros [Hr Hm]. unfold PA2PTE, mkpte. rewrite Z.shiftr_div_pow2, Z.shiftl_mul_pow2 by lia.
  change (2 ^ 12) with 4096. change (2 ^ 10) with 1024. rewrite Z.add_0_r. apply u64_small.
  pose proof (Z.div_pos pa 4096). pose proof (Z.div_lt_upper_bound pa 4096 17592186044416). lia.
Qed.

Lemma lor_mul1024 a f : 0 ≤ f < 1024 → Z.lor (a * 1024) f = a * 1024 + f.
Proof.
  intros Hf. symmetry. apply Z.add_nocarry_lor. apply Z.bits_inj'. intros n Hn.
  rewrite Z.land_spec, Z.bits_0. destruct (Z.ltb_spec n 10).
  - change 1024 with (2 ^ 10). rewrite Z.mul_pow2_bits_low by lia. done.
  - rewrite (Z.bits_above_log2 f n), andb_false_r; [done|lia|].
    destruct (decide (f = 0)) as [->|]; [cbn; lia|].
    apply Z.lt_le_trans with 10; [|done]. apply Z.log2_lt_pow2; [lia|]. cbn. lia.
Qed.

Lemma mkpte_lor pa f g : 0 ≤ f < 1024 → 0 ≤ g < 1024 → Z.lor (mkpte pa f) g = mkpte pa (Z.lor f g).
Proof.
  intros Hf Hg. unfold mkpte. assert (0 ≤ Z.lor f g < 1024).
  { split; [apply Z.lor_nonneg; lia|]. destruct (decide (Z.lor f g = 0)) as [->|]; [lia|].
    change 1024 with (2 ^ 10). apply Z.log2_lt_pow2; [pose proof (proj2 (Z.lor_nonneg f g)); lia|].
    rewrite Z.log2_lor by lia. apply Z.max_lub_lt.
    - destruct (decide (f = 0)) as [->|]; [cbn; lia|]. apply Z.log2_lt_pow2; [lia|cbn; lia].
    - destruct (decide (g = 0)) as [->|]; [cbn; lia|]. apply Z.log2_lt_pow2; [lia|cbn; lia]. }
  rewrite <-(lor_mul1024 _ f), <-(lor_mul1024 _ (Z.lor f g)) by lia. by rewrite Z.lor_assoc.
Qed.

Lemma PA2PTE_flags pa f : pa_ok12 pa → 0 ≤ f < 1024 → Z.lor (PA2PTE pa) f = mkpte pa f.
Proof. intros Hp Hf. rewrite PA2PTE_eq, mkpte_lor by (done || lia). done. Qed.

Lemma mkpte_range pa f : pa_ok12 pa → 0 ≤ f < 1024 → 0 ≤ mkpte pa f < 18446744073709551616.
Proof.
  intros [Hr _] Hf. unfold mkpte. pose proof (Z.div_pos pa 4096).
  pose proof (Z.div_lt_upper_bound pa 4096 17592186044416). lia.
Qed.

Lemma mkpte_PTE2PA pa f : pa_ok12 pa → 0 ≤ f < 1024 → PTE2PA (mkpte pa f) = pa.
Proof.
  intros [Hr Hm] Hf. unfold PTE2PA, mkpte. rewrite Z.shiftr_div_pow2, Z.shiftl_mul_pow2 by lia.
  change (2 ^ 10) with 1024. change (2 ^ 12) with 4096.
  rewrite Z.div_add_l by lia. rewrite (Z.div_small f) by lia. rewrite Z.add_0_r.
  rewrite u64_small; [|pose proof (Z.div_pos pa 4096); pose proof (Z.div_lt_upper_bound pa 4096 17592186044416); lia].
  pose proof (Z.div_mod pa 4096). lia.
Qed.

Lemma land_low x k : 0 ≤ k < 1024 → Z.land x k = Z.land (x mod 1024) k.
Proof.
  intros Hk. change 1024 with (2 ^ 10). rewrite <-Z.land_ones by lia. rewrite <-Z.land_assoc. f_equal.
  rewrite Z.land_comm, Z.land_ones by lia. symmetry. apply Z.mod_small. cbn. lia.
Qed.

Lemma mkpte_land pa f k : 0 ≤ f < 1024 → 0 ≤ k < 1024 → Z.land (mkpte pa f) k = Z.land f k.
Proof.
  intros Hf Hk. rewrite land_low by done. unfold mkpte. rewrite Z.add_comm, Z.mod_add, Z.mod_small by lia. done.
Qed.

Lemma mkpte_hasbit pa f k : 0 ≤ f < 1024 → 0 ≤ k < 1024 → hasbit (mkpte pa f) k = hasbit f k.
Proof. intros Hf Hk. unfold hasbit. by rewrite mkpte_land. Qed.

Lemma mkpte_PTE_FLAGS pa f : 0 ≤ f < 1024 → PTE_FLAGS (mkpte pa f) = f.
Proof.
  intros Hf. unfold PTE_FLAGS. rewrite mkpte_land by lia. change 0x3FF with (Z.ones 10).
  rewrite Z.land_ones by lia. apply Z.mod_small. cbn. lia.
Qed.

Lemma hasbit_0 k : hasbit 0 k = false.
Proof. unfold hasbit. by rewrite Z.land_0_l. Qed.

(** Flags of a leaf: valid, and readable, writable or executable. *)
Definition leaf_flags (f : Z) : Prop := 0 ≤ f < 1024 ∧ hasbit f PTE_V = true ∧ hasbit f PTE_RWX = true.

(** ** Indices of an address *)

Definition idx (i : Z) : Prop := 0 ≤ i < 512.

Lemma PX_eq level va : 0 ≤ level → 0 ≤ va → PX level va = va / 2 ^ (12 + 9 * level) mod 512.
Proof.
  intros Hl Hv. unfold PX, PXSHIFT, PGSHIFT, PXMASK. rewrite Z.shiftr_div_pow2 by lia.
  change 0x1FF with (Z.ones 9). rewrite Z.land_ones by lia. done.
Qed.

Lemma PX_idx level va : 0 ≤ level → 0 ≤ va → idx (PX level va).
Proof. intros. rewrite PX_eq by done. unfold idx. apply Z.mod_pos_bound. lia. Qed.

(** The path of an address: its indices from the root down. *)
Definition vpath (va : Z) : list Z := [PX 2 va; PX 1 va; PX 0 va].

Lemma vpath_page va : 0 ≤ va < MAXVA →
  va / 4096 = PX 2 va * 262144 + PX 1 va * 512 + PX 0 va.
Proof.
  intros Hv. rewrite !PX_eq by lia. change (2 ^ (12 + 9 * 2)) with (4096 * 512 * 512).
  change (2 ^ (12 + 9 * 1)) with (4096 * 512). change (2 ^ (12 + 9 * 0)) with 4096.
  rewrite <-!Z.div_div by lia. unfold MAXVA in Hv. change (Z.shiftl 1 (9 + 9 + 9 + 12 - 1)) with 274877906944 in Hv.
  set (p := va / 4096). assert (0 ≤ p < 67108864) as Hp.
  { unfold p. split; [apply Z.div_pos; lia|apply Z.div_lt_upper_bound; lia]. }
  assert (p / 512 / 512 < 256) by (apply Z.div_lt_upper_bound; [lia|apply Z.div_lt_upper_bound; lia]).
  assert (0 ≤ p / 512 / 512) by (apply Z.div_pos; [apply Z.div_pos; lia|lia]).
  rewrite (Z.mod_small (p / 512 / 512)) by lia.
  pose proof (Z.div_mod p 512). pose proof (Z.div_mod (p / 512) 512). lia.
Qed.

Lemma vpath_inj va va' :
  0 ≤ va < MAXVA → 0 ≤ va' < MAXVA → vpath va = vpath va' → va / 4096 = va' / 4096.
Proof.
  intros Hv Hv' Hp. rewrite (vpath_page va), (vpath_page va') by done. unfold vpath in Hp.
  injection Hp as -> -> ->. done.
Qed.

Lemma vpath_same_page va va' :
  0 ≤ va < MAXVA → 0 ≤ va' < MAXVA → va / 4096 = va' / 4096 → vpath va = vpath va'.
Proof.
  intros Hv Hv' Hp. unfold vpath. rewrite !PX_eq by lia.
  change (2 ^ (12 + 9 * 2)) with (4096 * (512 * 512)). change (2 ^ (12 + 9 * 1)) with (4096 * 512).
  change (2 ^ (12 + 9 * 0)) with 4096. rewrite <-!Z.div_div by lia. by rewrite Hp.
Qed.

Lemma level_page_size_eq level : level = 0 ∨ level = 1 → level_page_size level = if level =? 0 then 4096 else 2097152.
Proof. intros [->| ->]; reflexivity. Qed.

Abbreviation tables := (gmap (list Z) Z).
Abbreviation leaves := (gmap (list Z) (Z * Z)).    (* physical address, flags *)

(** The entry at path [q]. *)
Definition entry (T : tables) (L : leaves) (q : list Z) : Z :=
  match T !! q with
  | Some pa => mkpte pa PTE_V
  | None => match L !! q with Some (pa, f) => mkpte pa f | None => 0 end
  end.

(** The shape of the tree. *)
Record tree (root : Z) (T : tables) (L : leaves) : Prop := {
  tr_root : T !! [] = Some root;
  tr_path : ∀ q pa, T !! q = Some pa → (length q ≤ 2)%nat ∧ Forall idx q;
  tr_parent : ∀ q i pa, T !! (q ++ [i]) = Some pa → is_Some (T !! q);
  tr_inj : ∀ q q' pa, T !! q = Some pa → T !! q' = Some pa → q = q';
  tr_leaf : ∀ q pa f, L !! q = Some (pa, f) →
    T !! q = None ∧ (length q = 2 ∨ length q = 3)%nat ∧ pa_ok12 pa ∧ leaf_flags f ∧
    ∃ q' i, q = q' ++ [i] ∧ idx i ∧ is_Some (T !! q')
}.

Lemma snoc_ne (q : list Z) i : q ++ [i] ≠ q.
Proof. intros E. apply (f_equal length) in E. rewrite length_app in E. cbn in E. lia. Qed.

(** A table below an existing one. *)
Lemma tree_add_table root T L q i t next :
  tree root T L → T !! q = Some t → idx i → (length q ≤ 1)%nat → L !! (q ++ [i]) = None →
  (∀ q', T !! q' ≠ Some next) → tree root (<[q ++ [i] := next]> T) L.
Proof.
  intros [Hr Hpa Hpr Hin Hlf] Hq Hi Hl HL Hn. split.
  - rewrite lookup_insert_ne; [done|]. by destruct q.
  - intros q' pa. rewrite lookup_insert_Some. intros [[<- <-]|[_ Hq']]; [|by apply (Hpa _ pa)].
    rewrite length_app. cbn. split; [lia|]. apply Forall_app. split; [by apply (Hpa _ t)|]. by apply Forall_singleton.
  - intros q' j pa. rewrite lookup_insert_Some. intros [[Heq _]|[_ Hq']].
    + apply app_inj_tail in Heq as [<- _]. rewrite lookup_insert_ne by apply snoc_ne. eauto.
    + apply Hpr in Hq' as [x Hx]. destruct (decide (q ++ [i] = q')) as [<-|Hne];
        [rewrite lookup_insert_eq|rewrite lookup_insert_ne by done]; eauto.
  - intros q1 q2 pa. rewrite !lookup_insert_Some.
    intros [[<- <-]|[Hn1 H1]] [[<- E2]|[Hn2 H2]]; [done|naive_solver|naive_solver|by eapply Hin].
  - intros q' pa f HL'. destruct (Hlf _ _ _ HL') as (H1 & H2 & H3 & H4 & q2 & i2 & -> & Hi2 & [x Hx]).
    split_and!; try done; [rewrite lookup_insert_ne; [done|congruence]|].
    exists q2, i2. split_and!; try done. destruct (decide (q ++ [i] = q2)) as [<-|Hne];
      [rewrite lookup_insert_eq|rewrite lookup_insert_ne by done]; eauto.
Qed.

(** Below a path that is not a table there is nothing. *)
Lemma tree_below root T L q i : tree root T L → T !! q = None → T !! (q ++ [i]) = None ∧ L !! (q ++ [i]) = None.
Proof.
  intros [Hr Hpa Hpr Hin Hlf] Hq. split.
  - destruct (T !! (q ++ [i])) eqn:E; [|done]. apply Hpr in E as [? ?]. congruence.
  - destruct (L !! (q ++ [i])) as [[pa f]|] eqn:E; [|done].
    apply Hlf in E as (_ & _ & _ & _ & q2 & i2 & Heq & _ & [x Hx]). apply app_inj_tail in Heq as [<- _]. congruence.
Qed.

(** A leaf below an existing table. *)
Lemma tree_add_leaf root T L q i t pa f :
  tree root T L → T !! q = Some t → idx i → (length q = 1 ∨ length q = 2)%nat → T !! (q ++ [i]) = None →
  pa_ok12 pa → leaf_flags f → tree root T (<[q ++ [i] := (pa, f)]> L).
Proof.
  intros [Hr Hpa Hpr Hin Hlf] Hq Hi Hl HT Hpa12 Hf. split; try done.
  intros q' pa' f'. rewrite lookup_insert_Some. intros [[<- [= <- <-]]|[_ HL]]; [|by apply Hlf].
  split_and!; try done; [rewrite length_app; cbn; lia|]. exists q, i. eauto.
Qed.

Lemma tree_del_leaf root T L q : tree root T L → tree root T (delete q L).
Proof.
  intros [Hr Hpa Hpr Hin Hlf]. split; try done. intros q' pa f.
  rewrite lookup_delete_Some. intros [_ HL]. by apply Hlf.
Qed.

(** A byte of one of the table pages. *)
Definition table_byte (T : tables) (a : Z) : Prop := ∃ q pa, T !! q = Some pa ∧ pa ≤ a < pa + PGSIZE.

Section VmInv.
Context {S : Type} {PO : PageAllocOps S} {PS : PageAllocSpec S}.
Implicit Types (T : tables) (L : leaves) (s : S).

Record pt_ok (root : Z) T L s : Prop := {
  pt_tree : tree root T L;
  pt_page : ∀ q pa, T !! q = Some pa → pa_managed pa ∧ ¬ pa_free s pa;
  pt_mem : ∀ q pa i, T !! q = Some pa → idx i → ld64 (pa_mem s) (pa + 8 * i) = entry T L (q ++ [i])
}.

(** What may change when a table is extended: free pages become tables, and
    entries of tables are written. *)
Record vm_frame T s T' s' : Prop := {
  vf_ok : pa_ok s';
  vf_sub : T ⊆ T';
  vf_new : ∀ q p, T' !! q = Some p → T !! q = None → pa_free s p;
  vf_free : ∀ p, pa_free s' p ↔ pa_free s p ∧ ∀ q, T' !! q ≠ Some p;
  vf_mem : ∀ a, ¬ page_byte (pa_free s) a → ¬ table_byte T a → ldb (pa_mem s') a = ldb (pa_mem s) a
}.

(** ** Pages are apart *)

Lemma page_range p : pa_managed p → 0x80000000 ≤ p ∧ p + 4096 ≤ 0x88000000 ∧ p mod 4096 = 0.
Proof.
  intros Hm. pose proof (pa_managed_page p Hm) as (H1 & H2 & H3).
  unfold PHYSTOP, KERNBASE, PGSIZE in *. lia.
Qed.

Lemma page_ok12 p : pa_managed p → pa_ok12 p.
Proof. intros Hm. pose proof (page_range p Hm). unfold pa_ok12. lia. Qed.

Lemma page_apart p p' a a' :
  p mod 4096 = 0 → p' mod 4096 = 0 → p ≠ p' → p ≤ a < p + 4096 → p' ≤ a' < p' + 4096 → a ≠ a'.
Proof. intros H1 H2 Hne Ha Ha' ->. apply Z.mod_divide in H1 as [k ->], H2 as [k' ->]; [|lia..]. lia. Qed.

Lemma free_byte_page s p a :
  pa_ok s → page_byte (pa_free s) a → p mod 4096 = 0 → p ≤ a < p + 4096 → pa_free s p.
Proof.
  intros Hok (p' & Hf & Ha) Hm Hp. destruct (decide (p = p')) as [->|Hne]; [done|].
  pose proof (page_range p' (pa_free_managed s p' Hok Hf)) as (_ & _ & Hm').
  unfold PGSIZE in Ha. by destruct (page_apart p p' a a).
Qed.

(** A page that is not free is not touched by the allocator. *)
Lemma used_byte s p a :
  pa_ok s → pa_managed p → ¬ pa_free s p → p ≤ a < p + 4096 → ¬ page_byte (pa_free s) a.
Proof.
  intros Hok Hm Hnf Ha Hb. apply Hnf. eapply free_byte_page; [done..| |done]. by apply page_range.
Qed.

Lemma ld64_same m m' a : (∀ b, a ≤ b < a + 8 → ldb m' b = ldb m b) → ld64 m' a = ld64 m a.
Proof. intros H. apply ldn_ext. exact H. Qed.

Lemma ld64_st64_at m a b v :
  0 ≤ v < 18446744073709551616 → (a = b ∨ a + 8 ≤ b ∨ b + 8 ≤ a) →
  ld64 (st64 m a v) b = if decide (a = b) then v else ld64 m b.
Proof.
  intros Hv Hab. case_decide as Heq; [subst; by apply ld64_st64_eq|].
  apply (ldn_stn_ne 8 8). lia.
Qed.

(** ** Following the tree *)

(** The address of the entry [q ++ [i]]. *)
Definition slot_of T (q : list Z) (i : Z) : Z := default 0 (T !! q) + 8 * i.

Definition walk_res T L (va stop : Z) : Z * Z :=
  let i2 := PX 2 va in let i1 := PX 1 va in let i0 := PX 0 va in
  if stop =? 2 then (slot_of T [] i2, 2)
  else match T !! [i2] with
  | None => (0, -1)
  | Some _ =>
      if stop =? 1 then (slot_of T [i2] i1, 1)
      else match T !! [i2; i1] with
      | Some _ => (slot_of T [i2; i1] i0, 0)
      | None => match L !! [i2; i1] with Some _ => (slot_of T [i2] i1, 1) | None => (0, -1) end
      end
  end.

Lemma pte_addr root T L s q pa i :
  pt_ok root T L s → T !! q = Some pa → idx i → u64 (pa + 8 * i) = pa + 8 * i.
Proof.
  intros Hp Hq Hi. pose proof (page_range pa (proj1 (pt_page _ _ _ _ Hp _ _ Hq))). unfold idx in Hi.
  apply u64_small. lia.
Qed.

Lemma entry_table T L q pa : T !! q = Some pa → pa_managed pa →
  hasbit (entry T L q) PTE_V = true ∧ hasbit (entry T L q) PTE_RWX = false ∧ PTE2PA (entry T L q) = pa.
Proof.
  intros Hq Hm. unfold entry. rewrite Hq. pose proof (page_ok12 pa Hm).
  rewrite !mkpte_hasbit, mkpte_PTE2PA by (done || (unfold PTE_V, PTE_RWX, PTE_R, PTE_W, PTE_X; cbn; lia)). done.
Qed.

Lemma entry_leaf T L q pa f : T !! q = None → L !! q = Some (pa, f) → leaf_flags f →
  entry T L q = mkpte pa f ∧ hasbit (entry T L q) PTE_V = true ∧ hasbit (entry T L q) PTE_RWX = true.
Proof.
  intros HT HL (Hf & Hv & Hr). unfold entry. rewrite HT, HL. split; [done|].
  by rewrite !mkpte_hasbit by (done || (unfold PTE_V, PTE_RWX, PTE_R, PTE_W, PTE_X; cbn; lia)).
Qed.

Lemma entry_none T L q : T !! q = None → L !! q = None → entry T L q = 0.
Proof. unfold entry. by intros -> ->. Qed.

(** One level of the walk: what the loop body of [walk_to_level] sees. *)
Lemma wp_ldpte a Q s : wp (ldpte a) Q s = Q (ld64 (pa_mem s) a) s.
Proof. done. Qed.
Lemma wp_stpte a v Q s : wp (stpte a v) Q s = Q tt (pa_set_mem (st64 (pa_mem s) a v) s).
Proof. done. Qed.
Lemma wp_kmemset a c n Q s : wp (kmemset a c n) Q s = Q tt (pa_set_mem (memset (pa_mem s) a c n) s).
Proof. done. Qed.
Lemma wp_kmemmove d c n Q s : wp (kmemmove d c n) Q s = Q tt (pa_set_mem (memmove (pa_mem s) d c n) s).
Proof. done. Qed.

Lemma leaf_len2 root T L s i x : pt_ok root T L s → L !! [i] = Some x → False.
Proof. intros Hp HL. destruct x. apply (tr_leaf _ _ _ (pt_tree _ _ _ _ Hp)) in HL as (_ & [?|?] & _); done. Qed.

(** ** Extending the tree *)

Lemma slots_apart root T L s q q' pa pa' i i' :
  pt_ok root T L s → T !! q = Some pa → T !! q' = Some pa' → idx i → idx i' →
  (q = q' ∧ i = i' ∧ pa + 8 * i = pa' + 8 * i') ∨
  (pa + 8 * i ≠ pa' + 8 * i' ∧ (pa + 8 * i + 8 ≤ pa' + 8 * i' ∨ pa' + 8 * i' + 8 ≤ pa + 8 * i)).
Proof.
  intros Hp Hq Hq' Hi Hi'. pose proof (page_range pa (proj1 (pt_page _ _ _ _ Hp _ _ Hq))) as (_ & _ & Hm).
  pose proof (page_range pa' (proj1 (pt_page _ _ _ _ Hp _ _ Hq'))) as (_ & _ & Hm'). unfold idx in *.
  destruct (decide (pa = pa')) as [->|Hne].
  - assert (q = q') as -> by (by eapply (tr_inj _ _ _ (pt_tree _ _ _ _ Hp))). destruct (decide (i = i')) as [->|]; [by left|right; lia].
  - right. apply Z.mod_divide in Hm as [k ->], Hm' as [k' ->]; [|lia..]. lia.
Qed.

Lemma memset_page m p b : p ≤ b < p + 4096 → ldb (memset m p 0 PGSIZE) b = 0.
Proof. intros Hb. rewrite memset_in by (unfold PGSIZE; lia). done. Qed.

(** The memory of a page that is neither free nor written is kept. *)
Definition keeps s s' (w : Z → Prop) : Prop :=
  ∀ p a, pa_managed p → ¬ pa_free s p → p ≤ a < p + 4096 → ¬ w a → ldb (pa_mem s') a = ldb (pa_mem s) a.

(** The tables are kept when one entry is written. *)
Lemma entry_kept root T L s s' q t i q' pa j :
  pt_ok root T L s → keeps s s' (λ a, t + 8 * i ≤ a < t + 8 * i + 8) →
  T !! q = Some t → idx i → T !! q' = Some pa → idx j → q ++ [i] ≠ q' ++ [j] →
  ld64 (pa_mem s') (pa + 8 * j) = ld64 (pa_mem s) (pa + 8 * j).
Proof.
  intros Hp Hk Hq Hi Hq' Hj Hne. destruct (pt_page _ _ _ _ Hp _ _ Hq') as [Hm Hf].
  destruct (slots_apart _ _ _ _ q q' t pa i j Hp Hq Hq' Hi Hj) as [(<- & <- & _)|[_ Hap]]; [done|].
  apply ld64_same. intros b Hb. apply (Hk pa); [done..|unfold idx in *; lia|lia].
Qed.

Lemma pt_add_table root T L s s' q t i next :
  pt_ok root T L s → T !! q = Some t → idx i → (length q ≤ 1)%nat →
  T !! (q ++ [i]) = None → L !! (q ++ [i]) = None → pa_managed next → pa_free s next →
  (∀ p, pa_free s' p → pa_free s p ∧ p ≠ next) →
  (∀ a, next ≤ a < next + 4096 → ldb (pa_mem s') a = 0) →
  ld64 (pa_mem s') (t + 8 * i) = mkpte next PTE_V →
  keeps s s' (λ a, t + 8 * i ≤ a < t + 8 * i + 8) →
  pt_ok root (<[q ++ [i] := next]> T) L s'.
Proof.
  intros Hp Hq Hi Hlen HT HL Hm Hf Hfree Hz Hw Hk.
  assert (∀ q', T !! q' ≠ Some next) as Hn by (intros q' Hq'; by apply (pt_page _ _ _ _ Hp _ _ Hq')). split.
  - apply tree_add_table with t; try done. apply Hp.
  - intros q' pa. rewrite lookup_insert_Some. intros [[_ <-]|[_ Hq']]; [split; [done|naive_solver]|].
    destruct (pt_page _ _ _ _ Hp _ _ Hq'). split; [done|naive_solver].
  - intros q' pa j Hq' Hj. apply lookup_insert_Some in Hq' as [[<- <-]|[Hne Hq']].
    + rewrite (ldn_zero 8) by (intros b Hb; apply Hz; unfold idx in *; lia). symmetry.
      destruct (tree_below _ _ _ (q ++ [i]) j (pt_tree _ _ _ _ Hp) HT) as [E1 E2].
      apply entry_none; [|done]. rewrite lookup_insert_ne; [done|]. apply not_eq_sym, snoc_ne.
    + destruct (decide (q ++ [i] = q' ++ [j])) as [E|E].
      * apply app_inj_tail in E as [<- <-]. assert (t = pa) as <- by congruence. rewrite Hw.
        unfold entry. by rewrite lookup_insert_eq.
      * rewrite (entry_kept root T L s s' q t i q' pa j) by done. rewrite (pt_mem _ _ _ _ Hp q' pa j) by done.
        unfold entry. by rewrite lookup_insert_ne.
Qed.

Lemma wp_new_table {A} (e0 : A) (f : Z → A) root T L s q t i (Q : A → S → Prop) :
  pa_ok s → pt_ok root T L s → T !! q = Some t → idx i → (length q ≤ 1)%nat →
  T !! (q ++ [i]) = None → L !! (q ++ [i]) = None →
  ((∀ p, ¬ pa_free s p) → Q e0 s) →
  (∀ next s', pt_ok root (<[q ++ [i] := next]> T) L s' →
     vm_frame T s (<[q ++ [i] := next]> T) s' → Q (f next) s') →
  wp (next ← pa_kalloc;
      if next =? 0 then mret e0 else
      kmemset next 0 PGSIZE;;
      stpte (t + 8 * i) (Z.lor (PA2PTE next) PTE_V);;
      mret (f next)) Q s.
Proof.
  intros Hok Hp Hq Hi Hlen HT HL H0 HQ. wp_step. wp_apply pa_kalloc_spec; [done|].
  intros next s1 [Hok1 [(-> & Hnf & ->)|(Hf & Hfree & Hmem)]]; [by apply H0|].
  pose proof (pa_free_managed s next Hok Hf) as Hm. pose proof (page_range next Hm) as Hr.
  rewrite (proj2 (Z.eqb_neq next 0)) by lia. wp_simpl. rewrite wp_kmemset. wp_simpl. rewrite wp_stpte, wp_ret.
  rewrite pa_mem_set, pa_set_set, PA2PTE_flags by first [by apply page_ok12|unfold PTE_V; lia].
  destruct (pt_page _ _ _ _ Hp _ _ Hq) as [Htm Htf].
  assert (next ≠ t) as Hnt by (by intros ->). pose proof (page_range t Htm) as Hrt.
  set (m' := st64 _ _ _). set (s' := pa_set_mem m' s1).
  assert (∀ a, ¬ (next ≤ a < next + 4096) → ¬ (t + 8 * i ≤ a < t + 8 * i + 8) → ldb m' a = ldb (pa_mem s1) a) as Hm'.
  { intros a Ha Hb. unfold m'. rewrite ldb_stn_out by lia. apply memset_out. unfold PGSIZE. lia. }
  assert (∀ p, pa_free s' p ↔ pa_free s p ∧ p ≠ next) as Hfree'.
  { intros p. unfold s'. rewrite pa_free_set. apply Hfree. }
  apply HQ.
  - apply (pt_add_table root T L s s' q t i next); try done; [by apply Hfree'| | |].
    + intros a Ha. unfold s', m'. rewrite pa_mem_set, ldb_stn_out; [by apply memset_page|].
      unfold idx in Hi. destruct (decide (t + 8 * i ≤ a < t + 8 * i + 8)); [|lia].
      by destruct (page_apart t next a a); lia.
    + unfold s', m'. rewrite pa_mem_set. apply ld64_st64_eq. apply mkpte_range; [by apply page_ok12|unfold PTE_V; lia].
    + intros p a Hpm Hpf Ha Hna. unfold s'. rewrite pa_mem_set, Hm' by (done || (intros Hb;
        pose proof (page_range p Hpm); assert (p ≠ next) by (by intros ->); by destruct (page_apart p next a a); lia)).
      apply Hmem. by eapply used_byte.
  - split.
    + apply pa_ok_set; [done|]. intros a (p & Hpf & Ha). apply Hfree in Hpf as [Hpf Hpn]. unfold PGSIZE in Ha.
      pose proof (page_range p (pa_free_managed _ _ Hok Hpf)) as Hrp. apply Hm'; intros Hb.
      * by destruct (page_apart p next a a); lia.
      * unfold idx in Hi. assert (p ≠ t) by (by intros ->). by destruct (page_apart p t a a); lia.
    + by apply insert_subseteq.
    + intros q' p. rewrite lookup_insert_Some. intros [[_ <-]|[_ ?]] ?; [done|congruence].
    + intros p. rewrite Hfree'. split.
      * intros [Hpf Hpn]. split; [done|]. intros q'. rewrite lookup_insert_Some. intros [[_ ?]|[_ Hq']]; [done|].
        by destruct (pt_page _ _ _ _ Hp _ _ Hq').
      * intros [Hpf Hn]. split; [done|]. intros ->. apply (Hn (q ++ [i])). apply lookup_insert_eq.
    + intros a Ha Hnt'. unfold s'. rewrite pa_mem_set, Hm'; [by apply Hmem|..]; intros Hb.
      * apply Ha. by exists next.
      * apply Hnt'. exists q, t. unfold PGSIZE, idx in *. split; [done|lia].
Qed.

Lemma vm_frame_refl root T L s : pa_ok s → pt_ok root T L s → vm_frame T s T s.
Proof.
  intros Hok Hp. split; try done; [congruence|]. intros p. split; [|naive_solver]. intros Hf. split; [done|].
  intros q Hq. by apply (pt_page _ _ _ _ Hp q p).
Qed.

Lemma vm_frame_trans T1 s1 T2 s2 T3 s3 :
  vm_frame T1 s1 T2 s2 → vm_frame T2 s2 T3 s3 → vm_frame T1 s1 T3 s3.
Proof.
  intros [Hok2 Hs2 Hn2 Hf2 Hm2] [Hok3 Hs3 Hn3 Hf3 Hm3]. split; [done|by etrans|..].
  - intros q p Hq H1. destruct (T2 !! q) as [p'|] eqn:E2.
    + apply (Hn2 q p); [|done]. rewrite E2. by apply (lookup_weaken _ _ _ _ E2) in Hs3; congruence.
    + apply Hf2. by eapply Hn3.
  - intros p. rewrite Hf3, Hf2. split; [naive_solver|]. intros [Hp Hn]. split_and!; [done| |done].
    intros q Hq. apply (Hn q). by eapply lookup_weaken.
  - intros a Ha Ht. rewrite Hm3; [by apply Hm2|..].
    + intros (p & Hp & Hb). apply Ha. exists p. split; [|done]. by apply Hf2.
    + intros (q & p & Hq & Hb). destruct (T1 !! q) as [p'|] eqn:E.
      * apply Ht. exists q, p. split; [|done]. apply (lookup_weaken _ _ _ _ E) in Hs2. congruence.
      * apply Ha. exists p. split; [|done]. by eapply Hn2.
Qed.

(** ** The walk *)

(** One level, at the table [t] of path [q]. *)
Lemma wp_walk_step root T L s va alloc stop level q t (Q : Z * Z + Z * Z → S → Prop) :
  pa_ok s → pt_ok root T L s → 0 ≤ va < MAXVA → T !! q = Some t → 1 ≤ level →
  Z.of_nat (length q) = 2 - level → level ≠ stop →
  match T !! (q ++ [PX level va]) with
  | Some t' => Q (inl (level - 1, t')) s
  | None =>
      match L !! (q ++ [PX level va]) with
      | Some _ => Q (inr (t + 8 * PX level va, level)) s
      | None =>
          ((alloc = false ∨ ∀ p, ¬ pa_free s p) → Q (inr (0, -1)) s) ∧
          (∀ next s', alloc = true → pt_ok root (<[q ++ [PX level va] := next]> T) L s' →
             vm_frame T s (<[q ++ [PX level va] := next]> T) s' → Q (inl (level - 1, next)) s')
      end
  end →
  wp (walk_step va alloc stop (level, t)) Q s.
Proof.
  intros Hok Hp Hva Hq Hlev Hlen Hne HQ. assert (idx (PX level va)) as Hi by (apply PX_idx; lia).
  unfold walk_step. cbv zeta. rewrite (pte_addr _ _ _ _ q t) by done. rewrite (proj2 (Z.eqb_neq _ _) Hne).
  wp_step. rewrite wp_ldpte, (pt_mem _ _ _ _ Hp q t) by done.
  destruct (T !! (q ++ [PX level va])) as [t'|] eqn:ET.
  { destruct (entry_table T L _ t' ET) as (-> & -> & ->); [by apply (pt_page _ _ _ _ Hp _ _ ET)|done]. }
  destruct (L !! (q ++ [PX level va])) as [[pa f]|] eqn:EL.
  { destruct (tr_leaf _ _ _ (pt_tree _ _ _ _ Hp) _ _ _ EL) as (_ & _ & _ & Hlf & _).
    destruct (entry_leaf T L _ pa f ET EL Hlf) as (_ & -> & ->). done. }
  rewrite entry_none, hasbit_0 by done. destruct HQ as [H0 H1]. destruct alloc; cbn [negb]; [|apply H0; by left].
  apply (wp_new_table _ (λ next, inl (level - 1, next)) root T L s q t); try done; [lia|naive_solver|].
  intros next s'. by apply H1.
Qed.

(** The last level. *)
Lemma wp_walk_stop root T L s va alloc stop level q t (Q : Z * Z + Z * Z → S → Prop) :
  pt_ok root T L s → 0 ≤ va < MAXVA → T !! q = Some t → 0 ≤ level → level = stop →
  Q (inr (t + 8 * PX level va, level)) s → wp (walk_step va alloc stop (level, t)) Q s.
Proof.
  intros Hp Hva Hq Hl <- HQ. unfold walk_step. cbv zeta. rewrite (pte_addr _ _ _ _ q t), Z.eqb_refl by (done || apply PX_idx; lia).
  done.
Qed.

(** The tables a walk may add. *)
Definition new_path (va stop : Z) (q : list Z) : Prop := q = [PX 2 va] ∨ (stop = 0 ∧ q = [PX 2 va; PX 1 va]).

(** What a walk may end with. *)
Record walked (root va : Z) (alloc : bool) (stop : Z) T L s (r : Z * Z) T' s' : Prop := {
  wk_ok : pt_ok root T' L s';
  wk_frame : vm_frame T s T' s';
  wk_same : alloc = false → T' = T ∧ s' = s;
  wk_new : ∀ q, is_Some (T' !! q) → T !! q = None → new_path va stop q;
  wk_res : (r = walk_res T' L va stop ∧ (alloc = true → fst r ≠ 0)) ∨ (r = (0, -1) ∧ alloc = true ∧ ∀ p, ¬ pa_free s' p)
}.

Section Levels.
Context (root va : Z) (alloc : bool) (stop : Z) T L s.
Hypothesis Hva : 0 ≤ va < MAXVA.
Hypothesis Hst : 0 ≤ stop ≤ 1.

Definition reached T1 s1 : Prop :=
  pt_ok root T1 L s1 ∧ vm_frame T s T1 s1 ∧ (alloc = false → T1 = T ∧ s1 = s) ∧
  (∀ q, is_Some (T1 !! q) → T !! q = None → new_path va stop q).

Lemma reached_add T1 s1 q next s2 :
  reached T1 s1 → alloc = true → new_path va stop q → pt_ok root (<[q := next]> T1) L s2 →
  vm_frame T1 s1 (<[q := next]> T1) s2 → reached (<[q := next]> T1) s2.
Proof.
  intros (_ & Hf & _ & Hn) Ha Hl Hp Hf'. split_and!; [done|by eapply vm_frame_trans|congruence|].
  intros q'. destruct (decide (q = q')) as [<-|Hne]; [done|]. rewrite lookup_insert_ne by done. apply Hn.
Qed.

Lemma reached_fail T1 s1 :
  reached T1 s1 → walk_res T1 L va stop = (0, -1) → (alloc = false ∨ ∀ p, ¬ pa_free s1 p) →
  ∃ T', walked root va alloc stop T L s (0, -1) T' s1.
Proof.
  intros (Hp & Hf & Hs & Hnw) Hres Hn. exists T1. split; try done. destruct alloc; [|by left].
  right. split_and!; [done..|]. naive_solver.
Qed.

Lemma reached_at T1 s1 q t i level :
  reached T1 s1 → T1 !! q = Some t → idx i → walk_res T1 L va stop = (slot_of T1 q i, level) →
  ∃ T', walked root va alloc stop T L s (t + 8 * i, level) T' s1.
Proof.
  intros (Hp & Hf & Hs & Hnw) Hq Hi Hres. exists T1. unfold slot_of in Hres. rewrite Hq in Hres. cbn in Hres.
  split; try done. left. split; [done|]. intros _. cbn.
  pose proof (page_range t (proj1 (pt_page _ _ _ _ Hp _ _ Hq))). unfold idx in Hi. lia.
Qed.

Lemma walk_lvl0 T1 s1 t0 n :
  reached T1 s1 → T1 !! [PX 2 va; PX 1 va] = Some t0 → stop = 0 →
  wp (loop (Datatypes.S n) (walk_step va alloc stop) (0, t0)) (λ r s', ∃ T', walked root va alloc stop T L s r T' s') s1.
Proof.
  intros Hr E0 Hs0. pose proof Hr as (Hp & _). apply wp_loop_S.
  eapply wp_walk_stop; [exact Hp|done|exact E0|lia|lia|]. apply (reached_at T1 s1 [PX 2 va; PX 1 va] t0); try done.
  - apply PX_idx; lia.
  - destruct (tr_parent _ _ _ (pt_tree _ _ _ _ Hp) [PX 2 va] (PX 1 va) t0 E0) as [t1 E1].
    rewrite Hs0. unfold walk_res. by rewrite E1, E0.
Qed.

Lemma walk_lvl1 T1 s1 t1 n :
  reached T1 s1 → T1 !! [PX 2 va] = Some t1 →
  wp (loop (Datatypes.S (Datatypes.S n)) (walk_step va alloc stop) (1, t1)) (λ r s', ∃ T', walked root va alloc stop T L s r T' s') s1.
Proof.
  intros Hr E1. pose proof Hr as (Hp & Hf & _). apply wp_loop_S. destruct (decide (stop = 1)) as [Hs1|Hne].
  - eapply wp_walk_stop; [exact Hp|done|exact E1|lia|lia|]. apply (reached_at T1 s1 [PX 2 va] t1); try done.
    + apply PX_idx; lia.
    + rewrite Hs1. unfold walk_res. by rewrite E1.
  - assert (stop = 0) as Hs0 by lia.
    eapply (wp_walk_step root T1 L s1 va alloc stop 1 [PX 2 va]); [apply Hf|done..|lia|]. cbn [app].
    destruct (T1 !! [PX 2 va; PX 1 va]) as [t0|] eqn:E0; [by apply (walk_lvl0 T1)|].
    assert (walk_res T1 L va stop = match L !! [PX 2 va; PX 1 va] with Some _ => (slot_of T1 [PX 2 va] (PX 1 va), 1) | None => (0, -1) end) as Hres.
    { rewrite Hs0. unfold walk_res. by rewrite E1, E0. }
    destruct (L !! [PX 2 va; PX 1 va]) as [x|] eqn:EL.
    + apply (reached_at T1 s1 [PX 2 va] t1); try done. apply PX_idx; lia.
    + split; [intros Hn; by apply (reached_fail T1)|]. intros next s2 Ha Hp2 Hf2.
      apply (walk_lvl0 (<[[PX 2 va; PX 1 va] := next]> T1)); [eapply reached_add; try done; by right|apply lookup_insert_eq|done].
Qed.
End Levels.

Lemma walk_spec root T L s va alloc stop :
  pa_ok s → pt_ok root T L s → 0 ≤ va < MAXVA → 0 ≤ stop ≤ 1 →
  wp (walk_to_level root va alloc stop) (λ r s', ∃ T', walked root va alloc stop T L s r T' s') s.
Proof.
  intros Hok Hp Hva Hst. unfold walk_to_level. wp_simpl.
  { apply Z.leb_gt. lia. }
  { apply orb_false_iff. split; [apply Z.ltb_ge; lia|rewrite Z.gtb_ltb; apply Z.ltb_ge; lia]. }
  pose proof (tr_root _ _ _ (pt_tree _ _ _ _ Hp)) as Hr.
  assert (reached root va alloc stop T L s T s) as Hrd by (split_and!; [done|by eapply vm_frame_refl|done|intros q [x Hx]; congruence]).
  apply wp_loop_S. eapply (wp_walk_step root T L s va alloc stop 2 []); [done..|lia|done|lia|]. cbn [app].
  destruct (T !! [PX 2 va]) as [t1|] eqn:E1; [by apply walk_lvl1 with T|].
  destruct (L !! [PX 2 va]) as [x|] eqn:EL; [exfalso; by eapply leaf_len2|]. split.
  - intros Hn. eapply reached_fail; [done|done|exact Hrd| |exact Hn]. unfold walk_res.
    rewrite (proj2 (Z.eqb_neq stop 2)) by lia. by rewrite E1.
  - intros next s2 Ha Hp2 Hf2. eapply walk_lvl1; [done|done|eapply reached_add; try done; by left|apply lookup_insert_eq].
Qed.
End VmInv.
