(* ===== verification/VmMap.v ===== *)
(** * Mapping and translating

    [translate] is the meaning of a page table: the physical address and flags
    of a virtual address.  [walkaddr] computes it for user pages, and
    [mappages] extends it by exactly the range it is given. *)

From S2P Require Import Prelude Mem Kstring Layout PageAlloc Vm VmInv.

Definition translate (L : leaves) (va : Z) : option (Z * Z) :=
  match L !! vpath va with
  | Some (pa, f) => Some (pa + va mod 4096, f)
  | None =>
      match L !! [PX 2 va; PX 1 va] with
      | Some (pa, f) => Some (pa + va mod 2097152, f)
      | None => None
      end
  end.

(** The path of a page of the given level. *)
Definition lpath (lvl va : Z) : list Z := if lvl =? 0 then vpath va else [PX 2 va; PX 1 va].
Definition lsize (lvl : Z) : Z := if lvl =? 0 then 4096 else 2097152.

Section VmMap.
Context {S : Type} {PO : PageAllocOps S} {PS : PageAllocSpec S}.
Implicit Types (T : tables) (L : leaves) (s : S).

(** ** Entries written *)

Lemma pt_write_entry root T L L' s q t i v :
  pa_ok s → pt_ok root T L s → T !! q = Some t → idx i → tree root T L' →
  0 ≤ v < 18446744073709551616 → entry T L' (q ++ [i]) = v →
  (∀ q', q' ≠ q ++ [i] → L' !! q' = L !! q') →
  pt_ok root T L' (pa_set_mem (st64 (pa_mem s) (t + 8 * i) v) s).
Proof.
  intros Hok Hp Hq Hi Htr Hv He HL. split; [done| |].
  - intros q' pa Hq'. rewrite pa_free_set. by apply (pt_page _ _ _ _ Hp _ _ Hq').
  - intros q' pa j Hq' Hj. rewrite pa_mem_set.
    destruct (slots_apart _ _ _ _ q q' t pa i j Hp Hq Hq' Hi Hj) as [(<- & <- & <-)|[Hne Hap]].
    + by rewrite ld64_st64_eq.
    + rewrite (ldn_stn_ne 8 8) by lia. rewrite (pt_mem _ _ _ _ Hp q' pa j) by done.
      unfold entry. destruct (T !! (q' ++ [j])); [done|]. rewrite HL; [done|].
      intros E. apply app_inj_tail in E as [-> ->]. congruence.
Qed.

(** An entry write keeps the pool and all memory but the tables. *)
Lemma write_frame root T L s q t i v :
  pa_ok s → pt_ok root T L s → T !! q = Some t → idx i →
  vm_frame T s T (pa_set_mem (st64 (pa_mem s) (t + 8 * i) v) s).
Proof.
  intros Hok Hp Hq Hi. destruct (pt_page _ _ _ _ Hp _ _ Hq) as [Hm Hf]. unfold idx in Hi.
  pose proof (page_range t Hm) as Hr. split.
  - apply pa_ok_set; [done|]. intros a Ha. apply ldb_stn_out.
    destruct (decide (t + 8 * i ≤ a < t + 8 * i + 8)); [|lia]. exfalso. eapply (used_byte s t); try done. lia.
  - done.
  - congruence.
  - intros p. rewrite pa_free_set. split; [|naive_solver]. intros Hpf. split; [done|].
    intros q' Hq'. by apply (pt_page _ _ _ _ Hp q' p).
  - intros a _ Ht. rewrite pa_mem_set. apply ldb_stn_out.
    destruct (decide (t + 8 * i ≤ a < t + 8 * i + 8)); [|lia]. destruct Ht. exists q, t. unfold PGSIZE. split; [done|lia].
Qed.

(** ** [walkaddr] *)

Lemma walk_res_noalloc root T L s va stop Q :
  pa_ok s → pt_ok root T L s → 0 ≤ va < MAXVA → 0 ≤ stop ≤ 1 → Q (walk_res T L va stop) s →
  wp (walk_to_level root va false stop) Q s.
Proof.
  intros Hok Hp Hva Hst HQ. wp_apply walk_spec; [done..|]. intros r s' (T' & [_ _ Hs _ Hr]).
  destruct (Hs eq_refl) as [-> ->]. destruct Hr as [[-> _]|(_ & ? & _)]; done.
Qed.

(** The entry a walk ends at, and what it says. *)
Lemma walk_res_entry root T L s va :
  pt_ok root T L s → 0 ≤ va < MAXVA →
  match translate L va with
  | Some (pa, f) => ∃ q i t level base, walk_res T L va 0 = (t + 8 * i, level) ∧ T !! q = Some t ∧ idx i ∧
      t + 8 * i ≠ 0 ∧ (level = 0 ∨ level = 1) ∧ lpath level va = q ++ [i] ∧ L !! (q ++ [i]) = Some (base, f) ∧
      pa = base + va mod lsize level ∧ leaf_flags f ∧ pa_ok12 base ∧ entry T L (q ++ [i]) = mkpte base f
  | None => walk_res T L va 0 = (0, -1) ∨ ∃ q i t, walk_res T L va 0 = (t + 8 * i, 0) ∧ T !! q = Some t ∧ idx i ∧
      t + 8 * i ≠ 0 ∧ vpath va = q ++ [i] ∧ entry T L (q ++ [i]) = 0
  end.
Proof.
  intros Hp Hva. assert (∀ l, 0 ≤ l → idx (PX l va)) as Hidx by (intros; apply PX_idx; lia).
  unfold translate, walk_res, vpath, slot_of. change (0 =? 2) with false. change (0 =? 1) with false. cbv iota.
  destruct (T !! [PX 2 va; PX 1 va]) as [t0|] eqn:E0.
  - destruct (tr_parent _ _ _ (pt_tree _ _ _ _ Hp) [PX 2 va] (PX 1 va) t0 E0) as [t1 E1]. rewrite E1.
    pose proof (page_range t0 (proj1 (pt_page _ _ _ _ Hp _ _ E0))). pose proof (Hidx 0 ltac:(lia)) as Hi0.
    assert (t0 + 8 * PX 0 va ≠ 0) by (unfold idx in Hi0; lia).
    destruct (L !! [PX 2 va; PX 1 va; PX 0 va]) as [[pa f]|] eqn:EL.
    + destruct (tr_leaf _ _ _ (pt_tree _ _ _ _ Hp) _ _ _ EL) as (ET & _ & Hpa & Hf & _).
      exists [PX 2 va; PX 1 va], (PX 0 va), t0, 0, pa. split_and!; try done; [by left|].
      by apply (entry_leaf T L [PX 2 va; PX 1 va; PX 0 va]).
    + destruct (L !! [PX 2 va; PX 1 va]) as [[pa f]|] eqn:EL1.
      { destruct (tr_leaf _ _ _ (pt_tree _ _ _ _ Hp) _ _ _ EL1) as (ET & _). congruence. }
      right. exists [PX 2 va; PX 1 va], (PX 0 va), t0. split_and!; try done. apply entry_none; [|done].
      cbn [app]. destruct (T !! [PX 2 va; PX 1 va; PX 0 va]) eqn:E; [|done].
      apply (tr_path _ _ _ (pt_tree _ _ _ _ Hp)) in E as [E _]. cbn in E. lia.
  - destruct (L !! [PX 2 va; PX 1 va; PX 0 va]) as [[pa f]|] eqn:EL.
    { destruct (tr_leaf _ _ _ (pt_tree _ _ _ _ Hp) _ _ _ EL) as (_ & _ & _ & _ & q' & i & Heq & _ & [x Hx]).
      change [PX 2 va; PX 1 va; PX 0 va] with ([PX 2 va; PX 1 va] ++ [PX 0 va]) in Heq.
      apply app_inj_tail in Heq as [<- _]. congruence. }
    destruct (L !! [PX 2 va; PX 1 va]) as [[pa f]|] eqn:EL1; [|left; by destruct (T !! [PX 2 va])].
    destruct (tr_leaf _ _ _ (pt_tree _ _ _ _ Hp) _ _ _ EL1) as (ET & _ & Hpa & Hf & q' & i & Heq & _ & [t1 E1]).
    change [PX 2 va; PX 1 va] with ([PX 2 va] ++ [PX 1 va]) in Heq. apply app_inj_tail in Heq as [<- <-]. rewrite E1.
    pose proof (page_range t1 (proj1 (pt_page _ _ _ _ Hp _ _ E1))). pose proof (Hidx 1 ltac:(lia)) as Hi1.
    exists [PX 2 va], (PX 1 va), t1, 1, pa. split_and!; try done; [unfold idx in Hi1; cbn; lia|by right|].
    by apply (entry_leaf T L [PX 2 va; PX 1 va]).
Qed.

Lemma land_ones_mod x n : 0 ≤ n → Z.land x (2 ^ n - 1) = x mod 2 ^ n.
Proof. intros Hn. rewrite <-Z.land_ones by done. f_equal. rewrite Z.ones_equiv. lia. Qed.

(** The user-visible physical address. *)
Definition uaddr L va : Z :=
  match translate L va with Some (pa, f) => if hasbit f PTE_U then pa else 0 | None => 0 end.

Lemma translate_range root T L s va pa f :
  pt_ok root T L s → 0 ≤ va < MAXVA → translate L va = Some (pa, f) → 0 ≤ pa < 72057594039000000 + 2097152.
Proof.
  intros Hp Hva Ht. pose proof (walk_res_entry root T L s va Hp Hva) as Hw. rewrite Ht in Hw.
  destruct Hw as (q & i & t & level & base & _ & _ & _ & _ & Hl & _ & _ & -> & _ & [Hb _] & _).
  assert (0 ≤ va mod lsize level < 2097152); [|lia].
  unfold lsize. case_match; pose proof (Z.mod_pos_bound va 4096); pose proof (Z.mod_pos_bound va 2097152); lia.
Qed.

Lemma walkaddr_spec root T L s va Q :
  pa_ok s → pt_ok root T L s → 0 ≤ va < MAXVA → Q (uaddr L va) s → wp (walkaddr root va) Q s.
Proof.
  intros Hok Hp Hva HQ. unfold walkaddr. rewrite (proj2 (Z.leb_gt _ _)) by lia. wp_step.
  unfold walk_with_level. eapply walk_res_noalloc; [done..|lia|].
  pose proof (walk_res_entry root T L s va Hp Hva) as Hw. unfold uaddr in HQ.
  destruct (translate L va) as [[pa f]|] eqn:Et.
  - destruct Hw as (q & i & t & level & base & -> & Hq & Hi & Hnz & Hlv & _ & _ & Hpa & Hf & Hb & He).
    rewrite (proj2 (Z.eqb_neq _ _) Hnz). wp_step. rewrite wp_ldpte, (pt_mem _ _ _ _ Hp q t i) by done. rewrite He.
    destruct (Hf) as (Hfr & Hv & _). rewrite !mkpte_hasbit, Hv by (done || (unfold PTE_V, PTE_U; lia)). cbn [negb].
    destruct (hasbit f PTE_U); cbn [negb]; [|done]. rewrite wp_ret, mkpte_PTE2PA by done.
    pose proof (translate_range _ _ _ _ _ _ _ Hp Hva Et).
    rewrite level_page_size_eq by done. fold (lsize level). rewrite Hpa in *.
    replace (Z.land va (lsize level - 1)) with (va mod lsize level); [by rewrite u64_small by lia|].
    destruct Hlv as [->| ->]; symmetry; [apply (land_ones_mod va 12)|apply (land_ones_mod va 21)]; lia.
  - destruct Hw as [->|(q & i & t & -> & Hq & Hi & Hnz & _ & He)]; [done|].
    rewrite (proj2 (Z.eqb_neq _ _) Hnz). wp_step. rewrite wp_ldpte, (pt_mem _ _ _ _ Hp q t i) by done.
    rewrite He, hasbit_0. done.
Qed.

(** ** [mappages] *)

(** The entry of a page of level [lvl] at [a] may be set. *)
Definition slot_free T L lvl a : Prop :=
  L !! lpath lvl a = None ∧ (lvl = 0 → L !! [PX 2 a; PX 1 a] = None) ∧ (lvl = 1 → T !! [PX 2 a; PX 1 a] = None).

Lemma walk_slot root T L s va lvl T' s' r :
  0 ≤ va < MAXVA → lvl = 0 ∨ lvl = 1 → slot_free T L lvl va → walked root va true lvl T L s r T' s' →
  (fst r = 0 ∧ ∀ p, ¬ pa_free s' p) ∨
  ∃ q i t, r = (t + 8 * i, lvl) ∧ t + 8 * i ≠ 0 ∧ lpath lvl va = q ++ [i] ∧ T' !! q = Some t ∧ idx i ∧
    T' !! (q ++ [i]) = None ∧ (length q = 1 ∨ length q = 2)%nat.
Proof.
  intros Hva Hlv (HL & HL0 & HT1) [Hp Hf _ Hnew [[Hr Hnz]|(-> & _ & Hn)]]; [|by left]. right.
  assert (∀ l, 0 ≤ l → idx (PX l va)) as Hidx by (intros; apply PX_idx; lia). specialize (Hnz eq_refl).
  destruct Hlv as [-> | ->]; unfold walk_res, slot_of in Hr; cbn [Z.eqb Pos.eqb] in Hr.
  - destruct (T' !! [PX 2 va]) as [t1|] eqn:E1; [|by subst r].
    destruct (T' !! [PX 2 va; PX 1 va]) as [t0|] eqn:E0; [|rewrite HL0 in Hr by done; by subst r].
    exists [PX 2 va; PX 1 va], (PX 0 va), t0. subst r. split_and!; try done; [apply Hidx; lia| |by right].
    destruct (T' !! ([PX 2 va; PX 1 va] ++ [PX 0 va])) eqn:E; [|done].
    apply (tr_path _ _ _ (pt_tree _ _ _ _ Hp)) in E as [E _]. cbn in E. lia.
  - destruct (T' !! [PX 2 va]) as [t1|] eqn:E1; [|by subst r].
    exists [PX 2 va], (PX 1 va), t1. subst r. split_and!; try done; [apply Hidx; lia| |by left].
    cbn [app]. destruct (T' !! [PX 2 va; PX 1 va]) eqn:E; [|done].
    apply mk_is_Some, Hnew in E as [E|[E _]]; [done|done|by apply HT1].
Qed.

Lemma wp_map_entry {A} (x0 : A) (k : M S A) root T L s lvl a pa f Q :
  pa_ok s → pt_ok root T L s → 0 ≤ a < MAXVA → lvl = 0 ∨ lvl = 1 → slot_free T L lvl a →
  pa_ok12 pa → leaf_flags f →
  (∀ T' s', pt_ok root T' L s' → vm_frame T s T' s' →
     (∀ q, is_Some (T' !! q) → T !! q = None → new_path a lvl q) → (∀ p, ¬ pa_free s' p) → Q x0 s') →
  (∀ T' s', pt_ok root T' (<[lpath lvl a := (pa, f)]> L) s' → vm_frame T s T' s' →
     (∀ q, is_Some (T' !! q) → T !! q = None → new_path a lvl q) → wp k Q s') →
  wp ('(pte, _) ← walk_to_level root a true lvl;
      if pte =? 0 then mret x0 else
      e ← ldpte pte;
      panic_if (hasbit e PTE_V) "mappages: remap";;
      stpte pte (mkpte pa f);;
      k) Q s.
Proof.
  intros Hok Hp Ha Hlv Hsf Hpa Hf Hfail Hdone. wp_step. wp_apply walk_spec; [done..|lia|].
  intros r s1 (T1 & Hw). pose proof (walk_slot _ _ _ _ _ _ _ _ _ Ha Hlv Hsf Hw) as Hs.
  destruct Hw as [Hp1 Hf1 _ Hnew _]. destruct Hs as [[Hr Hn]|(q & i & t & -> & Hnz & Hq & Ht & Hi & HT & Hlen)].
  { destruct r as [pte lv]. cbn in Hr. rewrite Hr. cbn. by apply (Hfail T1). }
  rewrite (proj2 (Z.eqb_neq _ _) Hnz). wp_step. destruct Hsf as [HL _]. rewrite Hq in *.
  rewrite wp_ldpte, (pt_mem _ _ _ _ Hp1 q t i), entry_none, hasbit_0 by done. wp_simpl. rewrite wp_stpte.
  eapply (Hdone T1).
  - eapply (pt_write_entry root T1 L); [apply Hf1|done..| | | |].
    + by apply tree_add_leaf with t; [apply Hp1|..].
    + apply mkpte_range; [done|apply Hf].
    + apply (entry_leaf _ _ _ pa f); [done|apply lookup_insert_eq|done].
    + intros q' Hne. by apply lookup_insert_ne.
  - eapply vm_frame_trans; [done|]. eapply write_frame; [apply Hf1|done..].
  - done.
Qed.

(** The leaves after the first [n] pages of a range are mapped. *)
Fixpoint map_range L (lvl va pa f : Z) (n : nat) : leaves :=
  match n with
  | O => L
  | Datatypes.S n' =>
      <[lpath lvl (va + Z.of_nat n' * lsize lvl) := (pa + Z.of_nat n' * lsize lvl, f)]> (map_range L lvl va pa f n')
  end.

Lemma hpath_page va : 0 ≤ va < MAXVA → va / 2097152 = PX 2 va * 512 + PX 1 va.
Proof.
  intros Hv. change 2097152 with (4096 * 512). rewrite <-Z.div_div, vpath_page by lia.
  pose proof (PX_idx 0 va ltac:(lia) ltac:(lia)) as Hi. unfold idx in Hi.
  replace (PX 2 va * 262144 + PX 1 va * 512 + PX 0 va) with ((PX 2 va * 512 + PX 1 va) * 512 + PX 0 va) by lia.
  rewrite Z.div_add_l by lia. rewrite (Z.div_small (PX 0 va)) by lia. lia.
Qed.

Lemma lpath_inj lvl a a' :
  0 ≤ a < MAXVA → 0 ≤ a' < MAXVA → lpath lvl a = lpath lvl a' → a / lsize lvl = a' / lsize lvl.
Proof.
  intros Ha Ha'. unfold lpath, lsize. destruct (lvl =? 0); [by apply vpath_inj|].
  intros [= E2 E1]. rewrite (hpath_page a), (hpath_page a') by done. by rewrite E2, E1.
Qed.

Lemma lpath_same lvl a a' :
  0 ≤ a < MAXVA → 0 ≤ a' < MAXVA → a / lsize lvl = a' / lsize lvl → lpath lvl a = lpath lvl a'.
Proof.
  intros Ha Ha' E. unfold lpath, lsize in *. destruct (lvl =? 0); [by apply vpath_same_page|].
  rewrite !PX_eq by lia. change (2 ^ (12 + 9 * 2)) with (2097152 * 512). change (2 ^ (12 + 9 * 1)) with 2097152.
  rewrite <-!Z.div_div by lia. by rewrite E.
Qed.

Lemma lpath_length lvl a : length (lpath lvl a) = if lvl =? 0 then 3%nat else 2%nat.
Proof. unfold lpath. by destruct (lvl =? 0). Qed.

Lemma map_range_other L lvl va pa f n q :
  (∀ k, (k < n)%nat → q ≠ lpath lvl (va + Z.of_nat k * lsize lvl)) → map_range L lvl va pa f n !! q = L !! q.
Proof.
  induction n as [|n IH]; intros Hq; cbn [map_range]; [done|].
  rewrite lookup_insert_ne by (apply not_eq_sym, Hq; lia). apply IH. intros k Hk. apply Hq. lia.
Qed.

Lemma lsize_pos lvl : 0 < lsize lvl.
Proof. unfold lsize. case_match; lia. Qed.

Lemma lpath_step lvl va (n k : nat) :
  0 ≤ va → va + Z.of_nat n * lsize lvl < MAXVA → (k < n)%nat →
  lpath lvl (va + Z.of_nat n * lsize lvl) ≠ lpath lvl (va + Z.of_nat k * lsize lvl).
Proof.
  intros Hva Hn Hk E. pose proof (lsize_pos lvl). apply lpath_inj in E; [|nia..].
  rewrite !Z.div_add in E by lia. lia.
Qed.

Lemma slot_free_next T T' L lvl va pa f n :
  0 ≤ va → va + Z.of_nat n * lsize lvl < MAXVA → lvl = 0 ∨ lvl = 1 →
  slot_free T L lvl (va + Z.of_nat n * lsize lvl) →
  (∀ q, is_Some (T' !! q) → T !! q = None → Z.of_nat (length q) ≤ 2 - lvl) →
  slot_free T' (map_range L lvl va pa f n) lvl (va + Z.of_nat n * lsize lvl).
Proof.
  intros Hva Hn Hlv (H1 & H2 & H3) Hnew. split_and!.
  - rewrite map_range_other; [done|]. intros k Hk. by apply lpath_step.
  - intros ->. rewrite map_range_other; [by apply H2|]. intros k _ E.
    apply (f_equal length) in E. by rewrite lpath_length in E.
  - intros ->. specialize (H3 eq_refl). destruct (T' !! _) eqn:E; [|done].
    apply mk_is_Some, Hnew in E; [cbn in E; lia|done].
Qed.

(** What mapping a range ends with: all of it, or a first part when memory ran
    out. *)
Definition mapped root T L s lvl va pa f (n : nat) (r : Z) s' : Prop :=
  ∃ T' k, pt_ok root T' (map_range L lvl va pa f k) s' ∧ vm_frame T s T' s' ∧
    (r = 0 ∧ k = n ∨ r = -1 ∧ (k < n)%nat ∧ ∀ p, ¬ pa_free s' p).

Lemma map_loop_spec root T L s lvl va pa perm (n : nat) :
  pa_ok s → pt_ok root T L s → lvl = 0 ∨ lvl = 1 → (0 < n)%nat →
  0 ≤ va → va + Z.of_nat n * lsize lvl ≤ MAXVA → pa_ok12 pa → pa + Z.of_nat n * lsize lvl ≤ 72057594037927936 →
  leaf_flags (Z.lor perm PTE_V) →
  (∀ k, (k < n)%nat → slot_free T L lvl (va + Z.of_nat k * lsize lvl)) →
  wp (map_loop root va (Z.of_nat n * lsize lvl) pa perm (lsize lvl) lvl)
     (mapped root T L s lvl va pa (Z.lor perm PTE_V) n) s.
Proof.
  intros Hok Hp Hlv Hn Hva Hend [Hpa Hpm] Hpend Hf Hsl. pose proof (lsize_pos lvl) as Hsz.
  assert (MAXVA = 274877906944) as HM by reflexivity. assert (lsize lvl mod 4096 = 0) as Hszm by (by destruct Hlv as [->| ->]).
  unfold map_loop. rewrite Z.div_mul, Nat2Z.id by lia. rewrite (u64_small (va + _ - _)) by nia.
  apply (wp_loop (λ x s', ∃ T' k, (k < n)%nat ∧
      x = (va + Z.of_nat k * lsize lvl, pa + Z.of_nat k * lsize lvl) ∧
      pt_ok root T' (map_range L lvl va pa (Z.lor perm PTE_V) k) s' ∧ vm_frame T s T' s' ∧
      (∀ q, is_Some (T' !! q) → T !! q = None → Z.of_nat (length q) ≤ 2 - lvl))
    (λ x _, Z.to_nat (Z.of_nat n - (fst x - va) / lsize lvl))).
  - exists T, 0%nat. split_and!; [lia|f_equal; lia|done|by eapply vm_frame_refl|intros q [x Hx]; congruence].
  - cbn. rewrite Z.sub_diag, Z.div_0_l by lia. lia.
  - intros x s1 (T1 & k & Hk & -> & Hp1 & Hf1 & Hnew). cbn [fst].
    assert (pa_ok12 (pa + Z.of_nat k * lsize lvl)) as Hpak.
    { split; [nia|]. rewrite <-Z.add_mod_idemp_r, <-Z.mul_mod_idemp_r, Hszm, Z.mul_0_r by lia. by rewrite Z.add_0_r. }
    rewrite <-Z.lor_assoc, PA2PTE_flags by (done || apply Hf).
    eapply (wp_map_entry (inr (-1))); [apply Hf1|exact Hp1|nia|done|apply slot_free_next with T; try done; [nia|by apply Hsl]|done|done|..].
    + intros T2 s2 Hp2 Hf2 _ Hnf. exists T2, k. split_and!; [done|by eapply vm_frame_trans|]. by right.
    + intros T2 s2 Hp2 Hf2 Hnew2. destruct (decide (Datatypes.S k = n)) as [Hkn|Hkn].
      * rewrite (proj2 (Z.eqb_eq _ _)) by nia. wp_step. exists T2, (Datatypes.S k).
        split_and!; [done|by eapply vm_frame_trans|]. by left.
      * rewrite (proj2 (Z.eqb_neq _ _)) by nia. rewrite !u64_small by nia. wp_step. split.
        -- exists T2, (Datatypes.S k). split_and!; [lia|f_equal; lia|done|by eapply vm_frame_trans|].
           intros q Hq HT. destruct (T1 !! q) eqn:E; [apply Hnew; eauto|]. destruct (Hnew2 q Hq E) as [->|[? ->]]; cbn; lia.
        -- cbn [fst]. replace (va + Z.of_nat k * lsize lvl + lsize lvl - va) with (Z.of_nat (Datatypes.S k) * lsize lvl) by lia.
           replace (va + Z.of_nat k * lsize lvl - va) with (Z.of_nat k * lsize lvl) by lia.
           rewrite !Z.div_mul by lia. lia.
Qed.

Lemma translate_insert L lvl b pa f a :
  lvl = 0 ∨ lvl = 1 → 0 ≤ a < MAXVA → 0 ≤ b < MAXVA → b mod lsize lvl = 0 →
  (lvl = 1 → b / lsize 1 = a / lsize 1 → L !! vpath a = None) →
  translate (<[lpath lvl b := (pa, f)]> L) a =
    if decide (b ≤ a < b + lsize lvl) then Some (pa + (a - b), f) else translate L a.
Proof.
  intros Hlv Ha Hb Hm H1. pose proof (lsize_pos lvl) as Hsz.
  assert (b ≤ a < b + lsize lvl ↔ b / lsize lvl = a / lsize lvl) as Hin.
  { pose proof (Z.div_mod a (lsize lvl) ltac:(lia)). pose proof (Z.mod_pos_bound a (lsize lvl) ltac:(lia)).
    pose proof (Z.div_mod b (lsize lvl) ltac:(lia)). split; [intros|nia]. apply (Z.div_unique _ _ _ (a - b)); lia. }
  assert (b / lsize lvl = a / lsize lvl → a mod lsize lvl = a - b) as Hoff.
  { intros E. pose proof (Z.div_mod a (lsize lvl) ltac:(lia)). pose proof (Z.div_mod b (lsize lvl) ltac:(lia)). lia. }
  unfold translate. case_decide as Hd.
  - apply Hin in Hd. pose proof (Hoff Hd) as Ho. apply lpath_same in Hd as Hq; [|done..]. destruct Hlv as [-> | ->].
    + cbn [lpath Z.eqb] in Hq |- *. change (lpath 0 b) with (vpath b). rewrite Hq, lookup_insert_eq. change 4096 with (lsize 0). by rewrite Ho.
    + rewrite lookup_insert_ne by (intros E; apply (f_equal length) in E; by rewrite lpath_length in E).
      rewrite H1 by done. change [PX 2 a; PX 1 a] with (lpath 1 a). rewrite Hq, lookup_insert_eq. change 2097152 with (lsize 1). by rewrite Ho.
  - assert (∀ lv, lv = 0 ∨ lv = 1 → lpath lvl b ≠ lpath lv a) as Hne.
    { intros lv Hv E. apply Hd, Hin. assert (lv = lvl) as ->; [|by apply lpath_inj].
      apply (f_equal length) in E. rewrite !lpath_length in E. by destruct Hlv as [->| ->], Hv as [->| ->]. }
    change [PX 2 a; PX 1 a] with (lpath 1 a). change (vpath a) with (lpath 0 a).
    by rewrite !lookup_insert_ne by (apply Hne; lia).
Qed.

Lemma translate_map_range L lvl va pa f n a :
  lvl = 0 ∨ lvl = 1 → 0 ≤ a < MAXVA → 0 ≤ va → va + Z.of_nat n * lsize lvl ≤ MAXVA → va mod lsize lvl = 0 →
  (lvl = 1 → va ≤ a < va + Z.of_nat n * lsize lvl → L !! vpath a = None) →
  translate (map_range L lvl va pa f n) a =
    if decide (va ≤ a < va + Z.of_nat n * lsize lvl) then Some (pa + (a - va), f) else translate L a.
Proof.
  intros Hlv Ha Hva Hend Hm H1. pose proof (lsize_pos lvl) as Hsz. induction n as [|n IH]; cbn [map_range].
  { rewrite decide_False by lia. done. }
  rewrite translate_insert; [|done|done|nia|by rewrite Z.mod_add by lia|].
  - rewrite IH; [|nia|intros ? ?; apply H1; [done|nia]]. repeat case_decide; try nia; try done.
    f_equal. f_equal. nia.
  - intros -> E. rewrite map_range_other.
    + apply H1; [done|]. pose proof (Z.div_mod a (lsize 1)). pose proof (Z.mod_pos_bound a (lsize 1)).
      rewrite Z.div_add in E by lia. pose proof (Z.div_mod va (lsize 1)). nia.
    + intros k Hk E'. apply (f_equal length) in E'. by rewrite lpath_length in E'.
Qed.

Lemma slot_free_unmapped T L a : translate L a = None → slot_free T L 0 a.
Proof.
  unfold translate, slot_free. change (lpath 0 a) with (vpath a). destruct (L !! vpath a) as [[??]|]; [done|].
  destruct (L !! [PX 2 a; PX 1 a]) as [[??]|]; done.
Qed.

Lemma mappages_spec root T L s va pa perm (n : nat) :
  pa_ok s → pt_ok root T L s → (0 < n)%nat → 0 ≤ va → va mod 4096 = 0 →
  va + Z.of_nat n * 4096 ≤ MAXVA → pa_ok12 pa → pa + Z.of_nat n * 4096 ≤ 72057594037927936 →
  leaf_flags (Z.lor perm PTE_V) → (∀ a, va ≤ a < va + Z.of_nat n * 4096 → translate L a = None) →
  wp (mappages root va (Z.of_nat n * 4096) pa perm) (mapped root T L s 0 va pa (Z.lor perm PTE_V) n) s.
Proof.
  intros Hok Hp Hn Hva Hm Hend Hpa Hpend Hf Hun. unfold mappages, mappages_flags.
  rewrite (proj2 (Z.eqb_neq (Z.of_nat n * 4096) 0)) by lia. wp_step. change (hasbit 0 MAP_HUGE) with false. cbv iota.
  unfold PGSIZE. rewrite Hm, Z.mod_mul by lia. wp_simpl.
  apply (map_loop_spec root T L s 0); try done; [by left|]. intros k Hk. apply slot_free_unmapped, Hun.
  cbn [lsize Z.eqb]. unfold lsize. cbn [Z.eqb]. lia.
Qed.

Lemma mappages_huge_spec root T L s va pa perm (n : nat) :
  pa_ok s → pt_ok root T L s → (0 < n)%nat → 0 ≤ va → va mod HUGEPGSIZE = 0 → pa mod HUGEPGSIZE = 0 →
  va + Z.of_nat n * HUGEPGSIZE ≤ MAXVA → pa_ok12 pa → pa + Z.of_nat n * HUGEPGSIZE ≤ 72057594037927936 →
  leaf_flags (Z.lor perm PTE_V) → (∀ k, (k < n)%nat → slot_free T L 1 (va + Z.of_nat k * HUGEPGSIZE)) →
  wp (mappages_flags root va (Z.of_nat n * HUGEPGSIZE) pa perm MAP_HUGE)
     (mapped root T L s 1 va pa (Z.lor perm PTE_V) n) s.
Proof.
  intros Hok Hp Hn Hva Hm Hmp Hend Hpa Hpend Hf Hun. unfold mappages_flags.
  rewrite (proj2 (Z.eqb_neq (Z.of_nat n * HUGEPGSIZE) 0)) by (change HUGEPGSIZE with 2097152; lia). wp_step.
  change (hasbit MAP_HUGE MAP_HUGE) with true. cbv iota. rewrite Hm, Hmp, Z.mod_mul by done. wp_step.
  change HUGEPGSIZE with (lsize 1) in *. apply (map_loop_spec root T L s 1); try done. by right.
Qed.

(** The pool had no page but these. *)
Definition oom s : Prop := ∃ l : list Z, (length l ≤ 3)%nat ∧ ∀ p, pa_free s p → p ∈ l.

(** One page. *)
Lemma mappages_one root T L s va pa perm Q :
  pa_ok s → pt_ok root T L s → 0 ≤ va < MAXVA → va mod 4096 = 0 → pa_ok12 pa → leaf_flags (Z.lor perm PTE_V) →
  translate L va = None →
  (∀ T' s' l, pt_ok root T' L s' → vm_frame T s T' s' → (length l ≤ 2)%nat → (∀ p, pa_free s p → p ∈ l) → Q (-1) s') →
  (∀ T' s', pt_ok root T' (<[vpath va := (pa, Z.lor perm PTE_V)]> L) s' → vm_frame T s T' s' → Q 0 s') →
  wp (mappages root va PGSIZE pa perm) Q s.
Proof.
  intros Hok Hp Hva Hm Hpa Hf Hun Hfail Hdone. unfold mappages, mappages_flags.
  change (PGSIZE =? 0) with false. wp_step. change (hasbit 0 MAP_HUGE) with false. cbv iota.
  change (PGSIZE mod PGSIZE =? 0) with true. change (va mod PGSIZE) with (va mod 4096). rewrite Hm. wp_simpl. unfold map_loop.
  assert (MAXVA = 274877906944) as HM by reflexivity. rewrite Z.add_simpl_r, u64_small by lia.
  change (Z.to_nat (PGSIZE / PGSIZE) + 1)%nat with 2%nat. apply wp_loop_S.
  rewrite <-Z.lor_assoc, PA2PTE_flags by (done || apply Hf).
  eapply (wp_map_entry (inr (-1))); [done..|by left|by apply slot_free_unmapped|done|done| |].
  - intros T' s' Hp' Hf' Hnew Hnf.
    apply (Hfail T' s' [default 0 (T' !! [PX 2 va]); default 0 (T' !! [PX 2 va; PX 1 va])]); [done|done|cbn; lia|].
    intros p Hpf. destruct (decide (Exists (λ q, T' !! q = Some p) [[PX 2 va]; [PX 2 va; PX 1 va]])) as [Hex|Hex].
    + rewrite !Exists_cons, Exists_nil in Hex. destruct Hex as [->|[->|[]]]; cbn; set_solver.
    + destruct (Hnf p). apply (vf_free _ _ _ _ Hf'). split; [done|]. intros q Hq. destruct (T !! q) as [p'|] eqn:E.
      * pose proof (lookup_weaken _ _ _ _ E (vf_sub _ _ _ _ Hf')). apply (pt_page _ _ _ _ Hp q p); [congruence|done].
      * apply Hex. rewrite !Exists_cons. destruct (Hnew q (mk_is_Some _ _ Hq) E) as [->|[_ ->]]; eauto.
  - intros T' s' Hp' Hf' _. rewrite Z.eqb_refl. wp_step. by apply (Hdone T').
Qed.
End VmMap.
