(* ===== verification/VmUser.v ===== *)
(** * User memory

    An address space is a page table, its leaves and the leaves whose pages it
    owns.  [uview] is the memory a process sees: the bytes of its user pages,
    and zeros in the part of its size that is not allocated yet.  Faulting a
    page in does not change it, and [copyin] and [copyout] read and write it. *)

From S2P Require Import Prelude Mem Kstring Layout PageAlloc Vm VmInv VmMap.

Record aspace := { as_T : tables; as_L : leaves; as_D : gset (list Z) }.

(** The 4 KB pages of a leaf. *)
Definition leaf_pages (q : list Z) : Z := if decide (length q = 2%nat) then 512 else 1.
Definition leaf_page (q : list Z) (pa p : Z) : Prop := ∃ k, 0 ≤ k < leaf_pages q ∧ p = pa + k * 4096.

(** The owned leaf [q] has the page [p]. *)
Definition owns (A : aspace) (q : list Z) (p : Z) : Prop :=
  q ∈ as_D A ∧ ∃ pa f, as_L A !! q = Some (pa, f) ∧ leaf_page q pa p.

Definition data_byte (A : aspace) (a : Z) : Prop := ∃ q p, owns A q p ∧ p ≤ a < p + PGSIZE.

Lemma translate_leaf L va pa f :
  translate L va = Some (pa, f) →
  ∃ lvl base, (lvl = 0 ∨ lvl = 1) ∧ L !! lpath lvl va = Some (base, f) ∧ pa = base + va mod lsize lvl.
Proof.
  unfold translate. destruct (L !! vpath va) as [[base g]|] eqn:E0.
  - intros [= <- <-]. exists 0, base. split_and!; [by left|done|done].
  - destruct (L !! [PX 2 va; PX 1 va]) as [[base g]|] eqn:E1; [|done].
    intros [= <- <-]. exists 1, base. split_and!; [by right|done|done].
Qed.

(** All of a 4 KB page is translated alike. *)
Lemma translate_page L va va' :
  0 ≤ va < MAXVA → 0 ≤ va' < MAXVA → va / 4096 = va' / 4096 →
  translate L va' = (λ x : Z * Z, (fst x + (va' - va), snd x)) <$> translate L va.
Proof.
  intros Hva Hva' E. pose proof (lpath_same 0 va va' Hva Hva' E) as Hq. change (lpath 0) with vpath in Hq.
  assert (∀ b, va' mod (4096 * b) = va mod (4096 * b) + (va' - va) ∨ b ≤ 0) as Hoff.
  { intros b. destruct (decide (b ≤ 0)); [by right|left].
    rewrite !Z.rem_mul_r, E by lia. pose proof (Z.div_mod va 4096). pose proof (Z.div_mod va' 4096). lia. }
  unfold translate. rewrite <-Hq. unfold vpath in Hq. injection Hq as -> -> _.
  destruct (L !! vpath va) as [[pa f]|]; cbn; [|destruct (L !! _) as [[pa f]|]; cbn; [|done]].
  - destruct (Hoff 1) as [Ho|]; [|lia]. change (4096 * 1) with 4096 in Ho. f_equal. f_equal. lia.
  - destruct (Hoff 512) as [Ho|]; [|lia]. change (4096 * 512) with 2097152 in Ho. f_equal. f_equal. lia.
Qed.

Section VmUser.
Context {S : Type} {PO : PageAllocOps S} {PS : PageAllocSpec S}.
Implicit Types (A : aspace) (s : S).

Record as_ok (root : Z) A s : Prop := {
  as_pool : pa_ok s;
  as_pt : pt_ok root (as_T A) (as_L A) s;
  as_user : ∀ q pa f, as_L A !! q = Some (pa, f) → hasbit f PTE_U = true → q ∈ as_D A;
  as_page : ∀ q p, owns A q p → pa_managed p ∧ ¬ pa_free s p ∧ ∀ q', as_T A !! q' ≠ Some p;
  as_align : ∀ q pa f, q ∈ as_D A → as_L A !! q = Some (pa, f) → length q = 2%nat → pa mod HUGEPGSIZE = 0;
  as_disj : ∀ q q' p, owns A q p → owns A q' p → q = q'
}.

(** A byte that belongs neither to the address space nor to the free pages. *)
Definition kbyte A s (a : Z) : Prop := ¬ page_byte (pa_free s) a ∧ ¬ table_byte (as_T A) a ∧ ¬ data_byte A a.

(** What the process sees at [va]; [psz] is its size. *)
Definition uview (psz : Z) A s (va : Z) : option Z :=
  match translate (as_L A) va with
  | Some (pa, f) => if hasbit f PTE_U then Some (ldb (pa_mem s) pa) else None
  | None => if PGROUNDDOWN va <? psz then Some 0 else None
  end.

(** ** Bytes of user pages *)

Lemma translate_owns root A s va pa f :
  as_ok root A s → 0 ≤ va < MAXVA → translate (as_L A) va = Some (pa, f) → hasbit f PTE_U = true →
  ∃ lvl base p, (lvl = 0 ∨ lvl = 1) ∧ as_L A !! lpath lvl va = Some (base, f) ∧ pa = base + va mod lsize lvl ∧
    owns A (lpath lvl va) p ∧ p ≤ pa < p + 4096.
Proof.
  intros Hok Hva Ht Hu. apply translate_leaf in Ht as (lvl & base & Hlv & HL & ->).
  pose proof (Z.mod_pos_bound va (lsize lvl) (lsize_pos lvl)) as Hmod. set (o := va mod lsize lvl) in *.
  exists lvl, base, (base + o / 4096 * 4096). do 3 (split; [done|]).
  pose proof (Z.div_mod o 4096). pose proof (Z.mod_pos_bound o 4096). split; [|lia].
  split; [by eapply as_user|]. exists base, f. split; [done|]. exists (o / 4096). split; [|done].
  assert (lsize lvl = leaf_pages (lpath lvl va) * 4096) as Hsz by (by destruct Hlv as [-> | ->]).
  split; [apply Z.div_pos; lia|apply Z.div_lt_upper_bound; lia].
Qed.

Lemma owned_byte root A s q p a :
  as_ok root A s → owns A q p → p ≤ a < p + 4096 → ¬ page_byte (pa_free s) a ∧ ¬ table_byte (as_T A) a.
Proof.
  intros Hok Ho Ha. destruct (as_page _ _ _ Hok _ _ Ho) as (Hm & Hnf & Hnt). split.
  - eapply used_byte; [apply Hok|done..].
  - intros (q' & t & Ht & Hb). destruct (decide (t = p)) as [->|Hne]; [by eapply Hnt|].
    pose proof (page_range p Hm). pose proof (page_range t (proj1 (pt_page _ _ _ _ (as_pt _ _ _ Hok) _ _ Ht))).
    unfold PGSIZE in Hb. by destruct (page_apart t p a a); lia.
Qed.

Lemma user_byte root A s va pa f :
  as_ok root A s → 0 ≤ va < MAXVA → translate (as_L A) va = Some (pa, f) → hasbit f PTE_U = true →
  data_byte A pa ∧ ¬ page_byte (pa_free s) pa ∧ ¬ table_byte (as_T A) pa.
Proof.
  intros Hok Hva Ht Hu. destruct (translate_owns _ _ _ _ _ _ Hok Hva Ht Hu) as (lvl & base & p & _ & _ & _ & Ho & Hp).
  split; [by exists (lpath lvl va), p|]. by eapply owned_byte.
Qed.

(** Two user addresses never share a byte. *)
Lemma translate_inj root A s va va' pa f f' :
  as_ok root A s → 0 ≤ va < MAXVA → 0 ≤ va' < MAXVA →
  translate (as_L A) va = Some (pa, f) → translate (as_L A) va' = Some (pa, f') →
  hasbit f PTE_U = true → hasbit f' PTE_U = true → va = va'.
Proof.
  intros Hok Hva Hva' Ht Ht' Hu Hu'.
  destruct (translate_owns _ _ _ _ _ _ Hok Hva Ht Hu) as (lvl & base & p & Hlv & HL & Hpa & Ho & Hp).
  destruct (translate_owns _ _ _ _ _ _ Hok Hva' Ht' Hu') as (lvl' & base' & p' & Hlv' & HL' & Hpa' & Ho' & Hp').
  pose proof (page_range p (proj1 (as_page _ _ _ Hok _ _ Ho))).
  pose proof (page_range p' (proj1 (as_page _ _ _ Hok _ _ Ho'))).
  destruct (decide (p = p')) as [<-|Hne]; [|by destruct (page_apart p p' pa pa); lia].
  assert (lpath lvl va = lpath lvl' va') as Hq by (by eapply as_disj).
  assert (lvl' = lvl) as ->.
  { apply (f_equal length) in Hq. rewrite !lpath_length in Hq. by destruct Hlv as [->| ->], Hlv' as [->| ->]. }
  rewrite Hq, HL' in HL. injection HL as -> _. apply lpath_inj in Hq; [|done..].
  pose proof (lsize_pos lvl). pose proof (Z.div_mod va (lsize lvl)). pose proof (Z.div_mod va' (lsize lvl)). lia.
Qed.

(** ** Steps that leave the user's memory alone *)

(** The pool shrinks, tables are added from it, and only free pages and tables
    are written. *)
Record evolves (T : tables) s (T' : tables) s' : Prop := {
  ev_ok : pa_ok s';
  ev_free : ∀ p, pa_free s' p → pa_free s p;
  ev_sub : T ⊆ T';
  ev_new : ∀ q p, T' !! q = Some p → T !! q = None → pa_free s p;
  ev_mem : ∀ a, ¬ page_byte (pa_free s) a → ¬ table_byte T a → ldb (pa_mem s') a = ldb (pa_mem s) a
}.

Lemma frame_evolves T s T' s' : vm_frame T s T' s' → evolves T s T' s'.
Proof. intros [H1 H2 H3 H4 H5]. split; try done. intros p Hp. by apply H4. Qed.

Lemma evolves_table_byte T s T' s' a : evolves T s T' s' → ¬ page_byte (pa_free s) a → table_byte T' a → table_byte T a.
Proof.
  intros Hev Hf (q & p & Hq & Ha). destruct (T !! q) as [p'|] eqn:E.
  - exists q, p. split; [|done]. pose proof (lookup_weaken _ _ _ _ E (ev_sub _ _ _ _ Hev)). congruence.
  - destruct Hf. exists p. split; [|done]. by eapply ev_new.
Qed.

Lemma evolves_trans T1 s1 T2 s2 T3 s3 : evolves T1 s1 T2 s2 → evolves T2 s2 T3 s3 → evolves T1 s1 T3 s3.
Proof.
  intros H12 [Hok Hf Hs Hn Hm]. pose proof H12 as [Hok2 Hf2 Hs2 Hn2 Hm2]. split; [done|naive_solver|by etrans|..].
  - intros q p Hq H1. destruct (T2 !! q) as [p'|] eqn:E2; [|apply Hf2; by eapply Hn].
    apply (Hn2 q p); [|done]. apply (lookup_weaken _ _ _ _ E2) in Hs. congruence.
  - intros a Ha Ht. assert (¬ page_byte (pa_free s2) a) as Ha2.
    { intros (p & Hp & Hb). apply Ha. exists p. split; [by apply Hf2|done]. }
    rewrite Hm; [by apply Hm2|done|]. intros Ht2. apply Ht. by eapply evolves_table_byte.
Qed.

Definition with_T T' A : aspace := {| as_T := T'; as_L := as_L A; as_D := as_D A |}.

Lemma as_evolves root A s T' s' :
  as_ok root A s → evolves (as_T A) s T' s' → pt_ok root T' (as_L A) s' → as_ok root (with_T T' A) s'.
Proof.
  intros Hok Hev Hp. split; [apply Hev|done|apply Hok| |apply Hok|apply Hok].
  intros q p Ho. destruct (as_page _ _ _ Hok q p Ho) as (Hm & Hf & Ht). split_and!; [done|intros Hf'; by apply Hf, Hev|].
  intros q' Hq'. cbn in Hq'. destruct (as_T A !! q') as [t|] eqn:E.
  - pose proof (lookup_weaken _ _ _ _ E (ev_sub _ _ _ _ Hev)). apply (Ht q'). congruence.
  - apply Hf. by eapply ev_new.
Qed.

Lemma uview_mem psz root A s s' A' va :
  as_ok root A s → 0 ≤ va < MAXVA → as_L A' = as_L A →
  (∀ a, data_byte A a → ldb (pa_mem s') a = ldb (pa_mem s) a) → uview psz A' s' va = uview psz A s va.
Proof.
  intros Hok Hva HL Hm. unfold uview. rewrite HL. destruct (translate (as_L A) va) as [[pa f]|] eqn:Et; [|done].
  destruct (hasbit f PTE_U) eqn:Hu; [|done]. f_equal. apply Hm. by eapply user_byte.
Qed.

Lemma data_byte_used root A s a : as_ok root A s → data_byte A a → ¬ page_byte (pa_free s) a ∧ ¬ table_byte (as_T A) a.
Proof. intros Hok (q & p & Ho & Ha). by eapply owned_byte. Qed.

Lemma uview_evolves psz root A s T' s' va :
  as_ok root A s → 0 ≤ va < MAXVA → evolves (as_T A) s T' s' → uview psz (with_T T' A) s' va = uview psz A s va.
Proof.
  intros Hok Hva Hev. eapply uview_mem; [done..|]. intros a Ha. apply Hev; by eapply data_byte_used.
Qed.

Lemma kbyte_evolves A s T' s' a :
  evolves (as_T A) s T' s' → kbyte A s a → kbyte (with_T T' A) s' a ∧ ldb (pa_mem s') a = ldb (pa_mem s) a.
Proof.
  intros Hev (Hf & Ht & Hd). split; [|by apply Hev]. split_and!; [|by intros H; apply Ht; eapply evolves_table_byte|done].
  intros (p & Hp & Ha). apply Hf. exists p. split; [by apply Hev|done].
Qed.

(** Pages leave the pool and are written. *)
Record pool_step s s' : Prop := {
  ps_ok : pa_ok s';
  ps_free : ∀ p, pa_free s' p → pa_free s p;
  ps_mem : same_outside (page_byte (pa_free s)) (pa_mem s) (pa_mem s')
}.

Lemma pool_evolves root T L s s' : pt_ok root T L s → pool_step s s' → evolves T s T s'.
Proof. intros Hp [H1 H2 H3]. split; try done; [congruence|]. intros a Ha _. by apply H3. Qed.

Lemma pt_pool root T L s s' : pa_ok s → pt_ok root T L s → pool_step s s' → pt_ok root T L s'.
Proof.
  intros Hok Hp [H1 H2 H3]. split; [apply Hp|..].
  - intros q pa Hq. destruct (pt_page _ _ _ _ Hp _ _ Hq). naive_solver.
  - intros q pa i Hq Hi. rewrite <-(pt_mem _ _ _ _ Hp q pa i) by done. apply ld64_same. intros b Hb. apply H3.
    destruct (pt_page _ _ _ _ Hp _ _ Hq). eapply used_byte; [done..|]. unfold idx in Hi. lia.
Qed.

(** ** A page added *)

Definition with_leaf T' q (pa f : Z) A : aspace :=
  {| as_T := T'; as_L := <[q := (pa, f)]> (as_L A); as_D := {[q]} ∪ as_D A |}.

Lemma owns_with_leaf T' q pa f A q' p :
  owns (with_leaf T' q pa f A) q' p → (q' = q ∧ leaf_page q pa p) ∨ (q' ≠ q ∧ owns A q' p).
Proof.
  intros (Hd & x & g & HL & Hp). cbn in Hd, HL. destruct (decide (q' = q)) as [->|Hne].
  - rewrite lookup_insert_eq in HL. injection HL as -> ->. by left.
  - rewrite lookup_insert_ne in HL by done. right. split; [done|]. split; [set_solver|eauto].
Qed.

Lemma as_add_leaf root A s T' s' q pa f :
  as_ok root A s → evolves (as_T A) s T' s' → pt_ok root T' (<[q := (pa, f)]> (as_L A)) s' → 
  (length q = 2%nat → pa mod HUGEPGSIZE = 0) →
  (∀ p, leaf_page q pa p → pa_managed p ∧ ¬ pa_free s p ∧ (∀ q', as_T A !! q' ≠ Some p) ∧ ∀ q', ¬ owns A q' p) →
  as_ok root (with_leaf T' q pa f A) s'.
Proof.
  intros Hok Hev Hp Hal Hpg. split; [apply Hev|done|..].
  - intros q' x g HL Hu. cbn in HL |- *. apply lookup_insert_Some in HL as [[<- _]|[_ HL]]; [set_solver|].
    apply elem_of_union_r. by eapply as_user.
  - assert (∀ p, pa_managed p ∧ ¬ pa_free s p ∧ (∀ q', as_T A !! q' ≠ Some p) →
      pa_managed p ∧ ¬ pa_free s' p ∧ ∀ q', T' !! q' ≠ Some p) as Hkeep.
    { intros p (Hm & Hf & Ht). split_and!; [done|intros Hf'; by apply Hf, Hev|]. intros q' Hq'.
      destruct (as_T A !! q') as [t|] eqn:E; [|apply Hf; by eapply ev_new].
      pose proof (lookup_weaken _ _ _ _ E (ev_sub _ _ _ _ Hev)). apply (Ht q'). congruence. }
    intros q' p [[_ Hl]|[_ Ho]]%owns_with_leaf; apply Hkeep; [destruct (Hpg p Hl) as (?&?&?&?); done|by eapply as_page].
  - intros q' x g Hd HL Hlen. cbn in Hd, HL. apply lookup_insert_Some in HL as [[-> [= <- <-]]|[Hne HL]]; [by apply Hal|].
    eapply as_align; [exact Hok| |exact HL|done]. set_solver.
  - intros q1 q2 p [[-> H1]|[Hn1 H1]]%owns_with_leaf [[-> H2]|[Hn2 H2]]%owns_with_leaf; [done| | |by eapply as_disj].
    + destruct (Hpg p H1) as (_ & _ & _ & Hno). by destruct (Hno q2).
    + destruct (Hpg p H2) as (_ & _ & _ & Hno). by destruct (Hno q1).
Qed.

Lemma as_pool_step root A s s' : as_ok root A s → pool_step s s' → as_ok root A s'.
Proof.
  intros Hok Hps. pose proof (as_evolves root A s (as_T A) s' Hok) as H. destruct A. apply H.
  - eapply pool_evolves; [apply Hok|done].
  - eapply pt_pool; [apply Hok|apply Hok|done].
Qed.

(** ** Faults *)

Lemma ismapped_spec root T L s va Q :
  pa_ok s → pt_ok root T L s → 0 ≤ va < MAXVA → Q (bool_decide (is_Some (translate L va))) s →
  wp (ismapped root va) Q s.
Proof.
  intros Hok Hp Hva HQ. unfold ismapped, walk, walk_with_level. rewrite !wp_bind. eapply walk_res_noalloc; [done..|lia|].
  pose proof (walk_res_entry root T L s va Hp Hva) as Hw. destruct (translate L va) as [[pa f]|].
  - destruct Hw as (q & i & t & level & base & -> & Hq & Hi & Hnz & _ & _ & _ & _ & (Hf & Hv & _) & _ & He). wp_step.
    rewrite (proj2 (Z.eqb_neq _ _) Hnz). wp_step. rewrite wp_ldpte, (pt_mem _ _ _ _ Hp q t i), He by done.
    wp_step. rewrite mkpte_hasbit, Hv by (done || (unfold PTE_V; lia)). done.
  - destruct Hw as [->|(q & i & t & -> & Hq & Hi & Hnz & _ & He)]; [done|]. wp_step.
    rewrite (proj2 (Z.eqb_neq _ _) Hnz). wp_step. rewrite wp_ldpte, (pt_mem _ _ _ _ Hp q t i), He by done.
    wp_step. by rewrite hasbit_0.
Qed.

(** What faulting pages in does: nothing the process or the rest of the kernel
    can see. *)
Record fault_step psz root A s A' s' : Prop := {
  fs_ok : as_ok root A' s';
  fs_view : ∀ va, 0 ≤ va < MAXVA → uview psz A' s' va = uview psz A s va;
  fs_leaf : ∀ va x, 0 ≤ va < MAXVA → translate (as_L A) va = Some x → translate (as_L A') va = Some x;
  fs_kernel : ∀ a, kbyte A s a → kbyte A' s' a ∧ ldb (pa_mem s') a = ldb (pa_mem s) a;
  fs_free : ∀ p, pa_free s' p → pa_free s p
}.

Lemma fault_refl psz root A s : as_ok root A s → fault_step psz root A s A s.
Proof. by split. Qed.

Lemma fault_trans psz root A1 s1 A2 s2 A3 s3 :
  fault_step psz root A1 s1 A2 s2 → fault_step psz root A2 s2 A3 s3 → fault_step psz root A1 s1 A3 s3.
Proof.
  intros [H1 H2 H3 H4 H5] [G1 G2 G3 G4 G5]. split; [done| |naive_solver| |naive_solver].
  - intros va Hva. by rewrite G2, H2.
  - intros a Ha. destruct (H4 a Ha) as [Ha2 <-]. by apply G4.
Qed.

(** Tables were added, no page. *)
Lemma fault_tables psz root A s T' s' :
  as_ok root A s → evolves (as_T A) s T' s' → pt_ok root T' (as_L A) s' → fault_step psz root A s (with_T T' A) s'.
Proof.
  intros Hok Hev Hp. split; [by eapply as_evolves| |done| |apply Hev].
  - intros va Hva. by eapply uview_evolves.
  - intros a Ha. by eapply kbyte_evolves.
Qed.

Lemma fault_pool psz root A s s' : as_ok root A s → pool_step s s' → fault_step psz root A s A s'.
Proof.
  intros Hok Hps. pose proof (fault_tables psz root A s (as_T A) s' Hok) as H. destruct A. apply H.
  - eapply pool_evolves; [apply Hok|done].
  - eapply pt_pool; [apply Hok|apply Hok|done].
Qed.

Definition FAULT_PERM : Z := Z.lor (Z.lor (Z.lor PTE_W PTE_U) PTE_R) PTE_V.

(** A page nobody uses. *)
Definition spare A s p : Prop :=
  pa_managed p ∧ ¬ pa_free s p ∧ (∀ q, as_T A !! q ≠ Some p) ∧ ∀ q, ¬ owns A q p.

Lemma spare_byte root A s p a : as_ok root A s → spare A s p → p ≤ a < p + 4096 → kbyte A s a.
Proof.
  intros Hok (Hm & Hf & Ht & Ho) Ha. pose proof (page_range p Hm) as Hr. split_and!.
  - eapply used_byte; [apply Hok|done..].
  - intros (q & t & Hq & Hb). pose proof (page_range t (proj1 (pt_page _ _ _ _ (as_pt _ _ _ Hok) _ _ Hq))).
    assert (t ≠ p) by (intros ->; by eapply Ht). unfold PGSIZE in Hb. by destruct (page_apart t p a a); lia.
  - intros (q & t & Hq & Hb). pose proof (page_range t (proj1 (as_page _ _ _ Hok _ _ Hq))).
    assert (t ≠ p) by (intros ->; by eapply Ho). unfold PGSIZE in Hb. by destruct (page_apart t p a a); lia.
Qed.

Lemma leaf_page_small va pa p : leaf_page (vpath va) pa p ↔ p = pa.
Proof.
  split; [|intros ->; exists 0; split; [done|lia]]. intros (k & Hk & ->). change (leaf_pages (vpath va)) with 1 in Hk. lia.
Qed.

(** A zeroed spare page was mapped where the process had none. *)
Lemma fault_page psz root A s0 s T' s' va p :
  as_ok root A s0 → pool_step s0 s → pa_free s0 p → ¬ pa_free s p → 0 ≤ va < MAXVA → va mod 4096 = 0 → va < psz → translate (as_L A) va = None →
  (∀ a, p ≤ a < p + 4096 → ldb (pa_mem s) a = 0) →
  evolves (as_T A) s T' s' → pt_ok root T' (<[vpath va := (p, FAULT_PERM)]> (as_L A)) s' →
  fault_step psz root A s0 (with_leaf T' (vpath va) p FAULT_PERM A) s'.
Proof.
  intros Hok0 Hps Hf0 Hf Hva Hm Hsz Hun Hz Hev Hp. pose proof (as_pool_step root A s0 s Hok0 Hps) as Hok.
  assert (spare A s p) as Hsp.
  { split_and!; [eapply pa_free_managed; [apply Hok0|done]|done|..]; intros q Hq.
    - by apply (pt_page _ _ _ _ (as_pt _ _ _ Hok0) q p).
    - by apply (as_page _ _ _ Hok0 q p). }
  assert (∀ va', 0 ≤ va' < MAXVA → ¬ (va ≤ va' < va + 4096) →
      translate (<[vpath va := (p, FAULT_PERM)]> (as_L A)) va' = translate (as_L A) va') as Hother.
  { intros va' Hva' Hn. change (vpath va) with (lpath 0 va). rewrite translate_insert by (done || lia).
    change (lsize 0) with 4096. by rewrite decide_False. }
  assert (∀ va', 0 ≤ va' < MAXVA → va ≤ va' < va + 4096 → translate (as_L A) va' = None) as Hnone.
  { intros va' Hva' Hin. rewrite (translate_page _ va va'), Hun; [done..|].
    apply (Z.div_unique _ _ _ (va' - va)); [lia|]. pose proof (Z.div_mod va 4096). lia. }
  split; [apply as_add_leaf with s; try done|..].
  - intros p' ->%leaf_page_small. done.
  - intros va' Hva'. rewrite <-(fs_view _ _ _ _ _ _ (fault_pool psz root A s0 s Hok0 Hps) va' Hva').
    destruct (decide (va ≤ va' < va + 4096)) as [Hin|Hin].
    + unfold uview. rewrite (Hnone va') by done. cbn [as_L with_leaf]. change (vpath va) with (lpath 0 va).
      rewrite translate_insert by (done || lia). rewrite decide_True by done. change (hasbit FAULT_PERM PTE_U) with true.
      destruct (spare_byte _ _ _ _ (p + (va' - va)) Hok Hsp) as (H1 & H2 & _); [lia|].
      rewrite (ev_mem _ _ _ _ Hev), Hz by (done || lia). cbv iota.
      replace (PGROUNDDOWN va') with va; [by rewrite (proj2 (Z.ltb_lt _ _) Hsz)|].
      assert (MAXVA = 274877906944) as HM by reflexivity. rewrite PGROUNDDOWN_eq by lia.
      pose proof (Z.div_mod va 4096). pose proof (Z.div_unique va' 4096 (va / 4096) (va' - va)). lia.
    + unfold uview. cbn [as_L with_leaf]. rewrite Hother by done.
      destruct (translate (as_L A) va') as [[x g]|] eqn:E; [|done]. destruct (hasbit g PTE_U) eqn:Hu; [|done].
      f_equal. apply Hev; by eapply user_byte.
  - intros va' x Hva' Hx. cbn. rewrite Hother; [done..|]. intros Hin. rewrite Hnone in Hx by done. done.
  - intros a Ha0. destruct (fs_kernel _ _ _ _ _ _ (fault_pool psz root A s0 s Hok0 Hps) a Ha0) as [Ha <-].
    destruct (kbyte_evolves A s T' s' a Hev Ha) as [(G1 & G2 & G3) Hl]. split; [|done]. split_and!; [done..|].
    intros (q & p' & [[_ Hlp%leaf_page_small]|[_ Ho]]%owns_with_leaf & Hb); [|apply G3; by exists q, p'].
    subst p'. destruct Ha0 as [Ha0 _]. apply Ha0. by exists p.
  - intros p' Hp'. by apply Hps, Hev.
Qed.

Lemma page_alloc s Q :
  pa_ok s → ((∀ p, ¬ pa_free s p) → Q 0 s) →
  (∀ p s' , pa_free s p → pool_step s s' → (∀ p', pa_free s' p' ↔ pa_free s p' ∧ p' ≠ p) → p ≠ 0 → Q p s') →
  wp pa_kalloc Q s.
Proof.
  intros Hok H0 H1. wp_apply pa_kalloc_spec; [done|]. intros r s' [Hok' [(-> & Hn & ->)|(Hf & Hfr & Hm)]]; [by apply H0|].
  apply H1; [done| |done|].
  - split; [done| |done]. naive_solver.
  - pose proof (page_range r (pa_free_managed _ _ Hok Hf)). lia.
Qed.

(** Zeroing the page just allocated. *)
Lemma zero_page s s' p :
  pa_ok s → pa_free s p → pool_step s s' → (∀ p', pa_free s' p' ↔ pa_free s p' ∧ p' ≠ p) →
  let s2 := pa_set_mem (memset (pa_mem s') p 0 PGSIZE) s' in
  pool_step s s2 ∧ ¬ pa_free s2 p ∧ (∀ a, p ≤ a < p + 4096 → ldb (pa_mem s2) a = 0).
Proof.
  intros Hok Hf [H1 H2 H3] Hfr. pose proof (page_range p (pa_free_managed _ _ Hok Hf)) as Hr. cbn zeta. split_and!.
  - split.
    + apply pa_ok_set; [done|]. intros a (p' & Hp' & Ha). apply memset_out. apply Hfr in Hp' as [Hp' Hne].
      pose proof (page_range p' (pa_free_managed _ _ Hok Hp')). unfold PGSIZE in *. intros Hb. by destruct (page_apart p p' a a); lia.
    + intros p'. rewrite pa_free_set. apply H2.
    + rewrite pa_mem_set. eapply same_outside_trans; [exact H3|]. apply memset_same_outside. intros b Hb. by exists p.
  - rewrite pa_free_set. naive_solver.
  - intros a Ha. rewrite pa_mem_set. by apply memset_page.
Qed.

(** The page given back after the mapping failed. *)
Lemma page_back root T L s0 s T' s' p s2 :
  pa_ok s0 → pt_ok root T L s0 → pool_step s0 s → pa_free s0 p → ¬ pa_free s p →
  pt_ok root T' L s' → vm_frame T s T' s' → pa_ok s2 →
  (∀ q, pa_free s2 q ↔ pa_free s' q ∨ q = p) → same_outside (page_byte (pa_free s2)) (pa_mem s') (pa_mem s2) →
  evolves T s0 T' s2 ∧ pt_ok root T' L s2.
Proof.
  intros Hok Hp0 Hps Hf0 Hf Hp Hfr Hok2 Hfree Hm. pose proof (frame_evolves _ _ _ _ Hfr) as Hev.
  assert (evolves T s0 T' s') as Hev' by (eapply evolves_trans; [by eapply pool_evolves|done]).
  assert (∀ q, T' !! q ≠ Some p) as Hnt.
  { intros q Hq. destruct (T !! q) as [t|] eqn:E.
    - pose proof (lookup_weaken _ _ _ _ E (ev_sub _ _ _ _ Hev)). apply (pt_page _ _ _ _ Hp0 q p); [congruence|done].
    - apply Hf. by eapply ev_new. }
  split; split.
  - done.
  - intros q [Hq| ->]%Hfree; [|done]. by apply Hev'.
  - apply Hev'.
  - apply Hev'.
  - intros a Ha Ht. rewrite Hm; [by apply Hev'|]. intros (q & [Hq| ->]%Hfree & Hb); apply Ha; [|by exists p].
    exists q. split; [by apply Hev'|done].
  - apply Hp.
  - intros q t Hq. destruct (pt_page _ _ _ _ Hp _ _ Hq). split; [done|]. intros [?| ->]%Hfree; [done|]. by apply (Hnt q).
  - intros q t i Hq Hi. rewrite <-(pt_mem _ _ _ _ Hp q t i) by done. apply ld64_same. intros b Hb. apply Hm.
    destruct (pt_page _ _ _ _ Hp _ _ Hq) as [Hmt Hft]. eapply (used_byte s2 t); [done..| |unfold idx in Hi; lia].
    intros [?| ->]%Hfree; [done|]. by apply (Hnt q).
Qed.

Lemma vmfault_spec psz root A s va :
  as_ok root A s → 0 ≤ va < 18446744073709551616 → va mod 4096 = 0 → psz ≤ MAXVA →
  wp (vmfault psz root root va) (λ r s', ∃ A', fault_step psz root A s A' s' ∧
    ((r = 0 ∧ (psz ≤ va ∨ is_Some (translate (as_L A) va) ∨ oom s)) ∨
     (r ≠ 0 ∧ va < psz ∧ translate (as_L A) va = None ∧ translate (as_L A') va = Some (r, FAULT_PERM)))) s.
Proof.
  intros Hok Hva Hm Hpsz. unfold vmfault. destruct (Z.leb_spec psz va) as [Hge|Hlt].
  { wp_step. exists A. split; [by apply fault_refl|]. left. split; [done|by left]. }
  replace (PGROUNDDOWN va) with va.
  2: { rewrite PGROUNDDOWN_eq by done. pose proof (Z.div_mod va 4096). lia. }
  wp_step. eapply ismapped_spec; [apply Hok|apply Hok|lia|]. case_bool_decide as Hmap.
  { wp_step. exists A. split; [by apply fault_refl|]. left. split; [done|by right; left]. }
  assert (translate (as_L A) va = None) as Hun by (destruct (translate _ _); [destruct Hmap; eauto|done]).
  wp_step. apply page_alloc; [apply Hok|..].
  { intros Hn. rewrite Z.eqb_refl, wp_ret. exists A. split; [by apply fault_refl|]. left. split; [done|]. right; right.
    exists []. split; [cbn; lia|]. intros p Hp. by destruct (Hn p). }
  intros p s1 Hf Hps Hfr Hnz. rewrite (proj2 (Z.eqb_neq _ _) Hnz). wp_step. rewrite wp_kmemset. wp_step.
  destruct (zero_page s s1 p (as_pool _ _ _ Hok) Hf Hps Hfr) as (Hps2 & Hf2 & Hz). set (s2 := pa_set_mem _ s1) in *.
  pose proof (as_pool_step root A s s2 Hok Hps2) as Hok2. pose proof (pa_free_managed _ _ (as_pool _ _ _ Hok) Hf) as Hpm.
  apply (mappages_one root (as_T A) (as_L A)); try apply Hok2; try done; [lia|by apply page_ok12|..].
  - intros T' s3 l Hp3 Hf3 Hl Hin. change (negb (-1 =? 0)) with true. cbv iota. wp_step.
    assert (¬ pa_free s3 p) as Hnf3 by (intros H; by apply Hf2, (vf_free _ _ _ _ Hf3)).
    wp_apply pa_kfree_spec; [apply Hf3|done|done|]. intros _ s4 (Hok4 & Hfree4 & Hm4). wp_step.
    destruct (page_back root (as_T A) (as_L A) s s2 T' s3 p s4) as [Hev4 Hp4]; try done; [apply Hok|apply Hok|].
    exists (with_T T' A). split; [by apply fault_tables|]. left. split; [done|]. right; right. exists (p :: l).
    split; [cbn; lia|]. intros p' Hp'. destruct (decide (p' = p)) as [->|Hne]; [left|right].
    apply Hin. unfold s2. rewrite pa_free_set. by apply Hfr.
  - intros T' s3 Hp3 Hf3. change (negb (0 =? 0)) with false. cbv iota. wp_step. exists (with_leaf T' (vpath va) p FAULT_PERM A). split.
    + eapply (fault_page psz root A s s2); try done; [lia|]. by apply frame_evolves.
    + right. split_and!; [done..|]. cbn. change (vpath va) with (lpath 0 va). rewrite translate_insert by (done || lia).
      rewrite decide_True by (change (lsize 0) with 4096; lia). f_equal. f_equal. lia.
Qed.
End VmUser.
