(* ===== verification/VmCopy.v ===== *)
(** * Copies between the kernel and user memory: [copyin], [copyout]

    Both work page by page and fault pages in as they go; the theorems state
    them on the memory the process sees. *)

From S2P Require Import Prelude Mem Kstring Layout PageAlloc Vm VmInv VmMap VmUser.

Section VmCopy.
Context {S : Type} {PO : PageAllocOps S} {PS : PageAllocSpec S}.
Implicit Types (A : aspace) (s : S).
Context (psz root : Z).
Hypothesis Hpsz : psz ≤ MAXVA.

Lemma MAXVA_eq : MAXVA = 274877906944.
Proof. reflexivity. Qed.

(** ** Pages *)

Definition page_of (va : Z) : Z := 4096 * (va / 4096).

Lemma page_of_bounds va : page_of va ≤ va < page_of va + 4096 ∧ page_of va mod 4096 = 0 ∧ page_of va / 4096 = va / 4096.
Proof.
  unfold page_of. pose proof (Z.div_mod va 4096). pose proof (Z.mod_pos_bound va 4096). split_and!; [lia|lia| |].
  - rewrite Z.mul_comm. apply Z.mod_mul. lia.
  - rewrite Z.mul_comm. apply Z.div_mul. lia.
Qed.

Lemma page_of_same va va' : page_of va ≤ va' < page_of va + 4096 → va / 4096 = va' / 4096.
Proof.
  intros H. destruct (page_of_bounds va) as (_ & _ & E). unfold page_of in H.
  pose proof (Z.div_unique va' 4096 (va / 4096) (va' - 4096 * (va / 4096))). lia.
Qed.

Lemma uview_page_none A s va va' :
  0 ≤ va < MAXVA → 0 ≤ va' < MAXVA → va / 4096 = va' / 4096 → uview psz A s va = None → uview psz A s va' = None.
Proof.
  intros Hva Hva' E. unfold uview. pose proof MAXVA_eq as HM. rewrite (translate_page _ va va'), !PGROUNDDOWN_eq, E by (done || lia).
  destruct (translate (as_L A) va) as [[pa f]|]; cbn; [|done]. by destruct (hasbit f PTE_U).
Qed.

Lemma fault_in_spec A s va :
  as_ok root A s → 0 ≤ va < 18446744073709551616 → va mod 4096 = 0 →
  wp (fault_in psz root root va) (λ r s', ∃ A', fault_step psz root A s A' s' ∧
    ((r = 0 ∧ (MAXVA ≤ va ∨ uview psz A s va = None ∨ oom s)) ∨
     (r ≠ 0 ∧ va < MAXVA ∧ ∃ f, translate (as_L A') va = Some (r, f) ∧ hasbit f PTE_U = true))) s.
Proof.
  intros Hok Hva Hm. unfold fault_in. wp_step.
  assert (wp (vmfault psz root root va) (λ r s', ∃ A', fault_step psz root A s A' s' ∧
    ((r = 0 ∧ (psz ≤ va ∨ is_Some (translate (as_L A) va) ∨ oom s)) ∨
     (r ≠ 0 ∧ va < psz ∧ translate (as_L A) va = None ∧ translate (as_L A') va = Some (r, FAULT_PERM)))) s) as Hvf
    by (by apply vmfault_spec).
  destruct (decide (MAXVA ≤ va)) as [Hbig|Hsm].
  { unfold walkaddr. rewrite (proj2 (Z.leb_le _ _) Hbig). wp_step. cbn [Z.eqb]. eapply wp_mono; [exact Hvf|].
    intros r s' (A' & Hfs & [[-> Hr]|(Hr & Hlt & _)]); [|lia]. exists A'. split; [done|]. left. split; [done|by left]. }
  eapply walkaddr_spec; [apply Hok|apply Hok|lia|].
  assert (0 ≤ va < MAXVA) as Hva' by lia. unfold uaddr. destruct (translate (as_L A) va) as [[pa f]|] eqn:Et.
  - destruct (hasbit f PTE_U) eqn:Hu.
    + destruct (translate_owns _ _ _ _ _ _ Hok Hva' Et Hu) as (lvl & base & p & _ & _ & _ & Ho & Hp).
      pose proof (page_range p (proj1 (as_page _ _ _ Hok _ _ Ho))).
      rewrite (proj2 (Z.eqb_neq pa 0)) by lia. wp_step. exists A. split; [by apply fault_refl|]. right.
      split_and!; [lia|lia|]. eauto.
    + cbn [Z.eqb]. eapply wp_mono; [exact Hvf|]. intros r s' (A' & Hfs & [[-> Hr]|(_ & _ & ? & _)]); [|done].
      exists A'. split; [done|]. left. split; [done|]. right; left. unfold uview. by rewrite Et, Hu.
  - cbn [Z.eqb]. eapply wp_mono; [exact Hvf|]. intros r s' (A' & Hfs & [[-> Hr]|(Hr & Hlt & _ & Ht)]).
    + exists A'. split; [done|]. left. split; [done|]. destruct Hr as [Hr|[[? ?]|Hr]]; [|done|by right; right].
      right; left. unfold uview. rewrite Et. replace (PGROUNDDOWN va) with va; [by rewrite (proj2 (Z.ltb_ge _ _) Hr)|].
      rewrite PGROUNDDOWN_eq by done. pose proof (Z.div_mod va 4096). lia.
    + exists A'. split; [done|]. right. split_and!; [done|lia|]. exists FAULT_PERM. done.
Qed.

(** ** Writes to kernel memory *)

Lemma as_write A s m :
  as_ok root A s → (∀ a, page_byte (pa_free s) a ∨ table_byte (as_T A) a → ldb m a = ldb (pa_mem s) a) →
  as_ok root A (pa_set_mem m s).
Proof.
  intros Hok Hm. pose proof Hok as [Hpool Hpt Hus Hpg Hal Hdj]. split; try done.
  - apply pa_ok_set; [done|]. intros a Ha. apply Hm. by left.
  - split; [apply Hpt| |].
    + intros q pa Hq. rewrite pa_free_set. by apply (pt_page _ _ _ _ Hpt q).
    + intros q pa i Hq Hi. rewrite pa_mem_set, <-(pt_mem _ _ _ _ Hpt q pa i) by done. apply ld64_same.
      intros b Hb. apply Hm. right. exists q, pa. unfold PGSIZE, idx in *. split; [done|lia].
  - intros q p Ho. rewrite pa_free_set. by apply (Hpg q).
Qed.

Lemma kbyte_set A s m a : kbyte A (pa_set_mem m s) a ↔ kbyte A s a.
Proof. unfold kbyte, page_byte. by setoid_rewrite pa_free_set. Qed.

(** ** The loops *)

(** Bytes [0..n) of the copy are in the kernel's buffer. *)
Record copied_in A s dst srcva len n A' s' : Prop := {
  ci_range : 0 ≤ n ≤ len;
  ci_ok : as_ok root A' s';
  ci_view : ∀ va, 0 ≤ va < MAXVA → uview psz A' s' va = uview psz A s va;
  ci_kernel : ∀ a, kbyte A s a → kbyte A' s' a ∧ (¬ (dst ≤ a < dst + len) → ldb (pa_mem s') a = ldb (pa_mem s) a);
  ci_data : ∀ k, 0 ≤ k < n → srcva + k < MAXVA ∧ uview psz A s (srcva + k) = Some (ldb (pa_mem s') (dst + k))
}.

Lemma copied_in_refl A s dst srcva len : as_ok root A s → 0 ≤ len → copied_in A s dst srcva len 0 A s.
Proof. intros Hok Hl. split; try done; lia. Qed.

Lemma copied_in_fault A s dst srcva len n A1 s1 A2 s2 :
  (∀ a, dst ≤ a < dst + len → kbyte A s a) →
  copied_in A s dst srcva len n A1 s1 → fault_step psz root A1 s1 A2 s2 → copied_in A s dst srcva len n A2 s2.
Proof.
  intros Hdst [H1 H2 H3 H4 H5] Hfs. split; [done|apply Hfs|..].
  - intros va Hva. rewrite (fs_view _ _ _ _ _ _ Hfs) by done. by apply H3.
  - intros a Ha. destruct (H4 a Ha) as [Ha1 Hl]. destruct (fs_kernel _ _ _ _ _ _ Hfs a Ha1) as [Ha2 Hl2].
    split; [done|]. intros Hn. rewrite Hl2. by apply Hl.
  - intros k Hk. destruct (H5 k Hk) as [? Hv]. split; [done|]. rewrite Hv. f_equal. symmetry.
    apply (fs_kernel _ _ _ _ _ _ Hfs). apply H4, Hdst. lia.
Qed.

(** One page's worth. *)
Lemma copied_in_step A s dst srcva len n A' s' pa f m :
  (∀ a, dst ≤ a < dst + len → kbyte A s a) → 0 ≤ srcva →
  copied_in A s dst srcva len n A' s' → n + m ≤ len → 0 ≤ m → 
  (∀ k, 0 ≤ k < m → srcva + n + k < MAXVA ∧ translate (as_L A') (srcva + n + k) = Some (pa + k, f)) →
  hasbit f PTE_U = true →
  copied_in A s dst srcva len (n + m) A' (pa_set_mem (memmove (pa_mem s') (dst + n) pa m) s').
Proof.
  intros Hdst Hsrc [H1 H2 H3 H4 H5] Hn Hm Htr Hu. set (m' := memmove _ _ _ _).
  assert (∀ a, ¬ (dst + n ≤ a < dst + n + m) → ldb m' a = ldb (pa_mem s') a) as Hout by (intros; by apply memmove_out).
  assert (∀ a, dst + n ≤ a < dst + n + m → kbyte A' s' a) as Hk by (intros a Ha; apply H4, Hdst; lia). split.
  - lia.
  - apply as_write; [done|]. intros a Ha. apply Hout. intros Hin. destruct (Hk a Hin) as (? & ? & _). tauto.
  - intros va Hva. rewrite <-H3 by done. eapply uview_mem; [done..|]. intros a Ha. rewrite pa_mem_set. apply Hout.
    intros Hin. by destruct (Hk a Hin) as (_ & _ & ?).
  - intros a Ha. rewrite kbyte_set, pa_mem_set. destruct (H4 a Ha) as [? Hl]. split; [done|]. intros Hno. rewrite Hout by lia. by apply Hl.
  - intros k Hk'. rewrite pa_mem_set. destruct (decide (k < n)) as [Hlt|Hge].
    { rewrite Hout by lia. apply H5. lia. }
    destruct (Htr (k - n)) as [Hlt Ht]; [lia|]. replace (srcva + n + (k - n)) with (srcva + k) in * by lia. split; [done|].
    rewrite <-H3 by lia. unfold uview. rewrite Ht, Hu. f_equal. unfold m'.
    replace (dst + k) with (dst + n + (k - n)) by lia. rewrite memmove_in by lia. done.
Qed.

(** What the process cannot read or the pool cannot provide. *)
Definition no_view A s va s' : Prop := MAXVA ≤ va ∨ uview psz A s va = None ∨ oom s'.

Lemma oom_mono s s' : (∀ p, pa_free s' p → pa_free s p) → oom s → oom s'.
Proof. intros H (l & Hl & Hin). exists l. split; [done|naive_solver]. Qed.

Lemma page_addr va pa f A : 0 ≤ va < MAXVA → translate (as_L A) (page_of va) = Some (pa, f) →
  ∀ k, 0 ≤ k < 4096 - va mod 4096 → va + k < MAXVA ∧ translate (as_L A) (va + k) = Some (pa + (va - page_of va) + k, f).
Proof.
  intros Hva Ht k Hk. destruct (page_of_bounds va) as (Hb & Hm & Hd).
  pose proof (Z.div_mod va 4096). pose proof (Z.mod_pos_bound va 4096). pose proof MAXVA_eq as HM.
  assert (va + k < MAXVA) by (unfold page_of in *; lia). split; [done|].
  assert (0 ≤ page_of va) by (unfold page_of; lia).
  rewrite (translate_page _ (page_of va) (va + k)), Ht; [|lia|lia|].
  - cbn. f_equal. f_equal. lia.
  - rewrite Hd. apply page_of_same. unfold page_of in *. lia.
Qed.

Lemma copyin_spec A s dst srcva len :
  as_ok root A s → 0 ≤ srcva < 18446744073709551616 → 0 ≤ len →
  (∀ a, dst ≤ a < dst + len → kbyte A s a) →
  wp (copyin psz root root dst srcva len) (λ r s', ∃ A' n, copied_in A s dst srcva len n A' s' ∧
    ((r = 0 ∧ n = len) ∨ (r = -1 ∧ n < len ∧ no_view A s (srcva + n) s'))) s.
Proof.
  intros Hok Hsrc Hlen Hdst. unfold copyin.
  apply (wp_loop (λ x s', ∃ A' n sv, x = (dst + n, sv, len - n) ∧ copied_in A s dst srcva len n A' s' ∧
      0 ≤ sv < 18446744073709551616 ∧ (n < len → sv = srcva + n))
    (λ x _, chunks 4096 (snd (fst x)) (snd x))).
  - exists A, 0, srcva. split_and!; [f_equal; [f_equal|]; lia|by apply copied_in_refl|lia|lia|lia].
  - by apply chunks_bound.
  - intros x s1 (A1 & n & sv & -> & Hci & Hsv & Hsvn). cbn [fst snd]. pose proof (ci_range _ _ _ _ _ _ _ _ Hci) as Hn.
    destruct (Z.ltb_spec 0 (len - n)) as [Hlt|Hge]; cbn [negb].
    2: { wp_step. exists A1, n. split; [done|]. left. split; [done|lia]. }
    rewrite (Hsvn ltac:(lia)) in *. clear Hsvn sv. remember (srcva + n) as va eqn:Hvaeq. destruct (page_of_bounds va) as (Hb & Hm & Hd).
    pose proof (Z.div_mod va 4096). pose proof (Z.mod_pos_bound va 4096).
    assert (page_of va = va - va mod 4096 ∧ 0 ≤ page_of va) as [Hpo Hp0] by (unfold page_of; lia).
    rewrite PGROUNDDOWN_eq by lia. fold (page_of va). wp_step.
    eapply wp_mono; [apply (fault_in_spec A1 s1 (page_of va)); [apply Hci|unfold page_of; lia|done]|].
    cbn beta. intros pa s2 (A2 & Hfs & [[-> Hno]|(Hnz & Hmax & f & Ht & Hu)]).
    + cbn [Z.eqb]. wp_step. exists A2, n. split; [by eapply copied_in_fault|]. right. split_and!; [done|lia|]. rewrite <-Hvaeq.
      destruct Hno as [Hno|[Hno|Hno]]; [left; lia| |right; right; eapply oom_mono; [apply Hfs|done]].
      destruct (decide (MAXVA ≤ va)); [by left|right; left].
      rewrite <-(ci_view _ _ _ _ _ _ _ _ Hci) by lia. eapply uview_page_none; [| |exact Hd|done]; lia.
    + rewrite (proj2 (Z.eqb_neq _ _) Hnz). wp_step. rewrite wp_kmemmove, wp_ret. unfold PGSIZE.
      assert (MAXVA mod 4096 = 0) as HMm by reflexivity. pose proof (Z.div_mod MAXVA 4096).
      assert (va < MAXVA) as Hvm by (pose proof MAXVA_eq; unfold page_of in *; lia).
      set (m := Z.min _ _). assert (m = Z.min (4096 - va mod 4096) (len - n)) as Hmeq by (unfold m; lia).
      pose proof MAXVA_eq as HM. rewrite u64_small by lia. split.
      * exists A2, (n + m), (page_of va + 4096). split_and!; [f_equal; [f_equal|]; lia| |lia|lia|lia].
        eapply copied_in_step; [done|lia|by eapply copied_in_fault|lia|lia| |exact Hu].
        intros k Hk. rewrite <-Hvaeq. destruct (page_addr va pa f A2) with (k := k) as [G1 G2]; [lia|done|lia|]. done.
      * cbn [fst snd]. replace (len - n - m) with ((len - n) - m) by lia. apply chunks_step; [lia|lia|done|].
        intros _. rewrite <-Z.add_mod_idemp_l, Hm by lia. done.
Qed.

(** ** [copyout] *)

(** The first [n] bytes are in the user's memory. *)
Record copied_out A s dstva src len n A' s' : Prop := {
  co_range : 0 ≤ n ≤ len;
  co_max : 0 < n → dstva + n ≤ MAXVA;
  co_ok : as_ok root A' s';
  co_view : ∀ va, 0 ≤ va < MAXVA → uview psz A' s' va =
    if decide (dstva ≤ va < dstva + n) then Some (ldb (pa_mem s) (src + (va - dstva))) else uview psz A s va;
  co_kernel : ∀ a, kbyte A s a → kbyte A' s' a ∧ ldb (pa_mem s') a = ldb (pa_mem s) a
}.

Lemma copied_out_refl A s dstva src len : as_ok root A s → 0 ≤ len → copied_out A s dstva src len 0 A s.
Proof. intros Hok Hl. split; [lia|lia|done| |done]. intros va _. by rewrite decide_False by lia. Qed.

Lemma copied_out_fault A s dstva src len n A1 s1 A2 s2 :
  copied_out A s dstva src len n A1 s1 → fault_step psz root A1 s1 A2 s2 → copied_out A s dstva src len n A2 s2.
Proof.
  intros [H1 H2 H3 H4 H5] Hfs. split; [done|done|apply Hfs|..].
  - intros va Hva. rewrite (fs_view _ _ _ _ _ _ Hfs) by done. by apply H4.
  - intros a Ha. destruct (H5 a Ha) as [Ha1 <-]. by apply (fs_kernel _ _ _ _ _ _ Hfs).
Qed.

Lemma copied_out_step A s dstva src len n A' s' pa f m :
  (∀ a, src ≤ a < src + len → kbyte A s a) → 0 ≤ dstva →
  copied_out A s dstva src len n A' s' → n + m ≤ len → 0 < m →
  (∀ k, 0 ≤ k < m → dstva + n + k < MAXVA ∧ translate (as_L A') (dstva + n + k) = Some (pa + k, f)) →
  hasbit f PTE_U = true →
  copied_out A s dstva src len (n + m) A' (pa_set_mem (memmove (pa_mem s') pa (src + n) m) s').
Proof.
  intros Hsrc Hd [H1 H2 H3 H4 H5] Hn Hm Htr Hu. set (m' := memmove _ _ _ _).
  assert (∀ a, ¬ (pa ≤ a < pa + m) → ldb m' a = ldb (pa_mem s') a) as Hout by (intros; apply memmove_out; [lia|done]).
  assert (∀ a, pa ≤ a < pa + m → data_byte A' a ∧ ¬ page_byte (pa_free s') a ∧ ¬ table_byte (as_T A') a) as Hk.
  { intros a Ha. destruct (Htr (a - pa)) as [Hlt Ht]; [lia|]. replace (pa + (a - pa)) with a in Ht by lia.
    eapply user_byte; [done| |exact Ht|done]. lia. }
  split; [lia| | | |].
  - intros _. destruct (Htr (m - 1)); lia.
  - apply as_write; [done|]. intros a Ha. apply Hout. intros Hin. destruct (Hk a Hin) as (_ & ? & ?). tauto.
  - intros va Hva. destruct (decide (dstva + n ≤ va < dstva + n + m)) as [Hin|Hin].
    + rewrite decide_True by lia. destruct (Htr (va - dstva - n)) as [Hlt Ht]; [lia|].
      replace (dstva + n + (va - dstva - n)) with va in Ht by lia. unfold uview. rewrite Ht, Hu, pa_mem_set. f_equal.
      unfold m'. rewrite memmove_in by lia. replace (src + n + (va - dstva - n)) with (src + (va - dstva)) by lia.
      apply H5, Hsrc. lia.
    + transitivity (uview psz A' s' va).
      2: { rewrite H4 by done. destruct (decide (dstva ≤ va < dstva + n)), (decide (dstva ≤ va < dstva + (n + m))); try done; lia. }
      unfold uview. destruct (translate (as_L A') va) as [[x g]|] eqn:Et; [|done].
      destruct (hasbit g PTE_U) eqn:Hg; [|done]. f_equal. rewrite pa_mem_set. apply Hout. intros Hx.
      destruct (Htr (x - pa)) as [Hlt Ht]; [lia|]. replace (pa + (x - pa)) with x in Ht by lia.
      pose proof (translate_inj root A' s' va (dstva + n + (x - pa)) x g f H3 Hva). apply Hin.
      rewrite H by (done || lia). lia.
  - intros a Ha. rewrite kbyte_set, pa_mem_set. destruct (H5 a Ha) as [Ha' <-]. split; [done|]. apply Hout.
    intros Hin. destruct (Hk a Hin) as [? _]. by destruct Ha' as (_ & _ & ?).
Qed.

(** The entry of a mapped page. *)
Lemma walk_leaf {B} T L s va pa f (k : Z → M S B) Q :
  pa_ok s → pt_ok root T L s → 0 ≤ va < MAXVA → translate L va = Some (pa, f) →
  (∀ e, (∀ b, 0 ≤ b < 1024 → hasbit e b = hasbit f b) → wp (k e) Q s) →
  wp (pte ← walk root va false; e ← ldpte pte; k e) Q s.
Proof.
  intros Hok Hp Hva Ht HQ. unfold walk, walk_with_level. rewrite !wp_bind. eapply walk_res_noalloc; [done..|lia|].
  pose proof (walk_res_entry root T L s va Hp Hva) as Hw. rewrite Ht in Hw.
  destruct Hw as (q & i & t & level & base & -> & Hq & Hi & Hnz & _ & _ & _ & _ & (Hf & _ & _) & _ & He). wp_step. wp_step.
  rewrite wp_ldpte, (pt_mem _ _ _ _ Hp q t i), He by done. apply HQ. intros b Hb. by apply mkpte_hasbit.
Qed.

Definition read_only A va : Prop := ∃ pa f, translate (as_L A) va = Some (pa, f) ∧ hasbit f PTE_W = false.

Lemma copyout_spec A s dstva src len :
  as_ok root A s → 0 ≤ dstva < 18446744073709551616 → 0 ≤ len →
  (∀ a, src ≤ a < src + len → kbyte A s a) →
  wp (copyout psz root root dstva src len) (λ r s', ∃ A' n, copied_out A s dstva src len n A' s' ∧
    ((r = 0 ∧ n = len) ∨ (r = -1 ∧ n < len ∧ (no_view A s (dstva + n) s' ∨ read_only A' (dstva + n))))) s.
Proof.
  intros Hok Hdst Hlen Hsrc. unfold copyout. pose proof MAXVA_eq as HM.
  apply (wp_loop (λ x s', ∃ A' n dv, x = (dv, src + n, len - n) ∧ copied_out A s dstva src len n A' s' ∧
      0 ≤ dv < 18446744073709551616 ∧ (n < len → dv = dstva + n))
    (λ x _, chunks 4096 (fst (fst x)) (snd x))).
  - exists A, 0, dstva. split_and!; [f_equal; [f_equal|]; lia|by apply copied_out_refl|lia|lia|lia].
  - by apply chunks_bound.
  - intros x s1 (A1 & n & dv & -> & Hco & Hdv & Hdvn). cbn [fst snd]. pose proof (co_range _ _ _ _ _ _ _ _ Hco) as Hn.
    destruct (Z.ltb_spec 0 (len - n)) as [Hlt|Hge]; cbn [negb].
    2: { wp_step. exists A1, n. split; [done|]. left. split; [done|lia]. }
    rewrite (Hdvn ltac:(lia)) in *. clear Hdvn dv. remember (dstva + n) as va eqn:Hvaeq.
    destruct (page_of_bounds va) as (Hb & Hm & Hd). pose proof (Z.div_mod va 4096). pose proof (Z.mod_pos_bound va 4096).
    assert (page_of va = va - va mod 4096 ∧ 0 ≤ page_of va) as [Hpo Hp0] by (unfold page_of; lia).
    rewrite PGROUNDDOWN_eq by lia. fold (page_of va). destruct (Z.leb_spec MAXVA (page_of va)) as [Hbig|Hsm].
    { wp_step. exists A1, n. split; [done|]. right. split_and!; [done|lia|]. left. left. lia. }
    wp_step. eapply wp_mono; [apply (fault_in_spec A1 s1 (page_of va)); [apply Hco|lia|done]|].
    assert (va < MAXVA) as Hvm by (unfold page_of in *; lia).
    cbn beta. intros pa s2 (A2 & Hfs & [[-> Hno]|(Hnz & _ & f & Ht & Hu)]).
    + cbn [Z.eqb]. wp_step. exists A2, n. split; [by eapply copied_out_fault|]. right. split_and!; [done|lia|]. rewrite <-Hvaeq.
      left. destruct Hno as [Hno|[Hno|Hno]]; [left; lia| |right; right; eapply oom_mono; [apply Hfs|done]].
      right; left. apply (uview_page_none _ _ _ va) in Hno; [|lia|lia|done].
      rewrite (co_view _ _ _ _ _ _ _ _ Hco), decide_False in Hno by lia. done.
    + rewrite (proj2 (Z.eqb_neq _ _) Hnz).
      eapply walk_leaf; [apply Hfs|apply Hfs|lia|exact Ht|]. intros e He.
      destruct (page_addr va pa f A2 ltac:(lia) Ht 0 ltac:(lia)) as [_ Hta]. rewrite Z.add_0_r in Hta.
      rewrite He by (unfold PTE_W; lia). destruct (hasbit f PTE_W) eqn:Hw; cbn [negb].
      2: { wp_step. exists A2, n. split; [by eapply copied_out_fault|]. right. split_and!; [done|lia|].
           right. rewrite <-Hvaeq. eexists _, f. done. }
      wp_step. rewrite wp_kmemmove, wp_ret. unfold PGSIZE.
      set (m := Z.min _ _). assert (m = Z.min (4096 - va mod 4096) (len - n)) as Hmeq by (unfold m; lia).
      rewrite u64_small by lia. split.
      * exists A2, (n + m), (page_of va + 4096). split_and!; [f_equal; [f_equal|]; lia| |lia|lia|lia].
        eapply copied_out_step; [done|lia|by eapply copied_out_fault|lia|lia| |exact Hu].
        intros k Hk. rewrite <-Hvaeq. by apply (page_addr va pa f A2); [lia| |lia].
      * cbn [fst snd]. apply chunks_step; [lia|lia|done|].
        intros _. rewrite <-Z.add_mod_idemp_l, Hm by lia. done.
Qed.
End VmCopy.
