(* ===== verification/VmCollapse.v ===== *)
(** * Huge pages: [vm_try_collapse]

    The collapse copies 512 pages into a 2 MB page, frees them and their table
    and points the level-1 entry at the copy.  Neither the process nor the rest
    of the kernel can tell. *)

From S2P Require Import Prelude Mem Kstring Layout PageAlloc Vm VmInv VmMap VmUser VmCopy.

(** The leaves but those below [h]. *)
Definition not_below (h : list Z) (L : leaves) : leaves := filter (λ x, take 2 x.1 ≠ h) L.

Lemma not_below_lookup h L q : not_below h L !! q = if decide (take 2 q = h) then None else L !! q.
Proof.
  unfold not_below. rewrite map_lookup_filter. destruct (L !! q) as [x|]; cbn; [|by case_decide].
  case_guard; case_decide; done.
Qed.

Section VmCollapse.
Context {S : Type} {PO : PageAllocOps S} {PS : PageAllocSpec S}.
Implicit Types (A : aspace) (s : S).
Context (psz root : Z).

Section Collapse.
Context (A : aspace) (s : S) (va new flags l0 : Z) (pas : Z → Z).
Abbreviation h := [PX 2 va; PX 1 va].

Hypothesis Hok : as_ok root A s.
Hypothesis Hva : 0 ≤ va < MAXVA.
Hypothesis Hl0 : as_T A !! h = Some l0.
Hypothesis Hpas : ∀ i, idx i → as_L A !! (h ++ [i]) = Some (pas i, flags).
Hypothesis Hu : hasbit flags PTE_U = true.

(** The address space after the collapse. *)
Definition collapsed : aspace :=
  {| as_T := delete h (as_T A); as_L := <[h := (new, flags)]> (not_below h (as_L A));
     as_D := {[h]} ∪ filter (λ q, take 2 q ≠ h) (as_D A) |}.

Lemma own_small i : idx i → owns A (h ++ [i]) (pas i).
Proof.
  intros Hi. split; [by eapply as_user; [done|apply Hpas|]|]. exists (pas i), flags. split; [by apply Hpas|].
  exists 0. change (leaf_pages (h ++ [i])) with 1. lia.
Qed.

Lemma pas_inj i j : idx i → idx j → pas i = pas j → i = j.
Proof.
  intros Hi Hj E. pose proof (own_small i Hi) as H1. pose proof (own_small j Hj) as H2. rewrite <-E in H2.
  pose proof (as_disj _ _ _ Hok _ _ _ H1 H2) as Eq. apply app_inj_tail in Eq as [_ Eq]. done.
Qed.

Lemma take2_h q i : (length q ≤ 2)%nat → take 2 (q ++ [i]) = h → q ++ [i] = h ∨ q = h.
Proof.
  intros Hl E. destruct q as [|a [|b [|c q]]]; cbn in *; try done; [by left|by right|lia].
Qed.

Lemma below_path q pa f : as_L A !! q = Some (pa, f) → take 2 q = h → ∃ i, q = h ++ [i] ∧ idx i ∧ pa = pas i.
Proof.
  intros HL E. destruct (tr_leaf _ _ _ (pt_tree _ _ _ _ (as_pt _ _ _ Hok)) _ _ _ HL) as (HT & Hlen & _ & _ & q' & i & -> & Hi & [t Ht]).
  assert (length q' ≤ 2)%nat as Hl by (rewrite length_app in Hlen; cbn in Hlen; lia).
  destruct (take2_h q' i Hl E) as [E'| ->]; [congruence|]. exists i. split_and!; [done..|].
  pose proof (Hpas i Hi) as HL'. congruence.
Qed.

(** The pages of the copy. *)
Hypothesis Hnew : ∀ p, in_huge new p → pa_managed p ∧ ¬ pa_free s p ∧ (∀ q, as_T A !! q ≠ Some p) ∧ ∀ q, ¬ owns A q p.
Hypothesis Hnm : new mod HUGEPGSIZE = 0.

(** The final state: the small pages and the table are free, the entry is set,
    nothing else but free pages was written. *)
Context (s' : S) (t1 : Z).
Hypothesis Ht1 : as_T A !! [PX 2 va] = Some t1.
Abbreviation slot := (t1 + 8 * PX 1 va).
Hypothesis Hok' : pa_ok s'.
Hypothesis Hfree : ∀ p, pa_free s' p ↔ pa_free s p ∨ p = l0 ∨ ∃ i, idx i ∧ p = pas i.
Hypothesis Hslot : ld64 (pa_mem s') slot = mkpte new flags.
Hypothesis Hmem : ∀ a, ¬ page_byte (pa_free s') a → ¬ (slot ≤ a < slot + 8) → ldb (pa_mem s') a = ldb (pa_mem s) a.

Lemma owns_collapsed q p :
  owns collapsed q p → (q = h ∧ in_huge new p) ∨ (take 2 q ≠ h ∧ owns A q p).
Proof.
  intros (Hd & x & g & HL & Hp). cbn in Hd, HL. destruct (decide (q = h)) as [->|Hne].
  - rewrite lookup_insert_eq in HL. injection HL as <- <-. left. split; [done|]. exact Hp.
  - rewrite lookup_insert_ne, not_below_lookup in HL by done. case_decide as Ht; [done|]. right. split; [done|].
    split; [|eauto]. set_solver.
Qed.

Lemma keep_page p :
  pa_managed p → ¬ pa_free s p → p ≠ l0 → (∀ i, idx i → p ≠ pas i) → ¬ pa_free s' p.
Proof. intros Hm Hf Hn Hi [?|[?|(i & ? & ?)]]%Hfree; [done|done|by eapply Hi]. Qed.

Lemma keep_table q t : delete h (as_T A) !! q = Some t → pa_managed t ∧ ¬ pa_free s' t.
Proof.
  intros [Hne Hq]%lookup_delete_Some. destruct (pt_page _ _ _ _ (as_pt _ _ _ Hok) _ _ Hq) as [Hm Hf]. split; [done|].
  apply keep_page; [done|done|..].
  - intros ->. apply Hne. by eapply (tr_inj _ _ _ (pt_tree _ _ _ _ (as_pt _ _ _ Hok))).
  - intros i Hi ->. by destruct (as_page _ _ _ Hok _ _ (own_small i Hi)) as (_ & _ & Hnt); destruct (Hnt q).
Qed.

Lemma tree_collapsed : tree root (as_T collapsed) (as_L collapsed).
Proof.
  pose proof (pt_tree _ _ _ _ (as_pt _ _ _ Hok)) as [Hr Hpa Hpr Hin Hlf]. cbn. split.
  - by rewrite lookup_delete_ne.
  - intros q pa [_ Hq]%lookup_delete_Some. by eapply Hpa.
  - intros q i pa [Hne Hq]%lookup_delete_Some. destruct (Hpr _ _ _ Hq) as [x Hx]. exists x.
    apply lookup_delete_Some. split; [|done]. intros <-. apply Hpa in Hq as [Hl _]. cbn in Hl. lia.
  - intros q q' pa [_ Hq]%lookup_delete_Some [_ Hq']%lookup_delete_Some. by eapply Hin.
  - intros q pa f HL. destruct (Hlf _ _ _ (Hpas 0 ltac:(unfold idx; lia))) as (_ & _ & _ & Hff & _).
    apply lookup_insert_Some in HL as [[<- [= <- <-]]|[Hne HL]].
    + split_and!; [apply lookup_delete_eq|by left| |done|].
      * apply page_ok12, (Hnew new). exists 0. unfold PGSIZE. lia.
      * exists [PX 2 va], (PX 1 va). split_and!; [done|apply PX_idx; lia|]. exists t1. by rewrite lookup_delete_ne.
    + rewrite not_below_lookup in HL. case_decide as Ht; [done|].
      destruct (Hlf _ _ _ HL) as (HT & Hlen & H12 & Hf & q' & i & -> & Hi & [x Hx]).
      split_and!; try done; [by rewrite lookup_delete_None; right|]. exists q', i. split_and!; [done..|]. exists x.
      apply lookup_delete_Some. split; [|done]. intros <-. by apply Ht.
Qed.

(** A byte of a page that stays in use keeps its value, the entry apart. *)
Lemma keep_byte p a :
  pa_managed p → ¬ pa_free s' p → p ≤ a < p + 4096 → ¬ (slot ≤ a < slot + 8) → ldb (pa_mem s') a = ldb (pa_mem s) a.
Proof. intros Hm Hf Ha Hs. apply Hmem; [|done]. by eapply used_byte. Qed.

Lemma pt_collapsed : pt_ok root (as_T collapsed) (as_L collapsed) s'.
Proof.
  split; [apply tree_collapsed|apply keep_table|]. intros q t i Hq Hi. destruct (keep_table q t Hq) as [Hm Hf].
  cbn in Hq. apply lookup_delete_Some in Hq as [Hne Hq]. pose proof (as_pt _ _ _ Hok) as Hp.
  assert (idx (PX 1 va)) as Hi1 by (apply PX_idx; lia).
  assert (length q ≤ 2)%nat as Hlen by (by eapply (tr_path _ _ _ (pt_tree _ _ _ _ Hp))).
  destruct (slots_apart _ _ _ _ [PX 2 va] q t1 t (PX 1 va) i Hp Ht1 Hq Hi1 Hi) as [(<- & <- & E)|[Hn Hap]].
  - rewrite <-E, Hslot. unfold entry, collapsed. cbn [as_T as_L app]. by rewrite lookup_delete_eq, lookup_insert_eq.
  - transitivity (entry (as_T A) (as_L A) (q ++ [i])).
    + rewrite <-(pt_mem _ _ _ _ Hp q t i) by done. apply ld64_same. intros b Hb. apply (keep_byte t); [done..|unfold idx in *; lia|lia].
    + assert (q ++ [i] ≠ h) as Hqh.
      { intros E. change h with ([PX 2 va] ++ [PX 1 va]) in E. apply app_inj_tail in E as [-> ->]. congruence. }
      unfold entry, collapsed. cbn [as_T as_L]. rewrite lookup_delete_ne, lookup_insert_ne, not_below_lookup by done.
      rewrite decide_False; [done|]. intros [E|E]%take2_h; [done| |done]. congruence.
Qed.

Lemma as_collapsed : as_ok root collapsed s'.
Proof.
  assert (h ∈ as_D collapsed) as Hh by (cbn; set_solver).
  split; [done|apply pt_collapsed|..].
  - intros q x g HL Hg. cbn in HL. apply lookup_insert_Some in HL as [[<- _]|[Hne HL]]; [done|].
    rewrite not_below_lookup in HL. case_decide; [done|]. cbn. apply elem_of_union_r, elem_of_filter. split; [done|]. by eapply as_user.
  - intros q p Ho. assert (pa_managed p ∧ ¬ pa_free s p ∧ (∀ q', as_T A !! q' ≠ Some p) ∧ ∀ i, idx i → p ≠ pas i)
      as (H1 & H2 & H3 & H4).
    { apply owns_collapsed in Ho as [[-> Hin]|[Ht Ho]].
      - destruct (Hnew p Hin) as (H1 & H2 & H3 & H4). split_and!; [done..|]. intros i Hi ->. apply (H4 _ (own_small i Hi)).
      - destruct (as_page _ _ _ Hok _ _ Ho) as (H1 & H2 & H3). split_and!; [done..|]. intros i Hi ->. apply Ht.
        by rewrite (as_disj _ _ _ Hok _ _ _ Ho (own_small i Hi)). }
    split_and!; [done|apply keep_page; try done; intros ->; by apply (H3 h)|].
    intros q' Hq'. cbn in Hq'. apply lookup_delete_Some in Hq' as [_ Hq']. by apply (H3 q').
  - intros q x g Hd HL Hlen. cbn in HL, Hd. apply lookup_insert_Some in HL as [[<- [= <- <-]]|[Hne HL]]; [done|].
    rewrite not_below_lookup in HL. case_decide; [done|]. eapply as_align; [exact Hok| |exact HL|done]. set_solver.
  - intros q1 q2 p [[-> H1]|[Hn1 H1]]%owns_collapsed [[-> H2]|[Hn2 H2]]%owns_collapsed; [done| | |by eapply as_disj].
    + by destruct (Hnew p H1) as (_ & _ & _ & Hno); destruct (Hno q2).
    + by destruct (Hnew p H2) as (_ & _ & _ & Hno); destruct (Hno q1).
Qed.

Hypothesis Hcopy : ∀ i o, idx i → 0 ≤ o < 4096 → ldb (pa_mem s) (new + i * 4096 + o) = ldb (pa_mem s) (pas i + o).

Lemma slot_table_byte a : slot ≤ a < slot + 8 → table_byte (as_T collapsed) a.
Proof.
  intros Ha. exists [PX 2 va], t1. pose proof (PX_idx 1 va ltac:(lia) ltac:(lia)) as Hi. unfold idx, PGSIZE in *.
  split; [cbn; by rewrite lookup_delete_ne|lia].
Qed.

Lemma huge_offset x : x mod 2097152 = (x / 4096) mod 512 * 4096 + x mod 4096.
Proof. change 2097152 with (4096 * 512). rewrite Z.rem_mul_r by lia. lia. Qed.

Lemma uview_collapsed va' : 0 ≤ va' < MAXVA → uview psz collapsed s' va' = uview psz A s va'.
Proof.
  intros Hva'. assert (∀ x g, translate (as_L collapsed) va' = Some (x, g) → hasbit g PTE_U = true →
    ldb (pa_mem s') x = ldb (pa_mem s) x) as Hkeep.
  { intros x g Ht Hg. destruct (user_byte _ _ _ _ _ _ as_collapsed Hva' Ht Hg) as (_ & H1 & H2). apply Hmem; [done|].
    intros Hs. by apply H2, slot_table_byte. }
  assert (as_L collapsed !! vpath va' = if decide (lpath 1 va' = h) then None else as_L A !! vpath va') as E0.
  { cbn. rewrite lookup_insert_ne by done. by rewrite not_below_lookup. }
  assert (as_L collapsed !! lpath 1 va' = if decide (lpath 1 va' = h) then Some (new, flags) else as_L A !! lpath 1 va') as E1.
  { cbn [as_L collapsed]. case_decide as E; [rewrite E; apply lookup_insert_eq|].
    rewrite lookup_insert_ne by done. rewrite not_below_lookup. by rewrite decide_False. }
  unfold uview at 2. unfold uview, translate. change [PX 2 va'; PX 1 va'] with (lpath 1 va'). unfold translate in Hkeep.
  change [PX 2 va'; PX 1 va'] with (lpath 1 va') in Hkeep. rewrite E0, E1 in *. case_decide as E.
  - rewrite Hu. rewrite (Hkeep _ _ eq_refl Hu). assert (idx (PX 0 va')) as Hi by (apply PX_idx; lia).
    replace (as_L A !! vpath va') with (Some (pas (PX 0 va'), flags)).
    2: { rewrite <-(Hpas _ Hi). unfold vpath. unfold lpath in E. cbn in E. by injection E as -> ->. }
    rewrite Hu. f_equal. pose proof (Z.mod_pos_bound va' 4096). rewrite <-Hcopy by (done || lia). f_equal.
    rewrite huge_offset, PX_eq by lia. change (2 ^ (12 + 9 * 0)) with 4096. lia.
  - destruct (as_L A !! vpath va') as [[x g]|] eqn:EL.
    + destruct (hasbit g PTE_U) eqn:Hg; [|done]. f_equal. by apply (Hkeep _ g).
    + destruct (as_L A !! lpath 1 va') as [[x g]|]; [|done].
      destruct (hasbit g PTE_U) eqn:Hg; [|done]. f_equal. by apply (Hkeep _ g).
Qed.

Lemma kbyte_collapsed a :
  kbyte A s a → ¬ page_byte (in_huge new) a → kbyte collapsed s' a ∧ ldb (pa_mem s') a = ldb (pa_mem s) a.
Proof.
  intros (H1 & H2 & H3) Hn. assert (¬ page_byte (pa_free s') a) as Hf.
  { intros (p & [Hp|[->|(i & Hi & ->)]]%Hfree & Ha); [apply H1|apply H2|apply H3].
    - by exists p.
    - by exists h, l0.
    - exists (h ++ [i]), (pas i). split; [by apply own_small|done]. }
  assert (¬ table_byte (as_T collapsed) a) as Ht.
  { intros (q & t & Hq & Ha). cbn in Hq. apply lookup_delete_Some in Hq as [_ Hq]. apply H2. by exists q, t. }
  split; [split_and!; [done..|]|].
  - intros (q & p & [[_ Hin]|[_ Ho]]%owns_collapsed & Ha); [apply Hn; by exists p|apply H3; by exists q, p].
  - apply Hmem; [done|]. intros Hs. by apply Ht, slot_table_byte.
Qed.
End Collapse.

(** ** The code *)

Abbreviation hp va := [PX 2 va; PX 1 va].

Lemma small_entry T L s0 va l0 i :
  pt_ok root T L s0 → T !! hp va = Some l0 → idx i →
  ld64 (pa_mem s0) (l0 + 8 * i) = match L !! (hp va ++ [i]) with Some (pa, f) => mkpte pa f | None => 0 end.
Proof.
  intros Hp Hl Hi. rewrite (pt_mem _ _ _ _ Hp (hp va) l0 i) by done. unfold entry.
  destruct (T !! (hp va ++ [i])) eqn:E; [|done]. apply (tr_path _ _ _ (pt_tree _ _ _ _ Hp)) in E as [E _]. cbn in E. lia.
Qed.

(** The 512 small pages of a range are all the user's, with the flags [f]. *)
Definition uniform (L : leaves) (va f : Z) : Prop :=
  hasbit f PTE_U = true ∧ ∀ i, idx i → ∃ pa, L !! (hp va ++ [i]) = Some (pa, f).

Lemma uniform_first T L s va l0 f :
  pt_ok root T L s → T !! hp va = Some l0 → uniform L va f → PTE_FLAGS (ld64 (pa_mem s) l0) = f.
Proof.
  intros Hp Hl [_ Hall]. assert (idx 0) as H0 by (unfold idx; lia). destruct (Hall 0 H0) as [pa E].
  destruct (tr_leaf _ _ _ (pt_tree _ _ _ _ Hp) _ _ _ E) as (_ & _ & _ & (Hf & _) & _).
  replace l0 with (l0 + 8 * 0) by lia. rewrite (small_entry T L s va l0 0), E by done. by apply mkpte_PTE_FLAGS.
Qed.

Lemma collapse_flags_spec T L s va l0 Q :
  pt_ok root T L s → T !! hp va = Some l0 →
  (∀ r, match r with Some f => uniform L va f | None => ∀ f, ¬ uniform L va f end → Q r s) →
  wp (collapse_flags l0) Q s.
Proof.
  intros Hp Hl HQ. unfold collapse_flags. wp_step. rewrite wp_ldpte. set (F := PTE_FLAGS _). wp_step.
  assert (∀ f, uniform L va f → F = f) as HF by (intros f; by apply uniform_first with T).
  apply (wp_for_ret (λ d s', s' = s ∧ ∀ i, i ∈ d → hasbit F PTE_U = true ∧ ∃ pa, L !! (hp va ++ [i]) = Some (pa, F))).
  - split; [done|]. set_solver.
  - intros d i rest s' Hd [-> Hin]. assert (idx i) as Hi.
    { assert (i ∈ seqZ 0 512) as H%elem_of_seqZ by (rewrite Hd; set_solver). unfold idx. lia. }
    wp_step. rewrite wp_ldpte, wp_ret, (small_entry T L s va l0 i) by done.
    assert ((∀ f, ¬ uniform L va f) → Q None s) as Hno by exact (HQ None).
    destruct (L !! (hp va ++ [i])) as [[pa f]|] eqn:EL.
    2: { rewrite hasbit_0. apply Hno. intros f [_ Hall]. destruct (Hall i Hi) as [pa E]. congruence. }
    destruct (tr_leaf _ _ _ (pt_tree _ _ _ _ Hp) _ _ _ EL) as (_ & _ & _ & (Hf & Hv & _) & _).
    rewrite !mkpte_hasbit, mkpte_PTE_FLAGS, Hv by (done || (unfold PTE_V, PTE_U; lia)). cbn [negb].
    destruct (hasbit f PTE_U) eqn:Hu; cbn [negb].
    2: { apply Hno. intros g [Hg Hall]. destruct (Hall i Hi) as [pa' E]. congruence. }
    destruct (Z.eqb_spec f F) as [->|Hne]; cbn [negb].
    2: { apply Hno. intros g Hg. pose proof (HF g Hg). destruct Hg as [_ Hall]. destruct (Hall i Hi) as [pa' E]. congruence. }
    split; [done|]. intros j [Hj| ->%list_elem_of_singleton]%elem_of_app; [by apply Hin|]. split; [done|]. by exists pa.
  - intros s' [-> Hin]. wp_step. apply (HQ (Some F)). split.
    + apply (Hin 0). apply elem_of_seqZ. lia.
    + intros i Hi. apply (Hin i). apply elem_of_seqZ. unfold idx in Hi. lia.
Qed.

Lemma seqZ_at (d rest : list Z) i : seqZ 0 512 = d ++ i :: rest → idx i ∧ i ∉ d.
Proof.
  intros E. split.
  - assert (i ∈ seqZ 0 512) as H%elem_of_seqZ by (rewrite E; set_solver). unfold idx. lia.
  - pose proof (NoDup_seqZ 0 512) as Hnd. rewrite E in Hnd. apply NoDup_app in Hnd as (_ & Hd & _).
    intros Hi. apply (Hd i Hi). set_solver.
Qed.

Section Code.
Context (A : aspace) (s : S) (va new flags l0 : Z) (pas : Z → Z).
Hypothesis Hok : as_ok root A s.
Hypothesis Hl0 : as_T A !! hp va = Some l0.
Hypothesis Hpas : ∀ i, idx i → as_L A !! (hp va ++ [i]) = Some (pas i, flags).
Hypothesis Hu : hasbit flags PTE_U = true.

Lemma small_pte s1 i : as_ok root A s1 → idx i → PTE2PA (ld64 (pa_mem s1) (l0 + 8 * i)) = pas i.
Proof.
  intros Hok1 Hi. rewrite (small_entry _ _ _ va l0 i (as_pt _ _ _ Hok1)), Hpas by done.
  destruct (tr_leaf _ _ _ (pt_tree _ _ _ _ (as_pt _ _ _ Hok)) _ _ _ (Hpas i Hi)) as (_ & _ & Hpa & (Hf & _) & _).
  by apply mkpte_PTE2PA.
Qed.

Hypothesis Hnew : ∀ p, in_huge new p → pa_managed p ∧ ¬ pa_free s p ∧ (∀ q, as_T A !! q ≠ Some p) ∧ ∀ q, ¬ owns A q p.

Lemma huge_byte_k s1 a : as_ok root A s1 → (∀ p, pa_free s1 p → pa_free s p) → page_byte (in_huge new) a → kbyte A s1 a.
Proof.
  intros Hok1 Hf (p & Hin & Ha). destruct (Hnew p Hin) as (H1 & H2 & H3 & H4).
  eapply spare_byte; [done| |exact Ha]. split_and!; [done|naive_solver|done|done].
Qed.

Lemma huge_byte i o : idx i → 0 ≤ o < 4096 → page_byte (in_huge new) (new + i * 4096 + o).
Proof. intros Hi Ho. exists (new + i * 4096). unfold idx, PGSIZE in *. split; [by exists i|lia]. Qed.

(** The copies. *)
Lemma copy_loop (Q : unit → S → Prop) :
  (∀ s2, as_ok root A s2 → (∀ p, pa_free s2 p ↔ pa_free s p) →
     (∀ a, ¬ page_byte (in_huge new) a → ldb (pa_mem s2) a = ldb (pa_mem s) a) →
     (∀ i o, idx i → 0 ≤ o < 4096 → ldb (pa_mem s2) (new + i * 4096 + o) = ldb (pa_mem s2) (pas i + o)) → Q tt s2) →
  wp (for_each (seqZ 0 512) (λ i, pte ← ldpte (l0 + 8 * i); kmemmove (new + i * PGSIZE) (PTE2PA pte) PGSIZE)) Q s.
Proof.
  intros HQ. assert (∀ i o, idx i → 0 ≤ o < 4096 → ¬ page_byte (in_huge new) (pas i + o)) as Hdata.
  { intros i o Hi Ho Hb. apply (huge_byte_k s) in Hb as (_ & _ & Hd); [|done..]. apply Hd.
    exists (hp va ++ [i]), (pas i). split; [by eapply own_small|]. unfold PGSIZE. lia. }
  apply (wp_for_each (λ d s', as_ok root A s' ∧ (∀ p, pa_free s' p ↔ pa_free s p) ∧
     (∀ a, ¬ page_byte (in_huge new) a → ldb (pa_mem s') a = ldb (pa_mem s) a) ∧
     (∀ i o, i ∈ d → 0 ≤ o < 4096 → ldb (pa_mem s') (new + i * 4096 + o) = ldb (pa_mem s) (pas i + o)))).
  - split_and!; [done..|]. set_solver.
  - intros d i rest s1 Hd (Hok1 & Hf1 & Hm1 & Hc1). destruct (seqZ_at d rest i Hd) as [Hi Hnd].
    wp_step. rewrite wp_ldpte, wp_kmemmove, small_pte by done. unfold PGSIZE. set (m := memmove _ _ _ _).
    assert (∀ a, ¬ (new + i * 4096 ≤ a < new + i * 4096 + 4096) → ldb m a = ldb (pa_mem s1) a) as Hout
      by (intros; by apply memmove_out).
    split_and!.
    + apply as_write; [done|]. intros a Ha. apply Hout. intros Hin.
      destruct (huge_byte_k s1 a Hok1) as (? & ? & _); [naive_solver| |tauto].
      replace a with (new + i * 4096 + (a - new - i * 4096)) by lia. apply huge_byte; [done|lia].
    + intros p. rewrite pa_free_set. apply Hf1.
    + intros a Ha. rewrite pa_mem_set, Hout; [by apply Hm1|]. intros Hin. apply Ha.
      replace a with (new + i * 4096 + (a - new - i * 4096)) by lia. apply huge_byte; [done|lia].
    + intros j o [Hj| ->%list_elem_of_singleton]%elem_of_app Ho; rewrite pa_mem_set.
      * rewrite Hout; [by apply Hc1|]. assert (j ≠ i) by (by intros ->). lia.
      * unfold m. rewrite memmove_in by lia. apply Hm1. by apply Hdata.
  - intros s2 (Hok2 & Hf2 & Hm2 & Hc2). apply HQ; [done..|]. intros i o Hi Ho.
    rewrite Hc2 by (done || (apply elem_of_seqZ; unfold idx in Hi; lia)). symmetry. by apply Hm2, Hdata.
Qed.

(** The pages freed. *)
Lemma free_loop (Q : unit → S → Prop) :
  (∀ s2, pa_ok s2 → (∀ p, pa_free s2 p ↔ pa_free s p ∨ ∃ i, idx i ∧ p = pas i) →
     same_outside (page_byte (pa_free s2)) (pa_mem s) (pa_mem s2) → Q tt s2) →
  wp (for_each (seqZ 0 512) (λ i, pte ← ldpte (l0 + 8 * i); pa_kfree (PTE2PA pte))) Q s.
Proof.
  intros HQ. apply (wp_for_each (λ d s', pa_ok s' ∧ (∀ p, pa_free s' p ↔ pa_free s p ∨ ∃ i, i ∈ d ∧ p = pas i) ∧
     same_outside (page_byte (pa_free s')) (pa_mem s) (pa_mem s'))).
  - split_and!; [apply Hok| |done]. intros p. set_solver.
  - intros d i rest s1 Hd (Hok1 & Hf1 & Hm1). destruct (seqZ_at d rest i Hd) as [Hi Hnd].
    assert (∀ j, j ∈ d → idx j) as Hidx.
    { intros j Hj. assert (j ∈ seqZ 0 512) as H%elem_of_seqZ by (rewrite Hd; set_solver). unfold idx. lia. }
    destruct (as_page _ _ _ Hok _ _ (own_small A s va flags pas Hok Hpas Hu i Hi)) as (Hm & Hnf & Hnt).
    destruct (pt_page _ _ _ _ (as_pt _ _ _ Hok) _ _ Hl0) as [Hlm Hlf].
    assert (¬ pa_free s1 l0) as Hl1.
    { intros [?|(j & Hj & E)]%Hf1; [done|].
      destruct (as_page _ _ _ Hok _ _ (own_small A s va flags pas Hok Hpas Hu j (Hidx j Hj))) as (_ & _ & Hn).
      apply (Hn (hp va)). congruence. }
    wp_step. rewrite wp_ldpte. replace (ld64 (pa_mem s1) (l0 + 8 * i)) with (ld64 (pa_mem s) (l0 + 8 * i)).
    2: { symmetry. apply ld64_same. intros b Hb. apply Hm1. eapply (used_byte s1 l0); [done..|]. unfold idx in Hi. lia. }
    rewrite small_pte by done. wp_apply pa_kfree_spec; [done|done| |].
    { intros [?|(j & Hj & E)]%Hf1; [done|]. apply Hnd. by rewrite (pas_inj A s va flags pas Hok Hpas Hu i j Hi (Hidx j Hj) E). }
    intros _ s2 (Hok2 & Hf2 & Hm2). split_and!; [done| |].
    + intros p. rewrite Hf2, Hf1. split; [intros [[?|(j & ? & ?)]|?]; set_solver|].
      intros [?|(j & [?| ->%list_elem_of_singleton]%elem_of_app & ?)]; [by do 2 left|left; right; eauto|by right].
    + eapply same_outside_trans; [|exact Hm2]. eapply same_outside_weaken; [exact Hm1|].
      intros a (p & Hp & Ha). exists p. split; [apply Hf2; by left|done].
  - intros s2 (Hok2 & Hf2 & Hm2). apply HQ; [done| |done]. intros p. rewrite Hf2.
    assert (∀ i, i ∈ seqZ 0 512 ↔ idx i) as Hsq by (intros i; rewrite elem_of_seqZ; unfold idx; lia). by setoid_rewrite Hsq.
Qed.
End Code.

Section Tail.
Context (A : aspace) (s : S) (va new flags l0 : Z) (pas : Z → Z).
Hypothesis Hok : as_ok root A s.
Hypothesis Hl0 : as_T A !! hp va = Some l0.
Hypothesis Hpas : ∀ i, idx i → as_L A !! (hp va ++ [i]) = Some (pas i, flags).
Hypothesis Hu : hasbit flags PTE_U = true.
Hypothesis Hnew : ∀ p, in_huge new p → pa_managed p ∧ ¬ pa_free s p ∧ (∀ q, as_T A !! q ≠ Some p) ∧ ∀ q, ¬ owns A q p.

(** The end of the collapse, from the state in which the copy is allocated. *)
Lemma collapse_tail t1 (Q : Z → S → Prop) :
  0 ≤ va < MAXVA → as_T A !! [PX 2 va] = Some t1 → new mod HUGEPGSIZE = 0 →
  (∀ s', as_ok root (collapsed A va new flags) s' →
     (∀ va', 0 ≤ va' < MAXVA → uview psz (collapsed A va new flags) s' va' = uview psz A s va') →
     (∀ a, kbyte A s a → ¬ page_byte (in_huge new) a →
        kbyte (collapsed A va new flags) s' a ∧ ldb (pa_mem s') a = ldb (pa_mem s) a) → Q 1 s') →
  wp (for_each (seqZ 0 512) (λ i,
        pte ← ldpte (l0 + 8 * i);
        kmemmove (new + i * PGSIZE) (PTE2PA pte) PGSIZE);;
      for_each (seqZ 0 512) (λ i,
        pte ← ldpte (l0 + 8 * i);
        pa_kfree (PTE2PA pte));;
      pa_kfree l0;;
      stpte (t1 + 8 * PX 1 va) (Z.lor (PA2PTE new) flags);;
      mret 1) Q s.
Proof.
  intros Hva Ht1 Hnm HQ. wp_step. apply (copy_loop A s va new flags l0 pas); [done..|]. intros s2 Hok2 Hf2 Hm2 Hc2. wp_step.
  assert (∀ p, in_huge new p → pa_managed p ∧ ¬ pa_free s2 p ∧ (∀ q, as_T A !! q ≠ Some p) ∧ ∀ q, ¬ owns A q p) as Hnew2.
  { intros p Hp. rewrite Hf2. by apply Hnew. }
  eapply (free_loop A s2); [exact Hok2|exact Hl0|exact Hpas|exact Hu|exact Hnew2|]. intros s3 Hok3 Hf3 Hm3. wp_step.
  destruct (pt_page _ _ _ _ (as_pt _ _ _ Hok2) _ _ Hl0) as [Hlm Hlf].
  wp_apply pa_kfree_spec; [done|done| |].
  { intros [?|(i & Hi & E)]%Hf3; [done|].
    destruct (as_page _ _ _ Hok _ _ (own_small A s va flags pas Hok Hpas Hu i Hi)) as (_ & _ & Hn). apply (Hn (hp va)). congruence. }
  intros _ s4 (Hok4 & Hf4 & Hm4). wp_step. rewrite wp_stpte, wp_ret.
  assert (idx (PX 1 va)) as Hi1 by (apply PX_idx; lia).
  destruct (tr_leaf _ _ _ (pt_tree _ _ _ _ (as_pt _ _ _ Hok)) _ _ _ (Hpas 0 ltac:(unfold idx; lia))) as (_ & _ & _ & (Hff & _) & _).
  assert (pa_ok12 new) as Hn12 by (apply page_ok12, (Hnew new); exists 0; unfold PGSIZE; lia).
  rewrite PA2PTE_flags by done. set (slot := t1 + 8 * PX 1 va).
  assert (¬ pa_free s4 t1 ∧ pa_managed t1) as [Ht1f Ht1m].
  { assert (∀ p, pa_free s4 p ↔ pa_free s2 p ∨ p = l0 ∨ ∃ i, idx i ∧ p = pas i) as Hf by (intros p; rewrite Hf4, Hf3; tauto).
    split; [|by apply (pt_page _ _ _ _ (as_pt _ _ _ Hok2) _ _ Ht1)].
    apply (keep_table A s2 va flags l0 pas Hok2 Hl0 Hpas Hu s4 Hf [PX 2 va]). by rewrite lookup_delete_ne. }
  pose proof (page_range t1 Ht1m) as Hr1. set (s5 := pa_set_mem _ s4).
  assert (∀ p, pa_free s5 p ↔ pa_free s2 p ∨ p = l0 ∨ ∃ i, idx i ∧ p = pas i) as Hf5.
  { intros p. unfold s5. rewrite pa_free_set, Hf4, Hf3. tauto. }
  assert (∀ a, ¬ page_byte (pa_free s5) a → ¬ (slot ≤ a < slot + 8) → ldb (pa_mem s5) a = ldb (pa_mem s2) a) as Hm5.
  { intros a Ha Hs. unfold s5. rewrite pa_mem_set, ldb_stn_out by (fold slot; lia).
    assert (¬ page_byte (pa_free s4) a) as Ha4 by (intros (p & Hp & Hb); apply Ha; exists p; unfold s5; by rewrite pa_free_set).
    rewrite Hm4 by done. apply Hm3. intros (p & Hp & Hb). apply Ha4. exists p. split; [apply Hf4; by left|done]. }
  assert (pa_ok s5) as Hok5.
  { apply pa_ok_set; [done|]. intros a Ha. apply ldb_stn_out. fold slot.
    destruct (decide (slot ≤ a < slot + 8)) as [Hin|]; [|lia]. exfalso. revert Ha. apply (used_byte s4 t1); [done..|].
    unfold slot, idx in *. lia. }
  assert (ld64 (pa_mem s5) slot = mkpte new flags) as Hs5.
  { unfold s5. rewrite pa_mem_set. apply ld64_st64_eq. by apply mkpte_range. }
  apply HQ.
  - by eapply as_collapsed with (s := s2).
  - intros va' Hva'. erewrite uview_collapsed with (s := s2) by done. eapply uview_mem; [exact Hok|done..|].
    intros a (q & p & Ho & Ha). apply Hm2. intros (p' & Hin & Hb).
    destruct (huge_byte_k A s new Hnew s a) as (_ & _ & Hd); [done|done|by exists p'|]. apply Hd. by exists q, p.
  - intros a Ha Hn. rewrite <-Hm2 by done. eapply kbyte_collapsed with (s := s2); try done.
    destruct Ha as (H1 & H2 & H3). split_and!; [|done..]. intros (p & Hp & Hb). apply H1. exists p. split; [by apply Hf2|done].
Qed.
End Tail.

(** When there is something to collapse at [va], and when there is memory for it. *)
Definition collapsible A (va : Z) : Prop :=
  root ≠ 0 ∧ va mod HUGEPGSIZE = 0 ∧ va + HUGEPGSIZE ≤ psz ∧ ∃ f, uniform (as_L A) va f.
Definition huge_ready s : Prop := ∃ r s', pa_kalloc_huge s = Ok r s' ∧ r ≠ 0.

(** The tables above the small pages of a range. *)
Lemma uniform_tables A s va f :
  as_ok root A s → uniform (as_L A) va f → is_Some (as_T A !! hp va) ∧ is_Some (as_T A !! [PX 2 va]).
Proof.
  intros Hok [_ Hall]. destruct (Hall 0) as [pa E]; [unfold idx; lia|]. pose proof (pt_tree _ _ _ _ (as_pt _ _ _ Hok)) as Ht.
  destruct (tr_leaf _ _ _ Ht _ _ _ E) as (_ & _ & _ & _ & q' & i & Eq & _ & Hq').
  apply app_inj_tail in Eq as [<- _]. split; [done|]. destruct Hq' as [l0 Hl0]. by apply (tr_parent _ _ _ Ht [PX 2 va] (PX 1 va) l0).
Qed.

(** Huge pages stay. *)
Lemma collapsed_huge A va new flags w :
  is_Some (as_L A !! hp w) → is_Some (as_L (collapsed A va new flags) !! hp w).
Proof.
  intros Hw. cbn [collapsed as_L]. destruct (decide (hp w = hp va)) as [E|Hne]; [rewrite E, lookup_insert_eq; eauto|].
  rewrite lookup_insert_ne, not_below_lookup by done. by rewrite decide_False.
Qed.

Lemma vm_try_collapse_full A s va :
  as_ok root A s → 0 ≤ va < MAXVA →
  wp (vm_try_collapse root psz true va) (λ r s', ∃ A', as_ok root A' s' ∧
    (∀ va', 0 ≤ va' < MAXVA → uview psz A' s' va' = uview psz A s va') ∧
    (∀ a, kbyte A s a → kbyte A' s' a ∧ ldb (pa_mem s') a = ldb (pa_mem s) a) ∧
    (∀ w, is_Some (as_L A !! hp w) → is_Some (as_L A' !! hp w)) ∧
    ((r = 0 ∧ A' = A ∧ s' = s ∧ (huge_ready s → ¬ collapsible A va)) ∨
     (r = 1 ∧ as_L A !! hp va = None ∧ is_Some (as_L A' !! hp va)))) s.
Proof.
  intros Hok Hva. set (Q := λ r s', ∃ A', _). assert ((huge_ready s → ¬ collapsible A va) → Q 0 s) as HQ0.
  { intros Hn. exists A. split_and!; [done..|]. by left. }
  assert ((∀ f, ¬ uniform (as_L A) va f) → Q 0 s) as HQ1.
  { intros Hn. apply HQ0. intros _ (_ & _ & _ & f & Hf). by apply (Hn f). }
  unfold vm_try_collapse. destruct (Z.eqb_spec root 0); [apply HQ0; by intros _ []|].
  destruct (Z.eqb_spec (va mod HUGEPGSIZE) 0) as [Hvm|]; cbn [negb]; [|apply HQ0; by intros _ (_ & ? & _)].
  destruct (Z.gtb_spec (u64 (va + HUGEPGSIZE)) psz) as [Hsz|_].
  { apply HQ0. intros _ (_ & _ & Hle & _). change MAXVA with 274877906944 in *. change HUGEPGSIZE with 2097152 in *.
    unfold u64 in Hsz. rewrite Z.mod_small in Hsz; lia. }
  wp_simpl. pose proof (as_pt _ _ _ Hok) as Hp.
  eapply walk_res_noalloc; [apply Hok|done..|lia|]. unfold walk_res. cbn [Z.eqb Pos.eqb].
  destruct (as_T A !! [PX 2 va]) as [t1|] eqn:E1.
  2: { apply HQ1. intros f Hf. destruct (uniform_tables A s va f Hok Hf) as [_ [? ?]]. congruence. }
  unfold slot_of. rewrite E1. cbn [default].
  assert (idx (PX 1 va)) as Hi1 by (apply PX_idx; lia).
  pose proof (page_range t1 (proj1 (pt_page _ _ _ _ Hp _ _ E1))) as Hr1.
  rewrite (proj2 (Z.eqb_neq _ _)) by (unfold idx in Hi1; cbn; lia). wp_step.
  rewrite wp_ldpte, (pt_mem _ _ _ _ Hp [PX 2 va] t1) by done. cbn [app].
  destruct (as_T A !! hp va) as [l0|] eqn:E0.
  2: { assert (Q 0 s) by (apply HQ1; intros f Hf; destruct (uniform_tables A s va f Hok Hf) as [[? ?] _]; congruence).
       destruct (as_L A !! hp va) as [[pa f]|] eqn:EL; [|by rewrite entry_none, hasbit_0].
       destruct (tr_leaf _ _ _ (pt_tree _ _ _ _ Hp) _ _ _ EL) as (_ & _ & _ & Hlf & _).
       by destruct (entry_leaf _ _ _ pa f E0 EL Hlf) as (_ & -> & ->). }
  destruct (entry_table (as_T A) (as_L A) (hp va) l0 E0) as (-> & -> & ->); [by apply (pt_page _ _ _ _ Hp _ _ E0)|].
  cbn [negb]. wp_step. eapply collapse_flags_spec; [done|done|]. intros [flags|] Hfl; [|by apply HQ1].
  destruct Hfl as [Hu Hall]. wp_step. eapply wp_mono; [apply wp_run, pa_kalloc_huge_spec, Hok|].
  intros new s1 [Hrun [Hok1 Hnew]]. destruct (decide (new = 0)) as [->|Hn0].
  { destruct Hnew as [[_ ->]|(_ & Hin & _)].
    - apply HQ0. intros (r & s' & Hr & Hne). congruence.
    - assert (pa_free s 0) as Hf by (apply Hin; exists 0; unfold PGSIZE; lia).
      apply (pa_free_managed _ _ (as_pool _ _ _ Hok)), page_range in Hf. lia. }
  destruct Hnew as [[-> _]|(Hnm & Hin & Hfr & Hm)]; [done|].
  assert (pool_step s s1) as Hps by (split; [done|naive_solver|done]).
  rewrite (proj2 (Z.eqb_neq new 0)) by done. pose proof (fault_pool psz root A s s1 Hok Hps) as Hfs.
  set (pas := λ i, match as_L A !! (hp va ++ [i]) with Some (pa, _) => pa | None => 0 end).
  eapply (collapse_tail A s1 va new flags l0 pas); try done; [apply Hfs|..].
  - intros i Hi. unfold pas. by destruct (Hall i Hi) as [pa ->].
  - intros p Hp'. pose proof (Hin p Hp') as Hpf. split_and!.
    + eapply pa_free_managed; [apply Hok|done].
    + naive_solver.
    + intros q Hq. by apply (pt_page _ _ _ _ Hp q p).
    + intros q Hq. by apply (as_page _ _ _ Hok q p).
  - intros s' Hok' Hview Hk. exists (collapsed A va new flags). split_and!; [done| | |by intros; apply collapsed_huge|right].
    + intros va' Hva'. rewrite Hview by done. by apply Hfs.
    + intros a Ha. destruct (fs_kernel _ _ _ _ _ _ Hfs a Ha) as [Ha1 <-]. apply Hk; [done|].
      intros (p & Hp' & Hb). destruct Ha as [Ha _]. apply Ha. exists p. split; [by apply Hin|done].
    + split_and!; [done| |cbn; rewrite lookup_insert_eq; eauto].
      destruct (as_L A !! hp va) as [[pa f]|] eqn:EL; [|done].
      destruct (tr_leaf _ _ _ (pt_tree _ _ _ _ Hp) _ _ _ EL) as (HT & _). congruence.
Qed.
End VmCollapse.
