(* ===== verification/VmProps.v ===== *)
(** * Virtual memory: what the operations promise

    The properties of [kernel/vm.c], stated on the translation a page table
    defines and on the memory a process sees. *)

From S2P Require Import Prelude Mem Kstring Layout PageAlloc Vm VmInv VmMap VmUser VmCopy VmCollapse Buddy Kalloc KallocCorrect KallocSpec.

Section VmProps.
Context {S : Type} {PO : PageAllocOps S} {PS : PageAllocSpec S}.
Implicit Types (s : S).

(** ** An empty address space *)

Definition empty_as (root : Z) : aspace := {| as_T := {[ [] := root ]}; as_L := ∅; as_D := ∅ |}.

Lemma empty_ok root s :
  pa_ok s → pa_managed root → ¬ pa_free s root → (∀ a, root ≤ a < root + 4096 → ldb (pa_mem s) a = 0) →
  as_ok root (empty_as root) s.
Proof.
  intros Hok Hm Hf Hz. split; cbn [as_T as_L as_D empty_as]; [done| |..].
  - split; [split|..].
    + apply lookup_singleton_eq.
    + intros q pa [<- <-]%lookup_singleton_Some. split; [cbn; lia|done].
    + intros q i pa [E _]%lookup_singleton_Some. by destruct q.
    + intros q q' pa [<- _]%lookup_singleton_Some [<- _]%lookup_singleton_Some. done.
    + intros q pa f HL. by rewrite lookup_empty in HL.
    + intros q pa [<- <-]%lookup_singleton_Some. done.
    + intros q pa i [<- <-]%lookup_singleton_Some Hi. cbn [app]. rewrite entry_none; [|by rewrite lookup_singleton_ne|done].
      apply (ldn_zero 8). intros b Hb. apply Hz. unfold idx in Hi. lia.
  - intros q pa f HL. done.
  - intros q p [Hd _]. cbn in Hd. set_solver.
  - intros q pa f Hd. cbn in Hd. set_solver.
  - intros q q' p [Hd _]. cbn in Hd. set_solver.
Qed.

Lemma uvmcreate_spec s :
  pa_ok s →
  wp uvmcreate (λ r s', (r = 0 ∧ s' = s ∧ ∀ p, ¬ pa_free s p) ∨
    (as_ok r (empty_as r) s' ∧ pa_free s r ∧ pool_step s s')) s.
Proof.
  intros Hok. unfold uvmcreate. wp_step. apply page_alloc; [done|..].
  - intros Hn. rewrite Z.eqb_refl, wp_ret. by left.
  - intros p s1 Hf Hps Hfr Hnz. rewrite (proj2 (Z.eqb_neq _ _) Hnz). wp_step. rewrite wp_kmemset, wp_ret. right.
    destruct (zero_page s s1 p Hok Hf Hps Hfr) as (Hps2 & Hf2 & Hz). split_and!; [|done..].
    apply empty_ok; [apply Hps2|by eapply pa_free_managed|done|done].
Qed.

(** ** Properties *)

(** C31: [mappages] either maps the whole range, after which the range
    translates to the given physical range with the given permissions, or
    fails because no page is free for a table, after which a first part of
    the range is mapped; every other address keeps its translation, and
    besides page tables and free pages no memory is written. *)
Theorem mappages_correct root T L s va pa perm (n : nat) :
  pa_ok s → pt_ok root T L s → (0 < n)%nat → 0 ≤ va → va mod PGSIZE = 0 →
  va + Z.of_nat n * PGSIZE ≤ MAXVA → pa_ok12 pa → pa + Z.of_nat n * PGSIZE ≤ 2 ^ 56 →
  leaf_flags (Z.lor perm PTE_V) → (∀ a, va ≤ a < va + Z.of_nat n * PGSIZE → translate L a = None) →
  wp (mappages root va (Z.of_nat n * PGSIZE) pa perm) (λ r s', ∃ T' L' (k : nat),
    pt_ok root T' L' s' ∧ vm_frame T s T' s' ∧
    (∀ a, 0 ≤ a < MAXVA → translate L' a =
       if decide (va ≤ a < va + Z.of_nat k * PGSIZE) then Some (pa + (a - va), Z.lor perm PTE_V) else translate L a) ∧
    (r = 0 ∧ k = n ∨ r = -1 ∧ (k < n)%nat ∧ ∀ p, ¬ pa_free s' p)) s.
Proof.
  intros Hok Hp Hn Hva Hm Hend Hpa Hpend Hf Hun. change (2 ^ 56) with 72057594037927936 in Hpend.
  wp_apply mappages_spec; [done..|]. intros r s' (T' & k & Hp' & Hfr & Hr). exists T', (map_range L 0 va pa (Z.lor perm PTE_V) k), k.
  split_and!; [done|done| |done]. intros a Ha. change PGSIZE with (lsize 0) in *.
  rewrite translate_map_range; [done|by left|done|done| |done|done].
  assert (Z.of_nat k * lsize 0 ≤ Z.of_nat n * lsize 0); [|lia]. apply Z.mul_le_mono_nonneg_r; [done|lia].
Qed.


(** C29: [copyout] either returns 0 with the kernel's bytes in the process's
    memory at the given range, or returns -1 with a first part of them there,
    because the next address is not the process's or not writable, or at most
    three pages are free; every other byte the process sees and all kernel memory are
    unchanged. *)
Theorem copyout_correct psz root A s dstva src len :
  psz ≤ MAXVA → as_ok root A s → 0 ≤ dstva < 2 ^ 64 → 0 ≤ len → (∀ a, src ≤ a < src + len → kbyte A s a) →
  wp (copyout psz root root dstva src len) (λ r s', ∃ A' n,
    as_ok root A' s' ∧ 0 ≤ n ≤ len ∧
    (∀ va, 0 ≤ va < MAXVA → uview psz A' s' va =
       if decide (dstva ≤ va < dstva + n) then Some (ldb (pa_mem s) (src + (va - dstva))) else uview psz A s va) ∧
    (∀ a, kbyte A s a → ldb (pa_mem s') a = ldb (pa_mem s) a) ∧
    ((r = 0 ∧ n = len) ∨
     (r = -1 ∧ n < len ∧ (no_view psz A s (dstva + n) s' ∨ read_only A' (dstva + n))))) s.
Proof.
  intros Hpsz Hok Hdst Hlen Hsrc. wp_apply copyout_spec; [done..|]. intros r s' (A' & n & [H1 H2 H3 H4 H5] & Hr).
  exists A', n. split_and!; [done|lia|lia|done| |done]. intros a Ha. by apply H5.
Qed.

(** C4: Collapsing 512 small pages into a huge one, or not doing so, cannot be
    seen: afterwards the page table is well formed, every byte of the
    process's memory reads the same, and no kernel memory has changed.  When it
    reports 1 the range is one huge page. *)
Theorem vm_try_collapse_transparent psz root A s va :
  as_ok root A s → 0 ≤ va < MAXVA →
  wp (vm_try_collapse root psz true va) (λ r s', ∃ A', as_ok root A' s' ∧
    (∀ va', 0 ≤ va' < MAXVA → uview psz A' s' va' = uview psz A s va') ∧
    (∀ a, kbyte A s a → kbyte A' s' a ∧ ldb (pa_mem s') a = ldb (pa_mem s) a) ∧
    ((r = 0 ∧ A' = A ∧ s' = s) ∨ (r = 1 ∧ is_Some (as_L A' !! [PX 2 va; PX 1 va])))) s.
Proof.
  intros Hok Hva. wp_apply vm_try_collapse_full; [done..|]. intros r s' (A' & Hok' & Hview & Hk & _ & Hr). exists A'.
  split_and!; [done..|]. destruct Hr as [(-> & -> & -> & _)|(-> & _ & Hs)]; [by left|by right].
Qed.
End VmProps.

(** ** Witnesses *)

Module VmWitness.
Import KallocWitness.

#[local] Instance vops : PageAllocOps kmem := kmem_ops kend0.
#[local] Instance vspec : PageAllocSpec kmem := kmem_spec kend0 (proj1 kend0_ok).
#[local] Opaque kinit kalloc kfree kalloc_huge kfree_huge.

(** An empty address space after boot. *)
Lemma space : ∃ root (s : kmem), as_ok root (empty_as root) s.
Proof.
  destruct (wp_Ok _ _ _ (kinit_idle kend0 boot kend0_ok eq_refl)) as ([] & s & _ & Hid & Hf).
  assert (pa_ok s) as Hok by (split; [exact Hid|intros i Hi; by apply Hf]).
  destruct (wp_Ok _ _ _ (uvmcreate_spec s Hok)) as (r & s1 & _ & [(_ & _ & Hno)|(Has & _)]).
  - destruct (Hno (addr 100)). apply kpage_free_addr. by apply Hf.
  - exists r, s1. exact Has.
Qed.

(** Bytes of the kernel image. *)
Lemma image_byte root (s : kmem) a :
  as_ok root (empty_as root) s → KERNBASE ≤ a < KERNBASE + 16 → kbyte (empty_as root) s a.
Proof.
  intros Hok Ha. assert (∀ p, pa_managed p → ¬ (p ≤ a < p + PGSIZE)) as Hnm.
  { intros p (i & _ & _ & Hk) Hb. unfold kend0, KERNBASE, PGSIZE in *. lia. }
  split_and!.
  - intros (p & Hf & Hb). apply (Hnm p); [|done]. eapply pa_free_managed; [apply Hok|exact Hf].
  - intros (q & p & Hq & Hb). apply (Hnm p); [|done]. by apply (pt_page _ _ _ _ (as_pt _ _ _ Hok) q p).
  - intros (q & p & [Hd _] & _). cbn in Hd. set_solver.
Qed.

Lemma mappages_correct_witness :
  ∃ root (s : kmem), as_ok root (empty_as root) s ∧
    wp (mappages root 8192 (2 * PGSIZE) 0x80000000 PTE_R) (λ r s', r = 0 → ∃ L', translate L' 12289 = Some (0x80001001, 3)) s.
Proof.
  destruct space as (root & s & Hok). exists root, s. split; [exact Hok|]. eapply wp_mono.
  - apply (mappages_correct root _ _ s 8192 0x80000000 PTE_R 2 (as_pool _ _ _ Hok) (as_pt _ _ _ Hok)); try done. lia.
  - cbn beta. intros r s' (T' & L' & k & _ & _ & Ht & Hr) ->. exists L'. rewrite Ht by done.
    destruct Hr as [[_ ->]|(? & _)]; done.
Defined.


Lemma copyout_correct_witness :
  ∃ root (s : kmem), as_ok root (empty_as root) s ∧
    wp (copyout 4096 root root 100 KERNBASE 16) (λ r s', r = 0 →
      ∃ A', uview 4096 A' s' 103 = Some (ldb (pa_mem s) (KERNBASE + 3))) s.
Proof.
  destruct space as (root & s & Hok). exists root, s. split; [exact Hok|]. eapply wp_mono.
  - apply (copyout_correct 4096 root _ s 100 KERNBASE 16 ltac:(done) Hok); [done|done|].
    intros a Ha. by apply image_byte.
  - cbn beta. intros r s' (A' & n & _ & _ & Hv & _ & [[_ ->]|[-> _]]); [|done]. intros _. exists A'.
    rewrite Hv by done. done.
Defined.

Lemma vm_try_collapse_transparent_witness :
  ∃ root (s : kmem), as_ok root (empty_as root) s ∧
    wp (vm_try_collapse root 4194304 true 2097152) (λ _ s', ∃ A', as_ok root A' s') s.
Proof.
  destruct space as (root & s & Hok). exists root, s. split; [exact Hok|]. eapply wp_mono.
  - apply (vm_try_collapse_transparent 4194304 root _ s 2097152 Hok). done.
  - cbn beta. intros r s' (A' & HA & _). by exists A'.
Defined.
End VmWitness.
