(* ===== verification/Ring.v ===== *)
(** * Byte rings with wrapping counters

    Pipes and the console keep bytes in a ring indexed by 32-bit counters that
    only grow, taken modulo the size.  [rq] is the list of bytes between two
    counters; the size divides 2^32, so the counters may wrap. *)

From S2P Require Import Prelude Mem Layout.

Lemma u32_add x y : u32 (u32 x + y) = u32 (x + y).
Proof. unfold u32. apply Zplus_mod_idemp_l. Qed.

Lemma u32_sub_l x y : u32 (u32 x - y) = u32 (x - y).
Proof. unfold u32. apply Zminus_mod_idemp_l. Qed.

Lemma u32_sub_r x y : u32 (x - u32 y) = u32 (x - y).
Proof. unfold u32. apply Zminus_mod_idemp_r. Qed.

Lemma u32_bound x : 0 ≤ u32 x < 4294967296.
Proof. unfold u32. apply Z.mod_pos_bound. lia. Qed.

Lemma u32_eq x y : 0 ≤ x < 4294967296 → 0 ≤ y < 4294967296 → u32 (y - x) = 0 → x = y.
Proof.
  intros Hx Hy H. unfold u32 in H. apply Z.mod_divide in H as [k Hk]; [|lia]. nia.
Qed.

Section Ring.
Context (size : Z) (Hsize : 0 < size) (Hdiv : (size | 4294967296)).

Definition rq (data : gmap Z Z) (lo hi : Z) : list Z :=
  (λ k, default 0 (data !! ((lo + Z.of_nat k) mod size))) <$> seq 0 (Z.to_nat (u32 (hi - lo))).

Lemma rq_length data lo hi : Z.of_nat (length (rq data lo hi)) = u32 (hi - lo).
Proof. unfold rq. rewrite length_fmap, length_seq. pose proof (u32_bound (hi - lo)). lia. Qed.

Lemma u32_idx x k : (u32 x + k) mod size = (x + k) mod size.
Proof.
  destruct Hdiv as [q Hq]. unfold u32. rewrite (Z.div_mod x 4294967296) at 2 by lia.
  replace (4294967296 * (x / 4294967296) + x mod 4294967296 + k)
    with (x mod 4294967296 + k + (q * (x / 4294967296)) * size) by (rewrite Hq; lia).
  by rewrite Z.mod_add by lia.
Qed.

Lemma hi_idx lo hi : hi mod size = (lo + u32 (hi - lo)) mod size.
Proof. rewrite Z.add_comm, u32_idx. f_equal. lia. Qed.

Lemma rq_lookup data lo hi k :
  (k < length (rq data lo hi))%nat →
  rq data lo hi !! k = Some (default 0 (data !! ((lo + Z.of_nat k) mod size))).
Proof.
  intros Hk. unfold rq in *. rewrite length_fmap, length_seq in Hk.
  rewrite list_lookup_fmap, lookup_seq_lt by done. done.
Qed.

(** A byte in: [data[hi++ % size] = ch]. *)
Lemma rq_push data lo hi ch :
  u32 (hi - lo) < size → size < 4294967296 →
  rq (<[hi mod size := ch]> data) lo (u32 (hi + 1)) = rq data lo hi ++ [ch] ∧
  u32 (u32 (hi + 1) - lo) = u32 (hi - lo) + 1.
Proof.
  intros Hlt Hs. pose proof (u32_bound (hi - lo)) as Hb.
  assert (u32 (u32 (hi + 1) - lo) = u32 (hi - lo) + 1) as Hlen.
  { rewrite u32_sub_l. replace (hi + 1 - lo) with (hi - lo + 1) by lia.
    rewrite <-u32_add, u32_small; lia. }
  split; [|done]. unfold rq. rewrite Hlen.
  replace (Z.to_nat (u32 (hi - lo) + 1)) with (S (Z.to_nat (u32 (hi - lo)))) by lia.
  rewrite seq_S, fmap_app. cbn [fmap list_fmap Nat.add]. f_equal.
  - apply list_fmap_ext. intros i k Hk. apply lookup_seq in Hk as [-> Hk].
    rewrite lookup_insert_ne; [done|]. rewrite (hi_idx lo). cbn [Nat.add]. intros E.
    apply (f_equal (λ x, (x - lo) mod size)) in E. rewrite !Zminus_mod_idemp_l in E.
    replace (lo + u32 (hi - lo) - lo) with (u32 (hi - lo)) in E by lia.
    replace (lo + Z.of_nat i - lo) with (Z.of_nat i) in E by lia.
    rewrite !Z.mod_small in E by lia. lia.
  - rewrite Z2Nat.id, <-hi_idx, lookup_insert_eq by lia. done.
Qed.

(** A byte out: [data[lo++ % size]]. *)
Lemma rq_pop data lo hi ch q :
  rq data lo hi = ch :: q →
  rq data (u32 (lo + 1)) hi = q ∧ default 0 (data !! (lo mod size)) = ch ∧
  u32 (hi - u32 (lo + 1)) = u32 (hi - lo) - 1.
Proof.
  intros Hq. pose proof (rq_length data lo hi) as Hlen. rewrite Hq in Hlen. cbn [length] in Hlen.
  pose proof (u32_bound (hi - lo)) as Hb.
  assert (u32 (hi - u32 (lo + 1)) = u32 (hi - lo) - 1) as Hlen'.
  { rewrite u32_sub_r. replace (hi - (lo + 1)) with (hi - lo + -1) by lia.
    rewrite <-u32_add, u32_small; lia. }
  assert (rq data lo hi = default 0 (data !! (lo mod size)) :: rq data (u32 (lo + 1)) hi) as Hq'.
  { unfold rq. rewrite Hlen'. replace (Z.to_nat (u32 (hi - lo))) with (S (Z.to_nat (u32 (hi - lo) - 1))) by lia.
    cbn [seq fmap list_fmap]. rewrite Z.add_0_r. f_equal. rewrite <-seq_shift, <-list_fmap_compose.
    apply list_fmap_ext. intros i k _. unfold compose. rewrite u32_idx. do 3 f_equal. lia. }
  rewrite Hq in Hq'. by injection Hq' as Hc Hq'.
Qed.

(** The last byte dropped: [hi--]. *)
Lemma rq_unpush data lo hi ch q :
  rq data lo hi = q ++ [ch] →
  rq data lo (u32 (hi - 1)) = q ∧ default 0 (data !! (u32 (hi - 1) mod size)) = ch ∧
  u32 (u32 (hi - 1) - lo) = u32 (hi - lo) - 1.
Proof.
  intros Hq. pose proof (rq_length data lo hi) as Hlen. rewrite Hq, length_app in Hlen. cbn [length] in Hlen.
  pose proof (u32_bound (hi - lo)) as Hb.
  assert (u32 (u32 (hi - 1) - lo) = u32 (hi - lo) - 1) as Hlen'.
  { rewrite u32_sub_l. replace (hi - 1 - lo) with (hi - lo + -1) by lia.
    rewrite <-u32_add, u32_small; lia. }
  assert (rq data lo hi = rq data lo (u32 (hi - 1)) ++ [default 0 (data !! (u32 (hi - 1) mod size))]) as Hq'.
  { rewrite (hi_idx lo (u32 (hi - 1))). unfold rq at 1 2. rewrite Hlen'.
    replace (Z.to_nat (u32 (hi - lo))) with (S (Z.to_nat (u32 (hi - lo) - 1))) by lia.
    rewrite seq_S, fmap_app. cbn [fmap list_fmap Nat.add]. f_equal. rewrite Z2Nat.id by lia. done. }
  rewrite Hq in Hq'. apply app_inj_tail in Hq' as [-> ->]. done.
Qed.

(** The list up to a counter in between. *)
Lemma rq_take data lo mid hi :
  u32 (mid - lo) ≤ u32 (hi - lo) → rq data lo mid = take (Z.to_nat (u32 (mid - lo))) (rq data lo hi).
Proof.
  intros Hle. pose proof (u32_bound (mid - lo)). pose proof (u32_bound (hi - lo)). unfold rq.
  rewrite <-fmap_take. f_equal. rewrite take_seq. f_equal. lia.
Qed.
End Ring.
