(* ===== verification/Pipe.v ===== *)
(** * Pipes: [kernel/pipe.c]

    A pipe is a ring of [PIPESIZE] bytes with two counters that only grow and
    wrap at 32 bits.  A reader or writer runs under the pipe's lock until it
    returns or sleeps; other processes run only while it sleeps.  Such a run is
    one step here, so that every interleaving of readers and writers is a
    sequence of steps.  The memory of the calling process is an argument:
    [uok] says which of its addresses [copyin] and [copyout] accept. *)

From S2P Require Import Prelude Mem Layout Ring.

Definition PIPESIZE : Z := 512.

Record pipe := Pipe {
  p_lock : bool;
  p_data : gmap Z Z;
  p_nread : Z;
  p_nwrite : Z;
  p_readopen : bool;
  p_writeopen : bool
}.

Definition set_p_lock (b : bool) (p : pipe) : pipe :=
  Pipe b (p_data p) (p_nread p) (p_nwrite p) (p_readopen p) (p_writeopen p).
Definition set_p_data (d : gmap Z Z) (p : pipe) : pipe :=
  Pipe (p_lock p) d (p_nread p) (p_nwrite p) (p_readopen p) (p_writeopen p).
Definition set_p_nread (n : Z) (p : pipe) : pipe :=
  Pipe (p_lock p) (p_data p) n (p_nwrite p) (p_readopen p) (p_writeopen p).
Definition set_p_nwrite (n : Z) (p : pipe) : pipe :=
  Pipe (p_lock p) (p_data p) (p_nread p) n (p_readopen p) (p_writeopen p).
Definition set_readopen (b : bool) (p : pipe) : pipe :=
  Pipe (p_lock p) (p_data p) (p_nread p) (p_nwrite p) b (p_writeopen p).
Definition set_writeopen (b : bool) (p : pipe) : pipe :=
  Pipe (p_lock p) (p_data p) (p_nread p) (p_nwrite p) (p_readopen p) b.

(** The initialisation in [pipealloc]. *)
Definition pipe_init : pipe := Pipe false ∅ 0 0 true true.

(** How a run ends: with the value of the call, or asleep after [i] bytes. *)
Inductive outcome := Done (r : Z) | Sleep (i : Z).

Section Pipe.
Context (uok : Z → bool).    (* addresses of the process that are mapped *)

Definition copyin1 (um : mem) (a : Z) : option Z := if uok a then Some (ldb um a) else None.
Definition copyout1 (um : mem) (a ch : Z) : option mem := if uok a then Some (stb um a ch) else None.

(** [pipewrite] from the test of its loop with [i] bytes done, the lock just
    taken, to its return or to its next [sleep] (which gives the lock up).
    [killed i] is what [killed(pr)] says with [i] bytes done. *)
Definition pipewrite (um : mem) (killed : Z → bool) (addr n i : Z) : M pipe outcome :=
  acquire p_lock set_p_lock;;
  r ← loop (Z.to_nat n + 1) (λ i,
    if negb (i <? n) then mret (inr (Done i)) else
    gets (λ p, negb (p_readopen p) || killed i) ≫= λ c : bool,
    if c then mret (inr (Done (-1))) else
    gets (λ p, p_nwrite p =? u32 (p_nread p + PIPESIZE)) ≫= λ full : bool,
    if full then mret (inr (Sleep i)) else
    match copyin1 um (u64 (addr + i)) with
    | None => mret (inr (Done i))
    | Some ch =>
        modify (λ p, set_p_data (<[p_nwrite p mod PIPESIZE := ch]> (p_data p)) p);;
        modify (λ p, set_p_nwrite (u32 (p_nwrite p + 1)) p);;
        mret (inl (i + 1))
    end) i;
  release p_lock set_p_lock;;
  mret r.

(** [piperead]; [Sleep 0] while the pipe is empty. *)
Definition piperead (um : mem) (killed : bool) (addr n : Z) : M pipe (outcome * mem) :=
  acquire p_lock set_p_lock;;
  gets (λ p, (p_nread p =? p_nwrite p) && p_writeopen p) ≫= λ wait : bool,
  r ← (if wait then mret (if killed then Done (-1) else Sleep 0, um) else
       loop (Z.to_nat n + 1) (λ x : Z * mem,
         let (i, um) := x in
         if negb (i <? n) then mret (inr (Done i, um)) else
         gets (λ p, p_nread p =? p_nwrite p) ≫= λ empty : bool,
         if empty then mret (inr (Done i, um)) else
         ch ← gets (λ p, default 0 (p_data p !! (p_nread p mod PIPESIZE)));
         modify (λ p, set_p_nread (u32 (p_nread p + 1)) p);;
         match copyout1 um (u64 (addr + i)) ch with
         | None => mret (inr (Done i, um))
         | Some um' => mret (inl (i + 1, um'))
         end) (0, um));
  release p_lock set_p_lock;;
  mret r.

(** [pipeclose]; the result says whether the pipe is freed. *)
Definition pipeclose (writable : bool) : M pipe bool :=
  acquire p_lock set_p_lock;;
  (if writable then modify (set_writeopen false) else modify (set_readopen false));;
  gets (λ p, negb (p_readopen p) && negb (p_writeopen p)) ≫= λ free : bool,
  release p_lock set_p_lock;;
  mret free.
End Pipe.

(** ** The queue a pipe holds *)

Definition queue (p : pipe) : list Z := rq PIPESIZE (p_data p) (p_nread p) (p_nwrite p).

Record pipe_ok (p : pipe) : Prop := {
  po_nread : 0 ≤ p_nread p < 4294967296;
  po_nwrite : 0 ≤ p_nwrite p < 4294967296;
  po_size : u32 (p_nwrite p - p_nread p) ≤ PIPESIZE
}.

Lemma pipesize_pos : 0 < PIPESIZE.
Proof. unfold PIPESIZE. lia. Qed.
Lemma pipesize_div : (PIPESIZE | 4294967296).
Proof. by exists 8388608. Qed.

Lemma queue_length p : Z.of_nat (length (queue p)) = u32 (p_nwrite p - p_nread p).
Proof. apply rq_length. Qed.

(** The counters are equal as 32-bit numbers exactly when the queue is empty,
    and [PIPESIZE] apart when it is full. *)
Lemma empty_test p : pipe_ok p → (p_nread p =? p_nwrite p) = bool_decide (queue p = []).
Proof.
  intros [Hr Hw _]. pose proof (queue_length p) as Hl.
  destruct (Z.eqb_spec (p_nread p) (p_nwrite p)) as [E|E]; symmetry.
  - apply bool_decide_true. rewrite E, Z.sub_diag in Hl. apply length_zero_iff_nil. unfold u32 in Hl.
    rewrite Z.mod_0_l in Hl; lia.
  - apply bool_decide_false. intros Hq. rewrite Hq in Hl. cbn in Hl. by apply E, u32_eq.
Qed.

Lemma full_test p :
  pipe_ok p → (p_nwrite p =? u32 (p_nread p + PIPESIZE)) = (Z.of_nat (length (queue p)) =? PIPESIZE).
Proof.
  intros [Hr Hw Hs]. rewrite queue_length. unfold u32, PIPESIZE in *.
  apply Bool.eq_iff_eq_true. rewrite !Z.eqb_eq. split; intros E.
  - rewrite E. rewrite Zminus_mod_idemp_l. rewrite Z.mod_small; lia.
  - rewrite <-E. rewrite Zplus_mod_idemp_r. rewrite Z.mod_small; lia.
Qed.

(** One byte in. *)
Definition push (ch : Z) (p : pipe) : pipe :=
  set_p_nwrite (u32 (p_nwrite p + 1)) (set_p_data (<[p_nwrite p mod PIPESIZE := ch]> (p_data p)) p).

Lemma push_ok ch p :
  Z.of_nat (length (queue p)) < PIPESIZE → pipe_ok p →
  pipe_ok (push ch p) ∧ queue (push ch p) = queue p ++ [ch].
Proof.
  intros Hlt [Hr Hw Hs]. rewrite queue_length in Hlt.
  destruct (rq_push PIPESIZE pipesize_pos pipesize_div (p_data p) (p_nread p) (p_nwrite p) ch Hlt) as [Hq Hlen].
  { unfold PIPESIZE. lia. }
  split; [|exact Hq]. split; cbn; [done|apply u32_bound|]. rewrite Hlen. lia.
Qed.

(** One byte out. *)
Definition pop (p : pipe) : pipe := set_p_nread (u32 (p_nread p + 1)) p.

Lemma pop_ok ch q p :
  queue p = ch :: q → pipe_ok p →
  pipe_ok (pop p) ∧ queue (pop p) = q ∧ default 0 (p_data p !! (p_nread p mod PIPESIZE)) = ch.
Proof.
  intros Hq [Hr Hw Hs].
  destruct (rq_pop PIPESIZE pipesize_pos pipesize_div (p_data p) (p_nread p) (p_nwrite p) ch q Hq) as (Hq' & Hc & Hlen).
  split_and!; [|done|done]. split; cbn; [apply u32_bound|done|]. rewrite Hlen. lia.
Qed.

(** ** What a run does *)

(** [k] bytes of the process from address [addr + i]. *)
Definition ubytes (um : mem) (addr i : Z) (k : nat) : list Z :=
  (λ j, ldb um (u64 (addr + (i + Z.of_nat j)))) <$> seq 0 k.

Lemma ubytes_S um addr i k : ubytes um addr i (S k) = ubytes um addr i k ++ [ldb um (u64 (addr + (i + Z.of_nat k)))].
Proof. unfold ubytes. by rewrite seq_S, fmap_app. Qed.

(** The bytes [l] stored from address [addr + i]. *)
Fixpoint ustore (um : mem) (addr i : Z) (l : list Z) : mem :=
  match l with
  | [] => um
  | ch :: l' => ustore (stb um (u64 (addr + i)) ch) addr (i + 1) l'
  end.

Lemma ustore_snoc um addr i l ch :
  ustore um addr i (l ++ [ch]) = stb (ustore um addr i l) (u64 (addr + (i + Z.of_nat (length l)))) ch.
Proof.
  revert um i. induction l as [|c l IH]; intros um i; cbn [app ustore length]; [by rewrite Z.add_0_r|].
  rewrite IH. do 3 f_equal. lia.
Qed.

Section Runs.
Context (uok : Z → bool).

(** What the writer put in: the queue grows by the bytes [w] of the caller's
    memory; the writer sleeps only with the pipe full, and returns early only
    at a bad address or with -1. *)
Definition write_post (p : pipe) (um : mem) (killed : Z → bool) (addr n i : Z) (o : outcome) (p' : pipe) : Prop :=
  ∃ k : nat, i + Z.of_nat k ≤ n ∧ queue p' = queue p ++ ubytes um addr i k ∧
    (∀ j, i ≤ j < i + Z.of_nat k → uok (u64 (addr + j)) = true) ∧
    match o with
    | Sleep j => j = i + Z.of_nat k ∧ j < n ∧ Z.of_nat (length (queue p')) = PIPESIZE
    | Done r => (r = i + Z.of_nat k ∧ (r = n ∨ uok (u64 (addr + r)) = false)) ∨
                (r = -1 ∧ (p_readopen p = false ∨ killed (i + Z.of_nat k) = true))
    end.

Lemma pipewrite_spec p um killed addr n i :
  pipe_ok p → p_lock p = false → 0 ≤ i ≤ n →
  wp (pipewrite uok um killed addr n i) (λ o p', pipe_ok p' ∧ p_lock p' = false ∧
    p_readopen p' = p_readopen p ∧ p_writeopen p' = p_writeopen p ∧
    write_post p um killed addr n i o p') p.
Proof.
  intros Hok Hl Hi. unfold pipewrite. wp_simpl.
  apply wp_loop with (meas := λ j _, Z.to_nat (n - j)) (I := λ j p', ∃ k : nat, j = i + Z.of_nat k ∧ j ≤ n ∧
    pipe_ok p' ∧ p_lock p' = true ∧ p_readopen p' = p_readopen p ∧ p_writeopen p' = p_writeopen p ∧
    queue p' = queue p ++ ubytes um addr i k ∧ ∀ x, i ≤ x < j → uok (u64 (addr + x)) = true).
  - exists 0%nat. rewrite app_nil_r. destruct Hok. split_and!; try done; lia.
  - lia.
  - clear Hok Hl. intros j p1 (k & -> & Hjn & Hok & Hl & Hro & Hwo & Hq & Hu). set (j := i + Z.of_nat k) in *.
    assert (∀ o, match o with
      | Sleep j' => j' = j ∧ j' < n ∧ Z.of_nat (length (queue p1)) = PIPESIZE
      | Done r => (r = j ∧ (r = n ∨ uok (u64 (addr + r)) = false)) ∨
                  (r = -1 ∧ (p_readopen p = false ∨ killed j = true))
      end → wp (release p_lock set_p_lock;; mret o) (λ o p', pipe_ok p' ∧ p_lock p' = false ∧
        p_readopen p' = p_readopen p ∧ p_writeopen p' = p_writeopen p ∧
        write_post p um killed addr n i o p') p1) as Hend.
    { intros o Ho. wp_simpl. split_and!; try done; [by destruct Hok|]. exists k. split_and!; done. }
    destruct (Z.ltb_spec j n) as [Hjl|Hjl]; cbn [negb]; [|rewrite wp_ret; apply Hend; left; split; [done|left; lia]].
    wp_step. wp_step. rewrite Hro.
    destruct (negb (p_readopen p) || killed j) eqn:Ek.
    { rewrite wp_ret. apply Hend. right. split; [done|]. apply orb_true_iff in Ek as [Ek|Ek]; [left|by right].
      by apply negb_true_iff. }
    wp_step. wp_step. rewrite full_test by done. destruct (Z.eqb_spec (Z.of_nat (length (queue p1))) PIPESIZE) as [Hf|Hf].
    { rewrite wp_ret. apply Hend. done. }
    unfold copyin1. destruct (uok (u64 (addr + j))) eqn:Eu; [|rewrite wp_ret; apply Hend; left; split; [done|by right]].
    wp_simpl. destruct (push_ok (ldb um (u64 (addr + j))) p1) as [Hok' Hq']; [|done|].
    { destruct Hok as [_ _ Hs]. rewrite <-queue_length in Hs. lia. }
    split; [|lia]. exists (S k). split_and!; try done; [lia..| |].
    + change (queue (push (ldb um (u64 (addr + j))) p1) = queue p ++ ubytes um addr i (S k)).
      rewrite Hq', Hq, ubytes_S, app_assoc. done.
    + intros x Hx. destruct (decide (x = j)) as [->|]; [done|]. apply Hu. lia.
Qed.

(** What the reader took: [r], the front of the queue.  The bytes are in the
    caller's memory in order; if an address is bad the byte for it is lost. *)
Definition read_post (p : pipe) (um : mem) (killed : bool) (addr n : Z) (o : outcome) (um' : mem) (p' : pipe) : Prop :=
  ∃ r, queue p = r ++ queue p' ∧
    match o with
    | Sleep j => r = [] ∧ um' = um ∧ queue p = [] ∧ p_writeopen p = true ∧ killed = false
    | Done j => (j = -1 ∧ r = [] ∧ um' = um ∧ killed = true ∧ queue p = []) ∨
        (0 ≤ j ∧ um' = ustore um addr 0 (take (Z.to_nat j) r) ∧
         ((Z.of_nat (length r) = j ∧ j ≤ Z.max 0 n ∧ (j = Z.max 0 n ∨ queue p' = [])) ∨
          (Z.of_nat (length r) = j + 1 ∧ j < n ∧ uok (u64 (addr + j)) = false)))
    end.

Lemma piperead_spec p um killed addr n :
  pipe_ok p → p_lock p = false →
  wp (piperead uok um killed addr n) (λ x p', pipe_ok p' ∧ p_lock p' = false ∧
    p_readopen p' = p_readopen p ∧ p_writeopen p' = p_writeopen p ∧
    read_post p um killed addr n x.1 x.2 p') p.
Proof.
  intros Hok Hl. unfold piperead. wp_simpl. cbn [p_nread p_nwrite p_writeopen set_p_lock].
  destruct ((p_nread p =? p_nwrite p) && p_writeopen p) eqn:Ew.
  { apply andb_true_iff in Ew as [Ee Ew]. rewrite (empty_test _ Hok) in Ee. apply bool_decide_eq_true in Ee.
    wp_simpl. split_and!; try done; [by destruct Hok|]. exists []. split; [done|].
    destruct killed; cbn; [left|]; done. }
  apply wp_loop with (meas := λ x _, Z.to_nat (n - x.1)) (I := λ x p', ∃ r, 0 ≤ x.1 ≤ Z.max 0 n ∧
    pipe_ok p' ∧ p_lock p' = true ∧ p_readopen p' = p_readopen p ∧ p_writeopen p' = p_writeopen p ∧
    queue p = r ++ queue p' ∧ Z.of_nat (length r) = x.1 ∧ x.2 = ustore um addr 0 r).
  - exists []. destruct Hok. split_and!; try done; cbn; lia.
  - cbn. lia.
  - clear Hok Hl Ew. intros [i um1] p1 (r & Hi & Hok & Hl & Hro & Hwo & Hq & Hlen & Hum). cbn [fst snd] in *.
    assert (∀ j um2 r2, Z.of_nat (length r2) = j → um2 = um1 → j = i → r2 = r → (j = Z.max 0 n ∨ queue p1 = []) →
      wp (release p_lock set_p_lock;; mret (Done j, um2)) (λ x p', pipe_ok p' ∧ p_lock p' = false ∧
        p_readopen p' = p_readopen p ∧ p_writeopen p' = p_writeopen p ∧
        read_post p um killed addr n x.1 x.2 p') p1) as Hend.
    { intros j um2 r2 Hr2 -> -> -> Hj. wp_simpl. split_and!; try done; [by destruct Hok|]. exists r.
      split; [done|]. right. cbn. split_and!; [lia| |left; split_and!; [done|lia|done]].
      rewrite take_ge by lia. done. }
    destruct (Z.ltb_spec i n) as [Hin|Hin]; cbn [negb]; [|rewrite wp_ret; apply (Hend _ _ r); try done; left; lia].
    wp_step. wp_step. rewrite empty_test by done. case_bool_decide as He; [rewrite wp_ret; apply (Hend _ _ r); auto|].
    destruct (queue p1) as [|ch q] eqn:Eq; [done|]. destruct (pop_ok ch q p1 Eq Hok) as (Hok' & Hq' & Hch).
    wp_simpl. rewrite Hch. unfold copyout1. destruct (uok (u64 (addr + i))) eqn:Eu.
    + wp_simpl. cbn [fst snd]. split; [|lia]. exists (r ++ [ch]). split_and!; try done; [lia..| | |].
      * rewrite Hq, <-app_assoc. cbn. f_equal. by rewrite <-Hq'.
      * rewrite length_app. cbn. lia.
      * rewrite ustore_snoc, Hum, Hlen. done.
    + wp_simpl. split_and!; try done; [by destruct Hok'|]. exists (r ++ [ch]). split.
      * rewrite Hq, <-app_assoc. cbn. f_equal. by rewrite <-Hq'.
      * right. cbn. split_and!; [lia| |right; rewrite length_app; cbn; split_and!; [lia|done|done]].
        rewrite take_app_le, take_ge by lia. done.
Qed.
End Runs.

(** ** Any interleaving of readers and writers *)

Inductive pev :=
| EvWrite (uok : Z → bool) (um : mem) (killed : Z → bool) (addr n i : Z)
| EvRead (uok : Z → bool) (um : mem) (killed : bool) (addr n : Z)
| EvClose (writable : bool).

Inductive pres := ResWrite (o : outcome) | ResRead (o : outcome) (um' : mem) | ResClose (free : bool).

Definition pexec (e : pev) : M pipe pres :=
  match e with
  | EvWrite uok um killed addr n i => o ← pipewrite uok um killed addr n i; mret (ResWrite o)
  | EvRead uok um killed addr n => x ← piperead uok um killed addr n; mret (ResRead x.1 x.2)
  | EvClose w => b ← pipeclose w; mret (ResClose b)
  end.

Fixpoint pruns (es : list pev) : M pipe (list pres) :=
  match es with
  | [] => mret []
  | e :: es' => x ← pexec e; xs ← pruns es'; mret (x :: xs)
  end.

Definition pev_ok (e : pev) : Prop :=
  match e with EvWrite _ _ _ _ n i => 0 ≤ i ≤ n | _ => True end.

(** The bytes a step put in, those it delivered to its caller's memory, and those it
    took out of the ring without delivering them: one, at a bad address. *)
Inductive moved : pev → pres → list Z → list Z → list Z → Prop :=
| moved_write uok um killed addr n i o k :
    (o = Sleep (i + Z.of_nat k) ∨ o = Done (i + Z.of_nat k) ∨ o = Done (-1)) →
    moved (EvWrite uok um killed addr n i) (ResWrite o) (ubytes um addr i k) [] []
| moved_read uok um killed addr n r :
    moved (EvRead uok um killed addr n) (ResRead (Done (Z.of_nat (length r))) (ustore um addr 0 r)) [] r []
| moved_lost uok um killed addr n r ch :
    Z.of_nat (length r) < n → uok (u64 (addr + Z.of_nat (length r))) = false →
    moved (EvRead uok um killed addr n) (ResRead (Done (Z.of_nat (length r))) (ustore um addr 0 r)) [] r [ch]
| moved_none uok um killed addr n o :
    o = Sleep 0 ∨ o = Done (-1) → moved (EvRead uok um killed addr n) (ResRead o um) [] [] []
| moved_close w b : moved (EvClose w) (ResClose b) [] [] [].

(** The bytes written, taken out, and delivered by a sequence of steps. *)
Inductive moves : list pev → list pres → list Z → list Z → list Z → Prop :=
| moves_nil : moves [] [] [] [] []
| moves_cons e es x xs w ws r lost ts ds :
    moved e x w r lost → moves es xs ws ts ds →
    moves (e :: es) (x :: xs) (w ++ ws) (r ++ lost ++ ts) (r ++ ds).

(** A read whose buffer is all in the caller's memory. *)
Definition read_mapped (e : pev) : Prop :=
  match e with
  | EvRead uok _ _ addr n => ∀ j, 0 ≤ j < n → uok (u64 (addr + j)) = true
  | _ => True
  end.

Lemma moves_mapped es xs ws ts ds : moves es xs ws ts ds → Forall read_mapped es → ds = ts.
Proof.
  induction 1 as [|e es x xs w ws r lost ts ds Hm _ IH]; intros Hes; [done|].
  apply Forall_cons in Hes as [He Hes]. rewrite (IH Hes). f_equal. destruct Hm as [| |uok um killed addr n r ch Hn Hu| |]; try done.
  cbn in He. rewrite He in Hu by lia. done.
Qed.

Lemma moves_sublist es xs ws ts ds : moves es xs ws ts ds → ds `sublist_of` ts.
Proof.
  induction 1 as [|e es x xs w ws r lost ts ds Hm _ IH]; [done|]. apply sublist_app; [done|]. by apply sublist_inserts_l.
Qed.

Lemma piperead_sleep0 uok p um killed addr n :
  wp (piperead uok um killed addr n) (λ x _, match x.1 with Sleep j => j = 0 | _ => True end) p ∨
  p_lock p = true.
Proof.
  destruct (p_lock p) eqn:El; [by right|left]. unfold piperead. wp_simpl.
  destruct (_ && _); [wp_simpl; by destruct killed|].
  apply wp_loop with (meas := λ x _, Z.to_nat (n - x.1)) (I := λ x p', p_lock p' = true ∧ 0 ≤ x.1); [done|cbn; lia|].
  intros [i um1] p1 [Hl Hi]. cbn [fst] in *.
  destruct (Z.ltb_spec i n); cbn [negb]; [|by wp_simpl].
  wp_simpl. destruct (_ =? _); [by wp_simpl|]. wp_simpl. unfold copyout1. destruct (uok _); wp_simpl; cbn; [|done].
  split; [|lia]. split; [done|lia].
Qed.

Lemma pexec_spec e p :
  pipe_ok p → p_lock p = false → pev_ok e →
  wp (pexec e) (λ x p', pipe_ok p' ∧ p_lock p' = false ∧
    ∃ w r lost, moved e x w r lost ∧ queue p ++ w = r ++ lost ++ queue p') p.
Proof.
  intros Hok Hl He. destruct e as [uok um killed addr n i|uok um killed addr n|w]; cbn [pexec].
  - wp_step. wp_apply pipewrite_spec; [done..|]. intros o p' (Hok' & Hl' & _ & _ & k & _ & Hq & _ & Ho).
    wp_simpl. split_and!; [done..|]. exists (ubytes um addr i k), [], []. split; [|by rewrite Hq].
    constructor. destruct o; [|destruct Ho as [-> _]; by left].
    destruct Ho as [[-> _]|[-> _]]; [right; by left|right; by right].
  - destruct (piperead_sleep0 uok p um killed addr n) as [Hs0|]; [|congruence].
    pose proof (piperead_spec uok p um killed addr n Hok Hl) as Hsp. wp_step. unfold wp in *.
    destruct (piperead uok um killed addr n p) as [[o um'] p'| |]; [|done..]. cbn [fst snd] in *.
    destruct Hsp as (Hok' & Hl' & _ & _ & r & Hq & Ho). split_and!; [done..|]. destruct o as [j|j].
    + destruct Ho as [(-> & -> & -> & _)|(Hj & -> & Hr)].
      { exists [], [], []. rewrite app_nil_r. split; [constructor; by right|done]. }
      destruct Hr as [(<- & _)|(Hlen & Hjn & Hu)].
      * exists [], r, []. rewrite app_nil_r, Nat2Z.id, take_ge by lia. split; [constructor|done].
      * destruct r as [|ch r' _] using rev_ind; [cbn in Hlen; lia|]. rewrite length_app in Hlen. cbn in Hlen.
        exists [], r', [ch]. replace j with (Z.of_nat (length r')) in * by lia. rewrite app_nil_r, Nat2Z.id, take_app_le, take_ge by lia.
        split; [by constructor|]. by rewrite Hq, <-app_assoc.
    + destruct Ho as (-> & -> & _). exists [], [], []. rewrite app_nil_r. split; [|done]. constructor. left. by rewrite Hs0.
  - unfold pipeclose. wp_simpl. destruct w; wp_simpl; (split_and!; [by destruct Hok|done|]);
      exists [], [], []; (split; [constructor|by rewrite app_nil_r]).
Qed.

(** C19: Pipes are first in, first out.  However readers, writers and closers
    interleave, no step panics, and the bytes put in are exactly the bytes
    taken out, in order, followed by those still in the ring, which never
    holds more than [PIPESIZE]; the 32-bit counters may wrap on the way.  The
    bytes taken out are delivered to the readers, but for one at the end of a
    read that comes to an address outside the reader's memory; so when all
    reads have mapped buffers, the bytes delivered are the bytes put in, in
    order, but for those still in the ring. *)
Theorem pipe_fifo es p :
  pipe_ok p → p_lock p = false → Forall pev_ok es →
  ∃ xs p' ws ts ds, pruns es p = Ok xs p' ∧ moves es xs ws ts ds ∧
    queue p ++ ws = ts ++ queue p' ∧ Z.of_nat (length (queue p')) ≤ PIPESIZE ∧
    ds `sublist_of` ts ∧ (Forall read_mapped es → queue p ++ ws = ds ++ queue p').
Proof.
  intros Hok Hl Hes. assert (wp (pruns es) (λ xs p', pipe_ok p' ∧
    ∃ ws ts ds, moves es xs ws ts ds ∧ queue p ++ ws = ts ++ queue p') p) as Hwp.
  { revert p Hok Hl. induction Hes as [|e es He Hes IH]; intros p Hok Hl; cbn [pruns].
    - wp_simpl. split; [done|]. exists [], [], []. split; [constructor|by rewrite app_nil_r].
    - wp_step. wp_apply pexec_spec; [done..|]. intros x p1 (Hok1 & Hl1 & w & r & lost & Hm & Hq). wp_step.
      wp_apply IH; [done..|]. intros xs p2 (Hok2 & ws & ts & ds & Hms & Hqs). wp_simpl. split; [done|].
      exists (w ++ ws), (r ++ lost ++ ts), (r ++ ds). split; [by constructor|]. by rewrite app_assoc, Hq, <-!app_assoc, Hqs. }
  apply wp_Ok in Hwp as (xs & p' & Hrun & Hok' & ws & ts & ds & Hm & Hq). exists xs, p', ws, ts, ds.
  split_and!; [exact Hrun|done|done| |by eapply moves_sublist|].
  - destruct Hok' as [_ _ Hs]. by rewrite queue_length.
  - intros Hmap. by rewrite (moves_mapped _ _ _ _ _ Hm Hmap).
Qed.

(** C36: A reader that passes a bad address loses the byte it was given: the call
    returns 0, but the byte has left the ring and is stored nowhere. *)
Theorem piperead_bad_address_loses_byte uok p um killed addr n ch q :
  pipe_ok p → p_lock p = false → 1 ≤ n → queue p = ch :: q → uok (u64 addr) = false →
  ∃ p', piperead uok um killed addr n p = Ok (Done 0, um) p' ∧ queue p' = q.
Proof.
  intros Hok Hl Hn Hq Hu. destruct (pop_ok ch q p Hq Hok) as (Hok' & Hq' & Hch).
  assert ((p_nread p =? p_nwrite p) = false) as He.
  { rewrite empty_test by done. apply bool_decide_false. by rewrite Hq. }
  assert (wp (piperead uok um killed addr n) (λ x p', x = (Done 0, um) ∧ queue p' = q) p) as Hwp.
  { unfold piperead. wp_simpl. cbn [p_nread p_nwrite p_writeopen set_p_lock]. rewrite He. cbn [andb].
    rewrite Nat.add_1_r. apply wp_loop_S. rewrite (proj2 (Z.ltb_lt 0 n)) by lia. cbn [negb]. wp_simpl.
    cbn [p_nread p_nwrite set_p_lock]. rewrite He. wp_simpl. unfold copyout1. rewrite Z.add_0_r, Hu. wp_simpl.
    done. }
  apply wp_Ok in Hwp as (x & p' & Hrun & -> & Hq2). eauto.
Qed.

Module PipeWitness.
Definition buf : mem := {[1000 := 65; 1001 := 66]}.

(** A ring whose counters are about to wrap. *)
Definition p0 : pipe := Pipe false ∅ 4294967290 4294967290 true true.

Lemma p0_ok : pipe_ok p0.
Proof. split; [cbn; lia|cbn; lia|vm_compute; discriminate]. Qed.

Definition two : list pev :=
  [EvWrite (λ _, true) buf (λ _, false) 1000 2 0; EvRead (λ _, true) ∅ false 2000 10].

Lemma pipe_fifo_witness :
  ∃ xs p' ws ts ds, pruns two p0 = Ok xs p' ∧ moves two xs ws ts ds ∧ queue p0 ++ ws = ts ++ queue p' ∧
    Z.of_nat (length (queue p')) ≤ PIPESIZE ∧ ds `sublist_of` ts ∧ (Forall read_mapped two → queue p0 ++ ws = ds ++ queue p').
Proof. apply (pipe_fifo two p0 p0_ok eq_refl). repeat constructor; lia. Defined.

Definition p1 : pipe := Pipe false {[0 := 65]} 0 1 true true.

Lemma p1_ok : pipe_ok p1.
Proof. split; [cbn; lia|cbn; lia|vm_compute; discriminate]. Qed.

Lemma piperead_bad_address_loses_byte_witness :
  ∃ p', piperead (λ _, false) ∅ false 2000 10 p1 = Ok (Done 0, ∅) p' ∧ queue p' = [].
Proof. exact (piperead_bad_address_loses_byte (λ _, false) p1 ∅ false 2000 10 65 [] p1_ok eq_refl ltac:(lia) eq_refl eq_refl). Defined.
End PipeWitness.
