(* ===== verification/TxIface.v ===== *)
(** * Blocks inside transactions, and user memory, as the file system sees them

    [kernel/fs.c] uses blocks through [bread], [brelse] and [log_write], between
    [begin_op] and [end_op].  The operations are one class; the promise, on the
    current contents of the blocks, the buffers held and the blocks the open
    transaction has logged, is another.  [LogFs] shows that the log keeps it.

    [umem] is the memory of the current process as [copyin] and [copyout]
    reach it; [VmProps] states what they do to it. *)

From S2P Require Import Prelude Mem Kstring Layout BufIface.

Class TxOps (T : Type) := {
  tx_initlog : Z → Z → M T unit;      (* device, sb->logstart *)
  tx_begin_op : M T unit;
  tx_end_op : M T unit;
  tx_bread : Z → Z → M T Z;
  tx_brelse : Z → M T unit;
  tx_log_write : Z → M T unit;
  tx_data : Z → T → mem;              (* b->data *)
  tx_set_data : Z → mem → T → T
}.

(** [tv_cur]: the contents of the blocks as the transaction sees them.
    [tv_held]: the buffers held, with their block numbers.  [tv_logged]: the
    blocks in the open transaction.  [tv_raw]: blocks held and changed, but not
    logged yet. *)
Record tview := TView {
  tv_cur : Z → mem;
  tv_held : gmap Z Z;
  tv_logged : gset Z;
  tv_raw : gset Z
}.

Definition cur_set (x : Z) (m : mem) (c : Z → mem) : Z → mem := λ y, if decide (y = x) then m else c y.

Definition tv_hold (b bno : Z) (v : tview) : tview :=
  TView (tv_cur v) (<[b := bno]> (tv_held v)) (tv_logged v) (tv_raw v).
Definition tv_drop (b : Z) (v : tview) : tview :=
  TView (tv_cur v) (delete b (tv_held v)) (tv_logged v) (tv_raw v).
Definition tv_set (bno : Z) (m : mem) (v : tview) : tview :=
  TView (cur_set bno m (tv_cur v)) (tv_held v) (tv_logged v) ({[bno]} ∪ tv_raw v).
Definition tv_log (bno : Z) (v : tview) : tview :=
  TView (tv_cur v) (tv_held v) ({[bno]} ∪ tv_logged v) (tv_raw v ∖ {[bno]}).

(** The blocks that keep a buffer busy. *)
Definition tv_used (v : tview) : gset Z := tv_logged v ∪ map_img (tv_held v).

(** [tx_home x]: [x] is a block of the file system, outside the log. *)
Class TxSpec (T : Type) `{TxOps T} := {
  tx_home : Z → Prop;
  tx_ok : tview → T → Prop;

  tx_ext v c t : (∀ x, tx_home x → tv_cur v x = c x) → tx_ok v t →
    tx_ok (TView c (tv_held v) (tv_logged v) (tv_raw v)) t;

  tx_data_spec v t b bno : tx_ok v t → tv_held v !! b = Some bno → tx_data b t = tv_cur v bno;

  tx_set_data_spec v t b bno m :
    tx_ok v t → tv_held v !! b = Some bno → tx_ok (tv_set bno m v) (tx_set_data b m t);

  tx_bread_spec v t bno :
    tx_ok v t → tx_home bno → bno ∉ (map_img (tv_held v) : gset Z) →
    Z.of_nat (size (tv_used v)) < NBUF →
    wp (tx_bread ROOTDEV bno) (λ b t', tv_held v !! b = None ∧ tx_ok (tv_hold b bno v) t') t;

  tx_brelse_spec v t b bno :
    tx_ok v t → tv_held v !! b = Some bno → bno ∉ tv_raw v →
    wp (tx_brelse b) (λ _ t', tx_ok (tv_drop b v) t') t
}.

(** What [log_write] promises inside a transaction. *)
Class TxWriteSpec (T : Type) `{TxSpec T} := {
  tx_log_write_spec v t b bno :
    tx_ok v t → tv_held v !! b = Some bno → Z.of_nat (size (tv_logged v)) < LOGBLOCKS →
    wp (tx_log_write b) (λ _ t', tx_ok (tv_log bno v) t') t
}.

(** ** User memory *)

(** The bytes of the process, which of them it may read and write.  Access is
    decided page by page. *)
Record umem := UMem { u_mem : mem; u_r : Z → bool; u_w : Z → bool }.

(** [n] bytes from one memory to another. *)
Definition mcopy (m : mem) (dst : Z) (m2 : mem) (src n : Z) : mem :=
  foldl (λ m i, stb m (dst + i) (ldb m2 (src + i))) m (seqZ 0 n).

(** The length of the prefix of [a .. a+n) that [ok] allows. *)
Fixpoint prefix (ok : Z → bool) (a : Z) (n : nat) : Z :=
  match n with
  | O => 0
  | Datatypes.S n' => if ok a then 1 + prefix ok (a + 1) n' else 0
  end.

(** [copyin] and [copyout] move bytes up to the first page that is not the
    process's, and then fail. *)
Definition ucopyin (u : umem) (m : mem) (dst src n : Z) : Z * mem :=
  let k := prefix (u_r u) src (Z.to_nat n) in
  (if k =? n then 0 else -1, mcopy m dst (u_mem u) src k).
Definition ucopyout (u : umem) (dst : Z) (m : mem) (src n : Z) : Z * umem :=
  let k := prefix (u_w u) dst (Z.to_nat n) in
  (if k =? n then 0 else -1, UMem (mcopy (u_mem u) dst m src k) (u_r u) (u_w u)).

(** [either_copyin] and [either_copyout] ([kernel/proc.c]): [km] is the memory
    of the kernel's buffer when the other side is the kernel. *)
Definition either_copyin (m : mem) (dst : Z) (user_src : bool) (u : umem) (km : mem) (src len : Z) : Z * mem :=
  if user_src then ucopyin u m dst src len else (0, mcopy m dst km src len).
Definition either_copyout (user_dst : bool) (u : umem) (km : mem) (dst : Z) (m : mem) (src len : Z) : Z * umem * mem :=
  if user_dst then (ucopyout u dst m src len, km) else (0, u, mcopy km dst m src len).

Lemma ldb_mcopy m dst m2 src n b : 0 ≤ n →
  ldb (mcopy m dst m2 src n) b = if decide (dst ≤ b < dst + n) then ldb m2 (src + (b - dst)) else ldb m b.
Proof.
  intros Hn. destruct (Z_of_nat_complete n Hn) as [k ->]. clear Hn. unfold mcopy. induction k as [|k IH].
  { rewrite decide_False by lia. done. }
  rewrite Nat2Z.inj_succ, <-Z.add_1_r, seqZ_app by lia. rewrite foldl_app. cbn [foldl]. rewrite Z.add_0_l.
  change (seqZ (Z.of_nat k) 1) with [Z.of_nat k]. cbn [foldl]. rewrite ldb_stb. case_bool_decide as Hb.
  - subst b. rewrite decide_True by lia. replace (src + (dst + Z.of_nat k - dst)) with (src + Z.of_nat k) by lia.
    unfold ldb, u8. by rewrite Z.mod_mod.
  - rewrite IH. repeat case_decide; try lia; done.
Qed.

Lemma prefix_all ok a n : (∀ i, 0 ≤ i < n → ok (a + i) = true) → 0 ≤ n → prefix ok a (Z.to_nat n) = n.
Proof.
  intros H Hn. destruct (Z_of_nat_complete n Hn) as [k ->]. rewrite Nat2Z.id. clear Hn. revert a H.
  induction k as [|k IH]; intros a H; [done|]. cbn [prefix]. specialize (H 0) as H0. rewrite Z.add_0_r in H0.
  rewrite H0 by lia. rewrite IH; [lia|]. intros i Hi. replace (a + 1 + i) with (a + (i + 1)) by lia. apply H. lia.
Qed.
