(* ===== verification/LogFs.v ===== *)
(** * The log keeps the file system's interface

    The operations of [kernel/log.c] over the buffer cache are the transactions
    [kernel/fs.c] runs in.  Inside one, nothing is written to the disk; the
    last [end_op] writes everything atomically. *)

From S2P Require Import Prelude Mem Layout BufIface Log LogDisk LogCorrect LogSpec TxIface.

Section LogFs.
Context {S : Type} {BO : BufOps S}.

#[global] Instance log_tx_ops : TxOps (logst S) := {|
  tx_initlog := initlog;
  tx_begin_op := begin_op;
  tx_end_op := end_op;
  tx_bread dev bno := bio (bo_bread dev bno);
  tx_brelse b := bio (bo_brelse b);
  tx_log_write := log_write;
  tx_data := bdata;
  tx_set_data b m s := set_s (bo_set_data b m (lg_s s)) s
|}.

Context {BS : BufSpec S} (st : Z) (Hst : 0 ≤ st) (Hst' : st + LOGBLOCKS < 2147483648).
Implicit Types s : logst S.

(** A transaction of [out] system calls, none when [out] is 0, over a disk [d]
    that recovers to [h]. *)
Record in_tx (h : Z → mem) (d : disk) (tr : list (Z * mem)) (out : Z) (w : tview) (bl : list Z) (v : bview) s : Prop := {
  it_inv : linv st h bl out v s;
  it_out : 0 ≤ out;
  it_disk : bv_disk v = d;
  it_trace : bv_trace v = tr;
  it_held : bv_held v = tv_held w;
  it_logged : list_to_set bl = tv_logged w;
  it_cur : ∀ x, home st x → bv_cur v x = tv_cur w x;
  it_home : ∀ b x, bv_held v !! b = Some x → home st x;
  it_raw : ∀ x, x ∈ tv_raw w → x ∈ (map_img (bv_held v) : gset Z);
  it_clean : ∀ x, home st x → x ∉ bl → x ∉ tv_raw w → bv_cur v x = h x
}.

Lemma in_tx_used h d tr out w bl v s : in_tx h d tr out w bl v s → bv_used v = tv_used w.
Proof. intros [Hi _ _ _ Hh Hl _ _ _ _]. unfold bv_used, tv_used. by rewrite (li_pin _ _ _ _ _ _ Hi), Hh, Hl. Qed.

Section Spec.
Context (h : Z → mem) (d : disk) (tr : list (Z * mem)) (out : Z).

Definition log_tx_ok (w : tview) s : Prop := ∃ bl v, in_tx h d tr out w bl v s.

Lemma log_tx_ext w c s : (∀ x, home st x → tv_cur w x = c x) → log_tx_ok w s → log_tx_ok (TView c (tv_held w) (tv_logged w) (tv_raw w)) s.
Proof.
  intros Hc (bl & v & [H1 H2 H3 H4 H5 H6 H7 H8 H9 H10]). exists bl, v. split; try done. intros x Hx. cbn. rewrite <-Hc by done. by apply H7.
Qed.

Lemma log_tx_data w s b bno : log_tx_ok w s → tv_held w !! b = Some bno → bdata b s = tv_cur w bno.
Proof.
  intros (bl & v & [H1 H2 H3 H4 H5 H6 H7 H8 H9 H10]) Hb. rewrite <-H5 in Hb. unfold bdata.
  rewrite (proj1 (bo_data_spec v (lg_s s) b bno (li_ok _ _ _ _ _ _ H1) Hb)). apply H7. by eapply H8.
Qed.

Lemma log_tx_set w s b bno m :
  log_tx_ok w s → tv_held w !! b = Some bno → log_tx_ok (tv_set bno m w) (set_s (bo_set_data b m (lg_s s)) s).
Proof.
  intros (bl & v & [H1 H2 H3 H4 H5 H6 H7 H8 H9 H10]) Hb. rewrite <-H5 in Hb. exists bl, (v_set bno m v).
  assert (bno ∈ (map_img (bv_held v) : gset Z)) as Hin by (apply elem_of_map_img; by exists b).
  split; try done.
  - destruct H1 as [Hc Hok Hl Hcm Ho Hp Hs Hcl]. split; try done.
    + by apply bo_set_data_spec.
    + intros x Hx Hnx Hni. rewrite LogCorrect.cur_set, decide_False; [by apply Hcl|]. intros ->. by apply Hni.
  - intros x Hx. rewrite LogCorrect.cur_set. cbn. unfold TxIface.cur_set. case_decide; [done|]. by apply H7.
  - cbn. intros x [->%elem_of_singleton|Hx]%elem_of_union; [done|]. by apply H9.
  - cbn. intros x Hx Hnx [Hne Hnr]%not_elem_of_union. rewrite LogCorrect.cur_set, decide_False by set_solver. by apply H10.
Qed.

Lemma log_tx_bread w s bno :
  log_tx_ok w s → home st bno → bno ∉ (map_img (tv_held w) : gset Z) → Z.of_nat (size (tv_used w)) < NBUF →
  wp (bio (bo_bread ROOTDEV bno)) (λ b s', tv_held w !! b = None ∧ log_tx_ok (tv_hold b bno w) s') s.
Proof.
  intros (bl & v & Ht) Hh Hni Hsz. rewrite <-(in_tx_used _ _ _ _ _ _ _ _ Ht) in Hsz. destruct Ht as [H1 H2 H3 H4 H5 H6 H7 H8 H9 H10].
  destruct (Hh) as [Hr _]. rewrite <-H5 in Hni. replace ROOTDEV with (u32 ROOTDEV) by done. replace bno with (u32 bno) at 1 by (apply u32_small; lia).
  destruct H1 as [Hc Hok Hl Hcm Ho Hp Hs Hcl]. eapply wp_lread; [exact Hok|lia|done|by right|]. intros b x Hb Hok'.
  split; [by rewrite <-H5|]. exists bl, (v_hold b bno v).
  assert (∀ y, y ∈ (map_img (bv_held v) : gset Z) → y ∈ (map_img (<[b:=bno]> (bv_held v)) : gset Z)) as Himg.
  { intros y (c & Hy)%elem_of_map_img. apply elem_of_map_img. exists c. rewrite lookup_insert_ne; [done|]. congruence. }
  split; try done.
  - split; try done. intros y Hy Hny Hni'. apply Hcl; [done..|]. intros Hin. by apply Hni', Himg.
  - cbn. by rewrite H5.
  - intros c y Hcy. cbn in Hcy. apply lookup_insert_Some in Hcy as [[_ <-]|[_ Hcy]]; [done|by eapply H8].
  - intros y Hy. apply Himg, H9. done.
Qed.

Lemma log_tx_write w s b bno :
  1 ≤ out → log_tx_ok w s → tv_held w !! b = Some bno → Z.of_nat (size (tv_logged w)) < LOGBLOCKS →
  wp (log_write b) (λ _ s', log_tx_ok (tv_log bno w) s') s.
Proof.
  intros Hout (bl & v & [H1 H2 H3 H4 H5 H6 H7 H8 H9 H10]) Hb Hsz. rewrite <-H5 in Hb. rewrite <-H6 in Hsz.
  assert (Z.of_nat (length bl) < LOGBLOCKS) as Hlen.
  { destruct (li_core _ _ _ _ _ _ H1) as (_ & _ & _ & _ & _ & (_ & Hnd & _)). by rewrite size_list_to_set in Hsz. }
  pose proof (H8 _ _ Hb) as Hh. wp_apply (log_write_spec st Hst Hst' h bl out v s b bno H1 Hb Hh Hout Hlen).
  intros [] s' (v' & Hi & ->). eexists (log_add bno bl), _. split; [exact Hi|done..| |done|done| |].
  - cbn. unfold log_add. rewrite <-H6. case_decide; set_solver.
  - intros x [Hx _]%elem_of_difference. by apply H9.
  - intros x Hx Hnx Hnr. apply H10; [done|unfold log_add in Hnx; case_decide; set_solver|]. intros Hin. apply Hnr.
    cbn. apply elem_of_difference. split; [done|]. intros ->%elem_of_singleton. apply Hnx. unfold log_add. case_decide; set_solver.
Qed.

Lemma log_tx_brelse w s b bno :
  log_tx_ok w s → tv_held w !! b = Some bno → bno ∉ tv_raw w →
  wp (bio (bo_brelse b)) (λ _ s', log_tx_ok (tv_drop b w) s') s.
Proof.
  intros (bl & v & [H1 H2 H3 H4 H5 H6 H7 H8 H9 H10]) Hb Hnr. rewrite <-H5 in Hb. pose proof (H8 _ _ Hb) as Hh.
  destruct H1 as [Hc Hok Hl Hcm Ho Hp Hs Hcl]. eapply wp_lrelse; [exact Hok|exact Hb| |].
  { destruct (decide (bno ∈ bl)); [left; rewrite Hp; set_solver|right]. rewrite H10 by done. by apply Hs. }
  intros x Hok'. exists bl, (v_drop b v). split; try done.
  - split; try done. intros y Hy Hny Hni. destruct (decide (y = bno)) as [->|]; [by apply H10|]. apply Hcl; [done..|].
    intros (c & Hcy)%elem_of_map_img. apply Hni. apply elem_of_map_img. exists c. cbn. rewrite lookup_delete_ne; [done|]. congruence.
  - cbn. by rewrite H5.
  - intros c y Hcy. cbn in Hcy. apply lookup_delete_Some in Hcy as [_ Hcy]. by eapply H8.
  - intros y Hy. cbn in Hy. destruct (proj1 (elem_of_map_img _ _) (H9 y Hy)) as [c Hcy]. apply elem_of_map_img. exists c. cbn.
    rewrite lookup_delete_ne; [done|]. congruence.
Qed.

Definition log_tx_spec : TxSpec (logst S) := {|
  tx_home := home st;
  tx_ok := log_tx_ok;
  tx_ext := log_tx_ext;
  tx_data_spec := log_tx_data;
  tx_set_data_spec := log_tx_set;
  tx_bread_spec := log_tx_bread;
  tx_brelse_spec := log_tx_brelse
|}.

Definition log_tx_write_spec (Hout : 1 ≤ out) : @TxWriteSpec (logst S) log_tx_ops log_tx_spec :=
  @Build_TxWriteSpec _ _ log_tx_spec (λ w s b bno, log_tx_write w s b bno Hout).
End Spec.

(** ** A transaction of one system call, from a settled log to a settled log *)

(** No transaction is open; the disk is [d], after the writes [tr], and holds [h]. *)
Definition log_idle (h : Z → mem) (d : disk) (tr : list (Z * mem)) s : Prop :=
  ∃ v, linv st h [] 0 v s ∧ bv_held v = ∅ ∧ bv_disk v = d ∧ bv_trace v = tr.

(** Reading outside transactions. *)
Lemma log_read h d tr s : log_idle h d tr s ↔ log_tx_ok h d tr 0 (TView h ∅ ∅ ∅) s.
Proof.
  split.
  - intros (v & Hi & Hh & Hd & Ht). exists [], v. assert (∀ x, home st x → bv_cur v x = h x) as Hc.
    { intros x Hx. apply (li_clean _ _ _ _ _ _ Hi); [done|set_solver|by apply img_empty]. }
    split; try done; [by intros b x; rewrite Hh|]. intros x Hx _ _. by apply Hc.
  - intros (bl & v & [H1 H2 H3 H4 H5 H6 H7 H8 H9 H10]). exists v. cbn in H5, H6. assert (bl = []) as -> by (destruct bl; [done|set_solver]). done.
Qed.

(** One more system call in a transaction that may have others. *)
Lemma log_join h bl out v s :
  linv st h bl out v s → bv_held v = ∅ → 0 ≤ out → Z.of_nat (length bl) + (out + 1) * MAXOPBLOCKS ≤ LOGBLOCKS →
  wp begin_op (λ _ s', log_tx_ok h (bv_disk v) (bv_trace v) (out + 1) (TView (bv_cur v) ∅ (list_to_set bl) ∅) s') s.
Proof.
  intros Hi Hh Ho Hroom. wp_apply begin_op_spec; [exact Hi|done|]. intros [] s' Hi'. exists bl, v. split; try done.
  - lia.
  - intros b x. by rewrite Hh.
  - intros x Hx Hnx _. apply (li_clean _ _ _ _ _ _ Hi); [done..|]. by apply img_empty.
Qed.

(** The length of the log in memory. *)
Lemma log_length h d tr out w s : log_tx_ok h d tr out w s → lh_n s = Z.of_nat (size (tv_logged w)).
Proof.
  intros (bl & v & [H1 H2 H3 H4 H5 H6 H7 H8 H9 H10]). destruct (li_core _ _ _ _ _ _ H1) as (_ & _ & En & _ & _ & (_ & Hnd & _)).
  by rewrite En, <-H6, size_list_to_set.
Qed.

Lemma log_begin h d tr s :
  log_idle h d tr s → wp begin_op (λ _ s', log_tx_ok h d tr 1 (TView h ∅ ∅ ∅) s') s.
Proof.
  intros (v & Hi & Hh & Hd & Ht). wp_apply begin_op_spec; [exact Hi|done|]. intros [] s' Hi'. exists [], v.
  assert (∀ x, home st x → bv_cur v x = h x) as Hc.
  { intros x Hx. apply (li_clean _ _ _ _ _ _ Hi); [done|set_solver|by apply img_empty]. }
  split; try done.
  - intros b x. by rewrite Hh.
  - intros x Hx _ _. by apply Hc.
Qed.

Lemma log_end h d tr w s :
  log_tx_ok h d tr 1 w s → tv_held w = ∅ → Z.of_nat (size (tv_logged w)) < NBUF →
  wp end_op (λ _ s', ∃ ws, log_idle (tv_cur w) (dwrites ws d) (tr ++ ws) s' ∧ atomic st h (tv_cur w) d ws) s.
Proof.
  intros (bl & v & [H1 H2 H3 H4 H5 H6 H7 H8 H9 H10]) Hh Hsz. rewrite Hh in H5. rewrite <-H6 in Hsz.
  destruct (li_core _ _ _ _ _ _ H1) as (_ & _ & _ & _ & _ & (_ & Hnd & _)). rewrite size_list_to_set in Hsz by done.
  wp_apply (end_op_last st Hst Hst' h bl v s); [done..|]. intros [] s' (v' & ws & Hi' & Hh' & Hd' & Ht' & Hc' & Hat).
  rewrite H3 in Hd', Hat. rewrite H4 in Ht'. exists ws. split.
  - exists v'. split_and!; try done. eapply linv_ext; [exact H7|exact Hi'].
  - intros k. destruct (Hat k) as [?|Hk]; [by left|right]. by eapply recovers_ext.
Qed.
End LogFs.
