(* ===== verification/Fs.v ===== *)
(** * The file system: [kernel/fs.c]

    Over blocks in transactions of which only the operations are known
    ([TxOps]).  An inode pointer is 0 or the position of the entry in the inode
    table, from 1.  [pid] is [myproc()->pid] and [cwd] its current directory.
    Numbers of 32 bits are kept at their width where the code can wrap.  The
    messages printed have no effect on this state. *)

From S2P Require Import Prelude Mem Kstring Layout BufIface Sleeplock TxIface.

Definition ROOTINO : Z := 1.
Definition FSMAGIC : Z := 0x10203040.
Definition NDIRECT : Z := 12.
Definition NINDIRECT : Z := BSIZE / 4.
Definition MAXFILE : Z := NDIRECT + NINDIRECT.
Definition IPB : Z := BSIZE / 64.
Definition BPB : Z := BSIZE * 8.
Definition DIRSIZ : Z := 14.
Definition T_DIR : Z := 1.
Definition T_FILE : Z := 2.
Definition T_DEVICE : Z := 3.

Definition i16 (x : Z) : Z := (x + 32768) mod 65536 - 32768.
Definition ldi16 (m : mem) (a : Z) : Z := i16 (ld16 m a).

Record superblock := SB {
  sb_magic : Z; sb_size : Z; sb_nblocks : Z; sb_ninodes : Z;
  sb_nlog : Z; sb_logstart : Z; sb_inodestart : Z; sb_bmapstart : Z
}.

Definition IBLOCK (i : Z) (sb : superblock) : Z := u32 (i / IPB + sb_inodestart sb).
Definition BBLOCK (b : Z) (sb : superblock) : Z := u32 (b / BPB + sb_bmapstart sb).

(** [struct superblock] at the start of a block. *)
Definition ld_sb (m : mem) : superblock :=
  SB (ld32 m 0) (ld32 m 4) (ld32 m 8) (ld32 m 12) (ld32 m 16) (ld32 m 20) (ld32 m 24) (ld32 m 28).

(** The fields an inode has on disk ([struct dinode]) and in memory. *)
Record dinode := DI {
  di_type : Z; di_major : Z; di_minor : Z; di_nlink : Z; di_size : Z; di_addrs : list Z
}.

(** [struct inode]. *)
Record inode := Ino {
  i_dev : Z; i_inum : Z; i_ref : Z; i_lock : sleeplock; i_valid : Z; i_d : dinode
}.
Definition dinode0 : dinode := DI 0 0 0 0 0 (replicate 13 0).
Definition inode0 : inode := Ino 0 0 0 (SL 0 false 0) 0 dinode0.

(** [struct dinode] number [i] of a block: 64 bytes each. *)
Definition ld_di (m : mem) (i : Z) : dinode :=
  let a := 64 * i in
  DI (ldi16 m a) (ldi16 m (a + 2)) (ldi16 m (a + 4)) (ldi16 m (a + 6)) (ld32 m (a + 8))
     (map (λ k, ld32 m (a + 12 + 4 * k)) (seqZ 0 13)).
Definition st_di (m : mem) (i : Z) (x : dinode) : mem :=
  let a := 64 * i in
  let m := st16 m a (di_type x) in
  let m := st16 m (a + 2) (di_major x) in
  let m := st16 m (a + 4) (di_minor x) in
  let m := st16 m (a + 6) (di_nlink x) in
  let m := st32 m (a + 8) (di_size x) in
  foldl (λ m k, st32 m (a + 12 + 4 * k) (default 0 (di_addrs x !! Z.to_nat k))) m (seqZ 0 13).

Definition d_set_type v x := DI v (di_major x) (di_minor x) (di_nlink x) (di_size x) (di_addrs x).
Definition d_set_major v x := DI (di_type x) v (di_minor x) (di_nlink x) (di_size x) (di_addrs x).
Definition d_set_minor v x := DI (di_type x) (di_major x) v (di_nlink x) (di_size x) (di_addrs x).
Definition d_set_nlink v x := DI (di_type x) (di_major x) (di_minor x) v (di_size x) (di_addrs x).
Definition d_set_size v x := DI (di_type x) (di_major x) (di_minor x) (di_nlink x) v (di_addrs x).
Definition d_set_addr k v x :=
  DI (di_type x) (di_major x) (di_minor x) (di_nlink x) (di_size x) (<[Z.to_nat k := v]> (di_addrs x)).

Record fs (T : Type) := Fs {
  fs_sb : superblock;
  it_lock : bool;
  it_inode : gmap Z inode;      (* itable.inode *)
  fs_u : umem;
  fs_t : T
}.
Arguments Fs {T}. Arguments fs_sb {T}. Arguments it_lock {T}. Arguments it_inode {T}.
Arguments fs_u {T}. Arguments fs_t {T}.

Section Fs.
Context {T : Type} {TO : TxOps T} (pid : Z).
Implicit Types s : fs T.

Definition set_fs_sb v s : fs T := Fs v (it_lock s) (it_inode s) (fs_u s) (fs_t s).
Definition set_it_lock v s : fs T := Fs (fs_sb s) v (it_inode s) (fs_u s) (fs_t s).
Definition set_it_inode v s : fs T := Fs (fs_sb s) (it_lock s) v (fs_u s) (fs_t s).
Definition set_fs_u v s : fs T := Fs (fs_sb s) (it_lock s) (it_inode s) v (fs_t s).
Definition set_fs_t v s : fs T := Fs (fs_sb s) (it_lock s) (it_inode s) (fs_u s) v.

Definition geti (ip : Z) s : inode := default inode0 (it_inode s !! ip).
Definition seti (ip : Z) (x : inode) s : fs T := set_it_inode (<[ip := x]> (it_inode s)) s.
Definition getd (ip : Z) s : dinode := i_d (geti ip s).
Definition setd (ip : Z) (x : dinode) s : fs T :=
  let i := geti ip s in seti ip (Ino (i_dev i) (i_inum i) (i_ref i) (i_lock i) (i_valid i) x) s.
Definition set_ref (ip r : Z) s : fs T :=
  let i := geti ip s in seti ip (Ino (i_dev i) (i_inum i) r (i_lock i) (i_valid i) (i_d i)) s.
Definition set_valid (ip v : Z) s : fs T :=
  let i := geti ip s in seti ip (Ino (i_dev i) (i_inum i) (i_ref i) (i_lock i) v (i_d i)) s.
Definition get_ilock (ip : Z) s : sleeplock := i_lock (geti ip s).
Definition set_ilock (ip : Z) (l : sleeplock) s : fs T :=
  let i := geti ip s in seti ip (Ino (i_dev i) (i_inum i) (i_ref i) l (i_valid i) (i_d i)) s.

Definition tx {A} (m : M T A) : M (fs T) A := lift fs_t set_fs_t m.
Definition bdata (b : Z) s : mem := tx_data b (fs_t s).
Definition set_bdata (b : Z) (m : mem) : M (fs T) unit := modify (λ s, set_fs_t (tx_set_data b m (fs_t s)) s).

(** ** Blocks *)

Definition readsb (dev : Z) : M (fs T) unit :=
  bp ← tx (tx_bread dev 1);
  modify (λ s, set_fs_sb (ld_sb (bdata bp s)) s);;
  tx (tx_brelse bp).

Definition bzero (dev bno : Z) : M (fs T) unit :=
  bp ← tx (tx_bread dev bno);
  m ← gets (bdata bp);
  set_bdata bp (memset m 0 0 BSIZE);;
  tx (tx_log_write bp);;
  tx (tx_brelse bp).

(** The scan of one block of the bitmap: [Some bi] for the first clear bit. *)
Definition balloc_scan (m : mem) (b size : Z) : option Z :=
  List.find (λ bi, Z.land (ldb m (bi / 8)) (Z.shiftl 1 (bi mod 8)) =? 0) (seqZ 0 (Z.min BPB (size - b))).

Definition balloc (dev : Z) : M (fs T) Z :=
  sb ← gets fs_sb;
  r ← for_ret (map (λ k, k * BPB) (seqZ 0 ((sb_size sb + BPB - 1) / BPB))) (λ b,
    bp ← tx (tx_bread dev (BBLOCK b sb));
    m ← gets (bdata bp);
    match balloc_scan m b (sb_size sb) with
    | Some bi =>
        set_bdata bp (stb m (bi / 8) (Z.lor (ldb m (bi / 8)) (Z.shiftl 1 (bi mod 8))));;
        tx (tx_log_write bp);;
        tx (tx_brelse bp);;
        bzero dev (b + bi);;
        mret (Some (b + bi))
    | None =>
        tx (tx_brelse bp);;
        mret None
    end);
  mret (default 0 r).

Definition bfree (dev b : Z) : M (fs T) unit :=
  sb ← gets fs_sb;
  bp ← tx (tx_bread dev (BBLOCK b sb));
  let bi := b mod BPB in
  let bit := Z.shiftl 1 (bi mod 8) in
  m ← gets (bdata bp);
  panic_if (Z.land (ldb m (bi / 8)) bit =? 0) "freeing free block";;
  set_bdata bp (stb m (bi / 8) (Z.land (ldb m (bi / 8)) (Z.lnot bit)));;
  tx (tx_log_write bp);;
  tx (tx_brelse bp).

(** ** Inodes *)

Definition iinit : M (fs T) unit :=
  modify (set_it_lock false);;
  for_each (seqZ 1 NINODE) (λ ip, initsleeplock (set_ilock ip)).

(** The scan of the table: the entry of the inode, else the first free entry. *)
Definition iget_scan (dev inum : Z) (t : gmap Z inode) : option Z * option Z :=
  let at_ ip := default inode0 (t !! ip) in
  (List.find (λ ip, (0 <? i_ref (at_ ip)) && (i_dev (at_ ip) =? dev) && (i_inum (at_ ip) =? inum)) (seqZ 1 NINODE),
   List.find (λ ip, i_ref (at_ ip) =? 0) (seqZ 1 NINODE)).

Definition iget (dev inum : Z) : M (fs T) Z :=
  acquire it_lock set_it_lock;;
  t ← gets it_inode;
  match iget_scan dev inum t with
  | (Some ip, _) =>
      modify (λ s, set_ref ip (i_ref (geti ip s) + 1) s);;
      release it_lock set_it_lock;;
      mret ip
  | (None, None) => panic "iget: no inodes"
  | (None, Some ip) =>
      modify (λ s, let i := geti ip s in seti ip (Ino dev inum 1 (i_lock i) 0 (i_d i)) s);;
      release it_lock set_it_lock;;
      mret ip
  end.

Definition ialloc (dev type : Z) : M (fs T) Z :=
  sb ← gets fs_sb;
  r ← for_ret (seqZ 1 (sb_ninodes sb - 1)) (λ inum,
    bp ← tx (tx_bread dev (IBLOCK inum sb));
    m ← gets (bdata bp);
    if di_type (ld_di m (inum mod IPB)) =? 0 then
      set_bdata bp (st16 (memset m (64 * (inum mod IPB)) 0 64) (64 * (inum mod IPB)) type);;
      tx (tx_log_write bp);;
      tx (tx_brelse bp);;
      ip ← iget dev inum;
      mret (Some ip)
    else
      tx (tx_brelse bp);;
      mret None);
  mret (default 0 r).

Definition iupdate (ip : Z) : M (fs T) unit :=
  sb ← gets fs_sb;
  i ← gets (geti ip);
  bp ← tx (tx_bread (i_dev i) (IBLOCK (i_inum i) sb));
  m ← gets (bdata bp);
  set_bdata bp (st_di m (i_inum i mod IPB) (i_d i));;
  tx (tx_log_write bp);;
  tx (tx_brelse bp).

Definition idup (ip : Z) : M (fs T) Z :=
  acquire it_lock set_it_lock;;
  modify (λ s, set_ref ip (i_ref (geti ip s) + 1) s);;
  release it_lock set_it_lock;;
  mret ip.

Definition ilock (ip : Z) : M (fs T) unit :=
  r ← gets (λ s, i_ref (geti ip s));
  panic_if ((ip =? 0) || (r <? 1)) "ilock";;
  acquiresleep (get_ilock ip) (set_ilock ip) pid;;
  i ← gets (geti ip);
  if i_valid i =? 0 then
    sb ← gets fs_sb;
    bp ← tx (tx_bread (i_dev i) (IBLOCK (i_inum i) sb));
    modify (λ s, setd ip (ld_di (bdata bp s) (i_inum i mod IPB)) s);;
    tx (tx_brelse bp);;
    modify (set_valid ip 1);;
    t ← gets (λ s, di_type (getd ip s));
    panic_if (t =? 0) "ilock: no type"
  else mret tt.

(** [&&] does not evaluate [holdingsleep] of a null pointer. *)
Definition iunlock (ip : Z) : M (fs T) unit :=
  h ← (if ip =? 0 then mret false else holdingsleep (get_ilock ip) (set_ilock ip) pid);
  r ← gets (λ s, i_ref (geti ip s));
  panic_if ((ip =? 0) || negb h || (r <? 1)) "iunlock";;
  releasesleep (get_ilock ip) (set_ilock ip).

(** ** Inode contents *)

Definition addr_of (ip k : Z) s : Z := default 0 (di_addrs (getd ip s) !! Z.to_nat k).

Definition bmap (ip bn : Z) : M (fs T) Z :=
  dev ← gets (λ s, i_dev (geti ip s));
  if bn <? NDIRECT then
    addr ← gets (addr_of ip bn);
    if addr =? 0 then
      addr ← balloc dev;
      if addr =? 0 then mret 0 else
      modify (λ s, setd ip (d_set_addr bn addr (getd ip s)) s);;
      mret addr
    else mret addr
  else
  let bn := bn - NDIRECT in
  if bn <? NINDIRECT then
    addr ← gets (addr_of ip NDIRECT);
    addr ← (if addr =? 0 then
              addr ← balloc dev;
              if addr =? 0 then mret 0 else
              modify (λ s, setd ip (d_set_addr NDIRECT addr (getd ip s)) s);;
              mret addr
            else mret addr);
    if addr =? 0 then mret 0 else
    bp ← tx (tx_bread dev addr);
    addr ← gets (λ s, ld32 (bdata bp s) (4 * bn));
    addr ← (if addr =? 0 then
              addr ← balloc dev;
              (if negb (addr =? 0) then
                 m ← gets (bdata bp);
                 set_bdata bp (st32 m (4 * bn) addr);;
                 tx (tx_log_write bp)
               else mret tt);;
              mret addr
            else mret addr);
    tx (tx_brelse bp);;
    mret addr
  else panic "bmap: out of range".

Definition itrunc (ip : Z) : M (fs T) unit :=
  dev ← gets (λ s, i_dev (geti ip s));
  for_each (seqZ 0 NDIRECT) (λ i,
    a ← gets (addr_of ip i);
    if negb (a =? 0) then
      bfree dev a;;
      modify (λ s, setd ip (d_set_addr i 0 (getd ip s)) s)
    else mret tt);;
  a ← gets (addr_of ip NDIRECT);
  (if negb (a =? 0) then
     bp ← tx (tx_bread dev a);
     for_each (seqZ 0 NINDIRECT) (λ j,
       aj ← gets (λ s, ld32 (bdata bp s) (4 * j));
       if negb (aj =? 0) then bfree dev aj else mret tt);;
     tx (tx_brelse bp);;
     bfree dev a;;
     modify (λ s, setd ip (d_set_addr NDIRECT 0 (getd ip s)) s)
   else mret tt);;
  modify (λ s, setd ip (d_set_size 0 (getd ip s)) s);;
  iupdate ip.

Definition iput (ip : Z) : M (fs T) unit :=
  acquire it_lock set_it_lock;;
  i ← gets (geti ip);
  (if (i_ref i =? 1) && negb (i_valid i =? 0) && (di_nlink (i_d i) =? 0) then
     acquiresleep (get_ilock ip) (set_ilock ip) pid;;
     release it_lock set_it_lock;;
     itrunc ip;;
     modify (λ s, setd ip (d_set_type 0 (getd ip s)) s);;
     iupdate ip;;
     modify (set_valid ip 0);;
     releasesleep (get_ilock ip) (set_ilock ip);;
     acquire it_lock set_it_lock
   else mret tt);;
  modify (λ s, set_ref ip (i_ref (geti ip s) - 1) s);;
  release it_lock set_it_lock.

Definition iunlockput (ip : Z) : M (fs T) unit := iunlock ip;; iput ip.

Definition ireclaim (dev : Z) : M (fs T) unit :=
  sb ← gets fs_sb;
  for_each (seqZ 1 (sb_ninodes sb - 1)) (λ inum,
    bp ← tx (tx_bread dev (IBLOCK inum sb));
    x ← gets (λ s, ld_di (bdata bp s) (inum mod IPB));
    ip ← (if negb (di_type x =? 0) && (di_nlink x =? 0) then iget dev inum else mret 0);
    tx (tx_brelse bp);;
    if negb (ip =? 0) then
      tx tx_begin_op;;
      ilock ip;;
      iunlock ip;;
      iput ip;;
      tx tx_end_op
    else mret tt).

Definition fsinit (dev : Z) : M (fs T) unit :=
  readsb dev;;
  sb ← gets fs_sb;
  panic_if (negb (sb_magic sb =? FSMAGIC)) "invalid file system";;
  tx (tx_initlog dev (sb_logstart sb));;
  ireclaim dev.

Record stat := Stat { st_dev : Z; st_ino : Z; st_type : Z; st_nlink : Z; st_size : Z }.

Definition stati (ip : Z) : M (fs T) stat :=
  gets (λ s, let i := geti ip s in Stat (i_dev i) (i_inum i) (di_type (i_d i)) (di_nlink (i_d i)) (di_size (i_d i))).

(** [km] is the kernel's buffer when [user_dst] is false.  The bytes read are
    those of at most [n / BSIZE + 2] blocks. *)
Definition readi (ip : Z) (user_dst : bool) (dst off n : Z) (km : mem) : M (fs T) (Z * mem) :=
  size ← gets (λ s, di_size (getd ip s));
  dev ← gets (λ s, i_dev (geti ip s));
  if (size <? off) || (u32 (off + n) <? off) then mret (0, km) else
  let n := if size <? u32 (off + n) then u32 (size - off) else n in
  loop (Z.to_nat (n / BSIZE) + 3) (λ x : Z * Z * Z * mem,
    let '(tot, off, dst, km) := x in
    if negb (tot <? n) then mret (inr (i32 tot, km)) else
    addr ← bmap ip (off / BSIZE);
    if addr =? 0 then mret (inr (i32 tot, km)) else
    bp ← tx (tx_bread dev addr);
    let m := Z.min (n - tot) (BSIZE - off mod BSIZE) in
    data ← gets (bdata bp);
    u ← gets fs_u;
    let '(r, u', km') := either_copyout user_dst u km dst data (off mod BSIZE) m in
    modify (set_fs_u u');;
    tx (tx_brelse bp);;
    if r =? -1 then mret (inr (-1, km'))
    else mret (inl (u32 (tot + m), u32 (off + m), u64 (dst + m), km'))) (0, off, dst, km).

Definition writei (ip : Z) (user_src : bool) (src off n : Z) (km : mem) : M (fs T) Z :=
  size ← gets (λ s, di_size (getd ip s));
  dev ← gets (λ s, i_dev (geti ip s));
  if (size <? off) || (u32 (off + n) <? off) then mret (-1) else
  if u32 (off + n) >? MAXFILE * BSIZE then mret (-1) else
  '(tot, off) ← loop (Z.to_nat (n / BSIZE) + 3) (λ x : Z * Z * Z,
    let '(tot, off, src) := x in
    if negb (tot <? n) then mret (inr (tot, off)) else
    addr ← bmap ip (off / BSIZE);
    if addr =? 0 then mret (inr (tot, off)) else
    bp ← tx (tx_bread dev addr);
    let m := Z.min (n - tot) (BSIZE - off mod BSIZE) in
    data ← gets (bdata bp);
    u ← gets fs_u;
    let '(r, data') := either_copyin data (off mod BSIZE) user_src u km src m in
    set_bdata bp data';;
    if r =? -1 then tx (tx_brelse bp);; mret (inr (tot, off)) else
    tx (tx_log_write bp);;
    tx (tx_brelse bp);;
    mret (inl (u32 (tot + m), u32 (off + m), u64 (src + m)))) (0, off, src);
  size ← gets (λ s, di_size (getd ip s));
  (if size <? off then modify (λ s, setd ip (d_set_size off (getd ip s)) s) else mret tt);;
  iupdate ip;;
  mret (i32 tot).

(** ** Directories *)

(** [strncmp] over two byte sequences, as [namecmp] calls it: up to [n] bytes,
    stopping at a zero or a difference.  A sequence ends in zeros. *)
Fixpoint strncmp (n : nat) (p q : list Z) : Z :=
  match n with
  | O => 0
  | Datatypes.S n' =>
      let a := default 0 (head p) in
      let b := default 0 (head q) in
      if negb (a =? 0) && (a =? b) then strncmp n' (tail p) (tail q) else a - b
  end.
Definition namecmp (s t : list Z) : Z := strncmp (Z.to_nat DIRSIZ) s t.

(** [strncpy] of a name into the [DIRSIZ] bytes of an entry. *)
Definition name_bytes (name : list Z) : list Z := take 14 (name ++ replicate 14 0).

(** [struct dirent]: 16 bytes, the number and the name. *)
Definition DE_SIZE : Z := 16.
Definition de_inum (m : mem) : Z := ld16 m 0.
Definition de_name (m : mem) : list Z := ldbytes m 2 14.
Definition de_make (inum : Z) (name : list Z) : mem :=
  foldl (λ m (x : Z * Z), stb m x.1 x.2) (st16 ∅ 0 inum) (zip (seqZ 2 14) (name_bytes name)).

(** The inode and the offset of the entry. *)
Definition dirlookup (dp : Z) (name : list Z) : M (fs T) (Z * Z) :=
  t ← gets (λ s, di_type (getd dp s));
  panic_if (negb (t =? T_DIR)) "dirlookup not DIR";;
  size ← gets (λ s, di_size (getd dp s));
  r ← for_ret (map (λ k, k * DE_SIZE) (seqZ 0 ((size + DE_SIZE - 1) / DE_SIZE))) (λ off,
    '(r, de) ← readi dp false 0 off DE_SIZE ∅;
    panic_if (negb (r =? DE_SIZE)) "dirlookup read";;
    if de_inum de =? 0 then mret None else
    if namecmp name (de_name de) =? 0 then
      dev ← gets (λ s, i_dev (geti dp s));
      ip ← iget dev (de_inum de);
      mret (Some (ip, off))
    else mret None);
  mret (default (0, 0) r).

Definition dirlink (dp : Z) (name : list Z) (inum : Z) : M (fs T) Z :=
  '(ip, _) ← dirlookup dp name;
  if negb (ip =? 0) then iput ip;; mret (-1) else
  size ← gets (λ s, di_size (getd dp s));
  let slots := map (λ k, k * DE_SIZE) (seqZ 0 ((size + DE_SIZE - 1) / DE_SIZE)) in
  o ← for_ret slots (λ off,
    '(r, de) ← readi dp false 0 off DE_SIZE ∅;
    panic_if (negb (r =? DE_SIZE)) "dirlink read";;
    mret (if de_inum de =? 0 then Some off else None));
  let off := default ((size + DE_SIZE - 1) / DE_SIZE * DE_SIZE) o in
  r ← writei dp false 0 off DE_SIZE (de_make inum name);
  mret (if negb (r =? DE_SIZE) then -1 else 0).

(** ** Paths *)

Definition SLASH : Z := 47.

Fixpoint skip_slashes (path : list Z) : list Z :=
  match path with c :: path' => if c =? SLASH then skip_slashes path' else path | [] => [] end.

(** The bytes before the next slash, and the rest. *)
Fixpoint take_elem (path : list Z) : list Z * list Z :=
  match path with
  | c :: path' => if c =? SLASH then ([], path) else let '(e, r) := take_elem path' in (c :: e, r)
  | [] => ([], [])
  end.

(** A path is the bytes before its terminating zero.  The name is what the
    buffer holds up to [DIRSIZ] bytes or its zero. *)
Definition skipelem (path : list Z) : option (list Z * list Z) :=
  let path := skip_slashes path in
  match path with
  | [] => None
  | _ =>
      let '(s, path) := take_elem path in
      let name := if Z.of_nat (length s) >=? DIRSIZ then take 14 s else s in
      Some (name, skip_slashes path)
  end.

(** One element of the path. *)
Definition namex_step (nameiparent : bool) (x : Z * list Z * list Z) : M (fs T) (Z * list Z * list Z + Z * list Z) :=
  let '(ip, path, name) := x in
  match skipelem path with
  | None =>
      if nameiparent then iput ip;; mret (inr (0, name)) else mret (inr (ip, name))
  | Some (name, path) =>
      ilock ip;;
      t ← gets (λ s, di_type (getd ip s));
      if negb (t =? T_DIR) then iunlockput ip;; mret (inr (0, name)) else
      if nameiparent && bool_decide (path = []) then iunlock ip;; mret (inr (ip, name)) else
      '(next, _) ← dirlookup ip name;
      if next =? 0 then iunlockput ip;; mret (inr (0, name)) else
      iunlockput ip;;
      mret (inl (next, path, name))
  end.

(** The inode and the last element found; [cwd] is [myproc()->cwd]. *)
Definition namex (cwd : Z) (path : list Z) (nameiparent : bool) : M (fs T) (Z * list Z) :=
  ip ← (if bool_decide (head path = Some SLASH) then iget ROOTDEV ROOTINO else idup cwd);
  loop (length path + 1) (namex_step nameiparent) (ip, path, []).

Definition namei (cwd : Z) (path : list Z) : M (fs T) Z :=
  '(ip, _) ← namex cwd path false;
  mret ip.

Definition nameiparent (cwd : Z) (path : list Z) : M (fs T) (Z * list Z) := namex cwd path true.
End Fs.
