(* ===== verification/FsBlock.v ===== *)
(** * Blocks of the file system: the bitmap allocator

    [balloc] and [bfree] on the blocks as the transaction sees them.  The
    bitmap's meaning is [used]. *)

From S2P Require Import Prelude Mem Kstring Layout BufIface Sleeplock TxIface Fs.

(** ** Bits *)

Lemma land_bit_eqb x k : 0 ≤ k → (Z.land x (Z.shiftl 1 k) =? 0) = negb (Z.testbit x k).
Proof.
  intros Hk. rewrite Z.shiftl_1_l. destruct (Z.testbit x k) eqn:E; cbn [negb].
  - apply Z.eqb_neq. intros H. apply (f_equal (λ y, Z.testbit y k)) in H.
    rewrite Z.land_spec, E, Z.pow2_bits_true, Z.bits_0 in H by done. done.
  - apply Z.eqb_eq. apply Z.bits_inj'. intros n Hn. rewrite Z.land_spec, Z.bits_0.
    destruct (decide (n = k)) as [->|Hne]; [by rewrite E|]. rewrite Z.pow2_bits_false by done. apply andb_false_r.
Qed.

Lemma testbit_lor_bit x k n : 0 ≤ k → 0 ≤ n → Z.testbit (Z.lor x (Z.shiftl 1 k)) n = Z.testbit x n || (n =? k).
Proof.
  intros Hk Hn. rewrite Z.lor_spec, Z.shiftl_1_l. f_equal. destruct (Z.eqb_spec n k) as [->|Hne].
  - by rewrite Z.pow2_bits_true.
  - by rewrite Z.pow2_bits_false.
Qed.

Lemma testbit_clear_bit x k n : 0 ≤ k → 0 ≤ n → Z.testbit (Z.land x (Z.lnot (Z.shiftl 1 k))) n = Z.testbit x n && negb (n =? k).
Proof.
  intros Hk Hn. rewrite Z.land_spec, Z.lnot_spec, Z.shiftl_1_l by done. f_equal. f_equal. destruct (Z.eqb_spec n k) as [->|Hne].
  - by rewrite Z.pow2_bits_true.
  - by rewrite Z.pow2_bits_false.
Qed.

Lemma testbit_u8 x n : 0 ≤ n < 8 → Z.testbit (u8 x) n = Z.testbit x n.
Proof. intros Hn. unfold u8. change 256 with (2 ^ 8). apply Z.mod_pow2_bits_low. lia. Qed.

(** ** The layout of the disk *)

(** The first block after the bitmap. *)
Definition dstart (sb : superblock) : Z := sb_bmapstart sb + (sb_size sb + BPB - 1) / BPB.

Record sb_ok (sb : superblock) : Prop := {
  sbo_ninodes : 1 < sb_ninodes sb;
  sbo_inodes : 0 < sb_inodestart sb ∧ sb_inodestart sb + (sb_ninodes sb - 1) / IPB < sb_bmapstart sb;
  sbo_data : dstart sb < sb_size sb;
  sbo_size : 0 < sb_size sb < 2147483648
}.

(** The blocks of the bitmap. *)
Definition bitmaps (sb : superblock) : gset Z := list_to_set (seqZ (sb_bmapstart sb) (dstart sb - sb_bmapstart sb)).

(** The bit of a block. *)
Definition bit_of (m : mem) (bi : Z) : bool := Z.testbit (ldb m (bi / 8)) (bi mod 8).
Definition bit_set (m : mem) (bi : Z) : mem := stb m (bi / 8) (Z.lor (ldb m (bi / 8)) (Z.shiftl 1 (bi mod 8))).
Definition bit_clear (m : mem) (bi : Z) : mem := stb m (bi / 8) (Z.land (ldb m (bi / 8)) (Z.lnot (Z.shiftl 1 (bi mod 8)))).

Lemma byte_bit bi k : bi / 8 = k / 8 → bi mod 8 = k mod 8 → bi = k.
Proof. pose proof (Z.div_mod bi 8). pose proof (Z.div_mod k 8). lia. Qed.

Lemma bit_of_set m bi k : bit_of (bit_set m bi) k = bit_of m k || (k =? bi).
Proof.
  unfold bit_of, bit_set. pose proof (Z.mod_pos_bound bi 8). pose proof (Z.mod_pos_bound k 8). rewrite ldb_stb. case_bool_decide as Hb.
  - rewrite testbit_u8, testbit_lor_bit, Hb by lia. f_equal.
    destruct (Z.eqb_spec k bi) as [->|Hne]; [apply Z.eqb_refl|]. apply Z.eqb_neq. intros Hm. apply Hne. by apply byte_bit.
  - destruct (Z.eqb_spec k bi) as [->|Hne]; [done|]. by rewrite orb_false_r.
Qed.

Lemma bit_of_clear m bi k : bit_of (bit_clear m bi) k = bit_of m k && negb (k =? bi).
Proof.
  unfold bit_of, bit_clear. pose proof (Z.mod_pos_bound bi 8). pose proof (Z.mod_pos_bound k 8). rewrite ldb_stb. case_bool_decide as Hb.
  - rewrite testbit_u8, testbit_clear_bit, Hb by lia. f_equal. f_equal.
    destruct (Z.eqb_spec k bi) as [->|Hne]; [apply Z.eqb_refl|]. apply Z.eqb_neq. intros Hm. apply Hne. by apply byte_bit.
  - destruct (Z.eqb_spec k bi) as [->|Hne]; [done|]. by rewrite andb_true_r.
Qed.

(** Block [b] is marked in use. *)
Definition bused (sb : superblock) (cur : Z → mem) (b : Z) : bool := bit_of (cur (BBLOCK b sb)) (b mod BPB).

Section Blocks.
Context (sb : superblock) (Hsb : sb_ok sb).

Lemma BPB_eq : BPB = 8192.
Proof. reflexivity. Qed.

Lemma BBLOCK_range b : 0 ≤ b < sb_size sb → BBLOCK b sb = b / 8192 + sb_bmapstart sb ∧ sb_bmapstart sb ≤ BBLOCK b sb < dstart sb.
Proof.
  intros Hb. destruct Hsb as [H1 [H2 H3] H4 H5]. unfold BBLOCK, dstart, IPB, BSIZE in *. change (1024 * 8) with 8192 in *.
  pose proof (Z.div_pos b 8192). pose proof (Z.div_pos (sb_ninodes sb - 1) (1024 / 64)). change (1024 / 64) with 16 in *.
  assert (b / 8192 < (sb_size sb + 8192 - 1) / 8192).
  { replace (sb_size sb + 8192 - 1) with (1 * 8192 + (sb_size sb - 1)) by lia. rewrite Z.div_add_l by lia.
    pose proof (Z.div_le_mono b (sb_size sb - 1) 8192). lia. }
  rewrite BPB_eq in *. rewrite u32_small by lia. lia.
Qed.

(** The block of bitmap that also holds the bit of [b']. *)
Lemma BBLOCK_same b b' : 0 ≤ b < sb_size sb → 0 ≤ b' < sb_size sb →
  BBLOCK b sb = BBLOCK b' sb → b mod BPB = b' mod BPB → b = b'.
Proof.
  intros Hb Hb' HB Hm. destruct (BBLOCK_range b Hb) as [E _], (BBLOCK_range b' Hb') as [E' _]. rewrite BPB_eq in *.
  pose proof (Z.div_mod b 8192). pose proof (Z.div_mod b' 8192). lia.
Qed.

Lemma bused_set cur b b' m :
  0 ≤ b < sb_size sb → 0 ≤ b' < sb_size sb → dstart sb ≤ b →
  bused sb (cur_set b m (cur_set (BBLOCK b sb) (bit_set (cur (BBLOCK b sb)) (b mod BPB)) cur)) b' = bused sb cur b' || (b' =? b).
Proof.
  intros Hb Hb' Hd. destruct (BBLOCK_range b' Hb') as [_ Hr]. unfold bused, cur_set.
  rewrite decide_False by lia. case_decide as E.
  - rewrite E, bit_of_set. f_equal. destruct (Z.eqb_spec b' b) as [->|Hne]; [apply Z.eqb_refl|].
    apply Z.eqb_neq. intros Hm. apply Hne. by apply BBLOCK_same.
  - destruct (Z.eqb_spec b' b) as [->|Hne]; [done|]. by rewrite orb_false_r.
Qed.

Lemma bused_clear cur b b' :
  0 ≤ b < sb_size sb → 0 ≤ b' < sb_size sb →
  bused sb (cur_set (BBLOCK b sb) (bit_clear (cur (BBLOCK b sb)) (b mod BPB)) cur) b' = bused sb cur b' && negb (b' =? b).
Proof.
  intros Hb Hb'. unfold bused, cur_set. case_decide as E.
  - rewrite E, bit_of_clear. f_equal. f_equal. destruct (Z.eqb_spec b' b) as [->|Hne]; [apply Z.eqb_refl|].
    apply Z.eqb_neq. intros Hm. apply Hne. by apply BBLOCK_same.
  - destruct (Z.eqb_spec b' b) as [->|Hne]; [done|]. by rewrite andb_true_r.
Qed.
End Blocks.

(** ** Steps of a transaction *)

(** [x] has contents [m], logged. *)
Definition tv_put (x : Z) (m : mem) (v : tview) : tview :=
  TView (cur_set x m (tv_cur v)) (tv_held v) ({[x]} ∪ tv_logged v) (tv_raw v).

(** Space in the log and the cache for [k] more blocks, besides the blocks of
    [X]. *)
Definition room (X : gset Z) (k : Z) (v : tview) : Prop := Z.of_nat (size (tv_used v ∪ X)) + k ≤ NBUF.

Lemma room_less X k k' v : room X k v → k' ≤ k → room X k' v.
Proof. unfold room. lia. Qed.

Lemma used_put x m v : tv_used (tv_put x m v) = {[x]} ∪ tv_used v.
Proof. unfold tv_used, tv_put. cbn. by rewrite union_assoc_L. Qed.

Lemma used_hold b x v : tv_used (tv_hold b x v) ⊆ {[x]} ∪ tv_used v.
Proof.
  unfold tv_used, tv_hold. cbn. intros y [Hy|Hy]%elem_of_union; [set_solver|]. apply elem_of_map_img in Hy as [c Hc].
  apply lookup_insert_Some in Hc as [[_ <-]|[_ Hc]]; [set_solver|]. apply elem_of_union_r, elem_of_union_r, elem_of_map_img. eauto.
Qed.

Lemma size_add (x : Z) (X : gset Z) : (size ({[x]} ∪ X) ≤ size X + 1)%nat.
Proof.
  rewrite size_union_alt, size_singleton. assert (size (X ∖ {[x]}) ≤ size X)%nat by (apply subseteq_size; set_solver). lia.
Qed.

(** At most [x] is new. *)
Lemma room_one X k x v v' : tv_used v' ⊆ {[x]} ∪ tv_used v → room X (k + 1) v → room X k v'.
Proof.
  unfold room. intros Hs H. pose proof (size_add x (tv_used v ∪ X)).
  assert (size (tv_used v' ∪ X) ≤ size ({[x]} ∪ (tv_used v ∪ X)))%nat by (apply subseteq_size; set_solver). lia.
Qed.

(** Nothing outside [X] is new. *)
Lemma room_in X k v v' : tv_used v' ⊆ tv_used v ∪ X → room X k v → room X k v'.
Proof.
  unfold room. intros Hs H. assert (size (tv_used v' ∪ X) ≤ size (tv_used v ∪ X))%nat by (apply subseteq_size; set_solver). lia.
Qed.

Lemma room_put X k x m v : room X (k + 1) v → room X k (tv_put x m v).
Proof. apply (room_one X k x). rewrite used_put. done. Qed.

Lemma room_hold X k b x v : room X (k + 1) v → room X k (tv_hold b x v).
Proof. apply (room_one X k x), used_hold. Qed.

Lemma room_size X v : room X 1 v → Z.of_nat (size (tv_used v)) < NBUF ∧ Z.of_nat (size (tv_logged v)) < LOGBLOCKS.
Proof.
  unfold room. intros H. assert (size (tv_used v) ≤ size (tv_used v ∪ X))%nat by (apply subseteq_size; set_solver).
  assert (size (tv_logged v) ≤ size (tv_used v ∪ X))%nat by (apply subseteq_size; unfold tv_used; set_solver).
  change LOGBLOCKS with NBUF. lia.
Qed.

Section Steps.
Context {T : Type} {TO : TxOps T} {TS : TxSpec T} {TW : TxWriteSpec T}.
Implicit Types (v : tview) (s : fs T).

Lemma set_fs_t_id s : set_fs_t (fs_t s) s = s.
Proof. by destruct s. Qed.

Lemma wp_bread X v s x Q :
  tx_ok v (fs_t s) → tx_home x → x ∉ (map_img (tv_held v) : gset Z) → room X 1 v →
  (∀ b t', tv_held v !! b = None → tx_ok (tv_hold b x v) t' → tx_data b t' = tv_cur v x → Q b (set_fs_t t' s)) →
  wp (tx (tx_bread ROOTDEV x)) Q s.
Proof.
  intros Hok Hh Hx Hr HQ. unfold tx. rewrite wp_lift. wp_apply tx_bread_spec; [done..|by eapply room_size|].
  intros b t' (Hb & Hok'). apply HQ; [done..|]. by rewrite (tx_data_spec _ _ _ x Hok') by apply lookup_insert_eq.
Qed.

Lemma drop_hold b x v : tv_held v !! b = None → tv_drop b (tv_hold b x v) = v.
Proof. intros Hb. destruct v. unfold tv_drop, tv_hold. cbn in *. by rewrite delete_insert_id. Qed.

Lemma wp_brelse v s b x Q :
  tv_held v !! b = None → tx_ok (tv_hold b x v) (fs_t s) → x ∉ tv_raw v →
  (∀ t', tx_ok v t' → Q tt (set_fs_t t' s)) → wp (tx (tx_brelse b)) Q s.
Proof.
  intros Hb Hok Hr HQ. unfold tx. rewrite wp_lift. wp_apply tx_brelse_spec; [exact Hok|apply lookup_insert_eq|done|].
  intros [] t' Hok'. rewrite drop_hold in Hok' by done. by apply HQ.
Qed.

Lemma wp_put_steps X v s b x m Q :
  tv_held v !! b = None → tx_ok (tv_hold b x v) (fs_t s) → x ∉ tv_raw v → room X 1 v →
  (∀ t', tx_ok (tv_put x m v) t' → Q tt (set_fs_t t' s)) →
  wp (set_bdata b m) (λ _, wp (tx (tx_log_write b)) (λ _, wp (tx (tx_brelse b)) Q)) s.
Proof.
  intros Hb Hok Hr Hrm HQ. unfold set_bdata. wp_step. unfold tx at 1. rewrite wp_lift.
  pose proof (tx_set_data_spec _ _ b x m Hok) as Hok2. cbn [fs_t set_fs_t].
  wp_apply tx_log_write_spec; [apply Hok2, lookup_insert_eq|apply lookup_insert_eq|exact (proj2 (room_size X v Hrm))|].
  intros [] t2 Hok3. unfold tx. rewrite wp_lift. cbn [fs_t set_fs_t].
  wp_apply tx_brelse_spec; [exact Hok3|apply lookup_insert_eq|cbn; set_solver|].
  intros [] t3 Hok4. assert (tv_drop b (tv_log x (tv_set x m (tv_hold b x v))) = tv_put x m v) as E.
  { unfold tv_drop, tv_log, tv_set, tv_hold, tv_put. cbn. f_equal; [by apply delete_insert_id|]. set_solver. }
  rewrite E in Hok4. by apply HQ.
Qed.

Lemma wp_put {A} X v s b x m (k : M (fs T) A) Q :
  tv_held v !! b = None → tx_ok (tv_hold b x v) (fs_t s) → x ∉ tv_raw v → room X 1 v →
  (∀ t', tx_ok (tv_put x m v) t' → wp k Q (set_fs_t t' s)) →
  wp (set_bdata b m;; tx (tx_log_write b);; tx (tx_brelse b);; k) Q s.
Proof.
  intros Hb Hok Hr Hrm HQ. wp_step. eapply wp_mono; [by eapply (wp_put_steps X v s b x m (λ _, wp k Q))|].
  intros [] s1 H1. wp_step. eapply wp_mono; [exact H1|]. intros [] s2 H2. by wp_step.
Qed.

Lemma wp_put_end X v s b x m Q :
  tv_held v !! b = None → tx_ok (tv_hold b x v) (fs_t s) → x ∉ tv_raw v → room X 1 v →
  (∀ t', tx_ok (tv_put x m v) t' → Q tt (set_fs_t t' s)) →
  wp (set_bdata b m;; tx (tx_log_write b);; tx (tx_brelse b)) Q s.
Proof.
  intros Hb Hok Hr Hrm HQ. wp_step. eapply wp_mono; [by eapply (wp_put_steps X v s b x m Q)|].
  intros [] s1 H1. by wp_step.
Qed.

Lemma bzero_spec X v s x Q :
  tx_ok v (fs_t s) → tx_home x → x ∉ (map_img (tv_held v) : gset Z) → x ∉ tv_raw v → room X 1 v →
  (∀ t', tx_ok (tv_put x (memset (tv_cur v x) 0 0 BSIZE) v) t' → Q tt (set_fs_t t' s)) →
  wp (bzero ROOTDEV x) Q s.
Proof.
  intros Hok Hh Hx Hr Hrm HQ. unfold bzero. wp_step. eapply wp_bread; [done..|]. intros b t1 Hb Hok1 Hd.
  wp_step. wp_step. unfold bdata at 1. cbn [fs_t set_fs_t]. rewrite Hd. by eapply wp_put_end.
Qed.
End Steps.

(** ** [balloc] and [bfree] *)

Section Alloc.
Context {T : Type} {TO : TxOps T} {TS : TxSpec T} {TW : TxWriteSpec T} (sb : superblock) (Hsb : sb_ok sb).
Context (Hhome : ∀ x, sb_inodestart sb ≤ x < sb_size sb → tx_home x).
Implicit Types (v : tview) (s : fs T).

(** The blocks before the data are marked in use. *)
Definition bm_ok (cur : Z → mem) : Prop := ∀ b, 0 ≤ b < dstart sb → bused sb cur b = true.

Definition tv_alloc (a : Z) (v : tview) : tview :=
  let v1 := tv_put (BBLOCK a sb) (bit_set (tv_cur v (BBLOCK a sb)) (a mod BPB)) v in
  tv_put a (memset (tv_cur v1 a) 0 0 BSIZE) v1.
Definition tv_free (a : Z) (v : tview) : tview :=
  tv_put (BBLOCK a sb) (bit_clear (tv_cur v (BBLOCK a sb)) (a mod BPB)) v.

(** What a caller may hold: data blocks in use. *)
Definition held_data v : Prop := ∀ x, x ∈ (map_img (tv_held v) : gset Z) → dstart sb ≤ x ∧ bused sb (tv_cur v) x = true.

Lemma bitmap_home b : 0 ≤ b < sb_size sb → tx_home (BBLOCK b sb).
Proof.
  intros Hb. apply Hhome. destruct (BBLOCK_range sb Hsb b Hb) as [_ Hr]. destruct Hsb as [H1 [H2 H3] H4 H5].
  pose proof (Z.div_pos (sb_ninodes sb - 1) IPB). unfold IPB, BSIZE in *. change (1024 / 64) with 16 in *. lia.
Qed.

Lemma bitmaps_in b : 0 ≤ b < sb_size sb → BBLOCK b sb ∈ bitmaps sb.
Proof. intros Hb. destruct (BBLOCK_range sb Hsb b Hb) as [_ Hr]. apply elem_of_list_to_set, elem_of_seqZ. lia. Qed.

Lemma data_home b : dstart sb ≤ b < sb_size sb → tx_home b.
Proof.
  intros Hb. apply Hhome. destruct (Hsb) as [H1 [H2 H3] H4 H5]. destruct (BBLOCK_range sb Hsb 0) as [_ Hr]; [lia|].
  pose proof (Z.div_pos (sb_ninodes sb - 1) IPB). unfold IPB, BSIZE in *. change (1024 / 64) with 16 in *. lia.
Qed.

Lemma balloc_scan_spec m b :
  match balloc_scan m b (sb_size sb) with
  | Some bi => 0 ≤ bi < Z.min BPB (sb_size sb - b) ∧ bit_of m bi = false
  | None => ∀ bi, 0 ≤ bi < Z.min BPB (sb_size sb - b) → bit_of m bi = true
  end.
Proof.
  unfold balloc_scan. set (f := λ bi, _ =? 0).
  assert (∀ bi, f bi = negb (bit_of m bi)) as Hf.
  { intros bi. unfold f, bit_of. apply land_bit_eqb. apply Z.mod_pos_bound. lia. }
  destruct (List.find f _) as [bi|] eqn:E.
  - apply List.find_some in E as [Hin Hb]. apply list_elem_of_In, elem_of_seqZ in Hin. rewrite Hf in Hb.
    split; [lia|]. by destruct (bit_of m bi).
  - intros bi Hbi. pose proof (List.find_none _ _ E bi) as H. rewrite Hf in H.
    destruct (bit_of m bi); [done|]. discriminate H. apply list_elem_of_In, elem_of_seqZ. lia.
Qed.

Lemma bit_block k bi : 0 ≤ k → 0 ≤ bi < 8192 → 0 ≤ k * 8192 + bi < sb_size sb →
  BBLOCK (k * 8192 + bi) sb = BBLOCK (k * 8192) sb ∧ (k * 8192 + bi) mod 8192 = bi.
Proof.
  intros Hk Hbi Hr. destruct (BBLOCK_range sb Hsb (k * 8192 + bi) Hr) as [-> _].
  destruct (BBLOCK_range sb Hsb (k * 8192)) as [-> _]; [lia|].
  rewrite Z.div_add_l, Z.div_mul, (Z.div_small bi) by lia. split; [lia|].
  rewrite Z.add_comm, Z.mod_add by lia. by apply Z.mod_small.
Qed.

Lemma balloc_spec v s Q :
  fs_sb s = sb → tx_ok v (fs_t s) → tv_raw v = ∅ → room (bitmaps sb) 1 v → held_data v → bm_ok (tv_cur v) →
  (∀ t', (∀ b, 0 ≤ b < sb_size sb → bused sb (tv_cur v) b = true) → tx_ok v t' → Q 0 (set_fs_t t' s)) →
  (∀ a t', dstart sb ≤ a < sb_size sb → bused sb (tv_cur v) a = false → tx_ok (tv_alloc a v) t' → Q a (set_fs_t t' s)) →
  wp (balloc ROOTDEV) Q s.
Proof.
  intros Hs Hok Hraw Hroom Hheld Hbm Hfull Hdone. pose proof BPB_eq as HB. unfold balloc. wp_step. wp_step. rewrite Hs. wp_step.
  set (N := (sb_size sb + BPB - 1) / BPB). assert (N = (sb_size sb + 8192 - 1) / 8192) as HN by (unfold N; by rewrite HB). clearbody N.
  apply (wp_for_ret (λ d s', ∃ t', s' = set_fs_t t' s ∧ tx_ok v t' ∧
    ∀ k bi, k * BPB ∈ d → 0 ≤ k → 0 ≤ bi < BPB → k * BPB + bi < sb_size sb → bused sb (tv_cur v) (k * BPB + bi) = true)).
  - exists (fs_t s). split_and!; [by rewrite set_fs_t_id|done|]. set_solver.
  - intros d b rest s' Hd (t' & -> & Hok' & Hall). assert (b ∈ map (λ k, k * BPB) (seqZ 0 N)) as Hb by (rewrite Hd; set_solver).
    apply list_elem_of_fmap in Hb as (k & -> & Hk). apply elem_of_seqZ in Hk. rewrite HB in *.
    assert (0 ≤ k * 8192 < sb_size sb) as Hkr.
    { assert (k * 8192 ≤ (N - 1) * 8192) by lia. pose proof (Z.div_mod (sb_size sb + 8192 - 1) 8192).
      pose proof (Z.mod_pos_bound (sb_size sb + 8192 - 1) 8192). lia. }
    destruct (BBLOCK_range sb Hsb _ Hkr) as [HE HR].
    assert (BBLOCK (k * 8192) sb ∉ (map_img (tv_held v) : gset Z)) as Hnh by (intros Hx%Hheld; lia).
    wp_step. eapply (wp_bread (bitmaps sb) v); [done|by apply bitmap_home|done|exact Hroom|].
    intros bp t1 Hbp Hok1 Hdt. wp_step. wp_step. unfold bdata at 1 2 3. cbn [fs_t set_fs_t]. rewrite !Hdt.
    pose proof (balloc_scan_spec (tv_cur v (BBLOCK (k * 8192) sb)) (k * 8192)) as Hsc. rewrite HB in Hsc.
    destruct (balloc_scan _ _ _) as [bi|].
    + destruct Hsc as [Hbi Hbit]. destruct (bit_block k bi) as [EB Em]; [lia..|].
      remember (k * 8192 + bi) as a eqn:Ha. assert (bused sb (tv_cur v) a = false) as Hfree by (unfold bused; by rewrite EB, HB, Em).
      assert (dstart sb ≤ a) as Hds. { destruct (decide (dstart sb ≤ a)); [done|]. rewrite (Hbm a) in Hfree by lia. done. }
      eapply (wp_put (bitmaps sb) v); [done|done|by rewrite Hraw|exact Hroom|]. intros t2 Hok2.
      wp_step. eapply bzero_spec; [exact Hok2|apply data_home; lia| |by cbn; rewrite Hraw| |].
      { intros Hx%Hheld. destruct Hx as [_ Hx]. congruence. }
      { eapply room_in; [|exact Hroom]. rewrite used_put. pose proof (bitmaps_in (k * 8192) Hkr) as Hbi'. clear -Hbi'. set_solver. }
      intros t3 Hok3. wp_step. wp_step. cbn [default id]. 
      apply (Hdone a); [lia|done|].
      unfold tv_alloc. rewrite EB, HB, Em. exact Hok3.
    + wp_step. eapply (wp_brelse v); [done|done|by rewrite Hraw|]. intros t2 Hok2. wp_step. exists t2.
      split_and!; [done..|]. intros k' bi [Hin|Hin%list_elem_of_singleton]%elem_of_app Hk' Hbi' Hlt; [by apply Hall|].
      assert (k' = k) as -> by lia. unfold bused. destruct (bit_block k bi) as [-> Em]; [lia..|]. rewrite HB, Em. apply Hsc. lia.
  - intros s' (t' & -> & Hok' & Hall). wp_step. cbn [default]. apply Hfull; [|done]. intros b Hb.
    pose proof (Z.div_mod b 8192). pose proof (Z.mod_pos_bound b 8192). rewrite HB in *.
    replace b with (b / 8192 * 8192 + b mod 8192) by lia. apply Hall; [|apply Z.div_pos; lia|lia|lia].
    apply list_elem_of_fmap. exists (b / 8192). split; [done|]. apply elem_of_seqZ.
    assert (b / 8192 < N); [|pose proof (Z.div_pos b 8192); lia]. rewrite HN.
    replace (sb_size sb + 8192 - 1) with (1 * 8192 + (sb_size sb - 1)) by lia. rewrite Z.div_add_l by lia.
    pose proof (Z.div_le_mono b (sb_size sb - 1) 8192). lia.
Qed.

Lemma bfree_spec v s a Q :
  fs_sb s = sb → tx_ok v (fs_t s) → tv_raw v = ∅ → room (bitmaps sb) 1 v → held_data v → 0 ≤ a < sb_size sb →
  bused sb (tv_cur v) a = true → (∀ t', tx_ok (tv_free a v) t' → Q tt (set_fs_t t' s)) → wp (bfree ROOTDEV a) Q s.
Proof.
  intros Hs Hok Hraw Hroom Hheld Ha Hu HQ. unfold bfree. wp_step. wp_step. rewrite Hs. wp_step.
  destruct (BBLOCK_range sb Hsb a Ha) as [_ HR].
  eapply (wp_bread (bitmaps sb) v); [done|by apply bitmap_home|intros Hx%Hheld; lia|done|]. intros bp t1 Hbp Hok1 Hdt.
  wp_step. wp_step. unfold bdata at 1 2 3. cbn [fs_t set_fs_t]. rewrite !Hdt. wp_step. wp_step.
  { rewrite land_bit_eqb by (apply Z.mod_pos_bound; lia). unfold bused, bit_of in Hu. by rewrite Hu. }
  eapply (wp_put_end (bitmaps sb) v); [done|done|by rewrite Hraw|done|]. intros t2 Hok2. by apply HQ.
Qed.
End Alloc.
