(* ===== verification/FsFile.v ===== *)
(** * Files: [bmap], [readi], [writei]

    A file is an array of blocks, given by the direct addresses of its inode and
    the words of its indirect block; its bytes are those of the blocks below
    its size.  [bmap] may extend it by zeroed blocks taken from the bitmap,
    [writei] writes its bytes, and neither touches a block of anything else. *)

From S2P Require Import Prelude Mem Kstring Layout BufIface Sleeplock TxIface Fs FsBlock.

(** The address of the indirect block, and of block [bn] of the file. *)
Definition ind (x : dinode) : Z := default 0 (di_addrs x !! 12%nat).
Definition faddr (cur : Z → mem) (x : dinode) (bn : Z) : Z :=
  if bn <? 12 then default 0 (di_addrs x !! Z.to_nat bn)
  else if ind x =? 0 then 0 else ld32 (cur (ind x)) (4 * (bn - 12)).

Definition owned (cur : Z → mem) (x : dinode) (a : Z) : Prop :=
  a ≠ 0 ∧ (a = ind x ∨ ∃ bn, 0 ≤ bn < 268 ∧ a = faddr cur x bn).

(** Byte [i] of the file. *)
Definition fbyte (cur : Z → mem) (x : dinode) (i : Z) : Z := ldb (cur (faddr cur x (i / 1024))) (i mod 1024).

Section File.
Context (sb : superblock) (Hsb : sb_ok sb).

Record file_ok (cur : Z → mem) (x : dinode) : Prop := {
  fo_len : length (di_addrs x) = 13%nat;
  fo_range : ∀ a, owned cur x a → dstart sb ≤ a < sb_size sb ∧ bused sb cur a = true;
  fo_inj : ∀ bn bn', 0 ≤ bn < 268 → 0 ≤ bn' < 268 → faddr cur x bn = faddr cur x bn' → faddr cur x bn ≠ 0 → bn = bn';
  fo_ind : ∀ bn, 0 ≤ bn < 268 → faddr cur x bn ≠ 0 → faddr cur x bn ≠ ind x;
  fo_size : 0 ≤ di_size x ≤ 268 * 1024;
  fo_alloc : ∀ bn, 0 ≤ bn → bn * 1024 < di_size x → faddr cur x bn ≠ 0
}.

Lemma faddr_ext cur cur' x bn : (ind x ≠ 0 → cur' (ind x) = cur (ind x)) → faddr cur' x bn = faddr cur x bn.
Proof. intros H. unfold faddr. destruct (bn <? 12); [done|]. destruct (Z.eqb_spec (ind x) 0); [done|]. by rewrite H. Qed.

Lemma owned_ext cur cur' x a : (ind x ≠ 0 → cur' (ind x) = cur (ind x)) → owned cur' x a ↔ owned cur x a.
Proof.
  intros H. unfold owned. split; intros [Ha [->|(bn & Hbn & E)]]; (split; [done|]).
  - by left.
  - right. exists bn. split; [done|]. by rewrite <-(faddr_ext cur cur').
  - by left.
  - right. exists bn. split; [done|]. by rewrite (faddr_ext cur cur').
Qed.

(** Other blocks and marks may change. *)
Lemma file_ext cur cur' x :
  (ind x ≠ 0 → cur' (ind x) = cur (ind x)) → (∀ a, owned cur x a → bused sb cur a = true → bused sb cur' a = true) →
  file_ok cur x → file_ok cur' x.
Proof.
  intros H Hu [H1 H2 H3 H4 H5 H6]. split; try done.
  - intros a Ha. apply (owned_ext cur) in Ha; [|done]. destruct (H2 a Ha). split; [done|]. by apply Hu.
  - intros bn bn' ? ?. rewrite !(faddr_ext cur cur') by done. by apply H3.
  - intros bn ?. rewrite (faddr_ext cur cur') by done. by apply H4.
  - intros bn ? ?. rewrite (faddr_ext cur cur') by done. by apply H6.
Qed.

Lemma owned_ind cur x : ind x ≠ 0 → owned cur x (ind x).
Proof. intros H. split; [done|by left]. Qed.
Lemma owned_addr cur x bn : 0 ≤ bn < 268 → faddr cur x bn ≠ 0 → owned cur x (faddr cur x bn).
Proof. intros H Hn. split; [done|]. right. by exists bn. Qed.

(** ** A block allocated *)

Lemma cur_alloc v a b :
  a ≠ b → ¬ (sb_bmapstart sb ≤ b < dstart sb) → 0 ≤ a < sb_size sb → tv_cur (tv_alloc sb a v) b = tv_cur v b.
Proof.
  intros Hne Hb Ha. destruct (BBLOCK_range sb Hsb a Ha) as [_ Hr]. unfold tv_alloc, tv_put, cur_set. cbn.
  by rewrite !decide_False by lia.
Qed.

Lemma cur_alloc_new v a i : 0 ≤ i < 1024 → ldb (tv_cur (tv_alloc sb a v) a) i = 0.
Proof.
  intros Hi. unfold tv_alloc. cbn [tv_cur tv_put]. unfold cur_set at 1. rewrite decide_True by done.
  rewrite memset_in by (unfold BSIZE; lia). done.
Qed.

Lemma used_alloc v a b :
  dstart sb ≤ a < sb_size sb → 0 ≤ b < sb_size sb →
  bused sb (tv_cur (tv_alloc sb a v)) b = bused sb (tv_cur v) b || (b =? a).
Proof.
  intros Ha Hb. destruct (BBLOCK_range sb Hsb b Hb) as [_ Hr]. unfold tv_alloc. cbn [tv_cur tv_put].
  assert (0 ≤ a) by (destruct Hsb as [? [? ?] ? ?]; pose proof (Z.div_pos (sb_ninodes sb - 1) IPB); unfold IPB, BSIZE in *; change (1024 / 64) with 16 in *; lia).
  apply bused_set; [done|lia|done|lia].
Qed.

Lemma bm_alloc v a : bm_ok sb (tv_cur v) → dstart sb ≤ a < sb_size sb → bm_ok sb (tv_cur (tv_alloc sb a v)).
Proof. intros Hbm Ha b Hb. destruct (Hsb) as [_ _ ? ?]. rewrite used_alloc by lia. by rewrite (Hbm b). Qed.

Lemma used_tv_alloc v a : 0 ≤ a < sb_size sb → tv_used (tv_alloc sb a v) ⊆ {[a]} ∪ tv_used v ∪ bitmaps sb.
Proof. intros Ha. pose proof (bitmaps_in sb Hsb a Ha). unfold tv_alloc. rewrite !used_put. set_solver. Qed.

Lemma sb_bounds : 0 < sb_bmapstart sb < dstart sb ∧ sb_inodestart sb < sb_bmapstart sb ∧ 0 < sb_inodestart sb.
Proof.
  destruct (Hsb) as [? [? ?] ? ?]. destruct (BBLOCK_range sb Hsb 0) as [_ ?]; [lia|].
  pose proof (Z.div_pos (sb_ninodes sb - 1) IPB). unfold IPB, BSIZE in *. change (1024 / 64) with 16 in *. lia.
Qed.

(** A file keeps its blocks when a free one is allocated. *)
Lemma file_alloc v a x :
  file_ok (tv_cur v) x → dstart sb ≤ a < sb_size sb → bused sb (tv_cur v) a = false →
  file_ok (tv_cur (tv_alloc sb a v)) x ∧ (∀ bn, faddr (tv_cur (tv_alloc sb a v)) x bn = faddr (tv_cur v) x bn) ∧
  ¬ owned (tv_cur v) x a.
Proof.
  intros Hf Ha Hu. pose proof sb_bounds as Hbd.
  assert (ind x ≠ 0 → tv_cur (tv_alloc sb a v) (ind x) = tv_cur v (ind x)) as Hi.
  { intros Hn. destruct (fo_range _ _ Hf _ (owned_ind _ x Hn)) as [Hr Hu']. apply cur_alloc; [congruence|lia|lia]. }
  split_and!.
  - apply (file_ext (tv_cur v)); [done| |done]. intros b Hb Hub. destruct (fo_range _ _ Hf b Hb). rewrite used_alloc by lia. by rewrite Hub.
  - intros bn. by apply faddr_ext.
  - intros Ho. destruct (fo_range _ _ Hf a Ho). congruence.
Qed.

(** ** An address added *)

(** What the file gains. *)
Lemma file_add cur cur' x x' bn a :
  file_ok cur x → 0 ≤ bn < 268 → faddr cur x bn = 0 → a ≠ 0 → ¬ owned cur x a →
  length (di_addrs x') = 13%nat → di_size x' = di_size x → ind x' = ind x →
  (∀ k, 0 ≤ k < 268 → faddr cur' x' k = if decide (k = bn) then a else faddr cur x k) →
  dstart sb ≤ a < sb_size sb → (∀ b, owned cur x b ∨ b = a → bused sb cur' b = true) → file_ok cur' x'.
Proof.
  intros [H1 H2 H3 H4 H5 H6] Hbn H0 Ha Hno Hl Hs Hi Hf Hr Hu.
  assert (∀ b, owned cur' x' b → owned cur x b ∨ b = a) as Ho.
  { intros b [Hb [->|(k & Hk & E)]].
    - left. rewrite Hi. apply owned_ind. congruence.
    - rewrite Hf in E by done. case_decide; [by right|]. left. subst b. by apply owned_addr. }
  split; try done; rewrite ?Hs; try done.
  - intros b Hb. pose proof (Ho b Hb) as Hb'. split; [|by apply Hu]. destruct Hb' as [Hb'| ->]; [by apply H2|done].
  - intros k k' Hk Hk'. rewrite !Hf by done. intros E Hn. destruct (decide (k = bn)) as [->|], (decide (k' = bn)) as [->|]; try done.
    + destruct Hno. rewrite E. apply owned_addr; [done|]. congruence.
    + destruct Hno. rewrite <-E. apply owned_addr; [done|]. congruence.
    + by apply H3.
  - intros k Hk. rewrite Hf, Hi by done. case_decide; [|by apply H4]. intros _ ->. apply Hno, owned_ind. congruence.
  - intros k Hk Hlt. rewrite Hf by lia. case_decide; [done|by apply H6].
Qed.

Lemma addrs_lookup x k : length (di_addrs x) = 13%nat → 0 ≤ k ≤ 12 → is_Some (di_addrs x !! Z.to_nat k).
Proof. intros Hl Hk. apply lookup_lt_is_Some_2. lia. Qed.

Lemma file_set_direct cur x bn a :
  file_ok cur x → 0 ≤ bn < 12 → faddr cur x bn = 0 → a ≠ 0 → ¬ owned cur x a → dstart sb ≤ a < sb_size sb →
  bused sb cur a = true →
  file_ok cur (d_set_addr bn a x) ∧ ind (d_set_addr bn a x) = ind x ∧
  ∀ k, 0 ≤ k < 268 → faddr cur (d_set_addr bn a x) k = if decide (k = bn) then a else faddr cur x k.
Proof.
  intros Hf Hbn H0 Ha Hno Hr Hu.
  assert (ind (d_set_addr bn a x) = ind x) as Hi by (unfold ind, d_set_addr; cbn; rewrite list_lookup_insert_ne; [done|lia]).
  assert (∀ k, 0 ≤ k < 268 → faddr cur (d_set_addr bn a x) k = if decide (k = bn) then a else faddr cur x k) as Hfa.
  { intros k Hk. unfold faddr. rewrite Hi. destruct (Z.ltb_spec k 12); [|by rewrite decide_False by lia].
    cbn. case_decide as E.
    - subst k. rewrite list_lookup_insert_eq; [done|]. rewrite (fo_len _ _ Hf). lia.
    - rewrite list_lookup_insert_ne; [done|lia]. }
  split_and!; [|done|done]. apply (file_add cur cur x _ bn a); try done; [lia|cbn; rewrite length_insert; apply Hf|].
  intros b [Hb| ->]; [by apply (fo_range _ _ Hf)|done].
Qed.

Lemma file_set_ind cur x a :
  file_ok cur x → ind x = 0 → a ≠ 0 → ¬ owned cur x a → dstart sb ≤ a < sb_size sb → bused sb cur a = true →
  (∀ i, 0 ≤ i < 1024 → ldb (cur a) i = 0) →
  file_ok cur (d_set_addr 12 a x) ∧ ind (d_set_addr 12 a x) = a ∧
  ∀ k, 0 ≤ k < 268 → faddr cur (d_set_addr 12 a x) k = faddr cur x k.
Proof.
  intros Hf Hi0 Ha Hno Hr Hu Hz. pose proof (fo_len _ _ Hf) as Hl.
  assert (ind (d_set_addr 12 a x) = a) as Hi by (unfold ind, d_set_addr; cbn; rewrite list_lookup_insert_eq; [done|lia]).
  assert (∀ k, 0 ≤ k < 268 → faddr cur (d_set_addr 12 a x) k = faddr cur x k) as Hfa.
  { intros k Hk. unfold faddr. rewrite Hi, Hi0. destruct (Z.ltb_spec k 12).
    - cbn. rewrite list_lookup_insert_ne; [done|lia].
    - rewrite (proj2 (Z.eqb_neq a 0) Ha). cbn. apply (ldn_zero 4). intros b Hb. apply Hz. lia. }
  split_and!; [|done|done]. destruct Hf as [H1 H2 H3 H4 H5 H6].
  assert (∀ b, owned cur (d_set_addr 12 a x) b → owned cur x b ∨ b = a) as Ho.
  { intros b [Hb [->|(k & Hk & E)]]; [by right|]. rewrite Hfa in E by done. left. split; [done|]. right. eauto. }
  split; try done.
  - cbn. by rewrite length_insert.
  - intros b [Hb| ->]%Ho; [by apply H2|done].
  - intros k k' Hk Hk'. rewrite !Hfa by done. by apply H3.
  - intros k Hk. rewrite Hfa, Hi by done. intros Hn E. apply Hno. rewrite <-E. by apply owned_addr.
  - intros k Hk Hlt. cbn in Hlt. rewrite Hfa by lia. by apply H6.
Qed.

Lemma file_set_word cur x bn a :
  file_ok cur x → 12 ≤ bn < 268 → ind x ≠ 0 → faddr cur x bn = 0 → a ≠ 0 → ¬ owned cur x a →
  dstart sb ≤ a < sb_size sb → bused sb cur a = true →
  let cur' := cur_set (ind x) (st32 (cur (ind x)) (4 * (bn - 12)) a) cur in
  file_ok cur' x ∧ ∀ k, 0 ≤ k < 268 → faddr cur' x k = if decide (k = bn) then a else faddr cur x k.
Proof.
  intros Hf Hbn Hi H0 Ha Hno Hr Hu cur'. destruct (Hsb) as [_ _ _ Hsz].
  assert (∀ k, 0 ≤ k < 268 → faddr cur' x k = if decide (k = bn) then a else faddr cur x k) as Hfa.
  { intros k Hk. unfold faddr, cur', cur_set. destruct (Z.ltb_spec k 12); [by rewrite decide_False by lia|].
    rewrite (proj2 (Z.eqb_neq _ 0) Hi), (decide_True (P := ind x = ind x)) by done. case_decide as E.
    - subst k. apply ld32_st32_eq. pose proof sb_bounds. lia.
    - apply (ldn_stn_ne 4 4). lia. }
  split; [|done]. destruct (fo_range _ _ Hf _ (owned_ind cur x Hi)) as [Hir _].
  assert (∀ b, 0 ≤ b < sb_size sb → bused sb cur' b = bused sb cur b) as Hu'.
  { intros b Hb. destruct (BBLOCK_range sb Hsb b Hb) as [_ HR]. unfold bused, cur', cur_set. by rewrite decide_False by lia. }
  pose proof sb_bounds as Hbd. apply (file_add cur cur' x x bn a); try done; [lia|apply Hf|].
  intros b [Hb| ->]; [|by rewrite Hu' by lia]. destruct (fo_range _ _ Hf b Hb). by rewrite Hu' by lia.
Qed.
End File.
