(* ===== verification/FsBmap.v ===== *)
(** * [bmap]: the blocks of a file, extended on demand *)

From S2P Require Import Prelude Mem Kstring Layout BufIface Sleeplock TxIface Fs FsBlock FsFile.

Section Bmap.
Context {T : Type} {TO : TxOps T} {TS : TxSpec T} {TW : TxWriteSpec T} (sb : superblock) (Hsb : sb_ok sb).
Context (Hhome : ∀ x, sb_inodestart sb ≤ x < sb_size sb → tx_home x).
Implicit Types (v : tview) (s : fs T) (x : dinode).

(** The state [s] with the transaction state [t] and the contents [x] of the
    inode at [ip]. *)
Definition with_file (ip : Z) x (t : T) s : fs T := setd ip x (set_fs_t t s).

Lemma with_file_id ip s i : it_inode s !! ip = Some i → with_file ip (getd ip s) (fs_t s) s = s.
Proof.
  intros Hi. destruct s as [sb' l m u t]. unfold with_file, setd, seti, set_it_inode, set_fs_t, getd, geti. cbn in *.
  rewrite Hi. cbn. f_equal. destruct i. by apply insert_id.
Qed.
Lemma with_file_t ip x t s i : it_inode s !! ip = Some i → getd ip s = x → set_fs_t t s = with_file ip x t s.
Proof. intros Hi <-. symmetry. by apply (with_file_id ip (set_fs_t t s) i). Qed.
Lemma getd_with_file ip x t s : getd ip (with_file ip x t s) = x.
Proof. unfold with_file, setd, getd, geti, seti. cbn. by rewrite lookup_insert_eq. Qed.
Lemma geti_with_file ip x t s :
  geti ip (with_file ip x t s) = Ino (i_dev (geti ip s)) (i_inum (geti ip s)) (i_ref (geti ip s)) (i_lock (geti ip s)) (i_valid (geti ip s)) x.
Proof. unfold with_file, setd, geti, seti. cbn. by rewrite lookup_insert_eq. Qed.
Lemma with_file_twice ip x t x' t' s : with_file ip x' t' (with_file ip x t s) = with_file ip x' t' s.
Proof.
  unfold with_file, setd, seti, set_it_inode, set_fs_t, geti. cbn. rewrite lookup_insert_eq, insert_insert_eq. done.
Qed.

(** What one call of [bmap] for block [bn] may do to the file. *)
Record grown (bn : Z) v x (addr : Z) v' x' : Prop := {
  gr_file : file_ok sb (tv_cur v') x';
  gr_bm : bm_ok sb (tv_cur v');
  gr_raw : tv_raw v' = ∅;
  gr_held : tv_held v' = tv_held v;
  gr_meta : x' = DI (di_type x) (di_major x) (di_minor x) (di_nlink x) (di_size x) (di_addrs x');
  gr_addr : ∀ k, 0 ≤ k < 268 → k ≠ bn → faddr (tv_cur v') x' k = faddr (tv_cur v) x k;
  gr_at : faddr (tv_cur v') x' bn = addr;
  gr_old : faddr (tv_cur v) x bn ≠ 0 → addr = faddr (tv_cur v) x bn ∧ v' = v ∧ x' = x;
  gr_new : faddr (tv_cur v) x bn = 0 → addr ≠ 0 →
    (∀ i, 0 ≤ i < 1024 → ldb (tv_cur v' addr) i = 0) ∧ bused sb (tv_cur v) addr = false;
  gr_ind : ind x' ≠ ind x → ind x = 0 ∧ bused sb (tv_cur v) (ind x') = false;
  gr_keep : ∀ b, b < sb_bmapstart sb ∨ dstart sb ≤ b < sb_size sb ∧ bused sb (tv_cur v) b = true →
    b ≠ ind x → tv_cur v' b = tv_cur v b;
  gr_mono : ∀ b, 0 ≤ b < sb_size sb → bused sb (tv_cur v) b = true → bused sb (tv_cur v') b = true;
  gr_used : ∀ b, 0 ≤ b < sb_size sb → bused sb (tv_cur v') b = true → bused sb (tv_cur v) b = true ∨ owned (tv_cur v') x' b;
  gr_logged : ∀ b, b ∈ tv_logged v' → b ∈ tv_logged v ∨ b ∈ bitmaps sb ∨ (b ≠ 0 ∧ (b = ind x' ∨ b = addr));
  gr_full : addr = 0 → ∀ b, 0 ≤ b < sb_size sb → bused sb (tv_cur v') b = true
}.

Lemma alloc_logged a v : 0 ≤ a < sb_size sb → tv_logged (tv_alloc sb a v) ⊆ tv_logged v ∪ bitmaps sb ∪ {[a]}.
Proof. intros Ha. pose proof (bitmaps_in sb Hsb a Ha). unfold tv_alloc, tv_put. cbn. set_solver. Qed.

Lemma grown_same bn v x :
  file_ok sb (tv_cur v) x → bm_ok sb (tv_cur v) → tv_raw v = ∅ → faddr (tv_cur v) x bn ≠ 0 → grown bn v x (faddr (tv_cur v) x bn) v x.
Proof.
  intros Hf Hbm Hr Hn. split; try done; [by destruct x|by left|by left].
Qed.

(** A free data block is not 0 and not owned. *)
Lemma free_nz v a : dstart sb ≤ a < sb_size sb → a ≠ 0.
Proof. intros Ha. pose proof (sb_bounds sb Hsb). lia. Qed.

Lemma grown_full bn v x :
  file_ok sb (tv_cur v) x → bm_ok sb (tv_cur v) → tv_raw v = ∅ → faddr (tv_cur v) x bn = 0 →
  (∀ b, 0 ≤ b < sb_size sb → bused sb (tv_cur v) b = true) → grown bn v x 0 v x.
Proof.
  intros Hf Hbm Hr H0 Hall. split; try done; [by destruct x|by left|by left].
Qed.

(** A direct block added. *)
Lemma grown_direct bn v x a :
  file_ok sb (tv_cur v) x → bm_ok sb (tv_cur v) → tv_raw v = ∅ → 0 ≤ bn < 12 → faddr (tv_cur v) x bn = 0 →
  dstart sb ≤ a < sb_size sb → bused sb (tv_cur v) a = false → grown bn v x a (tv_alloc sb a v) (d_set_addr bn a x).
Proof.
  intros Hf Hbm Hr Hbn H0 Ha Hu. destruct (file_alloc sb Hsb v a x Hf Ha Hu) as (Hf1 & Hfa & Hno).
  pose proof (sb_bounds sb Hsb) as Hbd. assert (ind x ≠ 0 → tv_cur (tv_alloc sb a v) (ind x) = tv_cur v (ind x)) as Hie.
  { intros Hn. destruct (fo_range _ _ _ Hf _ (owned_ind (tv_cur v) x Hn)) as [Hr' Hu']. apply cur_alloc; [done|congruence|lia|lia]. }
  destruct (file_set_direct sb (tv_cur (tv_alloc sb a v)) x bn a) as (Hf2 & Hi & Hfa2); try done.
  { by rewrite Hfa. }
  { lia. }
  { by rewrite owned_ext. }
  { rewrite used_alloc by (done || lia). rewrite Z.eqb_refl. apply orb_true_r. }
  assert (faddr (tv_cur (tv_alloc sb a v)) (d_set_addr bn a x) bn = a) as Hat by (rewrite Hfa2, decide_True by (done || lia); done).
  split; try done.
  - by apply bm_alloc.
  - intros k Hk Hne. by rewrite Hfa2, decide_False by done.
  - intros _ _. split; [intros i Hi'; by apply cur_alloc_new|done].
  - intros b Hb Hne. apply cur_alloc; [done| |lia|lia]. intros ->. destruct Hb as [Hb|[_ Hb]]; [lia|congruence].
  - intros b Hb Hub. rewrite used_alloc by (done || lia). by rewrite Hub.
  - intros b Hb. rewrite used_alloc by (done || lia). intros [?|E%Z.eqb_eq]%orb_true_iff; [by left|right]. subst b.
    split; [lia|]. right. exists bn. split; [lia|done].
  - intros b Hb. apply (alloc_logged a v ltac:(lia)) in Hb. rewrite !elem_of_union, elem_of_singleton in Hb.
    destruct Hb as [[Hb|Hb]| ->]; [by left|by right; left|]. right; right. split; [lia|by right].
  - lia.
Qed.

(** The indirect block present, allocated if need be. *)
Record ind_ready v x v1 x1 : Prop := {
  ir_file : file_ok sb (tv_cur v1) x1;
  ir_bm : bm_ok sb (tv_cur v1);
  ir_raw : tv_raw v1 = ∅;
  ir_held : tv_held v1 = tv_held v;
  ir_meta : x1 = DI (di_type x) (di_major x) (di_minor x) (di_nlink x) (di_size x) (di_addrs x1);
  ir_addr : ∀ k, 0 ≤ k < 268 → faddr (tv_cur v1) x1 k = faddr (tv_cur v) x k;
  ir_ind : ind x1 ≠ 0;
  ir_same : ind x ≠ 0 → v1 = v ∧ x1 = x;
  ir_new : ind x = 0 → bused sb (tv_cur v) (ind x1) = false;
  ir_keep : ∀ b, b < sb_bmapstart sb ∨ dstart sb ≤ b < sb_size sb ∧ bused sb (tv_cur v) b = true → tv_cur v1 b = tv_cur v b;
  ir_used : ∀ b, 0 ≤ b < sb_size sb → bused sb (tv_cur v1) b = true ↔ bused sb (tv_cur v) b = true ∨ b = ind x1;
  ir_logged : tv_logged v1 ⊆ tv_logged v ∪ bitmaps sb ∪ {[ind x1]}
}.

Lemma ind_ready_same v x :
  file_ok sb (tv_cur v) x → bm_ok sb (tv_cur v) → tv_raw v = ∅ → ind x ≠ 0 → ind_ready v x v x.
Proof.
  intros Hf Hbm Hr Hi. split; try done; [by destruct x| |set_solver].
  intros b Hb. split; [by left|]. intros [?| ->]; [done|]. by apply (fo_range _ _ _ Hf), owned_ind.
Qed.

Lemma ind_ready_alloc v x a :
  file_ok sb (tv_cur v) x → bm_ok sb (tv_cur v) → tv_raw v = ∅ → ind x = 0 →
  dstart sb ≤ a < sb_size sb → bused sb (tv_cur v) a = false → ind_ready v x (tv_alloc sb a v) (d_set_addr 12 a x).
Proof.
  intros Hf Hbm Hr Hi0 Ha Hu. destruct (file_alloc sb Hsb v a x Hf Ha Hu) as (Hf1 & Hfa & Hno).
  pose proof (sb_bounds sb Hsb) as Hbd.
  destruct (file_set_ind sb (tv_cur (tv_alloc sb a v)) x a) as (Hf2 & Hi & Hfa2); try done.
  { lia. }
  { by rewrite owned_ext. }
  { rewrite used_alloc by (done || lia). rewrite Z.eqb_refl. apply orb_true_r. }
  { intros i Hi. by apply cur_alloc_new. }
  split; try done.
  - by apply bm_alloc.
  - intros k Hk. by rewrite Hfa2.
  - rewrite Hi. lia.
  - by rewrite Hi.
  - intros b Hb. apply cur_alloc; [done| |lia|lia]. intros ->. destruct Hb as [Hb|[_ Hb]]; [lia|congruence].
  - intros b Hb. rewrite Hi, used_alloc, orb_true_iff, Z.eqb_eq by (done || lia). done.
  - rewrite Hi. apply alloc_logged. lia.
Qed.

Lemma ir_changed v x v1 x1 : ind_ready v x v1 x1 → ind x1 ≠ ind x → ind x = 0 ∧ bused sb (tv_cur v) (ind x1) = false.
Proof.
  intros Hir Hne. destruct (decide (ind x = 0)) as [E|E]; [by split; [|apply (ir_new _ _ _ _ Hir)]|].
  by destruct (ir_same _ _ _ _ Hir E) as [_ ->].
Qed.

(** The word of the indirect block set. *)
Lemma grown_word bn v x v1 x1 a :
  ind_ready v x v1 x1 → 12 ≤ bn < 268 → faddr (tv_cur v) x bn = 0 → dstart sb ≤ a < sb_size sb → bused sb (tv_cur v1) a = false →
  grown bn v x a (tv_put (ind x1) (st32 (tv_cur v1 (ind x1)) (4 * (bn - 12)) a) (tv_alloc sb a v1)) x1.
Proof.
  intros Hir0 Hbn H0 Ha Hu. pose proof Hir0 as [Hf Hbm Hr Hh Hmt Hfa Hi Hsm Hnw Hk Hus Hlg]. pose proof (sb_bounds sb Hsb) as Hbd.
  destruct (file_alloc sb Hsb v1 a x1 Hf Ha Hu) as (Hf1 & Hfa1 & Hno).
  destruct (fo_range _ _ _ Hf _ (owned_ind (tv_cur v1) x1 Hi)) as [Hir Hiu].
  assert (tv_cur (tv_alloc sb a v1) (ind x1) = tv_cur v1 (ind x1)) as Hie by (apply cur_alloc; [done|congruence|lia|lia]).
  destruct (file_set_word sb Hsb (tv_cur (tv_alloc sb a v1)) x1 bn a) as (Hf2 & Hfa2); try done.
  { by rewrite Hfa1, Hfa by lia. }
  { lia. }
  { by rewrite owned_ext. }
  { rewrite used_alloc by (done || lia). rewrite Z.eqb_refl. apply orb_true_r. }
  rewrite Hie in Hf2, Hfa2. set (v2 := tv_put _ _ _).
  assert (∀ b, 0 ≤ b < sb_size sb → bused sb (tv_cur v2) b = bused sb (tv_cur v1) b || (b =? a)) as Hus2.
  { intros b Hb. rewrite <-used_alloc by (done || lia). destruct (BBLOCK_range sb Hsb b Hb) as [_ HR].
    unfold bused, v2, tv_put, cur_set. cbn [tv_cur]. by rewrite decide_False by lia. }
  assert (∀ b, b ≠ ind x1 → b ≠ a → ¬ (sb_bmapstart sb ≤ b < dstart sb) → tv_cur v2 b = tv_cur v1 b) as Hk2.
  { intros b H1 H2 H3. unfold v2, tv_put, cur_set. cbn [tv_cur]. rewrite decide_False by done. apply cur_alloc; [done|congruence|done|lia]. }
  assert (faddr (tv_cur v2) x1 bn = a) as Hat by (rewrite Hfa2, decide_True by (done || lia); done).
  split; try done.
  - intros b Hb. destruct (Hsb) as [_ _ ? ?]. rewrite Hus2 by lia. by rewrite Hbm.
  - intros k Hk' Hne. rewrite Hfa2, decide_False by done. by rewrite Hfa1, Hfa.
  - intros _ Hnz. split.
    + intros i Hi'. unfold v2, tv_put. cbn [tv_cur]. unfold cur_set at 1. rewrite decide_False by congruence. by apply cur_alloc_new.
    + destruct (bused sb (tv_cur v) a) eqn:E; [|done]. assert (bused sb (tv_cur v1) a = true); [|congruence]. apply Hus; [lia|by left].
  - by apply (ir_changed v x v1 x1).
  - intros b Hb Hne. assert (b ≠ ind x1) as Hbi.
    { intros ->. destruct (decide (ind x = 0)) as [E|E]; [|by destruct (Hsm E) as [_ ->]].
      destruct Hb as [Hb|[_ Hb]]; [lia|]. specialize (Hnw E). congruence. }
    rewrite Hk2; [by apply Hk|done| |lia]. intros ->. destruct Hb as [Hb|[_ Hb]]; [lia|].
    assert (bused sb (tv_cur v1) a = true); [|congruence]. apply Hus; [lia|by left].
  - intros b Hb Hub. rewrite Hus2 by done. rewrite (proj2 (Hus b Hb)); [done|by left].
  - intros b Hb. rewrite Hus2 by done. intros [Hb1|E%Z.eqb_eq]%orb_true_iff.
    + apply Hus in Hb1 as [?| ->]; [by left|right; by apply owned_ind|done].
    + subst b. right. split; [lia|]. right. exists bn. split; [lia|done].
  - intros b Hb. pose proof (alloc_logged a v1 ltac:(lia)) as Hla.
    assert (b ∈ tv_logged v ∨ b ∈ bitmaps sb ∨ b = ind x1 ∨ b = a) as Hb'.
    { unfold v2, tv_put in Hb. cbn [tv_logged] in Hb. clear -Hb Hlg Hla. set_solver. }
    destruct Hb' as [?|[?|[-> | ->]]]; [by left|by right; left|right; right; split; [done|by left]|right; right; split; [lia|by right]].
  - lia.
Qed.

(** What the file owns is what it owned, and blocks that were free. *)
Lemma grown_owned bn v x addr v' x' b :
  grown bn v x addr v' x' → 0 ≤ bn < 268 → owned (tv_cur v') x' b → owned (tv_cur v) x b ∨ bused sb (tv_cur v) b = false.
Proof.
  intros Hg Hbn [Hb [E|(k & Hk & E)]].
  - destruct (decide (ind x' = ind x)) as [E'|E']; [left|right; subst b; by apply (gr_ind _ _ _ _ _ _ Hg)].
    split; [done|]. left. congruence.
  - destruct (decide (k = bn)) as [->|Hne].
    + rewrite (gr_at _ _ _ _ _ _ Hg) in E. subst b. destruct (decide (faddr (tv_cur v) x bn = 0)) as [H0|H0].
      * right. by apply (gr_new _ _ _ _ _ _ Hg).
      * left. destruct (gr_old _ _ _ _ _ _ Hg H0) as [-> _]. by apply owned_addr.
    + rewrite (gr_addr _ _ _ _ _ _ Hg) in E by done. left. split; [done|]. right. by exists k.
Qed.

(** ** The code *)

Lemma wp_setlog X v s b (y : Z) m Q :
  tx_ok (tv_hold b y v) (fs_t s) → y ∉ tv_raw v → room X 1 v →
  (∀ t', tx_ok (tv_hold b y (tv_put y m v)) t' → Q tt (set_fs_t t' s)) →
  wp (set_bdata b m;; tx (tx_log_write b)) Q s.
Proof.
  intros Hok Hr Hrm HQ. wp_step. unfold set_bdata. wp_step. unfold tx at 1. rewrite wp_lift.
  pose proof (tx_set_data_spec _ _ b y m Hok) as Hok2. cbn [fs_t set_fs_t].
  wp_apply tx_log_write_spec; [apply Hok2, lookup_insert_eq|apply lookup_insert_eq|exact (proj2 (room_size X v Hrm))|].
  intros [] t2 Hok3. apply HQ. replace (tv_hold b y (tv_put y m v)) with (tv_log y (tv_set y m (tv_hold b y v))); [done|].
  unfold tv_log, tv_set, tv_hold, tv_put. cbn. f_equal. clear -Hr. set_solver.
Qed.

Lemma held_data_none v : tv_held v = ∅ → held_data sb v.
Proof. intros Hh y Hx. rewrite Hh in Hx. apply elem_of_map_img in Hx as [? Hx]. by rewrite lookup_empty in Hx. Qed.

Lemma not_held v (y : Z) : tv_held v = ∅ → y ∉ (map_img (tv_held v) : gset Z).
Proof. intros Hh Hx. rewrite Hh in Hx. apply elem_of_map_img in Hx as [? Hx]. by rewrite lookup_empty in Hx. Qed.

Lemma held_data_one v b y : tv_held v = ∅ → dstart sb ≤ y → bused sb (tv_cur v) y = true → held_data sb (tv_hold b y v).
Proof.
  intros Hh Hy Hu z Hz. cbn in Hz. rewrite Hh in Hz. apply elem_of_map_img in Hz as [c Hc].
  apply lookup_insert_Some in Hc as [[_ <-]|[_ Hc]]; [done|]. by rewrite lookup_empty in Hc.
Qed.

(** The tail of [bmap]: the word of the indirect block. *)
Lemma bmap_word v x v1 x1 s ip i bn Q :
  fs_sb s = sb → it_inode s !! ip = Some i → i_dev i = ROOTDEV → i_d i = x1 → tx_ok v1 (fs_t s) → tv_held v = ∅ →
  ind_ready v x v1 x1 → room (bitmaps sb ∪ {[ind x1]}) 2 v1 → 12 ≤ bn < 268 → file_ok sb (tv_cur v) x → bm_ok sb (tv_cur v) → tv_raw v = ∅ →
  (∀ addr v' t', grown bn v x addr v' x1 → tx_ok v' t' → Q addr (set_fs_t t' s)) →
  wp (bp ← tx (tx_bread ROOTDEV (ind x1));
      addr ← gets (λ s, ld32 (bdata bp s) (4 * (bn - NDIRECT)));
      addr ← (if addr =? 0 then
                addr ← balloc ROOTDEV;
                (if negb (addr =? 0) then
                   m ← gets (bdata bp);
                   set_bdata bp (st32 m (4 * (bn - NDIRECT)) addr);;
                   tx (tx_log_write bp)
                 else mret tt);;
                mret addr
              else mret addr);
      tx (tx_brelse bp);;
      mret addr) Q s.
Proof.
  intros Hs Hi Hdev Hd Hok Hh Hir Hrm Hbn Hf Hbm Hraw HQ.
  pose proof Hir as [Hf1 Hbm1 Hr1 Hh1 Hmt Hfa Hi1 Hsm Hnw Hk Hus Hlg].
  destruct (fo_range _ _ _ Hf1 _ (owned_ind (tv_cur v1) x1 Hi1)) as [Hir1 Hiu1]. rewrite Hh in Hh1.
  wp_step. eapply (wp_bread _ v1); [done|by eapply data_home|by apply not_held|eapply room_less; [exact Hrm|lia]|].
  intros bp t1 Hbp Hok1 Hdt. wp_step. wp_step. assert (bdata bp (set_fs_t t1 s) = tv_cur v1 (ind x1)) as Hbd by exact Hdt. rewrite !Hbd.
  assert (ld32 (tv_cur v1 (ind x1)) (4 * (bn - NDIRECT)) = faddr (tv_cur v) x bn) as Hw.
  { rewrite <-Hfa by lia. unfold faddr, NDIRECT. rewrite (proj2 (Z.ltb_ge _ _)) by lia. by rewrite (proj2 (Z.eqb_neq _ _) Hi1). }
  rewrite !Hw. wp_step. destruct (Z.eqb_spec (faddr (tv_cur v) x bn) 0) as [H0|Hn0].
  - wp_step. eapply (balloc_spec sb Hsb Hhome (tv_hold bp (ind x1) v1)).
    { done. }
    { done. }
    { done. }
    { unfold room in *. pose proof (used_hold bp (ind x1) v1) as Hsub. assert (size (tv_used (tv_hold bp (ind x1) v1) ∪ bitmaps sb) ≤ size (tv_used v1 ∪ (bitmaps sb ∪ {[ind x1]})))%nat.
      { apply subseteq_size. clear -Hsub. set_solver. }
      lia. }
    { apply held_data_one; [done|lia|done]. }
    { done. }
    + intros t2 Hall Hok2. cbn [Z.eqb negb]. wp_step. wp_step. wp_step. wp_step.
      eapply (wp_brelse v1); [done|exact Hok2|by rewrite Hr1|]. intros t3 Hok3. wp_step.
      apply (HQ 0 v1 t3); [|done]. split; try done.
      * by rewrite Hh1, Hh.
      * intros k Hk' _. by apply Hfa.
      * by rewrite Hfa by lia.
      * by apply (ir_changed v x v1 x1).
      * intros b Hb _. by apply Hk.
      * intros b Hb Hub. apply Hus; [done|by left].
      * intros b Hb Hub. apply Hus in Hub as [?| ->]; [by left|right; by apply owned_ind|done].
      * intros b Hb. apply Hlg in Hb. rewrite !elem_of_union, elem_of_singleton in Hb.
        destruct Hb as [[Hb|Hb]| ->]; [by left|by right; left|]. right; right. split; [done|by left].
    + intros a t2 Ha Hu Hok2. assert (a ≠ 0) as Hnz by (by eapply free_nz). rewrite (proj2 (Z.eqb_neq _ _) Hnz). cbn [negb].
      wp_step. wp_step. wp_step. change (tx_ok (tv_hold bp (ind x1) (tv_alloc sb a v1)) t2) in Hok2.
      change (bused sb (tv_cur v1) a = false) in Hu.
      unfold bdata at 1. cbn [fs_t set_fs_t]. rewrite (tx_data_spec _ _ bp (ind x1) Hok2) by apply lookup_insert_eq.
      cbn [tv_cur tv_hold]. rewrite cur_alloc; [|done|congruence|lia|pose proof (sb_bounds sb Hsb); lia].
      eapply (wp_setlog (bitmaps sb ∪ {[ind x1]}) (tv_alloc sb a v1)); [exact Hok2|by cbn; rewrite Hr1| |].
      { pose proof (used_tv_alloc sb Hsb v1 a ltac:(pose proof (sb_bounds sb Hsb); lia)) as Hsub.
        pose proof (size_add a (tv_used v1 ∪ (bitmaps sb ∪ {[ind x1]}))) as Hsz. unfold room in *.
        assert (size (tv_used (tv_alloc sb a v1) ∪ (bitmaps sb ∪ {[ind x1]})) ≤ size ({[a]} ∪ (tv_used v1 ∪ (bitmaps sb ∪ {[ind x1]}))))%nat.
        { apply subseteq_size. clear -Hsub. set_solver. }
        lia. }
      intros t3 Hok3. wp_step. wp_step.
      eapply wp_brelse; [|exact Hok3| |]; [by cbn|by cbn; rewrite Hr1|]. intros t4 Hok4. wp_step.
      eapply HQ; [|exact Hok4]. by apply grown_word.
  - wp_step. wp_step. eapply (wp_brelse v1); [done|exact Hok1|by rewrite Hr1|]. intros t2 Hok2. wp_step.
    assert (ind x ≠ 0) as Hix.
    { intros E. apply Hn0. unfold faddr. rewrite (proj2 (Z.ltb_ge _ _)) by lia. by rewrite E. }
    destruct (Hsm Hix) as [-> ->]. eapply HQ; [|exact Hok2]. by apply grown_same.
Qed.

Lemma bmap_spec v s ip i x bn Q :
  fs_sb s = sb → it_inode s !! ip = Some i → i_dev i = ROOTDEV → i_d i = x → tx_ok v (fs_t s) → tv_held v = ∅ →
  tv_raw v = ∅ → bm_ok sb (tv_cur v) → room (bitmaps sb) 3 v → file_ok sb (tv_cur v) x → 0 ≤ bn < 268 →
  (∀ addr v' x' t', grown bn v x addr v' x' → tx_ok v' t' → Q addr (with_file ip x' t' s)) → wp (bmap ip bn) Q s.
Proof.
  intros Hs Hi Hdev Hd Hok Hh Hraw Hbm Hrm Hf Hbn HQ.
  assert (geti ip s = i) as Hg by (unfold geti; by rewrite Hi). assert (getd ip s = x) as Hgd by (unfold getd; by rewrite Hg).
  unfold bmap. wp_step. wp_step. rewrite Hg, Hdev. change (bn <? NDIRECT) with (bn <? 12). destruct (Z.ltb_spec bn 12) as [Hlt|Hge].
  - wp_step. wp_step. unfold addr_of. rewrite Hgd. assert (default 0 (di_addrs x !! Z.to_nat bn) = faddr (tv_cur v) x bn) as Hw.
    { unfold faddr. by rewrite (proj2 (Z.ltb_lt _ _) Hlt). }
    rewrite Hw. destruct (Z.eqb_spec (faddr (tv_cur v) x bn) 0) as [H0|Hn0].
    + wp_step. eapply (balloc_spec sb Hsb Hhome v); [done|done|done|eapply room_less; [exact Hrm|lia]|by apply held_data_none|done|..].
      * intros t2 Hall Hok2. cbn [Z.eqb]. wp_step. erewrite with_file_t by done. eapply HQ; [|exact Hok2]. by apply grown_full.
      * intros a t2 Ha Hu Hok2. rewrite (proj2 (Z.eqb_neq a 0)) by (by eapply free_nz). wp_step. wp_step. wp_step.
        change (getd ip (set_fs_t t2 s)) with (getd ip s). rewrite Hgd.
        apply (HQ a _ _ t2 (grown_direct bn v x a Hf Hbm Hraw ltac:(lia) H0 Ha Hu) Hok2).
    + wp_step. rewrite <-(with_file_id ip s i), Hgd by done. eapply HQ; [|exact Hok]. by apply grown_same.
  - change (bn - NDIRECT <? NINDIRECT) with (bn - 12 <? 256). rewrite (proj2 (Z.ltb_lt (bn - 12) 256)) by lia.
    wp_step. wp_step. unfold addr_of. rewrite Hgd. change (default 0 (di_addrs x !! Z.to_nat NDIRECT)) with (ind x). wp_step.
    destruct (Z.eqb_spec (ind x) 0) as [H0|Hn0].
    + wp_step. eapply (balloc_spec sb Hsb Hhome v); [done|done|done|eapply room_less; [exact Hrm|lia]|by apply held_data_none|done|..].
      * intros t2 Hall Hok2. cbn [Z.eqb]. wp_step. cbn [Z.eqb]. wp_step. erewrite with_file_t by done. eapply HQ; [|exact Hok2].
        apply grown_full; try done. unfold faddr. rewrite (proj2 (Z.ltb_ge _ _)) by lia. by rewrite H0.
      * intros a t2 Ha Hu Hok2. rewrite (proj2 (Z.eqb_neq a 0)) by (by eapply free_nz). wp_step. wp_step. wp_step.
        rewrite (proj2 (Z.eqb_neq a 0)) by (by eapply free_nz).
        change (getd ip (set_fs_t t2 s)) with (getd ip s). rewrite Hgd.
        change (setd ip (d_set_addr NDIRECT a x) (set_fs_t t2 s)) with (with_file ip (d_set_addr NDIRECT a x) t2 s).
        pose proof (ind_ready_alloc v x a Hf Hbm Hraw H0 Ha Hu) as Hir. set (x1 := d_set_addr NDIRECT a x).
        assert (ind x1 = a) as Hia.
        { unfold ind, x1, d_set_addr, NDIRECT. cbn. rewrite list_lookup_insert_eq; [done|]. rewrite (fo_len _ _ _ Hf). lia. }
        replace (tx_bread ROOTDEV a) with (tx_bread ROOTDEV (ind x1)) by (by rewrite Hia).
        eapply (bmap_word v x (tv_alloc sb a v) x1 _ ip (Ino (i_dev i) (i_inum i) (i_ref i) (i_lock i) (i_valid i) x1)); try done.
        { unfold with_file, setd, seti, set_it_inode. cbn. rewrite lookup_insert_eq. change (geti ip (set_fs_t t2 s)) with (geti ip s). by rewrite Hg. }
        { pose proof (used_tv_alloc sb Hsb v a ltac:(pose proof (sb_bounds sb Hsb); lia)) as Hsub.
          pose proof (size_add a (tv_used v ∪ bitmaps sb)) as Hsz. unfold room in *.
          assert (size (tv_used (tv_alloc sb a v) ∪ (bitmaps sb ∪ {[ind x1]})) ≤ size ({[a]} ∪ (tv_used v ∪ bitmaps sb)))%nat.
          { apply subseteq_size. rewrite Hia. clear -Hsub. set_solver. }
          lia. }
        { lia. }
        intros addr v' t' Hgr Hok'. apply (HQ addr v' x1 t' Hgr Hok').
    + wp_step. rewrite (proj2 (Z.eqb_neq _ _) Hn0). eapply (bmap_word v x v x s ip i); try done.
      * by apply ind_ready_same.
      * pose proof (size_add (ind x) (tv_used v ∪ bitmaps sb)) as Hsz. unfold room in *.
        assert (size (tv_used v ∪ (bitmaps sb ∪ {[ind x]})) ≤ size ({[ind x]} ∪ (tv_used v ∪ bitmaps sb)))%nat by (apply subseteq_size; set_solver).
        lia.
      * lia.
      * intros addr v' t' Hgr Hok'. erewrite with_file_t by done. by eapply HQ.
Qed.
(** A block the file has is found without a transaction. *)
Lemma bmap_old v s ip i x bn Q :
  it_inode s !! ip = Some i → i_dev i = ROOTDEV → i_d i = x → tx_ok v (fs_t s) → tv_held v = ∅ →
  tv_raw v = ∅ → room ∅ 1 v → file_ok sb (tv_cur v) x → 0 ≤ bn < 268 → faddr (tv_cur v) x bn ≠ 0 →
  (∀ t', tx_ok v t' → Q (faddr (tv_cur v) x bn) (set_fs_t t' s)) → wp (bmap ip bn) Q s.
Proof.
  intros Hi Hdev Hd Hok Hh Hraw Hrm Hf Hbn Hnz HQ.
  assert (geti ip s = i) as Hg by (unfold geti; by rewrite Hi). assert (getd ip s = x) as Hgd by (unfold getd; by rewrite Hg).
  unfold bmap. wp_step. wp_step. rewrite Hg, Hdev. change (bn <? NDIRECT) with (bn <? 12).
  unfold faddr in *. destruct (Z.ltb_spec bn 12) as [Hlt|Hge].
  - wp_step. wp_step. unfold addr_of. rewrite Hgd, (proj2 (Z.eqb_neq _ _) Hnz). wp_step.
    specialize (HQ (fs_t s) Hok). by rewrite set_fs_t_id in HQ.
  - change (bn - NDIRECT <? NINDIRECT) with (bn - 12 <? 256). rewrite (proj2 (Z.ltb_lt (bn - 12) 256)) by lia.
    wp_step. wp_step. unfold addr_of. rewrite Hgd. change (default 0 (di_addrs x !! Z.to_nat NDIRECT)) with (ind x).
    destruct (Z.eqb_spec (ind x) 0) as [|Hi0]; [done|]. wp_step. wp_step. rewrite (proj2 (Z.eqb_neq _ _) Hi0).
    destruct (fo_range _ _ _ Hf _ (owned_ind (tv_cur v) x Hi0)) as [Hir _]. wp_step.
    eapply (wp_bread ∅ v); [done|by eapply data_home|by apply not_held|done|]. intros bp t1 Hbp Hok1 Hdt. wp_step. wp_step.
    assert (bdata bp (set_fs_t t1 s) = tv_cur v (ind x)) as Hbd by exact Hdt. rewrite !Hbd. change NDIRECT with 12.
    rewrite (proj2 (Z.eqb_neq _ _) Hnz). wp_step. wp_step. wp_step.
    eapply (wp_brelse v); [done|exact Hok1|by rewrite Hraw|]. intros t2 Hok2. wp_step. by apply HQ.
Qed.
End Bmap.
