(* ===== verification/FsWrite.v ===== *)
(** * [readi], [writei], [iupdate], [ilock] and [iunlock]: the bytes of a file

    [readi] delivers the bytes of the file below its size and changes nothing.
    [writei] makes the bytes it was given the bytes of the file, extends the
    size, and leaves every block the file does not own alone: [written] is what
    a write of a prefix of the bytes has done to the file; [writei] extends it
    block by block, and ends by writing the inode. *)

From S2P Require Import Prelude Mem Kstring Layout Sleeplock BufIface TxIface Fs FsBlock FsFile FsBmap.

(** [N] bytes [g 0 .. g (N-1)] were delivered at [dst]: of the user's memory, or
    of the kernel's buffer. *)
Definition put_bytes (m : mem) (dst N : Z) (g : Z → Z) (m' : mem) : Prop :=
  ∀ b, ldb m' b = if decide (dst ≤ b < dst + N) then g (b - dst) else ldb m b.
Definition delivered (user : bool) (u : umem) (km : mem) (dst N : Z) (g : Z → Z) (u' : umem) (km' : mem) : Prop :=
  if user then km' = km ∧ u_r u' = u_r u ∧ u_w u' = u_w u ∧ put_bytes (u_mem u) dst N g (u_mem u')
  else u' = u ∧ put_bytes km dst N g km'.

Lemma put_bytes_none m dst g : put_bytes m dst 0 g m.
Proof. intros b. by rewrite decide_False by lia. Qed.

Lemma put_bytes_more m dst N g m1 data off k :
  put_bytes m dst N g m1 → 0 ≤ N → 0 ≤ k → (∀ i, 0 ≤ i < k → ldb data (off + i) = g (N + i)) →
  put_bytes m dst (N + k) g (mcopy m1 (dst + N) data off k).
Proof.
  intros H HN Hk Hg b. rewrite ldb_mcopy by done. repeat case_decide; try lia.
  - rewrite Hg by lia. f_equal. lia.
  - rewrite H, decide_True by lia. done.
  - rewrite H, decide_False by lia. done.
Qed.

Lemma delivered_none user u km dst g : delivered user u km dst 0 g u km.
Proof. destruct user; [split_and!; try done|split; [done|]]; apply put_bytes_none. Qed.

(** One call of [either_copyout] that the process can take. *)
Lemma delivered_more user u km dst N g u1 km1 data off k :
  delivered user u km dst N g u1 km1 → 0 ≤ N → 0 ≤ k →
  (user = true → ∀ i, 0 ≤ i < k → u_w u (dst + N + i) = true) →
  (∀ i, 0 ≤ i < k → ldb data (off + i) = g (N + i)) →
  ∃ u' km', either_copyout user u1 km1 (dst + N) data off k = (0, u', km') ∧ delivered user u km dst (N + k) g u' km'.
Proof.
  intros Hd HN Hk Hw Hg. destruct user; cbn [delivered] in Hd; unfold either_copyout.
  - destruct Hd as (-> & Hr & Hww & Hp). unfold ucopyout. rewrite prefix_all; [|by rewrite Hww; apply Hw|done].
    rewrite Z.eqb_refl. eexists _, _. split; [reflexivity|]. split_and!; [done..|]. cbn [u_mem]. by apply put_bytes_more.
  - destruct Hd as [-> Hp]. eexists _, _. split; [reflexivity|]. split; [done|]. by apply put_bytes_more.
Qed.

(** Byte [i + k] of the file, in the block of byte [i]. *)
Lemma fbyte_in cur x i k : 0 ≤ i → 0 ≤ k → i mod 1024 + k < 1024 →
  fbyte cur x (i + k) = ldb (cur (faddr cur x (i / 1024))) (i mod 1024 + k).
Proof.
  intros Hi Hk Hlt. unfold fbyte. pose proof (Z.div_mod i 1024). pose proof (Z.mod_pos_bound i 1024).
  assert ((i + k) / 1024 = i / 1024) as -> by (symmetry; apply (Z.div_unique_pos _ _ _ (i mod 1024 + k)); lia).
  f_equal. symmetry. apply (Z.mod_unique_pos _ _ (i / 1024)); lia.
Qed.

Section Io.
Context {T : Type} {TO : TxOps T} {TS : TxSpec T} (sb : superblock) (Hsb : sb_ok sb).
Context (Hhome : ∀ x, sb_inodestart sb ≤ x < sb_size sb → tx_home x).
Implicit Types (v : tview) (s : fs T) (x : dinode).

(** An inode in use by a transaction that holds no buffer. *)
Record file_at v s (ip : Z) (i : inode) x : Prop := {
  fa_sb : fs_sb s = sb;
  fa_ino : it_inode s !! ip = Some i;
  fa_dev : i_dev i = ROOTDEV;
  fa_d : i_d i = x;
  fa_tx : tx_ok v (fs_t s);
  fa_held : tv_held v = ∅;
  fa_raw : tv_raw v = ∅;
  fa_bm : bm_ok sb (tv_cur v);
  fa_file : file_ok sb (tv_cur v) x
}.

(** How many bytes a read of [n] at [off] gets. *)
Definition nread x (off n : Z) : Z := if di_size x <? off then 0 else Z.min n (di_size x - off).

Lemma readi_spec v s ip i x user dst off n km Q :
  file_at v s ip i x → room ∅ 1 v → 0 ≤ off → 0 ≤ n → off + n < 4294967296 → 0 ≤ dst → dst + n < 18446744073709551616 →
  (user = true → ∀ k, 0 ≤ k < nread x off n → u_w (fs_u s) (dst + k) = true) →
  (∀ u' km' t', delivered user (fs_u s) km dst (nread x off n) (λ k, fbyte (tv_cur v) x (off + k)) u' km' → tx_ok v t' →
     Q (nread x off n, km') (set_fs_u u' (set_fs_t t' s))) →
  wp (readi ip user dst off n km) Q s.
Proof.
  intros [Hs Hi Hdev Hd Hok Hh Hraw Hbm Hf] Hrm Ho Hn Hon Hdst Hdn Hw HQ.
  assert (geti ip s = i) as Hg by (unfold geti; by rewrite Hi). assert (getd ip s = x) as Hgd by (unfold getd; by rewrite Hg).
  unfold readi. wp_step. wp_step. rewrite Hgd. wp_step. wp_step. rewrite Hg, Hdev. pose proof (fo_size _ _ _ Hf) as Hsz.
  rewrite (u32_small (off + n)) by lia. rewrite (proj2 (Z.ltb_ge (off + n) off)), orb_false_r by lia.
  unfold nread in *. destruct (Z.ltb_spec (di_size x) off) as [Hlt|Hge].
  { wp_step. specialize (HQ (fs_u s) km (fs_t s) (delivered_none _ _ _ _ _) Hok). by destruct s. }
  assert ((if di_size x <? off + n then u32 (di_size x - off) else n) = Z.min n (di_size x - off)) as ->.
  { destruct (Z.ltb_spec (di_size x) (off + n)); [rewrite u32_small by lia|]; lia. }
  remember (Z.min n (di_size x - off)) as N eqn:HN.
  apply (wp_loop (λ (y : Z * Z * Z * mem) s', ∃ tot u km' t', y = (tot, off + tot, dst + tot, km') ∧ 0 ≤ tot ≤ N ∧
    s' = set_fs_u u (set_fs_t t' s) ∧ tx_ok v t' ∧ delivered user (fs_u s) km dst tot (λ k, fbyte (tv_cur v) x (off + k)) u km')
    (λ y _, let '(tot, o, _, _) := y in chunks 1024 o (N - tot))).
  - exists 0, (fs_u s), km, (fs_t s). rewrite !Z.add_0_r. split_and!; try done; [lia|by destruct s|apply delivered_none].
  - rewrite Z.sub_0_r. change BSIZE with 1024. pose proof (chunks_bound 1024 off N). lia.
  - intros [[[tot o] d'] km1] s' (tot' & u1 & km1' & t1 & [= -> -> -> ->] & Htot & -> & Hok1 & Hdel).
    destruct (Z.ltb_spec tot' N) as [Hlt|Hdone]; cbn [negb].
    2:{ wp_step. assert (tot' = N) as -> by lia. rewrite i32_small by lia. by apply HQ. }
    change BSIZE with 1024. wp_step. set (s1 := set_fs_u u1 (set_fs_t t1 s)).
    pose proof (Z.div_mod (off + tot') 1024) as Hdm. pose proof (Z.mod_pos_bound (off + tot') 1024) as Hmb.
    remember ((off + tot') / 1024) as bn eqn:Hbn. assert (0 ≤ bn) by (subst bn; apply Z.div_pos; lia).
    pose proof (fo_alloc _ _ _ Hf bn ltac:(lia) ltac:(lia)) as Hnz.
    eapply (bmap_old sb Hsb Hhome v s1 ip i x bn); try done; [lia|]. intros t2 Hok2. rewrite (proj2 (Z.eqb_neq _ _) Hnz). wp_step.
    destruct (fo_range _ _ _ Hf _ (owned_addr (tv_cur v) x bn ltac:(lia) Hnz)) as [Hra Hua].
    eapply (wp_bread ∅ v); [exact Hok2|by apply (data_home sb)|by apply not_held|exact Hrm|].
    intros bp t3 Hbp Hok3 Hdt. wp_step. wp_step. wp_step. unfold bdata. cbn [fs_t fs_u set_fs_t set_fs_u s1]. rewrite Hdt. wp_step.
    remember (Z.min (N - tot') (1024 - (off + tot') mod 1024)) as m eqn:Hm.
    change (fs_u (set_fs_t t3 (set_fs_t t2 s1))) with u1.
    destruct (delivered_more user (fs_u s) km dst tot' (λ k, fbyte (tv_cur v) x (off + k)) u1 km1' (tv_cur v (faddr (tv_cur v) x bn))
      ((off + tot') mod 1024) m Hdel) as (u2 & km2 & -> & Hdel2); [lia..| | |].
    { intros Hu k Hk. rewrite <-Z.add_assoc. apply Hw; [done|lia]. }
    { intros k Hk. rewrite Z.add_assoc, fbyte_in, <-Hbn by lia. done. }
    wp_step. wp_step. wp_step. eapply (wp_brelse v); [done|exact Hok3|by rewrite Hraw|]. intros t4 Hok4.
    cbn [Z.eqb]. wp_step. rewrite !u32_small, u64_small by lia. split.
    + exists (tot' + m), u2, km2, t4. split_and!; try done; try lia. by rewrite !Z.add_assoc.
    + replace (N - (tot' + m)) with (N - tot' - m) by lia. apply chunks_step; [lia|lia|lia|]. intros Hml.
      assert (m = 1024 - (off + tot') mod 1024) as -> by lia. replace (off + tot' + (1024 - (off + tot') mod 1024)) with (0 + (bn + 1) * 1024) by lia.
      by rewrite Z.mod_add by lia.
Qed.
End Io.

(** Byte [j] of the file, with zeros where it has no block. *)
Definition fdata (cur : Z → mem) (x : dinode) (j : Z) : Z :=
  if faddr cur x (j / 1024) =? 0 then 0 else fbyte cur x j.

Section Write.
Context (sb : superblock) (Hsb : sb_ok sb).
Implicit Types (v : tview) (x : dinode).

(** [tot] bytes [g] written at [off], in blocks below [hi]. *)
Record written (off tot hi : Z) (g : Z → Z) v x v' x' : Prop := {
  wr_file : file_ok sb (tv_cur v') x';
  wr_bm : bm_ok sb (tv_cur v');
  wr_raw : tv_raw v' = ∅;
  wr_held : tv_held v' = ∅;
  wr_meta : x' = DI (di_type x) (di_major x) (di_minor x) (di_nlink x) (di_size x) (di_addrs x');
  wr_data : ∀ j, 0 ≤ j < 268 * 1024 →
    fdata (tv_cur v') x' j = if decide (off ≤ j < off + tot) then g (j - off) else fdata (tv_cur v) x j;
  wr_alloc : ∀ bn, 0 ≤ bn < 268 → bn * 1024 < Z.max (di_size x) (off + tot) → faddr (tv_cur v') x' bn ≠ 0;
  wr_keep : ∀ b, 0 < b < sb_bmapstart sb ∨ dstart sb ≤ b < sb_size sb ∧ bused sb (tv_cur v) b = true →
    ¬ owned (tv_cur v) x b → tv_cur v' b = tv_cur v b;
  wr_mono : ∀ b, 0 ≤ b < sb_size sb → bused sb (tv_cur v) b = true → bused sb (tv_cur v') b = true;
  wr_used : ∀ b, 0 ≤ b < sb_size sb → bused sb (tv_cur v') b = true → bused sb (tv_cur v) b = true ∨ owned (tv_cur v') x' b;
  wr_owns : ∀ b, owned (tv_cur v) x b → owned (tv_cur v') x' b;
  wr_own : ∀ b, owned (tv_cur v') x' b → owned (tv_cur v) x b ∨ bused sb (tv_cur v) b = false;
  wr_logged : ∀ b, b ∈ tv_logged v' → b ∈ tv_logged v ∨ b ∈ bitmaps sb ∨
    b ≠ 0 ∧ (b = ind x' ∨ ∃ k, off / 1024 ≤ k < hi ∧ b = faddr (tv_cur v') x' k)
}.

Lemma written_none off g v x :
  file_ok sb (tv_cur v) x → bm_ok sb (tv_cur v) → tv_raw v = ∅ → tv_held v = ∅ → off ≤ di_size x →
  written off 0 (off / 1024) g v x v x.
Proof.
  intros Hf Hbm Hr Hh Ho. split; try done.
  - by destruct x.
  - intros j Hj. by rewrite decide_False by lia.
  - intros bn Hbn Hlt. apply (fo_alloc _ _ _ Hf); lia.
  - by left.
  - by left.
  - by left.
Qed.

(** The bytes do not change when a block is added. *)
Lemma grown_data bn v x addr v' x' j :
  grown sb bn v x addr v' x' → file_ok sb (tv_cur v) x → 0 ≤ bn < 268 → 0 ≤ j < 268 * 1024 → fdata (tv_cur v') x' j = fdata (tv_cur v) x j.
Proof.
  intros Hg Hf Hbn Hj. pose proof (Z.div_pos j 1024). assert (j / 1024 < 268) by (apply Z.div_lt_upper_bound; lia).
  pose proof (Z.mod_pos_bound j 1024). unfold fdata. destruct (decide (faddr (tv_cur v) x (j / 1024) = 0)) as [Hz|Hn0].
  - rewrite Hz. cbn [Z.eqb]. destruct (decide (j / 1024 = bn)) as [E|Hne].
    + rewrite <-E in *. rewrite (gr_at _ _ _ _ _ _ _ Hg). destruct (Z.eqb_spec addr 0) as [|Hn]; [done|].
      unfold fbyte. rewrite (gr_at _ _ _ _ _ _ _ Hg). apply (gr_new _ _ _ _ _ _ _ Hg Hz Hn). lia.
    + by rewrite (gr_addr _ _ _ _ _ _ _ Hg), Hz by lia.
  - destruct (fo_range _ _ _ Hf _ (owned_addr (tv_cur v) x (j / 1024) ltac:(lia) Hn0)) as [Hr Hu].
    assert (faddr (tv_cur v') x' (j / 1024) = faddr (tv_cur v) x (j / 1024)) as E.
    { destruct (decide (j / 1024 = bn)) as [E|Hne]; [|by apply (gr_addr _ _ _ _ _ _ _ Hg); [lia|]].
      rewrite E in *. rewrite (gr_at _ _ _ _ _ _ _ Hg). by apply (gr_old _ _ _ _ _ _ _ Hg). }
    unfold fbyte. rewrite E. destruct (_ =? 0); [done|]. rewrite (gr_keep _ _ _ _ _ _ _ Hg); [done|by right|].
    apply (fo_ind _ _ _ Hf); [lia|done].
Qed.

Lemma grown_keeps bn v x addr v' x' k :
  grown sb bn v x addr v' x' → 0 ≤ k < 268 → faddr (tv_cur v) x k ≠ 0 → faddr (tv_cur v') x' k = faddr (tv_cur v) x k.
Proof.
  intros Hg Hk Hnz. destruct (decide (k = bn)) as [->|]; [|by apply (gr_addr _ _ _ _ _ _ _ Hg)].
  rewrite (gr_at _ _ _ _ _ _ _ Hg). by apply (gr_old _ _ _ _ _ _ _ Hg).
Qed.

Lemma grown_owns bn v x addr v' x' b :
  grown sb bn v x addr v' x' → owned (tv_cur v) x b → owned (tv_cur v') x' b.
Proof.
  intros Hg [Hnz [->|(k & Hk & ->)]]; split; try done.
  - left. destruct (decide (ind x' = ind x)) as [->|Hne]; [done|]. by destruct (gr_ind _ _ _ _ _ _ _ Hg Hne).
  - right. exists k. split; [done|]. by rewrite (grown_keeps _ _ _ _ _ _ _ Hg).
Qed.

Lemma data_pos b : dstart sb ≤ b < sb_size sb → 0 ≤ b < sb_size sb.
Proof. pose proof (sb_bounds sb Hsb). lia. Qed.

Lemma written_grown off tot hi g v x v1 x1 addr v2 x2 :
  written off tot hi g v x v1 x1 → grown sb hi v1 x1 addr v2 x2 → 0 ≤ off / 1024 ≤ hi → hi < 268 →
  written off tot (hi + 1) g v x v2 x2.
Proof.
  intros [H1 H2 H3 H4 H5 H6 H7 H8 H9 H10 H10' H11 H12] Hg Hlo Hhi. pose proof Hg as [G1 G2 G3 G4 G5 _ G6 _ _ _ G7 G8 G9 G10 _].
  pose proof (sb_bounds sb Hsb) as Hbd. split; try done.
  - by rewrite G4.
  - rewrite G5, H5. done.
  - intros j Hj. rewrite (grown_data _ _ _ _ _ _ _ Hg) by (done || lia). by apply H6.
  - intros bn Hbn Hlt. rewrite (grown_keeps _ _ _ _ _ _ _ Hg); [by apply H7|lia|by apply H7].
  - intros b Hb Hno. rewrite G7; [by apply H8| |].
    + destruct Hb as [Hb|[Hb Hu]]; [left; lia|right; split; [done|]]. apply H9; [lia|done].
    + intros ->. assert (ind x1 ≠ 0) as E by (destruct Hb as [|[]]; lia). pose proof (owned_ind (tv_cur v1) x1 E) as Ho.
      destruct (H11 _ Ho) as [?|Hu]; [done|]. destruct Hb as [Hb|[_ Hb]]; [|congruence].
      destruct (fo_range _ _ _ H1 _ Ho). lia.
  - intros b Hb Hu. apply G8; [done|]. by apply H9.
  - intros b Hb Hu. destruct (G9 b Hb Hu) as [Hu1|]; [|by right].
    destruct (H10 b Hb Hu1) as [|Ho]; [by left|right]. by apply (grown_owns _ _ _ _ _ _ _ Hg).
  - intros b Ho. by apply (grown_owns _ _ _ _ _ _ _ Hg), H10'.
  - intros b Ho. destruct (fo_range _ _ _ G1 _ Ho) as [Hr%data_pos _].
    destruct (grown_owned sb _ _ _ _ _ _ _ Hg ltac:(lia) Ho) as [Ho1|Hu1]; [by apply H11|].
    destruct (bused sb (tv_cur v) b) eqn:E; [|by right]. specialize (H9 b Hr E). congruence.
  - intros b Hb. destruct (G10 b Hb) as [Hl|[Hl|[Hnz [E|E]]]].
    + destruct (H12 b Hl) as [?|[?|[Hnz [E|(k & Hk & E)]]]]; [by left|by right; left| |]; right; right; (split; [done|]).
      * left. destruct (decide (ind x2 = ind x1)) as [->|Hne]; [done|]. destruct (gr_ind _ _ _ _ _ _ _ Hg Hne). congruence.
      * right. exists k. split; [lia|]. rewrite (grown_keeps _ _ _ _ _ _ _ Hg); [done|lia|congruence].
    + by right; left.
    + right; right; split; [done|]. by left.
    + right; right; split; [done|]. right. exists hi. split; [lia|]. by rewrite G6.
Qed.
(** ** The contents of one data block replaced *)

Section Put.
Context (v : tview) (x : dinode) (bn : Z) (m : mem) (Hf : file_ok sb (tv_cur v) x) (Hbn : 0 ≤ bn < 268).
Context (Hnz : faddr (tv_cur v) x bn ≠ 0).
Let a := faddr (tv_cur v) x bn.

Lemma put_range : dstart sb ≤ a < sb_size sb ∧ bused sb (tv_cur v) a = true.
Proof. apply (fo_range _ _ _ Hf). by apply owned_addr. Qed.

Lemma put_cur b : b ≠ a → tv_cur (tv_put a m v) b = tv_cur v b.
Proof. intros Hb. unfold tv_put, cur_set. cbn [tv_cur]. by rewrite decide_False. Qed.

Lemma put_ind : ind x ≠ 0 → tv_cur (tv_put a m v) (ind x) = tv_cur v (ind x).
Proof. intros _. apply put_cur. intros E. by apply (fo_ind _ _ _ Hf bn Hbn Hnz). Qed.

Lemma put_faddr k : faddr (tv_cur (tv_put a m v)) x k = faddr (tv_cur v) x k.
Proof. apply faddr_ext, put_ind. Qed.

Lemma put_bused b : 0 ≤ b < sb_size sb → bused sb (tv_cur (tv_put a m v)) b = bused sb (tv_cur v) b.
Proof.
  intros Hb. destruct (BBLOCK_range sb Hsb b Hb) as [_ HR]. pose proof put_range as [Hr _]. unfold bused.
  by rewrite put_cur by lia.
Qed.

Lemma put_file : file_ok sb (tv_cur (tv_put a m v)) x.
Proof.
  apply (file_ext sb (tv_cur v)); [apply put_ind| |done]. intros b Ho Hu. destruct (fo_range _ _ _ Hf _ Ho) as [Hr%data_pos _].
  by rewrite put_bused.
Qed.

Lemma put_fdata j : 0 ≤ j < 268 * 1024 →
  fdata (tv_cur (tv_put a m v)) x j = if decide (j / 1024 = bn) then ldb m (j mod 1024) else fdata (tv_cur v) x j.
Proof.
  intros Hj. pose proof (Z.div_pos j 1024). assert (j / 1024 < 268) by (apply Z.div_lt_upper_bound; lia).
  unfold fdata, fbyte. rewrite !put_faddr. case_decide as E.
  - rewrite E, (proj2 (Z.eqb_neq _ _) Hnz). unfold tv_put, cur_set. cbn [tv_cur]. by rewrite decide_True.
  - destruct (Z.eqb_spec (faddr (tv_cur v) x (j / 1024)) 0) as [|Hn]; [done|]. rewrite put_cur; [done|].
    intros E'. apply E. by apply (fo_inj _ _ _ Hf); [lia| |rewrite E'|].
Qed.
End Put.

Lemma written_put off tot bn g v x v1 x1 k m :
  written off tot (bn + 1) g v x v1 x1 → 0 ≤ off → 0 ≤ tot → 0 ≤ k → off / 1024 ≤ bn < 268 → bn * 1024 ≤ off + tot →
  off + tot + k ≤ (bn + 1) * 1024 → faddr (tv_cur v1) x1 bn ≠ 0 →
  (∀ i, 0 ≤ i < 1024 → ldb m i = if decide (off + tot ≤ bn * 1024 + i < off + tot + k) then g (bn * 1024 + i - off)
                                 else ldb (tv_cur v1 (faddr (tv_cur v1) x1 bn)) i) →
  written off (tot + k) (bn + 1) g v x (tv_put (faddr (tv_cur v1) x1 bn) m v1) x1.
Proof.
  intros [H1 H2 H3 H4 H5 H6 H7 H8 H9 H10 H10' H11 H12] Ho Ht Hk Hbn Hlo Hhi Hnz Hm. pose proof (Z.div_pos off 1024) as Hop.
  assert (0 ≤ bn < 268) as Hbn' by lia. pose proof (sb_bounds sb Hsb) as Hbd. destruct (Hsb) as [_ _ Hds _].
  destruct (put_range v1 x1 bn H1 Hbn' Hnz) as [Hr Hu]. pose proof (owned_addr (tv_cur v1) x1 bn Hbn' Hnz) as Hown.
  split; try done.
  - by apply put_file.
  - intros b Hb. rewrite put_bused by (done || lia). by apply H2.
  - intros j Hj. rewrite put_fdata by done. pose proof (Z.div_mod j 1024). pose proof (Z.mod_pos_bound j 1024). case_decide as E.
    + rewrite Hm by lia. replace (bn * 1024 + j mod 1024) with j by lia.
      assert (ldb (tv_cur v1 (faddr (tv_cur v1) x1 bn)) (j mod 1024) = fdata (tv_cur v1) x1 j) as ->.
      { unfold fdata, fbyte. by rewrite E, (proj2 (Z.eqb_neq _ _) Hnz). }
      rewrite H6 by done. repeat case_decide; (done || lia).
    + rewrite H6 by done. repeat case_decide; (done || lia).
  - intros c Hc Hlt. rewrite put_faddr by done. destruct (decide (c = bn)) as [->|]; [done|]. apply H7; [done|]. lia.
  - intros b Hb Hno. rewrite put_cur; [by apply H8|]. intros ->. destruct (H11 _ Hown) as [?|Hu']; [done|].
    destruct Hb as [Hb|[_ Hb]]; [lia|congruence].
  - intros b Hb Hub. rewrite put_bused by done. by apply H9.
  - intros b Hb. rewrite put_bused by done. intros Hub. destruct (H10 b Hb Hub) as [|Hob]; [by left|right].
    apply owned_ext with (tv_cur v1); [by apply put_ind|done].
  - intros b Hob. apply (owned_ext (tv_cur v1)); [by apply put_ind|]. by apply H10'.
  - intros b Hob. apply H11. apply (owned_ext (tv_cur v1)) in Hob; [done|by apply put_ind].
  - intros b Hb. cbn [tv_put tv_logged] in Hb. apply elem_of_union in Hb as [->%elem_of_singleton|Hb].
    + right; right. split; [done|]. right. exists bn. split; [lia|]. by rewrite put_faddr.
    + destruct (H12 b Hb) as [?|[?|[Hn [E|(c & Hc & E)]]]]; [by left|by right; left| |]; right; right; (split; [done|]); [by left|].
      right. exists c. split; [done|]. by rewrite put_faddr.
Qed.
Lemma size_list_union (l : list Z) (X : gset Z) : (size (X ∪ list_to_set l) ≤ size X + length l)%nat.
Proof.
  clear sb Hsb. induction l as [|a l IH]; cbn [list_to_set length]; [rewrite union_empty_r_L; lia|].
  replace (X ∪ ({[a]} ∪ list_to_set l)) with ({[a]} ∪ (X ∪ list_to_set l)) by set_solver. pose proof (size_add a (X ∪ list_to_set l)). lia.
Qed.

(** The log and the cache keep room: a write adds the bitmap, the indirect
    block and the blocks it writes. *)
Lemma written_room off tot hi g v x v' x' k :
  written off tot hi g v x v' x' → off / 1024 ≤ hi → room (bitmaps sb) (k + 1 + (hi - off / 1024)) v → room (bitmaps sb) k v'.
Proof.
  clear Hsb. intros Hw Hhi Hrm. unfold room in *. set (l := map (faddr (tv_cur v') x') (seqZ (off / 1024) (hi - off / 1024))).
  assert (tv_used v' ∪ bitmaps sb ⊆ ({[ind x']} ∪ (tv_used v ∪ bitmaps sb)) ∪ list_to_set l) as Hsub.
  { unfold tv_used. rewrite (wr_held _ _ _ _ _ _ _ _ Hw), map_img_empty_L, union_empty_r_L.
    intros b [Hb|Hb]%elem_of_union; [|set_solver].
    destruct (wr_logged _ _ _ _ _ _ _ _ Hw b Hb) as [?|[?|[_ [->|(c & Hc & ->)]]]]; [set_solver..|].
    apply elem_of_union_r, elem_of_list_to_set, list_elem_of_fmap. exists c. split; [done|]. apply elem_of_seqZ. lia. }
  apply subseteq_size in Hsub. pose proof (size_list_union l ({[ind x']} ∪ (tv_used v ∪ bitmaps sb))).
  pose proof (size_add (ind x') (tv_used v ∪ bitmaps sb)). assert (length l = Z.to_nat (hi - off / 1024)) by (unfold l; by rewrite length_map, length_seqZ).
  lia.
Qed.
End Write.

(** ** The inode on disk *)

(** The fields have the values of their types. *)
Definition short (a : Z) : Prop := -32768 ≤ a < 32768.
Definition di_fits (x : dinode) : Prop :=
  short (di_type x) ∧ short (di_major x) ∧ short (di_minor x) ∧ short (di_nlink x) ∧ 0 ≤ di_size x < 4294967296 ∧
  length (di_addrs x) = 13%nat ∧ Forall (λ a, 0 ≤ a < 4294967296) (di_addrs x).

Lemma seqZ_13 : seqZ 0 13 = [0; 1; 2; 3; 4; 5; 6; 7; 8; 9; 10; 11; 12].
Proof. reflexivity. Qed.

Lemma st_di_out m k x b : b < 64 * k ∨ 64 * k + 64 ≤ b → ldb (st_di m k x) b = ldb m b.
Proof. intros Hb. unfold st_di. rewrite seqZ_13. cbn [foldl]. by rewrite !ldb_stn_out by lia. Qed.

Lemma ldi16_st m a v : short v → ldi16 (st16 m a v) a = v.
Proof.
  unfold short, ldi16, i16. intros Hv. rewrite (ldn_stn_eq 2). change (256 ^ Z.of_nat 2) with 65536.
  rewrite Z.add_mod_idemp_l by lia. rewrite Z.mod_small by lia. lia.
Qed.

Ltac skip_st := repeat (rewrite (ldn_stn_ne 4 4) by lia); repeat (rewrite (ldn_stn_ne 2 4) by lia);
  repeat (rewrite (ldn_stn_ne 4 2) by lia); repeat (rewrite (ldn_stn_ne 2 2) by lia).

Lemma ld_st_di m k x : di_fits x → ld_di (st_di m k x) k = x.
Proof.
  destruct x as [ty mj mi nl sz ad]. intros (H1 & H2 & H3 & H4 & H5 & H6 & H7). cbn in *.
  do 14 (destruct ad as [|? ad]; try discriminate H6). repeat (apply Forall_cons in H7 as [? H7]).
  unfold ld_di, st_di. rewrite seqZ_13. cbn [map foldl di_type di_major di_minor di_nlink di_size di_addrs].
  repeat match goal with |- context [Z.to_nat ?c] => let n := eval vm_compute in (Z.to_nat c) in change (Z.to_nat c) with n end.
  cbn [lookup list_lookup default id]. f_equal.
  - unfold ldi16 at 1. skip_st. by apply ldi16_st.
  - unfold ldi16 at 1. skip_st. by apply ldi16_st.
  - unfold ldi16 at 1. skip_st. by apply ldi16_st.
  - unfold ldi16 at 1. skip_st. by apply ldi16_st.
  - skip_st. by apply ld32_st32_eq.
  - do 12 (f_equal; [skip_st; by apply ld32_st32_eq|]). f_equal. by apply ld32_st32_eq.
Qed.

(** What is read from the disk has the values of its types. *)
Lemma ld_di_fits m k : di_fits (ld_di m k).
Proof.
  assert (∀ a, short (ldi16 m a)) as Hs.
  { intros a. unfold short, ldi16, i16. pose proof (Z.mod_pos_bound (ld16 m a + 32768) 65536). lia. }
  unfold di_fits, ld_di. cbn [di_type di_major di_minor di_nlink di_size di_addrs]. split_and!; try apply Hs.
  - apply ld32_range.
  - apply ld32_range.
  - by rewrite length_map, length_seqZ.
  - apply Forall_fmap, Forall_forall. intros c _. apply ld32_range.
Qed.

Lemma ld_st_di_ne m k k' x : k ≠ k' → ld_di (st_di m k x) k' = ld_di m k'.
Proof.
  intros Hne. assert (∀ n b, 64 * k' ≤ b → b + Z.of_nat n ≤ 64 * k' + 64 → ldn n (st_di m k x) b = ldn n m b) as H.
  { intros n b Hb He. apply ldn_ext. intros c Hc. apply st_di_out. lia. }
  unfold ld_di, ldi16. rewrite !(H 2%nat), (H 4%nat) by lia. f_equal. apply map_ext_in. intros c Hc%list_elem_of_In%elem_of_seqZ. apply H; lia.
Qed.

Section Code.
Context {T : Type} {TO : TxOps T} {TS : TxSpec T} {TW : TxWriteSpec T} (sb : superblock) (Hsb : sb_ok sb).
Context (Hhome : ∀ x, sb_inodestart sb ≤ x < sb_size sb → tx_home x).
Implicit Types (v : tview) (s : fs T) (x : dinode).

Lemma IBLOCK_range inum : 0 ≤ inum < sb_ninodes sb → sb_inodestart sb ≤ IBLOCK inum sb < sb_bmapstart sb ∧ IBLOCK inum sb = inum / 16 + sb_inodestart sb.
Proof.
  intros Hi. destruct (Hsb) as [_ [H1 H2] H3 H4]. pose proof (sb_bounds sb Hsb). unfold IBLOCK, IPB, BSIZE in *. change (1024 / 64) with 16 in *.
  pose proof (Z.div_pos inum 16). assert (inum / 16 ≤ (sb_ninodes sb - 1) / 16) by (apply Z.div_le_mono; lia).
  rewrite u32_small by lia. lia.
Qed.

(** The contents [c] with the bytes [g 0 .. g (m-1)] written at [off] to the
    file of inode [inum], whose inode was [x] and is [x'] now, in memory and
    on disk; everything else in use is as it was. *)
Record edit (inum off m : Z) (g : Z → Z) (c : Z → mem) x (c' : Z → mem) x' : Prop := {
  ed_file : file_ok sb c' x';
  ed_bm : bm_ok sb c';
  ed_meta : x' = DI (di_type x) (di_major x) (di_minor x) (di_nlink x) (Z.max (di_size x) (off + m)) (di_addrs x');
  ed_data : ∀ j, 0 ≤ j < 268 * 1024 → fdata c' x' j = if decide (off ≤ j < off + m) then g (j - off) else fdata c x j;
  ed_keep : ∀ b, 0 < b < sb_bmapstart sb ∨ dstart sb ≤ b < sb_size sb ∧ bused sb c b = true →
    b ≠ IBLOCK inum sb → ¬ owned c x b → c' b = c b;
  ed_mono : ∀ b, 0 ≤ b < sb_size sb → bused sb c b = true → bused sb c' b = true;
  ed_used : ∀ b, 0 ≤ b < sb_size sb → bused sb c' b = true → bused sb c b = true ∨ owned c' x' b;
  ed_owns : ∀ b, owned c x b → owned c' x' b;
  ed_own : ∀ b, owned c' x' b → owned c x b ∨ bused sb c b = false;
  ed_disk : ld_di (c' (IBLOCK inum sb)) (inum mod IPB) = x';
  ed_inodes : ∀ k, k ≠ inum mod IPB → ld_di (c' (IBLOCK inum sb)) k = ld_di (c (IBLOCK inum sb)) k
}.

Lemma edit_none inum off g c x :
  file_ok sb c x → bm_ok sb c → 0 ≤ off ≤ di_size x → ld_di (c (IBLOCK inum sb)) (inum mod IPB) = x → edit inum off 0 g c x c x.
Proof.
  intros Hf Hbm Ho Hd. split; try done.
  - destruct x. cbn in *. f_equal. lia.
  - intros j Hj. by rewrite decide_False by lia.
  - by left.
  - by left.
Qed.

Lemma edit_ext inum off m g g' c x c' x' :
  (∀ k, 0 ≤ k < m → g k = g' k) → edit inum off m g c x c' x' → edit inum off m g' c x c' x'.
Proof.
  intros Hg [A1 A2 A3 A4 A5 A6 A7 A7' A8 A9 A10]. split; try done. intros j Hj. rewrite A4 by done. case_decide; [|done]. apply Hg. lia.
Qed.

(** One write after the other. *)
Lemma edit_trans inum off m m' g c x c1 x1 c2 x2 :
  edit inum off m g c x c1 x1 → edit inum (off + m) m' (λ k, g (m + k)) c1 x1 c2 x2 → 0 ≤ m → 0 ≤ m' →
  edit inum off (m + m') g c x c2 x2.
Proof.
  intros [A1 A2 A3 A4 A5 A6 A7 A7' A8 A9 A10] [B1 B2 B3 B4 B5 B6 B7 B7' B8 B9 B10] Hm Hm'. pose proof (sb_bounds sb Hsb) as Hbd. split; try done.
  - rewrite B3, A3. cbn [di_type di_major di_minor di_nlink di_size]. f_equal. lia.
  - intros j Hj. rewrite B4, A4 by done. repeat case_decide; try lia; try done. f_equal. lia.
  - intros b Hb Hne Hno. rewrite B5; [by apply A5| |done|].
    + destruct Hb as [Hb|[Hb Hu]]; [by left|right]. split; [done|]. apply A6; [lia|done].
    + intros Ho. destruct (A8 b Ho) as [|Hu]; [done|]. destruct Hb as [Hb|[_ Hb]]; [|congruence].
      destruct (fo_range _ _ _ A1 _ Ho). lia.
  - intros b Hb Hu. apply B6; [done|]. by apply A6.
  - intros b Hb Hu. destruct (B7 b Hb Hu) as [Hu1|]; [|by right]. destruct (A7 b Hb Hu1) as [|Ho]; [by left|right]. by apply B7'.
  - intros b Ho. by apply B7', A7'.
  - intros b Ho. destruct (B8 b Ho) as [Ho1|Hu1]; [by apply A8|]. destruct (bused sb c b) eqn:E; [|by right].
    destruct (fo_range _ _ _ B1 _ Ho) as [Hr%data_pos _]; [|done]. rewrite (A6 b Hr E) in Hu1. done.
  - intros k Hk. by rewrite B10, A10.
Qed.

(** The inode block with the inode [x] written. *)
Definition tv_iupdate (inum : Z) x v : tview :=
  tv_put (IBLOCK inum sb) (st_di (tv_cur v (IBLOCK inum sb)) (inum mod IPB) x) v.

Lemma iupdate_spec v s ip Q :
  fs_sb s = sb → i_dev (geti ip s) = ROOTDEV → 0 ≤ i_inum (geti ip s) < sb_ninodes sb →
  tx_ok v (fs_t s) → tv_held v = ∅ → tv_raw v = ∅ → room (bitmaps sb) 1 v →
  (∀ t', tx_ok (tv_iupdate (i_inum (geti ip s)) (getd ip s) v) t' → Q tt (set_fs_t t' s)) → wp (iupdate ip) Q s.
Proof.
  intros Hs Hdev Hin Hok Hh Hraw Hrm HQ. unfold iupdate. wp_step. wp_step. rewrite Hs. wp_step. wp_step. wp_step. rewrite Hdev.
  destruct (IBLOCK_range _ Hin) as [Hr _]. destruct (Hsb) as [_ _ ? ?]. pose proof (sb_bounds sb Hsb).
  eapply (wp_bread (bitmaps sb) v); [done|apply Hhome; lia|by apply not_held|done|]. intros bp t1 Hbp Hok1 Hdt.
  wp_step. wp_step. unfold bdata at 1. cbn [fs_t set_fs_t]. rewrite Hdt.
  eapply (wp_put_end (bitmaps sb) v); [done|exact Hok1|by rewrite Hraw|done|]. intros t2 Hok2. by apply HQ.
Qed.
(** ** [writei] *)

(** Byte [k] of the source. *)
Definition src_byte (user : bool) (u : umem) (km : mem) (src k : Z) : Z := ldb (if user then u_mem u else km) (src + k).

Lemma copied_in user u km src data o k :
  0 ≤ k → (user = true → ∀ j, 0 ≤ j < k → u_r u (src + j) = true) →
  ∃ data', either_copyin data o user u km src k = (0, data') ∧
    ∀ i, ldb data' i = if decide (o ≤ i < o + k) then src_byte user u km src (i - o) else ldb data i.
Proof.
  intros Hk Hr. unfold either_copyin, src_byte. destruct user.
  - unfold ucopyin. rewrite prefix_all by auto. rewrite Z.eqb_refl. eexists. split; [reflexivity|]. intros i. by apply ldb_mcopy.
  - eexists. split; [reflexivity|]. intros i. by apply ldb_mcopy.
Qed.

Lemma set_t_with_file ip x t t' s : set_fs_t t' (with_file ip x t s) = with_file ip x t' s.
Proof. reflexivity. Qed.

Definition i_with (i : inode) x : inode := Ino (i_dev i) (i_inum i) (i_ref i) (i_lock i) (i_valid i) x.

Lemma ino_with_file ip x t s i : it_inode s !! ip = Some i → it_inode (with_file ip x t s) !! ip = Some (i_with i x).
Proof. intros Hi. unfold with_file, setd, seti, geti. cbn. by rewrite Hi, lookup_insert_eq. Qed.

(** The file while it is written. *)
Lemma file_at_written off tot hi g v x v1 x1 t1 s ip i :
  file_at sb v s ip i x → written sb off tot hi g v x v1 x1 → tx_ok v1 t1 → file_at sb v1 (with_file ip x1 t1 s) ip (i_with i x1) x1.
Proof.
  intros [? Hi ? ? ? ? ? ? ?] [? ? ? ? ? ? ? ? ? ? ? ? ?] Hok. split; try done. by apply ino_with_file.
Qed.

(** The blocks a write of [n] bytes at [off] touches. *)
Lemma last_block off n tot : 0 ≤ off → 0 ≤ tot < n → (off + tot) / 1024 + 1 ≤ off / 1024 + Z.of_nat (chunks 1024 off n).
Proof.
  intros Ho Ht. unfold chunks. rewrite (proj2 (Z.leb_gt n 0)) by lia.
  pose proof (Z.div_mod off 1024). pose proof (Z.mod_pos_bound off 1024). pose proof (Z.div_pos (off mod 1024 + n + 1023) 1024).
  rewrite Z2Nat.id by (apply Z.div_pos; lia). rewrite <-!Z.div_add_l by lia.
  replace (off / 1024 * 1024 + (off mod 1024 + n + (1024 - 1))) with (1 * 1024 + (off + n - 1)) by lia. rewrite Z.div_add_l by lia.
  pose proof (Z.div_le_mono (off + tot) (off + n - 1) 1024). lia.
Qed.

Section Writei.
Context (v : tview) (s : fs T) (ip : Z) (i : inode) (x : dinode) (user : bool) (src off n : Z) (km : mem).
Context (Hat : file_at sb v s ip i x) (Hinum : 0 ≤ i_inum i < sb_ninodes sb).
Context (Hfit : di_fits x) (Ho : 0 ≤ off ≤ di_size x) (Hn : 0 ≤ n) (Hmax : off + n ≤ 268 * 1024) (Hsrc : 0 ≤ src) (Hsn : src + n < 18446744073709551616).
Context (Hr : user = true → ∀ k, 0 ≤ k < n → u_r (fs_u s) (src + k) = true).
Context (Hrm : room (bitmaps sb) (3 + Z.of_nat (chunks 1024 off n)) v).
Let g := src_byte user (fs_u s) km src.

(** The state of the loop. *)
Definition wloop (tot hi : Z) v1 x1 t1 : Prop :=
  0 ≤ tot ≤ n ∧ off / 1024 ≤ hi ≤ off / 1024 + Z.of_nat (chunks 1024 off n) ∧ tx_ok v1 t1 ∧ written sb off tot hi g v x v1 x1.

Lemma writei_loop Q :
  (∀ tot hi v1 x1 t1, wloop tot hi v1 x1 t1 → (tot < n → ∀ b, 0 ≤ b < sb_size sb → bused sb (tv_cur v1) b = true) →
     Q (tot, off + tot) (with_file ip x1 t1 s)) →
  wp (loop (Z.to_nat (n / BSIZE) + 3) (λ y : Z * Z * Z,
    let '(tot, off, src) := y in
    if negb (tot <? n) then mret (inr (tot, off)) else
    addr ← bmap ip (off / BSIZE);
    if addr =? 0 then mret (inr (tot, off)) else
    bp ← tx (tx_bread ROOTDEV addr);
    let m := Z.min (n - tot) (BSIZE - off mod BSIZE) in
    data ← gets (bdata bp);
    u ← gets fs_u;
    let '(r, data') := either_copyin data (off mod BSIZE) user u km src m in
    set_bdata bp data';;
    if r =? -1 then tx (tx_brelse bp);; mret (inr (tot, off)) else
    tx (tx_log_write bp);;
    tx (tx_brelse bp);;
    mret (inl (u32 (tot + m), u32 (off + m), u64 (src + m)))) (0, off, src)) Q s.
Proof.
  intros HQ. change BSIZE with 1024. pose proof Hat as [Hs Hi Hdev Hd Hok Hh Hraw Hbm Hf].
  apply (wp_loop (λ (y : Z * Z * Z) s', ∃ tot hi v1 x1 t1, y = (tot, off + tot, src + tot) ∧ wloop tot hi v1 x1 t1 ∧
    (tot < n → hi = (off + tot) / 1024) ∧ s' = with_file ip x1 t1 s) (λ y _, let '(tot, o, _) := y in chunks 1024 o (n - tot))).
  - exists 0, (off / 1024), v, x, (fs_t s). rewrite !Z.add_0_r. split_and!; try done; [split_and!; try done; try lia|].
    + apply written_none; (done || lia).
    + rewrite <-Hd. replace (i_d i) with (getd ip s) by (unfold getd, geti; by rewrite Hi). symmetry. by eapply with_file_id.
  - rewrite Z.sub_0_r. pose proof (chunks_bound 1024 off n). lia.
  - intros [[tot o] src'] s' (tot' & hi & v1 & x1 & t1 & [= -> -> ->] & (Htot & Hhi & Hok1 & Hw) & Hhi' & ->).
    destruct (Z.ltb_spec tot' n) as [Hlt|Hge]; cbn [negb].
    2:{ wp_step. apply (HQ tot' hi v1 x1 t1); [done|lia]. }
    specialize (Hhi' Hlt). rewrite <-Hhi'. wp_step. set (s1 := with_file ip x1 t1 s).
    pose proof (Z.div_mod (off + tot') 1024) as Hdm. pose proof (Z.mod_pos_bound (off + tot') 1024) as Hmb. rewrite <-Hhi' in Hdm.
    pose proof (last_block off n tot' ltac:(lia) ltac:(lia)) as Hlast. rewrite <-Hhi' in Hlast.
    assert (room (bitmaps sb) 3 v1) as Hrm1. { eapply written_room; [exact Hw|lia|]. eapply room_less; [exact Hrm|lia]. }
    destruct (file_at_written _ _ _ _ _ _ _ _ _ _ _ _ Hat Hw Hok1) as [Hs1 Hi1 Hdev1 Hd1 Hok1' Hh1 Hraw1 Hbm1 Hf1].
    assert (0 ≤ off / 1024) by (apply Z.div_pos; lia).
    eapply (bmap_spec sb Hsb Hhome v1 s1 ip (i_with i x1) x1 hi); try done; [lia|].
    intros addr v2 x2 t2 Hg Hok2. pose proof (written_grown _ Hsb _ _ _ _ _ _ _ _ _ _ _ Hw Hg ltac:(lia) ltac:(lia)) as Hw2.
    unfold s1. rewrite with_file_twice. destruct (Z.eqb_spec addr 0) as [E|Hnz].
    { wp_step. apply (HQ tot' (hi + 1) v2 x2 t2); [split_and!; (done || lia)|]. intros _. by apply (gr_full _ _ _ _ _ _ _ Hg). }
    pose proof (gr_at _ _ _ _ _ _ _ Hg) as Hat2. rewrite <-Hat2 in Hnz |- *.
    destruct (put_range sb v2 x2 hi (wr_file _ _ _ _ _ _ _ _ _ Hw2) ltac:(lia) Hnz) as [Hra Hua].
    assert (room (bitmaps sb) 1 v2) as Hrm2. { eapply written_room; [exact Hw2|lia|]. eapply room_less; [exact Hrm|lia]. }
    wp_step. eapply (wp_bread (bitmaps sb) v2); [exact Hok2|by apply (data_home sb)|apply not_held, (wr_held _ _ _ _ _ _ _ _ _ Hw2)|exact Hrm2|].
    intros bp t3 Hbp Hok3 Hdt. wp_step. wp_step. wp_step. unfold bdata. cbn [fs_t set_fs_t]. rewrite Hdt. wp_step.
    remember (Z.min (n - tot') (1024 - (off + tot') mod 1024)) as m eqn:Hm. rewrite set_t_with_file.
    change (fs_u (with_file ip x2 t3 s)) with (fs_u s).
    destruct (copied_in user (fs_u s) km (src + tot') (tv_cur v2 (faddr (tv_cur v2) x2 hi)) ((off + tot') mod 1024) m) as (data' & -> & Hdata); [lia| |].
    { intros Hu k Hk. rewrite <-Z.add_assoc. apply Hr; [done|lia]. }
    cbn [Z.eqb]. eapply (wp_put (bitmaps sb) v2); [done|exact Hok3|by rewrite (wr_raw _ _ _ _ _ _ _ _ _ Hw2)|exact Hrm2|].
    intros t4 Hok4. wp_step. rewrite !u32_small, u64_small by lia. split.
    + exists (tot' + m), (hi + 1), (tv_put (faddr (tv_cur v2) x2 hi) data' v2), x2, t4. rewrite !Z.add_assoc. split_and!; try done.
      * split_and!; [lia..|done|]. apply written_put; try done; try lia. intros j Hj. rewrite Hdata.
        unfold g, src_byte. repeat case_decide; try lia. f_equal. lia.
      * intros Hml. replace (off + tot' + m) with (0 + (hi + 1) * 1024) by lia. by rewrite Z.div_add by lia.
    + replace (n - (tot' + m)) with (n - tot' - m) by lia. apply chunks_step; [lia|lia|lia|]. intros Hml.
      replace (off + tot' + m) with (0 + (hi + 1) * 1024) by lia. by rewrite Z.mod_add by lia.
Qed.
(** What [writei] has done when it returns [tot]. *)
Record wrote (tot : Z) v' x' : Prop := {
  wo_tot : 0 ≤ tot ≤ n;
  wo_full : tot < n → ∀ b, 0 ≤ b < sb_size sb → bused sb (tv_cur v') b = true;
  wo_edit : edit (i_inum i) off tot g (tv_cur v) x (tv_cur v') x';
  wo_raw : tv_raw v' = ∅;
  wo_held : tv_held v' = ∅;
  wo_logged : (size (tv_logged v' ∖ tv_logged v) ≤ size (bitmaps sb) + 2 + chunks 1024 off n)%nat
}.

Lemma owned_size c x1 sz b : owned c (d_set_size sz x1) b ↔ owned c x1 b.
Proof. done. Qed.

Lemma file_resize c x1 sz :
  file_ok sb c x1 → 0 ≤ sz ≤ 268 * 1024 → (∀ bn, 0 ≤ bn < 268 → bn * 1024 < sz → faddr c x1 bn ≠ 0) → file_ok sb c (d_set_size sz x1).
Proof. intros [H1 H2 H3 H4 H5 H6] Hsz Ha. split; try done. intros bn Hbn Hlt. apply Ha; cbn in Hlt; lia. Qed.

Section Final.
Context (tot hi : Z) (v1 : tview) (x1 : dinode) (t1 : T) (Hl : wloop tot hi v1 x1 t1).
Let x' := d_set_size (Z.max (di_size x) (off + tot)) x1.
Let v' := tv_iupdate (i_inum i) x' v1.

Lemma final_cur b : b ≠ IBLOCK (i_inum i) sb → tv_cur v' b = tv_cur v1 b.
Proof. intros Hb. unfold v', tv_iupdate, tv_put, cur_set. cbn [tv_cur]. by rewrite decide_False. Qed.

Lemma final_ind : ind x1 ≠ 0 → tv_cur v' (ind x1) = tv_cur v1 (ind x1).
Proof.
  intros Hz. destruct Hl as (_ & _ & _ & Hw). destruct (fo_range _ _ _ (wr_file _ _ _ _ _ _ _ _ _ Hw) _ (owned_ind (tv_cur v1) x1 Hz)) as [Hir _].
  apply final_cur. destruct (IBLOCK_range _ Hinum). pose proof (sb_bounds sb Hsb). lia.
Qed.

Lemma final_bused b : 0 ≤ b < sb_size sb → bused sb (tv_cur v') b = bused sb (tv_cur v1) b.
Proof.
  intros Hb. unfold bused. rewrite final_cur; [done|]. destruct (BBLOCK_range sb Hsb b Hb). destruct (IBLOCK_range _ Hinum). lia.
Qed.

Lemma final_fdata j : 0 ≤ j < 268 * 1024 → fdata (tv_cur v') x' j = fdata (tv_cur v1) x1 j.
Proof.
  intros Hj. pose proof (Z.div_pos j 1024). assert (j / 1024 < 268) by (apply Z.div_lt_upper_bound; lia).
  unfold fdata, fbyte. change (faddr (tv_cur v') x') with (faddr (tv_cur v') x1). rewrite !(faddr_ext (tv_cur v1)) by apply final_ind.
  destruct (Z.eqb_spec (faddr (tv_cur v1) x1 (j / 1024)) 0) as [|Hz]; [done|]. rewrite final_cur; [done|].
  destruct Hl as (_ & _ & _ & Hw). destruct (put_range sb v1 x1 (j / 1024) (wr_file _ _ _ _ _ _ _ _ _ Hw) ltac:(lia) Hz) as [Hir _].
  destruct (IBLOCK_range _ Hinum). pose proof (sb_bounds sb Hsb). lia.
Qed.

Lemma final_fits : di_fits x'.
Proof.
  destruct Hfit as (H1 & H2 & H3 & H4 & H5 & H6 & H7). destruct Hl as (Ht & _ & _ & Hw). pose proof (wr_meta _ _ _ _ _ _ _ _ _ Hw) as Hm.
  pose proof (wr_file _ _ _ _ _ _ _ _ _ Hw) as Hf1. destruct (Hsb) as [_ _ _ Hsz]. pose proof (sb_bounds sb Hsb) as Hbd.
  unfold x', d_set_size. rewrite Hm. repeat (split; [done|]). cbn [di_size di_addrs]. split; [lia|]. split; [apply (fo_len _ _ _ Hf1)|].
  apply Forall_lookup. intros k a Hk. destruct (decide (a = 0)); [lia|]. pose proof (lookup_lt_Some _ _ _ Hk) as Hlt.
  rewrite (fo_len _ _ _ Hf1) in Hlt. destruct (fo_range _ _ _ Hf1 a) as [Ha _]; [|lia]. split; [done|].
  destruct (decide (k = 12%nat)) as [->|]; [left; unfold ind; by rewrite Hk|]. right. exists (Z.of_nat k). split; [lia|].
  unfold faddr. rewrite (proj2 (Z.ltb_lt _ _)) by lia. by rewrite Nat2Z.id, Hk.
Qed.

Lemma final_logged : (size (tv_logged v' ∖ tv_logged v) ≤ size (bitmaps sb) + 2 + chunks 1024 off n)%nat.
Proof.
  destruct Hl as (_ & Hhi & _ & Hw). set (l := map (faddr (tv_cur v1) x1) (seqZ (off / 1024) (hi - off / 1024))).
  assert (tv_logged v' ∖ tv_logged v ⊆ ({[IBLOCK (i_inum i) sb]} ∪ ({[ind x1]} ∪ bitmaps sb)) ∪ list_to_set l) as Hsub.
  { intros b [Hb Hnb]%elem_of_difference. cbn in Hb. apply elem_of_union in Hb as [Hb|Hb]; [clear -Hb; set_solver|].
    destruct (wr_logged _ _ _ _ _ _ _ _ _ Hw b Hb) as [?|[?|[_ [->|(c & Hc & ->)]]]]; [done|apply elem_of_union_l; set_solver|apply elem_of_union_l; set_solver|].
    apply elem_of_union_r, elem_of_list_to_set, list_elem_of_fmap. exists c. split; [done|]. apply elem_of_seqZ. lia. }
  apply subseteq_size in Hsub. pose proof (size_list_union l ({[IBLOCK (i_inum i) sb]} ∪ ({[ind x1]} ∪ bitmaps sb))).
  pose proof (size_add (IBLOCK (i_inum i) sb) ({[ind x1]} ∪ bitmaps sb)). pose proof (size_add (ind x1) (bitmaps sb)).
  assert (length l = Z.to_nat (hi - off / 1024)) by (unfold l; by rewrite length_map, length_seqZ). lia.
Qed.

Lemma final_edit : edit (i_inum i) off tot g (tv_cur v) x (tv_cur v') x'.
Proof.
  pose proof Hl as (Ht & Hhi & Hok & Hw). pose proof Hw as [H1 H2 H3 H4 H5 H6 H7 H8 H9 H10 H10' H11 H12].
  pose proof (fo_size _ _ _ (fa_file _ _ _ _ _ _ Hat)) as Hsz. destruct (Hsb) as [_ _ ? ?]. split.
  - apply file_resize; [|lia|].
    + apply (file_ext sb (tv_cur v1)); [apply final_ind| |done]. intros b Hob Hu. destruct (fo_range _ _ _ H1 _ Hob) as [Hr' _].
      rewrite final_bused; [done|]. by apply data_pos.
    + intros bn Hbn Hlt. rewrite (faddr_ext (tv_cur v1)) by apply final_ind. by apply H7.
  - intros b Hb. rewrite final_bused by lia. by apply H2.
  - unfold x', d_set_size. rewrite H5. done.
  - intros j Hj. rewrite final_fdata by done. by apply H6.
  - intros b Hb Hne Hno. rewrite final_cur by done. by apply H8.
  - intros b Hb Hu. rewrite final_bused by done. by apply H9.
  - intros b Hb Hu. rewrite final_bused in Hu by done. destruct (H10 b Hb Hu) as [|Hob]; [by left|right].
    unfold x'. rewrite owned_size. by apply (owned_ext (tv_cur v1)); [apply final_ind|].
  - intros b Hob. unfold x'. rewrite owned_size. apply (owned_ext (tv_cur v1)); [apply final_ind|]. by apply H10'.
  - intros b Hob. unfold x' in Hob. rewrite owned_size in Hob. apply H11. by apply (owned_ext (tv_cur v1)) in Hob; [|apply final_ind].
  - unfold v', tv_iupdate, tv_put, cur_set. cbn [tv_cur]. rewrite decide_True by done. apply ld_st_di. by apply final_fits.
  - intros k Hk. unfold v', tv_iupdate, tv_put, cur_set. cbn [tv_cur]. rewrite decide_True, ld_st_di_ne by done.
    rewrite H8; [done| |]; destruct (IBLOCK_range _ Hinum) as [Hib _]; pose proof (sb_bounds sb Hsb) as Hbd; [left; lia|].
    intros Hob. destruct (fo_range _ _ _ (fa_file _ _ _ _ _ _ Hat) _ Hob). lia.
Qed.

Lemma final_wrote : (tot < n → ∀ b, 0 ≤ b < sb_size sb → bused sb (tv_cur v1) b = true) → wrote tot v' x'.
Proof.
  intros Hfull. pose proof Hl as (Ht & _ & _ & Hw). split; [done| |apply final_edit|apply (wr_raw _ _ _ _ _ _ _ _ _ Hw)|apply (wr_held _ _ _ _ _ _ _ _ _ Hw)|apply final_logged].
  intros Hlt b Hb. rewrite final_bused by done. by apply Hfull.
Qed.
End Final.

Lemma writei_spec Q :
  (∀ tot v' x' t', wrote tot v' x' → tx_ok v' t' → Q tot (with_file ip x' t' s)) → wp (writei ip user src off n km) Q s.
Proof.
  intros HQ. pose proof Hat as [Hs Hi Hdev Hd Hok Hh Hraw Hbm Hf]. assert (geti ip s = i) as Hg by (unfold geti; by rewrite Hi).
  unfold writei. wp_step. wp_step. wp_step. wp_step. unfold getd at 1. rewrite Hg, Hd, Hdev. rewrite u32_small by lia.
  rewrite (proj2 (Z.ltb_ge _ off)), (proj2 (Z.ltb_ge (off + n) off)) by lia. cbn [orb].
  change (MAXFILE * BSIZE) with (268 * 1024). rewrite Z.gtb_ltb, (proj2 (Z.ltb_ge _ (off + n))) by lia. wp_step.
  apply writei_loop. intros tot hi v1 x1 t1 Hl Hfull. pose proof Hl as (Ht & Hhi & Hok1 & Hw). wp_step. wp_step. wp_step.
  rewrite getd_with_file. set (x' := d_set_size (Z.max (di_size x) (off + tot)) x1).
  assert (wp (if di_size x1 <? off + tot then modify (λ s, setd ip (d_set_size (off + tot) (getd ip s)) s) else mret tt)
    (λ _ s', s' = with_file ip x' t1 s) (with_file ip x1 t1 s)) as Hsz.
  { pose proof (wr_meta _ _ _ _ _ _ _ _ _ Hw) as Hm. assert (di_size x1 = di_size x) as E by (rewrite Hm; done). rewrite E.
    destruct (Z.ltb_spec (di_size x) (off + tot)) as [Hlt|Hge]; wp_step.
    - rewrite getd_with_file. unfold x'. rewrite Z.max_r by lia. apply (with_file_twice ip x1 t1 _ t1).
    - unfold x'. rewrite Z.max_l by lia. f_equal. rewrite <-E. by destruct x1. }
  eapply wp_mono; [exact Hsz|]. intros [] s' ->. wp_step.
  assert (geti ip (with_file ip x' t1 s) = i_with i x') as Hgi by (rewrite geti_with_file, Hg; done).
  apply (iupdate_spec v1); rewrite ?Hgi; try done; [apply (wr_held _ _ _ _ _ _ _ _ _ Hw)|apply (wr_raw _ _ _ _ _ _ _ _ _ Hw)| |].
  { eapply written_room; [exact Hw|lia|]. eapply room_less; [exact Hrm|lia]. }
  intros t2 Hok2. rewrite getd_with_file in Hok2. wp_step. pose proof (fo_size _ _ _ Hf). rewrite i32_small by lia.
  rewrite set_t_with_file. eapply HQ; [|exact Hok2]. by apply (final_wrote tot hi v1 x1 t1).
Qed.
End Writei.
End Code.

(** ** Locking an inode: [ilock], [iunlock] *)

Section Inode.
Context {T : Type} {TO : TxOps T} (pid : Z).
Implicit Types s : fs T.

Lemma get_set_ilock ip l s : get_ilock ip (set_ilock ip l s) = l.
Proof. unfold get_ilock, set_ilock, geti, seti. cbn. by rewrite lookup_insert_eq. Qed.
Lemma set_set_ilock ip l l' s : set_ilock ip l (set_ilock ip l' s) = set_ilock ip l s.
Proof. unfold set_ilock, geti, seti, set_it_inode. cbn. by rewrite lookup_insert_eq, insert_insert_eq. Qed.
Lemma geti_set_ilock ip l s :
  geti ip (set_ilock ip l s) = Ino (i_dev (geti ip s)) (i_inum (geti ip s)) (i_ref (geti ip s)) l (i_valid (geti ip s)) (i_d (geti ip s)).
Proof. unfold set_ilock, geti, seti. cbn. by rewrite lookup_insert_eq. Qed.
Lemma set_ilock_id ip s : is_Some (it_inode s !! ip) → set_ilock ip (get_ilock ip s) s = s.
Proof.
  intros [i Hi]. destruct s as [sb l m u t]. unfold set_ilock, get_ilock, seti, set_it_inode, geti. cbn in *. rewrite Hi. cbn.
  f_equal. destruct i. by apply insert_id.
Qed.

(** An inode that is already in memory: only its lock is taken. *)
Lemma ilock_valid ip s p Q :
  ip ≠ 0 → 1 ≤ i_ref (geti ip s) → get_ilock ip s = SL 0 false p → i_valid (geti ip s) ≠ 0 →
  Q tt (set_ilock ip (SL 1 false pid) s) → wp (ilock pid ip) Q s.
Proof.
  intros Hip Hr Hl Hv HQ. unfold ilock. wp_step. wp_step. wp_step. wp_step.
  { apply orb_false_iff. split; [by apply Z.eqb_neq|apply Z.ltb_ge; lia]. }
  wp_step. eapply wp_acquiresleep; [apply get_set_ilock|apply set_set_ilock|exact Hl|]. wp_step. wp_step.
  rewrite geti_set_ilock. cbn [i_valid]. rewrite (proj2 (Z.eqb_neq _ _) Hv). by rewrite wp_ret.
Qed.

(** The holder gives the lock back. *)
Lemma iunlock_spec ip s Q :
  ip ≠ 0 → 1 ≤ i_ref (geti ip s) → is_Some (it_inode s !! ip) → get_ilock ip s = SL 1 false pid →
  Q tt (set_ilock ip (SL 0 false 0) s) → wp (iunlock pid ip) Q s.
Proof.
  intros Hip Hr Hs Hl HQ. unfold iunlock. rewrite (proj2 (Z.eqb_neq _ _) Hip). wp_step.
  eapply wp_holdingsleep; [apply get_set_ilock|apply set_set_ilock|exact Hl|]. rewrite set_ilock_id by done.
  rewrite Z.eqb_refl. wp_step. wp_step. wp_step. wp_step.
  { cbn. apply Z.ltb_ge. lia. }
  eapply wp_releasesleep; [apply get_set_ilock|apply set_set_ilock|exact Hl|done].
Qed.
End Inode.
