(* ===== verification/File.v ===== *)
(** * Open files: [kernel/file.c], [pipealloc] of [kernel/pipe.c]

    The table of open files over the file system, the pipes and the devices.
    A file pointer is 0 or the position of the entry in the table, from 1; a
    pipe is known by its address.  A call that a pipe or a device makes wait
    ends with [Sleep], as in [Pipe].  [killed] is what [killed(myproc())]
    says; [kmalloc] and [kmfree] come through their operations. *)

From S2P Require Import Prelude Mem Kstring Layout BufIface Sleeplock TxIface Fs Ring Pipe.

Definition CONSOLE : Z := 1.

Inductive fdtype := FD_NONE | FD_PIPE | FD_INODE | FD_DEVICE.
#[global] Instance fdtype_eq_dec : EqDecision fdtype.
Proof. solve_decision. Defined.

(** [struct file]. *)
Record file := File {
  f_type : fdtype; f_ref : Z; f_readable : Z; f_writable : Z;
  f_pipe : Z; f_ip : Z; f_off : Z; f_major : Z
}.
Definition file0 : file := File FD_NONE 0 0 0 0 0 0 0.

Definition f_set_type v f := File v (f_ref f) (f_readable f) (f_writable f) (f_pipe f) (f_ip f) (f_off f) (f_major f).
Definition f_set_ref v f := File (f_type f) v (f_readable f) (f_writable f) (f_pipe f) (f_ip f) (f_off f) (f_major f).
Definition f_set_readable v f := File (f_type f) (f_ref f) v (f_writable f) (f_pipe f) (f_ip f) (f_off f) (f_major f).
Definition f_set_writable v f := File (f_type f) (f_ref f) (f_readable f) v (f_pipe f) (f_ip f) (f_off f) (f_major f).
Definition f_set_pipe v f := File (f_type f) (f_ref f) (f_readable f) (f_writable f) v (f_ip f) (f_off f) (f_major f).
Definition f_set_ip v f := File (f_type f) (f_ref f) (f_readable f) (f_writable f) (f_pipe f) v (f_off f) (f_major f).
Definition f_set_off v f := File (f_type f) (f_ref f) (f_readable f) (f_writable f) (f_pipe f) (f_ip f) v (f_major f).
Definition f_set_major v f := File (f_type f) (f_ref f) (f_readable f) (f_writable f) (f_pipe f) (f_ip f) (f_off f) v.

(** The memory [kmalloc] manages. *)
Class KmOps (K : Type) := {
  km_alloc : Z → M K Z;
  km_free : Z → Z → M K unit
}.

Record files (T K : Type) := Files {
  ft_lock : bool;
  ft_file : gmap Z file;       (* ftable.file *)
  ft_pipe : gmap Z pipe;
  ft_km : K;
  ft_fs : fs T
}.
Arguments Files {T K}. Arguments ft_lock {T K}. Arguments ft_file {T K}. Arguments ft_pipe {T K}.
Arguments ft_km {T K}. Arguments ft_fs {T K}.

Section File.
Context {T K : Type} {TO : TxOps T} {KO : KmOps K} (pid : Z) (killed : bool).
Implicit Types s : files T K.

Definition set_ft_lock v s : files T K := Files v (ft_file s) (ft_pipe s) (ft_km s) (ft_fs s).
Definition set_ft_file v s : files T K := Files (ft_lock s) v (ft_pipe s) (ft_km s) (ft_fs s).
Definition set_ft_pipe v s : files T K := Files (ft_lock s) (ft_file s) v (ft_km s) (ft_fs s).
Definition set_ft_km v s : files T K := Files (ft_lock s) (ft_file s) (ft_pipe s) v (ft_fs s).
Definition set_ft_fs v s : files T K := Files (ft_lock s) (ft_file s) (ft_pipe s) (ft_km s) v.

Definition fget (f : Z) s : file := default file0 (ft_file s !! f).
Definition fput (f : Z) (x : file) s : files T K := set_ft_file (<[f := x]> (ft_file s)) s.
Definition fmod (f : Z) (g : file → file) s : files T K := fput f (g (fget f s)) s.

Definition fsop {A} (m : M (fs T) A) : M (files T K) A := lift ft_fs set_ft_fs m.
Definition pipeop {A} (pi : Z) (m : M pipe A) : M (files T K) A :=
  lift (λ s, default pipe_init (ft_pipe s !! pi)) (λ p s, set_ft_pipe (<[pi := p]> (ft_pipe s)) s) m.
Definition kmop {A} (m : M K A) : M (files T K) A := lift ft_km set_ft_km m.

(** [devsw[major].read] and [.write]; [None] for a null pointer. *)
Record devsw := Dev { d_read : option (Z → Z → M (files T K) outcome); d_write : option (Z → Z → M (files T K) outcome) }.
Context (devs : Z → devsw).

(** ** The table *)

Definition fileinit : M (files T K) unit := modify (set_ft_lock false).

Definition filealloc : M (files T K) Z :=
  acquire ft_lock set_ft_lock;;
  r ← for_ret (seqZ 1 NFILE) (λ f,
    ref ← gets (λ s, f_ref (fget f s));
    if ref =? 0 then modify (fmod f (f_set_ref 1));; mret (Some f) else mret None);
  release ft_lock set_ft_lock;;
  mret (default 0 r).

Definition filedup (f : Z) : M (files T K) Z :=
  acquire ft_lock set_ft_lock;;
  ref ← gets (λ s, f_ref (fget f s));
  panic_if (ref <? 1) "filedup";;
  modify (fmod f (f_set_ref (ref + 1)));;
  release ft_lock set_ft_lock;;
  mret f.

(** The pipe's memory is freed with its last end. *)
Definition fpipeclose (pi writable : Z) : M (files T K) unit :=
  pipeop pi (pipeclose (negb (writable =? 0))) ≫= λ freed : bool,
  if freed then kmop (km_free pi 552) else mret tt.

Definition fileclose (f : Z) : M (files T K) unit :=
  acquire ft_lock set_ft_lock;;
  ref ← gets (λ s, f_ref (fget f s));
  panic_if (ref <? 1) "fileclose";;
  modify (fmod f (f_set_ref (ref - 1)));;
  if ref - 1 >? 0 then release ft_lock set_ft_lock else
  ff ← gets (fget f);
  modify (fmod f (f_set_ref 0));;
  modify (fmod f (f_set_type FD_NONE));;
  release ft_lock set_ft_lock;;
  match f_type ff with
  | FD_PIPE => fpipeclose (f_pipe ff) (f_writable ff)
  | FD_INODE | FD_DEVICE =>
      fsop (tx tx_begin_op);;
      fsop (iput pid (f_ip ff));;
      fsop (tx tx_end_op)
  | FD_NONE => mret tt
  end.

(** ** [pipealloc] *)

(** [bad]: only files were allocated when the code gets there. *)
Definition pipealloc_bad (f0 f1 : Z) : M (files T K) (Z * Z * Z) :=
  (if negb (f0 =? 0) then fileclose f0 else mret tt);;
  (if negb (f1 =? 0) then fileclose f1 else mret tt);;
  mret (-1, f0, f1).

(** The result, and [*f0] and [*f1]. *)
Definition pipealloc : M (files T K) (Z * Z * Z) :=
  f0 ← filealloc;
  if f0 =? 0 then pipealloc_bad 0 0 else
  f1 ← filealloc;
  if f1 =? 0 then pipealloc_bad f0 0 else
  pi ← kmop (km_alloc 552);
  if pi =? 0 then pipealloc_bad f0 f1 else
  modify (λ s, set_ft_pipe (<[pi := pipe_init]> (ft_pipe s)) s);;
  modify (fmod f0 (λ f, f_set_pipe pi (f_set_writable 0 (f_set_readable 1 (f_set_type FD_PIPE f)))));;
  modify (fmod f1 (λ f, f_set_pipe pi (f_set_writable 1 (f_set_readable 0 (f_set_type FD_PIPE f)))));;
  mret (0, f0, f1).

(** ** Reading and writing *)

(** [struct stat] in memory, on a stack that holds [stk]: bytes 12 to 15 are
    padding. *)
Definition st_stat (stk : mem) (x : stat) : mem :=
  st64 (st16 (st16 (st32 (st32 stk 0 (st_dev x)) 4 (st_ino x)) 8 (st_type x)) 10 (st_nlink x)) 16 (st_size x).

Definition filestat (f addr : Z) (stk : mem) : M (files T K) Z :=
  x ← gets (fget f);
  if bool_decide (f_type x = FD_INODE) || bool_decide (f_type x = FD_DEVICE) then
    fsop (ilock pid (f_ip x));;
    st ← fsop (stati (f_ip x));
    fsop (iunlock pid (f_ip x));;
    u ← gets (λ s, fs_u (ft_fs s));
    let '(r, u') := ucopyout u addr (st_stat stk st) 0 24 in
    modify (λ s, set_ft_fs (set_fs_u u' (ft_fs s)) s);;
    if r <? 0 then mret (-1) else mret 0
  else mret (-1).

(** A run of [piperead] on the memory of the process. *)
Definition fpiperead (pi addr n : Z) : M (files T K) outcome :=
  u ← gets (λ s, fs_u (ft_fs s));
  '(o, um) ← pipeop pi (piperead (u_w u) (u_mem u) killed addr n);
  modify (λ s, set_ft_fs (set_fs_u (UMem um (u_r u) (u_w u)) (ft_fs s)) s);;
  mret o.
Definition fpipewrite (pi addr n : Z) : M (files T K) outcome :=
  u ← gets (λ s, fs_u (ft_fs s));
  pipeop pi (pipewrite (u_r u) (u_mem u) (λ _, killed) addr n 0).

Definition fileread (f addr n : Z) : M (files T K) outcome :=
  x ← gets (fget f);
  if f_readable x =? 0 then mret (Done (-1)) else
  match f_type x with
  | FD_PIPE => fpiperead (f_pipe x) addr n
  | FD_DEVICE =>
      if (f_major x <? 0) || (f_major x >=? NDEV) then mret (Done (-1)) else
      match d_read (devs (f_major x)) with Some rd => rd addr n | None => mret (Done (-1)) end
  | FD_INODE =>
      fsop (ilock pid (f_ip x));;
      off ← gets (λ s, f_off (fget f s));
      '(r, _) ← fsop (readi (f_ip x) true addr off (u32 n) ∅);
      (if r >? 0 then modify (fmod f (λ x, f_set_off (u32 (f_off x + r)) x)) else mret tt);;
      fsop (iunlock pid (f_ip x));;
      mret (Done r)
  | FD_NONE => panic "fileread"
  end.

(** [max] in [filewrite]: what fits in one transaction. *)
Definition fw_max : Z := (MAXOPBLOCKS - 1 - 1 - 2) / 2 * BSIZE.

(** One transaction of a write to an inode; the result is [writei]'s. *)
Definition filewrite_chunk (f ip addr n1 : Z) : M (files T K) Z :=
  fsop (tx tx_begin_op);;
  fsop (ilock pid ip);;
  off ← gets (λ s, f_off (fget f s));
  r ← fsop (writei ip true addr off (u32 n1) ∅);
  (if r >? 0 then modify (fmod f (λ x, f_set_off (u32 (f_off x + r)) x)) else mret tt);;
  fsop (iunlock pid ip);;
  fsop (tx tx_end_op);;
  mret r.

Definition filewrite (f addr n : Z) : M (files T K) outcome :=
  x ← gets (fget f);
  if f_writable x =? 0 then mret (Done (-1)) else
  match f_type x with
  | FD_PIPE => fpipewrite (f_pipe x) addr n
  | FD_DEVICE =>
      if (f_major x <? 0) || (f_major x >=? NDEV) then mret (Done (-1)) else
      match d_write (devs (f_major x)) with Some wr => wr addr n | None => mret (Done (-1)) end
  | FD_INODE =>
      i ← loop (Z.to_nat (n / fw_max) + 2) (λ i,
        if negb (i <? n) then mret (inr i) else
        let n1 := if n - i >? fw_max then fw_max else n - i in
        r ← filewrite_chunk f (f_ip x) (u64 (addr + i)) n1;
        if negb (r =? n1) then mret (inr i) else mret (inl (i + r))) 0;
      mret (Done (if i =? n then n else -1))
  | FD_NONE => panic "filewrite"
  end.
End File.
