(* ===== verification/FileWrite.v ===== *)
(** * [filewrite] and [fileread] of a file, down to the disk

    The file table, the inodes, the log, the buffer cache and the disk
    together.  [filewrite] cuts a write into transactions; each of them is
    atomic, so that after a crash the file on disk holds the old bytes with a
    prefix of the new ones written over them, and everything else is
    unchanged.  [fileread] reads back what was written. *)

From S2P Require Import Prelude Mem Kstring Layout Sleeplock BufIface Log LogDisk LogCorrect LogSpec Ring Pipe TxIface LogFs Fs FsBlock FsFile FsBmap.
From S2P Require Import FsWrite File.

Lemma maps_le k sb : sb_ok sb → 0 ≤ k → sb_size sb ≤ k * BPB → (size (bitmaps sb) ≤ Z.to_nat k)%nat.
Proof.
  intros [_ _ _ Hsz] Hk Hm. rewrite BPB_eq in Hm. assert ((sb_size sb + 8192 - 1) / 8192 < k + 1) by (apply Z.div_lt_upper_bound; lia).
  unfold bitmaps. etransitivity; [apply size_list_to_set_le|]. rewrite length_seqZ. unfold dstart. rewrite BPB_eq. lia.
Qed.

Section FileWrite.
Context {S K : Type} {BO : BufOps S} {BS : BufSpec S} {KO : KmOps K} (pid : Z).
Context (st : Z) (Hst : 0 ≤ st) (Hst' : st + LOGBLOCKS < 2147483648).
Context (sb : superblock) (Hsb : sb_ok sb) (Hlog : st + LOGBLOCKS < sb_inodestart sb) (Hmaps : sb_size sb ≤ 4 * BPB).
Context (f ip inum ref valid : Z) (F : file) (fm : gmap Z file) (u : umem).
Context (Hip : ip ≠ 0) (Href : 1 ≤ ref) (Hval : valid ≠ 0) (Hinum : 0 ≤ inum < sb_ninodes sb).
Implicit Types (s : files (logst S) K) (h : Z → mem) (x : dinode) (d : disk).

Lemma fs_home b : sb_inodestart sb ≤ b < sb_size sb → home st b.
Proof. intros Hb. destruct (Hsb) as [_ _ _ Hsz]. unfold home, log_area, LOGBLOCKS, MAXOPBLOCKS in *. lia. Qed.

(** Between transactions: the disk [d] holds [h] after the writes [tr]; the
    file's inode is [x] and its offset [o]; the other files are those of [fm]. *)
Record idle h x (o : Z) d (tr : list (Z * mem)) s : Prop := {
  id_sb : fs_sb (ft_fs s) = sb;
  id_log : log_idle st h d tr (fs_t (ft_fs s));
  id_ino : ∃ p, it_inode (ft_fs s) !! ip = Some (Ino ROOTDEV inum ref (SL 0 false p) valid x);
  id_u : fs_u (ft_fs s) = u;
  id_file : ft_file s = <[f := f_set_off o F]> fm
}.

(** The file and its inode are sound on the disk. *)
Record on_disk h x : Prop := {
  od_bm : bm_ok sb h;
  od_file : file_ok sb h x;
  od_ino : ld_di (h (IBLOCK inum sb)) (inum mod IPB) = x
}.

Lemma bitmaps_size : (size (bitmaps sb) ≤ 4)%nat.
Proof. exact (maps_le 4 sb Hsb ltac:(lia) Hmaps). Qed.

Lemma chunk_blocks o n : 0 ≤ n ≤ fw_max → (chunks 1024 o n ≤ 4)%nat.
Proof.
  change fw_max with 3072. intros Hn. unfold chunks. case_match; [lia|]. pose proof (Z.mod_pos_bound o 1024).
  assert ((o mod 1024 + n + (1024 - 1)) / 1024 < 5) by (apply Z.div_lt_upper_bound; lia). lia.
Qed.

(** Room for a whole chunk in an empty transaction. *)
Lemma chunk_room h o n : 0 ≤ n ≤ fw_max → room (bitmaps sb) (3 + Z.of_nat (chunks 1024 o n)) (TView h ∅ ∅ ∅).
Proof.
  intros Hn. pose proof bitmaps_size. pose proof (chunk_blocks o n Hn). unfold room, tv_used. cbn.
  rewrite map_img_empty_L, !union_empty_l_L. unfold NBUF, MAXOPBLOCKS in *. lia.
Qed.

Lemma idle_fget h x o d tr s : idle h x o d tr s → fget f s = f_set_off o F.
Proof. intros Hid. unfold fget. by rewrite (id_file _ _ _ _ _ _ Hid), lookup_insert_eq. Qed.

(** [f->off += r] *)
Lemma advance_off tot o s :
  0 ≤ tot → o + tot < 4294967296 → 0 ≤ o → ft_file s = <[f := f_set_off o F]> fm →
  wp (if tot >? 0 then modify (fmod f (λ F, f_set_off (u32 (f_off F + tot)) F)) else mret tt)
    (λ _ s', ft_fs s' = ft_fs s ∧ ft_file s' = <[f := f_set_off (o + tot) F]> fm) s.
Proof.
  intros Ht Hlt Ho Hf. assert (fget f s = f_set_off o F) as Hg by (unfold fget; by rewrite Hf, lookup_insert_eq).
  rewrite Z.gtb_ltb. destruct (Z.ltb_spec 0 tot).
  - rewrite wp_modify. split; [done|]. unfold fmod, fput. cbn [ft_file set_ft_file]. rewrite Hg, Hf, insert_insert_eq. cbn. by rewrite u32_small by lia.
  - rewrite wp_ret. split; [done|]. by replace (o + tot) with o by lia.
Qed.

(** One transaction of [filewrite]. *)
Lemma filewrite_chunk_spec h x o d tr s addr n :
  idle h x o d tr s → on_disk h x → 0 ≤ o ≤ di_size x → 0 < n ≤ fw_max → o + n ≤ 268 * 1024 →
  0 ≤ addr → addr + n < 18446744073709551616 → (∀ k, 0 ≤ k < n → u_r u (addr + k) = true) →
  wp (filewrite_chunk pid f ip addr n) (λ tot s', ∃ h' x' ws,
    0 ≤ tot ≤ n ∧ (tot < n → ∀ b, 0 ≤ b < sb_size sb → bused sb h' b = true) ∧
    edit sb inum o tot (λ k, ldb (u_mem u) (addr + k)) h x h' x' ∧
    idle h' x' (o + tot) (dwrites ws d) (tr ++ ws) s' ∧ atomic st h h' d ws) s.
Proof.
  intros Hid [Hbm Hf Hdi] Ho Hn Hmax Ha Han Hr. pose proof Hid as [Isb Ilog [p Iino] Iu Ifile]. unfold filewrite_chunk.
  assert (di_fits x) as Hfit by (rewrite <-Hdi; apply ld_di_fits).
  wp_step. unfold fsop at 1. rewrite wp_lift. unfold tx at 1. rewrite wp_lift. wp_apply (log_begin st Hst Hst' h d tr); [exact Ilog|].
  intros [] t1 Hok1. cbv beta. set (fs1 := set_fs_t t1 (ft_fs s)).
  assert (geti ip fs1 = Ino ROOTDEV inum ref (SL 0 false p) valid x) as Hg by (unfold geti, fs1; cbn; by rewrite Iino).
  wp_step. unfold fsop at 1. rewrite wp_lift. cbn [ft_fs set_ft_fs].
  eapply (ilock_valid pid ip fs1 p); [done|by rewrite Hg|unfold get_ilock; by rewrite Hg|by rewrite Hg|].
  set (fs2 := set_ilock ip _ fs1). wp_step. wp_step. change (fget f (set_ft_fs fs2 (set_ft_fs fs1 s))) with (fget f s).
  rewrite (idle_fget _ _ _ _ _ _ Hid). cbn [f_off f_set_off]. wp_step. unfold fsop at 1. rewrite wp_lift. cbn [ft_fs set_ft_fs].
  set (i2 := Ino ROOTDEV inum ref (SL 1 false pid) valid x).
  assert (it_inode fs2 !! ip = Some i2) as Hi2 by (unfold fs2, set_ilock, seti; cbn -[fs1]; by rewrite lookup_insert_eq, Hg).
  assert (0 < n < 4294967296) by (change fw_max with 3072 in Hn; lia). rewrite (u32_small n) by lia.
  eapply (writei_spec (TS := log_tx_spec st Hst Hst' h d tr 1) (TW := log_tx_write_spec st Hst Hst' h d tr 1 ltac:(done)) sb Hsb fs_home (TView h ∅ ∅ ∅) fs2 ip i2 x true addr o n ∅); try done; try lia.
  { intros _. unfold fs2. cbn [fs_u set_ilock]. by rewrite <-Iu in Hr. }
  { apply chunk_room. lia. }
  intros tot v' x' t2 [Ht Hfull He Hrw Hhd Hlg] Hok2. wp_step. eapply wp_mono; [apply (advance_off tot o); [lia| |lia|exact Ifile]|].
  { pose proof (fo_size _ _ _ Hf). lia. }
  intros [] s4 [Hfs4 Hfl4]. cbn [ft_fs set_ft_fs] in Hfs4. wp_step. unfold fsop at 1. rewrite wp_lift, Hfs4.
  assert (it_inode (with_file ip x' t2 fs2) !! ip = Some (i_with i2 x')) as Hi3 by (by apply ino_with_file).
  assert (geti ip (with_file ip x' t2 fs2) = i_with i2 x') as Hg3 by (unfold geti; by rewrite Hi3).
  eapply (iunlock_spec pid ip); [done|by rewrite Hg3|by eexists|unfold get_ilock; by rewrite Hg3|].
  wp_step. unfold fsop at 1. rewrite wp_lift. unfold tx at 1. rewrite wp_lift. cbn [ft_fs set_ft_fs].
  change (fs_t (set_ilock ip _ (with_file ip x' t2 fs2))) with t2.
  wp_apply (log_end st Hst Hst' h d tr v' t2 Hok2 Hhd).
  { pose proof bitmaps_size. pose proof (chunk_blocks o n ltac:(lia)). cbn [tv_logged] in Hlg. rewrite difference_empty_L in Hlg.
    unfold NBUF, MAXOPBLOCKS. lia. }
  intros [] t3 (ws & Hidle & Hat). wp_step. exists (tv_cur v'), x', ws. split_and!; [lia|lia|done| | |done].
  { eapply edit_ext; [|exact He]. intros k Hk. unfold src_byte, fs2. cbn [fs_u set_ilock seti set_it_inode fs1 set_fs_t]. by rewrite Iu. }
  split; cbn [ft_fs set_ft_fs ft_file]; try done. exists 0. unfold set_ilock, seti. cbn [it_inode set_it_inode set_fs_t]. by rewrite lookup_insert_eq, Hg3.
Qed.
(** ** The whole write *)

Section Whole.
Context (h : Z → mem) (x : dinode) (o addr n : Z) (d : disk) (tr : list (Z * mem)).
Context (Hod : on_disk h x) (Ho : 0 ≤ o ≤ di_size x) (Hn : 0 ≤ n) (Hmax : o + n ≤ 268 * 1024).
Context (Ha : 0 ≤ addr) (Han : addr + n < 18446744073709551616) (Hr : ∀ k, 0 ≤ k < n → u_r u (addr + k) = true).
Context (Hty : f_type F = FD_INODE) (Hwr : f_writable F ≠ 0) (Hfip : f_ip F = ip).

(** The first [m] bytes are in the file of [h']. *)
Definition holds (m : Z) h' x' : Prop := edit sb inum o m (λ k, ldb (u_mem u) (addr + k)) h x h' x'.

(** A crash after any of the writes [ws] leaves a prefix of at most [m] bytes. *)
Definition crash_prefix (m : Z) (ws : list (Z * mem)) : Prop :=
  ∀ k, ∃ j hk xk, 0 ≤ j ≤ m ∧ recovers st (dwrites (take k ws) d) hk ∧ holds j hk xk.

Lemma holds_on_disk m h' x' : holds m h' x' → on_disk h' x'.
Proof. intros He. split; [apply (ed_bm _ _ _ _ _ _ _ _ _ He)|apply (ed_file _ _ _ _ _ _ _ _ _ He)|apply (ed_disk _ _ _ _ _ _ _ _ _ He)]. Qed.

Lemma crash_app m m' ws ws' h1 x1 h2 x2 :
  crash_prefix m ws → 0 ≤ m ≤ m' → holds m h1 x1 → holds m' h2 x2 → atomic st h1 h2 (dwrites ws d) ws' → crash_prefix m' (ws ++ ws').
Proof.
  intros Hc Hm H1 H2 Hat k. rewrite take_app, dwrites_app. destruct (decide (k < length ws)%nat) as [Hk|Hk].
  - replace (k - length ws)%nat with 0%nat by lia. rewrite take_0. destruct (Hc k) as (j & hk & xk & Hj & Hrec & Hh).
    exists j, hk, xk. split_and!; [lia|lia|exact Hrec|exact Hh].
  - rewrite (take_ge ws k) by lia. destruct (Hat (k - length ws)%nat) as [Hrec|Hrec]; [exists m, h1, x1|exists m', h2, x2]; (split_and!; [lia|lia|exact Hrec|done]).
Qed.

(** [m] bytes are written, and [ws] went to the disk. *)
Definition progress (m : Z) h' x' (ws : list (Z * mem)) s : Prop :=
  holds m h' x' ∧ idle h' x' (o + m) (dwrites ws d) (tr ++ ws) s ∧ crash_prefix m ws.

Lemma progress_step m s addr' n1 h1 x1 ws :
  progress m h1 x1 ws s → 0 ≤ m → 0 < n1 ≤ fw_max → m + n1 ≤ n → addr' = addr + m →
  wp (filewrite_chunk pid f ip addr' n1) (λ r s', ∃ h2 x2 ws2, 0 ≤ r ≤ n1 ∧
    (r < n1 → ∀ b, 0 ≤ b < sb_size sb → bused sb h2 b = true) ∧ progress (m + r) h2 x2 ws2 s') s.
Proof.
  intros (Hh & Hid & Hc) Hm Hn1 Hmn ->. pose proof (ed_meta _ _ _ _ _ _ _ _ _ Hh) as Hmt.
  assert (di_size x1 = Z.max (di_size x) (o + m)) as Hsz by (rewrite Hmt; done).
  wp_apply (filewrite_chunk_spec h1 x1 (o + m) (dwrites ws d) (tr ++ ws) s (addr + m) n1 Hid); [by eapply holds_on_disk|lia..| |].
  { intros k Hk. rewrite <-Z.add_assoc. apply Hr. lia. }
  intros r s' (h2 & x2 & ws2 & Hrr & Hfull & He & Hid2 & Hat). exists h2, x2, (ws ++ ws2).
  assert (holds (m + r) h2 x2) as Hh2.
  { eapply edit_trans; [exact Hsb|exact Hh| |lia|lia]. eapply edit_ext; [|exact He]. intros k Hk. cbn. f_equal. lia. }
  split_and!; [lia|lia|done|]. split_and!; [done| |].
  - rewrite dwrites_app, app_assoc, Z.add_assoc. exact Hid2.
  - by apply (crash_app m (m + r) ws ws2 h1 x1 h2 x2); [|lia|..].
Qed.

Context (devs : Z → devsw (T := logst S) (K := K)).

Lemma filewrite_spec s :
  idle h x o d tr s →
  wp (filewrite pid false devs f addr n) (λ r s', ∃ m h' x' ws, 0 ≤ m ≤ n ∧ r = Done (if m =? n then n else -1) ∧
    (m < n → ∀ b, 0 ≤ b < sb_size sb → bused sb h' b = true) ∧ progress m h' x' ws s') s.
Proof.
  intros Hid. destruct Hod as [Hbm Hf Hdi]. unfold filewrite. wp_step. wp_step. rewrite (idle_fget _ _ _ _ _ _ Hid). cbn [f_set_off f_type f_writable f_ip].
  rewrite Hty, Hfip, (proj2 (Z.eqb_neq _ _) Hwr). wp_step. change fw_max with 3072.
  apply (wp_loop (λ i s', 0 ≤ i ≤ n ∧ ∃ h' x' ws, progress i h' x' ws s') (λ i _, Z.to_nat ((n - i + 3071) / 3072))).
  - split; [lia|]. exists h, x, []. assert (holds 0 h x) as H0 by (by apply edit_none; [..|lia|]). split_and!; [done| |].
    + rewrite Z.add_0_r, app_nil_r. done.
    + intros k. exists 0, h, x. split_and!; [lia|lia| |done]. rewrite take_nil. destruct (id_log _ _ _ _ _ _ Hid) as (v & Hi & _ & <- & _).
      apply settled_recovers. apply (li_settled _ _ _ _ _ _ Hi).
  - pose proof (Z.div_pos n 3072). assert ((n - 0 + 3071) / 3072 ≤ n / 3072 + 1); [|lia].
    replace (n - 0 + 3071) with (1 * 3072 + (n - 1)) by lia. rewrite Z.div_add_l by lia. pose proof (Z.div_le_mono (n - 1) n 3072). lia.
  - intros i s' (Hi & h1 & x1 & ws1 & Hp). destruct (Z.ltb_spec i n) as [Hlt|Hge]; cbn [negb].
    2:{ wp_step. wp_step. assert (i = n) as -> by lia. exists n, h1, x1, ws1. rewrite Z.eqb_refl. split_and!; try done; lia. }
    set (n1 := if n - i >? 3072 then 3072 else n - i). assert (0 < n1 ≤ 3072 ∧ n1 = Z.min 3072 (n - i)) as [Hn1 Hn1'].
    { unfold n1. rewrite Z.gtb_ltb. destruct (Z.ltb_spec 3072 (n - i)); lia. }
    wp_step. rewrite u64_small by lia. wp_apply (progress_step i s' (addr + i) n1 h1 x1 ws1 Hp); [lia|done|lia|done|].
    intros r s2 (h2 & x2 & ws2 & Hrr & Hfull & Hp2). destruct (Z.eqb_spec r n1) as [->|Hne]; cbn [negb]; wp_step.
    + split; [split; [lia|by exists h2, x2, ws2]|]. apply Z2Nat.inj_lt; [apply Z.div_pos; lia..|].
      destruct (decide (3072 < n - i)).
      * replace (n - i + 3071) with (1 * 3072 + (n - (i + n1) + 3071)) by lia. rewrite Z.div_add_l by lia. lia.
      * rewrite (Z.div_small (n - (i + n1) + 3071)) by lia. apply Z.div_str_pos. lia.
    + wp_step. exists (i + r), h2, x2, ws2. rewrite (proj2 (Z.eqb_neq i n)), (proj2 (Z.eqb_neq (i + r) n)) by lia.
      split_and!; try done; try lia. intros _. apply Hfull. lia.
Qed.
End Whole.
End FileWrite.

(** ** [fileread], and reading back what was written *)

Section FileRead.
Context {S K : Type} {BO : BufOps S} {BS : BufSpec S} {KO : KmOps K} (pid : Z).
Context (st : Z) (Hst : 0 ≤ st) (Hst' : st + LOGBLOCKS < 2147483648).
Context (sb : superblock) (Hsb : sb_ok sb) (Hlog : st + LOGBLOCKS < sb_inodestart sb).
Context (f ip inum ref valid : Z) (F : file) (fm : gmap Z file) (u : umem).
Context (Hip : ip ≠ 0) (Href : 1 ≤ ref) (Hval : valid ≠ 0).
Context (Hty : f_type F = FD_INODE) (Hrd : f_readable F ≠ 0) (Hfip : f_ip F = ip).
Context (devs : Z → devsw (T := logst S) (K := K)).
Implicit Types (s : files (logst S) K) (h : Z → mem) (x : dinode) (d : disk).

(** The bytes of the file arrive at [addr], the offset moves past them, and the
    disk is not touched. *)
Lemma fileread_spec h x o d tr s addr n :
  idle st sb f ip inum ref valid F fm u h x o d tr s → bm_ok sb h → file_ok sb h x → 0 ≤ o → 0 ≤ n < 2147483648 → o + n < 4294967296 →
  0 ≤ addr → addr + n < 18446744073709551616 → (∀ k, 0 ≤ k < nread x o n → u_w u (addr + k) = true) →
  wp (fileread pid false devs f addr n) (λ r s', ∃ u', r = Done (nread x o n) ∧
    idle st sb f ip inum ref valid F fm u' h x (o + nread x o n) d tr s' ∧ u_r u' = u_r u ∧ u_w u' = u_w u ∧
    put_bytes (u_mem u) addr (nread x o n) (λ k, fbyte h x (o + k)) (u_mem u')) s.
Proof.
  intros Hid Hbm Hf Ho Hn Hon Ha Han Hw. pose proof Hid as [Isb Ilog [p Iino] Iu Ifile]. unfold fileread.
  wp_step. wp_step. rewrite (idle_fget _ _ _ _ _ _ _ _ _ _ _ _ _ _ _ _ Hid). cbn [f_set_off f_type f_readable f_ip].
  rewrite Hty, Hfip, (proj2 (Z.eqb_neq _ _) Hrd). set (fs1 := ft_fs s).
  assert (geti ip fs1 = Ino ROOTDEV inum ref (SL 0 false p) valid x) as Hg by (unfold geti, fs1; by rewrite Iino).
  wp_step. unfold fsop at 1. rewrite wp_lift.
  eapply (ilock_valid pid ip fs1 p); [done|by rewrite Hg|unfold get_ilock; by rewrite Hg|by rewrite Hg|].
  set (fs2 := set_ilock ip _ fs1). wp_step. wp_step. change (fget f (set_ft_fs fs2 s)) with (fget f s).
  rewrite (idle_fget _ _ _ _ _ _ _ _ _ _ _ _ _ _ _ _ Hid). cbn [f_off f_set_off]. wp_step. unfold fsop at 1. rewrite wp_lift. cbn [ft_fs set_ft_fs].
  set (i2 := Ino ROOTDEV inum ref (SL 1 false pid) valid x).
  assert (it_inode fs2 !! ip = Some i2) as Hi2 by (unfold fs2, set_ilock, seti; cbn -[fs1]; by rewrite lookup_insert_eq, Hg).
  rewrite (u32_small n) by lia.
  eapply (readi_spec (TS := log_tx_spec st Hst Hst' h d tr 0) sb Hsb (fs_home st Hst sb Hsb Hlog) (TView h ∅ ∅ ∅) fs2 ip i2 x); try done; try lia.
  { split; try done. by apply (log_read st Hst Hst' h d tr). }
  { intros _. unfold fs2. cbn [fs_u set_ilock seti set_it_inode]. unfold fs1. rewrite Iu. exact Hw. }
  intros u' km' t2 (_ & Hur & Huw & Hput) Hok2. wp_step. pose proof (fo_size _ _ _ Hf) as Hsz.
  assert (0 ≤ nread x o n ≤ n) as Hnr by (unfold nread; case_match; lia).
  eapply wp_mono; [apply (advance_off f F fm (nread x o n) o); [lia|lia|lia|exact Ifile]|].
  intros [] s4 [Hfs4 Hfl4]. cbn [ft_fs set_ft_fs] in Hfs4. wp_step. unfold fsop at 1. rewrite wp_lift, Hfs4.
  set (fs3 := set_fs_u u' (set_fs_t t2 fs2)).
  assert (geti ip fs3 = i2) as Hg3 by (unfold geti, fs3; cbn [it_inode set_fs_u set_fs_t]; by rewrite Hi2).
  eapply (iunlock_spec pid ip); [done|by rewrite Hg3|by eexists|unfold get_ilock; by rewrite Hg3|]. wp_step.
  exists u'. assert (fs_u fs2 = u) as Hu2 by exact Iu. rewrite Hu2 in *. split_and!; [done| |done|done|exact Hput].
  split; cbn [ft_fs set_ft_fs ft_file]; try done.
  - by apply (log_read st Hst Hst' h d tr).
  - exists 0. unfold set_ilock, seti. cbn [it_inode set_it_inode]. by rewrite lookup_insert_eq, Hg3.
Qed.
End FileRead.
