(* ===== verification/FsProps.v ===== *)
(** * Files down to the disk: the theorems

    The file table, inodes, log, LRU buffer cache and disk composed, for
    whatever files, devices and processes are around. *)

From S2P Require Import Prelude Mem Kstring Layout BufIface Log LogDisk LogCorrect LogSpec Sleeplock Bio BioCorrect LogTx TxIface LogFs.
From S2P Require Import Fs FsBlock FsFile FsBmap FsWrite Ring Pipe File FileWrite.

(** The disk's layout as [mkfs] makes it: the log at [st], the inodes after it,
    at most four bitmap blocks. *)
Record layout_ok (st : Z) (sb : superblock) : Prop := {
  lo_sb : sb_ok sb;
  lo_st : 0 ≤ st;
  lo_st' : st + LOGBLOCKS < 2147483648;
  lo_log : st + LOGBLOCKS < sb_inodestart sb;
  lo_maps : sb_size sb ≤ 4 * BPB
}.

(** The file [F] is open on the inode at [ip], which is in memory. *)
Record opened (sb : superblock) (ip inum ref valid : Z) (F : file) : Prop := {
  op_ip : ip ≠ 0;
  op_ref : 1 ≤ ref;
  op_valid : valid ≠ 0;
  op_inum : 0 ≤ inum < sb_ninodes sb;
  op_type : f_type F = FD_INODE;
  op_fip : f_ip F = ip
}.

Section Properties.
Context (pid : Z) {K : Type} {KO : KmOps K}.
#[local] Instance pops : BufOps bcache := bio_ops pid.
#[local] Instance pspec : BufSpec bcache := bio_spec pid.
Implicit Types (s : files (logst bcache) K) (h : Z → mem) (x : dinode) (d : disk).
Context (devs : Z → devsw (T := logst bcache) (K := K)).

(** The writes the disk has received. *)
Definition disk_trace s : list (Z * mem) := bc_trace (lg_s (fs_t (ft_fs s))).

Lemma idle_trace st sb f ip inum ref valid F fm u h x o d tr s :
  idle st sb f ip inum ref valid F fm u h x o d tr s → disk_trace s = tr ∧ bc_disk (lg_s (fs_t (ft_fs s))) = d.
Proof.
  intros [_ (v & Hi & _ & Hd & Ht) _ _ _]. destruct (li_ok _ _ _ _ _ _ Hi) as (_ & Ed & Et & _).
  unfold disk_trace. split; [exact (eq_trans Et Ht)|exact (eq_trans Ed Hd)].
Qed.

(** C1: A write to a file, of any length and at any offset up to the size, with
    the machine stopping at any moment.  [filewrite] returns: all [n] bytes
    written, or, when every block of the disk is in use, -1 with a first part
    of them written and the offset moved past it.  Wherever among the disk
    writes [ws] of the call the machine stops, the disk recovers to one where
    the file has the first [j] bytes written over its old contents, for some
    [j] up to the number written: its inode and bitmap are consistent, and
    every other block in use and every other inode is unchanged ([edit]). *)
Theorem filewrite_crash_prefix st sb f ip inum ref valid F fm u h x o d tr addr n s :
  layout_ok st sb → opened sb ip inum ref valid F → f_writable F ≠ 0 →
  idle st sb f ip inum ref valid F fm u h x o d tr s → on_disk sb inum h x → 0 ≤ o ≤ di_size x → 0 ≤ n → o + n ≤ 268 * 1024 →
  0 ≤ addr → addr + n < 18446744073709551616 → (∀ k, 0 ≤ k < n → u_r u (addr + k) = true) →
  let g := λ k, ldb (u_mem u) (addr + k) in
  ∃ m s' h' x' ws, 0 ≤ m ≤ n ∧ filewrite pid false devs f addr n s = Ok (Done (if m =? n then n else -1)) s' ∧
    (m < n → ∀ b, 0 ≤ b < sb_size sb → bused sb h' b = true) ∧
    idle st sb f ip inum ref valid F fm u h' x' (o + m) (dwrites ws d) (tr ++ ws) s' ∧ edit sb inum o m g h x h' x' ∧
    disk_trace s' = disk_trace s ++ ws ∧
    ∀ k, ∃ j hk xk, 0 ≤ j ≤ m ∧ recovers st (dwrites (take k ws) d) hk ∧ edit sb inum o j g h x hk xk.
Proof.
  intros [L1 L2 L3 L4 L5] [O1 O2 O3 O4 O5 O6] Hwr Hid Hod Ho Hn Hmax Ha Han Hr g.
  pose proof (filewrite_spec pid st L2 L3 sb L1 L4 L5 f ip inum ref valid F fm u O1 O2 O3 O4 h x o addr n d tr
    Hod Ho Hn Hmax Ha Han Hr O5 Hwr O6 devs s Hid) as Hwp.
  apply wp_Ok in Hwp as (r & s' & Hrun & m & h' & x' & ws & Hm & -> & Hfull & (Hh & Hid' & Hc)).
  exists m, s', h', x', ws. repeat (split; [assumption|]). split; [|exact Hc].
  destruct (idle_trace _ _ _ _ _ _ _ _ _ _ _ _ _ _ _ _ Hid') as [-> _]. by destruct (idle_trace _ _ _ _ _ _ _ _ _ _ _ _ _ _ _ _ Hid) as [-> _].
Qed.

(** The part of a chunk of [filewrite] that logs blocks. *)
Definition begin_and_write (ip addr off n : Z) : M (fs (logst bcache)) Z :=
  tx tx_begin_op;;
  ilock pid ip;;
  writei ip true addr off n ∅.

(** C27: The bound that [begin_op] and [filewrite] agree on.  In every state of the
    log that [begin_op] admits, with other system calls open and their blocks
    logged, a write of at most [max] bytes adds at most [MAXOPBLOCKS] blocks
    to the log, so the log never overflows. *)
Theorem writei_log_bound st sb ip inum ref p valid F h bl out v x o addr n (s : fs (logst bcache)) :
  layout_ok st sb → opened sb ip inum ref valid F → sb_size sb ≤ 3 * BPB →
  linv st h bl out v (fs_t s) → bv_held v = ∅ → 0 ≤ out → lh_n (fs_t s) + (out + 1) * MAXOPBLOCKS ≤ LOGBLOCKS →
  fs_sb s = sb → it_inode s !! ip = Some (Ino ROOTDEV inum ref (SL 0 false p) valid x) →
  bm_ok sb (bv_cur v) → file_ok sb (bv_cur v) x → di_fits x → 0 ≤ o ≤ di_size x → 0 ≤ n ≤ fw_max → o + n ≤ 268 * 1024 →
  0 ≤ addr → addr + n < 18446744073709551616 → (∀ k, 0 ≤ k < n → u_r (fs_u s) (addr + k) = true) →
  ∃ r (s' : fs (logst bcache)), begin_and_write ip addr o n s = Ok r s' ∧ lh_n (fs_t s') ≤ lh_n (fs_t s) + MAXOPBLOCKS.
Proof.
  clear devs. intros [L1 L2 L3 L4 L5] [O1 O2 O3 O4 O5 O6] Hmaps Hi Hh Hout Hadm Hs Hino Hbm Hf Hfit Ho Hn Hmax Ha Han Hr.
  destruct (li_core _ _ _ _ _ _ Hi) as (_ & _ & En & _ & _ & (_ & Hnd & _)).
  assert (wp (begin_and_write ip addr o n) (λ _ (s' : fs (logst bcache)), lh_n (fs_t s') ≤ lh_n (fs_t s) + MAXOPBLOCKS) s) as Hwp.
  { unfold begin_and_write. wp_step. unfold tx at 1. rewrite wp_lift. eapply wp_mono; [eapply log_join; [done..|by rewrite <-En]|].
    intros [] t1 Hok1. set (s1 := set_fs_t t1 s).
    assert (geti ip s1 = Ino ROOTDEV inum ref (SL 0 false p) valid x) as Hg by (unfold geti, s1; cbn; by rewrite Hino).
    wp_step. eapply (ilock_valid pid ip s1 p); [done|by rewrite Hg|unfold get_ilock; by rewrite Hg|by rewrite Hg|].
    set (s2 := set_ilock ip _ s1). set (i2 := Ino ROOTDEV inum ref (SL 1 false pid) valid x).
    assert (it_inode s2 !! ip = Some i2) as Hi2 by (unfold s2, set_ilock, seti; cbn -[s1]; by rewrite lookup_insert_eq, Hg).
    pose proof (chunk_blocks o n Hn) as Hck. pose proof (maps_le 3 sb L1 ltac:(lia) Hmaps) as Hbs.
    eapply (writei_spec (TS := log_tx_spec st L2 L3 h (bv_disk v) (bv_trace v) (out + 1)) (TW := log_tx_write_spec st L2 L3 h _ _ (out + 1) ltac:(lia))
      sb L1 (fs_home st L2 sb L1 L4) (TView (bv_cur v) ∅ (list_to_set bl) ∅) s2 ip i2 x true addr o n ∅); try done; try lia.
    { unfold room, tv_used. cbn. rewrite map_img_empty_L, union_empty_r_L, size_union_alt, size_list_to_set by done.
      assert (size (bitmaps sb ∖ list_to_set bl) ≤ size (bitmaps sb))%nat by (apply subseteq_size; set_solver).
      unfold NBUF, LOGBLOCKS, MAXOPBLOCKS in *. lia. }
    intros tot v' x' t2 [Ht Hfull He Hrw Hhd Hlg] Hok2. cbn [fs_t with_file setd seti set_it_inode set_fs_t].
    erewrite (log_length st), En by exact Hok2. cbn [tv_logged] in Hlg.
    assert (size (tv_logged v') ≤ size (list_to_set bl ∪ (tv_logged v' ∖ list_to_set bl)))%nat.
    { apply subseteq_size. intros b Hb. destruct (decide (b ∈ (list_to_set bl : gset Z))); set_solver. }
    pose proof (size_union_alt (list_to_set bl) (tv_logged v' ∖ list_to_set bl)) as Hu. rewrite size_list_to_set in Hu by done.
    assert (size ((tv_logged v' ∖ list_to_set bl) ∖ list_to_set bl) ≤ size (tv_logged v' ∖ list_to_set bl))%nat by (apply subseteq_size; set_solver).
    unfold MAXOPBLOCKS. lia. }
  apply wp_Ok in Hwp as (r & s' & Hrun & Hle). exists r, s'. split; [exact Hrun|exact Hle].
Qed.


End Properties.

(** ** A disk, and the theorems on it *)

Module FsWitness.
(** 200 blocks: the log at 2, an inode block at 33, the bitmap at 34. *)
Definition sb1 : superblock := SB FSMAGIC 200 165 16 31 2 33 34.
Definition x1 : dinode := DI T_FILE 0 0 1 0 (replicate 13 0).
Definition bm1 : mem := {[0 := 255; 1 := 255; 2 := 255; 3 := 255; 4 := 7]}.
Definition d1 : disk := {[34 := bm1; 33 := st_di ∅ 2 x1]}.
Definition h1 : Z → mem := dblk d1.
Definition F1 : file := File FD_INODE 1 1 1 0 1 0 0.
Definition u1 : umem := UMem {[4096 := 72; 4097 := 105]} (λ _, true) (λ _, true).

#[local] Instance wops : BufOps bcache := bio_ops 1.
#[local] Instance wspec : BufSpec bcache := bio_spec 1.
#[local] Instance km_unit : KmOps unit := {| km_alloc _ := mret 0; km_free _ _ := mret tt |}.
Definition devs0 : Z → devsw (T := logst bcache) (K := unit) := λ _, Dev None None.

Lemma layout1 : layout_ok 2 sb1.
Proof. split; [split; vm_compute; done|vm_compute; done..]. Qed.

Lemma opened1 : opened sb1 1 2 1 1 F1.
Proof. by split. Qed.

Lemma empty_faddr h bn : faddr h x1 bn = 0.
Proof.
  unfold faddr. cbn [x1 ind di_addrs]. case_match; [|done]. destruct (lookup _ _) as [a|] eqn:E; [|done].
  cbn. by apply lookup_replicate in E as [-> _].
Qed.

Lemma empty_owned h a : ¬ owned h x1 a.
Proof. intros [Hz [->|(bn & _ & ->)]]; [done|]. by rewrite empty_faddr in Hz. Qed.

Lemma empty_file h : file_ok sb1 h x1.
Proof.
  split; try done.
  - intros a Ha. by destruct (empty_owned h a).
  - intros bn bn' _ _ _ Hz. by rewrite empty_faddr in Hz.
  - intros bn Hbn Hlt. cbn in Hlt. lia.
Qed.

Lemma on_disk1 : on_disk sb1 2 h1 x1.
Proof.
  split.
  - intros b Hb. change (dstart sb1) with 35 in Hb. assert (b ∈ seqZ 0 35) as Hin by (apply elem_of_seqZ; lia).
    assert (forallb (bused sb1 h1) (seqZ 0 35) = true) as Hall by (vm_compute; reflexivity).
    rewrite forallb_forall in Hall. by apply Hall, list_elem_of_In.
  - apply empty_file.
  - vm_compute. reflexivity.
Qed.

(** The machine after booting from the disk, with two files open on the inode. *)
Definition boot1 (t : logst bcache) : files (logst bcache) unit :=
  Files false (<[1 := f_set_off 0 F1]> {[2 := f_set_off 0 F1]}) ∅ tt
    (Fs sb1 false {[1 := Ino ROOTDEV 2 1 (SL 0 false 0) 1 x1]} u1 t).

Lemma idle1 : ∃ t d tr, idle 2 sb1 1 1 2 1 1 F1 {[2 := f_set_off 0 F1]} u1 h1 x1 0 d tr (boot1 t).
Proof.
  assert (recovers_with 2 [] d1 h1) as Hr.
  { split_and!; [split; [vm_compute; reflexivity|done]|split_and!; [constructor|constructor|done]|done|done]. }
  destruct (wp_Ok _ _ _ (mount_spec 2 ltac:(done) ltac:(done) d1 [] h1 Hr)) as ([] & t & _ & v & h2 & _ & (Hi & Hh & _) & _ & _).
  exists t, (bv_disk v), (bv_trace v). split; try done; [by exists v|by exists 0].
Qed.

Lemma filewrite_crash_prefix_witness :
  ∃ t s' r, filewrite 1 false devs0 1 4096 2 (boot1 t) = Ok (Done r) s'.
Proof.
  destruct idle1 as (t & d & tr & Hid).
  destruct (filewrite_crash_prefix 1 devs0 2 sb1 1 1 2 1 1 F1 _ u1 h1 x1 0 d tr 4096 2 (boot1 t) layout1 opened1 ltac:(done)
    Hid on_disk1 ltac:(done) ltac:(done) ltac:(done) ltac:(done) ltac:(done) ltac:(done)) as (m & s' & h' & x' & ws & _ & Hrun & _).
  exists t, s', (if m =? 2 then 2 else -1). exact Hrun.
Defined.


Lemma writei_log_bound_witness :
  ∃ t r (s' : fs (logst bcache)), begin_and_write 1 1 4096 0 2 (ft_fs (boot1 t)) = Ok r s' ∧ lh_n (fs_t s') ≤ 10.
Proof.
  destruct idle1 as (t & d & tr & [_ (v & Hi & Hh & _ & _) _ _ _]).
  assert (lh_n t = 0) as Hn by (destruct (li_core _ _ _ _ _ _ Hi) as (_ & _ & En & _); exact En).
  assert (∀ y, home 2 y → bv_cur v y = h1 y) as Hc.
  { intros y Hy. apply (li_clean _ _ _ _ _ _ Hi); [done|apply not_elem_of_nil|by apply img_empty]. }
  destruct on_disk1 as [Hbm Hf _].
  assert (bm_ok sb1 (bv_cur v)) as Hbm'.
  { intros b Hb. rewrite <-(Hbm b Hb). unfold bused. rewrite Hc; [done|].
    destruct (BBLOCK_range sb1 (lo_sb _ _ layout1) b) as [_ Hbb]; [change (dstart sb1) with 35 in Hb; change (sb_size sb1) with 200; lia|].
    change (dstart sb1) with 35 in Hbb. change (sb_bmapstart sb1) with 34 in Hbb. unfold home, log_area, LOGBLOCKS, MAXOPBLOCKS. lia. }
  destruct (writei_log_bound 1 2 sb1 1 2 1 0 1 F1 h1 [] 0 v x1 0 4096 2 (ft_fs (boot1 t)) layout1 opened1 ltac:(done) Hi Hh ltac:(done)
    ltac:(cbn; rewrite Hn; done) ltac:(reflexivity) ltac:(reflexivity) Hbm'
    (empty_file _)
    ltac:(rewrite <-(od_ino _ _ _ _ on_disk1); apply ld_di_fits)
    ltac:(done) ltac:(done) ltac:(done) ltac:(done) ltac:(done) ltac:(done)) as (r & s' & Hrun & Hle).
  exists t, r, s'. split; [exact Hrun|]. change (lh_n (fs_t (ft_fs (boot1 t)))) with (lh_n t) in Hle. rewrite Hn in Hle. exact Hle.
Defined.
End FsWitness.
