(* ===== verification/Wlp.v ===== *)
(** * Weakest liberal preconditions

    [wlp m Q s]: if [m] returns from [s], its result and final state satisfy
    [Q]; a panic stops the machine.  Invariants of the kernel's state are
    stated with it where a call may legitimately stop the machine. *)

From S2P Require Import Prelude.

Definition wlp {S A} (m : M S A) (Q : A → S → Prop) (s : S) : Prop :=
  match m s with
  | Ok a s' => Q a s'
  | _ => True
  end.

Section wlp_rules.
Context {S : Type}.
Implicit Types s : S.

Lemma wlp_ret {A} (a : A) Q s : wlp (mret a) Q s = Q a s.
Proof. reflexivity. Qed.

Lemma wlp_bind {A B} (m : M S A) (f : A → M S B) Q s :
  wlp (m ≫= f) Q s = wlp m (λ a s', wlp (f a) Q s') s.
Proof. unfold wlp, mbind, M_bind. by destruct (m s). Qed.

Lemma wlp_gets {A} (f : S → A) Q s : wlp (gets f) Q s = Q (f s) s.
Proof. reflexivity. Qed.

Lemma wlp_modify (f : S → S) Q s : wlp (modify f) Q s = Q tt (f s).
Proof. reflexivity. Qed.

Lemma wlp_panic_if c msg Q s : wlp (panic_if c msg) Q s ↔ (c = false → Q tt s).
Proof. destruct c; unfold panic_if, wlp; simpl; naive_solver. Qed.

Lemma wlp_mono {A} (m : M S A) (Q Q' : A → S → Prop) s :
  wlp m Q s → (∀ a s', Q a s' → Q' a s') → wlp m Q' s.
Proof. unfold wlp. destruct (m s); naive_solver. Qed.

Lemma wlp_true {A} (m : M S A) (Q : A → S → Prop) s : (∀ a s', Q a s') → wlp m Q s.
Proof. unfold wlp. destruct (m s); naive_solver. Qed.

Lemma wlp_acquire get set Q s : wlp (acquire get set) Q s ↔ (get s = false → Q tt (set true s)).
Proof. unfold acquire. rewrite wlp_bind, wlp_gets, wlp_bind, wlp_panic_if, wlp_modify. done. Qed.

Lemma wlp_release get set Q s : wlp (release get set) Q s ↔ (get s = true → Q tt (set false s)).
Proof. unfold release. rewrite wlp_bind, wlp_gets, wlp_bind, wlp_panic_if, wlp_modify. by rewrite negb_false_iff. Qed.

Lemma wlp_Ok {A} (m : M S A) Q s a s' : wlp m Q s → m s = Ok a s' → Q a s'.
Proof. unfold wlp. intros H E. by rewrite E in H. Qed.

Lemma wlp_for_each {A} (I : list A → S → Prop) (l : list A) body Q s0 :
  I [] s0 →
  (∀ done x rest s', l = done ++ x :: rest → I done s' → wlp (body x) (λ _, I (done ++ [x])) s') →
  (∀ s', I l s' → Q tt s') →
  wlp (for_each l body) Q s0.
Proof.
  intros H0 Hstep Hend.
  assert (∀ rest d s, I d s → l = d ++ rest → wlp (for_each rest body) Q s) as H; [|by apply (H l [])].
  clear H0. induction rest as [|x rest IH]; intros d s Hd Heq; simpl.
  - rewrite wlp_ret. apply Hend. by rewrite Heq, app_nil_r.
  - rewrite wlp_bind. eapply wlp_mono; [by eapply Hstep|].
    intros a s' HI. apply (IH (d ++ [x])); [done|]. by rewrite Heq, <-app_assoc.
Qed.

Lemma wlp_for_ret {A B} (I : list A → S → Prop) (l : list A) (body : A → M S (option B)) Q s0 :
  I [] s0 →
  (∀ done x rest s', l = done ++ x :: rest → I done s' →
     wlp (body x) (λ r s'', match r with Some b => Q (Some b) s'' | None => I (done ++ [x]) s'' end) s') →
  (∀ s', I l s' → Q None s') →
  wlp (for_ret l body) Q s0.
Proof.
  intros H0 Hstep Hend.
  assert (∀ rest d s, I d s → l = d ++ rest → wlp (for_ret rest body) Q s) as H; [|by apply (H l [])].
  clear H0. induction rest as [|x rest IH]; intros d s Hd Heq; simpl.
  - rewrite wlp_ret. apply Hend. by rewrite Heq, app_nil_r.
  - rewrite wlp_bind. eapply wlp_mono; [by eapply Hstep|].
    intros [b|] s' HI; [by rewrite wlp_ret|]. apply (IH (d ++ [x])); [done|]. by rewrite Heq, <-app_assoc.
Qed.

Lemma wlp_loop {X B} (I : X → S → Prop) n (body : X → M S (X + B)) x Q s :
  I x s →
  (∀ x s, I x s → wlp (body x) (λ r s', match r with inl x' => I x' s' | inr b => Q b s' end) s) →
  wlp (loop n body x) Q s.
Proof.
  intros HI Hbody. revert x s HI. induction n as [|n IH]; intros x s HI; [done|]. simpl.
  rewrite wlp_bind. eapply wlp_mono; [by apply Hbody|]. intros [x'|b] s' H; [by apply IH|by rewrite wlp_ret].
Qed.
End wlp_rules.

Lemma wlp_lift {S T A} (get : T → S) (set : S → T → T) (m : M S A) Q t :
  wlp (lift get set m) Q t = wlp m (λ a s, Q a (set s t)) (get t).
Proof. unfold wlp, lift. by destruct (m (get t)). Qed.

(** One step of symbolic execution. *)
Ltac wlp_step :=
  lazymatch goal with
  | |- wlp (mret _) _ _ => rewrite wlp_ret
  | |- wlp (mbind _ _) _ _ => rewrite wlp_bind
  | |- wlp (gets _) _ _ => rewrite wlp_gets
  | |- wlp (modify _) _ _ => rewrite wlp_modify
  | |- wlp (panic_if _ _) _ _ => apply wlp_panic_if; intros ?
  | |- wlp (acquire _ _) _ _ => apply wlp_acquire; intros ?
  | |- wlp (release _ _) _ _ => apply wlp_release; intros ?
  end; cbv beta.

(** ** What a program keeps

    [keeps I m]: from a state with [I], [m] ends in one, if it ends. *)
Definition keeps {S A} (I : S → Prop) (m : M S A) : Prop := ∀ s, I s → wlp m (λ _, I) s.

Section keeps_rules.
Context {S : Type} (I : S → Prop).

Lemma keeps_Ok {A} (m : M S A) s a s' : keeps I m → I s → m s = Ok a s' → I s'.
Proof. intros Hm Hs E. specialize (Hm s Hs). unfold wlp in Hm. by rewrite E in Hm. Qed.
Lemma keeps_ret {A} (a : A) : keeps I (mret a).
Proof. intros s Hs. by rewrite wlp_ret. Qed.
Lemma keeps_bind {A B} (m : M S A) (f : A → M S B) : keeps I m → (∀ a, keeps I (f a)) → keeps I (m ≫= f).
Proof. intros Hm Hf s Hs. rewrite wlp_bind. eapply wlp_mono; [by apply Hm|]. intros a s' H'. by apply Hf. Qed.
Lemma keeps_gets {A} (f : S → A) : keeps I (gets f).
Proof. intros s Hs. by rewrite wlp_gets. Qed.
Lemma keeps_modify (f : S → S) : (∀ s, I s → I (f s)) → keeps I (modify f).
Proof. intros H s Hs. rewrite wlp_modify. by apply H. Qed.
Lemma keeps_panic {A} msg : keeps I (panic msg : M S A).
Proof. by intros s Hs. Qed.
Lemma keeps_nofuel {A} : keeps I (nofuel : M S A).
Proof. by intros s Hs. Qed.
Lemma keeps_panic_if c msg : keeps I (panic_if c msg).
Proof. intros s Hs. by apply wlp_panic_if. Qed.
Lemma keeps_acquire get set : (∀ b s, I s → I (set b s)) → keeps I (acquire get set).
Proof. intros H s Hs. rewrite wlp_acquire. intros _. by apply H. Qed.
Lemma keeps_release get set : (∀ b s, I s → I (set b s)) → keeps I (release get set).
Proof. intros H s Hs. rewrite wlp_release. intros _. by apply H. Qed.
Lemma keeps_for_each {A} (l : list A) (body : A → M S unit) : (∀ x, x ∈ l → keeps I (body x)) → keeps I (for_each l body).
Proof. intros H s Hs. apply (wlp_for_each (λ _, I)); [done| |done]. intros ds x rest s' -> Hs'. apply H; [|done]. apply elem_of_app. right. by left. Qed.
Lemma keeps_for_ret {A B} (l : list A) (body : A → M S (option B)) : (∀ x, x ∈ l → keeps I (body x)) → keeps I (for_ret l body).
Proof.
  intros H s Hs. apply (wlp_for_ret (λ _, I)); [done| |done]. intros ds x rest s' -> Hs'. eapply wlp_mono; [apply (H x); [|done]|by intros []].
  apply elem_of_app. right. by left.
Qed.
Lemma keeps_loop {X B} n (body : X → M S (X + B)) x : (∀ x, keeps I (body x)) → keeps I (loop n body x).
Proof. intros H s Hs. apply (wlp_loop (λ _, I)); [done|]. intros y s' Hs'. eapply wlp_mono; [by apply H|]. by intros []. Qed.
End keeps_rules.

Lemma keeps_lift {S T A} (I : T → Prop) (get : T → S) (set : S → T → T) (m : M S A) : (∀ v t, I t → I (set v t)) → keeps I (lift get set m).
Proof. intros H t Ht. rewrite wlp_lift. apply wlp_true. intros a s. by apply H. Qed.

Create HintDb keeps discriminated.
#[export] Hint Resolve keeps_ret keeps_gets keeps_panic keeps_nofuel keeps_panic_if : keeps.

(** Follows the structure of a program; what is left are the steps of [tac]. *)
Ltac keeps_step tac :=
  lazymatch goal with
  | |- keeps _ (mbind _ _) => first [tac | apply keeps_bind; [|intros ?]]
  | |- keeps _ (let '(_, _) := ?x in _) => destruct x
  | |- keeps _ (match ?x with _ => _ end) => destruct x eqn:?
  | |- keeps _ (for_each _ _) => apply keeps_for_each; intros ? ?
  | |- keeps _ (for_ret _ _) => apply keeps_for_ret; intros ? ?
  | |- keeps _ (loop _ _ _) => apply keeps_loop; intros ?
  | |- keeps _ _ => first [solve [auto with keeps nocore] | tac]
  end.
Ltac keeps_with tac := repeat (cbv beta iota; keeps_step tac).
