(* ===== verification/Proc.v ===== *)
(** * Processes: [kernel/proc.c]

    The process table over virtual memory ([Vm]) and open files ([File]).  A
    process pointer is 0 or the position of the entry in [proc], from 1.
    [mycpu()] is the hart that runs the code: [k_cur] is its [proc] and [k_noff]
    its [noff], which counts the spinlocks this code holds.  A handler that
    gives up the hart runs up to the switch ([switch_out]); what happens until
    the process is switched to again is the scheduler's. *)

From S2P Require Import Prelude Mem Kstring Layout PageAlloc Vm BufIface Sleeplock TxIface Fs Ring Pipe File.

Definition NSIG : Z := 32.
Definition SIGINT : Z := 2.
Definition SIGKILL : Z := 9.

Inductive procstate := UNUSED | USED | SLEEPING | RUNNABLE | RUNNING | ZOMBIE.
#[global] Instance procstate_eq_dec : EqDecision procstate.
Proof. solve_decision. Defined.

(** The registers of [struct context] that the C code sets. *)
Record context := Ctx { c_ra : Z; c_sp : Z }.

(** The bytes of [struct trapframe], and the offsets of its fields. *)
Definition TF_SIZE : Z := 288.
Definition TF_kernel_satp : Z := 0.
Definition TF_kernel_sp : Z := 8.
Definition TF_kernel_trap : Z := 16.
Definition TF_epc : Z := 24.
Definition TF_kernel_hartid : Z := 32.
Definition TF_ra : Z := 40.
Definition TF_sp : Z := 48.
Definition TF_a0 : Z := 112.
Definition TF_a1 : Z := 120.
Definition TF_a2 : Z := 128.
Definition TF_a3 : Z := 136.
Definition TF_a4 : Z := 144.
Definition TF_a5 : Z := 152.
Definition TF_a7 : Z := 168.

(** [struct proc]; [p_parent] is a process pointer, [p_ofile] holds file
    pointers, [p_name] the bytes before the zero and [p_sig_trapframe] the
    bytes of a trapframe. *)
Record proc := Proc {
  p_lock : bool;
  p_state : procstate;
  p_chan : Z;
  p_killed : Z;
  p_xstate : Z;
  p_pid : Z;
  p_parent : Z;
  p_kstack : Z;
  p_sz : Z;
  p_pagetable : Z;
  p_trapframe : Z;
  p_context : context;
  p_ofile : list Z;
  p_cwd : Z;
  p_name : list Z;
  p_pending_signals : Z;
  p_signal_handlers_valid : Z;
  p_signal_handlers : list Z;
  p_sig_trapframe : list Z;
  p_sig_trapframe_valid : Z;
  p_is_kthread : Z;
  p_kthread_func : Z;
  p_kthread_arg : Z
}.

Definition set_lock v p := Proc v (p_state p) (p_chan p) (p_killed p) (p_xstate p) (p_pid p) (p_parent p) (p_kstack p) (p_sz p) (p_pagetable p) (p_trapframe p) (p_context p) (p_ofile p) (p_cwd p) (p_name p) (p_pending_signals p) (p_signal_handlers_valid p) (p_signal_handlers p) (p_sig_trapframe p) (p_sig_trapframe_valid p) (p_is_kthread p) (p_kthread_func p) (p_kthread_arg p).
Definition set_state v p := Proc (p_lock p) v (p_chan p) (p_killed p) (p_xstate p) (p_pid p) (p_parent p) (p_kstack p) (p_sz p) (p_pagetable p) (p_trapframe p) (p_context p) (p_ofile p) (p_cwd p) (p_name p) (p_pending_signals p) (p_signal_handlers_valid p) (p_signal_handlers p) (p_sig_trapframe p) (p_sig_trapframe_valid p) (p_is_kthread p) (p_kthread_func p) (p_kthread_arg p).
Definition set_chan v p := Proc (p_lock p) (p_state p) v (p_killed p) (p_xstate p) (p_pid p) (p_parent p) (p_kstack p) (p_sz p) (p_pagetable p) (p_trapframe p) (p_context p) (p_ofile p) (p_cwd p) (p_name p) (p_pending_signals p) (p_signal_handlers_valid p) (p_signal_handlers p) (p_sig_trapframe p) (p_sig_trapframe_valid p) (p_is_kthread p) (p_kthread_func p) (p_kthread_arg p).
Definition set_killed v p := Proc (p_lock p) (p_state p) (p_chan p) v (p_xstate p) (p_pid p) (p_parent p) (p_kstack p) (p_sz p) (p_pagetable p) (p_trapframe p) (p_context p) (p_ofile p) (p_cwd p) (p_name p) (p_pending_signals p) (p_signal_handlers_valid p) (p_signal_handlers p) (p_sig_trapframe p) (p_sig_trapframe_valid p) (p_is_kthread p) (p_kthread_func p) (p_kthread_arg p).
Definition set_xstate v p := Proc (p_lock p) (p_state p) (p_chan p) (p_killed p) v (p_pid p) (p_parent p) (p_kstack p) (p_sz p) (p_pagetable p) (p_trapframe p) (p_context p) (p_ofile p) (p_cwd p) (p_name p) (p_pending_signals p) (p_signal_handlers_valid p) (p_signal_handlers p) (p_sig_trapframe p) (p_sig_trapframe_valid p) (p_is_kthread p) (p_kthread_func p) (p_kthread_arg p).
Definition set_pid v p := Proc (p_lock p) (p_state p) (p_chan p) (p_killed p) (p_xstate p) v (p_parent p) (p_kstack p) (p_sz p) (p_pagetable p) (p_trapframe p) (p_context p) (p_ofile p) (p_cwd p) (p_name p) (p_pending_signals p) (p_signal_handlers_valid p) (p_signal_handlers p) (p_sig_trapframe p) (p_sig_trapframe_valid p) (p_is_kthread p) (p_kthread_func p) (p_kthread_arg p).
Definition set_parent v p := Proc (p_lock p) (p_state p) (p_chan p) (p_killed p) (p_xstate p) (p_pid p) v (p_kstack p) (p_sz p) (p_pagetable p) (p_trapframe p) (p_context p) (p_ofile p) (p_cwd p) (p_name p) (p_pending_signals p) (p_signal_handlers_valid p) (p_signal_handlers p) (p_sig_trapframe p) (p_sig_trapframe_valid p) (p_is_kthread p) (p_kthread_func p) (p_kthread_arg p).
Definition set_kstack v p := Proc (p_lock p) (p_state p) (p_chan p) (p_killed p) (p_xstate p) (p_pid p) (p_parent p) v (p_sz p) (p_pagetable p) (p_trapframe p) (p_context p) (p_ofile p) (p_cwd p) (p_name p) (p_pending_signals p) (p_signal_handlers_valid p) (p_signal_handlers p) (p_sig_trapframe p) (p_sig_trapframe_valid p) (p_is_kthread p) (p_kthread_func p) (p_kthread_arg p).
Definition set_sz v p := Proc (p_lock p) (p_state p) (p_chan p) (p_killed p) (p_xstate p) (p_pid p) (p_parent p) (p_kstack p) v (p_pagetable p) (p_trapframe p) (p_context p) (p_ofile p) (p_cwd p) (p_name p) (p_pending_signals p) (p_signal_handlers_valid p) (p_signal_handlers p) (p_sig_trapframe p) (p_sig_trapframe_valid p) (p_is_kthread p) (p_kthread_func p) (p_kthread_arg p).
Definition set_pagetable v p := Proc (p_lock p) (p_state p) (p_chan p) (p_killed p) (p_xstate p) (p_pid p) (p_parent p) (p_kstack p) (p_sz p) v (p_trapframe p) (p_context p) (p_ofile p) (p_cwd p) (p_name p) (p_pending_signals p) (p_signal_handlers_valid p) (p_signal_handlers p) (p_sig_trapframe p) (p_sig_trapframe_valid p) (p_is_kthread p) (p_kthread_func p) (p_kthread_arg p).
Definition set_trapframe v p := Proc (p_lock p) (p_state p) (p_chan p) (p_killed p) (p_xstate p) (p_pid p) (p_parent p) (p_kstack p) (p_sz p) (p_pagetable p) v (p_context p) (p_ofile p) (p_cwd p) (p_name p) (p_pending_signals p) (p_signal_handlers_valid p) (p_signal_handlers p) (p_sig_trapframe p) (p_sig_trapframe_valid p) (p_is_kthread p) (p_kthread_func p) (p_kthread_arg p).
Definition set_context v p := Proc (p_lock p) (p_state p) (p_chan p) (p_killed p) (p_xstate p) (p_pid p) (p_parent p) (p_kstack p) (p_sz p) (p_pagetable p) (p_trapframe p) v (p_ofile p) (p_cwd p) (p_name p) (p_pending_signals p) (p_signal_handlers_valid p) (p_signal_handlers p) (p_sig_trapframe p) (p_sig_trapframe_valid p) (p_is_kthread p) (p_kthread_func p) (p_kthread_arg p).
Definition set_ofile v p := Proc (p_lock p) (p_state p) (p_chan p) (p_killed p) (p_xstate p) (p_pid p) (p_parent p) (p_kstack p) (p_sz p) (p_pagetable p) (p_trapframe p) (p_context p) v (p_cwd p) (p_name p) (p_pending_signals p) (p_signal_handlers_valid p) (p_signal_handlers p) (p_sig_trapframe p) (p_sig_trapframe_valid p) (p_is_kthread p) (p_kthread_func p) (p_kthread_arg p).
Definition set_cwd v p := Proc (p_lock p) (p_state p) (p_chan p) (p_killed p) (p_xstate p) (p_pid p) (p_parent p) (p_kstack p) (p_sz p) (p_pagetable p) (p_trapframe p) (p_context p) (p_ofile p) v (p_name p) (p_pending_signals p) (p_signal_handlers_valid p) (p_signal_handlers p) (p_sig_trapframe p) (p_sig_trapframe_valid p) (p_is_kthread p) (p_kthread_func p) (p_kthread_arg p).
Definition set_name v p := Proc (p_lock p) (p_state p) (p_chan p) (p_killed p) (p_xstate p) (p_pid p) (p_parent p) (p_kstack p) (p_sz p) (p_pagetable p) (p_trapframe p) (p_context p) (p_ofile p) (p_cwd p) v (p_pending_signals p) (p_signal_handlers_valid p) (p_signal_handlers p) (p_sig_trapframe p) (p_sig_trapframe_valid p) (p_is_kthread p) (p_kthread_func p) (p_kthread_arg p).
Definition set_pending_signals v p := Proc (p_lock p) (p_state p) (p_chan p) (p_killed p) (p_xstate p) (p_pid p) (p_parent p) (p_kstack p) (p_sz p) (p_pagetable p) (p_trapframe p) (p_context p) (p_ofile p) (p_cwd p) (p_name p) v (p_signal_handlers_valid p) (p_signal_handlers p) (p_sig_trapframe p) (p_sig_trapframe_valid p) (p_is_kthread p) (p_kthread_func p) (p_kthread_arg p).
Definition set_signal_handlers_valid v p := Proc (p_lock p) (p_state p) (p_chan p) (p_killed p) (p_xstate p) (p_pid p) (p_parent p) (p_kstack p) (p_sz p) (p_pagetable p) (p_trapframe p) (p_context p) (p_ofile p) (p_cwd p) (p_name p) (p_pending_signals p) v (p_signal_handlers p) (p_sig_trapframe p) (p_sig_trapframe_valid p) (p_is_kthread p) (p_kthread_func p) (p_kthread_arg p).
Definition set_signal_handlers v p := Proc (p_lock p) (p_state p) (p_chan p) (p_killed p) (p_xstate p) (p_pid p) (p_parent p) (p_kstack p) (p_sz p) (p_pagetable p) (p_trapframe p) (p_context p) (p_ofile p) (p_cwd p) (p_name p) (p_pending_signals p) (p_signal_handlers_valid p) v (p_sig_trapframe p) (p_sig_trapframe_valid p) (p_is_kthread p) (p_kthread_func p) (p_kthread_arg p).
Definition set_sig_trapframe v p := Proc (p_lock p) (p_state p) (p_chan p) (p_killed p) (p_xstate p) (p_pid p) (p_parent p) (p_kstack p) (p_sz p) (p_pagetable p) (p_trapframe p) (p_context p) (p_ofile p) (p_cwd p) (p_name p) (p_pending_signals p) (p_signal_handlers_valid p) (p_signal_handlers p) v (p_sig_trapframe_valid p) (p_is_kthread p) (p_kthread_func p) (p_kthread_arg p).
Definition set_sig_trapframe_valid v p := Proc (p_lock p) (p_state p) (p_chan p) (p_killed p) (p_xstate p) (p_pid p) (p_parent p) (p_kstack p) (p_sz p) (p_pagetable p) (p_trapframe p) (p_context p) (p_ofile p) (p_cwd p) (p_name p) (p_pending_signals p) (p_signal_handlers_valid p) (p_signal_handlers p) (p_sig_trapframe p) v (p_is_kthread p) (p_kthread_func p) (p_kthread_arg p).
Definition set_is_kthread v p := Proc (p_lock p) (p_state p) (p_chan p) (p_killed p) (p_xstate p) (p_pid p) (p_parent p) (p_kstack p) (p_sz p) (p_pagetable p) (p_trapframe p) (p_context p) (p_ofile p) (p_cwd p) (p_name p) (p_pending_signals p) (p_signal_handlers_valid p) (p_signal_handlers p) (p_sig_trapframe p) (p_sig_trapframe_valid p) v (p_kthread_func p) (p_kthread_arg p).
Definition set_kthread_func v p := Proc (p_lock p) (p_state p) (p_chan p) (p_killed p) (p_xstate p) (p_pid p) (p_parent p) (p_kstack p) (p_sz p) (p_pagetable p) (p_trapframe p) (p_context p) (p_ofile p) (p_cwd p) (p_name p) (p_pending_signals p) (p_signal_handlers_valid p) (p_signal_handlers p) (p_sig_trapframe p) (p_sig_trapframe_valid p) (p_is_kthread p) v (p_kthread_arg p).
Definition set_kthread_arg v p := Proc (p_lock p) (p_state p) (p_chan p) (p_killed p) (p_xstate p) (p_pid p) (p_parent p) (p_kstack p) (p_sz p) (p_pagetable p) (p_trapframe p) (p_context p) (p_ofile p) (p_cwd p) (p_name p) (p_pending_signals p) (p_signal_handlers_valid p) (p_signal_handlers p) (p_sig_trapframe p) (p_sig_trapframe_valid p) (p_is_kthread p) (p_kthread_func p) v.

(** A process table entry of zeros. *)
Definition proc0 : proc :=
  Proc false UNUSED 0 0 0 0 0 0 0 0 0 (Ctx 0 0) (replicate 16 0) 0 [] 0 0 (replicate 32 0) (replicate 288 0) 0 0 0 0.

Record kern (V T K : Type) := Kern {
  k_proc : gmap Z proc;
  k_cur : Z;
  k_noff : Z;
  k_initproc : Z;
  k_nextpid : Z;
  k_pid_lock : bool;
  k_wait_lock : bool;
  k_vm : V;
  k_files : files T K
}.
Arguments Kern {V T K}. Arguments k_proc {V T K}. Arguments k_cur {V T K}. Arguments k_noff {V T K}.
Arguments k_initproc {V T K}. Arguments k_nextpid {V T K}. Arguments k_pid_lock {V T K}.
Arguments k_wait_lock {V T K}. Arguments k_vm {V T K}. Arguments k_files {V T K}.

Section Proc.
Context {V T K : Type} {PO : PageAllocOps V} {TO : TxOps T} {KO : KmOps K}.
Implicit Types s : kern V T K.

Definition set_k_proc v s : kern V T K := Kern v (k_cur s) (k_noff s) (k_initproc s) (k_nextpid s) (k_pid_lock s) (k_wait_lock s) (k_vm s) (k_files s).
Definition set_k_cur v s : kern V T K := Kern (k_proc s) v (k_noff s) (k_initproc s) (k_nextpid s) (k_pid_lock s) (k_wait_lock s) (k_vm s) (k_files s).
Definition set_k_noff v s : kern V T K := Kern (k_proc s) (k_cur s) v (k_initproc s) (k_nextpid s) (k_pid_lock s) (k_wait_lock s) (k_vm s) (k_files s).
Definition set_k_initproc v s : kern V T K := Kern (k_proc s) (k_cur s) (k_noff s) v (k_nextpid s) (k_pid_lock s) (k_wait_lock s) (k_vm s) (k_files s).
Definition set_k_nextpid v s : kern V T K := Kern (k_proc s) (k_cur s) (k_noff s) (k_initproc s) v (k_pid_lock s) (k_wait_lock s) (k_vm s) (k_files s).
Definition set_k_pid_lock v s : kern V T K := Kern (k_proc s) (k_cur s) (k_noff s) (k_initproc s) (k_nextpid s) v (k_wait_lock s) (k_vm s) (k_files s).
Definition set_k_wait_lock v s : kern V T K := Kern (k_proc s) (k_cur s) (k_noff s) (k_initproc s) (k_nextpid s) (k_pid_lock s) v (k_vm s) (k_files s).
Definition set_k_vm v s : kern V T K := Kern (k_proc s) (k_cur s) (k_noff s) (k_initproc s) (k_nextpid s) (k_pid_lock s) (k_wait_lock s) v (k_files s).
Definition set_k_files v s : kern V T K := Kern (k_proc s) (k_cur s) (k_noff s) (k_initproc s) (k_nextpid s) (k_pid_lock s) (k_wait_lock s) (k_vm s) v.

Definition getp (p : Z) s : proc := default proc0 (k_proc s !! p).
Definition putp (p : Z) (x : proc) s : kern V T K := set_k_proc (<[p := x]> (k_proc s)) s.
Definition modp (p : Z) (g : proc → proc) s : kern V T K := putp p (g (getp p s)) s.
Definition upd (p : Z) (g : proc → proc) : M (kern V T K) unit := modify (modp p g).

Definition vm {A} (m : M V A) : M (kern V T K) A := lift k_vm set_k_vm m.
Definition fileop {A} (m : M (files T K) A) : M (kern V T K) A := lift k_files set_k_files m.
Definition fsys {A} (m : M (fs T) A) : M (kern V T K) A := fileop (fsop m).

(** Spinlocks, with [push_off] and [pop_off]'s count. *)
Definition lock (get : kern V T K → bool) (set : bool → kern V T K → kern V T K) : M (kern V T K) unit :=
  modify (λ s, set_k_noff (k_noff s + 1) s);; acquire get set.
Definition unlock (get : kern V T K → bool) (set : bool → kern V T K → kern V T K) : M (kern V T K) unit :=
  release get set;; modify (λ s, set_k_noff (k_noff s - 1) s).
Definition plock (p : Z) : M (kern V T K) unit := lock (λ s, p_lock (getp p s)) (λ b, modp p (set_lock b)).
Definition punlock (p : Z) : M (kern V T K) unit := unlock (λ s, p_lock (getp p s)) (λ b, modp p (set_lock b)).

Definition myproc : M (kern V T K) Z := gets k_cur.
Definition procs : list Z := seqZ 1 NPROC.

Section Code.
(** Addresses the linker chooses. *)
Context (trampoline forkret_addr kthread_entry_addr : Z).

(** ** Page tables of processes *)

Definition proc_pagetable (trapframe : Z) : M V Z :=
  pagetable ← uvmcreate;
  if pagetable =? 0 then mret 0 else
  r ← mappages pagetable TRAMPOLINE PGSIZE trampoline (Z.lor PTE_R PTE_X);
  if r <? 0 then uvmfree pagetable 0;; mret 0 else
  r ← mappages pagetable TRAPFRAME PGSIZE trapframe (Z.lor PTE_R PTE_W);
  if r <? 0 then
    uvmunmap pagetable TRAMPOLINE 1 false;;
    uvmfree pagetable 0;;
    mret 0
  else mret pagetable.

Definition proc_freepagetable (pagetable sz : Z) : M V unit :=
  uvmunmap pagetable TRAMPOLINE 1 false;;
  uvmunmap pagetable TRAPFRAME 1 false;;
  uvmfree pagetable sz.

(** ** The table *)

Definition init_signals (p : Z) : M (kern V T K) unit :=
  upd p (set_pending_signals 0);;
  upd p (set_sig_trapframe_valid 0);;
  upd p (set_sig_trapframe (replicate 288 0));;
  upd p (set_signal_handlers (replicate 32 0));;
  upd p (set_signal_handlers_valid 0).

Definition procinit : M (kern V T K) unit :=
  modify (set_k_pid_lock false);;
  modify (set_k_wait_lock false);;
  for_each procs (λ p,
    upd p (set_lock false);;
    upd p (set_state UNUSED);;
    upd p (set_kstack (KSTACK (p - 1)));;
    init_signals p).

(** [nextpid] is an [int]; its overflow wraps. *)
Definition allocpid : M (kern V T K) Z :=
  lock k_pid_lock set_k_pid_lock;;
  pid ← gets k_nextpid;
  modify (set_k_nextpid (i32 (pid + 1)));;
  unlock k_pid_lock set_k_pid_lock;;
  mret pid.

Definition freeproc (p : Z) : M (kern V T K) unit :=
  x ← gets (getp p);
  (if negb (p_trapframe x =? 0) then vm (pa_kfree (p_trapframe x)) else mret tt);;
  upd p (set_trapframe 0);;
  (if p_is_kthread x =? 0 then
     if negb (p_pagetable x =? 0) then vm (proc_freepagetable (p_pagetable x) (p_sz x)) else mret tt
   else mret tt);;
  upd p (set_pagetable 0);;
  upd p (set_sz 0);;
  upd p (set_pid 0);;
  upd p (set_parent 0);;
  upd p (set_name []);;
  upd p (set_chan 0);;
  upd p (set_killed 0);;
  upd p (set_xstate 0);;
  upd p (set_state UNUSED);;
  upd p (set_is_kthread 0);;
  init_signals p.

(** From [found:] on, with the lock of [p] held. *)
Definition allocproc_found (p : Z) : M (kern V T K) Z :=
  pid ← allocpid;
  upd p (set_pid pid);;
  upd p (set_state USED);;
  tf ← vm pa_kalloc;
  upd p (set_trapframe tf);;
  if tf =? 0 then freeproc p;; punlock p;; mret 0 else
  pt ← vm (proc_pagetable tf);
  upd p (set_pagetable pt);;
  if pt =? 0 then freeproc p;; punlock p;; mret 0 else
  ks ← gets (λ s, p_kstack (getp p s));
  upd p (set_context (Ctx forkret_addr (u64 (ks + PGSIZE))));;
  init_signals p;;
  mret p.

Definition allocproc : M (kern V T K) Z :=
  r ← for_ret procs (λ p,
    plock p;;
    st ← gets (λ s, p_state (getp p s));
    if bool_decide (st = UNUSED) then mret (Some p)
    else punlock p;; mret None);
  match r with
  | None => mret 0
  | Some p => allocproc_found p
  end.

Definition userinit : M (kern V T K) unit :=
  p ← allocproc;
  modify (set_k_initproc p);;
  cwd ← gets (λ s, p_cwd (getp p s));
  ip ← fsys (namei 0 cwd [SLASH]);
  upd p (set_cwd ip);;
  upd p (set_state RUNNABLE);;
  punlock p.

Definition growproc (n : Z) : M (kern V T K) Z :=
  p ← myproc;
  x ← gets (getp p);
  let sz := p_sz x in
  if n >? 0 then
    sz' ← vm (uvmalloc (p_pagetable x) sz (u64 (sz + n)) PTE_W);
    if sz' =? 0 then mret (-1) else upd p (set_sz sz');; mret 0
  else if n <? 0 then
    sz' ← vm (uvmdealloc (p_pagetable x) sz (u64 (sz + n)));
    upd p (set_sz sz');; mret 0
  else upd p (set_sz sz);; mret 0.

(** ** Trapframes *)

Definition tf_ld (tf off : Z) : M (kern V T K) Z := vm (gets (λ v, ld64 (pa_mem v) (tf + off))).
Definition tf_st (tf off x : Z) : M (kern V T K) unit := vm (modify (λ v, pa_set_mem (st64 (pa_mem v) (tf + off) x) v)).

(** ** [fork], [exit], [wait] *)

Definition kfork_files (p np : Z) : M (kern V T K) unit :=
  for_each (seqZ 0 NOFILE) (λ i,
    f ← gets (λ s, default 0 (p_ofile (getp p s) !! Z.to_nat i));
    if negb (f =? 0) then
      f' ← fileop (filedup f);
      upd np (λ x, set_ofile (<[Z.to_nat i := f']> (p_ofile x)) x)
    else mret tt).

Definition kfork : M (kern V T K) Z :=
  p ← myproc;
  x ← gets (getp p);
  panic_if (negb (p_is_kthread x =? 0)) "kfork from kthread";;
  np ← allocproc;
  if np =? 0 then mret (-1) else
  npt ← gets (λ s, p_pagetable (getp np s));
  r ← vm (uvmcopy (p_pagetable x) npt (p_sz x));
  if r <? 0 then freeproc np;; punlock np;; mret (-1) else
  upd np (set_sz (p_sz x));;
  ntf ← gets (λ s, p_trapframe (getp np s));
  vm (kmemmove ntf (p_trapframe x) TF_SIZE);;
  tf_st ntf TF_a0 0;;
  upd np (set_pending_signals 0);;
  upd np (set_sig_trapframe_valid 0);;
  upd np (set_sig_trapframe (replicate 288 0));;
  upd np (set_signal_handlers (p_signal_handlers x));;
  upd np (set_signal_handlers_valid (p_signal_handlers_valid x));;
  kfork_files p np;;
  cwd ← fsys (idup (p_cwd x));
  upd np (set_cwd cwd);;
  upd np (set_name (take 15 (p_name x)));;
  pid ← gets (λ s, p_pid (getp np s));
  punlock np;;
  lock k_wait_lock set_k_wait_lock;;
  upd np (set_parent p);;
  unlock k_wait_lock set_k_wait_lock;;
  plock np;;
  upd np (set_state RUNNABLE);;
  punlock np;;
  mret pid.

Definition wakeup (chan : Z) : M (kern V T K) unit :=
  for_each procs (λ p,
    me ← myproc;
    if negb (p =? me) then
      plock p;;
      x ← gets (getp p);
      (if bool_decide (p_state x = SLEEPING) && (p_chan x =? chan) then upd p (set_state RUNNABLE) else mret tt);;
      punlock p
    else mret tt).

(** The addresses of an entry of [proc] and of its [xstate]. *)
Context (proc_addr xstate_addr : Z → Z).

(** A process pointer as a channel. *)
Definition chan_of (p : Z) : Z := if p =? 0 then 0 else proc_addr p.

Definition reparent (p : Z) : M (kern V T K) unit :=
  for_each procs (λ pp,
    par ← gets (λ s, p_parent (getp pp s));
    if par =? p then
      init ← gets k_initproc;
      upd pp (set_parent init);;
      wakeup (chan_of init)
    else mret tt).

(** The checks of [sched]; [intr_get] is false while [noff] is not 0. *)
Definition sched_checks : M (kern V T K) unit :=
  p ← myproc;
  x ← gets (getp p);
  panic_if (negb (p_lock x)) "sched p->lock";;
  n ← gets k_noff;
  panic_if (negb (n =? 1)) "sched locks";;
  panic_if (bool_decide (p_state x = RUNNING)) "sched RUNNING".

(** [sched] up to its [swtch], and the scheduler from there to its [release]. *)
Definition switch_out : M (kern V T K) unit :=
  sched_checks;;
  p ← myproc;
  modify (set_k_cur 0);;
  punlock p.

Definition kexit_files (p : Z) : M (kern V T K) unit :=
  for_each (seqZ 0 NOFILE) (λ fd,
    f ← gets (λ s, default 0 (p_ofile (getp p s) !! Z.to_nat fd));
    if negb (f =? 0) then
      pid ← gets (λ s, p_pid (getp p s));
      fileop (fileclose pid f);;
      upd p (λ x, set_ofile (<[Z.to_nat fd := 0]> (p_ofile x)) x)
    else mret tt).

Definition kexit (status : Z) : M (kern V T K) unit :=
  p ← myproc;
  init ← gets k_initproc;
  panic_if (p =? init) "init exiting";;
  kexit_files p;;
  x ← gets (getp p);
  fsys (tx tx_begin_op);;
  fsys (iput (p_pid x) (p_cwd x));;
  fsys (tx tx_end_op);;
  upd p (set_cwd 0);;
  lock k_wait_lock set_k_wait_lock;;
  reparent p;;
  par ← gets (λ s, p_parent (getp p s));
  wakeup (chan_of par);;
  plock p;;
  upd p (set_xstate status);;
  upd p (set_state ZOMBIE);;
  unlock k_wait_lock set_k_wait_lock;;
  switch_out.

(** [sleep], to its switch. *)
Definition sleep_on (chan : Z) (get : kern V T K → bool) (set : bool → kern V T K → kern V T K) : M (kern V T K) unit :=
  p ← myproc;
  plock p;;
  unlock get set;;
  upd p (set_chan chan);;
  upd p (set_state SLEEPING);;
  switch_out.
(** [sleep], after the switch back. *)
Definition sleep_end (get : kern V T K → bool) (set : bool → kern V T K → kern V T K) : M (kern V T K) unit :=
  p ← myproc;
  upd p (set_chan 0);;
  punlock p;;
  lock get set.

Definition killed (p : Z) : M (kern V T K) Z :=
  plock p;;
  k ← gets (λ s, p_killed (getp p s));
  punlock p;;
  mret k.
Definition setkilled (p : Z) : M (kern V T K) unit :=
  plock p;;
  upd p (set_killed 1);;
  punlock p.

(** The zombie [pp], its lock held: [-1] when the status cannot be delivered.
    [copyout] reads the status where the table has it, at [xstate_addr pp]. *)
Definition reap (p pp addr : Z) : M (kern V T K) Z :=
  x ← gets (getp p);
  y ← gets (getp pp);
  r ← (if negb (addr =? 0) then
         vm (modify (λ v, pa_set_mem (st32 (pa_mem v) (xstate_addr pp) (p_xstate y)) v);;
             copyout (p_sz x) (p_pagetable x) (p_pagetable x) addr (xstate_addr pp) 4)
       else mret 0);
  if r <? 0 then
    punlock pp;;
    unlock k_wait_lock set_k_wait_lock;;
    mret (-1)
  else
    freeproc pp;;
    punlock pp;;
    unlock k_wait_lock set_k_wait_lock;;
    mret (p_pid y).

(** One scan of the table: the result of [kwait], or whether there are children. *)
Definition kwait_scan (p addr : Z) : M (kern V T K) (Z + bool) :=
  loop (Z.to_nat NPROC + 1) (λ x : list Z * bool,
    match x with
    | ([], havekids) => mret (inr (inr havekids))
    | (pp :: l, havekids) =>
        par ← gets (λ s, p_parent (getp pp s));
        if par =? p then
          plock pp;;
          st ← gets (λ s, p_state (getp pp s));
          if bool_decide (st = ZOMBIE) then
            r ← reap p pp addr;
            mret (inr (inl r))
          else punlock pp;; mret (inl (l, true))
        else mret (inl (l, havekids))
    end) (procs, false).

(** An iteration of the loop of [kwait], [wait_lock] held, to its return or to
    the switch in [sleep]. *)
Definition kwait_iter (addr : Z) : M (kern V T K) outcome :=
  p ← myproc;
  kwait_scan p addr ≫= λ r : Z + bool,
  match r with
  | inl r => mret (Done r)
  | inr havekids =>
      k ← (if havekids then killed p else mret 1);
      if negb (k =? 0) then
        unlock k_wait_lock set_k_wait_lock;;
        mret (Done (-1))
      else
        sleep_on (chan_of p) k_wait_lock set_k_wait_lock;;
        mret (Sleep 0)
  end.

Definition kwait (addr : Z) : M (kern V T K) outcome :=
  lock k_wait_lock set_k_wait_lock;;
  kwait_iter addr.
(** [kwait] after it slept and was switched to again. *)
Definition kwait_again (addr : Z) : M (kern V T K) outcome :=
  sleep_end k_wait_lock set_k_wait_lock;;
  kwait_iter addr.

(** ** Scheduling *)

(** The entry [p] as [scheduler] meets it, up to the [swtch] to it if it can
    run; its lock stays held. *)
Definition dispatch (p : Z) : M (kern V T K) bool :=
  plock p;;
  st ← gets (λ s, p_state (getp p s));
  if bool_decide (st = RUNNABLE) then
    upd p (set_state RUNNING);;
    modify (set_k_cur p);;
    mret true
  else mret false.

(** One pass of [scheduler] over the table.  [run p] is what happens from the
    [swtch] to [p] to the [swtch] back, which [p] makes with its lock held. *)
Definition sched_pass (run : Z → M (kern V T K) unit) : M (kern V T K) bool :=
  loop (Z.to_nat NPROC + 1) (λ x : list Z * bool,
    match x with
    | ([], found) => mret (inr found)
    | (p :: l, found) =>
        r ← dispatch p;
        (if (r : bool) then run p;; modify (set_k_cur 0) else mret tt);;
        punlock p;;
        mret (inl (l, found || r))
    end) (procs, false).

(** [yield], to its switch and after it. *)
Definition yield_out : M (kern V T K) unit :=
  p ← myproc;
  plock p;;
  upd p (set_state RUNNABLE);;
  switch_out.
Definition yield_back : M (kern V T K) unit :=
  p ← myproc;
  punlock p.

(** ** Signals *)

Definition kkill (pid signum : Z) : M (kern V T K) Z :=
  if (signum <? 0) || (signum >=? NSIG) then mret (-1) else
  r ← for_ret procs (λ p,
    plock p;;
    x ← gets (getp p);
    if p_pid x =? pid then
      (if signum =? SIGKILL then upd p (set_killed 1)
       else upd p (set_pending_signals (Z.lor (p_pending_signals x) (Z.shiftl 1 signum))));;
      (if bool_decide (p_state x = SLEEPING) then upd p (set_state RUNNABLE) else mret tt);;
      punlock p;;
      mret (Some 0)
    else punlock p;; mret None);
  mret (default (-1) r).

(** ** Kernel threads *)

(** The call of the function at address [func]. *)
Context (call_kthread : Z → Z → M (kern V T K) unit).

Definition kthread_entry : M (kern V T K) unit :=
  p ← myproc;
  punlock p;;
  x ← gets (getp p);
  (if negb (p_kthread_func x =? 0) then call_kthread (p_kthread_func x) (p_kthread_arg x) else mret tt);;
  kexit 0.

Definition kthread_create (func arg : Z) (name : list Z) : M (kern V T K) Z :=
  p ← allocproc;
  if p =? 0 then mret 0 else
  upd p (set_is_kthread 1);;
  upd p (set_kthread_func func);;
  upd p (set_kthread_arg arg);;
  upd p (set_name (take 15 name));;
  upd p (set_sz 0);;
  tf ← gets (λ s, p_trapframe (getp p s));
  vm (kmemset tf 0 TF_SIZE);;
  ks ← gets (λ s, p_kstack (getp p s));
  upd p (set_context (Ctx kthread_entry_addr (u64 (ks + PGSIZE))));;
  upd p (set_state RUNNABLE);;
  punlock p;;
  mret p.
End Code.
End Proc.
