(* ===== verification/ProcInv.v ===== *)
(** * The process table's invariant

    What holds of the table whenever no handler is running: entries not in use
    are clean, process ids of live processes are distinct, and parents are
    alive, so that every process that exits has a parent to collect it. *)

From S2P Require Import Prelude Wlp Mem Kstring Layout PageAlloc Vm BufIface Sleeplock TxIface Fs Ring Pipe File Proc.

Set Default Proof Using "Type".

Section ProcInv.
Context {V T K : Type} {PO : PageAllocOps V} {TO : TxOps T} {KO : KmOps K}.
Context (trampoline forkret_addr kthread_entry_addr : Z).
Implicit Types s : kern V T K.

Definition live (x : proc) : Prop := p_state x ≠ UNUSED.
Definition alive (x : proc) : Prop := p_state x ≠ UNUSED ∧ p_state x ≠ ZOMBIE.

(** An entry that is not in use has no id, parent, trapframe, page table, size or
    channel; its [killed] and pending signals are free, because [kkill] of id 0
    sets them.  One in use has a process id that was handed out. *)
Definition entry_ok (nextpid : Z) (x : proc) : Prop :=
  (p_state x = UNUSED → p_pid x = 0 ∧ p_parent x = 0 ∧ p_trapframe x = 0 ∧ p_pagetable x = 0 ∧ p_sz x = 0 ∧ p_chan x = 0) ∧
  (live x → 0 < p_pid x < nextpid).

Record core s : Prop := {
  co_some : ∀ p, p ∈ procs → is_Some (k_proc s !! p);
  co_entry : ∀ p, p ∈ procs → entry_ok (k_nextpid s) (getp p s);
  co_pids : ∀ p q, p ∈ procs → q ∈ procs → live (getp p s) → live (getp q s) → p_pid (getp p s) = p_pid (getp q s) → p = q;
  co_parent : ∀ p, p ∈ procs → p_parent (getp p s) ≠ 0 →
    p_parent (getp p s) ∈ procs ∧ alive (getp (p_parent (getp p s)) s);
  co_init : k_initproc s ∈ procs ∧ alive (getp (k_initproc s) s);
  co_cur : k_cur s ≠ 0 → k_cur s ∈ procs;
  co_run : ∀ p, p ∈ procs → p_state (getp p s) = RUNNING ↔ p = k_cur s
}.

(** Inside a handler: [L] are the entries whose lock is held, [w] tells whether
    [wait_lock] is, and only [u] may be half made. *)
Record busy (u : Z) (L : gset Z) (w : bool) s : Prop := {
  bu_core : core s;
  bu_used : ∀ p, p ∈ procs → p_state (getp p s) = USED → p = u;
  bu_locks : ∀ p, p ∈ procs → p_lock (getp p s) = bool_decide (p ∈ L);
  bu_wait : k_wait_lock s = w;
  bu_pid : k_pid_lock s = false;
  bu_noff : k_noff s = Z.of_nat (size L) + Z.b2z w
}.

(** Between handlers. *)
Definition pinv s : Prop := busy 0 ∅ false s.

Lemma proc_pos p : p ∈ procs → 0 < p.
Proof. intros H. apply elem_of_seqZ in H. lia. Qed.

(** ** Looking into an updated table *)

Lemma getp_modp_eq p g s : getp p (modp p g s) = g (getp p s).
Proof. unfold getp at 1, modp, putp. cbn. by rewrite lookup_insert_eq. Qed.
Lemma getp_modp_ne p q g s : q ≠ p → getp q (modp p g s) = getp q s.
Proof. intros H. unfold getp, modp, putp. cbn. by rewrite lookup_insert_ne. Qed.
Lemma lookup_modp_ne p q g s : q ≠ p → k_proc (modp p g s) !! q = k_proc s !! q.
Proof. intros H. unfold modp, putp. cbn. by rewrite lookup_insert_ne. Qed.
Lemma lookup_modp_eq p g s : is_Some (k_proc (modp p g s) !! p).
Proof. unfold modp, putp. cbn. rewrite lookup_insert_eq. by eexists. Qed.
Lemma modp_modp p f g s : modp p g (modp p f s) = modp p (λ x, g (f x)) s.
Proof. unfold modp at 1. rewrite getp_modp_eq. unfold modp, putp, set_k_proc. cbn. by rewrite insert_insert_eq. Qed.

(** ** Steps *)

Lemma wlp_vm {A} (m : M V A) Q s : (∀ a v, Q a (set_k_vm v s)) → wlp (vm m) Q s.
Proof. intros H. unfold vm. rewrite wlp_lift. by apply wlp_true. Qed.
Lemma wlp_fileop {A} (m : M (files T K) A) Q s : (∀ a v, Q a (set_k_files v s)) → wlp (fileop m) Q s.
Proof. intros H. unfold fileop. rewrite wlp_lift. by apply wlp_true. Qed.
Lemma wlp_fsys {A} (m : M (fs T) A) Q s : (∀ a v, Q a (set_k_files v s)) → wlp (fsys m) Q s.
Proof. apply wlp_fileop. Qed.
Lemma wlp_upd p g Q s : Q tt (modp p g s) → wlp (upd p g) Q s.
Proof. done. Qed.

Ltac upd_step := wlp_step; apply wlp_upd; cbv beta.

Lemma wlp_plock p Q s :
  (p_lock (getp p s) = false → Q tt (modp p (set_lock true) (set_k_noff (k_noff s + 1) s))) → wlp (plock p) Q s.
Proof. intros H. unfold plock, lock. wlp_step. wlp_step. wlp_step. by apply H. Qed.
Lemma wlp_punlock p Q s :
  (p_lock (getp p s) = true → Q tt (set_k_noff (k_noff s - 1) (modp p (set_lock false) s))) → wlp (punlock p) Q s.
Proof. intros H. unfold punlock, unlock. wlp_step. wlp_step. wlp_step. by apply H. Qed.

Definition sig_clear (x : proc) : proc :=
  set_signal_handlers_valid 0 (set_signal_handlers (replicate 32 0) (set_sig_trapframe (replicate 288 0)
    (set_sig_trapframe_valid 0 (set_pending_signals 0 x)))).

Lemma wlp_init_signals p Q s : Q tt (modp p sig_clear s) → wlp (init_signals p) Q s.
Proof. intros H. unfold init_signals, upd. do 4 (wlp_step; wlp_step). wlp_step. by rewrite !modp_modp. Qed.
Lemma set_k_vm_id s : set_k_vm (k_vm s) s = s.
Proof. by destruct s. Qed.
Lemma set_k_files_id s : set_k_files (k_files s) s = s.
Proof. by destruct s. Qed.
Lemma set_k_noff_id s n : n = k_noff s → set_k_noff n s = s.
Proof. intros ->. by destruct s. Qed.

Lemma wlp_opt_vm (c : bool) (m : M V unit) Q s : (∀ v, Q tt (set_k_vm v s)) → wlp (if c then vm m else mret tt) Q s.
Proof. intros H. destruct c; [apply wlp_vm; intros []; apply H|]. rewrite wlp_ret. specialize (H (k_vm s)). by rewrite set_k_vm_id in H. Qed.

(** What [freeproc] leaves of an entry. *)
Definition free_entry (x : proc) : proc :=
  sig_clear (set_is_kthread 0 (set_state UNUSED (set_xstate 0 (set_killed 0 (set_chan 0 (set_name [] (set_parent 0
    (set_pid 0 (set_sz 0 (set_pagetable 0 (set_trapframe 0 x))))))))))).

Lemma wlp_freeproc p Q s : (∀ v, Q tt (modp p free_entry (set_k_vm v s))) → wlp (freeproc p) Q s.
Proof.
  intros H. unfold freeproc. wlp_step. wlp_step. wlp_step. apply wlp_opt_vm. intros v1. cbv beta. upd_step. wlp_step.
  assert (∀ v, wlp (upd p (set_pagetable 0);; upd p (set_sz 0);; upd p (set_pid 0);; upd p (set_parent 0);; upd p (set_name []);;
    upd p (set_chan 0);; upd p (set_killed 0);; upd p (set_xstate 0);; upd p (set_state UNUSED);; upd p (set_is_kthread 0);; init_signals p)
    Q (set_k_vm v (modp p (set_trapframe 0) (set_k_vm v1 s)))) as Hrest.
  { intros v. do 10 upd_step. apply wlp_init_signals. rewrite !modp_modp.
    change (set_k_vm v (modp p (set_trapframe 0) (set_k_vm v1 s))) with (modp p (set_trapframe 0) (set_k_vm v s)). rewrite modp_modp. apply H. }
  destruct (p_is_kthread (getp p s) =? 0).
  - apply wlp_opt_vm. intros v. apply Hrest.
  - rewrite wlp_ret. specialize (Hrest v1). apply Hrest.
Qed.

Lemma wlp_allocpid Q s :
  (k_pid_lock s = false → Q (k_nextpid s) (set_k_nextpid (i32 (k_nextpid s + 1)) s)) → wlp allocpid Q s.
Proof.
  intros H. unfold allocpid, lock, unlock. repeat wlp_step.
  match goal with HH : k_pid_lock _ = false |- _ => specialize (H HH) end.
  cbn. destruct s. cbn in *. rewrite Z.add_simpl_r. by subst.
Qed.

(** The entry [allocproc] returns. *)
Definition new_entry (pid tf pt : Z) (x : proc) : proc :=
  sig_clear (set_context (Ctx forkret_addr (u64 (p_kstack x + PGSIZE))) (set_pagetable pt (set_trapframe tf
    (set_state USED (set_pid pid x))))).

Lemma modp_ext p f g s : f (getp p s) = g (getp p s) → modp p f s = modp p g s.
Proof. intros H. unfold modp. by rewrite H. Qed.
Lemma modp_id p g s : is_Some (k_proc s !! p) → g (getp p s) = getp p s → modp p g s = s.
Proof.
  intros [x Hx] H. unfold modp. rewrite H. unfold putp, getp. rewrite Hx. cbn. destruct s. unfold set_k_proc. cbn in *. by rewrite insert_id.
Qed.

(** Taken and given back: nothing has changed. *)
Lemma relock_id p s :
  is_Some (k_proc s !! p) → p_lock (getp p s) = false →
  set_k_noff (k_noff s + 1 - 1) (modp p (set_lock false) (modp p (set_lock true) (set_k_noff (k_noff s + 1) s))) = s.
Proof.
  intros Hs Hl. rewrite Z.add_simpl_r, modp_modp.
  change (set_k_noff (k_noff s) (modp p (λ x, set_lock false (set_lock true x)) (set_k_noff (k_noff s + 1) s)))
    with (modp p (λ x, set_lock false (set_lock true x)) (set_k_noff (k_noff s) s)).
  rewrite set_k_noff_id by done. apply modp_id; [done|]. destruct (getp p s). cbn in *. by subst.
Qed.

(** The test of one entry of the table under its lock. *)
Lemma wlp_scan_lock {A B} p (g : proc → B) (R : B → bool) (yes : B → M (kern V T K) A) (no : M (kern V T K) A) Q s :
  is_Some (k_proc s !! p) → p_lock (getp p s) = false → (∀ b x, g (set_lock b x) = g x) →
  (R (g (getp p s)) = true → wlp (yes (g (getp p s))) Q (modp p (set_lock true) (set_k_noff (k_noff s + 1) s))) →
  (R (g (getp p s)) = false → wlp no Q s) →
  wlp (plock p;; y ← gets (λ s, g (getp p s)); if R y then yes y else punlock p;; no) Q s.
Proof.
  intros Hs Hl Hg Hy Hn. wlp_step. apply wlp_plock. intros _. cbv beta. do 2 wlp_step. rewrite getp_modp_eq, Hg.
  change (getp p (set_k_noff (k_noff s + 1) s)) with (getp p s). destruct (R (g (getp p s))) eqn:E; [by apply Hy|].
  wlp_step. apply wlp_punlock. intros _. cbv beta. specialize (Hn eq_refl).
  by rewrite <-(relock_id p s Hs Hl) in Hn.
Qed.

(** Two states are the same field by field, the entry [p] included. *)
Lemma kern_entry_eq p (f g : proc → proc) s1 s2 :
  delete p (k_proc s1) = delete p (k_proc s2) → k_cur s1 = k_cur s2 → k_noff s1 = k_noff s2 → k_initproc s1 = k_initproc s2 →
  k_nextpid s1 = k_nextpid s2 → k_pid_lock s1 = k_pid_lock s2 → k_wait_lock s1 = k_wait_lock s2 → k_vm s1 = k_vm s2 → k_files s1 = k_files s2 →
  f (getp p s1) = g (getp p s2) → modp p f s1 = modp p g s2.
Proof.
  intros Hd. intros. unfold modp, putp, set_k_proc. f_equal; try done.
  rewrite <-(insert_delete_eq (k_proc s1)), <-(insert_delete_eq (k_proc s2)). congruence.
Qed.

Lemma entry_insert p x (m : gmap Z proc) : default proc0 (<[p := x]> m !! p) = x.
Proof. by rewrite lookup_insert_eq. Qed.
Lemma entry_relock (g : proc → proc) x b : p_lock x = b → (∀ c y, set_lock b (g (set_lock c y)) = set_lock b (g y)) → p_lock (g x) = b →
  g x = set_lock b (g (set_lock (negb b) x)).
Proof. intros Hx Hg Hgx. rewrite Hg. destruct (g x). cbn in *. by subst. Qed.

Definition free_locks s : Prop := ∀ p, p ∈ procs → is_Some (k_proc s !! p) ∧ p_lock (getp p s) = false.

(** The state after [allocpid]. *)
Definition pid_taken s : kern V T K := set_k_nextpid (i32 (k_nextpid s + 1)) s.

Lemma wlp_alloc_fail p g Q s :
  (∀ x, free_entry (g x) = free_entry x) → (∀ v, Q 0 (set_k_noff (k_noff s - 1) (modp p (λ x, set_lock false (free_entry x)) (set_k_vm v s)))) →
  wlp (freeproc p;; punlock p;; mret 0) Q (modp p g s).
Proof.
  intros Hg H0. wlp_step. apply wlp_freeproc. intros v2. cbv beta. wlp_step. apply wlp_punlock. intros _. cbv beta. wlp_step.
  specialize (H0 v2). eapply (eq_ind _ (Q 0) H0). f_equal. change (set_k_vm v2 (modp p g s)) with (modp p g (set_k_vm v2 s)).
  rewrite !modp_modp. apply modp_ext. by rewrite Hg.
Qed.

Lemma wlp_allocproc_found p Q s :
  (∀ v, Q 0 (set_k_noff (k_noff s - 1) (modp p (λ x, set_lock false (free_entry x)) (set_k_vm v (pid_taken s))))) →
  (∀ v tf pt, tf ≠ 0 → pt ≠ 0 → Q p (modp p (new_entry (k_nextpid s) tf pt) (set_k_vm v (pid_taken s)))) →
  wlp (allocproc_found trampoline forkret_addr p) Q s.
Proof.
  intros H0 Hp. unfold allocproc_found. wlp_step. apply wlp_allocpid. intros _. fold (pid_taken s). cbv beta.
  do 2 upd_step. rewrite modp_modp. wlp_step. apply wlp_vm. intros tf v. cbv beta. upd_step.
  change (set_k_vm v (modp p (λ x, set_state USED (set_pid (k_nextpid s) x)) (pid_taken s)))
    with (modp p (λ x, set_state USED (set_pid (k_nextpid s) x)) (set_k_vm v (pid_taken s))).
  rewrite modp_modp. destruct (Z.eqb_spec tf 0) as [->|Htf]; [by apply wlp_alloc_fail|].
  wlp_step. apply wlp_vm. intros pt v2. cbv beta. upd_step.
  change (set_k_vm v2 (modp p ?g (set_k_vm v (pid_taken s)))) with (modp p g (set_k_vm v2 (pid_taken s))).
  rewrite modp_modp. destruct (Z.eqb_spec pt 0) as [->|Hpt]; [by apply wlp_alloc_fail|].
  wlp_step. wlp_step. upd_step. wlp_step. apply wlp_init_signals. cbv beta. wlp_step. rewrite !modp_modp.
  specialize (Hp v2 tf pt Htf Hpt). eapply (eq_ind _ (Q p) Hp). apply modp_ext. by rewrite getp_modp_eq.
Qed.

(** [allocproc] finds no entry, or gives up on one and leaves it free, or
    returns one with its lock held. *)
Lemma wlp_allocproc Q s :
  free_locks s → k_pid_lock s = false → 
  Q 0 s →
  (∀ p v, p ∈ procs → p_state (getp p s) = UNUSED → Q 0 (modp p free_entry (set_k_vm v (pid_taken s)))) →
  (∀ p v tf pt, p ∈ procs → p_state (getp p s) = UNUSED → tf ≠ 0 → pt ≠ 0 →
     Q p (set_k_noff (k_noff s + 1) (modp p (λ x, set_lock true (new_entry (k_nextpid s) tf pt x)) (set_k_vm v (pid_taken s))))) →
  wlp (allocproc trampoline forkret_addr) Q s.
Proof.
  intros Hl Hpl Hnone Hfail Hok. unfold allocproc. wlp_step.
  assert (∀ r s', match r with None => s' = s | Some p => p ∈ procs ∧ p_state (getp p s) = UNUSED ∧ s' = modp p (set_lock true) (set_k_noff (k_noff s + 1) s) end →
    wlp (match r with None => mret 0 | Some p => allocproc_found trampoline forkret_addr p end) Q s') as H.
  { intros [p|] s'; [|by intros ->]. intros (Hp & Hu & ->). destruct (Hl p Hp) as [Hs Hlp]. apply wlp_allocproc_found.
    - intros v. specialize (Hfail p v Hp Hu). eapply (eq_ind _ (Q 0) Hfail).
      change (set_k_noff ?n (modp p ?g ?t)) with (modp p g (set_k_noff n t)).
      apply kern_entry_eq; try done; cbn [k_noff modp putp set_k_noff set_k_vm set_k_proc pid_taken set_k_nextpid k_proc].
      + by rewrite delete_insert_eq.
      + lia.
      + unfold getp in *. cbn. rewrite entry_insert. apply (entry_relock free_entry); [done|done|exact Hlp].
    - intros v tf pt Htf Hpt. specialize (Hok p v tf pt Hp Hu Htf Hpt). eapply (eq_ind _ (Q p) Hok).
      change (set_k_noff ?n (modp p ?g ?t)) with (modp p g (set_k_noff n t)).
      apply kern_entry_eq; try done; cbn [k_noff modp putp set_k_noff set_k_vm set_k_proc pid_taken set_k_nextpid k_proc].
      + by rewrite delete_insert_eq.
      + unfold getp in *. cbn. by rewrite entry_insert. }
  apply (wlp_for_ret (λ _ s', s' = s)); [done| |by intros ? ->; apply (H None)].
  intros ds p rest s' Hd ->. assert (p ∈ procs) as Hp by (rewrite Hd; set_solver). destruct (Hl p Hp) as [Hs Hlp].
  apply (wlp_scan_lock p p_state (λ st, bool_decide (st = UNUSED)) (λ _, mret (Some p)) (mret None)); try done.
  rewrite bool_decide_eq_true. intros Hu. rewrite wlp_ret. by apply (H (Some p)).
Qed.

(** ** One entry changes *)

(** No other live process has the process id [n]. *)
Definition fresh_pid (p n : Z) s : Prop := ∀ q, q ∈ procs → q ≠ p → live (getp q s) → p_pid (getp q s) ≠ n.

Lemma pid_kept s p : core s → p ∈ procs → live (getp p s) → fresh_pid p (p_pid (getp p s)) s.
Proof. intros Hc Hp Hl q Hq Hqp Hlq E. by apply Hqp, (co_pids _ Hc). Qed.
Lemma pid_new s p n : core s → k_nextpid s ≤ n → fresh_pid p n s.
Proof. intros Hc Hn q Hq Hqp Hl. destruct (co_entry _ Hc q Hq) as [_ H]. specialize (H Hl). lia. Qed.

Lemma entry_live s p x : core s → p ∈ procs → live (getp p s) → live x → p_pid x = p_pid (getp p s) → entry_ok (k_nextpid s) x.
Proof. intros Hc Hp Hl Hx E. split; [done|]. intros _. rewrite E. by apply (co_entry _ Hc). Qed.

(** A process that must stay alive: some process is its child, or it is [init]. *)
Definition needed (p : Z) s : Prop := k_initproc s = p ∨ ∃ q, q ∈ procs ∧ p_parent (getp q s) = p.

Lemma core_put s s' p x :
  core s → p ∈ procs → k_proc s' = <[p := x]> (k_proc s) →
  (k_cur s' ≠ 0 → k_cur s' ∈ procs) → k_initproc s' = k_initproc s → k_nextpid s ≤ k_nextpid s' →
  entry_ok (k_nextpid s') x →
  (live x → fresh_pid p (p_pid x) s) →
  (p_parent x = p_parent (getp p s) ∨ p_parent x = 0 ∨ p_parent x ∈ procs ∧ (p_parent x = p → alive x) ∧ alive (getp (p_parent x) s)) →
  (alive (getp p s) → needed p s → alive x) →
  (p_state x = RUNNING ↔ p = k_cur s') → (∀ q, q ∈ procs → q ≠ p → p_state (getp q s) = RUNNING ↔ q = k_cur s') →
  core s'.
Proof.
  intros [Hsome Hent Hpids Hpar Hinit _ _] Hp Hm Ecur Einit Hn Hx Hpid Hpx Hal Hr Hro.
  assert (∀ q, getp q s' = if decide (q = p) then x else getp q s) as Hg.
  { intros q. unfold getp. rewrite Hm. destruct (decide (q = p)) as [->|]; [by rewrite lookup_insert_eq|by rewrite lookup_insert_ne]. }
  assert (∀ q, alive (getp q s) → q ≠ p ∨ needed p s → alive (getp q s')) as Ha.
  { intros q H [Hq|Hq]; rewrite Hg; destruct (decide (q = p)) as [->|]; auto; done. }
  split; rewrite ?Einit.
  - intros q Hq. rewrite Hm. destruct (decide (q = p)) as [->|]; [rewrite lookup_insert_eq; by eexists|rewrite lookup_insert_ne by done; auto].
  - intros q Hq. rewrite Hg. destruct (decide (q = p)) as [->|]; [done|]. destruct (Hent q Hq) as [H1 H2]. split; [done|]. intros H. specialize (H2 H). lia.
  - intros q r Hq Hr'. rewrite !Hg. destruct (decide (q = p)) as [->|], (decide (r = p)) as [->|]; try done; intros H1 H2 E.
    + by destruct (Hpid H1 r Hr' n H2).
    + by destruct (Hpid H2 q Hq n H1).
    + by apply Hpids.
  - intros q Hq. rewrite (Hg q). destruct (decide (q = p)) as [->|]; intros H0.
    + destruct Hpx as [E|[E|(H1 & H2 & H3)]]; [rewrite E in *|done|]. 2: { split; [done|]. destruct (decide (p_parent x = p)) as [E|]; [rewrite E, Hg, decide_True by done; by apply H2|apply Ha; [done|by left]]. }
      destruct (Hpar p Hp H0) as [Hq' Ha']. split; [done|].
      apply Ha; [done|]. destruct (decide (p_parent (getp p s) = p)) as [E'|]; [right; right; by exists p|by left].
    + destruct (Hpar q Hq H0) as [Hq' Ha']. split; [done|]. apply Ha; [done|].
      destruct (decide (p_parent (getp q s) = p)) as [E'|]; [right; right; by exists q|by left].
  - destruct Hinit as [Hi Hia]. split; [done|]. apply Ha; [done|]. destruct (decide (k_initproc s = p)); [right; by left|by left].
  - done.
  - intros q Hq. rewrite Hg. destruct (decide (q = p)) as [->|]; [done|by apply Hro].
Qed.

Lemma core_change s s' p x :
  core s → p ∈ procs → k_proc s' = <[p := x]> (k_proc s) →
  k_cur s' = k_cur s → k_initproc s' = k_initproc s → k_nextpid s ≤ k_nextpid s' →
  entry_ok (k_nextpid s') x →
  (live x → fresh_pid p (p_pid x) s) →
  (p_parent x = p_parent (getp p s) ∨ p_parent x = 0 ∨ p_parent x ∈ procs ∧ (p_parent x = p → alive x) ∧ alive (getp (p_parent x) s)) →
  (alive (getp p s) → needed p s → alive x) →
  (p_state x = RUNNING ↔ p_state (getp p s) = RUNNING) →
  core s'.
Proof.
  intros Hc Hp Hm Ecur. intros. eapply (core_put s s' p x); try done; rewrite Ecur.
  - apply (co_cur _ Hc).
  - by rewrite <-(co_run _ Hc p Hp).
  - intros q Hq _. by apply (co_run _ Hc).
Qed.

(** ** Locks *)

Lemma state_lock p q b s : p_state (getp q (modp p (set_lock b) s)) = p_state (getp q s).
Proof. destruct (decide (q = p)) as [->|]; [by rewrite getp_modp_eq|by rewrite getp_modp_ne]. Qed.
Lemma parent_lock p q b s : p_parent (getp q (modp p (set_lock b) s)) = p_parent (getp q s).
Proof. destruct (decide (q = p)) as [->|]; [by rewrite getp_modp_eq|by rewrite getp_modp_ne]. Qed.

(** Nothing of the invariant reads memory, files or the count of locks. *)
Lemma busy_vm u L w v s : busy u L w s → busy u L w (set_k_vm v s).
Proof. intros [[] ]. split; [split|..]; done. Qed.
Lemma busy_files u L w v s : busy u L w s → busy u L w (set_k_files v s).
Proof. intros [[] ]. split; [split|..]; done. Qed.

(** An update of an entry that keeps its lock, its state and its relations. *)
Definition quiet (g : proc → proc) : Prop :=
  ∀ x, p_lock (g x) = p_lock x ∧ p_state (g x) = p_state x ∧ p_pid (g x) = p_pid x ∧ p_parent (g x) = p_parent x.

Lemma busy_change u u' L L' w s p x n :
  busy u L w s → p ∈ procs → entry_ok (k_nextpid s) x →
  (live x → fresh_pid p (p_pid x) s) →
  (p_parent x = p_parent (getp p s) ∨ p_parent x = 0 ∨ p_parent x ∈ procs ∧ (p_parent x = p → alive x) ∧ alive (getp (p_parent x) s)) →
  (alive (getp p s) → needed p s → alive x) →
  (p_state x = RUNNING ↔ p_state (getp p s) = RUNNING) →
  (u' = u ∨ u = p ∨ u = 0) → (p_state x = USED → p = u') →
  (∀ q, q ∈ procs → q ≠ p → q ∈ L' ↔ q ∈ L) → p_lock x = bool_decide (p ∈ L') → n = Z.of_nat (size L') + Z.b2z w →
  busy u' L' w (set_k_noff n (putp p x s)).
Proof.
  intros [Hc Hu Hl Hw Hpl Hn] Hp Hx Hpid Hpar Hal Hr Hu' Hux HL Hxl ->.
  assert (∀ q, q ≠ p → getp q (set_k_noff (Z.of_nat (size L') + Z.b2z w) (putp p x s)) = getp q s) as Hne.
  { intros q Hq. unfold getp, putp. cbn. by rewrite lookup_insert_ne. }
  assert (getp p (set_k_noff (Z.of_nat (size L') + Z.b2z w) (putp p x s)) = x) as Heq.
  { unfold getp, putp. cbn. by rewrite lookup_insert_eq. }
  split; try done.
  - by eapply (core_change s _ p x).
  - intros q Hq. destruct (decide (q = p)) as [->|Hqp]; [by rewrite Heq|]. rewrite Hne by done. intros H. apply Hu in H; [|done]. pose proof (proc_pos q Hq). destruct Hu' as [->|[->| ->]]; [done|congruence|lia].
  - intros q Hq. destruct (decide (q = p)) as [->|Hqp]; [by rewrite Heq|]. rewrite Hne, Hl by done. apply bool_decide_ext. by rewrite HL.
Qed.

Lemma busy_quiet u L w s p g : busy u L w s → p ∈ procs → live (getp p s) → quiet g → busy u L w (modp p g s).
Proof.
  intros H Hp Hlv Hg. destruct (Hg (getp p s)) as (H1 & H2 & H3 & H4). pose proof (bu_core _ _ _ _ H) as Hc. destruct (co_entry _ Hc p Hp) as [He1 He2].
  rewrite <-(set_k_noff_id (modp p g s) (k_noff s)) by done. eapply (busy_change u u L L); try done; rewrite ?H1, ?H2, ?H3, ?H4; try done.
  - unfold entry_ok, live. by rewrite H2, H3.
  - intros _. by apply pid_kept.
  - by left.
  - unfold alive. by rewrite H2.
  - by left.
  - by apply (bu_used _ _ _ _ H).
  - by apply (bu_locks _ _ _ _ H).
  - apply (bu_noff _ _ _ _ H).
Qed.

Definition locked_at p s : kern V T K := modp p (set_lock true) (set_k_noff (k_noff s + 1) s).
Definition unlocked_at p s : kern V T K := set_k_noff (k_noff s - 1) (modp p (set_lock false) s).

Lemma state_unlocked p q s : p_state (getp q (unlocked_at p s)) = p_state (getp q s).
Proof. apply (state_lock p q false s). Qed.
Lemma state_locked p q s : p_state (getp q (locked_at p s)) = p_state (getp q s).
Proof. apply (state_lock p q true (set_k_noff (k_noff s + 1) s)). Qed.

Lemma getp_locked p s : getp p (locked_at p s) = set_lock true (getp p s).
Proof. apply (getp_modp_eq p (set_lock true) (set_k_noff (k_noff s + 1) s)). Qed.
Lemma getp_unlocked p s : getp p (unlocked_at p s) = set_lock false (getp p s).
Proof. apply (getp_modp_eq p (set_lock false) s). Qed.

Lemma busy_relock u L L' w s p b n :
  busy u L w s → p ∈ procs → (∀ q, q ∈ procs → q ≠ p → q ∈ L' ↔ q ∈ L) → b = bool_decide (p ∈ L') → n = Z.of_nat (size L') + Z.b2z w →
  busy u L' w (set_k_noff n (modp p (set_lock b) s)).
Proof.
  intros H Hp HL Hb Hn. pose proof (bu_core _ _ _ _ H) as Hc. unfold modp. eapply busy_change; try done.
  - apply (co_entry _ Hc p Hp).
  - by apply pid_kept.
  - by left.
  - by left.
  - apply (bu_used _ _ _ _ H p Hp).
Qed.
Lemma busy_locked u L w s p : busy u L w s → p ∈ procs → p ∉ L → busy u ({[p]} ∪ L) w (locked_at p s).
Proof.
  intros H Hp HL. unfold locked_at. change (modp p (set_lock true) (set_k_noff (k_noff s + 1) s)) with (set_k_noff (k_noff s + 1) (modp p (set_lock true) s)).
  eapply busy_relock; try done.
  - intros q _ Hq. set_solver.
  - symmetry. apply bool_decide_eq_true. set_solver.
  - rewrite size_union, size_singleton by set_solver. rewrite (bu_noff _ _ _ _ H). lia.
Qed.
Lemma busy_unlocked u L w s p : busy u ({[p]} ∪ L) w s → p ∈ procs → p ∉ L → busy u L w (unlocked_at p s).
Proof.
  intros H Hp HL. unfold unlocked_at. eapply busy_relock; try done.
  - intros q _ Hq. set_solver.
  - symmetry. by apply bool_decide_eq_false.
  - rewrite (bu_noff _ _ _ _ H), size_union, size_singleton by set_solver. lia.
Qed.
Lemma wlp_busy_lock u L w p Q s :
  busy u L w s → p ∈ procs → (p ∉ L → busy u ({[p]} ∪ L) w (locked_at p s) → Q tt (locked_at p s)) → wlp (plock p) Q s.
Proof.
  intros H Hp HQ. apply wlp_plock. intros Hl. assert (p ∉ L). { rewrite (bu_locks _ _ _ _ H p Hp) in Hl. by apply bool_decide_eq_false in Hl. }
  apply HQ; [done|by apply busy_locked].
Qed.
Lemma wlp_busy_unlock u L w p Q s :
  busy u ({[p]} ∪ L) w s → p ∈ procs → p ∉ L → (busy u L w (unlocked_at p s) → Q tt (unlocked_at p s)) → wlp (punlock p) Q s.
Proof. intros H Hp HL HQ. apply wlp_punlock. intros _. by apply HQ, busy_unlocked. Qed.

Lemma wlp_wait_lock u L w Q s :
  busy u L w s → (busy u L true (set_k_wait_lock true (set_k_noff (k_noff s + 1) s)) → Q tt (set_k_wait_lock true (set_k_noff (k_noff s + 1) s))) →
  wlp (lock k_wait_lock set_k_wait_lock) Q s.
Proof.
  intros H HQ. unfold lock. wlp_step. rewrite wlp_modify, wlp_acquire. cbn. intros Hw. apply HQ. rewrite (bu_wait _ _ _ _ H) in Hw. subst w.
  destruct H as [[] ? ? ? ? Hn]. split; [split|..]; try done. cbn in *. lia.
Qed.
Lemma busy_wait_unlock u L s : busy u L true s → busy u L false (set_k_noff (k_noff s - 1) (set_k_wait_lock false s)).
Proof. intros [[] ? ? ? ? Hn]. split; [split|..]; try done. cbn in *. lia. Qed.
Lemma wlp_wait_unlock u L Q s :
  busy u L true s → (busy u L false (set_k_noff (k_noff s - 1) (set_k_wait_lock false s)) → Q tt (set_k_noff (k_noff s - 1) (set_k_wait_lock false s))) →
  wlp (unlock k_wait_lock set_k_wait_lock) Q s.
Proof. intros H HQ. unfold unlock. wlp_step. rewrite wlp_release, wlp_modify. intros _. by apply HQ, busy_wait_unlock. Qed.

(** ** [allocproc] *)

Lemma pid_taken_le s : 0 ≤ k_nextpid s < 2147483647 → k_nextpid (pid_taken s) = k_nextpid s + 1.
Proof. intros H. cbn. apply i32_small. lia. Qed.
Lemma core_pid_taken s : 0 ≤ k_nextpid s < 2147483647 → core s → core (pid_taken s).
Proof.
  intros Hn [? Hent]. split; try done. intros p Hp. destruct (Hent p Hp) as [H1 H2]. split; [done|]. intros H. specialize (H2 H).
  rewrite pid_taken_le by done. unfold getp in *. cbn in *. lia.
Qed.
Lemma busy_locks_free w s : busy 0 ∅ w s → free_locks s.
Proof. intros H p Hp. split; [by apply (co_some _ (bu_core _ _ _ _ H))|]. rewrite (bu_locks _ _ _ _ H p Hp). done. Qed.

Lemma busy_pid_taken u L w s : 0 ≤ k_nextpid s < 2147483647 → busy u L w s → busy u L w (pid_taken s).
Proof. intros Hn []. split; try done. by apply core_pid_taken. Qed.

(** An update of an entry whose lock is held or not, as it was. *)
Lemma busy_modp u u' L w s p g :
  busy u L w s → p ∈ procs → entry_ok (k_nextpid s) (g (getp p s)) →
  (live (g (getp p s)) → fresh_pid p (p_pid (g (getp p s))) s) →
  (p_parent (g (getp p s)) = p_parent (getp p s) ∨ p_parent (g (getp p s)) = 0 ∨
   p_parent (g (getp p s)) ∈ procs ∧ (p_parent (g (getp p s)) = p → alive (g (getp p s))) ∧ alive (getp (p_parent (g (getp p s))) s)) →
  (alive (getp p s) → needed p s → alive (g (getp p s))) →
  (p_state (g (getp p s)) = RUNNING ↔ p_state (getp p s) = RUNNING) →
  (u' = u ∨ u = p ∨ u = 0) → (p_state (g (getp p s)) = USED → p = u') → p_lock (g (getp p s)) = p_lock (getp p s) →
  busy u' L w (modp p g s).
Proof.
  intros H. intros. rewrite <-(set_k_noff_id (modp p g s) (k_noff s)) by done. eapply (busy_change u u' L L); try done.
  - by rewrite <-(bu_locks _ _ _ _ H) by done.
  - apply (bu_noff _ _ _ _ H).
Qed.

Lemma dead_not_needed p s : core s → p ∈ procs → ¬ alive (getp p s) → ¬ needed p s.
Proof.
  intros Hc Hp Hd [E|(q & Hq & E)]; apply Hd.
  - rewrite <-E. apply (co_init _ Hc).
  - destruct (co_parent _ Hc q Hq) as [_ H]; [|by rewrite E in H]. apply proc_pos in Hp. lia.
Qed.

(** The entry under construction, its lock held. *)
Record made (p : Z) s : Prop := {
  ma_in : p ∈ procs;
  ma_used : p_state (getp p s) = USED;
  ma_alone : ¬ needed p s;
  ma_busy : busy p {[p]} false s
}.

Lemma wlp_busy_allocproc Q s :
  pinv s → 0 < k_nextpid s < 2147483647 →
  (∀ s', pinv s' → Q 0 s') →
  (∀ p s', made p s' → k_cur s' = k_cur s → (∀ q, q ≠ p → getp q s' = getp q s) → Q p s') →
  wlp (allocproc trampoline forkret_addr) Q s.
Proof.
  intros H Hn H0 H1. pose proof (bu_core _ _ _ _ H) as Hc. apply wlp_allocproc.
  - by eapply busy_locks_free.
  - apply (bu_pid _ _ _ _ H).
  - by apply H0.
  - intros p v Hp Hu. apply H0. eapply busy_modp; try done.
    + apply busy_vm, busy_pid_taken; [lia|done].
    + by right; left.
    + intros [Ha _]. by destruct Ha.
    + change (UNUSED = RUNNING ↔ p_state (getp p s) = RUNNING). by rewrite Hu.
    + by left.
  - intros p v tf pt Hp Hu Htf Hpt. set (s1 := set_k_vm v (pid_taken s)).
    assert (¬ needed p s) as Hnd by (apply dead_not_needed; [done..|]; intros [Ha _]; done).
    assert (∀ q, q ≠ p → getp q (set_k_noff (k_noff s + 1) (modp p (λ x, set_lock true (new_entry (k_nextpid s) tf pt x)) s1)) = getp q s) as Hoth.
    { intros q Hq. by apply (getp_modp_ne p q _ s1). }
    apply H1; [|done|done]. 
    assert (getp p (set_k_noff (k_noff s + 1) (modp p (λ x, set_lock true (new_entry (k_nextpid s) tf pt x)) s1)) = set_lock true (new_entry (k_nextpid s) tf pt (getp p s))) as Hthis by exact (getp_modp_eq p _ s1).
    split.
    + done.
    + by rewrite Hthis.
    + intros [E|(q & Hq & E)]; apply Hnd; [by left|]. right. exists q. split; [done|]. destruct (decide (q = p)) as [->|]; [by rewrite Hthis in E|by rewrite Hoth in E].
    + unfold modp. eapply (busy_change 0 p ∅ {[p]} false s1); try done.
      * by apply busy_vm, busy_pid_taken; [lia|].
      * split; [done|]. intros _. unfold s1. cbn. rewrite i32_small by lia. lia.
      * intros _. apply (pid_new s); [done|]. cbn. lia.
      * by left.
      * unfold s1. change (USED = RUNNING ↔ p_state (getp p s) = RUNNING). by rewrite Hu.
      * by right; right.
      * intros q _ Hq. set_solver.
      * cbn. symmetry. apply bool_decide_eq_true. set_solver.
      * rewrite size_singleton. pose proof (bu_noff _ _ _ _ H) as E. rewrite size_empty in E. cbn in *. lia.
Qed.

(** ** The entry under construction *)

Lemma quiet_needed p q g s : quiet g → needed q (modp p g s) → needed q s.
Proof.
  intros Hg [E|(r & Hr & E)]; [by left|right]. exists r. split; [done|].
  destruct (decide (r = p)) as [->|]; [|by rewrite getp_modp_ne in E]. rewrite getp_modp_eq in E. by destruct (Hg (getp p s)) as (_ & _ & _ & <-).
Qed.
Lemma made_live p s : made p s → live (getp p s).
Proof. intros H. unfold live. by rewrite (ma_used _ _ H). Qed.
Lemma made_quiet p g s : quiet g → made p s → made p (modp p g s).
Proof.
  intros Hg H. destruct H as [Hp Hu Hn Hb] eqn:EH. split; [done| | |].
  - rewrite getp_modp_eq. destruct (Hg (getp p s)) as (_ & -> & _). done.
  - intros H'. by apply Hn, (quiet_needed p p g).
  - apply busy_quiet; [done..| |done]. by apply made_live.
Qed.
Lemma made_vm p v s : made p s → made p (set_k_vm v s).
Proof. intros [Hp Hu Hn Hb]. split; try done. by apply busy_vm. Qed.
Lemma made_files p v s : made p s → made p (set_k_files v s).
Proof. intros [Hp Hu Hn Hb]. split; try done. by apply busy_files. Qed.

Lemma wlp_upd_quiet p g Q s : quiet g → made p s → (made p (modp p g s) → Q tt (modp p g s)) → wlp (upd p g) Q s.
Proof. intros Hg H HQ. apply wlp_upd, HQ. by apply made_quiet. Qed.

Lemma unlock_made p s : busy 0 {[p]} false s → p ∈ procs → pinv (unlocked_at p s).
Proof. intros H Hp. apply busy_unlocked; [|done|set_solver]. by rewrite union_empty_r_L. Qed.

Lemma wlp_free_made {A} (r : A) p Q s : made p s → (∀ s', pinv s' → Q r s') → wlp (freeproc p;; punlock p;; mret r) Q s.
Proof.
  intros [Hp Hu Hn Hb] HQ. wlp_step. apply wlp_freeproc. intros v. cbv beta. wlp_step. apply wlp_punlock. intros _. cbv beta. wlp_step.
  apply HQ. apply unlock_made; [|done]. eapply busy_modp; try done.
  - by apply busy_vm.
  - by right; left.
  - change (UNUSED = RUNNING ↔ p_state (getp p s) = RUNNING). by rewrite Hu.
  - by right; left.
Qed.

(** Making it runnable ends its construction. *)
Lemma busy_runnable p s : busy p {[p]} false s → p ∈ procs → p_state (getp p s) = USED → busy 0 {[p]} false (modp p (set_state RUNNABLE) s).
Proof.
  intros Hb Hp Hu. pose proof (bu_core _ _ _ _ Hb) as Hc. assert (live (getp p s)) as Hlv by (unfold live; by rewrite Hu).
  eapply busy_modp; try done.
  - by apply (entry_live s p).
  - intros _. by apply pid_kept.
  - by left.
  - cbn. by rewrite Hu.
  - by right; left.
Qed.

Lemma wlp_kfork_files p np Q s :
  made np s → (∀ s', made np s' → k_cur s' = k_cur s → Q tt s') → wlp (kfork_files p np) Q s.
Proof.
  intros Hm HQ. apply (wlp_for_each (λ _ s', made np s' ∧ k_cur s' = k_cur s)); [done| |naive_solver].
  intros _ i _ s' _ [Hm' Hc]. wlp_step. wlp_step. destruct (negb _); [|done]. wlp_step. apply wlp_fileop. intros f v. cbv beta.
  apply (wlp_upd_quiet np); [done|by apply made_files|]. done.
Qed.

Lemma cur_alive u L w s : busy u L w s → k_cur s ≠ 0 → k_cur s ∈ procs ∧ alive (getp (k_cur s) s) ∧ p_state (getp (k_cur s) s) = RUNNING.
Proof.
  intros H Hc. pose proof (bu_core _ _ _ _ H) as Hcore. pose proof (co_cur _ Hcore Hc) as Hp.
  assert (p_state (getp (k_cur s) s) = RUNNING) as E by by apply (co_run _ Hcore). unfold alive. by rewrite E.
Qed.

(** The end of [kfork]: the child gets its parent and may run. *)
Lemma wlp_publish {A} (r : A) p np Q s :
  made np s → k_cur s = p → p ≠ 0 → (∀ s', pinv s' → Q r s') →
  wlp (punlock np;; lock k_wait_lock set_k_wait_lock;; upd np (set_parent p);; unlock k_wait_lock set_k_wait_lock;;
       plock np;; upd np (set_state RUNNABLE);; punlock np;; mret r) Q s.
Proof.
  intros [Hp Hu Hn Hb] Hc Hc0 HQ. wlp_step. apply (wlp_busy_unlock np ∅ false); [by rewrite union_empty_r_L|done|set_solver|]. intros Hb1. cbv beta.
  set (s1 := unlocked_at np s) in *. assert (p_state (getp np s1) = USED) as Hu1 by (by rewrite <-Hu; apply state_unlocked).
  wlp_step. apply (wlp_wait_lock np ∅ false); [done|]. intros Hb2. cbv beta. set (s2 := set_k_wait_lock true (set_k_noff (k_noff s1 + 1) s1)) in *. change (getp np s1) with (getp np s2) in Hu1.
  destruct (cur_alive np ∅ true s2 Hb2) as (Hcp & Hca & Hcr); [by change (k_cur s ≠ 0); rewrite Hc|]. change (k_cur s2) with (k_cur s) in *. rewrite Hc in *.
  wlp_step. apply wlp_upd. cbv beta.
  assert (busy np ∅ true (modp np (set_parent p) s2)) as Hb3.
  { eapply busy_modp; try done.
    - apply (entry_live s2 np); [apply (bu_core _ _ _ _ Hb2)|done| |..|done]; unfold live; cbn; by rewrite Hu1.
    - intros Hl. by apply pid_kept; [apply (bu_core _ _ _ _ Hb2)|..].
    - right; right. split; [done|]. split; [|done]. cbn. intros ->. congruence.
    - by left. }
  wlp_step. apply (wlp_wait_unlock np ∅); [done|]. intros Hb4. cbv beta.
  set (s3 := set_k_noff _ _) in Hb4 |- *. assert (p_state (getp np s3) = USED) as Hu3.
  { change (p_state (getp np (modp np (set_parent p) s2)) = USED). by rewrite getp_modp_eq. }
  wlp_step. apply (wlp_busy_lock np ∅ false); [done|done|]. intros _ Hb5. cbv beta. wlp_step. apply wlp_upd. cbv beta.
  wlp_step. apply wlp_punlock. intros _. cbv beta. wlp_step. apply HQ. apply unlock_made; [|done].
  apply busy_runnable; [by rewrite union_empty_r_L in Hb5|done|]. by rewrite state_locked.
Qed.

Lemma wlp_kfork Q s :
  pinv s → k_cur s ≠ 0 → 0 < k_nextpid s < 2147483647 → (∀ r s', pinv s' → Q r s') → wlp (kfork trampoline forkret_addr) Q s.
Proof.
  intros H Hcur Hn HQ. unfold kfork, myproc. do 7 wlp_step.
  apply wlp_busy_allocproc; [done|done| |].
  { intros s' H'. cbv beta. cbn [Z.eqb]. rewrite wlp_ret. by apply HQ. }
  intros np s1 Hm Hc1 Hoth. cbv beta. pose proof (proc_pos np (ma_in _ _ Hm)). destruct (Z.eqb_spec np 0); [lia|].
  do 2 wlp_step. wlp_step. apply wlp_vm. intros r v. cbv beta. destruct (r <? 0).
  { eapply wlp_free_made; [by apply made_vm|]. intros. by apply HQ. }
  wlp_step. apply (wlp_upd_quiet np); [done|by apply made_vm|]. clear Hm. intros Hm. cbv beta. do 2 wlp_step.
  wlp_step. apply wlp_vm. intros ? v2. cbv beta. wlp_step. apply wlp_vm. intros ? v3. cbv beta. apply (made_vm _ v2) in Hm. apply (made_vm _ v3) in Hm.
  do 5 (wlp_step; apply (wlp_upd_quiet np); [done|done|]; clear Hm; intros Hm; cbv beta).
  wlp_step. apply wlp_kfork_files; [done|]. clear Hm. intros s2 Hm Hc2. cbv beta.
  wlp_step. apply wlp_fsys. intros cwd v4. cbv beta. apply (made_files _ v4) in Hm.
  do 2 (wlp_step; apply (wlp_upd_quiet np); [done|done|]; clear Hm; intros Hm; cbv beta).
  do 2 wlp_step. apply wlp_publish; [done| |done|by apply HQ]. cbn in *. congruence.
Qed.

Lemma wlp_kthread_create f arg name Q s :
  pinv s → 0 < k_nextpid s < 2147483647 → (∀ r s', pinv s' → Q r s') →
  wlp (kthread_create trampoline forkret_addr kthread_entry_addr f arg name) Q s.
Proof.
  intros H Hn HQ. unfold kthread_create. wlp_step. apply wlp_busy_allocproc; [done|done| |].
  { intros s' H'. cbv beta. cbn [Z.eqb]. rewrite wlp_ret. by apply HQ. }
  intros np s1 Hm _ _. cbv beta. pose proof (proc_pos np (ma_in _ _ Hm)). destruct (Z.eqb_spec np 0); [lia|].
  do 5 (wlp_step; apply (wlp_upd_quiet np); [done|done|]; clear Hm; intros Hm; cbv beta).
  do 2 wlp_step. wlp_step. apply wlp_vm. intros ? v. cbv beta. apply (made_vm _ v) in Hm. do 2 wlp_step.
  wlp_step; apply (wlp_upd_quiet np); [done|done|]; clear Hm; intros Hm; cbv beta.
  upd_step. wlp_step. apply wlp_punlock. intros _. cbv beta. wlp_step. apply HQ. destruct Hm. apply unlock_made; [|done]. by apply busy_runnable.
Qed.

(** ** Changes of other processes' entries *)

(** What other processes do to an entry: they wake it or mark it. *)
Definition gentle (x y : proc) : Prop :=
  p_lock y = p_lock x ∧ p_pid y = p_pid x ∧ p_parent y = p_parent x ∧
  p_trapframe y = p_trapframe x ∧ p_pagetable y = p_pagetable x ∧ p_sz y = p_sz x ∧ p_chan y = p_chan x ∧
  (p_state y = p_state x ∨ p_state x = SLEEPING ∧ p_state y = RUNNABLE).

Lemma busy_gentle u L w s p g : busy u L w s → p ∈ procs → gentle (getp p s) (g (getp p s)) → busy u L w (modp p g s).
Proof.
  intros H Hp (H1 & H2 & H3 & H4 & H5 & H6 & H7 & H8). pose proof (bu_core _ _ _ _ H) as Hc. destruct (co_entry _ Hc p Hp) as [He1 He2].
  assert (live (g (getp p s)) ↔ live (getp p s)) as Hlv by (unfold live; destruct H8 as [->|[-> ->]]; done).
  eapply busy_modp; try done; rewrite ?H1, ?H2, ?H3; try done.
  - split; [rewrite H2, H3, H4, H5, H6, H7|by rewrite H2, Hlv]. by destruct H8 as [->|[? ->]].
  - rewrite Hlv. by apply pid_kept.
  - by left.
  - unfold alive. destruct H8 as [->|[? ->]]; done.
  - by destruct H8 as [->|[-> ->]].
  - by left.
  - destruct H8 as [->|[? ->]]; [by apply (bu_used _ _ _ _ H)|done].
Qed.

(** Who is whose parent, and who runs, is as before. *)
Definition kept s s' : Prop :=
  k_cur s' = k_cur s ∧ k_initproc s' = k_initproc s ∧ k_nextpid s' = k_nextpid s ∧ ∀ q, p_parent (getp q s') = p_parent (getp q s).

Lemma kept_refl s : kept s s.
Proof. done. Qed.
Lemma kept_trans s1 s2 s3 : kept s1 s2 → kept s2 s3 → kept s1 s3.
Proof. intros (H1 & H2 & H3 & H4) (G1 & G2 & G3 & G4). split_and!; try congruence. Qed.
Lemma kept_modp p g s : (∀ x, p_parent (g x) = p_parent x) → kept s (modp p g s).
Proof. intros Hg. split_and!; try done. intros q. destruct (decide (q = p)) as [->|]; [by rewrite getp_modp_eq|by rewrite getp_modp_ne]. Qed.

(** A visit of one entry under its lock. *)
Lemma wlp_visit {A} p (m : M (kern V T K) A) Q L w s :
  busy 0 L w s → p ∈ procs →
  (∀ s1, busy 0 ({[p]} ∪ L) w s1 → p ∉ L → kept s s1 → getp p s1 = set_lock true (getp p s) → wlp m Q s1) →
  wlp (plock p;; m) Q s.
Proof.
  intros H Hp HQ. wlp_step. eapply wlp_busy_lock; [done|done|]. intros HL Hb. cbv beta. apply HQ; [done|done| |].
  - by apply (kept_modp p (set_lock true) (set_k_noff (k_noff s + 1) s)).
  - apply (getp_modp_eq p (set_lock true) (set_k_noff (k_noff s + 1) s)).
Qed.
Lemma wlp_leave {A} p (m : M (kern V T K) A) Q L w s :
  busy 0 ({[p]} ∪ L) w s → p ∈ procs → p ∉ L →
  (∀ s1, busy 0 L w s1 → kept s s1 → wlp m Q s1) →
  wlp (punlock p;; m) Q s.
Proof.
  intros H Hp HL HQ. wlp_step. eapply wlp_busy_unlock; [done|done|done|]. intros Hb. cbv beta. apply HQ; [done|].
  by apply (kept_modp p (set_lock false) s).
Qed.
Lemma wlp_leave_last p (Q : unit → kern V T K → Prop) L w s :
  busy 0 ({[p]} ∪ L) w s → p ∈ procs → p ∉ L → (∀ s1, busy 0 L w s1 → kept s s1 → Q tt s1) → wlp (punlock p) Q s.
Proof.
  intros H Hp HL HQ. eapply wlp_busy_unlock; [done|done|done|]. intros Hb. apply HQ; [done|]. by apply (kept_modp p (set_lock false) s).
Qed.

Lemma wlp_wakeup chan Q w s : busy 0 ∅ w s → (∀ s', busy 0 ∅ w s' → kept s s' → Q tt s') → wlp (wakeup chan) Q s.
Proof.
  intros H HQ. apply (wlp_for_each (λ _ s', busy 0 ∅ w s' ∧ kept s s')); [done| |naive_solver].
  intros ds p rest s' Hl [Hb Hk]. assert (p ∈ procs) as Hp by (rewrite Hl; set_solver). unfold myproc. do 2 wlp_step.
  destruct (negb _); [|done]. eapply wlp_visit; [done|done|]. intros s1 Hb1 HL Hk1 E1. do 2 wlp_step.
  assert (∀ s2, busy 0 ({[p]} ∪ ∅) w s2 → kept s1 s2 → wlp (punlock p) (λ _ s', busy 0 ∅ w s' ∧ kept s s') s2) as Hend.
  { intros s2 Hb2 Hk2. eapply wlp_leave_last; [done..|]. intros s3 Hb3 Hk3. split; [done|]. by repeat (eapply kept_trans; [eassumption|]). }
  wlp_step. destruct (bool_decide_reflect (p_state (getp p s1) = SLEEPING)) as [Hs|]; cbn [andb]; [|by apply Hend].
  destruct (p_chan (getp p s1) =? chan); [|by apply Hend]. apply wlp_upd. cbv beta. apply Hend; [|by apply kept_modp].
  apply busy_gentle; [done|done|]. split_and!; try done. by right.
Qed.

Lemma wlp_kkill pid signum Q s : pinv s → (∀ r s', pinv s' → kept s s' → Q r s') → wlp (kkill pid signum) Q s.
Proof.
  intros H HQ. unfold kkill. destruct (_ || _); [by apply HQ|]. wlp_step.
  assert (∀ r s', pinv s' → kept s s' → wlp (mret (default (-1) r)) Q s') as HQ' by (intros; rewrite wlp_ret; auto).
  apply (wlp_for_ret (λ _ s', pinv s' ∧ kept s s')); [done| |naive_solver].
  intros ds p rest s' Hl [Hb Hk]. assert (p ∈ procs) as Hp by (rewrite Hl; set_solver).
  eapply wlp_visit; [done|done|]. intros s1 Hb1 HL Hk1 E1. do 2 wlp_step. destruct (_ =? _).
  2: { eapply wlp_leave; [done..|]. intros s2 Hb2 Hk2. rewrite wlp_ret. split; [done|]. by repeat (eapply kept_trans; [eassumption|]). }
  wlp_step. assert (∀ s2, busy 0 ({[p]} ∪ ∅) false s2 → kept s s2 → p_state (getp p s2) = p_state (getp p s1) →
    wlp ((if bool_decide (p_state (getp p s1) = SLEEPING) then upd p (set_state RUNNABLE) else mret tt);; punlock p;; mret (Some 0))
    (λ r s'', match r with Some b => wlp (mret (default (-1) (Some b))) Q s'' | None => pinv s'' ∧ kept s s'' end) s2) as Hend.
  { intros s2 Hb2 Hk2 E2. wlp_step. destruct (bool_decide_reflect (p_state (getp p s1) = SLEEPING)).
    - apply wlp_upd. cbv beta. eapply wlp_leave; [|done|done|].
      + apply busy_gentle; [done|done|]. split_and!; try done. right. by rewrite E2.
      + intros s3 Hb3 Hk3. rewrite wlp_ret. apply (HQ' (Some 0)); [done|]. eapply kept_trans; [done|]. eapply kept_trans; [|done]. by apply kept_modp.
    - rewrite wlp_ret. eapply wlp_leave; [done..|]. intros s3 Hb3 Hk3. apply (HQ' (Some 0)); [done|]. by eapply kept_trans. }
  assert (∀ g, gentle (getp p s1) (g (getp p s1)) → (∀ x, p_parent (g x) = p_parent x) → (∀ x, p_state (g x) = p_state x) →
    busy 0 ({[p]} ∪ ∅) false (modp p g s1) ∧ kept s (modp p g s1) ∧ p_state (getp p (modp p g s1)) = p_state (getp p s1)) as Hg.
  { intros g Hg Hpar Hst. split_and!.
    - by apply busy_gentle.
    - eapply kept_trans; [done|]. eapply kept_trans; [done|]. by apply kept_modp.
    - by rewrite getp_modp_eq. }
  destruct (signum =? SIGKILL); apply wlp_upd; cbv beta; apply Hend; apply Hg; try done; split_and!; try done; by left.
Qed.

Lemma wlp_killed p Q w s : busy 0 ∅ w s → p ∈ procs → (∀ r s', busy 0 ∅ w s' → kept s s' → Q r s') → wlp (killed p) Q s.
Proof.
  intros H Hp HQ. eapply wlp_visit; [done|done|]. intros s1 Hb1 HL Hk1 E1. do 2 wlp_step. eapply wlp_leave; [done..|]. intros s2 Hb2 Hk2.
  apply HQ; [done|]. by eapply kept_trans.
Qed.
Lemma wlp_setkilled p Q s : pinv s → p ∈ procs → (∀ s', pinv s' → Q tt s') → wlp (setkilled p) Q s.
Proof.
  intros H Hp HQ. eapply wlp_visit; [done|done|]. intros s1 Hb1 HL Hk1 E1. upd_step. eapply wlp_leave_last; [|done|done|by intros; apply HQ].
  apply busy_gentle; [done|done|]. split_and!; try done. by left.
Qed.

(** ** Leaving the hart *)

Lemma core_off s p x :
  core s → k_cur s = p → p ≠ 0 → live x → p_state x ≠ RUNNING → p_pid x = p_pid (getp p s) → p_parent x = p_parent (getp p s) →
  (p_state x = ZOMBIE → ¬ needed p s) → core (set_k_cur 0 (putp p x s)).
Proof.
  intros Hc Hcur Hp0 Hlx Hr Epid Epar Hz. subst p. pose proof (co_cur _ Hc Hp0) as Hp. set (p := k_cur s) in *.
  assert (p_state (getp p s) = RUNNING) as Erun by by apply (co_run _ Hc). assert (live (getp p s)) as Hlv by (unfold live; by rewrite Erun).
  eapply (core_put s _ p x); try done.
  - by apply (entry_live s p).
  - intros _. rewrite Epid. by apply pid_kept.
  - by left.
  - intros _ Hn. split; [done|]. intros E. by apply Hz.
  - intros q Hq Hne. cbn. pose proof (proc_pos q Hq). pose proof (co_run _ Hc q Hq) as Hrun. fold p in Hrun. rewrite Hrun. lia.
Qed.

(** The hart turns to [c] as an entry changes. *)
Lemma busy_turn L w s p x c :
  busy 0 L w s → p ∈ procs → core (set_k_cur c (putp p x s)) → p_state x ≠ USED → p_lock x = p_lock (getp p s) →
  busy 0 L w (set_k_cur c (putp p x s)).
Proof.
  intros [Hc Hu Hl Hw Hpl Hn] Hp Hc' Hx El.
  assert (∀ q, getp q (set_k_cur c (putp p x s)) = if decide (q = p) then x else getp q s) as Hg.
  { intros q. unfold getp, putp. cbn. destruct (decide (q = p)) as [->|]; [by rewrite lookup_insert_eq|by rewrite lookup_insert_ne]. }
  split; try done; intros q Hq; rewrite Hg; destruct (decide (q = p)) as [->|]; try done; auto. rewrite El. auto.
Qed.

Lemma busy_off L w s p x :
  busy 0 L w s → k_cur s = p → p ≠ 0 → p_state x = SLEEPING ∨ p_state x = RUNNABLE ∨ p_state x = ZOMBIE ∧ ¬ needed p s →
  p_pid x = p_pid (getp p s) → p_parent x = p_parent (getp p s) → p_lock x = p_lock (getp p s) → busy 0 L w (set_k_cur 0 (putp p x s)).
Proof.
  intros H Hcur Hp0 Hst Epid Epar El. pose proof (bu_core _ _ _ _ H) as Hc. pose proof (co_cur _ Hc) as Hp. rewrite Hcur in Hp. specialize (Hp Hp0).
  apply busy_turn; try done; [|by destruct Hst as [->|[->|[-> ?]]]].
  apply core_off; try done; unfold live; destruct Hst as [->|[->|[-> ?]]]; done.
Qed.

(** The switch, from an entry [x] of the running process written over [s]. *)
Lemma wlp_switch_out p g Q s :
  busy 0 {[p]} false s → k_cur s = p → p ≠ 0 → p_state (g (getp p s)) = SLEEPING ∨ p_state (g (getp p s)) = RUNNABLE ∨ p_state (g (getp p s)) = ZOMBIE ∧ ¬ needed p s →
  (∀ x, p_pid (g x) = p_pid x ∧ p_parent (g x) = p_parent x ∧ p_lock (g x) = p_lock x) → (∀ s', pinv s' → Q tt s') →
  wlp switch_out Q (modp p g s).
Proof.
  intros H Hcur Hp0 Hst Hg HQ. pose proof (co_cur _ (bu_core _ _ _ _ H)) as Hp. rewrite Hcur in Hp. specialize (Hp Hp0).
  unfold switch_out, sched_checks, myproc. repeat wlp_step. apply wlp_punlock. intros _.
  change (k_cur (modp p g s)) with (k_cur s). rewrite Hcur. apply HQ. apply (unlock_made p (set_k_cur 0 (modp p g s))); [|done].
  destruct (Hg (getp p s)) as (H3 & H4 & H5). by apply busy_off.
Qed.

Lemma wlp_yield_out Q s : pinv s → k_cur s ≠ 0 → (∀ s', pinv s' → Q tt s') → wlp yield_out Q s.
Proof.
  intros H Hc HQ. destruct (cur_alive _ _ _ _ H Hc) as (Hp & _). unfold yield_out, myproc. do 2 wlp_step.
  eapply wlp_visit; [done|done|]. intros s1 Hb1 _ (Hk1 & _) E1. upd_step. rewrite union_empty_r_L in Hb1. apply wlp_switch_out; try done. by right; left.
Qed.

(** The lock of [sleep]'s condition is outside the process table and the table
    of open files. *)
Definition outer (set : bool → kern V T K → kern V T K) : Prop :=
  ∃ h j, ∀ b s, set b s = set_k_files (h b s) (set_k_vm (j b s) s) ∧ ft_file (h b s) = ft_file (k_files s).

Lemma wlp_sleep_outer chan get set Q s :
  pinv s → k_cur s ≠ 0 → outer set → (∀ s', pinv s' → Q tt s') → wlp (lock get set;; sleep_on chan get set) Q s.
Proof.
  intros H Hc (h & j & Hset') HQ. assert (∀ b s, set b s = set_k_files (h b s) (set_k_vm (j b s) s)) as Hset by (intros; apply Hset'). clear Hset'. destruct (cur_alive _ _ _ _ H Hc) as (Hp & _). unfold sleep_on, myproc, lock, unlock, plock.
  rewrite !wlp_bind, wlp_modify, wlp_acquire. intros _. do 2 wlp_step. wlp_step. apply wlp_plock. intros Hl.
  cbv beta. wlp_step. wlp_step. wlp_step. wlp_step. do 2 upd_step.
  rewrite !Hset. rewrite modp_modp. change (k_cur (set_k_files ?f (set_k_vm ?v (set_k_noff ?n s)))) with (k_cur s).
  pose proof (busy_locked _ _ _ s (k_cur s) H Hp) as Hb. rewrite union_empty_r_L in Hb. specialize (Hb ltac:(set_solver)).
  apply wlp_switch_out; try done; [|by left].
  destruct Hb as [[] ? ? ? ? Hn]. split; [split|..]; try done. cbn in Hn |- *. lia.
Qed.

Context (proc_addr : Z → Z).

(** [reparent] leaves no child of [p]; [p] is alive and is not [init]. *)
Lemma wlp_reparent p Q s :
  busy 0 ∅ true s → p ∈ procs → p ≠ k_initproc s →
  (∀ s', busy 0 ∅ true s' → k_cur s' = k_cur s → k_initproc s' = k_initproc s → (∀ q, q ∈ procs → p_parent (getp q s') ≠ p) → Q tt s') →
  wlp (reparent proc_addr p) Q s.
Proof.
  intros H Hp Hi HQ.
  apply (wlp_for_each (λ ds s', busy 0 ∅ true s' ∧ k_cur s' = k_cur s ∧ k_initproc s' = k_initproc s ∧ ∀ q, q ∈ ds → p_parent (getp q s') ≠ p)).
  - split_and!; try done. intros q Hq. set_solver.
  - intros ds pp rest s' Hl (Hb & Hc & Hin & Hd). assert (pp ∈ procs) as Hpp by (rewrite Hl; set_solver). do 2 wlp_step.
    destruct (Z.eqb_spec (p_parent (getp pp s')) p) as [E|E].
    + do 2 wlp_step. upd_step. pose proof (bu_core _ _ _ _ Hb) as Hcore. eapply wlp_wakeup.
      * eapply (busy_modp 0 0 _ _ s' pp); try done.
        { destruct (co_entry _ Hcore pp Hpp) as [H1 H2]. split; [|done]. cbn. intros Hu. apply H1 in Hu. apply proc_pos in Hp. lia. }
        { intros Hlv. by apply (pid_kept s' pp). }
        { cbn. right; right. split_and!; [apply (co_init _ Hcore)| |apply (co_init _ Hcore)].
          cbn. intros <-. apply (co_init _ Hcore). }
        { by left. }
        { apply (bu_used _ _ _ _ Hb pp Hpp). }
      * intros s2 Hb2 (Hk1 & Hk2 & Hk3 & Hk4). split_and!; try done; [by rewrite Hk1|by rewrite Hk2|].
        intros q Hq. rewrite Hk4. destruct (decide (q = pp)) as [->|Hne]; [rewrite getp_modp_eq; cbn; congruence|].
        rewrite getp_modp_ne by done. apply Hd. set_solver.
    + rewrite wlp_ret. split_and!; try done. intros q Hq. apply elem_of_app in Hq as [Hq|Hq%list_elem_of_singleton]; [by apply Hd|by subst].
  - intros s' (Hb & Hc & Hin & Hd). by apply HQ.
Qed.

Lemma pinv_quiet_cur g s : pinv s → k_cur s ≠ 0 → quiet g → pinv (modp (k_cur s) g s).
Proof. intros H Hc Hg. destruct (cur_alive _ _ _ _ H Hc) as (Hp & [Hl _] & _). by apply busy_quiet. Qed.

Lemma wlp_kexit_files Q s :
  pinv s → k_cur s ≠ 0 → (∀ s', pinv s' → k_cur s' = k_cur s → k_initproc s' = k_initproc s → Q tt s') → wlp (kexit_files (k_cur s)) Q s.
Proof.
  intros H Hc HQ. apply (wlp_for_each (λ _ s', pinv s' ∧ k_cur s' = k_cur s ∧ k_initproc s' = k_initproc s)); [done| |intros s' (? & ? & ?); by apply HQ].
  intros _ i _ s' _ (H' & Hc' & Hi'). do 2 wlp_step. destruct (negb _); [|done]. do 2 wlp_step. wlp_step. apply wlp_fileop. intros ? v. cbv beta. apply wlp_upd. cbv beta.
  split; [|done]. rewrite <-Hc'. apply (pinv_quiet_cur _ (set_k_files v s')); [by apply busy_files|by rewrite <-Hc' in Hc|done].
Qed.

Lemma wlp_kexit status Q s : pinv s → k_cur s ≠ 0 → (∀ s', pinv s' → Q tt s') → wlp (kexit proc_addr status) Q s.
Proof.
  intros H Hc HQ. unfold kexit, myproc. do 4 wlp_step. wlp_step. rewrite wlp_panic_if. intros Hi%Z.eqb_neq. wlp_step.
  apply wlp_kexit_files; [done|done|]. clear H. intros s1 H Hc1 Hi1. cbv beta. do 2 wlp_step. rewrite <-Hc1, <-Hi1 in *.
  do 3 (wlp_step; apply wlp_fsys; intros ? ?; cbv beta). 
  match goal with |- wlp _ _ ?s => set (s2 := s) end. assert (pinv s2) as H2 by by repeat apply busy_files.
  change (k_cur s1) with (k_cur s2) in *. change (k_initproc s1) with (k_initproc s2) in *. clearbody s2. clear H Hc1 Hi1.
  upd_step. wlp_step. eapply wlp_wait_lock; [by apply pinv_quiet_cur|]. intros Hb3. cbv beta. destruct (cur_alive _ _ _ _ H2 Hc) as (Hp & _ & _).
  wlp_step. apply wlp_reparent; [done|done|done|]. intros s4 Hb4 Hc4 Hi4 Hd. cbv beta. change (k_cur s4 = k_cur s2) in Hc4. change (k_initproc s4 = k_initproc s2) in Hi4.
  do 2 wlp_step. wlp_step. eapply wlp_wakeup; [done|]. intros s5 Hb5 (Hk1 & Hk2 & _ & Hk4). cbv beta.
  rewrite <-Hc4, <-Hk1 in *. rewrite <-Hi4, <-Hk2 in *. 
  assert (¬ needed (k_cur s5) s5) as Hnd. { intros [E|(q & Hq & E)]; [by rewrite E in Hi|]. rewrite Hk4 in E. by apply (Hd q). }
  eapply wlp_visit; [done|done|]. intros s6 Hb6 _ (Hj1 & Hj2 & _ & Hj4) E6. do 2 upd_step. rewrite modp_modp.
  rewrite union_empty_r_L in Hb6. rewrite <-Hj1 in *. wlp_step. unfold unlock. wlp_step. rewrite wlp_release, wlp_modify. intros _.
  apply (wlp_switch_out (k_cur s6) (λ x, set_state ZOMBIE (set_xstate status x)) Q (set_k_noff (k_noff s6 - 1) (set_k_wait_lock false s6))); try done.
  - by apply busy_wait_unlock.
  - right; right. split; [done|]. intros [E|(q & Hq & E)]; apply Hnd; [left; by rewrite <-E|right]. exists q. split; [done|]. by rewrite <-Hj4.
Qed.

(** ** [wait] *)

Lemma wlp_sleep_wait chan Q s :
  busy 0 ∅ true s → k_cur s ≠ 0 → (∀ s', pinv s' → Q tt s') → wlp (sleep_on chan k_wait_lock set_k_wait_lock) Q s.
Proof.
  intros H Hc HQ. destruct (cur_alive _ _ _ _ H Hc) as (Hp & _). unfold sleep_on, myproc. do 2 wlp_step.
  eapply wlp_visit; [done|done|]. intros s1 Hb1 _ (Hk1 & _) E1. wlp_step. eapply wlp_wait_unlock; [done|]. intros Hb2. cbv beta.
  do 2 upd_step. rewrite modp_modp. rewrite union_empty_r_L in Hb2. apply wlp_switch_out; try done. by left.
Qed.

(** Leaving [wait] with the locks of the child and of [wait]. *)
Lemma wlp_wait_leave {A} (r : A) pp Q s :
  busy 0 ({[pp]} ∪ ∅) true s → pp ∈ procs → (∀ s', pinv s' → Q r s') → wlp (punlock pp;; unlock k_wait_lock set_k_wait_lock;; mret r) Q s.
Proof.
  intros H Hp HQ. eapply wlp_leave; [done|done|set_solver|]. intros s1 Hb1 _. wlp_step. eapply wlp_wait_unlock; [done|]. intros Hb2. cbv beta. wlp_step. by apply HQ.
Qed.

Context (xstate_addr : Z → Z).

Lemma wlp_reap p pp addr Q s :
  busy 0 ({[pp]} ∪ ∅) true s → pp ∈ procs → p_state (getp pp s) = ZOMBIE → (∀ r s', pinv s' → Q r s') → wlp (reap xstate_addr p pp addr) Q s.
Proof.
  intros H Hp Hz HQ. unfold reap. do 4 wlp_step.
  assert (∀ r v, wlp (if r <? 0 then punlock pp;; unlock k_wait_lock set_k_wait_lock;; mret (-1)
    else freeproc pp;; punlock pp;; unlock k_wait_lock set_k_wait_lock;; mret (p_pid (getp pp s))) Q (set_k_vm v s)) as Hr.
  { intros r v. destruct (r <? 0); [by apply wlp_wait_leave; [apply busy_vm|..|auto]|].
    wlp_step. apply wlp_freeproc. intros v2. cbv beta. apply wlp_wait_leave; [|done|auto]. eapply busy_modp; try done.
    - by do 2 apply busy_vm.
    - by right; left.
    - intros [_ Ha]. by destruct Ha.
    - change (UNUSED = RUNNING ↔ p_state (getp pp s) = RUNNING). by rewrite Hz.
    - by left. }
  wlp_step. destruct (negb _).
  - apply wlp_vm. intros r v. apply Hr.
  - rewrite wlp_ret. specialize (Hr 0 (k_vm s)). by rewrite set_k_vm_id in Hr.
Qed.

Lemma wlp_kwait_scan p addr Q s :
  busy 0 ∅ true s → (∀ r s', pinv s' → Q (inl r) s') → (∀ b s', busy 0 ∅ true s' → k_cur s' = k_cur s → Q (inr b) s') → wlp (kwait_scan xstate_addr p addr) Q s.
Proof.
  clear proc_addr. intros H HQ1 HQ2. unfold kwait_scan.
  apply (wlp_loop (λ x s', busy 0 ∅ true s' ∧ k_cur s' = k_cur s ∧ ∀ q, q ∈ x.1 → q ∈ procs)); [done|].
  intros [[|pp l] hk] s' (Hb & Hc & Hl); [by apply HQ2|]. assert (pp ∈ procs) as Hpp by (apply Hl; set_solver).
  assert (∀ q, q ∈ l → q ∈ procs) as Hl' by (intros; apply Hl; set_solver). do 2 wlp_step. destruct (_ =? p); [|done].
  eapply wlp_visit; [done|done|]. intros s1 Hb1 _ (Hk1 & _) E1. do 2 wlp_step. destruct (bool_decide_reflect (p_state (getp pp s1) = ZOMBIE)).
  - wlp_step. apply wlp_reap; [done..|]. intros r s2 H2. rewrite wlp_ret. by apply HQ1.
  - eapply wlp_leave; [done..|]. intros s2 Hb2 (Hj1 & _). rewrite wlp_ret. split_and!; [done|congruence|done].
Qed.

Lemma wlp_kwait_iter addr Q s :
  busy 0 ∅ true s → k_cur s ≠ 0 → (∀ r s', pinv s' → Q r s') → wlp (kwait_iter proc_addr xstate_addr addr) Q s.
Proof.
  intros H Hc HQ. unfold kwait_iter, myproc. do 2 wlp_step. wlp_step. apply wlp_kwait_scan; [done|by intros; apply HQ|]. intros b s1 Hb1 Hc1. cbv beta. rewrite <-Hc1 in *.
  destruct (cur_alive _ _ _ _ Hb1 Hc) as (Hp & _).
  assert (∀ k s2, busy 0 ∅ true s2 → k_cur s2 = k_cur s1 → wlp (if negb (k =? 0) then unlock k_wait_lock set_k_wait_lock;; mret (Done (-1))
    else sleep_on (chan_of proc_addr (k_cur s1)) k_wait_lock set_k_wait_lock;; mret (Sleep 0)) Q s2) as Hk.
  { intros k s2 Hb2 Hc2. destruct (negb _); wlp_step.
    - eapply wlp_wait_unlock; [done|]. intros Hb3. cbv beta. wlp_step. by apply HQ.
    - apply wlp_sleep_wait; [done|by rewrite Hc2|]. intros s3 H3. rewrite wlp_ret. by apply HQ. }
  wlp_step. destruct b; [|by apply Hk]. eapply wlp_killed; [done|done|]. intros r s2 Hb2 (Hj & _). by apply Hk.
Qed.

Lemma wlp_kwait addr Q s : pinv s → k_cur s ≠ 0 → (∀ r s', pinv s' → Q r s') → wlp (kwait proc_addr xstate_addr addr) Q s.
Proof. intros H Hc HQ. unfold kwait. wlp_step. eapply wlp_wait_lock; [done|]. intros Hb. cbv beta. by apply wlp_kwait_iter. Qed.

(** ** The scheduler *)

Lemma wlp_dispatch p Q s :
  pinv s → k_cur s = 0 → p ∈ procs →
  (∀ s', busy 0 {[p]} false s' → k_cur s' = p → p_state (getp p s) = RUNNABLE → Q true s') → (∀ s', busy 0 {[p]} false s' → k_cur s' = 0 → p_state (getp p s) ≠ RUNNABLE → Q false s') →
  wlp (dispatch p) Q s.
Proof.
  intros H Hc Hp HQ1 HQ2. eapply wlp_visit; [done|done|]. intros s1 Hb1 _ (Hk1 & _) E1. rewrite union_empty_r_L in Hb1. do 2 wlp_step.
  destruct (bool_decide_reflect (p_state (getp p s1) = RUNNABLE)) as [Hr|Hr]; rewrite E1 in Hr; [|rewrite wlp_ret; apply HQ2; [done|congruence|done]].
  upd_step. do 2 wlp_step. wlp_step. apply HQ1; [|done|done].
  pose proof (bu_core _ _ _ _ Hb1) as Hc1. assert (live (getp p s1)) as Hlv by (unfold live; rewrite E1; by rewrite Hr).
  apply (busy_turn _ _ s1 p); try done. eapply (core_put s1 _ p (set_state RUNNING (getp p s1))); try done.
  - by apply (entry_live s1 p).
  - intros _. by apply pid_kept.
  - by left.
  - intros q Hq Hne. cbn. rewrite (co_run _ Hc1 q Hq), Hk1, Hc. pose proof (proc_pos q Hq). lia.
Qed.

(** The process that is switched to goes on with [k], its lock held. *)
Definition resume {A} (p : Z) (k : M (kern V T K) A) : M (kern V T K) unit :=
  r ← dispatch p;
  if (r : bool) then k;; mret tt else punlock p.

Lemma wlp_resume {A} p (k : M (kern V T K) A) Q s :
  pinv s → k_cur s = 0 → p ∈ procs → (∀ s', pinv s' → Q tt s') →
  (∀ s' Q', busy 0 {[p]} false s' → k_cur s' = p → (∀ a s'', pinv s'' → Q' a s'') → wlp k Q' s') →
  wlp (resume p k) Q s.
Proof.
  intros H Hc Hp HQ Hk. unfold resume. wlp_step. apply wlp_dispatch; [done..| |].
  - intros s1 Hb1 Hc1 _. cbv beta. wlp_step. apply Hk; [done|done|]. intros. rewrite wlp_ret. by apply HQ.
  - intros s1 Hb1 Hc1 _. cbv beta. apply wlp_punlock. intros _. by apply HQ, unlock_made.
Qed.

Lemma wlp_yield_back Q s : busy 0 {[k_cur s]} false s → k_cur s ∈ procs → (∀ s', pinv s' → Q tt s') → wlp yield_back Q s.
Proof. intros H Hp HQ. unfold yield_back, myproc. do 2 wlp_step. apply wlp_punlock. intros _. by apply HQ, unlock_made. Qed.

Lemma wlp_kwait_again addr Q s :
  busy 0 {[k_cur s]} false s → k_cur s ∈ procs → (∀ r s', pinv s' → Q r s') → wlp (kwait_again proc_addr xstate_addr addr) Q s.
Proof.
  intros H Hp HQ. pose proof (proc_pos _ Hp) as Hpos. destruct (cur_alive _ _ _ _ H) as (_ & [Hlv _] & _); [lia|].
  unfold kwait_again, sleep_end, myproc. do 3 wlp_step. upd_step. wlp_step. apply wlp_punlock. intros _. cbv beta.
  eapply wlp_wait_lock.
  - apply (unlock_made (k_cur s) (modp (k_cur s) (set_chan 0) s)); [|done]. by apply busy_quiet.
  - intros Hb. apply wlp_kwait_iter; [done| |done]. cbn. lia.
Qed.

Lemma wlp_sleep_end_outer get set Q s :
  busy 0 {[k_cur s]} false s → k_cur s ∈ procs → outer set → (∀ s', pinv s' → Q tt s') → wlp (sleep_end get set;; unlock get set) Q s.
Proof.
  intros H Hp (h & j & Hset') HQ. assert (∀ b s, set b s = set_k_files (h b s) (set_k_vm (j b s) s)) as Hset by (intros; apply Hset'). clear Hset'. pose proof (proc_pos _ Hp) as Hpos. destruct (cur_alive _ _ _ _ H) as (_ & [Hlv _] & _); [lia|].
  unfold sleep_end, myproc. do 3 wlp_step. upd_step. wlp_step. apply wlp_punlock. intros _. cbv beta.
  unfold lock, unlock. rewrite wlp_bind, wlp_modify, wlp_acquire. intros _. rewrite wlp_bind, wlp_release, wlp_modify. intros _.
  assert (pinv (unlocked_at (k_cur s) (modp (k_cur s) (set_chan 0) s))) as Hb.
  { apply unlock_made; [|done]. by apply busy_quiet. }
  rewrite !Hset. apply HQ. destruct Hb as [[] ? ? ? ? Hn]. split; [split|..]; try done. cbn in Hn |- *. lia.
Qed.
End ProcInv.

Ltac upd_step := wlp_step; apply wlp_upd; cbv beta.
