(* ===== verification/ProcProps.v ===== *)
(** * The life of processes

    The steps that change the process table between two points where the hart
    runs no code of [kernel/proc.c], from the boot on, and what holds of the
    table after any number of them. *)

From S2P Require Import Prelude Wlp Mem Kstring Layout PageAlloc Vm BufIface Sleeplock TxIface Fs Ring Pipe File Proc ProcInv.

Set Default Proof Using "Type".

Section ProcProps.
Context {V T K : Type} {PO : PageAllocOps V} {TO : TxOps T} {KO : KmOps K}.
Context (trampoline forkret_addr kthread_entry_addr : Z) (proc_addr xstate_addr : Z → Z).
Implicit Types s : kern V T K.

(** The last process id an [int] holds is not handed out. *)
Definition pids_left s : Prop := k_nextpid s < 2147483647.

(** One call of [kernel/proc.c]: by the running process, by an interrupt, or
    the scheduler's switch to a process and what that does up to the release of
    its lock. *)
Inductive pcall s s' : Prop :=
  | ps_fork r : k_cur s ≠ 0 → pids_left s → kfork trampoline forkret_addr s = Ok r s' → pcall s s'
  | ps_exit status : k_cur s ≠ 0 → kexit proc_addr status s = Ok tt s' → pcall s s'
  | ps_wait addr r : k_cur s ≠ 0 → kwait proc_addr xstate_addr addr s = Ok r s' → pcall s s'
  | ps_wait_again p addr : k_cur s = 0 → p ∈ procs → resume p (kwait_again proc_addr xstate_addr addr) s = Ok tt s' → pcall s s'
  | ps_kill pid signum r : kkill pid signum s = Ok r s' → pcall s s'
  | ps_setkilled : k_cur s ≠ 0 → setkilled (k_cur s) s = Ok tt s' → pcall s s'
  | ps_wakeup chan : wakeup chan s = Ok tt s' → pcall s s'
  | ps_sleep chan get set : k_cur s ≠ 0 → outer set → (lock get set;; sleep_on chan get set) s = Ok tt s' → pcall s s'
  | ps_sleep_end p get set : k_cur s = 0 → p ∈ procs → outer set → resume p (sleep_end get set;; unlock get set) s = Ok tt s' → pcall s s'
  | ps_yield : k_cur s ≠ 0 → yield_out s = Ok tt s' → pcall s s'
  | ps_run p : k_cur s = 0 → p ∈ procs → resume p yield_back s = Ok tt s' → pcall s s'
  | ps_kthread f arg name r : pids_left s → kthread_create trampoline forkret_addr kthread_entry_addr f arg name s = Ok r s' → pcall s s'
  | ps_grow n r : k_cur s ≠ 0 → growproc n s = Ok r s' → pcall s s'.

(** One step: a call, what the running process does to its own entry elsewhere
    in the kernel, or what anything does to memory and files. *)
Inductive pstep s s' : Prop :=
  | ps_call : pcall s s' → pstep s s'
  | ps_own g : k_cur s ≠ 0 → quiet g → s' = modp (k_cur s) g s → pstep s s'
  | ps_mem v f : s' = set_k_files f (set_k_vm v s) → pstep s s'.

Lemma wlp_growproc n Q s : pinv s → k_cur s ≠ 0 → (∀ r s', pinv s' → Q r s') → wlp (growproc n) Q s.
Proof.
  intros H Hc HQ. unfold growproc, myproc. do 4 wlp_step.
  assert (∀ z v, pinv (modp (k_cur s) (set_sz z) (set_k_vm v s))) as Hz by (intros z v; by apply (pinv_quiet_cur _ (set_k_vm v s)); [apply busy_vm|..]).
  destruct (n >? 0); [|destruct (n <? 0)].
  - wlp_step. apply wlp_vm. intros z v. cbv beta. destruct (z =? 0); [rewrite wlp_ret; by apply HQ, busy_vm|].
    wlp_step. apply wlp_upd. cbv beta. rewrite wlp_ret. apply HQ, Hz.
  - wlp_step. apply wlp_vm. intros z v. cbv beta. wlp_step. apply wlp_upd. cbv beta. rewrite wlp_ret. apply HQ, Hz.
  - wlp_step. apply wlp_upd. cbv beta. rewrite wlp_ret. apply HQ. specialize (Hz (p_sz (getp (k_cur s) s)) (k_vm s)). by rewrite set_k_vm_id in Hz.
Qed.

Lemma nextpid_pos s : pinv s → 0 < k_nextpid s.
Proof.
  intros H. pose proof (bu_core _ _ _ _ H) as Hc. destruct (co_init _ Hc) as [Hp [Hl _]]. destruct (co_entry _ Hc _ Hp) as [_ He]. specialize (He Hl). lia.
Qed.

Lemma pcall_pinv s s' : pinv s → pcall s s' → pinv s'.
Proof.
  intros H Hs. pose proof (nextpid_pos s H) as Hn. unfold pids_left in *.
  destruct Hs as [r Hc Hl E|st Hc E|a r Hc E|p a Hc Hp E|pid sg r E|Hc E|ch E|ch g st Hc Ho E|p g st Hc Hp Ho E|Hc E|p Hc Hp E|f a nm r Hl E|n r Hc E].
  - eapply (wlp_Ok _ (λ _, pinv)); [|exact E]. by apply wlp_kfork.
  - eapply (wlp_Ok _ (λ _, pinv)); [|exact E]. by apply wlp_kexit.
  - eapply (wlp_Ok _ (λ _, pinv)); [|exact E]. by apply wlp_kwait.
  - eapply (wlp_Ok _ (λ _, pinv)); [|exact E]. apply wlp_resume; try done. intros s1 Q' Hb <- HQ. by apply wlp_kwait_again.
  - eapply (wlp_Ok _ (λ _, pinv)); [|exact E]. by apply wlp_kkill.
  - eapply (wlp_Ok _ (λ _, pinv)); [|exact E]. apply wlp_setkilled; [done| |done]. by apply (cur_alive _ _ _ _ H Hc).
  - eapply (wlp_Ok _ (λ _, pinv)); [|exact E]. by eapply wlp_wakeup.
  - eapply (wlp_Ok _ (λ _, pinv)); [|exact E]. by apply wlp_sleep_outer.
  - eapply (wlp_Ok _ (λ _, pinv)); [|exact E]. apply wlp_resume; try done. intros s1 Q' Hb <- HQ. apply wlp_sleep_end_outer; try done. by intros; apply HQ.
  - eapply (wlp_Ok _ (λ _, pinv)); [|exact E]. by apply wlp_yield_out.
  - eapply (wlp_Ok _ (λ _, pinv)); [|exact E]. apply wlp_resume; try done. intros s1 Q' Hb <- HQ. apply wlp_yield_back; try done. by intros; apply HQ.
  - eapply (wlp_Ok _ (λ _, pinv)); [|exact E]. by apply wlp_kthread_create.
  - eapply (wlp_Ok _ (λ _, pinv)); [|exact E]. by apply wlp_growproc.
Qed.
Lemma pstep_pinv s s' : pinv s → pstep s s' → pinv s'.
Proof.
  intros H [Hs|g Hc Hg ->|v f ->]; [by apply (pcall_pinv s)|by apply pinv_quiet_cur|by apply busy_files, busy_vm].
Qed.

(** ** Boot *)

(** The kernel's data when it is loaded. *)
Definition blank s : Prop :=
  (∀ p, p ∈ procs → k_proc s !! p = Some proc0) ∧ k_proc s !! 0 = None ∧ k_cur s = 0 ∧ k_noff s = 0 ∧ k_nextpid s = 1.

(** The table before the first process. *)
Record empty_table s : Prop := {
  et_entry : ∀ p, p ∈ procs → is_Some (k_proc s !! p) ∧ p_lock (getp p s) = false ∧ p_state (getp p s) = UNUSED ∧ p_pid (getp p s) = 0 ∧
    p_parent (getp p s) = 0 ∧ p_trapframe (getp p s) = 0 ∧ p_pagetable (getp p s) = 0 ∧ p_sz (getp p s) = 0 ∧ p_chan (getp p s) = 0;
  et_null : p_lock (getp 0 s) = false;
  et_rest : k_cur s = 0 ∧ k_noff s = 0 ∧ k_nextpid s = 1 ∧ k_pid_lock s = false ∧ k_wait_lock s = false
}.

Lemma wlp_procinit Q s : blank s → (∀ s', empty_table s' → Q tt s') → wlp procinit Q s.
Proof.
  clear proc_addr xstate_addr. intros (Hp & Hp0 & Hc & Hn & Hnp) HQ. unfold procinit. do 4 wlp_step.
  assert (∀ s', k_proc s' = k_proc s → k_cur s' = 0 → k_noff s' = 0 → k_nextpid s' = 1 → k_pid_lock s' = false → k_wait_lock s' = false → empty_table s') as H0.
  { intros s' E H1 H2 H3 H4 H5. split; [|unfold getp; by rewrite E, Hp0|done]. intros p Hin. unfold getp. rewrite E, Hp by done. split; [by eexists|done]. }
  apply (wlp_for_each (λ _ s', empty_table s')); [by apply H0| |done].
  intros ds p rest s' Hl He. do 3 upd_step. apply wlp_init_signals. rewrite !modp_modp.
  assert (p ∈ procs) as Hp' by (rewrite Hl; set_solver). apply proc_pos in Hp'.
  destruct He as [He H0' Hr]. split; [|rewrite getp_modp_ne; [done|lia]|done]. intros q Hq. specialize (He q Hq).
  destruct (decide (q = p)) as [->|]; [|by rewrite lookup_modp_ne, getp_modp_ne].
  rewrite getp_modp_eq. split; [apply lookup_modp_eq|]. cbn. naive_solver.
Qed.

(** The table with its first process. *)
Lemma first_proc p x v f s :
  empty_table s → p ∈ procs → p_state x = RUNNABLE → p_pid x = 1 → p_parent x = 0 → p_lock x = false →
  pinv (set_k_files f (set_k_initproc p (putp p x (set_k_vm v (pid_taken s))))).
Proof.
  clear proc_addr xstate_addr. intros He Hp Hst Hpid Hpar Hl. destruct (et_rest _ He) as (Hc & Hn & Hnp & Hpl & Hw).
  set (s' := set_k_files _ _). assert (getp p s' = x) as Hx by (unfold getp, s'; cbn; by rewrite lookup_insert_eq).
  assert (∀ q, q ≠ p → k_proc s' !! q = k_proc s !! q) as Hlk by (intros q Hq; unfold s'; cbn; by rewrite lookup_insert_ne).
  assert (∀ q, q ≠ p → getp q s' = getp q s) as Hne by (intros q Hq; unfold getp; by rewrite Hlk).
  assert (k_nextpid s' = 2) as Hnp' by (unfold s'; cbn; by rewrite Hnp).
  assert (∀ q, q ∈ procs → q = p ∨ q ≠ p ∧ p_state (getp q s') = UNUSED) as Hcase.
  { intros q Hq. destruct (decide (q = p)) as [|Hqp]; [by left|right]. rewrite Hne by done. split; [done|]. apply (et_entry _ He q Hq). }
  split; [split|..]; try done.
  - intros q Hq. destruct (Hcase q Hq) as [->|[Hqp _]]; [unfold s'; cbn; rewrite lookup_insert_eq; by eexists|rewrite Hlk by done; apply (et_entry _ He q Hq)].
  - intros q Hq. rewrite Hnp'. destruct (Hcase q Hq) as [->|[Hqp Hu]].
    + rewrite Hx. split; [by rewrite Hst|]. lia.
    + rewrite Hne in * by done. destruct (et_entry _ He q Hq) as (? & ? & ? & ? & ?). split; [naive_solver|]. by intros Hlv.
  - intros q r Hq Hr. destruct (Hcase q Hq) as [->|[Hqp Hu]], (Hcase r Hr) as [->|[Hrp Hu']]; [done| | |]; unfold live; try (by rewrite Hu); by rewrite Hu'.
  - intros q Hq. destruct (Hcase q Hq) as [->|[Hqp Hu]]; [by rewrite Hx, Hpar|]. rewrite Hne by done. destruct (et_entry _ He q Hq) as (_ & _ & _ & _ & -> & _). done.
  - split; [done|]. change (k_initproc s') with p. rewrite Hx. unfold alive. by rewrite Hst.
  - intros q Hq. change (k_cur s') with (k_cur s). rewrite Hc. pose proof (proc_pos q Hq). split; [|lia].
    destruct (Hcase q Hq) as [->|[Hqp Hu]]; [by rewrite Hx, Hst|by rewrite Hu].
  - intros q Hq. destruct (Hcase q Hq) as [->|[Hqp Hu]]; [by rewrite Hx, Hst|by rewrite Hu].
  - intros q Hq. destruct (decide (q = p)) as [->|Hqp]; [by rewrite Hx|]. rewrite Hne by done. destruct (et_entry _ He q Hq) as (_ & -> & _). done.
Qed.

Lemma boot_state p A B n m f s :
  n = k_noff s → set_k_noff n (modp p A (set_k_files f (set_k_initproc p (set_k_noff m (modp p B s))))) =
    set_k_files f (set_k_initproc p (putp p (A (B (getp p s))) s)).
Proof.
  intros ->. change (putp p (A (B (getp p s))) s) with (modp p (λ x, A (B x)) s). rewrite <-(modp_modp p B A s). by destruct s.
Qed.

Lemma wlp_userinit Q s : empty_table s → (∀ s', pinv s' → Q tt s') → wlp (userinit trampoline forkret_addr) Q s.
Proof.
  intros He HQ. destruct (et_rest _ He) as (Hc & Hn & Hnp & Hpl & Hw). unfold userinit. wlp_step.
  assert (∀ s1, p_lock (getp 0 s1) = false → wlp (modify (set_k_initproc 0);; cwd ← gets (λ s, p_cwd (getp 0 s)); ip ← fsys (namei 0 cwd [SLASH]);
    upd 0 (set_cwd ip);; upd 0 (set_state RUNNABLE);; punlock 0) Q s1) as Hno.
  { intros s1 H1. do 4 wlp_step. wlp_step. apply wlp_fsys. intros ip f. cbv beta. do 2 upd_step. apply wlp_punlock. intros H2.
    rewrite modp_modp, getp_modp_eq in H2. change (p_lock (getp 0 s1) = true) in H2. congruence. }
  apply wlp_allocproc.
  - intros p Hp. destruct (et_entry _ He p Hp) as (? & ? & _). done.
  - done.
  - apply Hno, (et_null _ He).
  - intros p v Hp Hu. apply Hno. apply proc_pos in Hp. rewrite getp_modp_ne by lia. apply (et_null _ He).
  - intros p v tf pt Hp Hu Htf Hpt. do 4 wlp_step. wlp_step. apply wlp_fsys. intros ip f. cbv beta. do 2 upd_step. apply wlp_punlock. intros _. apply HQ.
    rewrite !modp_modp, boot_state by (cbn; lia). destruct (et_entry _ He p Hp) as (_ & _ & _ & _ & Hpar & _). by apply first_proc.
Qed.

Lemma boot_pinv s0 s1 : blank s0 → (procinit;; userinit trampoline forkret_addr) s0 = Ok tt s1 → pinv s1.
Proof.
  intros Hb Hboot. eapply (wlp_Ok _ (λ _, pinv)); [|exact Hboot]. wlp_step. apply wlp_procinit; [done|]. intros s' He. by apply wlp_userinit.
Qed.

(** C8: On one hart, between handlers (each runs to its end or its switch), from
    the boot on, whatever the processes, the interrupts and the scheduler do, and
    until process ids run out: entries not in use have no id, parent, trapframe,
    page table, size or channel (a [kill] of id 0 may have marked them), live processes have distinct positive ids below [nextpid], every parent is
    a live process that has not exited (so each exited process has one to
    collect it), [init] is alive, exactly the process on the hart is [RUNNING],
    none is left in state [USED], and every lock of the table is free with
    interrupts' [noff] at 0. *)
Theorem proc_table_invariant s0 s1 s :
  blank s0 → (procinit;; userinit trampoline forkret_addr) s0 = Ok tt s1 → rtc pstep s1 s → pinv s.
Proof.
  intros Hb Hboot Hr. pose proof (boot_pinv s0 s1 Hb Hboot) as H1. clear Hboot Hb. induction Hr as [|s1 s2 s3 Hs _ IH]; [done|]. by apply IH, (pstep_pinv s1).
Qed.

End ProcProps.

(** ** Scheduling *)

Section Sched.
Context {V T K : Type}.
Implicit Types s : kern V T K.

(** What [scheduler] relies on when it switches to [q]: the process switches
    back with its own lock held, and no other, having left the table in order;
    it takes no other process off the run queue; [P] is what [p] does when it
    runs, and no process undoes it. *)
Definition well_run (run : Z → M (kern V T K) unit) (p : Z) (P : files T K → Prop) : Prop :=
  ∀ q s, q ∈ procs → busy 0 {[q]} false s → k_cur s = q →
    wp (run q) (λ _ s', p_lock (getp q s') = true ∧ pinv (unlocked_at q (set_k_cur 0 s')) ∧
      (q ≠ p → p_state (getp p s) = RUNNABLE → p_state (getp p s') = RUNNABLE) ∧
      (q = p ∨ P (k_files s) → P (k_files s'))) s.

Lemma wp_punlock p Q s : p_lock (getp p s) = true → Q tt (unlocked_at p s) → wp (punlock p) Q s.
Proof. intros Hl HQ. unfold punlock, unlock. rewrite wp_bind, wp_release. by split. Qed.

(** [dispatch] of an entry whose lock is free, both ways. *)
Lemma wp_dispatch p Q s :
  pinv s → k_cur s = 0 → p ∈ procs →
  (p_state (getp p s) = RUNNABLE → ∀ s', busy 0 {[p]} false s' → k_cur s' = p → k_files s' = k_files s → (∀ q, q ≠ p → getp q s' = getp q s) → Q true s') →
  (p_state (getp p s) ≠ RUNNABLE → busy 0 {[p]} false (locked_at p s) → Q false (locked_at p s)) →
  wp (dispatch p) Q s.
Proof.
  intros H Hc Hp HQ1 HQ2.
  assert (wlp (dispatch p) (λ r s', busy 0 {[p]} false s' ∧ (r = true → k_cur s' = p)) s) as Hw by (apply wlp_dispatch; auto; done).
  assert (p_lock (getp p s) = false) as Hl by by apply (busy_locks_free false s H).
  revert Hw. unfold wlp, wp. unfold dispatch, plock, lock, acquire, mbind, M_bind, gets, modify, upd, panic_if. cbn.
  change (getp p (set_k_noff (k_noff s + 1) s)) with (getp p s). rewrite Hl. cbn. 
  fold (locked_at p s). rewrite state_locked. case_bool_decide as Hr; intros [Hb Hcur]; [|by apply HQ2].
  apply HQ1; [done|done|done|done|]. intros q Hq.
  change (getp q (modp p (set_state RUNNING) (modp p (set_lock true) (set_k_noff (k_noff s + 1) s))) = getp q s). by rewrite !getp_modp_ne.
Qed.

(** C13: A process that can run is run within one pass of the scheduler over the
    table, whatever the other processes do with their turns, provided none takes
    it off the run queue: the pass ends, reports that it found a process, and
    leaves the table in order and what [p] does when it runs done. *)
Theorem sched_fair run p (P : files T K → Prop) s :
  well_run run p P → pinv s → k_cur s = 0 → p ∈ procs → p_state (getp p s) = RUNNABLE →
  wp (sched_pass run) (λ found s', found = true ∧ pinv s' ∧ k_cur s' = 0 ∧ P (k_files s')) s.
Proof.
  intros Hrun H Hc Hp Hr. unfold sched_pass.
  apply (wp_loop (λ x s, pinv s ∧ k_cur s = 0 ∧ (∀ q, q ∈ x.1 → q ∈ procs) ∧ (p ∈ x.1 ∧ p_state (getp p s) = RUNNABLE ∨ x.2 = true ∧ P (k_files s)))
    (λ x _, length x.1)).
  - split_and!; try done. by left.
  - cbn [fst]. unfold procs. rewrite length_seqZ. lia.
  - clear s H Hc Hr. intros [[|q l] found] s (H & Hc & Hl & Hd); cbn [fst snd] in *.
    { rewrite wp_ret. destruct Hd as [[Hd _]|[-> Hd]]; [by apply not_elem_of_nil in Hd|done]. }
    assert (q ∈ procs) as Hq by (apply Hl; set_solver). assert (∀ r, r ∈ l → r ∈ procs) as Hl' by (intros; apply Hl; set_solver).
    wp_step. apply wp_dispatch; [done..| |].
    + intros Hqr s2 Hb Hc2 Hf2 Hoth. wp_step. wp_step. eapply wp_mono; [by apply Hrun|]. intros _ s3 (Hl3 & Hp3 & Hr3 & HP3). cbv beta. wp_step. wp_step.
      apply wp_punlock; [done|]. wp_step. split; [|cbn; lia]. rewrite orb_true_r. split_and!; try done. 
      cbn [fst snd]. rewrite state_unlocked. change (k_files (unlocked_at q (set_k_cur 0 s3))) with (k_files s3). rewrite <-Hf2 in Hd.
      destruct (decide (q = p)) as [->|Hqp]; [right; auto|]. destruct Hd as [[Hin Hr]|[_ HP]]; [left|right; auto].
      split; [set_solver|]. apply Hr3; [done|]. by rewrite Hoth.
    + intros Hnr Hb. wp_step. wp_step. wp_step. apply wp_punlock; [unfold locked_at; by rewrite getp_modp_eq|]. wp_step. split; [|cbn; lia].
      split_and!; try done; [by apply unlock_made|]. cbn [fst snd]. rewrite state_unlocked, state_locked, orb_false_r.
      destruct Hd as [[Hin Hr]|HP]; [left|by right]. split; [|done]. destruct (decide (q = p)) as [->|]; [done|set_solver].
Qed.
End Sched.

Module ProcWitness.
(** Pages handed out one after the other, over memory that reads as zeros, and a
    file system no one reads. *)
#[local] Instance pages : PageAllocOps (mem * Z) := {|
  pa_mem := fst;
  pa_set_mem _ s := s;
  pa_kalloc := n ← gets snd; modify (λ s, (fst s, n + PGSIZE));; mret n;
  pa_kfree _ := mret tt;
  pa_kalloc_huge := mret 0;
  pa_kfree_huge _ := mret tt
|}.
#[local] Instance no_tx : TxOps unit := {|
  tx_initlog _ _ := mret tt; tx_begin_op := mret tt; tx_end_op := mret tt; tx_bread _ _ := mret 1;
  tx_brelse _ := mret tt; tx_log_write _ := mret tt; tx_data _ _ := ∅; tx_set_data _ _ t := t
|}.
#[local] Instance no_km : KmOps (list Z) := {| km_alloc _ := mret 0; km_free _ _ := mret tt |}.

Definition loaded : kern (mem * Z) unit (list Z) :=
  Kern (list_to_map ((λ p, (p, proc0)) <$> procs)) 0 0 0 1 true true (∅, 0x80100000)
    (Files false ∅ ∅ [] (Fs (SB 0 0 0 0 0 0 0 0) false ∅ (UMem ∅ (λ _, false) (λ _, false)) tt)).

Definition running (b : bool) : M (kern (mem * Z) unit (list Z)) unit := c ← gets k_cur; panic_if (Bool.eqb (c =? 0) b) "hart".
#[local] Notation boot := (procinit;; userinit 0x80007000 0x80001000).

(** [init] runs, forks a child and waits for it; the child runs and exits;
    [init] collects it. *)
Definition story : M (kern (mem * Z) unit (list Z)) Z :=
  running false;; resume 1 yield_back;;
  running true;; n ← gets k_nextpid; panic_if (n >=? 2147483647) "pids";; pid ← kfork 0x80007000 0x80001000;
  running true;; kwait id id 0;;
  running false;; resume 2 yield_back;;
  running true;; kexit id 7;;
  running false;; resume 1 (kwait_again id id 0);;
  mret pid.

Definition ends {S} (r : Z) (x : res S Z) : bool := match x with Ok a _ => a =? r | _ => false end.

Lemma ends_inv {S} r (x : res S Z) : ends r x = true → ∃ s, x = Ok r s.
Proof. destruct x as [a s| |]; cbn; [|done..]. intros ->%Z.eqb_eq. by exists s. Qed.

Lemma story_runs : ends 2 ((boot;; story) loaded) = true.
Proof. vm_compute. reflexivity. Qed.

Lemma bind_inv {S A B} (m : M S A) (f : A → M S B) s b s' : (m ≫= f) s = Ok b s' → ∃ a s1, m s = Ok a s1 ∧ f a s1 = Ok b s'.
Proof. unfold mbind, M_bind. destruct (m s) as [a s1| |] eqn:E; [|done..]. intros H. by exists a, s1. Qed.
Lemma running_inv b s s' : running b s = Ok tt s' → s' = s ∧ if b then k_cur s ≠ 0 else k_cur s = 0.
Proof. unfold running. intros (c & s1 & E & H)%bind_inv. injection E as <- <-. destruct b, (Z.eqb_spec (k_cur s) 0); cbn in H; try discriminate H; by injection H as <-. Qed.

Lemma story_steps s pid s' : story s = Ok pid s' → rtc (pstep 0x80007000 0x80001000 0 id id) s s'.
Proof.
  unfold story. intros ([] & s1 & [-> Hc1]%running_inv & H)%bind_inv. apply bind_inv in H as ([] & s2 & E2 & H).
  apply bind_inv in H as ([] & s3 & [-> Hc3]%running_inv & H). apply bind_inv in H as (n & s4 & E4 & H). injection E4 as <- <-.
  apply bind_inv in H as ([] & s5 & E5 & H). destruct (Z.geb_spec (k_nextpid s2) 2147483647) as [|Hn] in E5; [done|]. injection E5 as <-.
  apply bind_inv in H as (r & s6 & E6 & H). apply bind_inv in H as ([] & s7 & [-> Hc7]%running_inv & H).
  apply bind_inv in H as (o & s8 & E8 & H). apply bind_inv in H as ([] & s9 & [-> Hc9]%running_inv & H).
  apply bind_inv in H as ([] & s10 & E10 & H). apply bind_inv in H as ([] & s11 & [-> Hc11]%running_inv & H).
  apply bind_inv in H as ([] & s12 & E12 & H). apply bind_inv in H as ([] & s13 & [-> Hc13]%running_inv & H).
  apply bind_inv in H as ([] & s14 & E14 & H). injection H as -> ->.
  eapply rtc_l; [by eapply ps_call, (ps_run _ _ _ _ _ _ _ 1); [|apply elem_of_seqZ|exact E2]|].
  eapply rtc_l; [by eapply ps_call, ps_fork; [..|exact E6]|]. eapply rtc_l; [by eapply ps_call, ps_wait; [..|exact E8]|].
  eapply rtc_l; [by eapply ps_call, (ps_run _ _ _ _ _ _ _ 2); [|apply elem_of_seqZ|exact E10]|]. eapply rtc_l; [by eapply ps_call, ps_exit; [..|exact E12]|].
  apply rtc_once. by eapply ps_call, (ps_wait_again _ _ _ _ _ _ _ 1); [|apply elem_of_seqZ|exact E14].
Qed.

Lemma blank_loaded : blank loaded.
Proof.
  split; [|split; [vm_compute; reflexivity|split_and!; reflexivity]].
  intros p Hp. apply elem_of_list_to_map_1; [|apply list_elem_of_fmap; exists p; split; [reflexivity|exact Hp]].
  rewrite <-list_fmap_compose. unfold compose. cbn [fst]. rewrite list_fmap_id. apply NoDup_seqZ.
Qed.

Lemma proc_table_invariant_witness :
  ∃ s1 s, boot loaded = Ok tt s1 ∧ story s1 = Ok 2 s ∧ pinv s.
Proof.
  destruct (ends_inv _ _ story_runs) as [s Hs].
  apply bind_inv in Hs as ([] & s1 & Hb & Hs). exists s1, s. split; [exact Hb|]. split; [exact Hs|].
  exact (proc_table_invariant 0x80007000 0x80001000 0 id id loaded s1 s blank_loaded Hb (story_steps _ _ _ Hs)).
Defined.

(** Every process notes that it ran and yields. *)
Definition turn (q : Z) : M (kern (mem * Z) unit (list Z)) unit :=
  fileop (modify (λ f, set_ft_km (q :: ft_km f) f));; upd q (set_state RUNNABLE).

Lemma turn_well_run p : well_run turn p (λ f, p ∈ ft_km f).
Proof.
  intros q s Hq Hb Hc. pose proof (proc_pos q Hq) as Hpos. unfold turn. rewrite wp_bind. unfold fileop. wp_step. wp_step. unfold upd. wp_step.
  set (s1 := set_k_files _ s). assert (busy 0 {[q]} false s1) as Hb1 by by apply busy_files. split_and!.
  - rewrite getp_modp_eq. cbn. change (p_lock (getp q s) = true). rewrite (bu_locks _ _ _ _ Hb q Hq). apply bool_decide_eq_true. set_solver.
  - apply unlock_made; [|done]. apply (busy_off {[q]} false s1 q); try done; [lia|]. by right; left.
  - intros Hne Hr. by rewrite getp_modp_ne.
  - cbn. intros [->|Hin]; set_solver.
Qed.

(** After the boot [init] can run. *)
Definition init_ready (s : kern (mem * Z) unit (list Z)) : Z := if bool_decide (p_state (getp 1 s) = RUNNABLE ∧ k_cur s = 0) then 1 else 0.
Lemma boot_runs : ends 1 ((boot;; gets init_ready) loaded) = true.
Proof. vm_compute. reflexivity. Qed.

Lemma sched_fair_witness :
  ∃ s1, boot loaded = Ok tt s1 ∧ wp (sched_pass turn) (λ _ s', 1 ∈ ft_km (k_files s')) s1.
Proof.
  destruct (ends_inv _ _ boot_runs) as [s Hs]. apply bind_inv in Hs as ([] & s1 & Hb & Hs). exists s1. split; [exact Hb|].
  assert (init_ready s1 = 1) as Hi by (injection Hs; done). unfold init_ready in Hi. case_bool_decide as Hr; [|discriminate Hi]. destruct Hr as [Hr Hc].
  eapply wp_mono; [apply (sched_fair turn 1 (λ f, 1 ∈ ft_km f) s1); [apply turn_well_run|exact (boot_pinv _ _ _ _ blank_loaded Hb)|exact Hc| |exact Hr]|].
  - apply elem_of_seqZ. unfold NPROC. lia.
  - intros r s' (_ & _ & _ & HP). exact HP.
Defined.
End ProcWitness.
