(* ===== verification/Trap.v ===== *)
(** * Traps and system calls: [kernel/trap.c], [kernel/syscall.c],
    [kernel/sysproc.c], [kernel/plic.c]

    The kernel's entries from user space, over the process table ([Proc]).  The
    control registers of the hart are fields of the state; devices are memory
    mapped, behind [Mmio].  A call that does not come back to its caller, because
    the process exits or sleeps, ends with [Sleep]; what follows the switch back
    is a definition of its own.  The messages these files print are left out. *)

From S2P Require Import Prelude Mem Kstring Layout PageAlloc Vm BufIface Sleeplock TxIface Fs Ring Pipe File Proc.

Definition SSTATUS_SPP : Z := Z.shiftl 1 8.
Definition SSTATUS_SPIE : Z := Z.shiftl 1 5.
Definition SSTATUS_SIE : Z := Z.shiftl 1 1.
Definition SATP_SV39 : Z := Z.shiftl 8 60.
Definition MAKE_SATP (pagetable : Z) : Z := Z.lor SATP_SV39 (Z.shiftr pagetable 12).
Definition SBRK_EAGER : Z := 1.
Definition SBRK_LAZY : Z := 2.
Definition UART0_IRQ : Z := 10.
Definition VIRTIO0_IRQ : Z := 1.
Definition PLIC_SENABLE (hart : Z) : Z := PLIC + 0x2080 + hart * 0x100.
Definition PLIC_SPRIORITY (hart : Z) : Z := PLIC + 0x201000 + hart * 0x2000.
Definition PLIC_SCLAIM (hart : Z) : Z := PLIC + 0x201004 + hart * 0x2000.

Definition SYS_fork : Z := 1.
Definition SYS_exit : Z := 2.
Definition SYS_wait : Z := 3.
Definition SYS_pipe : Z := 4.
Definition SYS_read : Z := 5.
Definition SYS_kill : Z := 6.
Definition SYS_exec : Z := 7.
Definition SYS_fstat : Z := 8.
Definition SYS_chdir : Z := 9.
Definition SYS_dup : Z := 10.
Definition SYS_getpid : Z := 11.
Definition SYS_sbrk : Z := 12.
Definition SYS_pause : Z := 13.
Definition SYS_uptime : Z := 14.
Definition SYS_open : Z := 15.
Definition SYS_write : Z := 16.
Definition SYS_mknod : Z := 17.
Definition SYS_unlink : Z := 18.
Definition SYS_link : Z := 19.
Definition SYS_mkdir : Z := 20.
Definition SYS_close : Z := 21.
Definition SYS_halt : Z := 22.
Definition SYS_signal : Z := 23.
Definition SYS_sigreturn : Z := 24.

(** Device registers. *)
Class Mmio (D : Type) := {
  mmio_ld8 : Z → M D Z;
  mmio_st8 : Z → Z → M D unit;
  mmio_ld32 : Z → M D Z;
  mmio_st32 : Z → Z → M D unit
}.

Section Plic.
Context {D : Type} {MM : Mmio D} (hart : Z).

Definition plicinit : M D unit :=
  mmio_st32 (PLIC + UART0_IRQ * 4) 1;;
  mmio_st32 (PLIC + VIRTIO0_IRQ * 4) 1.
Definition plicinithart : M D unit :=
  mmio_st32 (PLIC_SENABLE hart) (Z.lor (Z.shiftl 1 UART0_IRQ) (Z.shiftl 1 VIRTIO0_IRQ));;
  mmio_st32 (PLIC_SPRIORITY hart) 0.
Definition plic_claim : M D Z :=
  irq ← mmio_ld32 (PLIC_SCLAIM hart);
  mret (i32 irq).
Definition plic_complete (irq : Z) : M D unit := mmio_st32 (PLIC_SCLAIM hart) (u32 irq).
End Plic.

(** The control registers the kernel reads and writes. *)
Record csrs := Csr {
  c_sstatus : Z; c_stvec : Z; c_sepc : Z; c_scause : Z; c_stval : Z;
  c_satp : Z; c_tp : Z; c_time : Z; c_stimecmp : Z
}.
Definition w_sstatus v c := Csr v (c_stvec c) (c_sepc c) (c_scause c) (c_stval c) (c_satp c) (c_tp c) (c_time c) (c_stimecmp c).
Definition w_stvec v c := Csr (c_sstatus c) v (c_sepc c) (c_scause c) (c_stval c) (c_satp c) (c_tp c) (c_time c) (c_stimecmp c).
Definition w_sepc v c := Csr (c_sstatus c) (c_stvec c) v (c_scause c) (c_stval c) (c_satp c) (c_tp c) (c_time c) (c_stimecmp c).
Definition w_satp v c := Csr (c_sstatus c) (c_stvec c) (c_sepc c) (c_scause c) (c_stval c) v (c_tp c) (c_time c) (c_stimecmp c).
Definition w_stimecmp v c := Csr (c_sstatus c) (c_stvec c) (c_sepc c) (c_scause c) (c_stval c) (c_satp c) (c_tp c) (c_time c) v.

Record trapst (V T K D : Type) := TS {
  t_k : kern V T K;
  t_csr : csrs;
  t_ticks : Z;
  t_tickslock : bool;
  t_dev : D
}.
Arguments TS {V T K D}. Arguments t_k {V T K D}. Arguments t_csr {V T K D}. Arguments t_ticks {V T K D}.
Arguments t_tickslock {V T K D}. Arguments t_dev {V T K D}.

Section Trap.
Context {V T K D : Type} {PO : PageAllocOps V} {TO : TxOps T} {KO : KmOps K} {MM : Mmio D}.
Implicit Types s : trapst V T K D.

Definition set_t_k v s : trapst V T K D := TS v (t_csr s) (t_ticks s) (t_tickslock s) (t_dev s).
Definition set_t_csr v s : trapst V T K D := TS (t_k s) v (t_ticks s) (t_tickslock s) (t_dev s).
Definition set_t_ticks v s : trapst V T K D := TS (t_k s) (t_csr s) v (t_tickslock s) (t_dev s).
Definition set_t_tickslock v s : trapst V T K D := TS (t_k s) (t_csr s) (t_ticks s) v (t_dev s).
Definition set_t_dev v s : trapst V T K D := TS (t_k s) (t_csr s) (t_ticks s) (t_tickslock s) v.

Definition kop {A} (m : M (kern V T K) A) : M (trapst V T K D) A := lift t_k set_t_k m.
Definition devop {A} (m : M D A) : M (trapst V T K D) A := lift t_dev set_t_dev m.
Definition csr (f : csrs → Z) : M (trapst V T K D) Z := gets (λ s, f (t_csr s)).
Definition wcsr (g : csrs → csrs) : M (trapst V T K D) unit := modify (λ s, set_t_csr (g (t_csr s)) s).

Definition intr_on : M (trapst V T K D) unit := wcsr (λ c, w_sstatus (Z.lor (c_sstatus c) SSTATUS_SIE) c).
Definition intr_off : M (trapst V T K D) unit := wcsr (λ c, w_sstatus (Z.land (c_sstatus c) (u64 (Z.lnot SSTATUS_SIE))) c).
Definition intr_get : M (trapst V T K D) bool := x ← csr c_sstatus; mret (negb (Z.land x SSTATUS_SIE =? 0)).

(** [tickslock]. *)
Definition tlock : M (trapst V T K D) unit :=
  kop (modify (λ k, set_k_noff (k_noff k + 1) k));; acquire t_tickslock set_t_tickslock.
Definition tunlock : M (trapst V T K D) unit :=
  release t_tickslock set_t_tickslock;; kop (modify (λ k, set_k_noff (k_noff k - 1) k)).

(** Addresses the linker chooses. *)
Context (trampoline forkret_addr kthread_entry_addr kernelvec_addr usertrap_addr uservec_addr ticks_addr : Z) (proc_addr xstate_addr : Z → Z).

Definition trapinit : M (trapst V T K D) unit := modify (set_t_tickslock false).
Definition trapinithart : M (trapst V T K D) unit := wcsr (w_stvec kernelvec_addr).

(** ** Arguments of system calls *)

(** The trapframe of the running process. *)
Definition mytf : M (trapst V T K D) Z := kop (p ← myproc; gets (λ k, p_trapframe (getp p k))).

Definition argraw (n : Z) : M (trapst V T K D) Z :=
  tf ← mytf;
  if n =? 0 then kop (tf_ld tf TF_a0)
  else if n =? 1 then kop (tf_ld tf TF_a1)
  else if n =? 2 then kop (tf_ld tf TF_a2)
  else if n =? 3 then kop (tf_ld tf TF_a3)
  else if n =? 4 then kop (tf_ld tf TF_a4)
  else if n =? 5 then kop (tf_ld tf TF_a5)
  else panic "argraw".
Definition argint (n : Z) : M (trapst V T K D) Z := x ← argraw n; mret (i32 x).
Definition argaddr (n : Z) : M (trapst V T K D) Z := argraw n.

(** The 8 bytes go to [ip], an address in the kernel. *)
Definition fetchaddr (addr ip : Z) : M (trapst V T K D) Z :=
  p ← kop myproc;
  x ← kop (gets (getp p));
  if (addr >=? p_sz x) || (u64 (addr + 8) >? p_sz x) then mret (-1) else
  r ← kop (vm (copyin (p_sz x) (p_pagetable x) (p_pagetable x) ip addr 8));
  if negb (r =? 0) then mret (-1) else mret 0.

(** [strlen] of the buffer, which [copyinstr] left with a zero in it. *)
Definition fetchstr (addr buf max : Z) : M (trapst V T K D) Z :=
  p ← kop myproc;
  x ← kop (gets (getp p));
  r ← kop (vm (copyinstr (p_pagetable x) buf addr max));
  if r <? 0 then mret (-1) else
  n ← kop (vm (gets (λ v, strlen (Z.to_nat max + 1) (pa_mem v) buf)));
  match n with
  | Some n => mret (i32 n)
  | None => nofuel
  end.
Definition argstr (n buf max : Z) : M (trapst V T K D) Z :=
  addr ← argaddr n;
  fetchstr addr buf max.

(** ** [kernel/sysproc.c] *)

Definition sys_exit : M (trapst V T K D) outcome :=
  n ← argint 0;
  kop (kexit proc_addr n);;
  mret (Sleep 0).

Definition sys_getpid : M (trapst V T K D) outcome :=
  pid ← kop (p ← myproc; gets (λ k, p_pid (getp p k)));
  mret (Done (u64 pid)).

Definition sys_fork : M (trapst V T K D) outcome :=
  r ← kop (kfork trampoline forkret_addr);
  mret (Done (u64 r)).

(** The value of a call that returns [int], widened to [uint64]. *)
Definition widen (r : outcome) : outcome :=
  match r with Done n => Done (u64 n) | Sleep i => Sleep i end.

Definition sys_wait : M (trapst V T K D) outcome :=
  p ← argaddr 0;
  r ← kop (kwait proc_addr xstate_addr p);
  mret (widen r).
Definition sys_wait_again (addr : Z) : M (trapst V T K D) outcome :=
  r ← kop (kwait_again proc_addr xstate_addr addr);
  mret (widen r).

Definition sys_sbrk : M (trapst V T K D) outcome :=
  n ← argint 0;
  t ← argint 1;
  p ← kop myproc;
  addr ← kop (gets (λ k, p_sz (getp p k)));
  if (t =? SBRK_EAGER) || (n <? 0) then
    r ← kop (growproc n);
    if r <? 0 then mret (Done (u64 (-1))) else mret (Done addr)
  else if u64 (addr + n) <? addr then mret (Done (u64 (-1)))
  else
    kop (upd p (λ x, set_sz (u64 (p_sz x + n)) x));;
    mret (Done addr).

(** The loop of [sys_pause] with [tickslock] held; [ticks - ticks0] is unsigned. *)
Definition pause_iter (n ticks0 : Z) : M (trapst V T K D) outcome :=
  t ← gets t_ticks;
  if u32 (t - ticks0) <? n then
    p ← kop myproc;
    k ← kop (killed p);
    if negb (k =? 0) then tunlock;; mret (Done (u64 (-1)))
    else
      kop (plock p);;
      tunlock;;
      kop (upd p (set_chan ticks_addr);; upd p (set_state SLEEPING);; switch_out);;
      mret (Sleep 0)
  else tunlock;; mret (Done 0).
Definition sys_pause : M (trapst V T K D) outcome :=
  n ← argint 0;
  let n := if n <? 0 then 0 else n in
  tlock;;
  ticks0 ← gets t_ticks;
  pause_iter n ticks0.
(** After the switch back in [sleep]. *)
Definition sys_pause_again (n ticks0 : Z) : M (trapst V T K D) outcome :=
  kop (p ← myproc; upd p (set_chan 0);; punlock p);;
  tlock;;
  pause_iter n ticks0.

Definition sys_kill : M (trapst V T K D) outcome :=
  pid ← argint 0;
  signum ← argint 1;
  r ← kop (kkill pid signum);
  mret (Done (u64 r)).

Definition sys_signal : M (trapst V T K D) outcome :=
  p ← kop myproc;
  signum ← argint 0;
  handler ← argaddr 1;
  if (signum <? 0) || (signum >=? NSIG) || (signum =? SIGKILL) then mret (Done (u64 (-1))) else
  kop (plock p);;
  previous ← kop (gets (λ k, default 0 (p_signal_handlers (getp p k) !! Z.to_nat signum)));
  kop (upd p (λ x, set_signal_handlers (<[Z.to_nat signum := handler]> (p_signal_handlers x)) x));;
  kop (upd p (λ x, set_signal_handlers_valid (Z.lor (p_signal_handlers_valid x) (Z.shiftl 1 signum)) x));;
  kop (punlock p);;
  mret (Done previous).

(** [memmove] between a trapframe page and [sig_trapframe]. *)
Definition tf_save (tf : Z) : M (trapst V T K D) (list Z) :=
  kop (vm (gets (λ v, ldbytes (pa_mem v) tf (Z.to_nat TF_SIZE)))).
Fixpoint stbytes (m : mem) (a : Z) (l : list Z) : mem :=
  match l with
  | [] => m
  | b :: l => stbytes (stb m a b) (a + 1) l
  end.
Definition tf_restore (tf : Z) (l : list Z) : M (trapst V T K D) unit :=
  kop (vm (modify (λ v, pa_set_mem (stbytes (pa_mem v) tf l) v))).

Definition sys_sigreturn : M (trapst V T K D) outcome :=
  p ← kop myproc;
  kop (plock p);;
  x ← kop (gets (getp p));
  if p_sig_trapframe_valid x =? 0 then kop (punlock p);; mret (Done (u64 (-1))) else
  tf_restore (p_trapframe x) (p_sig_trapframe x);;
  ret ← kop (tf_ld (p_trapframe x) TF_a0);
  kop (upd p (set_sig_trapframe_valid 0));;
  kop (punlock p);;
  mret (Done ret).

Definition sys_uptime : M (trapst V T K D) outcome :=
  tlock;;
  xticks ← gets t_ticks;
  tunlock;;
  mret (Done xticks).

(** ** The table *)

(** The calls of [kernel/sysfile.c] and [sys_halt], by number ([sys_file] in [Exec]). *)
Context (sys_other : Z → M (trapst V T K D) outcome).

Definition syscalls (num : Z) : option (M (trapst V T K D) outcome) :=
  if num =? SYS_fork then Some sys_fork
  else if num =? SYS_exit then Some sys_exit
  else if num =? SYS_wait then Some sys_wait
  else if num =? SYS_kill then Some sys_kill
  else if num =? SYS_signal then Some sys_signal
  else if num =? SYS_sigreturn then Some sys_sigreturn
  else if num =? SYS_getpid then Some sys_getpid
  else if num =? SYS_sbrk then Some sys_sbrk
  else if num =? SYS_pause then Some sys_pause
  else if num =? SYS_uptime then Some sys_uptime
  else if bool_decide (num ∈ [SYS_pipe; SYS_read; SYS_exec; SYS_fstat; SYS_chdir; SYS_dup; SYS_open; SYS_write;
         SYS_mknod; SYS_unlink; SYS_link; SYS_mkdir; SYS_close; SYS_halt]) then Some (sys_other num)
  else None.

(** The result of the call goes to [a0], once it comes. *)
Definition syscall_done (r : outcome) : M (trapst V T K D) outcome :=
  match r with
  | Sleep i => mret (Sleep i)
  | Done v =>
      tf ← mytf;
      kop (tf_st tf TF_a0 v);;
      mret (Done 0)
  end.
Definition syscall : M (trapst V T K D) outcome :=
  tf ← mytf;
  a7 ← kop (tf_ld tf TF_a7);
  let num := i32 a7 in
  match (if (0 <? num) && (num <? SYS_sigreturn + 1) then syscalls num else None) with
  | Some call => call ≫= syscall_done
  | None => syscall_done (Done (u64 (-1)))
  end.

(** ** Signals *)

(** The body of the loop over the signals, with the lock of [p] held. *)
Definition deliver (p signum : Z) : M (trapst V T K D) (option unit) :=
  x ← kop (gets (getp p));
  let mask := Z.shiftl 1 signum in
  if Z.land (p_pending_signals x) mask =? 0 then mret None else
  kop (upd p (set_pending_signals (Z.land (p_pending_signals x) (u64 (Z.lnot mask)))));;
  if signum =? SIGKILL then
    kop (upd p (set_killed 1));;
    kop (punlock p);;
    mret (Some tt)
  else if Z.land (p_signal_handlers_valid x) mask =? 0 then
    kop (upd p (set_killed 1));;
    kop (punlock p);;
    mret (Some tt)
  else
    let handler := default 0 (p_signal_handlers x !! Z.to_nat signum) in
    l ← tf_save (p_trapframe x);
    kop (upd p (set_sig_trapframe l));;
    kop (upd p (set_sig_trapframe_valid 1));;
    kop (tf_st (p_trapframe x) TF_epc handler);;
    kop (tf_st (p_trapframe x) TF_a0 signum);;
    kop (tf_st (p_trapframe x) TF_ra (u64 (-1)));;
    kop (punlock p);;
    mret (Some tt).

Definition handle_signals (p : Z) : M (trapst V T K D) unit :=
  if p =? 0 then mret tt else
  kop (plock p);;
  x ← kop (gets (getp p));
  if negb (p_sig_trapframe_valid x =? 0) || (p_pending_signals x =? 0) then kop (punlock p) else
  r ← for_ret (seqZ 0 NSIG) (deliver p);
  match r with
  | Some _ => mret tt
  | None => kop (punlock p)
  end.

(** ** Interrupts *)

Definition clockintr : M (trapst V T K D) unit :=
  id ← csr c_tp;
  (if i32 id =? 0 then
     tlock;;
     modify (λ s, set_t_ticks (u32 (t_ticks s + 1)) s);;
     kop (wakeup ticks_addr);;
     tunlock
   else mret tt);;
  wcsr (λ c, w_stimecmp (u64 (c_time c + 1000000)) c).

(** The devices' interrupt handlers, [kernel/uart.c] and [kernel/virtio_disk.c]. *)
Context (uartintr virtio_disk_intr : M (trapst V T K D) unit).

Definition devintr : M (trapst V T K D) Z :=
  scause ← csr c_scause;
  if scause =? 0x8000000000000009 then
    hart ← csr c_tp;
    irq ← devop (plic_claim (i32 hart));
    (if irq =? UART0_IRQ then uartintr
     else if irq =? VIRTIO0_IRQ then virtio_disk_intr
     else mret tt);;
    (if negb (irq =? 0) then devop (plic_complete (i32 hart) irq) else mret tt);;
    mret 1
  else if scause =? 0x8000000000000005 then
    clockintr;;
    mret 2
  else mret 0.

Definition prepare_return : M (trapst V T K D) unit :=
  p ← kop myproc;
  intr_off;;
  let trampoline_uservec := TRAMPOLINE + (uservec_addr - trampoline) in
  wcsr (w_stvec trampoline_uservec);;
  x ← kop (gets (getp p));
  let tf := p_trapframe x in
  satp ← csr c_satp;
  kop (tf_st tf TF_kernel_satp satp);;
  kop (tf_st tf TF_kernel_sp (u64 (p_kstack x + PGSIZE)));;
  kop (tf_st tf TF_kernel_trap usertrap_addr);;
  tp ← csr c_tp;
  kop (tf_st tf TF_kernel_hartid tp);;
  ss ← csr c_sstatus;
  let ss := Z.land ss (u64 (Z.lnot SSTATUS_SPP)) in
  let ss := Z.lor ss SSTATUS_SPIE in
  wcsr (w_sstatus ss);;
  epc ← kop (tf_ld tf TF_epc);
  wcsr (w_sepc epc).

(** ** Traps from user space *)

(** The end of [usertrap]: the [satp] of the process, or the process is gone. *)
Definition usertrap_end : M (trapst V T K D) outcome :=
  p ← kop myproc;
  handle_signals p;;
  k ← kop (killed p);
  if negb (k =? 0) then kop (kexit proc_addr (-1));; mret (Sleep 0) else
  prepare_return;;
  pt ← kop (gets (λ k, p_pagetable (getp p k)));
  mret (Done (MAKE_SATP pt)).

(** What follows a system call's switch back, or the [yield] of a timer
    interrupt. *)
Definition usertrap_called (r : outcome) : M (trapst V T K D) outcome :=
  match r with
  | Sleep i => mret (Sleep i)
  | Done _ => usertrap_end
  end.
Definition usertrap_yielded : M (trapst V T K D) outcome :=
  kop yield_back;;
  usertrap_end.

Definition usertrap : M (trapst V T K D) outcome :=
  ss ← csr c_sstatus;
  panic_if (negb (Z.land ss SSTATUS_SPP =? 0)) "usertrap: not from user mode";;
  wcsr (w_stvec kernelvec_addr);;
  p ← kop myproc;
  x ← kop (gets (getp p));
  panic_if (negb (p_is_kthread x =? 0)) "kthread in usertrap";;
  sepc ← csr c_sepc;
  kop (tf_st (p_trapframe x) TF_epc sepc);;
  scause ← csr c_scause;
  if scause =? 8 then
    k ← kop (killed p);
    if negb (k =? 0) then kop (kexit proc_addr (-1));; mret (Sleep 0) else
    epc ← kop (tf_ld (p_trapframe x) TF_epc);
    kop (tf_st (p_trapframe x) TF_epc (u64 (epc + 4)));;
    intr_on;;
    r ← syscall;
    usertrap_called r
  else
    which_dev ← devintr;
    if negb (which_dev =? 0) then
      if which_dev =? 2 then kop yield_out;; mret (Sleep 0) else usertrap_end
    else
      stval ← csr c_stval;
      pa ← (if (scause =? 15) || (scause =? 13)
            then kop (vm (vmfault (p_sz x) (p_pagetable x) (p_pagetable x) stval))
            else mret 0);
      if negb (pa =? 0) then usertrap_end
      else kop (setkilled p);; usertrap_end.

(** [kerneltrap] up to the [yield] of a timer interrupt, if it makes one, and
    what restores the registers. *)
Definition kerneltrap_end (sepc sstatus : Z) : M (trapst V T K D) unit :=
  wcsr (w_sepc sepc);;
  wcsr (w_sstatus sstatus).
Definition kerneltrap : M (trapst V T K D) outcome :=
  sepc ← csr c_sepc;
  ss ← csr c_sstatus;
  panic_if (Z.land ss SSTATUS_SPP =? 0) "kerneltrap: not from supervisor mode";;
  i ← intr_get;
  panic_if i "kerneltrap: interrupts enabled";;
  which_dev ← devintr;
  panic_if (which_dev =? 0) "kerneltrap";;
  p ← kop myproc;
  if (which_dev =? 2) && negb (p =? 0) then kop yield_out;; mret (Sleep 0)
  else kerneltrap_end sepc ss;; mret (Done 0).
End Trap.
