(* ===== verification/TrapProps.v ===== *)
(** * What traps promise to processes

    A signal interrupts a process and [sigreturn] takes it back where it was;
    and what a process may do to its size with [sbrk]. *)

From S2P Require Import Prelude Wlp Mem Kstring Layout PageAlloc Vm BufIface Sleeplock TxIface Fs Ring Pipe File Proc ProcInv Trap.

Section Bytes.
(** ** Bytes of memory *)

Lemma ldb_stbytes_out m a l b : b < a ∨ a + Z.of_nat (length l) ≤ b → ldb (stbytes m a l) b = ldb m b.
Proof.
  revert m a. induction l as [|x l IH]; intros m a H; [done|]. cbn [stbytes length] in *. rewrite IH by lia. apply ldb_stb_ne. lia.
Qed.
Lemma ldb_stbytes_in m a l i x : l !! i = Some x → ldb (stbytes m a l) (a + Z.of_nat i) = u8 x.
Proof.
  revert m a i. induction l as [|y l IH]; intros m a i H; [done|]. destruct i as [|i]; cbn [stbytes] in *.
  - injection H as ->. rewrite ldb_stbytes_out by lia. rewrite Z.add_0_r. apply ldb_stb_eq.
  - replace (a + Z.of_nat (S i)) with (a + 1 + Z.of_nat i) by lia. by apply IH.
Qed.
Lemma ldbytes_lookup m a n i : (i < n)%nat → ldbytes m a n !! i = Some (ldb m (a + Z.of_nat i)).
Proof. intros H. unfold ldbytes. rewrite list_lookup_fmap, lookup_seq_lt by done. done. Qed.
Lemma length_ldbytes m a n : length (ldbytes m a n) = n.
Proof. unfold ldbytes. by rewrite length_fmap, length_seq. Qed.
Lemma ldbytes_ext m m' a n : (∀ i, 0 ≤ i < Z.of_nat n → ldb m (a + i) = ldb m' (a + i)) → ldbytes m a n = ldbytes m' a n.
Proof.
  intros H. apply list_eq. intros i. destruct (decide (i < n)%nat); [rewrite !ldbytes_lookup by done; f_equal; apply H; lia|].
  rewrite !lookup_ge_None_2; rewrite ?length_ldbytes; done || lia.
Qed.
Lemma ldbytes_stbytes m m0 a n : ldbytes (stbytes m a (ldbytes m0 a n)) a n = ldbytes m0 a n.
Proof.
  apply ldbytes_ext. intros i Hi. replace i with (Z.of_nat (Z.to_nat i)) by lia.
  rewrite (ldb_stbytes_in m a _ (Z.to_nat i) (ldb m0 (a + Z.of_nat (Z.to_nat i)))) by (apply ldbytes_lookup; lia).
  unfold u8. apply Z.mod_small, ldb_range.
Qed.

(** Storing what is there changes nothing. *)
Lemma ldb_stn_same n m a b : ldb (stn n m a (ldn n m a)) b = ldb m b.
Proof.
  revert m a. induction n as [|n IH]; intros m a; [done|]. pose proof (ldb_range m a) as Hr.
  change (ldn (S n) m a) with (ldb m a + 256 * ldn n m (a + 1)). change (stn (S n) m a ?v) with (stb (stn n m (a + 1) (v / 256)) a v). rewrite ldb_stb.
  replace ((ldb m a + 256 * ldn n m (a + 1)) / 256) with (ldn n m (a + 1)) by (rewrite (Z.mul_comm 256), Z.div_add, Z.div_small by lia; lia).
  case_bool_decide as E; [|apply IH]. subst b. unfold u8. rewrite Z.mul_comm, Z_mod_plus_full. by apply Z.mod_small.
Qed.
End Bytes.

Section TrapProps.
Context {V T K D : Type} {PO : PageAllocOps V} {TO : TxOps T} {KO : KmOps K} {MM : Mmio D}.
Context (pa_mem_set : ∀ m (v : V), pa_mem (pa_set_mem m v) = m).
Context (trampoline forkret_addr kernelvec_addr usertrap_addr uservec_addr ticks_addr : Z) (proc_addr xstate_addr : Z → Z).
Context (sys_other : Z → M (trapst V T K D) outcome).
Implicit Types s : trapst V T K D.

Definition tmem s : mem := pa_mem (k_vm (t_k s)).

(** The first signal pending in [x], with a handler of the process's own. *)
Record signalled (x : proc) (signum : Z) : Prop := {
  sg_range : 0 ≤ signum < NSIG;
  sg_kill : signum ≠ SIGKILL;
  sg_pending : Z.testbit (p_pending_signals x) signum = true;
  sg_first : ∀ j, 0 ≤ j < signum → Z.testbit (p_pending_signals x) j = false;
  sg_handler : Z.testbit (p_signal_handlers_valid x) signum = true;
  sg_idle : p_sig_trapframe_valid x = 0
}.

Lemma land_bit_0 (x i : Z) : 0 ≤ i → (Z.land x (Z.shiftl 1 i) =? 0) = negb (Z.testbit x i).
Proof.
  intros Hi. destruct (Z.testbit x i) eqn:E; cbn [negb].
  - apply Z.eqb_neq. intros H. apply (f_equal (λ z, Z.testbit z i)) in H. rewrite Z.land_spec, Z.shiftl_spec, E, Z.sub_diag, Z.testbit_0_l in H by done. done.
  - apply Z.eqb_eq. apply Z.bits_inj_0. intros j. rewrite Z.land_spec. destruct (decide (0 ≤ j)); [|by rewrite Z.testbit_neg_r by lia].
    destruct (decide (j = i)) as [->|]; [by rewrite E|]. rewrite Z.shiftl_1_l, Z.pow2_bits_false by lia. apply andb_false_r.
Qed.

(** [p] runs its handler: what [sigreturn] needs is in its entry. *)
Record handling (p tf : Z) (l : list Z) s : Prop := {
  hd_cur : k_cur (t_k s) = p;
  hd_lock : p_lock (getp p (t_k s)) = false;
  hd_valid : p_sig_trapframe_valid (getp p (t_k s)) = 1;
  hd_saved : p_sig_trapframe (getp p (t_k s)) = l;
  hd_tf : p_trapframe (getp p (t_k s)) = tf
}.

Lemma wp_kop {A} (m : M (kern V T K) A) Q s : wp (kop m) Q s = wp m (λ a k, Q a (set_t_k k s)) (t_k s).
Proof. apply wp_lift. Qed.
Lemma getp_vm p v (k : kern V T K) : getp p (set_k_vm v k) = getp p k.
Proof. done. Qed.
Lemma set_t_k_id s : set_t_k (t_k s) s = s.
Proof. by destruct s. Qed.
Lemma set_t_k_twice a b s : set_t_k a (set_t_k b s) = set_t_k a s.
Proof. done. Qed.
Lemma set_k_vm_twice a b (k : kern V T K) : set_k_vm a (set_k_vm b k) = set_k_vm a k.
Proof. done. Qed.
Lemma wp_kgets {A} (f : kern V T K → A) Q s : wp (kop (gets f)) Q s = Q (f (t_k s)) s.
Proof. rewrite wp_kop, wp_gets. by rewrite set_t_k_id. Qed.
Lemma wp_kupd p g Q s : Q tt (set_t_k (modp p g (t_k s)) s) → wp (kop (upd p g)) Q s.
Proof. by rewrite wp_kop. Qed.
Lemma wp_tf_ld tf off Q s : Q (ld64 (tmem s) (tf + off)) s → wp (kop (tf_ld tf off)) Q s.
Proof. intros HQ. rewrite wp_kop. unfold tf_ld, vm. rewrite wp_lift, wp_gets. rewrite set_k_vm_id, set_t_k_id. exact HQ. Qed.
Lemma wp_kplock p Q s : p_lock (getp p (t_k s)) = false → Q tt (set_t_k (locked_at p (t_k s)) s) → wp (kop (plock p)) Q s.
Proof. intros Hl HQ. rewrite wp_kop. unfold plock, lock. rewrite wp_bind, wp_modify, wp_acquire. by split. Qed.
Lemma wp_kpunlock p Q s : p_lock (getp p (t_k s)) = true → Q tt (set_t_k (unlocked_at p (t_k s)) s) → wp (kop (punlock p)) Q s.
Proof. intros Hl HQ. rewrite wp_kop. unfold punlock, unlock. rewrite wp_bind, wp_release. by split. Qed.
Lemma wp_tf_st tf off x Q s :
  (∀ v, pa_mem v = st64 (tmem s) (tf + off) x → Q tt (set_t_k (set_k_vm v (t_k s)) s)) → wp (kop (tf_st tf off x)) Q s.
Proof. intros HQ. rewrite wp_kop. unfold tf_st, vm. rewrite wp_lift, wp_modify. apply HQ, pa_mem_set. Qed.

Lemma deliver_skip p j Q s :
  0 ≤ j → Z.testbit (p_pending_signals (getp p (t_k s))) j = false → Q None s → wp (deliver p j) Q s.
Proof.
  intros Hj Hb HQ. unfold deliver. rewrite wp_bind, wp_kgets, land_bit_0, Hb by done. done.
Qed.

Lemma sigreturn_spec p tf l m0 Q s :
  handling p tf l s → l = ldbytes m0 tf (Z.to_nat TF_SIZE) →
  (∀ s', ldbytes (tmem s') tf (Z.to_nat TF_SIZE) = l → same_outside (λ a, tf ≤ a < tf + TF_SIZE) (tmem s) (tmem s') →
     k_cur (t_k s') = p → p_lock (getp p (t_k s')) = false → p_sig_trapframe_valid (getp p (t_k s')) = 0 → p_trapframe (getp p (t_k s')) = tf →
     Q (Done (ld64 (tmem s') (tf + TF_a0))) s') →
  wp sys_sigreturn Q s.
Proof.
  intros [Hc Hlk Hv Hs Htf] Hl HQ. unfold sys_sigreturn, myproc. rewrite wp_bind, wp_kgets, Hc, wp_bind. apply wp_kplock; [done|].
  rewrite wp_bind, wp_kgets. cbn [t_k set_t_k]. rewrite getp_locked. cbn [p_sig_trapframe_valid set_lock p_trapframe p_sig_trapframe].
  rewrite Hv, Hs, Htf. cbn [Z.eqb]. rewrite wp_bind. unfold tf_restore. rewrite wp_kop. unfold vm. rewrite wp_lift, wp_modify.
  rewrite wp_bind. apply wp_tf_ld. rewrite wp_bind. apply wp_kupd. rewrite wp_bind. apply wp_kpunlock.
  { cbn [t_k set_t_k]. rewrite getp_modp_eq. cbn [p_lock set_sig_trapframe_valid]. by rewrite getp_vm, getp_locked. }
  rewrite wp_ret. match goal with |- Q _ ?S => change (Q (Done (ld64 (tmem S) (tf + TF_a0))) S); set (s' := S) end.
  assert (tmem s' = stbytes (tmem s) tf l) as Hm by apply pa_mem_set. apply HQ; try done.
  - rewrite Hm, Hl. apply ldbytes_stbytes.
  - rewrite Hm. intros a Ha. apply ldb_stbytes_out. rewrite Hl, length_ldbytes. lia.
  - unfold s'. cbn [t_k set_t_k]. by rewrite getp_unlocked.
  - unfold s'. cbn [t_k set_t_k]. rewrite getp_unlocked. cbn. by rewrite getp_modp_eq.
  - unfold s'. cbn [t_k set_t_k]. rewrite getp_unlocked. cbn. rewrite getp_modp_eq. cbn. by rewrite getp_vm, getp_locked.
Qed.

Lemma syscall_sigreturn p tf l m0 s :
  handling p tf l s → l = ldbytes m0 tf (Z.to_nat TF_SIZE) → i32 (ld64 (tmem s) (tf + TF_a7)) = SYS_sigreturn →
  wp (syscall trampoline forkret_addr ticks_addr proc_addr xstate_addr sys_other) (λ r s', r = Done 0 ∧
    ldbytes (tmem s') tf (Z.to_nat TF_SIZE) = l ∧ same_outside (λ a, tf ≤ a < tf + TF_SIZE) (tmem s) (tmem s') ∧
    p_lock (getp p (t_k s')) = false ∧ p_sig_trapframe_valid (getp p (t_k s')) = 0) s.
Proof.
  intros H Hl Ha7. unfold syscall, mytf. rewrite wp_bind, wp_kop. unfold myproc. rewrite wp_bind, !wp_gets, set_t_k_id, (hd_cur _ _ _ _ H), (hd_tf _ _ _ _ H).
  rewrite wp_bind. apply wp_tf_ld. rewrite Ha7. change (if _ && _ then syscalls _ _ _ _ _ _ SYS_sigreturn else None) with (Some (sys_sigreturn (V := V) (T := T) (K := K) (D := D))).
  cbv iota. rewrite wp_bind. eapply sigreturn_spec; [done|done|]. intros s1 Hb Hs Hc Hlk Hv Htf. cbv beta. unfold syscall_done, mytf.
  rewrite wp_bind, wp_kop. unfold myproc. rewrite wp_bind, !wp_gets, set_t_k_id, Hc, Htf. rewrite wp_bind. apply wp_tf_st. intros v Hv'. rewrite wp_ret.
  set (s2 := set_t_k _ _). assert (tmem s2 = st64 (tmem s1) (tf + TF_a0) (ld64 (tmem s1) (tf + TF_a0))) as Hm by exact Hv'. split_and!; try done.
  - rewrite Hm, <-Hb. apply ldbytes_ext. intros i _. apply ldb_stn_same.
  - rewrite Hm. intros a Ha. rewrite ldb_stn_same. by apply Hs.
Qed.

Lemma seqZ_split n d x r : seqZ 0 n = d ++ x :: r → x = Z.of_nat (length d).
Proof.
  intros H. assert (seqZ 0 n !! length d = Some x) as E by (rewrite H; apply list_lookup_middle; done). apply lookup_seqZ in E. lia.
Qed.

(** The registers the handler starts with. *)
Definition handler_frame (x : proc) (signum : Z) (m : mem) : mem :=
  st64 (st64 (st64 m (p_trapframe x + TF_epc) (default 0 (p_signal_handlers x !! Z.to_nat signum))) (p_trapframe x + TF_a0) signum) (p_trapframe x + TF_ra) (u64 (-1)).

Lemma deliver_hit p signum Q s :
  p_lock (getp p (t_k s)) = true → signalled (getp p (t_k s)) signum → k_cur (t_k s) = p →
  (∀ s', handling p (p_trapframe (getp p (t_k s))) (ldbytes (tmem s) (p_trapframe (getp p (t_k s))) (Z.to_nat TF_SIZE)) s' →
     tmem s' = handler_frame (getp p (t_k s)) signum (tmem s) →
     p_pending_signals (getp p (t_k s')) = Z.land (p_pending_signals (getp p (t_k s))) (u64 (Z.lnot (Z.shiftl 1 signum))) → Q (Some tt) s') →
  wp (deliver p signum) Q s.
Proof.
  intros Hl [Hr Hk Hp _ Hh _] Hc HQ. unfold deliver. rewrite wp_bind, wp_kgets, land_bit_0, Hp by lia. cbn [negb]. rewrite wp_bind. apply wp_kupd.
  destruct (Z.eqb_spec signum SIGKILL); [done|]. rewrite land_bit_0, Hh by lia. cbn [negb]. unfold tf_save. rewrite wp_bind, wp_kop. unfold vm. rewrite wp_lift, wp_gets.
  rewrite set_k_vm_id, set_t_k_id. rewrite wp_bind. apply wp_kupd. rewrite wp_bind. apply wp_kupd. rewrite !set_t_k_twice. cbn [t_k set_t_k]. rewrite !modp_modp.
  change (pa_mem (k_vm (modp p _ (t_k s)))) with (tmem s). match goal with |- context [modp p ?h (t_k s)] => set (g := h) end. assert (∀ x, p_lock (g x) = p_lock x) as Hgl by done.
  rewrite wp_bind. apply wp_tf_st. intros v1 E1. rewrite wp_bind. apply wp_tf_st. intros v2 E2. rewrite wp_bind. apply wp_tf_st. intros v3 E3.
  rewrite !set_t_k_twice. cbn [t_k set_t_k]. rewrite !set_k_vm_twice. change (pa_mem v2 = st64 (pa_mem v1) (p_trapframe (getp p (t_k s)) + TF_a0) signum) in E2.
  change (pa_mem v3 = st64 (pa_mem v2) (p_trapframe (getp p (t_k s)) + TF_ra) (u64 (-1))) in E3.
  rewrite wp_bind. apply wp_kpunlock; [cbn [t_k set_t_k]; by rewrite getp_vm, getp_modp_eq, Hgl|]. rewrite wp_ret. cbn [t_k set_t_k]. rewrite set_t_k_twice.
  apply HQ.
  - split; cbn [t_k set_t_k]; rewrite ?getp_unlocked, ?getp_vm, ?getp_modp_eq; done.
  - change (pa_mem v3 = handler_frame (getp p (t_k s)) signum (tmem s)). rewrite E3, E2, E1. done.
  - cbn [t_k set_t_k]. rewrite getp_unlocked, getp_vm, getp_modp_eq. done.
Qed.

Lemma signalled_lock b x n : signalled x n → signalled (set_lock b x) n.
Proof. by intros []. Qed.

Lemma handle_signals_hit p signum Q s :
  p ≠ 0 → p_lock (getp p (t_k s)) = false → signalled (getp p (t_k s)) signum → k_cur (t_k s) = p →
  (∀ s', handling p (p_trapframe (getp p (t_k s))) (ldbytes (tmem s) (p_trapframe (getp p (t_k s))) (Z.to_nat TF_SIZE)) s' →
     tmem s' = handler_frame (getp p (t_k s)) signum (tmem s) →
     p_pending_signals (getp p (t_k s')) = Z.land (p_pending_signals (getp p (t_k s))) (u64 (Z.lnot (Z.shiftl 1 signum))) → Q tt s') →
  wp (handle_signals p) Q s.
Proof.
  intros Hp Hl Hs Hc HQ. unfold handle_signals. destruct (Z.eqb_spec p 0); [done|]. rewrite wp_bind. apply wp_kplock; [done|].
  set (s0 := set_t_k (locked_at p (t_k s)) s). assert (getp p (t_k s0) = set_lock true (getp p (t_k s))) as E0 by apply getp_locked.
  rewrite wp_bind, wp_kgets, E0. cbn [p_sig_trapframe_valid set_lock p_pending_signals]. rewrite (sg_idle _ _ Hs).
  destruct (Z.eqb_spec (p_pending_signals (getp p (t_k s))) 0) as [E|_].
  { pose proof (sg_pending _ _ Hs) as H. by rewrite E, Z.testbit_0_l in H. }
  cbn [Z.eqb negb orb]. rewrite wp_bind.
  apply (wp_for_ret (λ d s', s' = s0 ∧ Z.of_nat (length d) ≤ signum)).
  - pose proof (sg_range _ _ Hs). split; [done|]. cbn. lia.
  - intros d j r s' Hj%seqZ_split [-> Hd]. rewrite <-Hj in Hd. destruct (decide (j = signum)) as [->|Hne].
    + apply deliver_hit; [by rewrite E0|rewrite E0; by apply signalled_lock|exact Hc|]. rewrite E0. intros s1 H1 H2 H3. rewrite wp_ret. by apply HQ.
    + apply deliver_skip; [lia|rewrite E0; apply (sg_first _ _ Hs); lia|]. split; [done|]. rewrite length_app. cbn. lia.
  - intros s' [_ H]. rewrite length_seqZ in H. pose proof (sg_range _ _ Hs). unfold NSIG in *. lia.
Qed.

(** While a handler runs no other signal is delivered. *)
Lemma handle_signals_off p tf l s : handling p tf l s → p ≠ 0 → wp (handle_signals p) (λ _ s', handling p tf l s' ∧ tmem s' = tmem s) s.
Proof.
  intros [Hc Hlk Hv Hs Htf] Hp. unfold handle_signals. destruct (Z.eqb_spec p 0); [done|]. rewrite wp_bind. apply wp_kplock; [done|].
  rewrite wp_bind, wp_kgets. cbn [t_k set_t_k]. rewrite getp_locked. cbn [p_sig_trapframe_valid set_lock]. rewrite Hv. cbn [Z.eqb negb orb].
  apply wp_kpunlock; [cbn [t_k set_t_k]; by rewrite getp_locked|]. split; [|done]. split; cbn [t_k set_t_k]; rewrite ?getp_unlocked, ?getp_locked; done.
Qed.

(** C10: A signal that a process handles interrupts it without a trace.  When
    [handle_signals] finds a signal with a handler, the process enters the
    handler with the signal's number, and nothing else of its memory changes;
    no further signal is delivered while the handler runs; and whatever the
    handler does to registers and memory meanwhile, its [sigreturn] brings back
    every register as it was, [a0] included, and touches no other memory. *)
Theorem signal_roundtrip p signum s :
  let x := getp p (t_k s) in let tf := p_trapframe x in let saved := ldbytes (tmem s) tf (Z.to_nat TF_SIZE) in
  k_cur (t_k s) = p → p ≠ 0 → p_lock x = false → signalled x signum →
  wp (handle_signals p) (λ _ s1,
    handling p tf saved s1 ∧ tmem s1 = handler_frame x signum (tmem s) ∧
    p_pending_signals (getp p (t_k s1)) = Z.land (p_pending_signals x) (u64 (Z.lnot (Z.shiftl 1 signum))) ∧
    ∀ s2, handling p tf saved s2 →
      wp (handle_signals p) (λ _ s3, handling p tf saved s3 ∧ tmem s3 = tmem s2) s2 ∧
      (i32 (ld64 (tmem s2) (tf + TF_a7)) = SYS_sigreturn →
       wp (syscall trampoline forkret_addr ticks_addr proc_addr xstate_addr sys_other) (λ r s3, r = Done 0 ∧
         ldbytes (tmem s3) tf (Z.to_nat TF_SIZE) = saved ∧ same_outside (λ a, tf ≤ a < tf + TF_SIZE) (tmem s2) (tmem s3) ∧
         p_lock (getp p (t_k s3)) = false ∧ p_sig_trapframe_valid (getp p (t_k s3)) = 0) s2)) s.
Proof.
  intros x tf saved Hc Hp Hl Hs. apply (handle_signals_hit p signum); try done. intros s1 H1 H2 H3. split_and!; try done.
  intros s2 Hh. split; [by apply handle_signals_off|]. intros Ha7. by eapply syscall_sigreturn.
Qed.

(** ** [sbrk] *)

(** A process asks for [n] more bytes, to be allocated when they are used. *)
Definition sbrk_lazy (tf n : Z) : M (trapst V T K D) outcome :=
  kop (tf_st tf TF_a0 n);;
  kop (tf_st tf TF_a1 SBRK_LAZY);;
  kop (tf_st tf TF_a7 SYS_sbrk);;
  syscall trampoline forkret_addr ticks_addr proc_addr xstate_addr sys_other.

Record has_size (p tf sz : Z) s : Prop := {
  hs_cur : k_cur (t_k s) = p;
  hs_tf : p_trapframe (getp p (t_k s)) = tf;
  hs_sz : p_sz (getp p (t_k s)) = sz
}.

Lemma wp_mytf p tf sz Q s : has_size p tf sz s → Q tf s → wp mytf Q s.
Proof. intros [Hc Ht _] HQ. unfold mytf, myproc. rewrite wp_kop, wp_bind, !wp_gets, Hc, Ht. by rewrite set_t_k_id. Qed.
Lemma has_size_vm p tf sz v s : has_size p tf sz s → has_size p tf sz (set_t_k (set_k_vm v (t_k s)) s).
Proof. by intros []. Qed.

Lemma sbrk_lazy_spec p tf sz n s :
  has_size p tf sz s → 0 ≤ sz → 0 ≤ n < 2147483648 → sz + n < 18446744073709551616 →
  wp (sbrk_lazy tf n) (λ r s', r = Done 0 ∧ has_size p tf (sz + n) s') s.
Proof.
  intros H Hsz Hn Hov. unfold sbrk_lazy. rewrite wp_bind. apply wp_tf_st. intros v1 E1. rewrite wp_bind. apply wp_tf_st. intros v2 E2. rewrite wp_bind. apply wp_tf_st. intros v3 E3.
  rewrite !set_t_k_twice. cbn [t_k set_t_k]. rewrite !set_k_vm_twice. change (pa_mem v2 = st64 (pa_mem v1) (tf + TF_a1) SBRK_LAZY) in E2. change (pa_mem v3 = st64 (pa_mem v2) (tf + TF_a7) SYS_sbrk) in E3.
  set (s1 := set_t_k _ _). assert (has_size p tf sz s1) as H1 by by apply has_size_vm. 
  assert (ld64 (tmem s1) (tf + TF_a7) = SYS_sbrk) as Ha7. { change (tmem s1) with (pa_mem v3). rewrite E3. apply ld64_st64_eq. unfold SYS_sbrk. lia. }
  assert (ld64 (tmem s1) (tf + TF_a1) = SBRK_LAZY) as Ha1.
  { change (tmem s1) with (pa_mem v3). rewrite E3, ldn_stn_ne by (unfold TF_a1, TF_a7; lia). rewrite E2. apply ld64_st64_eq. unfold SBRK_LAZY. lia. }
  assert (ld64 (tmem s1) (tf + TF_a0) = n) as Ha0.
  { change (tmem s1) with (pa_mem v3). rewrite E3, ldn_stn_ne by (unfold TF_a0, TF_a7; lia). rewrite E2, ldn_stn_ne by (unfold TF_a0, TF_a1; lia). rewrite E1. apply ld64_st64_eq. lia. }
  unfold syscall. rewrite wp_bind. eapply wp_mytf; [done|]. rewrite wp_bind. apply wp_tf_ld. rewrite Ha7.
  change (if _ && _ then syscalls _ _ _ _ _ _ (i32 SYS_sbrk) else None) with (Some (sys_sbrk (V := V) (T := T) (K := K) (D := D))). cbv iota. rewrite wp_bind.
  unfold sys_sbrk, argint, argraw. rewrite !wp_bind. eapply wp_mytf; [done|]. cbn [Z.eqb]. apply wp_tf_ld. rewrite wp_ret, Ha0, i32_small by lia.
  rewrite !wp_bind. eapply wp_mytf; [done|]. cbn [Z.eqb]. apply wp_tf_ld. rewrite wp_ret, Ha1. change (i32 SBRK_LAZY) with 2.
  rewrite wp_bind. unfold myproc. rewrite wp_kgets, (hs_cur _ _ _ _ H1), wp_bind, wp_kgets, (hs_sz _ _ _ _ H1).
  destruct (Z.ltb_spec n 0); [lia|]. cbn [Z.eqb SBRK_EAGER orb Pos.eqb]. unfold u64 at 1. rewrite Z.mod_small by lia. destruct (Z.ltb_spec (sz + n) sz); [lia|].
  rewrite wp_bind. apply wp_kupd. rewrite wp_ret. unfold syscall_done. rewrite wp_bind.
  set (s2 := set_t_k _ _). assert (has_size p tf (sz + n) s2) as Hs2.
  { destruct H1 as [Hc Ht Hs]. split; [done|unfold s2; cbn [t_k set_t_k]; by rewrite getp_modp_eq|]. unfold s2. cbn [t_k set_t_k]. rewrite getp_modp_eq. cbn [p_sz set_sz]. rewrite Hs. unfold u64. by rewrite Z.mod_small by lia. }
  eapply wp_mytf; [done|]. rewrite wp_bind. apply wp_tf_st. intros v4 _. rewrite wp_ret. split; [done|]. by apply has_size_vm.
Qed.

Lemma sbrk_grow p tf sz k s :
  has_size p tf sz s → 0 ≤ sz → sz + Z.of_nat k * 2147483647 < 18446744073709551616 →
  wp (for_each (replicate k 2147483647) (λ n, sbrk_lazy tf n;; mret tt)) (λ _ s', has_size p tf (sz + Z.of_nat k * 2147483647) s') s.
Proof.
  revert sz s. induction k as [|k IH]; intros sz s H Hsz Hov.
  - cbn [replicate for_each]. rewrite wp_ret. by rewrite Z.add_0_r.
  - cbn [replicate for_each]. rewrite !wp_bind. eapply wp_mono; [apply (sbrk_lazy_spec p tf sz); [done|lia..]|]. intros r s1 [_ H1]. rewrite wp_ret.
    eapply wp_mono; [apply (IH (sz + 2147483647)); [done|lia..]|]. intros [] s2 H2. by replace (sz + Z.of_nat (S k) * 2147483647) with (sz + 2147483647 + Z.of_nat k * 2147483647) by lia.
Qed.

(** Reading beyond the addresses of a process larger than them. *)
Lemma copyin_beyond psz root dst v : MAXVA < psz → copyin psz root root dst MAXVA 8 v = Panic "walk".
Proof.
  intros H. unfold copyin. change (Z.to_nat (8 / PGSIZE) + 3)%nat with 3%nat. cbn [loop]. apply bind_Panic. change (negb (0 <? 8)) with false. cbv iota.
  change (PGROUNDDOWN MAXVA) with MAXVA. apply bind_Panic. unfold fault_in. erewrite bind_Ok; [|reflexivity]. cbn [Z.eqb].
  unfold vmfault. replace (psz <=? MAXVA) with false by (symmetry; lia). cbv iota. change (PGROUNDDOWN MAXVA) with MAXVA. apply bind_Panic.
  unfold ismapped, walk, walk_with_level, walk_to_level. do 3 apply bind_Panic. done.
Qed.

(** C32: [sbrk] does not bound the size of a process by the addresses there are:
    129 calls for memory to be allocated when used, which all succeed, take any
    process beyond [MAXVA], and then a system call that reads an argument at
    [MAXVA] stops the machine. *)
Theorem sbrk_lazy_panics p tf sz ip s :
  has_size p tf sz s → 0 ≤ sz < MAXVA →
  ∃ s', for_each (replicate 129 2147483647) (λ n, sbrk_lazy tf n;; mret tt) s = Ok tt s' ∧ fetchaddr MAXVA ip s' = Panic "walk".
Proof.
  intros H Hsz. assert (MAXVA = 274877906944) as EM by reflexivity. destruct (wp_Ok _ _ _ (sbrk_grow p tf sz 129 s H ltac:(lia) ltac:(lia))) as ([] & s' & Hrun & Hs'). exists s'. split; [exact Hrun|].
  destruct Hs' as [Hc' Ht' Hz']. unfold fetchaddr, myproc. erewrite bind_Ok; [|unfold kop, lift, gets; rewrite Hc'; reflexivity].
  rewrite set_t_k_id. erewrite bind_Ok; [|unfold kop, lift, gets; reflexivity]. rewrite set_t_k_id, Hz'.
  rewrite Z.geb_leb, Z.gtb_ltb, (proj2 (Z.leb_gt _ _)) by lia. unfold u64. rewrite (Z.mod_small (MAXVA + 8)) by lia. rewrite (proj2 (Z.ltb_ge _ _)) by lia.
  cbn [orb]. apply bind_Panic. unfold kop, vm, lift. rewrite copyin_beyond by lia. done.
Qed.
End TrapProps.

Module TrapWitness.
#[local] Instance flat : PageAllocOps mem := {|
  pa_mem m := m; pa_set_mem m _ := m;
  pa_kalloc := mret 0; pa_kfree _ := mret tt; pa_kalloc_huge := mret 0; pa_kfree_huge _ := mret tt
|}.
#[local] Instance no_tx : TxOps unit := {|
  tx_initlog _ _ := mret tt; tx_begin_op := mret tt; tx_end_op := mret tt; tx_bread _ _ := mret 1;
  tx_brelse _ := mret tt; tx_log_write _ := mret tt; tx_data _ _ := ∅; tx_set_data _ _ t := t
|}.
#[local] Instance no_km : KmOps unit := {| km_alloc _ := mret 0; km_free _ _ := mret tt |}.

(** A process with a handler at 64 for signal 2, which is pending. *)
Definition x2 : proc := set_trapframe 4096 (set_pid 5 (set_state RUNNING (set_pending_signals 4 (set_signal_handlers_valid 4
  (set_signal_handlers (<[2%nat := 64]> (replicate 32 0)) proc0))))).
Definition st2 : trapst mem unit unit unit :=
  TS (Kern {[1 := x2]} 1 0 0 6 false false {[4096 + TF_a0 := 7]} (Files false ∅ ∅ tt (Fs (SB 0 0 0 0 0 0 0 0) false ∅ (UMem ∅ (λ _, false) (λ _, false)) tt)))
    (Csr 0 0 0 0 0 0 0 0 0) 0 false tt.

Lemma flat_set m (v : mem) : pa_mem (pa_set_mem m v) = m.
Proof. reflexivity. Qed.

Lemma signalled2 : signalled x2 2.
Proof.
  split; try done. intros j Hj. assert (j = 0 ∨ j = 1) as [->| ->] by lia; reflexivity.
Qed.

Lemma signal_roundtrip_witness :
  wp (handle_signals 1) (λ _ s1, ld64 (tmem s1) (4096 + TF_epc) = 64 ∧ ld64 (tmem s1) (4096 + TF_a0) = 2) st2.
Proof.
  eapply wp_mono; [apply (signal_roundtrip flat_set 0 0 0 id id (λ _, mret (Done 0)) 1 2 st2); [done|done|done|exact signalled2]|].
  intros [] s1 (_ & Hm & _). rewrite Hm. split; vm_compute; reflexivity.
Defined.

Lemma sbrk_lazy_panics_witness :
  ∃ s', for_each (replicate 129 2147483647) (λ n, sbrk_lazy 0 0 0 id id (λ _, mret (Done 0)) 4096 n;; mret tt) st2 = Ok tt s' ∧ fetchaddr MAXVA 8192 s' = Panic "walk".
Proof. apply (sbrk_lazy_panics flat_set 0 0 0 id id (λ _, mret (Done 0)) 1 4096 0 8192 st2); [by split|done]. Defined.
End TrapWitness.
