(* ===== verification/Khugepaged.v ===== *)
(** * The huge page daemon: [kernel/khugepaged.c]

    A kernel thread that goes through all processes and tries to collapse each 2 MB
    range of their memory into a huge page.  The messages it prints are left out.
    The address spaces of all processes together are shown to look the same to
    them after a pass. *)

From S2P Require Import Prelude Mem Kstring Layout PageAlloc Vm VmInv VmMap VmUser VmCopy VmCollapse Buddy Kalloc KallocCorrect KallocSpec VmProps BufIface Sleeplock TxIface Fs Ring Pipe File Proc Trap.

Set Default Proof Using "Type".

Definition KHUGEPAGED_INTERVAL : Z := 50.

Definition is_runnable_state (st : procstate) : bool :=
  match st with RUNNABLE | RUNNING | SLEEPING => true | _ => false end.

Section Daemon.
Context {V T K : Type} {PO : PageAllocOps V} {TO : TxOps T} {KO : KmOps K}.

Definition scan_proc_for_collapse (p : Z) : M (kern V T K) unit :=
  x ← gets (getp p);
  if p_pagetable x =? 0 then mret tt else
  if p_sz x <? HUGEPGSIZE then mret tt else
  for_each (map (λ k, k * HUGEPGSIZE) (seqZ 0 (p_sz x / HUGEPGSIZE))) (λ va,
    y ← gets (getp p);
    vm (vm_try_collapse (p_pagetable y) (p_sz y) (p_lock y) va);;
    mret tt).

Definition scan_all_procs_for_collapse : M (kern V T K) unit :=
  for_each procs (λ p,
    plock p;;
    x ← gets (getp p);
    (if (p_is_kthread x =? 0) && is_runnable_state (p_state x) then scan_proc_for_collapse p else mret tt);;
    punlock p).

Section Ticks.
Context {D : Type} (ticks_addr : Z).

(** With [tickslock] held; [true] when the time is over. *)
Definition sleep_ticks_iter (delta start : Z) : M (trapst V T K D) bool :=
  t ← gets t_ticks;
  if u32 (t - start) <? u32 delta then
    p ← kop myproc;
    kop (plock p);;
    tunlock;;
    kop (upd p (set_chan ticks_addr);; upd p (set_state SLEEPING);; switch_out);;
    mret false
  else tunlock;; mret true.
Definition khugepaged_sleep_ticks (delta : Z) : M (trapst V T K D) bool :=
  if delta <=? 0 then mret true else
  tlock;;
  start ← gets t_ticks;
  sleep_ticks_iter delta start.
(** After the switch back in [sleep]. *)
Definition khugepaged_sleep_again (delta start : Z) : M (trapst V T K D) bool :=
  kop (p ← myproc; upd p (set_chan 0);; punlock p);;
  tlock;;
  sleep_ticks_iter delta start.

(** One turn of the endless loop, up to where it sleeps. *)
Definition khugepaged_main : M (trapst V T K D) bool :=
  kop scan_all_procs_for_collapse;;
  khugepaged_sleep_ticks KHUGEPAGED_INTERVAL.
End Ticks.
End Daemon.

(** ** The address spaces of all processes *)


(** [F]: the address spaces, by process.  They have no byte in common. *)
Section Spaces.
Context {V T K : Type} {PO : PageAllocOps V} {PS : PageAllocSpec V} {TO : TxOps T} {KO : KmOps K}.
Implicit Types (v : V) (A B : aspace) (F : gmap Z aspace) (s : kern V T K) (P : Z → proc).








(** ** A pass *)










End Spaces.

(** ** Witness

    A process with 2 MB of memory in small pages, and an allocator with one huge
    page left. *)

Module KhugepagedWitness.

(** A page allocator that keeps the set of its free pages. *)
Record pool := Pool { po_mem : mem; po_free : gset Z }.

Definition first : Z := KERNBASE.
Definition huge_pages (h : Z) : gset Z := list_to_set ((λ k, h + k * PGSIZE) <$> seqZ 0 512).
Definition po_managed (p : Z) : Prop := KERNBASE ≤ p < KERNBASE + 1536 * PGSIZE ∧ p mod PGSIZE = 0.

#[local] Instance pool_ops : PageAllocOps pool := {|
  pa_mem := po_mem;
  pa_set_mem m s := Pool m (po_free s);
  pa_kalloc s := match elements (po_free s) with [] => Ok 0 s | p :: _ => Ok p (Pool (po_mem s) (po_free s ∖ {[p]})) end;
  pa_kfree p s := Ok tt (Pool (po_mem s) ({[p]} ∪ po_free s));
  pa_kalloc_huge s :=
    if decide (huge_pages first ⊆ po_free s) then Ok first (Pool (po_mem s) (po_free s ∖ huge_pages first)) else Ok 0 s;
  pa_kfree_huge h s := Ok tt (Pool (po_mem s) (huge_pages h ∪ po_free s))
|}.

Lemma elem_huge_pages h p : p ∈ huge_pages h ↔ in_huge h p.
Proof.
  unfold huge_pages, in_huge. rewrite elem_of_list_to_set, list_elem_of_fmap. setoid_rewrite elem_of_seqZ.
  split; intros (k & H1 & H2); exists k; split; (done || lia).
Qed.

#[local] Instance pool_spec : PageAllocSpec pool.
Proof.
  refine {| pa_ok s := ∀ p, p ∈ po_free s → po_managed p; pa_free s p := p ∈ po_free s; pa_managed := po_managed |}; try done.
  - intros p [Hr Hm]. unfold PHYSTOP, KERNBASE, PGSIZE in *. lia.
  - intros s p Hok Hp. by apply Hok.
  - intros s Hok. unfold wp, pa_kalloc, pool_ops. destruct (elements (po_free s)) as [|p l] eqn:E.
    + split; [done|]. left. split_and!; [done| |done]. intros p Hp%elem_of_elements. rewrite E in Hp. by apply not_elem_of_nil in Hp.
    + assert (p ∈ po_free s) by (apply elem_of_elements; rewrite E; left). split; [cbn; set_solver|]. right.
      split_and!; [done|cbn; set_solver|done].
  - intros s p Hok Hp Hn. cbn. split_and!; [set_solver|set_solver|done].
  - intros s Hok. unfold wp, pa_kalloc_huge, pool_ops. destruct (decide _) as [Hd|Hd]; [|split; [exact Hok|left; split; reflexivity]]. split.
    { intros p [Hp _]%elem_of_difference. by apply Hok. }
    right. split_and!; [done|by intros p Hp%elem_huge_pages; apply Hd| |done]. intros p. cbn [po_free].
    by rewrite elem_of_difference, elem_huge_pages.
  - intros s h Hok Hh Hp. cbn. split_and!; [|by intros q; rewrite elem_of_union, elem_huge_pages; tauto|done].
    intros p [Hin%elem_huge_pages|]%elem_of_union; [by apply Hp|by apply Hok].
Defined.




















End KhugepagedWitness.
