(* ===== verification/Sleep.v ===== *)
(** * [sleep] and [wakeup] do not lose wakeups

    [sleep] and [wakeup] of [kernel/proc.c] with all processes interleaved at
    their atomic steps: the acquisitions and releases of the condition lock
    [lk] and of the lock of each process, and what is done between them.  Each
    process runs one of the two sides of the protocol the kernel uses
    everywhere:

<<
      acquire(lk); while(!cond) sleep(chan, lk); cond = 0; release(lk);
      acquire(lk); cond = 1; wakeup(chan); release(lk);
>> *)

From S2P Require Import Prelude Layout Proc.

(** Where a process is in its code. *)
Inductive pc :=
  | Idle
  | Cond                 (* lk held, about to test the condition *)
  | ALock                (* sleep: about to acquire(&p->lock); lk held *)
  | RelLk                (* sleep: about to release(lk); both held *)
  | Mark                 (* sleep: about to set chan and state; p->lock held *)
  | Switch               (* sleep: in sched, the scheduler about to release p->lock *)
  | Off                  (* switched out *)
  | Tidy                 (* switched to again: about to clear chan; p->lock held *)
  | RelP                 (* sleep: about to release(&p->lock) *)
  | Again                (* sleep: about to acquire(lk) *)
  | Leave                (* lk held, about to release it *)
  | Set_                 (* lk held, about to set the condition *)
  | Wake (i : Z)         (* wakeup: lk held, entry i of the table is next *)
  | Wakep (i : Z).       (* wakeup: lk and the lock of entry i held *)

Record world := World {
  w_pc : Z → pc;
  w_lk : option Z;            (* who holds lk *)
  w_plk : Z → option Z;       (* who holds the lock of each process *)
  w_state : Z → procstate;
  w_chan : Z → Z;
  w_cond : bool
}.

Definition fset {A} (f : Z → A) (p : Z) (a : A) : Z → A := λ q, if decide (q = p) then a else f q.

Section Sleep.
Context (chan : Z).

Inductive wstep : world → world → Prop :=
  (* the consumer *)
  | st_enter p w : p ∈ procs → w_pc w p = Idle → w_lk w = None →
      wstep w (World (fset (w_pc w) p Cond) (Some p) (w_plk w) (w_state w) (w_chan w) (w_cond w))
  | st_take p w : w_pc w p = Cond → w_cond w = true →
      wstep w (World (fset (w_pc w) p Leave) (w_lk w) (w_plk w) (w_state w) (w_chan w) false)
  | st_wait p w : w_pc w p = Cond → w_cond w = false →
      wstep w (World (fset (w_pc w) p ALock) (w_lk w) (w_plk w) (w_state w) (w_chan w) (w_cond w))
  (* sleep *)
  | st_acquire p w : w_pc w p = ALock → w_plk w p = None →
      wstep w (World (fset (w_pc w) p RelLk) (w_lk w) (fset (w_plk w) p (Some p)) (w_state w) (w_chan w) (w_cond w))
  | st_release p w : w_pc w p = RelLk →
      wstep w (World (fset (w_pc w) p Mark) None (w_plk w) (w_state w) (w_chan w) (w_cond w))
  | st_mark p w : w_pc w p = Mark →
      wstep w (World (fset (w_pc w) p Switch) (w_lk w) (w_plk w) (fset (w_state w) p SLEEPING) (fset (w_chan w) p chan) (w_cond w))
  | st_switch p w : w_pc w p = Switch →
      wstep w (World (fset (w_pc w) p Off) (w_lk w) (fset (w_plk w) p None) (w_state w) (w_chan w) (w_cond w))
  | st_resume p w : w_pc w p = Off → w_state w p = RUNNABLE → w_plk w p = None →
      wstep w (World (fset (w_pc w) p Tidy) (w_lk w) (fset (w_plk w) p (Some p)) (fset (w_state w) p RUNNING) (w_chan w) (w_cond w))
  | st_tidy p w : w_pc w p = Tidy →
      wstep w (World (fset (w_pc w) p RelP) (w_lk w) (w_plk w) (w_state w) (fset (w_chan w) p 0) (w_cond w))
  | st_relp p w : w_pc w p = RelP →
      wstep w (World (fset (w_pc w) p Again) (w_lk w) (fset (w_plk w) p None) (w_state w) (w_chan w) (w_cond w))
  | st_again p w : w_pc w p = Again → w_lk w = None →
      wstep w (World (fset (w_pc w) p Cond) (Some p) (w_plk w) (w_state w) (w_chan w) (w_cond w))
  | st_leave p w : w_pc w p = Leave →
      wstep w (World (fset (w_pc w) p Idle) None (w_plk w) (w_state w) (w_chan w) (w_cond w))
  (* the producer *)
  | st_begin p w : p ∈ procs → w_pc w p = Idle → w_lk w = None →
      wstep w (World (fset (w_pc w) p Set_) (Some p) (w_plk w) (w_state w) (w_chan w) (w_cond w))
  | st_set p w : w_pc w p = Set_ →
      wstep w (World (fset (w_pc w) p (Wake 1)) (w_lk w) (w_plk w) (w_state w) (w_chan w) true)
  (* wakeup *)
  | st_self p w i : w_pc w p = Wake i → i = p → i ≤ NPROC →
      wstep w (World (fset (w_pc w) p (Wake (i + 1))) (w_lk w) (w_plk w) (w_state w) (w_chan w) (w_cond w))
  | st_visit p w i : w_pc w p = Wake i → i ≠ p → i ≤ NPROC → w_plk w i = None →
      wstep w (World (fset (w_pc w) p (Wakep i)) (w_lk w) (fset (w_plk w) i (Some p)) (w_state w) (w_chan w) (w_cond w))
  | st_check p w i : w_pc w p = Wakep i →
      wstep w (World (fset (w_pc w) p (Wake (i + 1))) (w_lk w) (fset (w_plk w) i None)
        (if bool_decide (w_state w i = SLEEPING) && (w_chan w i =? chan) then fset (w_state w) i RUNNABLE else w_state w) (w_chan w) (w_cond w))
  | st_done p w i : w_pc w p = Wake i → NPROC < i →
      wstep w (World (fset (w_pc w) p Leave) (w_lk w) (w_plk w) (w_state w) (w_chan w) (w_cond w))
  (* kill wakes a sleeper, whatever it waits for *)
  | st_kill p w : w_state w p = SLEEPING → w_plk w p = None →
      wstep w (World (w_pc w) (w_lk w) (w_plk w) (fset (w_state w) p RUNNABLE) (w_chan w) (w_cond w)).

(** Every process runs and holds nothing. *)
Definition at_rest (w : world) : Prop :=
  (∀ p, w_pc w p = Idle) ∧ w_lk w = None ∧ (∀ p, w_plk w p = None) ∧ (∀ p, w_state w p = RUNNING) ∧ (∀ p, w_chan w p = 0).

Definition has_lk (c : pc) : bool :=
  match c with Cond | ALock | RelLk | Leave | Set_ | Wake _ | Wakep _ => true | _ => false end.
Definition has_plk (p : Z) (c : pc) (q : Z) : bool :=
  match c with
  | RelLk | Mark | Switch | Tidy | RelP => bool_decide (q = p)
  | Wakep i => bool_decide (q = i)
  | _ => false
  end.

Lemma fset_eq {A} (f : Z → A) p a : fset f p a p = a.
Proof. unfold fset. by rewrite decide_True. Qed.
Lemma fset_ne {A} (f : Z → A) p q a : q ≠ p → fset f p a q = f q.
Proof. intros H. unfold fset. by rewrite decide_False. Qed.

(** ** Locks follow the code *)

Definition lk_ok (f : Z → pc) (lk : option Z) : Prop := ∀ p, has_lk (f p) = true ↔ lk = Some p.
Definition plk_ok (f : Z → pc) (plk : Z → option Z) : Prop := ∀ p q, has_plk p (f p) q = true ↔ plk q = Some p.

Lemma lk_keep f lk p c : lk_ok f lk → has_lk c = has_lk (f p) → lk_ok (fset f p c) lk.
Proof. intros H E q. destruct (decide (q = p)) as [->|]; [rewrite fset_eq, E|rewrite fset_ne by done]; apply H. Qed.
Lemma lk_take f lk p c : lk_ok f lk → lk = None → has_lk c = true → lk_ok (fset f p c) (Some p).
Proof.
  intros H -> E q. destruct (decide (q = p)) as [->|]; [by rewrite fset_eq, E|]. rewrite fset_ne by done. split; [|congruence]. intros Hq. by apply H in Hq.
Qed.
Lemma lk_drop f lk p c : lk_ok f lk → has_lk (f p) = true → has_lk c = false → lk_ok (fset f p c) None.
Proof.
  intros H Hp E q. split; [|done]. destruct (decide (q = p)) as [->|]; [by rewrite fset_eq, E|]. rewrite fset_ne by done. intros Hq. apply H in Hp, Hq. congruence.
Qed.
Lemma plk_keep f plk p c : plk_ok f plk → (∀ q, has_plk p c q = has_plk p (f p) q) → plk_ok (fset f p c) plk.
Proof. intros H E r q. destruct (decide (r = p)) as [->|]; [rewrite fset_eq, E|rewrite fset_ne by done]; apply H. Qed.
Lemma plk_take f plk p c i :
  plk_ok f plk → plk i = None → (∀ q, has_plk p (f p) q = false) → (∀ q, has_plk p c q = bool_decide (q = i)) → plk_ok (fset f p c) (fset plk i (Some p)).
Proof.
  intros H Hi H0 E r q. specialize (H r q) as Hrq. destruct (decide (r = p)) as [->|Hr].
  - rewrite fset_eq, E, bool_decide_eq_true. destruct (decide (q = i)) as [->|]; [by rewrite fset_eq|]. rewrite fset_ne by done. rewrite H0 in Hrq. naive_solver.
  - rewrite fset_ne by done. destruct (decide (q = i)) as [->|]; [|by rewrite fset_ne]. rewrite fset_eq. rewrite Hi in Hrq. naive_solver.
Qed.
Lemma plk_drop f plk p c i :
  plk_ok f plk → (∀ q, has_plk p (f p) q = bool_decide (q = i)) → (∀ q, has_plk p c q = false) → plk_ok (fset f p c) (fset plk i None).
Proof.
  intros H E H0 r q. specialize (H r q) as Hrq. assert (plk i = Some p) as Hi by (apply H; rewrite E; by apply bool_decide_eq_true).
  destruct (decide (r = p)) as [->|Hr].
  - rewrite fset_eq, H0. destruct (decide (q = i)) as [->|]; [by rewrite fset_eq|]. rewrite fset_ne by done. rewrite E, bool_decide_eq_true in Hrq. naive_solver.
  - rewrite fset_ne by done. destruct (decide (q = i)) as [->|]; [|by rewrite fset_ne]. rewrite fset_eq. rewrite Hi in Hrq. naive_solver.
Qed.

(** [p] has decided to sleep and has not been woken. *)
Definition asleep (w : world) (p : Z) : Prop := w_pc w p = Mark ∨ w_state w p = SLEEPING.

Record winv (w : world) : Prop := {
  wi_lk : lk_ok (w_pc w) (w_lk w);
  wi_plk : plk_ok (w_pc w) (w_plk w);
  wi_state : ∀ p, match w_pc w p with
    | Switch => w_state w p = SLEEPING
    | Off => w_state w p = SLEEPING ∨ w_state w p = RUNNABLE
    | _ => w_state w p = RUNNING end;
  wi_chan : ∀ p, match w_pc w p with Switch | Off | Tidy => w_chan w p = chan | _ => w_chan w p = 0 end;
  wi_decided : ∀ p, w_pc w p = ALock ∨ w_pc w p = RelLk → w_cond w = false;
  wi_in : ∀ p, w_pc w p ≠ Idle → p ∈ procs;
  wi_wake : ∀ p, asleep w p → w_cond w = true → ∃ q i, (w_pc w q = Wake i ∨ w_pc w q = Wakep i) ∧ i ≤ p
}.

(** ** The invariant holds throughout *)

Lemma state_of p w : winv w → w_state w p = SLEEPING → w_pc w p = Switch ∨ w_pc w p = Off.
Proof. intros H E. pose proof (wi_state _ H p) as Hp. destruct (w_pc w p); rewrite E in Hp; auto; done. Qed.

Lemma waker_alone w p q : winv w → has_lk (w_pc w p) = true → has_lk (w_pc w q) = true → p = q.
Proof. intros H Hp Hq. apply (wi_lk _ H) in Hp, Hq. congruence. Qed.

Lemma asleep_in w p : winv w → asleep w p → p ∈ procs.
Proof.
  intros H [E|E%(state_of p w H)]; apply (wi_in _ H); [by rewrite E|]. by destruct E as [->| ->].
Qed.

(** The process that is in [wakeup]: it is the one the promise speaks of. *)
Lemma the_waker w p q : winv w → has_lk (w_pc w p) = true → asleep w q → w_cond w = true → ∃ i, (w_pc w p = Wake i ∨ w_pc w p = Wakep i) ∧ i ≤ q.
Proof.
  intros H Hp Hq Hc. destruct (wi_wake _ H q Hq Hc) as (r & i & Hr & Hi). exists i. split; [|done].
  rewrite (waker_alone w p r H Hp); [done|]. destruct Hr as [->| ->]; done.
Qed.

Ltac each p := let q := fresh "q" in intros q; cbn; destruct (decide (q = p)) as [->|?]; [rewrite ?fset_eq|rewrite ?fset_ne by done].

(** What a step of [p] from [c0] to [c1] does to the parts of the invariant that
    follow the code alone. *)
Lemma parts_keep w p c0 c1 st' ch' :
  winv w → w_pc w p = c0 → p ∈ procs →
  (∀ q, q ≠ p → st' q = w_state w q) → (∀ q, q ≠ p → ch' q = w_chan w q) →
  match c1 with Switch => st' p = SLEEPING | Off => st' p = SLEEPING ∨ st' p = RUNNABLE | _ => st' p = RUNNING end →
  match c1 with Switch | Off | Tidy => ch' p = chan | _ => ch' p = 0 end →
  (∀ q, match fset (w_pc w) p c1 q with Switch => st' q = SLEEPING | Off => st' q = SLEEPING ∨ st' q = RUNNABLE | _ => st' q = RUNNING end) ∧
  (∀ q, match fset (w_pc w) p c1 q with Switch | Off | Tidy => ch' q = chan | _ => ch' q = 0 end) ∧
  (∀ q, fset (w_pc w) p c1 q ≠ Idle → q ∈ procs).
Proof.
  intros H E Hp Hst Hch H1 H2. split_and!; each p; try done.
  - rewrite Hst by done. apply (wi_state _ H).
  - rewrite Hch by done. apply (wi_chan _ H).
  - apply (wi_in _ H).
Qed.

(** A step of [p] outside [wakeup] that does not set the condition. *)
Lemma winv_quiet w p c1 lk' plk' st' ch' cond' :
  winv w → p ∈ procs → (∀ i, w_pc w p ≠ Wake i ∧ w_pc w p ≠ Wakep i) →
  lk_ok (fset (w_pc w) p c1) lk' → plk_ok (fset (w_pc w) p c1) plk' →
  (∀ q, q ≠ p → st' q = w_state w q) → (∀ q, q ≠ p → ch' q = w_chan w q) →
  match c1 with Switch => st' p = SLEEPING | Off => st' p = SLEEPING ∨ st' p = RUNNABLE | _ => st' p = RUNNING end →
  match c1 with Switch | Off | Tidy => ch' p = chan | _ => ch' p = 0 end →
  (c1 = ALock ∨ c1 = RelLk → cond' = false) → (cond' = true → w_cond w = true) →
  (c1 = Mark ∨ st' p = SLEEPING → asleep w p ∨ cond' = false) →
  winv (World (fset (w_pc w) p c1) lk' plk' st' ch' cond').
Proof.
  intros H Hp Hnw Hlk Hplk Hst Hch H1 H2 Hd Hc Ha. destruct (parts_keep w p (w_pc w p) c1 st' ch') as (P1 & P2 & P3); try done.
  split; try done; cbn.
  - each p; [done|]. intros Hq. apply (wi_decided _ H) in Hq. destruct cond'; [by rewrite Hc in Hq|done].
  - intros q Hq Ht. assert (asleep w q) as Hq'.
    { destruct (decide (q = p)) as [->|Hne].
      - destruct (Ha) as [?| ->]; [|done..]. destruct Hq as [Hq|Hq]; cbn in Hq; [rewrite fset_eq in Hq; by left|by right].
      - destruct Hq as [Hq|Hq]; cbn in Hq; [rewrite fset_ne in Hq by done; by left|rewrite Hst in Hq by done; by right]. }
    destruct (wi_wake _ H q Hq' (Hc Ht)) as (r & i & Hr & Hi). exists r, i. split; [|done]. destruct (Hnw i) as [Hn1 Hn2].
    rewrite fset_ne; [done|]. intros ->. by destruct Hr.
Qed.

(** A step of the waker [p]: [st'] wakes at most the entry it is at. *)
Lemma winv_waker w p c1 lk' plk' st' cond' :
  winv w → p ∈ procs → has_lk (w_pc w p) = true → w_state w p = RUNNING → w_chan w p = 0 → w_pc w p ≠ ALock → w_pc w p ≠ RelLk →
  match c1 with Leave | Wake _ | Wakep _ => True | _ => False end →
  lk_ok (fset (w_pc w) p c1) lk' → plk_ok (fset (w_pc w) p c1) plk' →
  (∀ q, st' q = w_state w q ∨ q ≠ p ∧ w_pc w q = Off ∧ st' q = RUNNABLE) →
  (∀ q, asleep w q → st' q = SLEEPING ∨ w_pc w q = Mark → cond' = true → ∃ i, (c1 = Wake i ∨ c1 = Wakep i) ∧ i ≤ q) →
  winv (World (fset (w_pc w) p c1) lk' plk' st' (w_chan w) cond').
Proof.
  intros H Hp Hl Hr0 Hc0 HA HR Hc1 Hlk Hplk Hst Hw. split; try done; cbn.
  - each p.
    + destruct (Hst p) as [->|(? & _)]; [|done]. rewrite Hr0. by destruct c1.
    + destruct (Hst q) as [->|(_ & -> & ->)]; [apply (wi_state _ H)|by right].
  - each p; [by destruct c1|apply (wi_chan _ H)].
  - each p; [by intros [-> | ->]|]. intros Hq. assert (has_lk (w_pc w q) = true) as Hlq by by destruct Hq as [->| ->]. by destruct (waker_alone w q p H Hlq Hl).
  - each p; [done|apply (wi_in _ H)].
  - intros q Hq Ht. destruct (Hw q) as (i & Hi & Hle); [| |done|].
    + destruct Hq as [Hq|Hq]; cbn in Hq.
      * left. destruct (decide (q = p)) as [->|]; [rewrite fset_eq in Hq; by subst|by rewrite fset_ne in Hq].
      * right. destruct (Hst q) as [<-|(_ & _ & E)]; [done|congruence].
    + destruct Hq as [Hq|Hq]; cbn in Hq; [right|by left]. destruct (decide (q = p)) as [->|]; [rewrite fset_eq in Hq; by subst|by rewrite fset_ne in Hq].
    + exists p, i. by rewrite fset_eq.
Qed.

Ltac locks E := first [by eapply lk_take | by (eapply lk_drop; [done|by rewrite E|done]) | by (apply lk_keep; [done|by rewrite E])
  | by (apply plk_keep; [done|by rewrite E]) | by (apply plk_take; [done|done|by rewrite E|done]) | by (apply plk_drop; [done|by rewrite E|done])].
Ltac fins := first [done | by intros; apply fset_ne | by rewrite fset_eq | by left | by right | by left; left | by left; right
  | by intros [?|?] | by rewrite fset_eq; intros [?|?] | intros [?|?]; congruence].

Lemma winv_step w w' : winv w → wstep w w' → winv w'.
Proof.
  intros H Hs. pose proof (wi_lk _ H) as Hlk. pose proof (wi_plk _ H) as Hplk.
  assert (∀ p c, w_pc w p = c → c ≠ Idle → p ∈ procs) as Hin by (intros p c E Hc; apply (wi_in _ H); by rewrite E).
  destruct Hs as [p w Hp E Hl|p w E Hc|p w E Hc|p w E Hpl|p w E|p w E|p w E|p w E Hr Hpl|p w E|p w E|p w E Hl|p w E|p w Hp E Hl|p w E|p w i E -> Hi|p w i E Hip Hi Hpl|p w i E|p w i E Hi|p w Hs Hpl].
  all: try (pose proof (wi_state _ H p) as Hstp; pose proof (wi_chan _ H p) as Hchp; rewrite E in Hstp, Hchp).
  all: try (assert (∀ i, w_pc w p ≠ Wake i ∧ w_pc w p ≠ Wakep i) as Hnw by (intros; by rewrite E)).
  all: try (assert (p ∈ procs) as Hp by (eapply Hin; [exact E|done])).
  - apply winv_quiet; first [locks E|fins].
  - apply winv_quiet; first [locks E|fins].
  - apply winv_quiet; first [locks E|fins].
  - assert (w_cond w = false) as Hc by (apply (wi_decided _ H p); auto). apply winv_quiet; first [locks E|fins].
  - assert (w_cond w = false) as Hc by (apply (wi_decided _ H p); auto). apply winv_quiet; first [locks E|fins].
  - apply winv_quiet; first [locks E|fins].
  - apply winv_quiet; first [locks E|fins].
  - apply winv_quiet; first [locks E|fins].
  - apply winv_quiet; first [locks E|fins].
  - apply winv_quiet; first [locks E|fins].
  - apply winv_quiet; first [locks E|fins].
  - apply winv_quiet; first [locks E|fins].
  - apply winv_quiet; first [locks E|fins].
  - (* set *) apply winv_waker; try done; rewrite ?E; try done; [apply lk_keep; [done|by rewrite E]|apply plk_keep; [done|by rewrite E]|by left|].
    intros q Hq _ _. exists 1. split; [by left|]. apply (asleep_in w q H), elem_of_seqZ in Hq. lia.
  - (* self *) apply winv_waker; try done; rewrite ?E; try done; [apply lk_keep; [done|by rewrite E]|apply plk_keep; [done|by rewrite E]|by left|].
    intros q Hq _ Ht. destruct (the_waker w p q H) as (i & Hi' & Hle); [by rewrite E|done|done|]. exists (p + 1). split; [by left|].
    assert (i = p) as -> by (rewrite E in Hi'; naive_solver). assert (q ≠ p); [|lia]. intros ->. destruct Hq as [Hq|Hq]; congruence.
  - (* visit *) apply winv_waker; try done; rewrite ?E; try done; [apply lk_keep; [done|by rewrite E]|apply plk_take; [done|done|by rewrite E|done]|by left|].
    intros q Hq _ Ht. destruct (the_waker w p q H) as (j & Hj & Hle); [by rewrite E|done|done|]. exists i. split; [by right|]. rewrite E in Hj. naive_solver.
  - (* check *) assert (w_plk w i = Some p) as Hpl. { apply Hplk. rewrite E. cbn. by apply bool_decide_eq_true. }
    assert (w_pc w i ≠ Mark ∧ w_pc w i ≠ Switch) as [Hni Hns].
    { assert (has_plk i (w_pc w i) i = true → i = p) as Hi by (intros Hi; apply Hplk in Hi; congruence).
      split; intros E'; rewrite E' in Hi; specialize (Hi ltac:(cbn; by apply bool_decide_eq_true)); congruence. }
    assert (w_state w i = SLEEPING → w_pc w i = Off ∧ w_chan w i = chan) as Hsl.
    { intros Hi. destruct (state_of i w H Hi) as [?|E']; [done|]. split; [done|]. pose proof (wi_chan _ H i) as Hci. by rewrite E' in Hci. }
    apply winv_waker; try done; rewrite ?E; try done; [locks E|locks E| |].
    + intros q. case_bool_decide as Hs; cbn [andb]; [|by left]. destruct (Hsl Hs) as [Hoff ->]. rewrite Z.eqb_refl.
      destruct (decide (q = i)) as [->|]; [right|left; by apply fset_ne]. rewrite fset_eq. split_and!; try done. congruence.
    + intros q Hq Hq' Ht. destruct (the_waker w p q H) as (j & Hj & Hle); [by rewrite E|done|done|]. exists (i + 1). split; [by left|].
      assert (j = i) as -> by (rewrite E in Hj; naive_solver). assert (q ≠ i); [|lia]. intros ->. destruct Hq' as [Hq'|]; [|done].
      case_bool_decide as Hs; cbn [andb] in Hq'; [|done]. destruct (Hsl Hs) as [_ Hci]. rewrite Hci, Z.eqb_refl, fset_eq in Hq'. done.
  - (* done *) apply winv_waker; try done; rewrite ?E; try done; [locks E|locks E|by left|].
    intros q Hq _ Ht. destruct (the_waker w p q H) as (j & Hj & Hle); [by rewrite E|done|done|]. exfalso.
    assert (j = i) as -> by (rewrite E in Hj; naive_solver). apply (asleep_in w q H), elem_of_seqZ in Hq. lia.
  - (* kill *) assert (w_pc w p = Off) as E.
    { destruct (state_of p w H Hs) as [E|]; [|done]. assert (w_plk w p = Some p); [|congruence]. apply Hplk. rewrite E. cbn. by apply bool_decide_eq_true. }
    split; try done; cbn.
    + each p; [rewrite E; by right|apply (wi_state _ H)].
    + apply (wi_chan _ H).
    + apply (wi_decided _ H).
    + apply (wi_in _ H).
    + intros q Hq Ht. apply (wi_wake _ H); [|done]. destruct Hq as [Hq|Hq]; cbn in Hq; [by left|right].
      destruct (decide (q = p)) as [->|]; [by rewrite fset_eq in Hq|by rewrite fset_ne in Hq].
Qed.

Lemma winv_rest w : at_rest w → winv w.
Proof.
  intros (Hpc & Hlk & Hplk & Hst & Hch). split.
  - intros p. by rewrite Hpc, Hlk.
  - intros p q. by rewrite Hpc, Hplk.
  - intros p. by rewrite Hpc.
  - intros p. by rewrite Hpc.
  - intros p. rewrite Hpc. naive_solver.
  - intros p. by rewrite Hpc.
  - intros p [Hp|Hp]; [by rewrite Hpc in Hp|by rewrite Hst in Hp].
Qed.

(** C12: No wakeup is lost.  Whatever the interleaving of any number of
    processes that sleep for a condition and of processes that make it true, at
    the atomic steps of [sleep] and [wakeup], a process that is asleep while the
    condition holds is about to be woken: another is in [wakeup] with the lock
    of the condition held, and has yet to come to it.  In particular, when that
    lock is free, nobody sleeps while the condition holds. *)
Theorem no_lost_wakeup w0 w p :
  at_rest w0 → rtc wstep w0 w → w_state w p = SLEEPING → w_cond w = true →
  ∃ q i, w_lk w = Some q ∧ (w_pc w q = Wake i ∨ w_pc w q = Wakep i) ∧ i ≤ p.
Proof.
  intros H0 Hr Hs Hc. assert (winv w) as H. { apply winv_rest in H0. clear Hs Hc. induction Hr; [done|]. by apply IHHr, (winv_step x). }
  destruct (wi_wake _ H p) as (q & i & Hq & Hi); [by right|done|]. exists q, i. split_and!; try done. apply (wi_lk _ H). by destruct Hq as [->| ->].
Qed.
End Sleep.

Module SleepWitness.
Definition rest : world := World (λ _, Idle) None (λ _, None) (λ _, RUNNING) (λ _, 0) false.

(** Process 1 goes to sleep, process 2 sets the condition. *)
Lemma asleep_run : ∃ w, rtc (wstep 5) rest w ∧ w_state w 1 = SLEEPING ∧ w_cond w = true.
Proof.
  assert (1 ∈ procs ∧ 2 ∈ procs) as [H1 H2] by (split; apply elem_of_seqZ; unfold NPROC; lia). eexists. split.
  - eapply rtc_l; [apply (st_enter _ 1); done|]. eapply rtc_l; [apply (st_wait _ 1); done|]. eapply rtc_l; [apply (st_acquire _ 1); done|].
    eapply rtc_l; [apply (st_release _ 1); done|]. eapply rtc_l; [apply (st_begin _ 2); done|]. eapply rtc_l; [apply (st_set _ 2); done|].
    eapply rtc_l; [apply (st_mark _ 1); done|]. apply rtc_refl.
  - done.
Qed.

Lemma no_lost_wakeup_witness : ∃ w q i, rtc (wstep 5) rest w ∧ w_state w 1 = SLEEPING ∧ w_lk w = Some q ∧ (w_pc w q = Wake i ∨ w_pc w q = Wakep i) ∧ i ≤ 1.
Proof.
  destruct asleep_run as (w & Hr & Hs & Hc). destruct (no_lost_wakeup 5 rest w 1) as (q & i & H); [split_and!; done|exact Hr|exact Hs|exact Hc|].
  exists w, q, i. split; [exact Hr|]. split; [exact Hs|exact H].
Defined.
End SleepWitness.
