(* ===== verification/Sysfile.v ===== *)
(** * The system calls on files: [kernel/sysfile.c]

    Directories and names over the file system ([Fs]), then the calls over the
    table of files and the descriptors of the process.  A path is fetched into
    a buffer of the kernel's stack, at an address the compiler chooses. *)

From S2P Require Import Prelude Mem Kstring Layout PageAlloc Vm BufIface Sleeplock TxIface Fs Ring Pipe File Proc Trap.

Definition O_RDONLY : Z := 0x000.
Definition O_WRONLY : Z := 0x001.
Definition O_RDWR : Z := 0x002.
Definition O_CREATE : Z := 0x200.
Definition O_TRUNC : Z := 0x400.

Definition DOT : list Z := [46].
Definition DOTDOT : list Z := [46; 46].

Section Names.
Context {T : Type} {TO : TxOps T} (pid cwd : Z).
Implicit Types s : fs T.

Definition isdirempty (dp : Z) : M (fs T) bool :=
  size ← gets (λ s, di_size (getd dp s));
  r ← for_ret (map (λ k, k * DE_SIZE) (seqZ 2 ((size + DE_SIZE - 1) / DE_SIZE - 2))) (λ off,
    '(r, de) ← readi dp false 0 off DE_SIZE ∅;
    panic_if (negb (r =? DE_SIZE)) "isdirempty: readi";;
    mret (if negb (de_inum de =? 0) then Some tt else None));
  mret (bool_decide (r = None)).

(** [goto fail] of [create]. *)
Definition create_fail (dp ip : Z) : M (fs T) Z :=
  modify (λ s, setd ip (d_set_nlink 0 (getd ip s)) s);;
  iupdate ip;;
  iunlockput pid ip;;
  iunlockput pid dp;;
  mret 0.

Definition create (path : list Z) (type major minor : Z) : M (fs T) Z :=
  '(dp, name) ← nameiparent pid cwd path;
  if dp =? 0 then mret 0 else
  ilock pid dp;;
  '(ip, _) ← dirlookup dp name;
  if negb (ip =? 0) then
    iunlockput pid dp;;
    ilock pid ip;;
    t ← gets (λ s, di_type (getd ip s));
    if (type =? T_FILE) && ((t =? T_FILE) || (t =? T_DEVICE)) then mret ip else
    iunlockput pid ip;;
    mret 0
  else
    dev ← gets (λ s, i_dev (geti dp s));
    ip ← ialloc dev type;
    if ip =? 0 then iunlockput pid dp;; mret 0 else
    ilock pid ip;;
    modify (λ s, setd ip (d_set_major major (getd ip s)) s);;
    modify (λ s, setd ip (d_set_minor minor (getd ip s)) s);;
    modify (λ s, setd ip (d_set_nlink 1 (getd ip s)) s);;
    iupdate ip;;
    inum ← gets (λ s, i_inum (geti ip s));
    pnum ← gets (λ s, i_inum (geti dp s));
    r ← (if type =? T_DIR then
           r ← dirlink pid ip DOT (u32 inum);
           if r <? 0 then mret r else dirlink pid ip DOTDOT (u32 pnum)
         else mret 0);
    if r <? 0 then create_fail dp ip else
    r ← dirlink pid dp name (u32 inum);
    if r <? 0 then create_fail dp ip else
    (if type =? T_DIR then
       modify (λ s, setd dp (d_set_nlink (i16 (di_nlink (getd dp s) + 1)) (getd dp s)) s);;
       iupdate dp
     else mret tt);;
    iunlockput pid dp;;
    mret ip.

(** [sys_link] from [begin_op] on; [bad] first. *)
Definition link_bad (ip : Z) : M (fs T) Z :=
  ilock pid ip;;
  modify (λ s, setd ip (d_set_nlink (i16 (di_nlink (getd ip s) - 1)) (getd ip s)) s);;
  iupdate ip;;
  iunlockput pid ip;;
  tx tx_end_op;;
  mret (-1).
Definition link (old new : list Z) : M (fs T) Z :=
  tx tx_begin_op;;
  ip ← namei pid cwd old;
  if ip =? 0 then tx tx_end_op;; mret (-1) else
  ilock pid ip;;
  t ← gets (λ s, di_type (getd ip s));
  if t =? T_DIR then iunlockput pid ip;; tx tx_end_op;; mret (-1) else
  modify (λ s, setd ip (d_set_nlink (i16 (di_nlink (getd ip s) + 1)) (getd ip s)) s);;
  iupdate ip;;
  iunlock pid ip;;
  '(dp, name) ← nameiparent pid cwd new;
  if dp =? 0 then link_bad ip else
  ilock pid dp;;
  ddev ← gets (λ s, i_dev (geti dp s));
  idev ← gets (λ s, i_dev (geti ip s));
  inum ← gets (λ s, i_inum (geti ip s));
  r ← (if negb (ddev =? idev) then mret (-1) else dirlink pid dp name (u32 inum));
  if r <? 0 then iunlockput pid dp;; link_bad ip else
  iunlockput pid dp;;
  iput pid ip;;
  tx tx_end_op;;
  mret 0.

(** [sys_unlink] from [begin_op] on; [bad] first. *)
Definition unlink_bad (dp : Z) : M (fs T) Z :=
  iunlockput pid dp;;
  tx tx_end_op;;
  mret (-1).
Definition unlink (path : list Z) : M (fs T) Z :=
  tx tx_begin_op;;
  '(dp, name) ← nameiparent pid cwd path;
  if dp =? 0 then tx tx_end_op;; mret (-1) else
  ilock pid dp;;
  if (namecmp name DOT =? 0) || (namecmp name DOTDOT =? 0) then unlink_bad dp else
  '(ip, off) ← dirlookup dp name;
  if ip =? 0 then unlink_bad dp else
  ilock pid ip;;
  n ← gets (λ s, di_nlink (getd ip s));
  panic_if (n <? 1) "unlink: nlink < 1";;
  t ← gets (λ s, di_type (getd ip s));
  e ← (if t =? T_DIR then isdirempty ip else mret true);
  if negb e then iunlockput pid ip;; unlink_bad dp else
  r ← writei dp false 0 off DE_SIZE ∅;
  panic_if (negb (r =? DE_SIZE)) "unlink: writei";;
  (if t =? T_DIR then
     modify (λ s, setd dp (d_set_nlink (i16 (di_nlink (getd dp s) - 1)) (getd dp s)) s);;
     iupdate dp
   else mret tt);;
  iunlockput pid dp;;
  modify (λ s, setd ip (d_set_nlink (i16 (di_nlink (getd ip s) - 1)) (getd ip s)) s);;
  iupdate ip;;
  iunlockput pid ip;;
  tx tx_end_op;;
  mret 0.
End Names.

Section Sysfile.
Context {V T K D : Type} {PO : PageAllocOps V} {TO : TxOps T} {KO : KmOps K}.
Implicit Types s : trapst V T K D.
(** The buffers for two paths and the word for an argument, on the kernel's stack; the devices. *)
Context (buf buf2 stk : Z) (devs : Z → devsw (T := T) (K := K)).

(** ** Descriptors *)

Definition me : M (trapst V T K D) Z := kop myproc.
Definition mine : M (trapst V T K D) proc := kop (p ← myproc; gets (getp p)).

(** The descriptor and the file, if the argument is an open descriptor. *)
Definition argfd (n : Z) : M (trapst V T K D) (option (Z * Z)) :=
  fd ← argint n;
  x ← mine;
  let f := default 0 (p_ofile x !! Z.to_nat fd) in
  mret (if (fd <? 0) || (fd >=? NOFILE) || (f =? 0) then None else Some (fd, f)).

Definition setfd (fd f : Z) : M (trapst V T K D) unit :=
  p ← me;
  kop (upd p (λ x, set_ofile (<[Z.to_nat fd := f]> (p_ofile x)) x)).

Definition fdalloc (f : Z) : M (trapst V T K D) Z :=
  r ← for_ret (seqZ 0 NOFILE) (λ fd,
    x ← mine;
    if default 0 (p_ofile x !! Z.to_nat fd) =? 0 then setfd fd f;; mret (Some fd) else mret None);
  mret (default (-1) r).

Definition sys_dup : M (trapst V T K D) outcome :=
  a ← argfd 0;
  match a with
  | None => mret (Done (u64 (-1)))
  | Some (_, f) =>
      fd ← fdalloc f;
      if fd <? 0 then mret (Done (u64 (-1))) else
      kop (fileop (filedup f));;
      mret (Done fd)
  end.

(** [killed(myproc())], as the files of pipes and devices ask. *)
Definition am_killed : M (trapst V T K D) bool := x ← mine; mret (negb (p_killed x =? 0)).

Definition sys_read : M (trapst V T K D) outcome :=
  p ← argaddr 1;
  n ← argint 2;
  a ← argfd 0;
  match a with
  | None => mret (Done (u64 (-1)))
  | Some (_, f) =>
      x ← mine;
      k ← am_killed;
      r ← kop (fileop (fileread (p_pid x) k devs f p n));
      mret (widen r)
  end.

Definition sys_write : M (trapst V T K D) outcome :=
  p ← argaddr 1;
  n ← argint 2;
  a ← argfd 0;
  match a with
  | None => mret (Done (u64 (-1)))
  | Some (_, f) =>
      x ← mine;
      k ← am_killed;
      r ← kop (fileop (filewrite (p_pid x) k devs f p n));
      mret (widen r)
  end.

Definition sys_close : M (trapst V T K D) outcome :=
  a ← argfd 0;
  match a with
  | None => mret (Done (u64 (-1)))
  | Some (fd, f) =>
      setfd fd 0;;
      x ← mine;
      kop (fileop (fileclose (p_pid x) f));;
      mret (Done 0)
  end.

(** [old] is what the stack holds under [struct stat]. *)
Definition sys_fstat (old : mem) : M (trapst V T K D) outcome :=
  st ← argaddr 1;
  a ← argfd 0;
  match a with
  | None => mret (Done (u64 (-1)))
  | Some (_, f) =>
      x ← mine;
      r ← kop (fileop (filestat (p_pid x) f st old));
      mret (Done (u64 r))
  end.

(** ** Paths *)

(** [argstr] into a buffer of [MAXPATH] bytes: the path, or [None] for an
    error. *)
Definition argpath (n b : Z) : M (trapst V T K D) (option (list Z)) :=
  r ← argstr n b MAXPATH;
  if r <? 0 then mret None else
  path ← kop (vm (gets (λ v, cstr (pa_mem v) b (Z.to_nat MAXPATH))));
  mret (Some path).

Definition sys_link : M (trapst V T K D) outcome :=
  old ← argpath 0 buf;
  match old with
  | None => mret (Done (u64 (-1)))
  | Some old =>
      new ← argpath 1 buf2;
      match new with
      | None => mret (Done (u64 (-1)))
      | Some new =>
          x ← mine;
          r ← kop (fsys (link (p_pid x) (p_cwd x) old new));
          mret (Done (u64 r))
      end
  end.

Definition sys_unlink : M (trapst V T K D) outcome :=
  path ← argpath 0 buf;
  match path with
  | None => mret (Done (u64 (-1)))
  | Some path =>
      x ← mine;
      r ← kop (fsys (unlink (p_pid x) (p_cwd x) path));
      mret (Done (u64 r))
  end.

(** The file [sys_open] sets up for the inode [ip]. *)
Definition open_file (f ip omode : Z) : M (trapst V T K D) unit :=
  d ← kop (fsys (gets (getd ip)));
  (if di_type d =? T_DEVICE then
     kop (fileop (modify (fmod f (f_set_type FD_DEVICE))));;
     kop (fileop (modify (fmod f (f_set_major (di_major d)))))
   else
     kop (fileop (modify (fmod f (f_set_type FD_INODE))));;
     kop (fileop (modify (fmod f (f_set_off 0)))));;
  kop (fileop (modify (fmod f (f_set_ip ip))));;
  kop (fileop (modify (fmod f (f_set_readable (if Z.land omode O_WRONLY =? 0 then 1 else 0)))));;
  kop (fileop (modify (fmod f (f_set_writable (if (Z.land omode O_WRONLY =? 0) && (Z.land omode O_RDWR =? 0) then 0 else 1))))).

(** From the check of the device on, with the inode locked. *)
Definition open_inode (ip omode : Z) : M (trapst V T K D) outcome :=
  x ← mine;
  let fail : M (trapst V T K D) outcome :=
    kop (fsys (iunlockput (p_pid x) ip));; kop (fsys (tx tx_end_op));; mret (Done (u64 (-1))) in
  d ← kop (fsys (gets (getd ip)));
  if (di_type d =? T_DEVICE) && ((di_major d <? 0) || (di_major d >=? NDEV)) then fail else
  f ← kop (fileop filealloc);
  fd ← (if f =? 0 then mret (-1) else fdalloc f);
  if fd <? 0 then
    (if negb (f =? 0) then kop (fileop (fileclose (p_pid x) f)) else mret tt);;
    fail
  else
    open_file f ip omode;;
    (if negb (Z.land omode O_TRUNC =? 0) && (di_type d =? T_FILE) then kop (fsys (itrunc ip)) else mret tt);;
    kop (fsys (iunlock (p_pid x) ip));;
    kop (fsys (tx tx_end_op));;
    mret (Done fd).

Definition sys_open : M (trapst V T K D) outcome :=
  omode ← argint 1;
  path ← argpath 0 buf;
  match path with
  | None => mret (Done (u64 (-1)))
  | Some path =>
      x ← mine;
      kop (fsys (tx tx_begin_op));;
      if negb (Z.land omode O_CREATE =? 0) then
        ip ← kop (fsys (create (p_pid x) (p_cwd x) path T_FILE 0 0));
        if ip =? 0 then kop (fsys (tx tx_end_op));; mret (Done (u64 (-1))) else open_inode ip omode
      else
        ip ← kop (fsys (namei (p_pid x) (p_cwd x) path));
        if ip =? 0 then kop (fsys (tx tx_end_op));; mret (Done (u64 (-1))) else
        kop (fsys (ilock (p_pid x) ip));;
        d ← kop (fsys (gets (getd ip)));
        if (di_type d =? T_DIR) && negb (omode =? O_RDONLY) then
          kop (fsys (iunlockput (p_pid x) ip));;
          kop (fsys (tx tx_end_op));;
          mret (Done (u64 (-1)))
        else open_inode ip omode
  end.

(** [sys_mkdir] and [sys_mknod] end alike. *)
Definition make_node (path : option (list Z)) (type major minor : Z) : M (trapst V T K D) outcome :=
  x ← mine;
  ip ← match path with
       | None => mret 0
       | Some path => kop (fsys (create (p_pid x) (p_cwd x) path type (i16 major) (i16 minor)))
       end;
  if ip =? 0 then kop (fsys (tx tx_end_op));; mret (Done (u64 (-1))) else
  kop (fsys (iunlockput (p_pid x) ip));;
  kop (fsys (tx tx_end_op));;
  mret (Done 0).

Definition sys_mkdir : M (trapst V T K D) outcome :=
  kop (fsys (tx tx_begin_op));;
  path ← argpath 0 buf;
  make_node path T_DIR 0 0.

Definition sys_mknod : M (trapst V T K D) outcome :=
  kop (fsys (tx tx_begin_op));;
  major ← argint 1;
  minor ← argint 2;
  path ← argpath 0 buf;
  make_node path T_DEVICE major minor.

Definition sys_chdir : M (trapst V T K D) outcome :=
  p ← me;
  x ← mine;
  kop (fsys (tx tx_begin_op));;
  path ← argpath 0 buf;
  ip ← match path with
       | None => mret 0
       | Some path => kop (fsys (namei (p_pid x) (p_cwd x) path))
       end;
  if ip =? 0 then kop (fsys (tx tx_end_op));; mret (Done (u64 (-1))) else
  kop (fsys (ilock (p_pid x) ip));;
  d ← kop (fsys (gets (getd ip)));
  if negb (di_type d =? T_DIR) then
    kop (fsys (iunlockput (p_pid x) ip));;
    kop (fsys (tx tx_end_op));;
    mret (Done (u64 (-1)))
  else
    kop (fsys (iunlock (p_pid x) ip));;
    kop (fsys (iput (p_pid x) (p_cwd x)));;
    kop (fsys (tx tx_end_op));;
    kop (upd p (set_cwd ip));;
    mret (Done 0).

(** ** Pipes *)

(** Gives back the ends of a pipe. *)
Definition pipe_close2 (rf wf : Z) : M (trapst V T K D) outcome :=
  x ← mine;
  kop (fileop (fileclose (p_pid x) rf));;
  kop (fileop (fileclose (p_pid x) wf));;
  mret (Done (u64 (-1))).

(** [copyout] of an [int] of the stack. *)
Definition put_fd (addr fd : Z) : M (trapst V T K D) Z :=
  x ← mine;
  kop (vm (modify (λ v, pa_set_mem (st32 (pa_mem v) stk fd) v);; copyout (p_sz x) (p_pagetable x) (p_pagetable x) addr stk 4)).

Definition sys_pipe : M (trapst V T K D) outcome :=
  fdarray ← argaddr 0;
  x ← mine;
  '(r, rf, wf) ← kop (fileop (pipealloc (p_pid x)));
  if r <? 0 then mret (Done (u64 (-1))) else
  fd0 ← fdalloc rf;
  fd1 ← (if fd0 <? 0 then mret (-1) else fdalloc wf);
  if fd1 <? 0 then
    (if fd0 >=? 0 then setfd fd0 0 else mret tt);;
    pipe_close2 rf wf
  else
    r ← put_fd fdarray fd0;
    r ← (if r <? 0 then mret r else put_fd (u64 (fdarray + 4)) fd1);
    if r <? 0 then
      setfd fd0 0;;
      setfd fd1 0;;
      pipe_close2 rf wf
    else mret (Done 0).
End Sysfile.
