(* ===== verification/Exec.v ===== *)
(** * Running a program: [kernel/exec.c], [sys_exec], [forkret] and [sys_halt]

    [kexec] over the process table, virtual memory and the file system.  The
    arguments are the addresses of strings in the kernel's memory, where
    [sys_exec] put them. *)

From S2P Require Import Prelude Mem Kstring Layout PageAlloc Vm BufIface Sleeplock TxIface Fs Ring Pipe File Proc Trap Sysfile.

Definition ELF_MAGIC : Z := 0x464C457F.
Definition ELF_PROG_LOAD : Z := 1.

(** [struct elfhdr] and [struct proghdr] as they are read from the file. *)
Record elfhdr := Elf { e_magic : Z; e_entry : Z; e_phoff : Z; e_phnum : Z }.
Definition ELF_SIZE : Z := 64.
Definition ld_elf (m : mem) : elfhdr := Elf (ld32 m 0) (ld64 m 24) (ld64 m 32) (ld16 m 56).
Record proghdr := Prog { ph_type : Z; ph_flags : Z; ph_off : Z; ph_vaddr : Z; ph_filesz : Z; ph_memsz : Z }.
Definition PH_SIZE : Z := 56.
Definition ld_ph (m : mem) : proghdr := Prog (ld32 m 0) (ld32 m 4) (ld64 m 8) (ld64 m 16) (ld64 m 32) (ld64 m 40).

Definition flags2perm (flags : Z) : Z :=
  let perm := if negb (Z.land flags 1 =? 0) then PTE_X else 0 in
  if negb (Z.land flags 2 =? 0) then Z.lor perm PTE_W else perm.

(** The part of the path after its last slash. *)
Definition last_elem (path : list Z) : list Z :=
  foldl (λ last c, if c =? SLASH then [] else last ++ [c]) [] path.

Section Exec.
Context {V T K : Type} {PO : PageAllocOps V} {TO : TxOps T} {KO : KmOps K}.
Context (trampoline : Z) (ustack : Z).   (* the array [ustack] on the kernel's stack *)

(** [i], an [uint], starts over when the segment is that long. *)
Definition loadseg (pagetable va ip offset sz : Z) : M (kern V T K) Z :=
  loop (Z.to_nat (sz / PGSIZE) + 2) (λ i,
    if negb (i <? sz) then mret (inr 0) else
    pa ← vm (walkaddr pagetable (u64 (va + i)));
    panic_if (pa =? 0) "loadseg: address should exist";;
    let n := if sz - i <? PGSIZE then sz - i else PGSIZE in
    m ← vm (gets pa_mem);
    '(r, m') ← fsys (readi ip false pa (u32 (offset + i)) n m);
    vm (modify (pa_set_mem m'));;
    if negb (u32 r =? n) then mret (inr (-1)) else mret (inl (u32 (i + PGSIZE)))) 0.

(** [bad]: [pagetable] and [ip] are 0 when they are not there. *)
Definition kexec_bad (pid pagetable sz ip : Z) : M (kern V T K) Z :=
  (if negb (pagetable =? 0) then vm (proc_freepagetable pagetable sz) else mret tt);;
  (if negb (ip =? 0) then fsys (iunlockput pid ip);; fsys (tx tx_end_op) else mret tt);;
  mret (-1).

(** The loop over the program headers: whether it came to its end, and [sz]. *)
Definition load_program (pagetable ip : Z) (elf : elfhdr) : M (kern V T K) (bool * Z) :=
  loop (Z.to_nat (e_phnum elf) + 1) (λ x : Z * Z * Z,
    let '(i, off, sz) := x in
    if negb (i <? e_phnum elf) then mret (inr (true, sz)) else
    '(r, m) ← fsys (readi ip false 0 (u32 off) PH_SIZE ∅);
    let ph := ld_ph m in
    let next := (i + 1, i32 (off + PH_SIZE), sz) in
    if negb (r =? PH_SIZE) then mret (inr (false, sz)) else
    if negb (ph_type ph =? ELF_PROG_LOAD) then mret (inl next) else
    if ph_memsz ph <? ph_filesz ph then mret (inr (false, sz)) else
    if u64 (ph_vaddr ph + ph_memsz ph) <? ph_vaddr ph then mret (inr (false, sz)) else
    if negb (ph_vaddr ph mod PGSIZE =? 0) then mret (inr (false, sz)) else
    sz1 ← vm (uvmalloc pagetable sz (u64 (ph_vaddr ph + ph_memsz ph)) (flags2perm (ph_flags ph)));
    if sz1 =? 0 then mret (inr (false, sz)) else
    r ← loadseg pagetable (ph_vaddr ph) ip (u32 (ph_off ph)) (u32 (ph_filesz ph));
    if r <? 0 then mret (inr (false, sz1)) else mret (inl (i + 1, i32 (off + PH_SIZE), sz1))) (0, i32 (e_phoff elf), 0).

(** The length of the string at [a], which is shorter than a page. *)
Definition klen (a : Z) : M (kern V T K) Z :=
  n ← vm (gets (λ v, strlen (Z.to_nat PGSIZE) (pa_mem v) a));
  match n with Some n => mret n | None => nofuel end.

(** Copies the strings to the new stack: [argc] and [sp], or [None] for [bad]. *)
Definition push_args (x : proc) (pagetable stackbase : Z) (argv : list Z) (sp : Z) : M (kern V T K) (option (Z * Z)) :=
  loop (length argv + 1) (λ y : list Z * Z * Z,
    let '(argv, argc, sp) := y in
    match argv with
    | [] => mret (inr (Some (argc, sp)))
    | a :: argv' =>
        if argc >=? MAXARG then mret (inr None) else
        n ← klen a;
        let sp := u64 (sp - (n + 1)) in
        let sp := sp - sp mod 16 in
        if sp <? stackbase then mret (inr None) else
        r ← vm (copyout (p_sz x) (p_pagetable x) pagetable sp a (n + 1));
        if r <? 0 then mret (inr None) else
        vm (modify (λ v, pa_set_mem (st64 (pa_mem v) (ustack + 8 * argc) sp) v));;
        mret (inl (argv', argc + 1, sp))
    end) (argv, 0, sp).

(** The new image takes the place of the old one. *)
Definition kexec_commit (p : Z) (path : list Z) (pagetable sz sp entry : Z) : M (kern V T K) unit :=
  x ← gets (getp p);
  tf_st (p_trapframe x) TF_a1 sp;;
  upd p (set_name (take 15 (last_elem path)));;
  upd p (set_pagetable pagetable);;
  upd p (set_sz sz);;
  tf_st (p_trapframe x) TF_epc entry;;
  tf_st (p_trapframe x) TF_sp sp;;
  init_signals p;;
  vm (proc_freepagetable (p_pagetable x) (p_sz x)).

Definition kexec (path argv : list Z) : M (kern V T K) Z :=
  p ← myproc;
  x ← gets (getp p);
  let pid := p_pid x in
  panic_if (negb (p_is_kthread x =? 0)) "exit from kthread";;
  fsys (tx tx_begin_op);;
  ip ← fsys (namei pid (p_cwd x) path);
  if ip =? 0 then fsys (tx tx_end_op);; mret (-1) else
  fsys (ilock pid ip);;
  '(r, m) ← fsys (readi ip false 0 0 ELF_SIZE ∅);
  let elf := ld_elf m in
  if negb (r =? ELF_SIZE) then kexec_bad pid 0 0 ip else
  if negb (e_magic elf =? ELF_MAGIC) then kexec_bad pid 0 0 ip else
  pagetable ← vm (proc_pagetable trampoline (p_trapframe x));
  if pagetable =? 0 then kexec_bad pid 0 0 ip else
  '(ok, sz) ← load_program pagetable ip elf;
  if negb ok then kexec_bad pid pagetable sz ip else
  fsys (iunlockput pid ip);;
  fsys (tx tx_end_op);;
  let sz := PGROUNDUP sz in
  sz1 ← vm (uvmalloc pagetable sz (u64 (sz + (USERSTACK + 1) * PGSIZE)) PTE_W);
  if sz1 =? 0 then kexec_bad pid pagetable sz 0 else
  let sz := sz1 in
  vm (uvmclear pagetable (u64 (sz - (USERSTACK + 1) * PGSIZE)));;
  let stackbase := u64 (sz - USERSTACK * PGSIZE) in
  a ← push_args x pagetable stackbase argv sz;
  match a with
  | None => kexec_bad pid pagetable sz 0
  | Some (argc, sp) =>
      vm (modify (λ v, pa_set_mem (st64 (pa_mem v) (ustack + 8 * argc) 0) v));;
      let sp := u64 (sp - (argc + 1) * 8) in
      let sp := sp - sp mod 16 in
      if sp <? stackbase then kexec_bad pid pagetable sz 0 else
      r ← vm (copyout (p_sz x) (p_pagetable x) pagetable sp ustack ((argc + 1) * 8));
      if r <? 0 then kexec_bad pid pagetable sz 0 else
      kexec_commit p path pagetable sz sp (e_entry elf);;
      mret (i32 argc)
  end.

(** ** [sys_exec] *)

Section Call.
Context {D : Type}.
Context (buf uarg_addr : Z).   (* the path and the word [uarg] on the kernel's stack *)

Definition free_args (argv : list Z) : M (trapst V T K D) unit :=
  for_each argv (λ a, kop (vm (pa_kfree a))).

(** The strings of [argv], in pages of their own; [false] for [bad]. *)
Definition fetch_args (uargv : Z) : M (trapst V T K D) (bool * list Z) :=
  loop (Z.to_nat MAXARG + 1) (λ y : Z * list Z,
    let '(i, argv) := y in
    if i >=? MAXARG then mret (inr (false, argv)) else
    r ← fetchaddr (u64 (uargv + 8 * i)) uarg_addr;
    if r <? 0 then mret (inr (false, argv)) else
    uarg ← kop (vm (gets (λ v, ld64 (pa_mem v) uarg_addr)));
    if uarg =? 0 then mret (inr (true, argv)) else
    a ← kop (vm pa_kalloc);
    if a =? 0 then mret (inr (false, argv)) else
    r ← fetchstr uarg a PGSIZE;
    if r <? 0 then mret (inr (false, argv ++ [a])) else mret (inl (i + 1, argv ++ [a]))) (0, []).

Definition sys_exec : M (trapst V T K D) outcome :=
  uargv ← argaddr 1;
  path ← argpath 0 buf;
  match path with
  | None => mret (Done (u64 (-1)))
  | Some path =>
      '(ok, argv) ← fetch_args uargv;
      if negb ok then free_args argv;; mret (Done (u64 (-1))) else
      ret ← kop (kexec path argv);
      free_args argv;;
      mret (Done (u64 ret))
  end.

(** ** [forkret] *)

Context (usertrap_addr uservec_addr : Z).

(** [first] is its static variable, [init] and [argv0] the path and the strings
    of its call of [kexec].  The result is the [satp] it returns to user space
    with. *)
Definition forkret (first : bool) (init argv0 : list Z) : M (trapst V T K D) Z :=
  p ← kop myproc;
  kop (punlock p);;
  (if first then
     x ← kop (gets (getp p));
     kop (fsys (fsinit (p_pid x) ROOTDEV));;
     r ← kop (kexec init argv0);
     kop (tf_st (p_trapframe x) TF_a0 (u64 r));;
     panic_if (r =? -1) "exec"
   else mret tt);;
  prepare_return trampoline usertrap_addr uservec_addr;;
  pt ← kop (gets (λ k, p_pagetable (getp p k)));
  mret (MAKE_SATP pt).

(** ** [sys_halt], and the table with every call *)

Context {MM : Mmio D} (buf2 stk : Z) (devs : Z → devsw (T := T) (K := K)) (old : mem).

Definition sys_halt : M (trapst V T K D) outcome :=
  wcsr (w_satp 0);;
  devop (mmio_st32 0x100000 0x5555);;
  mret (Done 0).

Definition sys_file (num : Z) : M (trapst V T K D) outcome :=
  if num =? SYS_pipe then sys_pipe stk
  else if num =? SYS_read then sys_read devs
  else if num =? SYS_exec then sys_exec
  else if num =? SYS_fstat then sys_fstat old
  else if num =? SYS_chdir then sys_chdir buf
  else if num =? SYS_dup then sys_dup
  else if num =? SYS_open then sys_open buf
  else if num =? SYS_write then sys_write devs
  else if num =? SYS_mknod then sys_mknod buf
  else if num =? SYS_unlink then sys_unlink buf
  else if num =? SYS_link then sys_link buf buf2
  else if num =? SYS_mkdir then sys_mkdir buf
  else if num =? SYS_close then sys_close
  else sys_halt.
End Call.
End Exec.
