(* ===== verification/FileRefs.v ===== *)
(** * Who holds the open files

    The references that the table of open files counts are the descriptors of
    the processes: this holds between any two calls of the kernel, whatever the
    processes do with [open], [dup], [close], [pipe], [fork], [exec], [exit] and
    the rest.  [kfork] and [kexit] hand descriptors on and give them back; the
    other calls of [kernel/proc.c] leave them alone. *)

From S2P Require Import Prelude Mem Kstring Layout PageAlloc Sleeplock BufIface Vm Ring Pipe TxIface Fs File Wlp Proc ProcInv ProcProps Trap Sysfile.
From S2P Require Import Exec.

Set Default Proof Using "Type".

(** ** Counting *)

Definition cnt (f : Z) (l : list Z) : Z := Z.of_nat (length (filter (λ x, x = f) l)).
Definition one (f g : Z) : Z := if g =? f then 1 else 0.

Lemma cnt_app f l k : cnt f (l ++ k) = cnt f l + cnt f k.
Proof. unfold cnt. rewrite filter_app, length_app. lia. Qed.
Lemma cnt_cons f a l : cnt f (a :: l) = one a f + cnt f l.
Proof. unfold cnt, one. rewrite filter_cons. destruct (Z.eqb_spec f a); case_decide; subst; cbn [length]; lia. Qed.
Lemma cnt_insert f l i a b : l !! i = Some a → cnt f (<[i := b]> l) = cnt f l - one a f + one b f.
Proof.
  intros H. pose proof (lookup_lt_Some _ _ _ H). rewrite <-(take_drop_middle l i a H) at 2. rewrite insert_take_drop by done.
  rewrite !cnt_app, !cnt_cons. lia.
Qed.
Lemma cnt_zeros f n : f ≠ 0 → cnt f (replicate n 0) = 0.
Proof. intros Hf. induction n as [|n IH]; [done|]. cbn [replicate]. rewrite cnt_cons, IH. unfold one. destruct (Z.eqb_spec f 0); lia. Qed.
Lemma cnt_pos f l : f ∈ l → 0 < cnt f l.
Proof. intros (i & H)%list_elem_of_lookup. rewrite <-(take_drop_middle l i f H), cnt_app, cnt_cons. unfold one, cnt. rewrite Z.eqb_refl. lia. Qed.
Lemma cnt_nonneg f l : 0 ≤ cnt f l.
Proof. unfold cnt. lia. Qed.

Lemma empty_minus (f : Z) : ∅ ∖ {[f]} = (∅ : gset Z).
Proof. set_solver. Qed.
Lemma single_minus (f : Z) : ({[f]} ∪ ∅) ∖ {[f]} = (∅ : gset Z).
Proof. set_solver. Qed.

Lemma bind_same {A B} (l : list A) (F G : A → list B) : (∀ x, x ∈ l → F x = G x) → l ≫= F = l ≫= G.
Proof. intros H. induction l as [|x l IH]; [done|]. cbn. rewrite H by left. f_equal. apply IH. intros y Hy. apply H. by right. Qed.
Lemma cnt_bind f (l : list Z) (F G : Z → list Z) p :
  NoDup l → p ∈ l → (∀ q, q ∈ l → q ≠ p → G q = F q) → cnt f (l ≫= G) = cnt f (l ≫= F) - cnt f (F p) + cnt f (G p).
Proof.
  intros Hn (l1 & l2 & ->)%list_elem_of_split H. rewrite NoDup_app, NoDup_cons in Hn. destruct Hn as (_ & Hn1 & Hn2 & _).
  rewrite !bind_app, !bind_cons, !cnt_app.
  rewrite (bind_same l1 G F), (bind_same l2 G F); [lia|..]; intros q Hq; apply H; set_solver.
Qed.

Section FileRefs.
Context {V T K : Type} {PO : PageAllocOps V} {TO : TxOps T} {KO : KmOps K}.
Implicit Types s : kern V T K.

(** The descriptors, of all processes, that hold the file [f]. *)
Definition refs (f : Z) s : Z := cnt f (procs ≫= λ p, p_ofile (getp p s)).

Definition nofiles (p : Z) s : Prop := p_ofile (getp p s) = replicate 16 0.
Definition fileof (f : Z) s : file := fget f (k_files s).

(** [d f] more references to [f] are counted than there are descriptors, and
    the files in [N] are under construction; processes that are not alive hold
    no files. *)
Record finv (d : Z → Z) (N : gset Z) s : Prop := {
  fi_len : ∀ p, p ∈ procs → length (p_ofile (getp p s)) = 16%nat;
  fi_ref : ∀ f, f ≠ 0 → f_ref (fileof f s) = refs f s + d f;
  fi_type : ∀ f, f ≠ 0 → f ∉ N → f_ref (fileof f s) ≠ 0 → f_type (fileof f s) ≠ FD_NONE;
  fi_dead : ∀ p, p ∈ procs → ¬ alive (getp p s) → nofiles p s
}.

Lemma finv_ext d d' N s : (∀ f, f ≠ 0 → d f = d' f) → finv d N s → finv d' N s.
Proof. intros E [H1 H2 H3 H4]. split; try done. intros f Hf. by rewrite <-E, H2. Qed.

(** ** What leaves the files alone *)

(** The descriptors are the same, and what is counted; processes may come to
    life. *)
Definition calm s s' : Prop :=
  (∀ p, p_ofile (getp p s') = p_ofile (getp p s)) ∧
  (∀ p, p_state (getp p s') = p_state (getp p s) ∨ alive (getp p s')) ∧
  (∀ f, f_ref (fileof f s') = f_ref (fileof f s) ∧ f_type (fileof f s') = f_type (fileof f s)).

Lemma calm_refl s : calm s s.
Proof. split_and!; try done. intros p. by left. Qed.
Lemma calm_trans s1 s2 s3 : calm s1 s2 → calm s2 s3 → calm s1 s3.
Proof.
  intros (H1 & H2 & H3) (G1 & G2 & G3). split_and!; intros p.
  - by rewrite G1.
  - destruct (G2 p) as [E|]; [|by right]. destruct (H2 p) as [E'|H]; [left; congruence|right]. unfold alive. by rewrite E.
  - destruct (H3 p), (G3 p). split; congruence.
Qed.
Lemma calm_alive p s s' : calm s s' → alive (getp p s) → alive (getp p s').
Proof. intros (_ & H & _) Ha. destruct (H p) as [E|]; [|done]. unfold alive. by rewrite E. Qed.
Lemma calm_nofiles p s s' : calm s s' → nofiles p s → nofiles p s'.
Proof. intros (H & _) Hn. unfold nofiles. by rewrite H. Qed.
Lemma refs_same f s s' : (∀ p, p_ofile (getp p s') = p_ofile (getp p s)) → refs f s' = refs f s.
Proof. intros H. unfold refs. f_equal. apply bind_same. intros. apply H. Qed.
Lemma calm_finv d N s s' : calm s s' → finv d N s → finv d N s'.
Proof.
  intros Hc [H1 H2 H3 H4]. destruct Hc as (E1 & E2 & E3) eqn:HC. split.
  - intros p Hp. rewrite E1. auto.
  - intros f Hf. destruct (E3 f) as [-> _]. rewrite (refs_same f s s') by done. auto.
  - intros f Hf. destruct (E3 f) as [-> ->]. auto.
  - intros p Hp Ha. apply (calm_nofiles p s); [done|]. apply H4; [done|]. intros H. by apply Ha, (calm_alive p s).
Qed.

Lemma calm_modp p g s : (∀ x, p_ofile (g x) = p_ofile x) → (∀ x, p_state (g x) = p_state x ∨ alive (g x)) → calm s (modp p g s).
Proof.
  intros H1 H2. split_and!; try done; intros q; (destruct (decide (q = p)) as [->|]; [rewrite getp_modp_eq|rewrite getp_modp_ne by done]); auto; by left.
Qed.

Lemma calm_mem v s : calm s (set_k_vm v s).
Proof. apply (calm_refl s). Qed.
Lemma calm_fs x s : calm s (set_k_files (set_ft_fs x (k_files s)) s).
Proof. apply (calm_refl s). Qed.

#[local] Notation calmly m := (∀ s0, keeps (calm s0) m).

Lemma calmly_modify (f : kern V T K → kern V T K) : (∀ s, calm s (f s)) → calmly (modify f).
Proof. intros H s0. apply keeps_modify. intros s Hs. by eapply calm_trans. Qed.
Lemma calmly_upd p g : (∀ x, p_ofile (g x) = p_ofile x) → (∀ x, p_state (g x) = p_state x ∨ alive (g x)) → calmly (upd p g).
Proof. intros H1 H2. apply calmly_modify. intros s. by apply calm_modp. Qed.
Lemma calmly_vm {A} (m : M V A) : calmly (vm m).
Proof. intros s0. apply keeps_lift. intros v s Hs. eapply calm_trans; [done|]. apply calm_mem. Qed.
Lemma calmly_fsys {A} (m : M (fs T) A) : calmly (fsys m).
Proof.
  intros s0 s Hs. unfold fsys, fileop, fsop. rewrite !wlp_lift. apply wlp_true. intros a x. eapply calm_trans; [done|]. apply calm_fs.
Qed.
Lemma calmly_lock get set : (∀ b s, calm s (set b s)) → calmly (lock get set).
Proof.
  intros H s0. unfold lock. apply keeps_bind; [apply (calmly_modify (λ s, set_k_noff (k_noff s + 1) s)); intros s; apply (calm_refl s)|intros _].
  apply keeps_acquire. intros b s Hs. by eapply calm_trans.
Qed.
Lemma calmly_unlock get set : (∀ b s, calm s (set b s)) → calmly (unlock get set).
Proof.
  intros H s0. unfold unlock. apply keeps_bind; [apply keeps_release; intros b s Hs; by eapply calm_trans|intros _].
  apply (calmly_modify (λ s, set_k_noff (k_noff s - 1) s)). intros s. apply (calm_refl s).
Qed.
Lemma calm_lock p b s : calm s (modp p (set_lock b) s).
Proof. apply calm_modp; [done|by left]. Qed.
Lemma calmly_plock p : calmly (plock p).
Proof. apply calmly_lock. intros. apply calm_lock. Qed.
Lemma calmly_punlock p : calmly (punlock p).
Proof. apply calmly_unlock. intros. apply calm_lock. Qed.
Lemma calmly_wait_lock : calmly (lock k_wait_lock set_k_wait_lock).
Proof. apply calmly_lock. intros b s. apply (calm_refl s). Qed.
Lemma calmly_wait_unlock : calmly (unlock k_wait_lock set_k_wait_lock).
Proof. apply calmly_unlock. intros b s. apply (calm_refl s). Qed.
Lemma calmly_cur c : calmly (modify (set_k_cur c)).
Proof. apply calmly_modify. intros s. apply (calm_refl s). Qed.
Lemma calmly_tf_ld tf off : calmly (tf_ld tf off).
Proof. apply calmly_vm. Qed.
Lemma calmly_tf_st tf off x : calmly (tf_st tf off x).
Proof. apply calmly_vm. Qed.
End FileRefs.

Notation calmly m := (∀ s0, keeps (calm s0) m).
#[export] Hint Resolve calmly_vm calmly_fsys calmly_plock calmly_punlock calmly_wait_lock calmly_wait_unlock calmly_cur calmly_tf_ld calmly_tf_st : keeps.

Ltac calm_upd := apply calmly_upd; [done|intros ?; first [by left|by right]].
Ltac calmly := intros ?; keeps_with calm_upd.

(** The calls that leave the files alone. *)
Section Calm.
Context {V T K : Type} {PO : PageAllocOps V} {TO : TxOps T} {KO : KmOps K}.
Context (proc_addr : Z → Z).
Implicit Types s : kern V T K.
#[local] Notation calmly m := (∀ s0 : kern V T K, keeps (calm s0) m).

Lemma calmly_init_signals p : calmly (init_signals p).
Proof. unfold init_signals. calmly. Qed.
#[local] Hint Resolve calmly_init_signals : keeps.

Lemma calmly_wakeup chan : calmly (wakeup chan).
Proof. unfold wakeup, myproc. calmly. Qed.
#[local] Hint Resolve calmly_wakeup : keeps.
Lemma calmly_reparent p : calmly (reparent proc_addr p).
Proof. unfold reparent. calmly. Qed.
Lemma calmly_switch_out : calmly switch_out.
Proof. unfold switch_out, sched_checks, myproc. calmly. Qed.
#[local] Hint Resolve calmly_switch_out : keeps.
Lemma calmly_sleep_on chan get set : (∀ b s, calm s (set b s)) → calmly (sleep_on chan get set).
Proof. intros H. pose proof (calmly_unlock get set H). unfold sleep_on, myproc. calmly. Qed.
Lemma calmly_sleep_end get set : (∀ b s, calm s (set b s)) → calmly (sleep_end get set).
Proof. intros H. pose proof (calmly_lock get set H). unfold sleep_end, myproc. calmly. Qed.
Lemma calmly_killed p : calmly (killed p).
Proof. unfold killed. calmly. Qed.
Lemma calmly_setkilled p : calmly (setkilled p).
Proof. unfold setkilled. calmly. Qed.
Lemma calmly_kkill pid signum : calmly (kkill pid signum).
Proof. unfold kkill. calmly. Qed.
Lemma calmly_dispatch p : calmly (dispatch p).
Proof. unfold dispatch. calmly. Qed.
Lemma calmly_yield_out : calmly yield_out.
Proof. unfold yield_out, myproc. calmly. Qed.
Lemma calmly_yield_back : calmly yield_back.
Proof. unfold yield_back, myproc. calmly. Qed.
Lemma calmly_growproc n : calmly (growproc n).
Proof. unfold growproc, myproc. calmly. Qed.
Lemma calmly_resume {A} p (k : M (kern V T K) A) : calmly k → calmly (resume p k).
Proof. intros H. pose proof (calmly_dispatch p). unfold resume. calmly. Qed.
End Calm.

(** ** The calls on the table of files *)

Section Table.
Context {T K : Type} {TO : TxOps T} {KO : KmOps K} (pid : Z).
Implicit Types t : files T K.

Lemma fget_insert f x t t' : ft_file t' = <[f := x]> (ft_file t) → fget f t' = x.
Proof. intros E. unfold fget. by rewrite E, lookup_insert_eq. Qed.
Lemma fget_insert_ne f g x t t' : ft_file t' = <[f := x]> (ft_file t) → g ≠ f → fget g t' = fget g t.
Proof. intros E H. unfold fget. by rewrite E, lookup_insert_ne. Qed.

Lemma wlp_filedup f Q t :
  (∀ t', 1 ≤ f_ref (fget f t) → ft_file t' = <[f := f_set_ref (f_ref (fget f t) + 1) (fget f t)]> (ft_file t) → Q f t') → wlp (filedup f) Q t.
Proof.
  intros H. unfold filedup. wlp_step. rewrite wlp_acquire. intros _. do 2 wlp_step. wlp_step. rewrite wlp_panic_if. intros Hr%Z.ltb_ge. do 2 wlp_step.
  wlp_step. rewrite wlp_release. intros _. by apply H.
Qed.

Lemma wlp_filealloc Q t :
  (∀ t', ft_file t' = ft_file t → Q 0 t') →
  (∀ f t', 0 < f → f_ref (fget f t) = 0 → ft_file t' = <[f := f_set_ref 1 (fget f t)]> (ft_file t) → Q f t') → wlp filealloc Q t.
Proof.
  intros H0 H1. unfold filealloc. wlp_step. rewrite wlp_acquire. intros _. wlp_step.
  apply (wlp_for_ret (λ _ t', t' = set_ft_lock true t)); [done| |].
  - intros ds f rest t' Hl ->. do 2 wlp_step. destruct (Z.eqb_spec (f_ref (fget f (set_ft_lock true t))) 0) as [E|]; [|done].
    do 2 wlp_step. wlp_step. wlp_step. rewrite wlp_release. intros _. wlp_step. apply H1; [|done|done].
    assert (f ∈ seqZ 1 NFILE) as Hf by (rewrite Hl; set_solver). apply elem_of_seqZ in Hf. cbn. lia.
  - intros t' ->. wlp_step. rewrite wlp_release. intros _. wlp_step. by apply H0.
Qed.

(** What [fileclose] leaves of a file. *)
Definition closed (x : file) : file :=
  if f_ref x - 1 >? 0 then f_set_ref (f_ref x - 1) x else f_set_type FD_NONE (f_set_ref 0 x).

Lemma wlp_fsop_file {A} (m : M (fs T) A) (Q : A → files T K → Prop) t : (∀ a t', ft_file t' = ft_file t → Q a t') → wlp (fsop m) Q t.
Proof. intros H. unfold fsop. rewrite wlp_lift. apply wlp_true. intros. by apply H. Qed.
Lemma wlp_fsop3 {A B C} (m1 : M (fs T) A) (m2 : M (fs T) B) (m3 : M (fs T) C) (Q : C → files T K → Prop) t :
  (∀ a t', ft_file t' = ft_file t → Q a t') → wlp (fsop m1;; fsop m2;; fsop m3) Q t.
Proof.
  intros H. wlp_step. apply wlp_fsop_file. intros _ t1 E1. cbv beta. wlp_step. apply wlp_fsop_file. intros _ t2 E2. cbv beta.
  apply wlp_fsop_file. intros a t3 E3. apply H. congruence.
Qed.
Lemma wlp_fpipeclose pi w (Q : unit → files T K → Prop) t : (∀ t', ft_file t' = ft_file t → Q tt t') → wlp (fpipeclose pi w) Q t.
Proof.
  intros H. unfold fpipeclose, pipeop. wlp_step. rewrite wlp_lift. apply wlp_true. intros [] p; [|by apply H].
  unfold kmop. rewrite wlp_lift. apply wlp_true. intros [] k. by apply H.
Qed.

Lemma wlp_fileclose f Q t :
  (∀ t', 1 ≤ f_ref (fget f t) → ft_file t' = <[f := closed (fget f t)]> (ft_file t) → Q tt t') → wlp (fileclose pid f) Q t.
Proof.
  intros H. unfold fileclose. wlp_step. rewrite wlp_acquire. intros _. do 2 wlp_step. wlp_step. rewrite wlp_panic_if. intros Hr%Z.ltb_ge.
  change (fget f (set_ft_lock true t)) with (fget f t) in *. do 2 wlp_step. unfold closed in H. destruct (_ >? _).
  { rewrite wlp_release. intros _. by apply H. }
  assert (∀ t1, ft_file t1 = <[f := f_set_ref (f_ref (fget f t) - 1) (fget f t)]> (ft_file t) →
    ∀ t', ft_file t' = ft_file (fmod f (f_set_type FD_NONE) (fmod f (f_set_ref 0) t1)) → Q tt t') as Hq.
  { intros t1 E1 t' E. apply H; [done|]. rewrite E. unfold fmod, fput, fget. cbn. rewrite E1, !insert_insert_eq, !lookup_insert_eq. done. }
  do 2 wlp_step. do 4 wlp_step. wlp_step. rewrite wlp_release. intros _. 
  specialize (Hq (fmod f (f_set_ref (f_ref (fget f t) - 1)) (set_ft_lock true t)) eq_refl).
  match goal with |- context [f_type ?x] => destruct (f_type x) end.
  - rewrite wlp_ret. by apply Hq.
  - apply wlp_fpipeclose. intros t' E. by apply Hq.
  - apply wlp_fsop3. intros [] t' E. by apply Hq.
  - apply wlp_fsop3. intros [] t' E. by apply Hq.
Qed.
End Table.

(** ** One file or one descriptor changes *)

Section Change.
Context {V T K : Type} {PO : PageAllocOps V} {TO : TxOps T} {KO : KmOps K}.
Implicit Types s : kern V T K.

Lemma finv_file d d' N N' f x s s' :
  finv d N s → f ≠ 0 → k_proc s' = k_proc s → ft_file (k_files s') = <[f := x]> (ft_file (k_files s)) →
  f_ref x = f_ref (fileof f s) + d' f - d f → (∀ g, g ≠ 0 → g ≠ f → d' g = d g) →
  (f ∉ N' → f_ref x ≠ 0 → f_type x ≠ FD_NONE) → (∀ g, g ∈ N → g ≠ f → g ∈ N') → finv d' N' s'.
Proof.
  intros [H1 H2 H3 H4] Hf Ep Ef Hr Hd Ht HN. assert (∀ p, getp p s' = getp p s) as Eg by (intros p; unfold getp; by rewrite Ep).
  assert (∀ g, refs g s' = refs g s) as Er by (intros g; apply refs_same; intros p; by rewrite Eg).
  assert (fileof f s' = x) as Ex by by eapply fget_insert. assert (∀ g, g ≠ f → fileof g s' = fileof g s) as Ene by (intros g Hg; by eapply fget_insert_ne).
  split.
  - intros p. rewrite Eg. auto.
  - intros g Hg. rewrite Er. destruct (decide (g = f)) as [->|Hgf]; [rewrite Ex, Hr, H2 by done; lia|]. rewrite Ene, Hd by done. auto.
  - intros g Hg. destruct (decide (g = f)) as [->|Hgf]; [by rewrite Ex|]. rewrite Ene by done. intros Hn. apply H3; [done|]. intros Hin. by apply Hn, HN.
  - intros p Hp. unfold nofiles. rewrite Eg. apply (H4 p Hp).
Qed.

Lemma insert_zeros n i : <[i := 0]> (replicate n 0) = replicate n 0 :> list Z.
Proof. apply list_eq. intros j. destruct (decide (j = i)) as [->|]; [|by rewrite list_lookup_insert_ne]. destruct (decide (i < n)%nat).
  - rewrite list_lookup_insert_eq by (by rewrite length_replicate). by rewrite lookup_replicate_2.
  - rewrite list_insert_ge by (rewrite length_replicate; lia). done.
Qed.

Lemma finv_slot d N p i a f s :
  finv d N s → p ∈ procs → alive (getp p s) ∨ f = 0 → p_ofile (getp p s) !! i = Some a →
  finv (λ g, d g + one a g - one f g) N (modp p (λ x, set_ofile (<[i := f]> (p_ofile x)) x) s).
Proof.
  intros [H1 H2 H3 H4] Hp Ha Hi. set (s' := modp p _ s).
  assert (p_ofile (getp p s') = <[i := f]> (p_ofile (getp p s))) as Eo by (unfold s'; by rewrite getp_modp_eq).
  assert (∀ q, q ≠ p → getp q s' = getp q s) as Ene by (intros q Hq; by apply getp_modp_ne).
  assert (p_state (getp p s') = p_state (getp p s)) as Est by (unfold s'; by rewrite getp_modp_eq).
  split.
  - intros q Hq. destruct (decide (q = p)) as [->|]; [rewrite Eo, length_insert|rewrite Ene by done]; auto.
  - intros g Hg. change (fileof g s') with (fileof g s). rewrite H2 by done.
    unfold refs. rewrite (cnt_bind g procs (λ q, p_ofile (getp q s)) (λ q, p_ofile (getp q s')) p); [|apply NoDup_seqZ|done|intros q _ Hq; by rewrite Ene].
    rewrite Eo, (cnt_insert g _ i a f) by done. lia.
  - apply H3.
  - intros q Hq. unfold nofiles. destruct (decide (q = p)) as [->|]; [|rewrite Ene by done; apply (H4 q Hq)]. intros Hna. rewrite Eo.
    assert (¬ alive (getp p s)) as Hd by (unfold alive in *; by rewrite Est in Hna). destruct Ha as [Ha| ->]; [done|].
    rewrite (H4 p Hp Hd). apply insert_zeros.
Qed.

(** The calls, on the count. *)
Lemma wlp_finv_dup d N f Q s :
  finv d N s → f ≠ 0 → f ∉ N → (∀ t, finv (λ g, d g + one f g) N (set_k_files t s) → Q f (set_k_files t s)) → wlp (fileop (filedup f)) Q s.
Proof.
  intros H Hf HN HQ. unfold fileop. rewrite wlp_lift. apply wlp_filedup. intros t Hr E. apply HQ. eapply (finv_file d _ N N f); try done.
  - cbn. unfold one. rewrite Z.eqb_refl. unfold fileof. lia.
  - intros g _ Hg. unfold one. destruct (Z.eqb_spec g f); [done|lia].
  - intros _ _. apply (fi_type _ _ _ H f Hf HN). unfold fileof. lia.
Qed.

Lemma wlp_finv_close pid d N f Q s :
  finv d N s → f ≠ 0 → f ∉ N ∨ f_ref (fileof f s) = 1 →
  (∀ t, finv (λ g, d g - one f g) (N ∖ {[f]}) (set_k_files t s) → Q tt (set_k_files t s)) → wlp (fileop (fileclose pid f)) Q s.
Proof.
  intros H Hf HN HQ. unfold fileop. rewrite wlp_lift. apply wlp_fileclose. intros t Hr E. apply HQ. unfold fileof in *.
  eapply (finv_file d _ N _ f); try done.
  - unfold closed, one. rewrite Z.eqb_refl. unfold fileof. rewrite Z.gtb_ltb. destruct (Z.ltb_spec 0 (f_ref (fget f (k_files s)) - 1)); cbn; lia.
  - intros g _ Hg. unfold one. destruct (Z.eqb_spec g f); [done|lia].
  - unfold closed. rewrite Z.gtb_ltb. destruct (Z.ltb_spec 0 (f_ref (fget f (k_files s)) - 1)); cbn; [|done]. intros _ _.
    destruct HN as [HN|HN]; [|lia]. apply (fi_type _ _ _ H f Hf HN). unfold fileof. lia.
  - set_solver.
Qed.

Lemma wlp_finv_alloc d N Q s :
  finv d N s → (∀ t, finv d N (set_k_files t s) → Q 0 (set_k_files t s)) →
  (∀ f t, f ≠ 0 → refs f s + d f = 0 → finv (λ g, d g + one f g) ({[f]} ∪ N) (set_k_files t s) → Q f (set_k_files t s)) → wlp (fileop filealloc) Q s.
Proof.
  intros H HQ0 HQ. unfold fileop. rewrite wlp_lift. apply wlp_filealloc.
  - intros t E. apply HQ0. eapply calm_finv; [|done]. split_and!; try done; [by left|]. unfold fileof, fget. cbn. by rewrite E.
  - intros f t Hf Hr E. assert (f ≠ 0) as Hf0 by lia. apply HQ; [done|by rewrite <-(fi_ref _ _ _ H f Hf0)|]. eapply (finv_file d _ N _ f); try done.
    + cbn. unfold one, fileof. rewrite Hr, Z.eqb_refl. lia.
    + intros g _ Hg. unfold one. destruct (Z.eqb_spec g f); [done|lia].
    + set_solver.
    + set_solver.
Qed.
End Change.

Section FileSteps.
Context {V T K : Type} {PO : PageAllocOps V} {TO : TxOps T} {KO : KmOps K}.
Context (trampoline forkret_addr kthread_entry_addr : Z).
Implicit Types s : kern V T K.

(** Every reference is a descriptor, and no file is under construction. *)
Definition counted s : Prop := finv (λ _, 0) ∅ s.

(** A calm step under what calm steps keep. *)
Definition settled (G : kern V T K → Prop) : Prop := ∀ s s', calm s s' → G s → G s'.
Lemma settled_counted : settled counted.
Proof. intros s s' Hc H. by apply (calm_finv _ _ s). Qed.
Lemma settled_and G H : settled G → settled H → settled (λ s, G s ∧ H s).
Proof. intros HG HH s s' Hc [? ?]. split; [by apply (HG s)|by apply (HH s)]. Qed.
Lemma settled_nofiles p : settled (nofiles p).
Proof. intros s s'. apply calm_nofiles. Qed.
Lemma settled_alive p : settled (λ s, alive (getp p s)).
Proof. intros s s'. apply calm_alive. Qed.
#[local] Hint Resolve settled_counted settled_and settled_nofiles settled_alive : keeps.

Lemma keeps_settled {A} G (m : M (kern V T K) A) : settled G → calmly m → keeps G m.
Proof. intros HG Hm s Hs. eapply wlp_mono; [apply (Hm s s), calm_refl|]. intros a s' Hc. by apply (HG s). Qed.
Lemma wlp_settled {A B} G (m : M (kern V T K) A) (f : A → M (kern V T K) B) Q s :
  settled G → calmly m → G s → (∀ a s', G s' → wlp (f a) Q s') → wlp (m ≫= f) Q s.
Proof. intros HG Hm Hs Hf. rewrite wlp_bind. eapply wlp_mono; [by apply (keeps_settled G m HG Hm)|]. done. Qed.

Lemma counted_modp p g s :
  counted s → p ∈ procs → nofiles p s → (∀ x, p_ofile (g x) = p_ofile x) → counted (modp p g s).
Proof.
  intros [H1 H2 H3 H4] Hp Hn Hg. assert (∀ q, p_ofile (getp q (modp p g s)) = p_ofile (getp q s)) as E.
  { intros q. destruct (decide (q = p)) as [->|]; [by rewrite getp_modp_eq|by rewrite getp_modp_ne]. }
  split.
  - intros q Hq. rewrite E. auto.
  - intros f Hf. rewrite (refs_same f s) by done. by apply H2.
  - apply H3.
  - intros q Hq. unfold nofiles. rewrite E. destruct (decide (q = p)) as [->|]; [done|]. rewrite getp_modp_ne by done. apply (H4 q Hq).
Qed.

Lemma wlp_counted_freeproc p Q s :
  counted s → p ∈ procs → nofiles p s → (∀ s', counted s' → Q tt s') → wlp (freeproc p) Q s.
Proof. intros H Hp Hn HQ. apply wlp_freeproc. intros v. apply HQ. apply counted_modp; try done. by apply (calm_finv _ _ s); [apply calm_mem|]. Qed.

Lemma wlp_counted_allocproc Q s :
  pinv s → counted s → (∀ s', counted s' → Q 0 s') →
  (∀ p s', p ∈ procs → counted s' → nofiles p s' → alive (getp p s') → Q p s') → wlp (allocproc trampoline forkret_addr) Q s.
Proof.
  intros Hi H HQ0 HQ. assert (∀ p, p ∈ procs → p_state (getp p s) = UNUSED → nofiles p s) as Hno.
  { intros p Hp Hu. apply (fi_dead _ _ _ H); [done|]. intros [Ha _]. done. }
  assert (∀ v, counted (set_k_vm v (pid_taken s))) as Hv by (intros v; by apply (settled_counted s); [apply (calm_refl s)|]).
  apply wlp_allocproc.
  - by eapply busy_locks_free.
  - apply (bu_pid _ _ _ _ Hi).
  - by apply HQ0.
  - intros p v Hp Hu. apply HQ0. apply counted_modp; [apply Hv|done|by apply Hno|done].
  - intros p v tf pt Hp Hu _ _. set (g := λ x, set_lock true (new_entry forkret_addr (k_nextpid s) tf pt x)). set (s1 := set_k_vm v (pid_taken s)).
    assert (calm s1 (set_k_noff (k_noff s + 1) (modp p g s1))) as Hc by (apply (calm_modp p g s1); [done|by right]).
    assert (getp p (set_k_noff (k_noff s + 1) (modp p g s1)) = g (getp p s1)) as E by apply (getp_modp_eq p g s1).
    apply HQ; [done|by apply (settled_counted s1); [|apply Hv]|by apply (settled_nofiles p s1); [|apply Hno]|by rewrite E].
Qed.

(** ** [kfork] *)

Lemma wlp_counted_kfork_files p np Q s :
  counted s → np ∈ procs → alive (getp np s) → nofiles np s → (∀ s', counted s' → Q tt s') → wlp (kfork_files p np) Q s.
Proof.
  intros H Hp Ha Hn HQ.
  apply (wlp_for_each (λ ds s', counted s' ∧ alive (getp np s') ∧ ∀ j, 0 ≤ j < 16 → j ∉ ds → p_ofile (getp np s') !! Z.to_nat j = Some 0)).
  - split_and!; try done. intros j Hj _. rewrite Hn. apply lookup_replicate_2. lia.
  - intros ds i rest s1 Hl (H1 & Ha1 & Hz). assert (0 ≤ i < 16) as Hi. { assert (i ∈ seqZ 0 NOFILE) as Hi%elem_of_seqZ by (rewrite Hl; set_solver). unfold NOFILE in Hi. lia. }
    assert (i ∉ ds) as Hds. { pose proof (NoDup_seqZ 0 NOFILE) as Hnd. rewrite Hl in Hnd. apply NoDup_app in Hnd as (_ & Hnd & _). intros Hin. apply (Hnd i Hin). by left. }
    do 2 wlp_step. match goal with |- context [negb (?x =? 0)] => set (f := x) end. destruct (Z.eqb_spec f 0); cbn [negb].
    { rewrite wlp_ret. split_and!; [done|done|]. intros j Hj Hn1. apply Hz; [done|]. set_solver. }
    wlp_step. eapply wlp_finv_dup; [exact H1|done|set_solver|]. intros t Ht. cbv beta. apply wlp_upd. cbv beta. set (s2 := set_k_files t s1) in *. split_and!.
    + eapply finv_ext; [|apply (finv_slot _ ∅ np (Z.to_nat i) 0 f s2 Ht Hp); [by left|by apply Hz]]. intros g Hg. cbn. unfold one. destruct (Z.eqb_spec g 0); lia.
    + by rewrite getp_modp_eq.
    + intros j Hj Hn1. rewrite getp_modp_eq. cbn. rewrite list_lookup_insert_ne; [apply Hz; [done|set_solver]|]. assert (j ≠ i) by set_solver. lia.
  - intros s' (H' & _). by apply HQ.
Qed.

Lemma wlp_counted_kfork Q s : pinv s → counted s → (∀ r s', counted s' → Q r s') → wlp (kfork trampoline forkret_addr) Q s.
Proof.
  intros Hi H HQ. unfold kfork, myproc. do 5 wlp_step. apply wlp_panic_if. intros _. wlp_step. apply wlp_counted_allocproc; [done|done|by intros; apply HQ|].
  intros np s1 Hp H1 Hn1 Ha1. cbv beta. destruct (np =? 0); [by apply HQ|].
  set (G := λ s, counted s ∧ nofiles np s ∧ alive (getp np s)). assert (settled G) as HG by (unfold G; auto with keeps). assert (G s1) as G1 by done. clear H1 Hn1 Ha1.
  apply (wlp_settled G); [done|auto with keeps|done|]. clear s1 G1. intros npt s1 G1. cbv beta.
  apply (wlp_settled G); [done|auto with keeps|done|]. clear s1 G1. intros r s1 G1. cbv beta. destruct (r <? 0).
  { destruct G1 as (H1 & Hn1 & _). wlp_step. apply wlp_counted_freeproc; [done..|]. intros s2 H2. cbv beta.
    apply (wlp_settled counted); [auto with keeps..|]. intros _ s3 H3. by apply HQ. }
  do 9 (apply (wlp_settled G); [done|first [solve [auto with keeps]|intros ?; calm_upd]|done|]; clear s1 G1; intros ? s1 G1; cbv beta).
  destruct G1 as (H1 & Hn1 & Ha1). wlp_step. apply wlp_counted_kfork_files; try done. intros s2 H2. cbv beta.
  eapply wlp_mono; [apply (keeps_settled counted); [auto with keeps|calmly|done]|]. auto.
Qed.

Lemma wlp_counted_kthread_create f arg name Q s :
  pinv s → counted s → (∀ r s', counted s' → Q r s') → wlp (kthread_create trampoline forkret_addr kthread_entry_addr f arg name) Q s.
Proof.
  intros Hi H HQ. unfold kthread_create. wlp_step. apply wlp_counted_allocproc; [done|done|by intros; apply HQ|]. intros np s1 Hp H1 _ _. cbv beta.
  destruct (np =? 0); [by apply HQ|]. eapply wlp_mono; [apply (keeps_settled counted); [auto with keeps|calmly|done]|]. auto.
Qed.
(** ** [kexit] *)

Lemma wlp_counted_kexit_files p Q s :
  counted s → p ∈ procs → (∀ s', counted s' → nofiles p s' → Q tt s') → wlp (kexit_files p) Q s.
Proof.
  intros H Hp HQ.
  apply (wlp_for_each (λ ds s', counted s' ∧ ∀ j, j ∈ ds → p_ofile (getp p s') !! Z.to_nat j = Some 0)).
  - split; [done|]. intros j Hj. by apply not_elem_of_nil in Hj.
  - intros ds i rest s1 Hl [H1 Hz]. assert (0 ≤ i < 16) as Hi. { assert (i ∈ seqZ 0 NOFILE) as Hi%elem_of_seqZ by (rewrite Hl; set_solver). unfold NOFILE in Hi. lia. }
    assert (∃ f, p_ofile (getp p s1) !! Z.to_nat i = Some f) as [f Ef] by (apply lookup_lt_is_Some_2; rewrite (fi_len _ _ _ H1) by done; lia).
    assert (∀ s2, p_ofile (getp p s2) = <[Z.to_nat i := 0]> (p_ofile (getp p s1)) → ∀ j, j ∈ ds ++ [i] → p_ofile (getp p s2) !! Z.to_nat j = Some 0) as Hz'.
    { intros s2 E j Hj. rewrite E. destruct (decide (Z.to_nat j = Z.to_nat i)) as [->|Hne].
      - apply list_lookup_insert_eq. rewrite (fi_len _ _ _ H1) by done. lia.
      - rewrite list_lookup_insert_ne by done. apply Hz. apply elem_of_app in Hj as [Hj|Hj%list_elem_of_singleton]; [done|by subst]. }
    do 2 wlp_step. rewrite Ef. change (default 0 (Some f)) with f. destruct (Z.eqb_spec f 0) as [->|Hf]; cbn [negb].
    { rewrite wlp_ret. split; [done|]. apply Hz'. by rewrite list_insert_id. }
    do 2 wlp_step. wlp_step. eapply wlp_finv_close; [exact H1|done|left; set_solver|]. intros t Ht. cbv beta. apply wlp_upd. cbv beta. set (s2 := set_k_files t s1) in *.
    split; [|apply Hz'; by rewrite getp_modp_eq]. rewrite empty_minus in Ht. eapply finv_ext; [|apply (finv_slot _ ∅ p (Z.to_nat i) f 0 s2 Ht Hp); [by right|done]].
    intros g Hg. cbn. unfold one. destruct (Z.eqb_spec g 0); lia.
  - intros s' [H' Hz]. apply HQ; [done|]. unfold nofiles. apply list_eq_same_length with 16%nat; [by rewrite length_replicate|by apply (fi_len _ _ _ H')|].
    intros i x y Hi Hx Hy. apply lookup_replicate in Hy as [-> _]. specialize (Hz (Z.of_nat i)). rewrite Nat2Z.id in Hz.
    rewrite Hz in Hx; [by injection Hx|]. apply elem_of_seqZ. unfold NOFILE. lia.
Qed.

Lemma wlp_counted_kexit proc_addr status Q s :
  counted s → k_cur s ∈ procs → (∀ s', counted s' → Q tt s') → wlp (kexit proc_addr status) Q s.
Proof.
  intros H Hp HQ. unfold kexit, myproc. do 4 wlp_step. wlp_step. apply wlp_panic_if. intros _. wlp_step. apply wlp_counted_kexit_files; [done|done|].
  set (p := k_cur s) in *. clearbody p. clear s H. intros s1 H1 Hn1. cbv beta. pose proof (calmly_reparent proc_addr (V := V) (T := T) (K := K) p). pose proof (calmly_wakeup (V := V) (T := T) (K := K)).
  set (G := λ s, counted s ∧ nofiles p s). assert (settled G) as HG by (unfold G; auto with keeps). assert (G s1) as G1 by done. clear H1 Hn1.
  do 11 (apply (wlp_settled G); [done|first [solve [auto with keeps]|intros ?; calm_upd]|done|]; clear s1 G1; intros ? s1 G1; cbv beta).
  destruct G1 as [H1 Hn1]. wlp_step. apply wlp_upd. cbv beta. 
  eapply wlp_mono; [apply (keeps_settled counted (unlock k_wait_lock set_k_wait_lock;; switch_out)); [auto with keeps| |by apply counted_modp]|].
  - pose proof (calmly_switch_out (V := V) (T := T) (K := K)). calmly.
  - intros []. apply HQ.
Qed.

(** ** [kwait] *)

Context (proc_addr xstate_addr : Z → Z).

Lemma wlp_counted_reap p pp addr Q s :
  counted s → pp ∈ procs → nofiles pp s → (∀ r s', counted s' → Q r s') → wlp (reap xstate_addr p pp addr) Q s.
Proof.
  clear proc_addr. intros H Hp Hn HQ. unfold reap. do 4 wlp_step. 
  set (G := λ s, counted s ∧ nofiles pp s). assert (settled G) as HG by (unfold G; auto with keeps). 
  apply (wlp_settled G); [done|calmly|done|]. intros r s1 [H1 Hn1]. cbv beta. destruct (r <? 0).
  - eapply wlp_mono; [apply (keeps_settled counted); [auto with keeps|calmly|done]|auto].
  - wlp_step. apply wlp_counted_freeproc; [done..|]. intros s2 H2. cbv beta.
    eapply wlp_mono; [apply (keeps_settled counted); [auto with keeps|calmly|done]|auto].
Qed.

Lemma keeps_counted_kwait_iter addr : keeps counted (kwait_iter proc_addr xstate_addr addr).
Proof.
  unfold kwait_iter, myproc. apply keeps_bind; [apply keeps_gets|intros p]. apply keeps_bind.
  - intros s Hs. unfold kwait_scan. apply (wlp_loop (λ x s', counted s' ∧ ∀ q, q ∈ x.1 → q ∈ procs)); [done|].
    intros [[|pp l] hk] s1 [H1 Hl]; [done|]. assert (pp ∈ procs) as Hpp by (apply Hl; left). assert (∀ q, q ∈ l → q ∈ procs) as Hl' by (intros; apply Hl; by right).
    do 2 wlp_step. destruct (_ =? p); [|done]. apply (wlp_settled counted); [auto with keeps..|]. clear s1 H1. intros _ s1 H1. cbv beta. do 2 wlp_step.
    destruct (bool_decide_reflect (p_state (getp pp s1) = ZOMBIE)) as [Hz|].
    + wlp_step. apply wlp_counted_reap; [done|done| |]; [|done]. apply (fi_dead _ _ _ H1); [done|]. intros [_ Ha]. done.
    + apply (wlp_settled counted); [auto with keeps..|]. done.
  - intros r. apply keeps_settled; [auto with keeps|]. pose proof (calmly_killed (V := V) (T := T) (K := K)) as Hk.
    assert (∀ b s, calm s (set_k_wait_lock b s)) as Hw by (intros b s; apply (calm_refl s)).
    pose proof (λ c, calmly_sleep_on (V := V) (T := T) (K := K) c k_wait_lock set_k_wait_lock Hw). calmly.
Qed.
(** ** Every call *)

Lemma calm_outer set : outer set → ∀ b s, calm s (set b s).
Proof.
  clear proc_addr xstate_addr. intros (h & j & Hset) b s. destruct (Hset b s) as [-> E]. split_and!; try done; [by left|].
  intros f. unfold fileof, fget. cbn. by rewrite E.
Qed.

Lemma keeps_counted_resume {A} p (k : M (kern V T K) A) : keeps counted k → keeps counted (resume p k).
Proof.
  clear proc_addr xstate_addr. intros Hk. pose proof (keeps_settled counted _ settled_counted (calmly_dispatch p)) as Hd.
  pose proof (keeps_settled counted _ settled_counted (calmly_punlock p)) as Hu. unfold resume. keeps_with fail.
Qed.

Lemma pcall_counted s s' :
  pinv s → counted s → pcall trampoline forkret_addr kthread_entry_addr proc_addr xstate_addr s s' → counted s'.
Proof.
  intros Hi H Hs. assert (∀ A (m : M (kern V T K) A) r, calmly m → m s = Ok r s' → counted s') as Hcalm.
  { intros A m r Hm E. apply (keeps_Ok counted m s r s'); [|done..]. by apply keeps_settled; [apply settled_counted|]. }
  assert (calmly (lock (V := V) (T := T) (K := K) k_wait_lock set_k_wait_lock)) as Hwl by auto with keeps.
  destruct Hs as [r Hc Hl E|st Hc E|a r Hc E|p a Hc Hp E|pid sg r E|Hc E|ch E|ch g st Hc Ho E|p g st Hc Hp Ho E|Hc E|p Hc Hp E|f a nm r Hl E|n r Hc E].
  - eapply (wlp_Ok _ (λ _, counted)); [|exact E]. by apply wlp_counted_kfork.
  - eapply (wlp_Ok _ (λ _, counted)); [|exact E]. apply wlp_counted_kexit; [done| |done]. apply (co_cur _ (bu_core _ _ _ _ Hi) Hc).
  - eapply (keeps_Ok counted); [|exact H|exact E]. unfold kwait. apply keeps_bind; [by apply keeps_settled; [apply settled_counted|]|intros _]. apply keeps_counted_kwait_iter.
  - eapply (keeps_Ok counted); [|exact H|exact E]. apply keeps_counted_resume. unfold kwait_again.
    apply keeps_bind; [apply keeps_settled; [apply settled_counted|]|intros _; apply keeps_counted_kwait_iter].
    apply calmly_sleep_end. intros b s0. apply (calm_refl s0).
  - exact (Hcalm _ _ _ (calmly_kkill pid sg) E).
  - exact (Hcalm _ _ _ (calmly_setkilled _) E).
  - exact (Hcalm _ _ _ (calmly_wakeup ch) E).
  - apply (Hcalm _ _ tt) in E; [done|]. pose proof (calm_outer st Ho) as Hst. intros s0. apply keeps_bind; [by apply calmly_lock|intros _]. by apply calmly_sleep_on.
  - apply (Hcalm _ _ tt) in E; [done|]. pose proof (calm_outer st Ho) as Hst. apply calmly_resume. intros s0. apply keeps_bind; [by apply calmly_sleep_end|intros _]. by apply calmly_unlock.
  - exact (Hcalm _ _ _ calmly_yield_out E).
  - exact (Hcalm _ _ _ (calmly_resume p _ calmly_yield_back) E).
  - eapply (wlp_Ok _ (λ _, counted)); [|exact E]. by apply wlp_counted_kthread_create.
  - exact (Hcalm _ _ _ (calmly_growproc n) E).
Qed.
End FileSteps.
