(* ===== verification/FdCalls.v ===== *)
(** * The system calls on files and the count of open files

    [open], [dup], [close] and [pipe] move references between the table of files
    and the descriptors; the other calls leave both alone.  With [FileSteps]: the
    references to an open file are its descriptors. *)

From S2P Require Import Prelude Wlp Mem Kstring Layout PageAlloc Vm BufIface Sleeplock TxIface Fs Ring Pipe File Proc ProcInv ProcProps Trap Sysfile Exec FileRefs.

Set Default Proof Using "Type".

(** ** What a call of the running process may do besides *)

Section Still.
Context {V T K : Type} {PO : PageAllocOps V} {TO : TxOps T} {KO : KmOps K}.
Implicit Types s : kern V T K.

(** The files are left alone, the same process runs, and the process table
    stays in order. *)
Definition still s s' : Prop := calm s s' ∧ k_cur s' = k_cur s ∧ (pinv s → k_cur s ≠ 0 → pinv s').

Lemma still_refl s : still s s.
Proof. split_and!; [apply calm_refl|done|done]. Qed.
Lemma still_trans s1 s2 s3 : still s1 s2 → still s2 s3 → still s1 s3.
Proof. intros (H1 & H2 & H3) (G1 & G2 & G3). split_and!; [by eapply calm_trans|congruence|]. intros Hp Hc. apply G3; [auto|congruence]. Qed.

Lemma still_vm {A} (m : M V A) s0 : keeps (still s0) (vm m).
Proof.
  apply keeps_lift. intros v s Hs. eapply still_trans; [done|]. split_and!; [apply calm_mem|done|]. intros Hp _. by apply busy_vm.
Qed.
(** The table of files as far as it is counted. *)
Definition same_table (t t' : files T K) : Prop := ∀ f, f_ref (fget f t') = f_ref (fget f t) ∧ f_type (fget f t') = f_type (fget f t).
Lemma still_fileop {A} (m : M (files T K) A) s0 : (∀ t, keeps (same_table t) m) → keeps (still s0) (fileop m).
Proof.
  intros Hm s Hs. unfold fileop. rewrite wlp_lift. eapply wlp_mono; [by apply (Hm (k_files s))|]. intros a t Ht. eapply still_trans; [done|].
  split_and!; [|done|intros Hp _; by apply busy_files]. split_and!; [done|by left|]. intros f. apply Ht.
Qed.
Lemma same_table_fsop {A} (m : M (fs T) A) t : keeps (same_table t) (fsop (K := K) m).
Proof. by apply keeps_lift. Qed.
Lemma still_fsys {A} (m : M (fs T) A) s0 : keeps (still s0) (fsys m).
Proof. apply still_fileop. intros t. apply same_table_fsop. Qed.
Lemma still_upd g s0 : quiet g → (∀ x, p_ofile (g x) = p_ofile x) → keeps (still s0) (upd (k_cur s0) g).
Proof.
  intros Hg Ho s Hs. apply wlp_upd. eapply still_trans; [done|]. destruct Hs as (_ & E & _). rewrite <-E. split_and!; [|done|].
  - apply calm_modp; [done|]. intros x. left. apply (Hg x).
  - intros Hp Hc. by apply pinv_quiet_cur.
Qed.
Lemma still_myproc {A} (f : Z → M (kern V T K) A) s0 : keeps (still s0) (f (k_cur s0)) → keeps (still s0) (myproc ≫= f).
Proof. intros Hf s Hs. unfold myproc. wlp_step. rewrite wlp_gets. pose proof Hs as (_ & -> & _). by apply Hf. Qed.
Lemma still_tf_ld tf off s0 : keeps (still s0) (tf_ld tf off).
Proof. apply still_vm. Qed.
Lemma still_tf_st tf off x s0 : keeps (still s0) (tf_st tf off x).
Proof. apply still_vm. Qed.
#[local] Hint Resolve still_vm still_fsys still_tf_ld still_tf_st : keeps.

Lemma still_kexec trampoline ustack path argv s0 : keeps (still s0) (kexec trampoline ustack path argv).
Proof.
  unfold kexec, kexec_bad, kexec_commit, load_program, loadseg, push_args, klen, init_signals.
  keeps_with ltac:(first [apply still_myproc | apply still_upd; [done|done]]).
Qed.
End Still.

#[export] Hint Resolve still_vm still_fsys still_tf_ld still_tf_st same_table_fsop : keeps.

(** ** The calls that leave the files alone *)

Section Calls.
Context {V T K D : Type} {PO : PageAllocOps V} {TO : TxOps T} {KO : KmOps K}.
Context (trampoline buf buf2 stk ustack uarg_addr : Z) (devs : Z → devsw (T := T) (K := K)).
(** A device's driver does not touch the table of files. *)
Context (Hread : ∀ n rd a l t, d_read (devs n) = Some rd → keeps (same_table t) (rd a l)).
Context (Hwrite : ∀ n wr a l t, d_write (devs n) = Some wr → keeps (same_table t) (wr a l)).
Implicit Types s : trapst V T K D.

Definition stillt s s' : Prop := still (t_k s) (t_k s').

Lemma keeps_kop {A} (m : M (kern V T K) A) s : keeps (still (t_k s)) m → keeps (stillt s) (kop m).
Proof. intros Hm s1 Hs1. unfold kop. rewrite wlp_lift. by apply Hm. Qed.
Lemma keeps_me {A} (f : Z → M (trapst V T K D) A) s : keeps (stillt s) (f (k_cur (t_k s))) → keeps (stillt s) (me ≫= f).
Proof.
  intros Hf s1 Hs1. unfold me, kop, myproc. wlp_step. rewrite wlp_lift. wlp_step. pose proof Hs1 as (_ & -> & _). apply Hf.
  unfold stillt. by destruct s1.
Qed.
Lemma keeps_mine s : keeps (stillt s) mine.
Proof. apply keeps_kop, still_myproc, keeps_gets. Qed.
Lemma keeps_mytf s : keeps (stillt s) mytf.
Proof. apply keeps_kop, still_myproc, keeps_gets. Qed.
#[local] Hint Resolve keeps_mine keeps_mytf : keeps.
Ltac stillt := keeps_with ltac:(first [apply keeps_me | apply keeps_kop | apply still_myproc | apply still_upd; [done|done]]).

Lemma keeps_argraw n s : keeps (stillt s) (argraw n).
Proof. unfold argraw. stillt. Qed.
Lemma keeps_argint n s : keeps (stillt s) (argint n).
Proof. unfold argint. apply keeps_bind; [apply keeps_argraw|intros; apply keeps_ret]. Qed.
#[local] Hint Resolve keeps_argraw keeps_argint : keeps.
Lemma keeps_argaddr n s : keeps (stillt s) (argaddr n).
Proof. apply keeps_argraw. Qed.
#[local] Hint Resolve keeps_argaddr : keeps.
Lemma keeps_fetchaddr addr ip s : keeps (stillt s) (fetchaddr addr ip).
Proof. unfold fetchaddr. stillt. Qed.
Lemma keeps_fetchstr addr b max s : keeps (stillt s) (fetchstr addr b max).
Proof. unfold fetchstr. stillt. Qed.
#[local] Hint Resolve keeps_fetchaddr keeps_fetchstr : keeps.
Lemma keeps_argpath n b s : keeps (stillt s) (argpath n b).
Proof. unfold argpath, argstr. stillt. Qed.
Lemma keeps_argfd n s : keeps (stillt s) (argfd n).
Proof. unfold argfd. stillt. Qed.
Lemma keeps_am_killed s : keeps (stillt s) am_killed.
Proof. unfold am_killed. stillt. Qed.
#[local] Hint Resolve keeps_argpath keeps_argfd keeps_am_killed : keeps.

Lemma same_table_off f g t : keeps (same_table t) (modify (fmod f (λ x, f_set_off (g x) x)) : M (files T K) unit).
Proof.
  apply keeps_modify. intros t1 H h. destruct (decide (h = f)) as [->|Hne].
  - rewrite (fget_insert f (f_set_off (g (fget f t1)) (fget f t1)) t1) by done. apply H.
  - rewrite (fget_insert_ne f h (f_set_off (g (fget f t1)) (fget f t1)) t1) by done. apply H.
Qed.
Lemma same_table_pipeop {A} pi (m : M pipe A) t : keeps (same_table t) (pipeop (T := T) (K := K) pi m).
Proof. by apply keeps_lift. Qed.
Lemma same_table_u (g : fs T → fs T) t : keeps (same_table t) (modify (λ s : files T K, set_ft_fs (g (ft_fs s)) s)).
Proof. by apply keeps_modify. Qed.
#[local] Hint Resolve same_table_off same_table_pipeop : keeps.
Ltac same_table := keeps_with ltac:(first [eapply Hread; eassumption | eapply Hwrite; eassumption | apply (same_table_off _ (λ x, u32 (f_off x + _))) | by apply keeps_modify]).

Lemma same_table_fileread pid k f a n t : keeps (same_table t) (fileread pid k devs f a n).
Proof using Hread. unfold fileread, fpiperead. same_table. Qed.
Lemma same_table_filewrite pid k f a n t : keeps (same_table t) (filewrite pid k devs f a n).
Proof using Hwrite. unfold filewrite, fpipewrite, filewrite_chunk. same_table. Qed.
Lemma same_table_filestat pid f a m t : keeps (same_table t) (filestat (T := T) (K := K) pid f a m).
Proof. unfold filestat. same_table. Qed.

Lemma keeps_fileop {A} (m : M (files T K) A) s : (∀ t, keeps (same_table t) m) → keeps (stillt s) (kop (fileop m)).
Proof. intros Hm. by apply keeps_kop, still_fileop. Qed.

Lemma keeps_sys_read s : keeps (stillt s) (sys_read devs).
Proof using Hread. pose proof (λ pid k f a n, keeps_fileop _ s (same_table_fileread pid k f a n)). unfold sys_read. stillt. Qed.
Lemma keeps_sys_write s : keeps (stillt s) (sys_write devs).
Proof using Hwrite. pose proof (λ pid k f a n, keeps_fileop _ s (same_table_filewrite pid k f a n)). unfold sys_write. stillt. Qed.
Lemma keeps_sys_fstat old s : keeps (stillt s) (sys_fstat old).
Proof. pose proof (λ pid f a m, keeps_fileop _ s (same_table_filestat pid f a m)). unfold sys_fstat. stillt. Qed.
Lemma keeps_sys_link s : keeps (stillt s) (sys_link buf buf2).
Proof. unfold sys_link. stillt. Qed.
Lemma keeps_sys_unlink s : keeps (stillt s) (sys_unlink buf).
Proof. unfold sys_unlink. stillt. Qed.
Lemma keeps_make_node path type major minor s : keeps (stillt s) (make_node path type major minor).
Proof. unfold make_node. stillt. Qed.
#[local] Hint Resolve keeps_make_node : keeps.
Lemma keeps_sys_mkdir s : keeps (stillt s) (sys_mkdir buf).
Proof. unfold sys_mkdir. stillt. Qed.
Lemma keeps_sys_mknod s : keeps (stillt s) (sys_mknod buf).
Proof. unfold sys_mknod. stillt. Qed.
Lemma keeps_sys_chdir s : keeps (stillt s) (sys_chdir buf).
Proof. unfold sys_chdir. stillt. Qed.
Lemma keeps_sys_exec s : keeps (stillt s) (sys_exec trampoline ustack buf uarg_addr).
Proof.
  pose proof (λ path argv, keeps_kop _ s (still_kexec trampoline ustack path argv (t_k s))). unfold sys_exec, fetch_args, free_args. stillt.
Qed.

(** ** Descriptors *)

(** The running process [p] in a call: the count is off by [d]. *)
Definition held (d : Z → Z) (N : gset Z) (p : Z) s : Prop := finv d N (t_k s) ∧ k_cur (t_k s) = p ∧ pinv (t_k s).
Definition ofile (p : Z) s : list Z := p_ofile (getp p (t_k s)).

(** The descriptors are the same. *)
Definition fds s s' : Prop := ∀ q, ofile q s' = ofile q s.
Lemma fds_refs f s s' : fds s s' → refs f (t_k s') = refs f (t_k s).
Proof. intros H. apply refs_same, H. Qed.

Section Process.
Context (p : Z) (Hp0 : p ≠ 0).

Lemma held_still d N s s' : stillt s s' → held d N p s → held d N p s' ∧ fds s s'.
Proof using Hp0.
  intros (Hc & Ec & Hi) (H1 & H2 & H3). split; [|intros q; destruct Hc as [Hc _]; apply Hc]. split_and!; [by apply (calm_finv _ _ (t_k s))|congruence|].
  apply Hi; [done|congruence].
Qed.
Lemma held_cur d N s : held d N p s → p ∈ procs ∧ alive (getp p (t_k s)).
Proof using Hp0. intros (_ & E & Hi). destruct (cur_alive _ _ _ _ Hi) as (H1 & H2 & _); rewrite E in *; done. Qed.
Lemma wlp_still {A} (m : M (trapst V T K D) A) d N Q s :
  (∀ s, keeps (stillt s) m) → held d N p s → (∀ a s', held d N p s' → fds s s' → Q a s') → wlp m Q s.
Proof using Hp0.
  intros Hm H HQ. eapply wlp_mono; [apply (Hm s s), still_refl|]. intros a s' Hs. destruct (held_still d N s s' Hs H). by apply HQ.
Qed.

Lemma held_files d N t s : held d N p s → held d N p (set_t_k (set_k_files t (t_k s)) s) ↔ finv d N (set_k_files t (t_k s)).
Proof. intros (H1 & H2 & H3). split; [by intros [? _]|]. intros H. split_and!; [done|done|by apply busy_files]. Qed.

Lemma wlp_setfd d N fd a f Q s :
  held d N p s → ofile p s !! Z.to_nat fd = Some a →
  (∀ s', held (λ g, d g + one a g - one f g) N p s' → ofile p s' = <[Z.to_nat fd := f]> (ofile p s) → Q tt s') → wlp (setfd fd f) Q s.
Proof using Hp0.
  intros H Ha HQ. destruct (held_cur _ _ _ H) as [Hp Hal]. destruct H as (H1 & H2 & H3). unfold setfd, me, kop, myproc. wlp_step. rewrite wlp_lift. wlp_step. rewrite wlp_lift.
  apply wlp_upd. rewrite H2. set (g := λ x, set_ofile _ x). change (set_t_k (t_k s) s) with (TS (t_k s) (t_csr s) (t_ticks s) (t_tickslock s) (t_dev s)).
  apply HQ; [split_and!|].
  - apply (finv_slot d N p (Z.to_nat fd) a f (t_k s)); [done|done|by left|done].
  - done.
  - cbn [t_k set_t_k]. rewrite <-H2. apply (pinv_quiet_cur g (t_k s)); [done|by rewrite H2|done].
  - apply (f_equal p_ofile (getp_modp_eq p g (t_k s))).
Qed.

Lemma wlp_mine d N Q s : held d N p s → Q (getp p (t_k s)) s → wlp mine Q s.
Proof. intros (_ & E & _) HQ. unfold mine, kop, myproc. rewrite wlp_lift. wlp_step. wlp_step. wlp_step. rewrite E. by destruct s. Qed.

Lemma wlp_argfd d N n Q s :
  held d N p s → (∀ s', held d N p s' → Q None s') →
  (∀ fd f s', held d N p s' → ofile p s' !! Z.to_nat fd = Some f → f ≠ 0 → Q (Some (fd, f)) s') → wlp (argfd n) Q s.
Proof using Hp0.
  intros H HQ0 HQ. unfold argfd. wlp_step. apply (wlp_still _ d N); [apply keeps_argint|done|]. intros fd s1 H1 _. cbv beta. wlp_step. eapply wlp_mine; [done|].
  wlp_step. change (p_ofile (getp p (t_k s1))) with (ofile p s1). destruct (Z.ltb_spec fd 0); [by apply HQ0|]. rewrite Z.geb_leb. destruct (Z.leb_spec NOFILE fd); [by apply HQ0|]. cbn [orb].
  assert (∃ f, ofile p s1 !! Z.to_nat fd = Some f) as [f Ef].
  { apply lookup_lt_is_Some_2. destruct (held_cur _ _ _ H1) as [Hp _]. destruct H1 as (H1 & _). unfold ofile. rewrite (fi_len _ _ _ H1) by done. unfold NOFILE in *. lia. }
  rewrite Ef. change (default 0 (Some f)) with f. destruct (Z.eqb_spec f 0); [by apply HQ0|by apply HQ].
Qed.

Lemma wlp_fdalloc d N f Q s :
  held d N p s → (∀ s', held d N p s' → fds s s' → Q (-1) s') →
  (∀ fd s', 0 ≤ fd → held (λ g, d g - one f g) N p s' → ofile p s !! Z.to_nat fd = Some 0 → ofile p s' = <[Z.to_nat fd := f]> (ofile p s) → Q fd s') →
  wlp (fdalloc f) Q s.
Proof using Hp0.
  intros H HQ0 HQ. unfold fdalloc. wlp_step. apply (wlp_for_ret (λ _ s', held d N p s' ∧ fds s s')); [done| |].
  - intros ds fd rest s1 Hl [H1 E1']. pose proof (E1' p) as E1. assert (fd ∈ seqZ 0 NOFILE) as Hfd%elem_of_seqZ by (rewrite Hl; apply elem_of_app; right; by left). unfold NOFILE in Hfd.
    wlp_step. eapply wlp_mine; [done|]. cbv beta. change (p_ofile (getp p (t_k s1))) with (ofile p s1).
    assert (∃ a, ofile p s1 !! Z.to_nat fd = Some a) as [a Ea].
    { apply lookup_lt_is_Some_2. destruct (held_cur _ _ _ H1) as [Hp _]. destruct H1 as (H1 & _). unfold ofile. rewrite (fi_len _ _ _ H1) by done. lia. }
    rewrite Ea. change (default 0 (Some a)) with a. destruct (Z.eqb_spec a 0) as [->|]; [|done].
    wlp_step. eapply wlp_setfd; [done|done|]. intros s2 H2 E2. cbv beta. wlp_step. wlp_step. change (default (-1) (Some fd)) with fd. apply HQ; [lia| |by rewrite <-E1|by rewrite <-E1].
    destruct H2 as (H2 & ?). split; [|done]. eapply finv_ext; [|done]. intros g Hg. cbn. unfold one. destruct (Z.eqb_spec g 0); [done|lia].
  - intros s1 [H1 E1]. wlp_step. by apply HQ0.
Qed.

Lemma held_ext d d' N s : (∀ f, f ≠ 0 → d f = d' f) → held d N p s → held d' N p s.
Proof. intros E [H1 H2]. split; [by eapply finv_ext|done]. Qed.

(** Calls on the table of files. *)
Lemma wlp_held_close pid d N f Q s :
  held d N p s → f ≠ 0 → f ∉ N ∨ f_ref (fileof f (t_k s)) = 1 →
  (∀ s', held (λ g, d g - one f g) (N ∖ {[f]}) p s' → fds s s' → Q tt s') → wlp (kop (fileop (fileclose pid f))) Q s.
Proof.
  intros H Hf HN HQ. destruct H as (H1 & H2 & H3). unfold kop. rewrite wlp_lift. eapply wlp_finv_close; [done..|]. intros t Ht. apply HQ; [|done].
  split_and!; [done|done|by apply busy_files].
Qed.
Lemma wlp_held_dup d N f Q s :
  held d N p s → f ≠ 0 → f ∉ N → (∀ s', held (λ g, d g + one f g) N p s' → fds s s' → Q f s') → wlp (kop (fileop (filedup f))) Q s.
Proof.
  intros H Hf HN HQ. destruct H as (H1 & H2 & H3). unfold kop. rewrite wlp_lift. eapply wlp_finv_dup; [done..|]. intros t Ht. apply HQ; [|done].
  split_and!; [done|done|by apply busy_files].
Qed.
Lemma wlp_held_alloc d N Q s :
  held d N p s → (∀ s', held d N p s' → fds s s' → Q 0 s') →
  (∀ f s', f ≠ 0 → refs f (t_k s') + d f = 0 → held (λ g, d g + one f g) ({[f]} ∪ N) p s' → fds s s' → Q f s') → wlp (kop (fileop filealloc)) Q s.
Proof.
  intros H HQ0 HQ. destruct H as (H1 & H2 & H3). unfold kop. rewrite wlp_lift. eapply wlp_finv_alloc; [done|..].
  - intros t Ht. apply HQ0; [|done]. split_and!; [done|done|by apply busy_files].
  - intros f t Hf Hr Ht. apply HQ; [done|done| |done]. split_and!; [done|done|by apply busy_files].
Qed.

(** ** The calls that move descriptors *)

(** Between calls. *)
Definition idle s : Prop := held (λ _, 0) ∅ p s.

Lemma wlp_sys_dup Q s : idle s → (∀ r s', idle s' → Q r s') → wlp sys_dup Q s.
Proof using Hp0.
  intros H HQ. unfold sys_dup. wlp_step. eapply wlp_argfd; [done|by intros; apply HQ|]. intros fd f s1 H1 Ef Hf. cbv beta iota. wlp_step.
  eapply wlp_fdalloc; [done|by intros; apply HQ|]. intros fd' s2 Hfd H2 _ _. cbv beta. destruct (Z.ltb_spec fd' 0); [lia|]. wlp_step.
  eapply wlp_held_dup; [done|done|apply not_elem_of_empty|]. intros s3 H3 _. cbv beta. wlp_step. apply HQ. eapply held_ext; [|done]. intros g Hg. cbn. lia.
Qed.

Lemma wlp_sys_close Q s : idle s → (∀ r s', idle s' → Q r s') → wlp sys_close Q s.
Proof using Hp0.
  intros H HQ. unfold sys_close. wlp_step. eapply wlp_argfd; [done|by intros; apply HQ|]. intros fd f s1 H1 Ef Hf. cbv beta iota. wlp_step.
  eapply wlp_setfd; [done|done|]. intros s2 H2 E2. cbv beta. wlp_step. eapply wlp_mine; [done|]. cbv beta. wlp_step.
  eapply wlp_held_close; [done|done|left; apply not_elem_of_empty|]. intros s3 H3 _. cbv beta. wlp_step. apply HQ.
  rewrite empty_minus in H3. eapply held_ext; [|done]. intros g Hg. cbn. unfold one. destruct (Z.eqb_spec g 0); [done|lia].
Qed.

(** *** [open] *)

Lemma same_table_fmod f g t : (∀ x, f_ref (g x) = f_ref x ∧ f_type (g x) = f_type x) → keeps (same_table t) (modify (fmod f g) : M (files T K) unit).
Proof.
  intros Hg. apply keeps_modify. intros t1 H h. destruct (decide (h = f)) as [->|Hne].
  - rewrite (fget_insert f (g (fget f t1)) t1) by done. destruct (Hg (fget f t1)) as [-> ->]. apply H.
  - rewrite (fget_insert_ne f h (g (fget f t1)) t1) by done. apply H.
Qed.
Lemma wlp_typed d N f g Q s :
  held d N p s → f ≠ 0 → (∀ x, f_ref (g x) = f_ref x) → (∀ x, f_type (g x) ≠ FD_NONE) → (∀ s', held d (N ∖ {[f]}) p s' → fds s s' → Q tt s') →
  wlp (kop (fileop (modify (fmod f g)))) Q s.
Proof.
  clear Hread Hwrite devs Hp0. intros (H1 & H2 & H3) Hf Hr Ht HQ. unfold kop, fileop. rewrite !wlp_lift. wlp_step. apply HQ; [|done].
  split_and!; [|done|by apply busy_files]. eapply (finv_file d d N _ f (g (fileof f (t_k s)))); try done.
  - rewrite Hr. lia.
  - set_solver.
Qed.

Lemma wlp_open_file d N f ip omode Q s :
  held d N p s → f ≠ 0 → (∀ s', held d (N ∖ {[f]}) p s' → Q tt s') → wlp (open_file f ip omode) Q s.
Proof using Hp0.
  intros H Hf HQ. unfold open_file. wlp_step. apply (wlp_still _ d N); [intros; stillt|done|]. intros x s1 H1 _. cbv beta.
  assert (∀ g s, (∀ x, f_ref (g x) = f_ref x ∧ f_type (g x) = f_type x) → keeps (stillt s) (kop (fileop (modify (fmod f g))))) as Hg.
  { intros g s0 Hx. apply keeps_fileop. intros t. by apply same_table_fmod. }
  wlp_step. destruct (_ =? _); wlp_step; (eapply wlp_typed; [done|done|done|done|]); intros s2 H2 _; cbv beta;
    (eapply wlp_still; [by intros; apply Hg|done|]); intros [] s3 H3 _; cbv beta;
    (apply (wlp_still _ d (N ∖ {[f]})); [intros s0|done|intros [] s4 H4 _; by apply HQ]; keeps_with ltac:(by apply Hg)).
Qed.

Lemma wlp_open_inode ip omode Q s : idle s → (∀ r s', idle s' → Q r s') → wlp (open_inode ip omode) Q s.
Proof using Hp0.
  intros H HQ. unfold open_inode. wlp_step. eapply wlp_mine; [done|]. cbv beta zeta. set (pid := p_pid _). clearbody pid.
  assert (∀ s', idle s' → wlp (kop (fsys (iunlockput pid ip));; kop (fsys (tx tx_end_op));; mret (Done (u64 (-1)))) Q s') as Hfail.
  { intros s' H'. apply (wlp_still _ (λ _, 0) ∅); [intros; stillt|done|]. auto. }
  wlp_step. apply (wlp_still _ (λ _, 0) ∅); [intros; stillt|done|]. intros x s1 H1 _. cbv beta. destruct (_ && _); [by apply Hfail|].
  wlp_step. eapply wlp_held_alloc; [done|..].
  { intros s2 H2 _. cbv beta. cbn [Z.eqb negb]. do 2 wlp_step. change (-1 <? 0) with true. cbv iota. do 2 wlp_step. by apply Hfail. }
  intros f s2 Hf Hr H2 _. cbv beta. destruct (Z.eqb_spec f 0); [done|]. cbn [negb]. wlp_step. eapply wlp_fdalloc; [done|..].
  { intros s3 H3 E3. cbv beta. change (-1 <? 0) with true. cbv iota. wlp_step. eapply wlp_held_close; [done|done| |].
    - right. destruct H3 as [H3 _]. rewrite (fi_ref _ _ _ H3 f Hf), (fds_refs f _ _ E3). unfold one. rewrite Z.eqb_refl. lia.
    - intros s4 H4 _. cbv beta. apply Hfail. rewrite single_minus in H4. eapply held_ext; [|done]. intros g _. cbn. lia. }
  intros fd s3 Hfd H3 _ _. cbv beta. destruct (Z.ltb_spec fd 0); [lia|]. wlp_step. eapply wlp_open_file; [done|done|]. intros s4 H4. cbv beta.
  rewrite single_minus in H4. apply (wlp_still _ (λ _, 0) ∅); [intros; stillt| |auto]. eapply held_ext; [|done]. intros g _. cbn. lia.
Qed.

Lemma wlp_sys_open Q s : idle s → (∀ r s', idle s' → Q r s') → wlp (sys_open buf) Q s.
Proof using Hp0.
  intros H HQ. unfold sys_open.
  assert (∀ A B (m : M (trapst V T K D) A) (f : A → M (trapst V T K D) B) Q' s', (∀ s, keeps (stillt s) m) → idle s' → (∀ a s', idle s' → wlp (f a) Q' s') → wlp (m ≫= f) Q' s') as Hb.
  { intros A B m f Q' s' Hm H' Hf. wlp_step. apply (wlp_still _ (λ _, 0) ∅); [done|done|auto]. }
  assert (∀ s', idle s' → wlp (kop (fsys (tx tx_end_op));; mret (Done (u64 (-1)))) Q s') as Hfail.
  { intros s' H'. apply Hb; [intros; stillt|done|]. intros _ s2 H2. by apply HQ. }
  apply Hb; [intros; stillt|done|]. intros omode s1 H1. apply Hb; [intros; stillt|done|]. intros [path|] s2 H2; [|by apply HQ].
  apply Hb; [intros; stillt|done|]. intros x s3 H3. apply Hb; [intros; stillt|done|]. intros _ s4 H4. destruct (negb _).
  - apply Hb; [intros; stillt|done|]. intros ip s5 H5. destruct (ip =? 0); [by apply Hfail|by apply wlp_open_inode].
  - apply Hb; [intros; stillt|done|]. intros ip s5 H5. destruct (ip =? 0); [by apply Hfail|]. apply Hb; [intros; stillt|done|]. intros _ s6 H6.
    apply Hb; [intros; stillt|done|]. intros d s7 H7. destruct (_ && _); [|by apply wlp_open_inode]. apply Hb; [intros; stillt|done|]. intros _ s8 H8. by apply Hfail.
Qed.

(** *** [pipe] *)

Lemma wlp_table_bind {A B} (m : M (files T K) A) (f : A → M (files T K) B) Q s :
  wlp (kop (fileop (m ≫= f))) Q s = wlp (kop (fileop m)) (λ a s', wlp (kop (fileop (f a))) Q s') s.
Proof.
  unfold wlp, kop, fileop, lift, mbind, M_bind. destruct (m (k_files (t_k s))) as [a t| |]; [|done..]. cbn. by destruct (f a t).
Qed.
Lemma wlp_table_ret {A} (a : A) Q s : Q a s → wlp (kop (fileop (mret a))) Q s.
Proof. unfold kop, fileop. rewrite !wlp_lift, wlp_ret. by destruct s as [[]]. Qed.

(** The file [f], just allocated and in no descriptor, is given back. *)
Lemma wlp_held_drop pid d N f Q s :
  held d N p s → f ≠ 0 → refs f (t_k s) + d f = 1 → (∀ s', held (λ g, d g - one f g) (N ∖ {[f]}) p s' → fds s s' → Q tt s') →
  wlp (kop (fileop (fileclose pid f))) Q s.
Proof. intros H Hf Hr HQ. eapply wlp_held_close; [done|done|right|done]. destruct H as [H _]. by rewrite (fi_ref _ _ _ H f Hf). Qed.

Lemma one_eq f : one f f = 1.
Proof. unfold one. by rewrite Z.eqb_refl. Qed.
Lemma one_ne f g : g ≠ f → one f g = 0.
Proof. intros H. unfold one. by destruct (Z.eqb_spec g f). Qed.
Lemma refs_nonneg f s : 0 ≤ refs f (t_k s).
Proof. apply cnt_nonneg. Qed.
Lemma two_minus (f0 f1 : Z) : ({[f1]} ∪ ({[f0]} ∪ ∅)) ∖ {[f0]} ∖ {[f1]} = (∅ : gset Z).
Proof. clear Hread Hwrite devs Hp0. set_solver. Qed.

Lemma wlp_pipealloc pid Q s :
  idle s → (∀ f0 f1 s', idle s' → Q (-1, f0, f1) s') →
  (∀ f0 f1 s', f0 ≠ 0 → f1 ≠ 0 → f0 ≠ f1 → held (λ g, one f0 g + one f1 g) ∅ p s' → Q (0, f0, f1) s') →
  wlp (kop (fileop (pipealloc pid))) Q s.
Proof using Hp0.
  intros H HQ0 HQ. unfold pipealloc. rewrite wlp_table_bind. eapply wlp_held_alloc; [done|..].
  { intros s1 H1 _. cbv beta. cbn [Z.eqb]. unfold pipealloc_bad. cbn [Z.eqb negb]. rewrite wlp_table_bind. apply wlp_table_ret. rewrite wlp_table_bind. do 2 apply wlp_table_ret. by apply HQ0. }
  intros f0 s1 Hf0 Hr0 H1 E1. cbv beta. rewrite (proj2 (Z.eqb_neq f0 0) Hf0). rewrite wlp_table_bind. eapply wlp_held_alloc; [done|..].
  { intros s2 H2 E2. cbv beta. cbn [Z.eqb]. unfold pipealloc_bad. rewrite (proj2 (Z.eqb_neq f0 0) Hf0). cbn [Z.eqb negb]. rewrite wlp_table_bind.
    eapply wlp_held_drop; [done|done|rewrite (fds_refs _ _ _ E2), one_eq; lia|]. intros s3 H3 _. cbv beta. rewrite wlp_table_bind. do 2 apply wlp_table_ret.
    apply HQ0. rewrite single_minus in H3. eapply held_ext; [|done]. intros g _. cbn. lia. }
  intros f1 s2 Hf1 Hr1 H2 E2. cbv beta. rewrite (proj2 (Z.eqb_neq f1 0) Hf1).
  assert (f0 ≠ f1) as Hne. { intros <-. rewrite one_eq in Hr1. pose proof (refs_nonneg f0 s2). lia. }
  cbv beta in Hr0, Hr1. rewrite one_ne in Hr1 by done. rewrite wlp_table_bind. apply (wlp_still _ (λ g, 0 + one f0 g + one f1 g) ({[f1]} ∪ ({[f0]} ∪ ∅))); [|done|].
  { intros s0. apply keeps_fileop. intros t. by apply keeps_lift. }
  intros pi s3 H3 E3. cbv beta. pose proof (fds_refs f0 _ _ E2) as R2. pose proof (fds_refs f0 _ _ E3) as R3. pose proof (fds_refs f1 _ _ E3) as R3'. destruct (pi =? 0).
  { unfold pipealloc_bad. rewrite (proj2 (Z.eqb_neq f0 0) Hf0), (proj2 (Z.eqb_neq f1 0) Hf1). cbn [negb]. rewrite wlp_table_bind.
    eapply wlp_held_drop; [done|done|rewrite R3, R2, one_eq, one_ne by done; lia|]. intros s4 H4 E4. cbv beta. pose proof (fds_refs f1 _ _ E4) as R4. rewrite wlp_table_bind.
    eapply wlp_held_drop; [done|done|rewrite R4, R3', one_eq, !one_ne by done; lia|]. intros s5 H5 _. cbv beta. apply wlp_table_ret.
    apply HQ0. rewrite two_minus in H5. eapply held_ext; [|done]. intros g _. cbn. lia. }
  rewrite wlp_table_bind. apply (wlp_still _ (λ g, 0 + one f0 g + one f1 g) ({[f1]} ∪ ({[f0]} ∪ ∅))); [|done|].
  { intros s0. apply keeps_fileop. intros t. by apply keeps_modify. }
  intros _ s4 H4 _. cbv beta. rewrite wlp_table_bind. eapply wlp_typed; [done|done|done|done|]. intros s5 H5 _. cbv beta.
  rewrite wlp_table_bind. eapply wlp_typed; [done|done|done|done|]. intros s6 H6 _. cbv beta. apply wlp_table_ret. rewrite two_minus in H6. by apply HQ.
Qed.

Lemma wlp_pipe_close2 d rf wf Q s :
  held d ∅ p s → (∀ g, g ≠ 0 → d g = one rf g + one wf g) → rf ≠ 0 → wf ≠ 0 → (∀ r s', idle s' → Q r s') → wlp (pipe_close2 rf wf) Q s.
Proof.
  intros H Hd Hr Hw HQ. unfold pipe_close2. wlp_step. eapply wlp_mine; [done|]. cbv beta. wlp_step.
  eapply wlp_held_close; [done|done|left; apply not_elem_of_empty|]. intros s1 H1 _. cbv beta. rewrite empty_minus in H1. wlp_step.
  eapply wlp_held_close; [done|done|left; apply not_elem_of_empty|]. intros s2 H2 _. cbv beta. rewrite empty_minus in H2. apply HQ.
  eapply held_ext; [|done]. intros g Hg. cbn. rewrite Hd by done. lia.
Qed.

Lemma keeps_put_fd addr fd s : keeps (stillt s) (put_fd stk addr fd).
Proof. unfold put_fd. stillt. Qed.

Lemma wlp_sys_pipe Q s : idle s → (∀ r s', idle s' → Q r s') → wlp (sys_pipe stk) Q s.
Proof using Hp0.
  intros H HQ. unfold sys_pipe. wlp_step. apply (wlp_still _ (λ _, 0) ∅); [intros; stillt|done|]. intros fdarray s1 H1 _. cbv beta. wlp_step. eapply wlp_mine; [done|]. cbv beta.
  wlp_step. apply wlp_pipealloc; [done|by intros; apply HQ|]. intros rf wf s2 Hr Hw Hne H2. cbv beta iota. change (0 <? 0) with false. cbv iota. wlp_step.
  eapply wlp_fdalloc; [done|..].
  { intros s3 H3 _. cbv beta. change (-1 <? 0) with true. cbv iota. do 2 wlp_step. change (-1 <? 0) with true. change (-1 >=? 0) with false. cbv iota. do 2 wlp_step. by eapply wlp_pipe_close2. }
  intros fd0 s3 Hfd0 H3 Ho2 Ho3. cbv beta. rewrite (proj2 (Z.ltb_ge fd0 0)) by done. wlp_step.
  assert (ofile p s3 !! Z.to_nat fd0 = Some rf) as Hs3. { rewrite Ho3. apply list_lookup_insert_eq. by apply lookup_lt_Some in Ho2. }
  eapply wlp_fdalloc; [done|..].
  { intros s4 H4 E4. cbv beta. change (-1 <? 0) with true. cbv iota. rewrite Z.geb_leb, (proj2 (Z.leb_le 0 fd0)) by done. wlp_step.
    eapply wlp_setfd; [done|by rewrite (E4 p)|]. intros s5 H5 _. cbv beta. eapply wlp_pipe_close2; try done.
    intros g Hg. cbn. rewrite (one_ne 0 g) by done. lia. }
  intros fd1 s4 Hfd1 H4 Ho3' Ho4. cbv beta. rewrite (proj2 (Z.ltb_ge fd1 0)) by done. assert (Z.to_nat fd1 ≠ Z.to_nat fd0) as Hfds by congruence.
  wlp_step. eapply wlp_still; [intros; apply keeps_put_fd|done|]. intros r s5 H5 E5. cbv beta. wlp_step. eapply wlp_still; [|done|].
  { intros s0. destruct (r <? 0); [apply keeps_ret|apply keeps_put_fd]. }
  intros r' s6 H6 E6. cbv beta. destruct (r' <? 0).
  2: { apply HQ. eapply held_ext; [|done]. intros g _. cbn. lia. }
  assert (ofile p s6 = ofile p s4) as E by by rewrite (E6 p), (E5 p). wlp_step.
  eapply wlp_setfd; [done| |]. { rewrite E, Ho4, list_lookup_insert_ne by done. exact Hs3. }
  intros s7 H7 E7. cbv beta. wlp_step. eapply wlp_setfd; [done| |].
  { rewrite E7, list_lookup_insert_ne by done. rewrite E, Ho4. apply list_lookup_insert_eq. by apply lookup_lt_Some in Ho3'. }
  intros s8 H8 _. cbv beta. eapply wlp_pipe_close2; try done. intros g Hg. cbn. rewrite (one_ne 0 g) by done. lia.
Qed.
End Process.
End Calls.
