(* ===== verification/FdProps.v ===== *)
(** * Open files are counted right

    The steps of processes and of their system calls on files, from the boot on,
    and what holds of descriptors and of the table of open files after any
    number of them. *)

From S2P Require Import Prelude Wlp Mem Kstring Layout PageAlloc Vm BufIface Sleeplock TxIface Fs Ring Pipe File Proc ProcInv ProcProps Trap Sysfile Exec FileRefs FdCalls.

Set Default Proof Using "Type".

Section FdProps.
Context {V T K D : Type} {PO : PageAllocOps V} {TO : TxOps T} {KO : KmOps K}.
Context (trampoline forkret_addr kthread_entry_addr : Z) (proc_addr xstate_addr : Z → Z).
Context (buf buf2 stk ustack uarg_addr : Z) (devs : Z → devsw (T := T) (K := K)) (old : mem).
Implicit Types s : trapst V T K D.

(** The system calls of [kernel/sysfile.c]. *)
Definition file_calls : list (M (trapst V T K D) outcome) :=
  [sys_dup; sys_read devs; sys_write devs; sys_close; sys_fstat old; sys_link buf buf2; sys_unlink buf; sys_open buf;
   sys_mkdir buf; sys_mknod buf; sys_chdir buf; sys_exec trampoline ustack buf uarg_addr; sys_pipe stk].

(** A call of [kernel/proc.c], or one on files by the running process. *)
Inductive fstep s s' : Prop :=
  | fs_proc : pcall trampoline forkret_addr kthread_entry_addr proc_addr xstate_addr (t_k s) (t_k s') → fstep s s'
  | fs_call c r : c ∈ file_calls → k_cur (t_k s) ≠ 0 → c s = Ok r s' → fstep s s'.

(** A device's driver does not touch the table of files. *)
Definition drivers_ok : Prop := ∀ n c a l t, d_read (devs n) = Some c ∨ d_write (devs n) = Some c → keeps (same_table t) (c a l).

Lemma call_idle c r s s' : drivers_ok → c ∈ file_calls → k_cur (t_k s) ≠ 0 → c s = Ok r s' → idle (k_cur (t_k s)) s → idle (k_cur (t_k s)) s'.
Proof.
  intros Hdev Hc Hcur E H. assert (∀ n rd a l t, d_read (devs n) = Some rd → keeps (same_table t) (rd a l)) as Hrd by (intros; eapply Hdev; eauto).
  assert (∀ n rd a l t, d_write (devs n) = Some rd → keeps (same_table t) (rd a l)) as Hwr by (intros; eapply Hdev; eauto).
  set (p := k_cur (t_k s)) in *. clearbody p.
  assert ((∀ s, keeps (stillt s) c) ∨ ∀ Q s, idle p s → (∀ r s', idle p s' → Q r s') → wlp c Q s) as Hm.
  { unfold file_calls in Hc. rewrite !elem_of_cons, elem_of_nil in Hc.
    destruct Hc as [->|[->|[->|[->|[->|[->|[->|[->|[->|[->|[->|[->|[->|[]]]]]]]]]]]]]].
    - right. intros. by eapply wlp_sys_dup.
    - left. intros. by apply keeps_sys_read.
    - left. intros. by apply keeps_sys_write.
    - right. intros. by eapply wlp_sys_close.
    - left. apply keeps_sys_fstat.
    - left. apply keeps_sys_link.
    - left. apply keeps_sys_unlink.
    - right. intros. by eapply wlp_sys_open.
    - left. apply keeps_sys_mkdir.
    - left. apply keeps_sys_mknod.
    - left. apply keeps_sys_chdir.
    - left. apply keeps_sys_exec.
    - right. intros. by eapply wlp_sys_pipe. }
  eapply (wlp_Ok c (λ _ s', idle p s')); [|exact E]. destruct Hm as [Hm|Hm]; [|by apply Hm]. eapply wlp_still; [done|exact Hm|exact H|]. by intros.
Qed.

Lemma fstep_counted s s' : drivers_ok → pinv (t_k s) → counted (t_k s) → fstep s s' → pinv (t_k s') ∧ counted (t_k s').
Proof.
  intros Hdev Hi H [Hp|c r Hc Hcur E]; [split; [by eapply pcall_pinv|by eapply pcall_counted]|].
  destruct (call_idle c r s s' Hdev Hc Hcur E) as (H1 & _ & H3); [done|]. done.
Qed.

(** ** Boot *)

(** No descriptor and no file is in use. *)
Definition unopened (k : kern V T K) : Prop := (∀ p, p ∈ procs → nofiles p k) ∧ ∀ f, f_ref (fileof f k) = 0.

Lemma unopened_counted k : unopened k → counted k.
Proof.
  intros [H1 H2]. split.
  - intros p Hp. by rewrite (H1 p Hp).
  - intros f Hf. rewrite H2. unfold refs. rewrite (bind_same procs _ (λ _, replicate 16 0)) by apply H1.
    assert (∀ l : list Z, cnt f (l ≫= λ _, replicate 16 0) = 0) as ->; [|done].
    intros l. induction l as [|p l IH]; [done|]. rewrite bind_cons, cnt_app, cnt_zeros by done. lia.
  - intros f _ _ H. by rewrite H2 in H.
  - intros p Hp _. by apply H1.
Qed.
Lemma keeps_unopened_upd p g : (∀ x, p_ofile (g x) = p_ofile x) → keeps unopened (upd p g).
Proof.
  intros Hg k [H1 H2]. apply wlp_upd. split; [|done]. intros q Hq. unfold nofiles. destruct (decide (q = p)) as [->|]; [rewrite getp_modp_eq, Hg|rewrite getp_modp_ne by done]; by apply H1.
Qed.
Lemma keeps_unopened_vm {A} (m : M V A) : keeps unopened (vm m).
Proof. apply keeps_lift. intros v k Hk. exact Hk. Qed.
Lemma keeps_unopened_fsys {A} (m : M (fs T) A) : keeps unopened (fsys m).
Proof. intros k Hk. unfold fsys, fileop, fsop. rewrite !wlp_lift. apply wlp_true. intros a v. exact Hk. Qed.
Lemma unopened_lock p b k : unopened k → unopened (modp p (set_lock b) k).
Proof. intros Hk. exact (keeps_unopened_upd p (set_lock b) (λ _, eq_refl) k Hk). Qed.
Lemma keeps_unopened_plock p : keeps unopened (plock p).
Proof. unfold plock, lock. apply keeps_bind; [apply keeps_modify; intros k Hk; exact Hk|intros _]. apply keeps_acquire. apply unopened_lock. Qed.
Lemma keeps_unopened_punlock p : keeps unopened (punlock p).
Proof. unfold punlock, unlock. apply keeps_bind; [apply keeps_release, unopened_lock|intros _]. apply keeps_modify. intros k Hk. exact Hk. Qed.
Lemma keeps_unopened_allocpid : keeps unopened allocpid.
Proof.
  unfold allocpid, lock, unlock.
  keeps_with ltac:(first [apply keeps_modify; intros k Hk; exact Hk | apply keeps_acquire; intros b k Hk; exact Hk | apply keeps_release; intros b k Hk; exact Hk]).
Qed.
Lemma keeps_unopened_boot : keeps unopened (procinit;; userinit trampoline forkret_addr).
Proof.
  unfold procinit, userinit, allocproc, allocproc_found, freeproc, init_signals.
  keeps_with ltac:(idtac; lazymatch goal with
    | |- keeps _ (upd _ _) => apply keeps_unopened_upd; intros ?; reflexivity
    | |- keeps _ (modify _) => apply keeps_modify; intros k Hk; exact Hk
    | |- keeps _ (vm _) => apply keeps_unopened_vm
    | |- keeps _ (fsys _) => apply keeps_unopened_fsys
    | |- keeps _ (plock _) => apply keeps_unopened_plock
    | |- keeps _ (punlock _) => apply keeps_unopened_punlock
    | |- keeps _ allocpid => apply keeps_unopened_allocpid
    end).
Qed.

Lemma kop_inv {A} (m : M (kern V T K) A) s a s' : kop m s = Ok a s' → m (t_k s) = Ok a (t_k s') ∧ s' = set_t_k (t_k s') s.
Proof. unfold kop, lift. destruct (m (t_k s)) as [b k| |]; [|done..]. intros [= <- <-]. done. Qed.

Lemma counted_refs (k : kern V T K) : counted k → ∀ f, f ≠ 0 → f_ref (fileof f k) = refs f k.
Proof. intros H f Hf. rewrite (fi_ref _ _ _ H f Hf). lia. Qed.
Lemma counted_open (k : kern V T K) : counted k → ∀ p f, p ∈ procs → f ∈ p_ofile (getp p k) → f ≠ 0 → f_type (fileof f k) ≠ FD_NONE.
Proof.
  intros H p f Hp Hin Hf. apply (fi_type _ _ _ H); [done|apply not_elem_of_empty|]. rewrite (counted_refs k) by done.
  assert (0 < refs f k); [|lia]. apply cnt_pos, list_elem_of_bind. by exists p.
Qed.

(** C5: Whatever the processes do, from the boot on, with forks and exits and with
    the calls on files, the count of references that the table of open files
    keeps of a file is the number of descriptors, of all the processes, that
    hold it: so a file is closed with its last descriptor and no earlier, and no
    reference is lost.  Every file that a descriptor holds is open, and processes
    that are not alive hold none. *)
Theorem open_files_counted s0 s1 s :
  drivers_ok → blank (t_k s0) → (∀ f, f_ref (fileof f (t_k s0)) = 0) → kop (procinit;; userinit trampoline forkret_addr) s0 = Ok tt s1 → rtc fstep s1 s →
  (∀ f, f ≠ 0 → f_ref (fileof f (t_k s)) = refs f (t_k s)) ∧
  (∀ p f, p ∈ procs → f ∈ p_ofile (getp p (t_k s)) → f ≠ 0 → f_type (fileof f (t_k s)) ≠ FD_NONE) ∧
  (∀ p, p ∈ procs → ¬ alive (getp p (t_k s)) → nofiles p (t_k s)).
Proof.
  intros Hdev Hb Hf Hboot Hr. destruct (kop_inv _ _ _ _ Hboot) as [E _]. clear Hboot.
  assert (unopened (t_k s0)) as Hu0. { split; [|done]. intros p Hp. unfold nofiles, getp. by rewrite (proj1 Hb p Hp). }
  pose proof (keeps_Ok unopened _ _ _ _ keeps_unopened_boot Hu0 E) as Hu. apply unopened_counted in Hu. pose proof (boot_pinv trampoline forkret_addr _ _ Hb E) as Hi.
  clear E Hu0 Hb Hf s0. assert (pinv (t_k s) ∧ counted (t_k s)) as [_ H].
  { induction Hr as [|t1 t2 t3 Hs _ IH]; [done|]. destruct (fstep_counted t1 t2 Hdev Hi Hu Hs). by apply IH. }
  split_and!; [by apply counted_refs|by apply counted_open|apply (fi_dead _ _ _ H)].
Qed.
End FdProps.

Module FdWitness.
(** Pages handed out one after the other, over memory that stays as it is: the
    page table of [init] maps its first page. *)
Definition fixed : mem :=
  st64 (st64 (st64 ∅ 0x80101000 (Z.lor (PA2PTE 0x80200000) PTE_V)) 0x80200000 (Z.lor (PA2PTE 0x80201000) PTE_V))
    0x80201000 (Z.lor (PA2PTE 0x80202000) (Z.lor PTE_V (Z.lor PTE_R (Z.lor PTE_W PTE_U)))).
#[local] Instance pages : PageAllocOps Z := {|
  pa_mem _ := fixed;
  pa_set_mem _ s := s;
  pa_kalloc := n ← gets id; modify (λ s, s + PGSIZE);; mret n;
  pa_kfree _ := mret tt;
  pa_kalloc_huge := mret 0;
  pa_kfree_huge _ := mret tt
|}.
#[local] Instance no_tx : TxOps unit := {|
  tx_initlog _ _ := mret tt; tx_begin_op := mret tt; tx_end_op := mret tt; tx_bread _ _ := mret 1;
  tx_brelse _ := mret tt; tx_log_write _ := mret tt; tx_data _ _ := ∅; tx_set_data _ _ t := t
|}.
#[local] Instance one_km : KmOps unit := {| km_alloc _ := mret 0x90000000; km_free _ _ := mret tt |}.

Definition loaded : trapst Z unit unit unit :=
  TS (Kern (list_to_map ((λ p, (p, proc0)) <$> procs)) 0 0 0 1 true true 0x80100000
       (Files false ∅ ∅ tt (Fs (SB 0 0 0 0 0 0 0 0) false ∅ (UMem ∅ (λ _, false) (λ _, false)) tt)))
     (Csr 0 0 0 0 0 0 0 0 0) 0 false tt.
Definition no_devs (n : Z) : devsw (T := unit) (K := unit) := Dev None None.

#[local] Notation boot := (kop (procinit;; userinit 0x80007000 0x80001000)).
#[local] Notation step := (fstep 0x80007000 0x80001000 0 id id 0 0 0 0 0 no_devs ∅).
#[local] Notation calls := (file_calls 0x80007000 0 0 0 0 0 no_devs ∅).

Inductive action := Run (p : Z) | Again (p : Z) | Fork | Wait | Exit | Call (n : nat).
Definition running (b : bool) : M (trapst Z unit unit unit) unit := c ← gets (λ s, k_cur (t_k s)); panic_if (Bool.eqb (c =? 0) b) "hart".
Definition act (a : action) : M (trapst Z unit unit unit) unit :=
  match a with
  | Run p => running false;; panic_if (bool_decide (p ∉ procs)) "proc";; kop (resume p yield_back)
  | Again p => running false;; panic_if (bool_decide (p ∉ procs)) "proc";; kop (resume p (kwait_again id id 0))
  | Fork => running true;; n ← gets (λ s, k_nextpid (t_k s)); panic_if (n >=? 2147483647) "pids";; kop (kfork 0x80007000 0x80001000);; mret tt
  | Wait => running true;; kop (kwait id id 0);; mret tt
  | Exit => running true;; kop (kexit id 7)
  | Call n => running true;; match calls !! n with Some c => c;; mret tt | None => panic "call" end
  end.

(** [init] makes a pipe at address 0, duplicates descriptor 0 and forks; the
    child closes descriptor 0 and exits; [init] collects it. *)
Definition script : list action := [Run 1; Call 12; Call 0; Fork; Wait; Run 2; Call 3; Exit; Again 1].

Lemma panic_if_inv {S} c msg (s : S) a s' : panic_if c msg s = Ok a s' → c = false ∧ s' = s.
Proof. destruct c; [done|]. by intros [= _ <-]. Qed.
Lemma hart_inv b s s' : running b s = Ok tt s' → s' = s ∧ if b then k_cur (t_k s) ≠ 0 else k_cur (t_k s) = 0.
Proof.
  unfold running. intros (c & s1 & E & [H ->]%panic_if_inv)%ProcWitness.bind_inv. injection E as <- <-.
  split; [done|]. destruct b, (Z.eqb_spec (k_cur (t_k s)) 0); done.
Qed.
Lemma proc_inv {S} p (s s' : S) : panic_if (bool_decide (p ∉ procs)) "proc" s = Ok tt s' → s' = s ∧ p ∈ procs.
Proof. intros [H ->]%panic_if_inv. split; [done|]. apply bool_decide_eq_false in H. by apply dec_stable. Qed.
Lemma last_inv {S A} (m : M S A) s s' : (m;; mret tt) s = Ok tt s' → ∃ a, m s = Ok a s'.
Proof. intros (a & s1 & E & H)%ProcWitness.bind_inv. injection H as <-. by exists a. Qed.

Lemma act_step a s s' : act a s = Ok tt s' → step s s'.
Proof.
  destruct a as [p|p| | | |n]; unfold act; intros ([] & s1 & [-> Hc]%hart_inv & H)%ProcWitness.bind_inv.
  - apply ProcWitness.bind_inv in H as ([] & s1 & [-> Hp]%proc_inv & [H _]%kop_inv). apply fs_proc. by eapply ps_run.
  - apply ProcWitness.bind_inv in H as ([] & s1 & [-> Hp]%proc_inv & [H _]%kop_inv). apply fs_proc. by eapply ps_wait_again.
  - apply ProcWitness.bind_inv in H as (n & s1 & E & H). injection E as <- <-. apply ProcWitness.bind_inv in H as ([] & s1 & [Hn ->]%panic_if_inv & [r [H _]%kop_inv]%last_inv).
    apply fs_proc. eapply ps_fork; [done| |exact H]. unfold pids_left. rewrite Z.geb_leb in Hn. apply Z.leb_gt in Hn. done.
  - apply last_inv in H as [r [H _]%kop_inv]. apply fs_proc. by eapply ps_wait.
  - apply kop_inv in H as [H _]. apply fs_proc. by eapply ps_exit.
  - destruct (calls !! n) as [c|] eqn:E; [|done]. apply last_inv in H as [r H]. eapply fs_call; [by eapply list_elem_of_lookup_2|done|exact H].
Qed.
Lemma script_steps l s s' : for_each l act s = Ok tt s' → rtc step s s'.
Proof.
  revert s. induction l as [|a l IH]; intros s; [by intros [= <-]|]. cbn [for_each]. intros ([] & s1 & E & H)%ProcWitness.bind_inv.
  eapply rtc_l; [by apply (act_step a)|by apply IH].
Qed.

(** The read end, file 1, has two descriptors at the end, and the write end one. *)
Definition told (s : trapst Z unit unit unit) : Z := f_ref (fileof 1 (t_k s)) + 10 * f_ref (fileof 2 (t_k s)).
Lemma script_runs : ProcWitness.ends 12 ((boot;; for_each script act;; gets told) loaded) = true.
Proof. vm_compute. reflexivity. Qed.

Lemma blank_fd : blank (t_k loaded).
Proof.
  split; [|split; [vm_compute; reflexivity|split_and!; reflexivity]].
  intros p Hp. apply elem_of_list_to_map_1; [|apply list_elem_of_fmap; exists p; split; [reflexivity|exact Hp]].
  rewrite <-list_fmap_compose. unfold compose. cbn [fst]. rewrite list_fmap_id. apply NoDup_seqZ.
Qed.
Lemma no_drivers : drivers_ok no_devs.
Proof. intros n c a l t [H|H]; discriminate H. Qed.

Lemma open_files_counted_witness :
  ∃ s1 s, boot loaded = Ok tt s1 ∧ for_each script act s1 = Ok tt s ∧ told s = 12 ∧ refs 1 (t_k s) = f_ref (fileof 1 (t_k s)).
Proof.
  destruct (ProcWitness.ends_inv _ _ script_runs) as [s' Hs].
  apply ProcWitness.bind_inv in Hs as ([] & s1 & Hb & Hs). apply ProcWitness.bind_inv in Hs as ([] & s & Hr & Hs). injection Hs as Ht _.
  exists s1, s. split; [exact Hb|]. split; [exact Hr|]. split; [exact Ht|]. symmetry.
  apply (open_files_counted 0x80007000 0x80001000 0 id id 0 0 0 0 0 no_devs ∅ loaded s1 s no_drivers blank_fd (λ f, eq_refl) Hb (script_steps _ _ _ Hr)). discriminate.
Defined.
End FdWitness.
