(* ===== verification/Virtio.v ===== *)
(** * The disk driver: [kernel/virtio_disk.c]

    The driver's structures, shared with the device: the tables in the three
    pages of the queue are kept as the structures they hold, and a pointer to
    them as what it points to.  The registers of the device are memory mapped,
    behind [Mmio].  [virtio_disk_rw] is cut where it sleeps.  What [wakeup]
    does is the scheduler's; the calls are noted in [vd_woken]. *)

From S2P Require Import Prelude Mem Layout PageAlloc BufIface Proc Trap.

Definition VIRTIO_MMIO_MAGIC_VALUE : Z := 0x000.
Definition VIRTIO_MMIO_VERSION : Z := 0x004.
Definition VIRTIO_MMIO_DEVICE_ID : Z := 0x008.
Definition VIRTIO_MMIO_VENDOR_ID : Z := 0x00c.
Definition VIRTIO_MMIO_DEVICE_FEATURES : Z := 0x010.
Definition VIRTIO_MMIO_DRIVER_FEATURES : Z := 0x020.
Definition VIRTIO_MMIO_QUEUE_SEL : Z := 0x030.
Definition VIRTIO_MMIO_QUEUE_NUM_MAX : Z := 0x034.
Definition VIRTIO_MMIO_QUEUE_NUM : Z := 0x038.
Definition VIRTIO_MMIO_QUEUE_READY : Z := 0x044.
Definition VIRTIO_MMIO_QUEUE_NOTIFY : Z := 0x050.
Definition VIRTIO_MMIO_INTERRUPT_STATUS : Z := 0x060.
Definition VIRTIO_MMIO_INTERRUPT_ACK : Z := 0x064.
Definition VIRTIO_MMIO_STATUS : Z := 0x070.
Definition VIRTIO_MMIO_QUEUE_DESC_LOW : Z := 0x080.
Definition VIRTIO_MMIO_QUEUE_DESC_HIGH : Z := 0x084.
Definition VIRTIO_MMIO_DRIVER_DESC_LOW : Z := 0x090.
Definition VIRTIO_MMIO_DRIVER_DESC_HIGH : Z := 0x094.
Definition VIRTIO_MMIO_DEVICE_DESC_LOW : Z := 0x0a0.
Definition VIRTIO_MMIO_DEVICE_DESC_HIGH : Z := 0x0a4.
Definition VIRTIO_CONFIG_S_ACKNOWLEDGE : Z := 1.
Definition VIRTIO_CONFIG_S_DRIVER : Z := 2.
Definition VIRTIO_CONFIG_S_DRIVER_OK : Z := 4.
Definition VIRTIO_CONFIG_S_FEATURES_OK : Z := 8.
Definition VIRTIO_BLK_F_RO : Z := 5.
Definition VIRTIO_BLK_F_SCSI : Z := 7.
Definition VIRTIO_BLK_F_CONFIG_WCE : Z := 11.
Definition VIRTIO_BLK_F_MQ : Z := 12.
Definition VIRTIO_F_ANY_LAYOUT : Z := 27.
Definition VIRTIO_RING_F_INDIRECT_DESC : Z := 28.
Definition VIRTIO_RING_F_EVENT_IDX : Z := 29.
Definition NUM : Z := 8.
Definition VRING_DESC_F_NEXT : Z := 1.
Definition VRING_DESC_F_WRITE : Z := 2.
Definition VIRTIO_BLK_T_IN : Z := 0.
Definition VIRTIO_BLK_T_OUT : Z := 1.

(** What a descriptor points to: a header of [ops], the data of a buffer, or a
    status byte of [info]. *)
Inductive dptr := PNull | POps (i : Z) | PData (b : Z) | PStatus (i : Z).

Record virtq_desc := VDesc { vq_addr : dptr; vq_len : Z; vq_flags : Z; vq_next : Z }.
Definition desc0 : virtq_desc := VDesc PNull 0 0 0.
Record virtio_blk_req := BlkReq { vr_type : Z; vr_reserved : Z; vr_sector : Z }.
Definition req0 : virtio_blk_req := BlkReq 0 0 0.
(** An element of [info]; 0 is no buffer. *)
Record vinfo := VInfo { vi_b : Z; vi_status : Z }.
Definition info0 : vinfo := VInfo 0 0.

(** The channels of [wakeup]. *)
Inductive vchan := CFree | CBuf (b : Z).

(** [disk], with the rings it points to, and the fields of the buffers that the
    driver uses. *)
Record vdisk (D : Type) := VDisk {
  vd_desc : gmap Z virtq_desc;
  vd_avail_idx : Z;
  vd_avail_ring : gmap Z Z;
  vd_used_idx_dev : Z;          (* disk.used->idx *)
  vd_used_ring : gmap Z Z;      (* the ids *)
  vd_free : gmap Z Z;
  vd_used_idx : Z;
  vd_info : gmap Z vinfo;
  vd_ops : gmap Z virtio_blk_req;
  vd_lock : bool;
  vd_bdisk : gmap Z Z;          (* b->disk *)
  vd_blockno : gmap Z Z;        (* b->blockno *)
  vd_data : gmap Z mem;         (* b->data *)
  vd_woken : list vchan;
  vd_dev : D
}.
Arguments VDisk {D}. Arguments vd_desc {D}. Arguments vd_avail_idx {D}. Arguments vd_avail_ring {D}. Arguments vd_used_idx_dev {D}.
Arguments vd_used_ring {D}. Arguments vd_free {D}. Arguments vd_used_idx {D}. Arguments vd_info {D}. Arguments vd_ops {D}. Arguments vd_lock {D}.
Arguments vd_bdisk {D}. Arguments vd_blockno {D}. Arguments vd_data {D}. Arguments vd_woken {D}. Arguments vd_dev {D}.

Section Virtio.
Context {D : Type} {MM : Mmio D}.
Implicit Types s : vdisk D.

Definition set_vd_desc v s : vdisk D := VDisk v (vd_avail_idx s) (vd_avail_ring s) (vd_used_idx_dev s) (vd_used_ring s) (vd_free s) (vd_used_idx s) (vd_info s) (vd_ops s) (vd_lock s) (vd_bdisk s) (vd_blockno s) (vd_data s) (vd_woken s) (vd_dev s).
Definition set_vd_avail_idx v s : vdisk D := VDisk (vd_desc s) v (vd_avail_ring s) (vd_used_idx_dev s) (vd_used_ring s) (vd_free s) (vd_used_idx s) (vd_info s) (vd_ops s) (vd_lock s) (vd_bdisk s) (vd_blockno s) (vd_data s) (vd_woken s) (vd_dev s).
Definition set_vd_avail_ring v s : vdisk D := VDisk (vd_desc s) (vd_avail_idx s) v (vd_used_idx_dev s) (vd_used_ring s) (vd_free s) (vd_used_idx s) (vd_info s) (vd_ops s) (vd_lock s) (vd_bdisk s) (vd_blockno s) (vd_data s) (vd_woken s) (vd_dev s).
Definition set_vd_used_idx_dev v s : vdisk D := VDisk (vd_desc s) (vd_avail_idx s) (vd_avail_ring s) v (vd_used_ring s) (vd_free s) (vd_used_idx s) (vd_info s) (vd_ops s) (vd_lock s) (vd_bdisk s) (vd_blockno s) (vd_data s) (vd_woken s) (vd_dev s).
Definition set_vd_used_ring v s : vdisk D := VDisk (vd_desc s) (vd_avail_idx s) (vd_avail_ring s) (vd_used_idx_dev s) v (vd_free s) (vd_used_idx s) (vd_info s) (vd_ops s) (vd_lock s) (vd_bdisk s) (vd_blockno s) (vd_data s) (vd_woken s) (vd_dev s).
Definition set_vd_free v s : vdisk D := VDisk (vd_desc s) (vd_avail_idx s) (vd_avail_ring s) (vd_used_idx_dev s) (vd_used_ring s) v (vd_used_idx s) (vd_info s) (vd_ops s) (vd_lock s) (vd_bdisk s) (vd_blockno s) (vd_data s) (vd_woken s) (vd_dev s).
Definition set_vd_used_idx v s : vdisk D := VDisk (vd_desc s) (vd_avail_idx s) (vd_avail_ring s) (vd_used_idx_dev s) (vd_used_ring s) (vd_free s) v (vd_info s) (vd_ops s) (vd_lock s) (vd_bdisk s) (vd_blockno s) (vd_data s) (vd_woken s) (vd_dev s).
Definition set_vd_info v s : vdisk D := VDisk (vd_desc s) (vd_avail_idx s) (vd_avail_ring s) (vd_used_idx_dev s) (vd_used_ring s) (vd_free s) (vd_used_idx s) v (vd_ops s) (vd_lock s) (vd_bdisk s) (vd_blockno s) (vd_data s) (vd_woken s) (vd_dev s).
Definition set_vd_ops v s : vdisk D := VDisk (vd_desc s) (vd_avail_idx s) (vd_avail_ring s) (vd_used_idx_dev s) (vd_used_ring s) (vd_free s) (vd_used_idx s) (vd_info s) v (vd_lock s) (vd_bdisk s) (vd_blockno s) (vd_data s) (vd_woken s) (vd_dev s).
Definition set_vd_lock v s : vdisk D := VDisk (vd_desc s) (vd_avail_idx s) (vd_avail_ring s) (vd_used_idx_dev s) (vd_used_ring s) (vd_free s) (vd_used_idx s) (vd_info s) (vd_ops s) v (vd_bdisk s) (vd_blockno s) (vd_data s) (vd_woken s) (vd_dev s).
Definition set_vd_bdisk v s : vdisk D := VDisk (vd_desc s) (vd_avail_idx s) (vd_avail_ring s) (vd_used_idx_dev s) (vd_used_ring s) (vd_free s) (vd_used_idx s) (vd_info s) (vd_ops s) (vd_lock s) v (vd_blockno s) (vd_data s) (vd_woken s) (vd_dev s).
Definition set_vd_blockno v s : vdisk D := VDisk (vd_desc s) (vd_avail_idx s) (vd_avail_ring s) (vd_used_idx_dev s) (vd_used_ring s) (vd_free s) (vd_used_idx s) (vd_info s) (vd_ops s) (vd_lock s) (vd_bdisk s) v (vd_data s) (vd_woken s) (vd_dev s).
Definition set_vd_data v s : vdisk D := VDisk (vd_desc s) (vd_avail_idx s) (vd_avail_ring s) (vd_used_idx_dev s) (vd_used_ring s) (vd_free s) (vd_used_idx s) (vd_info s) (vd_ops s) (vd_lock s) (vd_bdisk s) (vd_blockno s) v (vd_woken s) (vd_dev s).
Definition set_vd_woken v s : vdisk D := VDisk (vd_desc s) (vd_avail_idx s) (vd_avail_ring s) (vd_used_idx_dev s) (vd_used_ring s) (vd_free s) (vd_used_idx s) (vd_info s) (vd_ops s) (vd_lock s) (vd_bdisk s) (vd_blockno s) (vd_data s) v (vd_dev s).
Definition set_vd_dev v s : vdisk D := VDisk (vd_desc s) (vd_avail_idx s) (vd_avail_ring s) (vd_used_idx_dev s) (vd_used_ring s) (vd_free s) (vd_used_idx s) (vd_info s) (vd_ops s) (vd_lock s) (vd_bdisk s) (vd_blockno s) (vd_data s) (vd_woken s) v.

Definition vdesc (i : Z) s : virtq_desc := default desc0 (vd_desc s !! i).
Definition vfree (i : Z) s : Z := default 0 (vd_free s !! i).
Definition vinfo_of (i : Z) s : vinfo := default info0 (vd_info s !! i).
Definition vop (i : Z) s : virtio_blk_req := default req0 (vd_ops s !! i).
Definition bdisk (b : Z) s : Z := default 0 (vd_bdisk s !! b).
Definition bblockno (b : Z) s : Z := default 0 (vd_blockno s !! b).
Definition bdata (b : Z) s : mem := default ∅ (vd_data s !! b).

Definition put_desc (i : Z) (x : virtq_desc) : M (vdisk D) unit := modify (λ s, set_vd_desc (<[i := x]> (vd_desc s)) s).
Definition put_free (i v : Z) : M (vdisk D) unit := modify (λ s, set_vd_free (<[i := v]> (vd_free s)) s).
Definition put_bdisk (b v : Z) : M (vdisk D) unit := modify (λ s, set_vd_bdisk (<[b := v]> (vd_bdisk s)) s).
Definition vwakeup (c : vchan) : M (vdisk D) unit := modify (λ s, set_vd_woken (vd_woken s ++ [c]) s).
Definition vdev {A} (m : M D A) : M (vdisk D) A := lift vd_dev set_vd_dev m.
Definition vacquire : M (vdisk D) unit := acquire vd_lock set_vd_lock.
Definition vrelease : M (vdisk D) unit := release vd_lock set_vd_lock.

(** ** Descriptors *)

Definition alloc_desc : M (vdisk D) Z :=
  r ← for_ret (seqZ 0 NUM) (λ i,
    f ← gets (vfree i);
    if negb (f =? 0) then put_free i 0;; mret (Some i) else mret None);
  mret (default (-1) r).

Definition free_desc (i : Z) : M (vdisk D) unit :=
  panic_if (i >=? NUM) "free_desc 1";;
  f ← gets (vfree i);
  panic_if (negb (f =? 0)) "free_desc 2";;
  put_desc i desc0;;
  put_free i 1;;
  vwakeup CFree.

(** A chain is no longer than the table: [free_desc] refuses to free twice. *)
Definition free_chain (i : Z) : M (vdisk D) unit :=
  loop (Z.to_nat NUM + 1) (λ i,
    d ← gets (vdesc i);
    free_desc i;;
    if negb (Z.land (vq_flags d) VRING_DESC_F_NEXT =? 0) then mret (inl (vq_next d)) else mret (inr tt)) i.

(** The three indices, or [None] for [-1]. *)
Definition alloc3_desc : M (vdisk D) (option (Z * Z * Z)) :=
  i0 ← alloc_desc;
  if i0 <? 0 then mret None else
  i1 ← alloc_desc;
  if i1 <? 0 then free_desc i0;; mret None else
  i2 ← alloc_desc;
  if i2 <? 0 then free_desc i0;; free_desc i1;; mret None else
  mret (Some (i0, i1, i2)).

(** ** Requests *)

(** From the three descriptors to the entry of the avail ring. *)
Definition rw_format (b : Z) (write : bool) (idx : Z * Z * Z) : M (vdisk D) unit :=
  let '(i0, i1, i2) := idx in
  blockno ← gets (bblockno b);
  let sector := u32 (blockno * (BSIZE / 512)) in
  modify (λ s, set_vd_ops (<[i0 := BlkReq (if write then VIRTIO_BLK_T_OUT else VIRTIO_BLK_T_IN) 0 sector]> (vd_ops s)) s);;
  put_desc i0 (VDesc (POps i0) 16 VRING_DESC_F_NEXT i1);;
  put_desc i1 (VDesc (PData b) BSIZE (Z.lor (if write then 0 else VRING_DESC_F_WRITE) VRING_DESC_F_NEXT) i2);;
  modify (λ s, set_vd_info (<[i0 := VInfo (vi_b (vinfo_of i0 s)) 0xff]> (vd_info s)) s);;
  put_desc i2 (VDesc (PStatus i0) 1 VRING_DESC_F_WRITE 0);;
  put_bdisk b 1;;
  modify (λ s, set_vd_info (<[i0 := VInfo b (vi_status (vinfo_of i0 s))]> (vd_info s)) s);;
  modify (λ s, set_vd_avail_ring (<[vd_avail_idx s mod NUM := i0]> (vd_avail_ring s)) s).

(** [virtio_disk_rw] from [acquire], or from its return from the [sleep] for
    descriptors: [None] when it sleeps for them. *)
Definition rw_start (b : Z) (write : bool) : M (vdisk D) (option (Z * Z * Z)) :=
  vacquire;;
  idx ← alloc3_desc;
  match idx with
  | None => vrelease;; mret None
  | Some idx => rw_format b write idx;; mret (Some idx)
  end.

(** [while (b->disk == 1)], lock held: [false] when it sleeps. *)
Definition rw_wait (b i0 : Z) : M (vdisk D) bool :=
  d ← gets (bdisk b);
  if d =? 1 then vrelease;; mret false else
  modify (λ s, set_vd_info (<[i0 := VInfo 0 (vi_status (vinfo_of i0 s))]> (vd_info s)) s);;
  free_chain i0;;
  vrelease;;
  mret true.

(** The request is made available, the device is told, and the wait begins. *)
Definition rw_submit (b i0 : Z) : M (vdisk D) bool :=
  modify (λ s, set_vd_avail_idx (u16 (vd_avail_idx s + 1)) s);;
  vdev (mmio_st32 (VIRTIO0 + VIRTIO_MMIO_QUEUE_NOTIFY) 0);;
  rw_wait b i0.

(** From the return of that [sleep]. *)
Definition rw_resume (b i0 : Z) : M (vdisk D) bool := vacquire;; rw_wait b i0.

(** ** Interrupts *)

Definition intr_begin : M (vdisk D) unit :=
  vacquire;;
  st ← vdev (mmio_ld32 (VIRTIO0 + VIRTIO_MMIO_INTERRUPT_STATUS));
  vdev (mmio_st32 (VIRTIO0 + VIRTIO_MMIO_INTERRUPT_ACK) (Z.land st 0x3)).

(** One turn of the loop; [false] when it ends. *)
Definition intr_iter : M (vdisk D) bool :=
  u ← gets vd_used_idx;
  d ← gets vd_used_idx_dev;
  if u =? d then mret false else
  id ← gets (λ s, i32 (default 0 (vd_used_ring s !! (u mod NUM))));
  i ← gets (vinfo_of id);
  panic_if (negb (vi_status i =? 0)) "virtio_disk_intr status";;
  put_bdisk (vi_b i) 0;;
  vwakeup (CBuf (vi_b i));;
  modify (set_vd_used_idx (u16 (u + 1)));;
  mret true.

Definition intr_end : M (vdisk D) unit := vrelease.

(** As often as the device has added entries. *)
Definition virtio_disk_intr : M (vdisk D) unit :=
  intr_begin;;
  n ← gets (λ s, u16 (vd_used_idx_dev s - vd_used_idx s));
  loop (Z.to_nat n + 1) (λ _ : unit, r ← intr_iter; mret (if (r : bool) then inl tt else inr tt)) tt;;
  intr_end.

(** ** [virtio_disk_init] *)

Section Init.
Context {V : Type} {PO : PageAllocOps V}.

Definition vreg_ld (r : Z) : M (V * vdisk D) Z := lift snd (λ s x, (x.1, s)) (vdev (mmio_ld32 (VIRTIO0 + r))).
Definition vreg_st (r v : Z) : M (V * vdisk D) unit := lift snd (λ s x, (x.1, s)) (vdev (mmio_st32 (VIRTIO0 + r) (u32 v))).
Definition vpage : M (V * vdisk D) Z := lift fst (λ v x, (v, x.2)) pa_kalloc.
Definition vset (f : vdisk D → vdisk D) : M (V * vdisk D) unit := modify (λ x, (x.1, f x.2)).

(** [features &= ~(1 << f)]; the mask is an [int], so its high bits stay. *)
Definition unfeature (features f : Z) : Z := Z.land features (u64 (i32 (Z.lnot (Z.shiftl 1 f)))).

Definition virtio_disk_init : M (V * vdisk D) unit :=
  vset (set_vd_lock false);;
  magic ← vreg_ld VIRTIO_MMIO_MAGIC_VALUE;
  version ← (if negb (magic =? 0x74726976) then mret 0 else vreg_ld VIRTIO_MMIO_VERSION);
  device ← (if negb (version =? 2) then mret 0 else vreg_ld VIRTIO_MMIO_DEVICE_ID);
  vendor ← (if negb (device =? 2) then mret 0 else vreg_ld VIRTIO_MMIO_VENDOR_ID);
  panic_if (negb (vendor =? 0x554d4551)) "could not find virtio disk";;
  vreg_st VIRTIO_MMIO_STATUS 0;;
  let status := VIRTIO_CONFIG_S_ACKNOWLEDGE in
  vreg_st VIRTIO_MMIO_STATUS status;;
  let status := Z.lor status VIRTIO_CONFIG_S_DRIVER in
  vreg_st VIRTIO_MMIO_STATUS status;;
  features ← vreg_ld VIRTIO_MMIO_DEVICE_FEATURES;
  vreg_st VIRTIO_MMIO_DRIVER_FEATURES
    (foldl unfeature features [VIRTIO_BLK_F_RO; VIRTIO_BLK_F_SCSI; VIRTIO_BLK_F_CONFIG_WCE; VIRTIO_BLK_F_MQ; VIRTIO_F_ANY_LAYOUT;
       VIRTIO_RING_F_EVENT_IDX; VIRTIO_RING_F_INDIRECT_DESC]);;
  let status := Z.lor status VIRTIO_CONFIG_S_FEATURES_OK in
  vreg_st VIRTIO_MMIO_STATUS status;;
  status ← vreg_ld VIRTIO_MMIO_STATUS;
  panic_if (Z.land status VIRTIO_CONFIG_S_FEATURES_OK =? 0) "virtio disk FEATURES_OK unset";;
  vreg_st VIRTIO_MMIO_QUEUE_SEL 0;;
  ready ← vreg_ld VIRTIO_MMIO_QUEUE_READY;
  panic_if (negb (ready =? 0)) "virtio disk should not be ready";;
  max ← vreg_ld VIRTIO_MMIO_QUEUE_NUM_MAX;
  panic_if (max =? 0) "virtio disk has no queue 0";;
  panic_if (max <? NUM) "virtio disk max queue too short";;
  desc ← vpage;
  avail ← vpage;
  used ← vpage;
  panic_if ((desc =? 0) || (avail =? 0) || (used =? 0)) "virtio disk kalloc";;
  vset (set_vd_desc ∅);;
  vset (λ s, set_vd_avail_idx 0 (set_vd_avail_ring ∅ s));;
  vset (λ s, set_vd_used_idx_dev 0 (set_vd_used_ring ∅ s));;
  vreg_st VIRTIO_MMIO_QUEUE_NUM NUM;;
  vreg_st VIRTIO_MMIO_QUEUE_DESC_LOW desc;;
  vreg_st VIRTIO_MMIO_QUEUE_DESC_HIGH (Z.shiftr desc 32);;
  vreg_st VIRTIO_MMIO_DRIVER_DESC_LOW avail;;
  vreg_st VIRTIO_MMIO_DRIVER_DESC_HIGH (Z.shiftr avail 32);;
  vreg_st VIRTIO_MMIO_DEVICE_DESC_LOW used;;
  vreg_st VIRTIO_MMIO_DEVICE_DESC_HIGH (Z.shiftr used 32);;
  vreg_st VIRTIO_MMIO_QUEUE_READY 0x1;;
  for_each (seqZ 0 NUM) (λ i, vset (λ s, set_vd_free (<[i := 1]> (vd_free s)) s));;
  let status := Z.lor status VIRTIO_CONFIG_S_DRIVER_OK in
  vreg_st VIRTIO_MMIO_STATUS status.
End Init.
End Virtio.
