(* ===== verification/VirtioInv.v ===== *)
(** * What the disk driver promises, and its invariant

    Any number of processes call [virtio_disk_rw], each for a buffer of its own,
    interrupts come when they like, and the device works on its own: it takes
    the requests it is told of and completes them in any order, between any two
    steps of the driver.  The driver then does what the buffer cache expects of
    it: each request is served exactly once, between its call and its return, on
    the block and the buffer it is for; and no check of the driver fails.

    The invariant: which descriptors belong to which request, and where each
    request is: with the driver, in the avail ring, taken by the device, in the
    used ring, or done; and what [alloc3_desc] and [free_chain] do to the table
    of descriptors. *)

From S2P Require Import Prelude Mem Layout PageAlloc BufIface Proc Trap Virtio.

Set Default Proof Using "Type".

(** ** The promise *)

(** The bytes of the disk and of the buffers, the block each buffer is for, and
    the requests under way: whether each writes, and whether it has been served. *)
Record disks := Disks { a_img : mem; a_data : gmap Z mem; a_blockno : gmap Z Z; a_req : gmap Z (bool * bool) }.

(** The data moved for block [n] between the disk and a buffer. *)
Definition move (write : bool) (n b : Z) (img : mem) (data : gmap Z mem) : mem * gmap Z mem :=
  let x := default ∅ (data !! b) in
  if write then (stbytes img (n * BSIZE) (ldbytes x 0 (Z.to_nat BSIZE)), data)
  else (img, <[b := stbytes x 0 (ldbytes img (n * BSIZE) (Z.to_nat BSIZE))]> data).

(** The holder of a buffer sets its block and its bytes, and calls the driver. *)
Inductive event := Fill (b n : Z) (x : mem) | Call (b : Z) (write : bool) | Return (b : Z).

Inductive sstep : disks → option event → disks → Prop :=
  | s_fill a b n x : a_req a !! b = None → sstep a (Some (Fill b n x)) (Disks (a_img a) (<[b := x]> (a_data a)) (<[b := n]> (a_blockno a)) (a_req a))
  | s_call a b w : a_req a !! b = None → sstep a (Some (Call b w)) (Disks (a_img a) (a_data a) (a_blockno a) (<[b := (w, false)]> (a_req a)))
  | s_serve a b w m : a_req a !! b = Some (w, false) → m = move w (default 0 (a_blockno a !! b)) b (a_img a) (a_data a) →
      sstep a None (Disks m.1 m.2 (a_blockno a) (<[b := (w, true)]> (a_req a)))
  | s_return a b w : a_req a !! b = Some (w, true) → sstep a (Some (Return b)) (Disks (a_img a) (a_data a) (a_blockno a) (delete b (a_req a)))
  | s_none a : sstep a None a.

(** The events of a run. *)
Inductive run {S} (step : S → option event → S → Prop) : S → list event → S → Prop :=
  | run_nil s : run step s [] s
  | run_cons s e s1 tr s2 : step s e s1 → run step s1 tr s2 → run step s (option_list e ++ tr) s2.

(** ** The driver and its surroundings *)

(** Where a call of [virtio_disk_rw] is: asleep for descriptors, with its request
    written down and the lock held, or asleep for the device. *)
Inductive phase := Wants | Ready (idx : Z * Z * Z) | Waits (idx : Z * Z * Z).

(** The device: how far it has read the avail ring, the requests it has taken
    and not completed, and the bytes of the disk. *)
Record device := Device { dv_last : Z; dv_taken : gset Z; dv_img : mem }.

Section World.
Context {D : Type} {MM : Mmio D}.

Record vworld := World {
  w_d : vdisk D;
  w_dev : device;
  w_call : gmap Z (bool * phase);     (* by buffer *)
  w_intr : bool                       (* in the loop of [virtio_disk_intr] *)
}.

(** What the device does to complete the request with head [h], if that is a
    header, [BSIZE] bytes of data and a status byte, in this order, with the
    direction of the data as the header says. *)
Definition complete (h : Z) (s : vdisk D) (v : device) : option (vdisk D * device) :=
  let d0 := vdesc h s in
  let d1 := vdesc (vq_next d0) s in
  let d2 := vdesc (vq_next d1) s in
  match vq_addr d0, vq_addr d1, vq_addr d2 with
  | POps i, PData b, PStatus j =>
      let r := vop i s in
      let write := vr_type r =? VIRTIO_BLK_T_OUT in
      if (vq_len d0 =? 16) && (vq_len d1 =? BSIZE) && (vq_len d2 =? 1) &&
         (vq_flags d0 =? VRING_DESC_F_NEXT) && (vq_flags d1 =? (if write then VRING_DESC_F_NEXT else VRING_DESC_F_NEXT + VRING_DESC_F_WRITE)) &&
         (vq_flags d2 =? VRING_DESC_F_WRITE) && ((vr_type r =? VIRTIO_BLK_T_IN) || write) && (vr_sector r mod 2 =? 0)
      then
        let m := move write (vr_sector r / 2) b (dv_img v) (vd_data s) in
        Some (set_vd_used_idx_dev (u16 (vd_used_idx_dev s + 1))
                (set_vd_used_ring (<[vd_used_idx_dev s mod NUM := h]> (vd_used_ring s))
                  (set_vd_info (<[j := VInfo (vi_b (vinfo_of j s)) 0]> (vd_info s)) (set_vd_data m.2 s))),
              Device (dv_last v) (dv_taken v ∖ {[h]}) m.1)
      else None
  | _, _, _ => None
  end.

(** What the device may do, as its specification has it: take the next request of
    the avail ring, or complete one that it took; nothing is said of what it does
    with a request that is not well formed. *)
Definition dev_ok (s : vdisk D) (v : device) (s' : vdisk D) (v' : device) : Prop :=
  (dv_last v ≠ vd_avail_idx s ∧ s' = s ∧
   v' = Device (u16 (dv_last v + 1)) ({[default 0 (vd_avail_ring s !! (dv_last v mod NUM))]} ∪ dv_taken v) (dv_img v)) ∨
  ∃ h, h ∈ dv_taken v ∧ ∀ r, complete h s v = Some r → r = (s', v').

(** A turn of the interrupt's loop, with what follows the last one. *)
Definition intr_turn : M (vdisk D) bool :=
  r ← intr_iter;
  (if (r : bool) then mret tt else intr_end);;
  mret r.

Context (dev_step : vdisk D → device → vdisk D → device → Prop).

(** The steps of the holders of the buffers, of the driver, each ending with [r]
    on the buffer [b]'s call, and of the device.  The sector of a block is 32 bits
    wide. *)
Inductive vstep : vworld → option event → vworld → Prop :=
  | w_fill s v c i b n x : c !! b = None → 0 ≤ n < 2 ^ 31 →
      vstep (World s v c i) (Some (Fill b n x)) (World (set_vd_blockno (<[b := n]> (vd_blockno s)) (set_vd_data (<[b := x]> (vd_data s)) s)) v c i)
  | w_begin s v c b w s' r : c !! b = None → rw_start b w s = Ok r s' →
      vstep (World s v c false) (Some (Call b w)) (World s' v (<[b := (w, match r with Some idx => Ready idx | None => Wants end)]> c) false)
  | w_retry s v c b w s' r : c !! b = Some (w, Wants) → rw_start b w s = Ok r s' →
      vstep (World s v c false) None (World s' v (<[b := (w, match r with Some idx => Ready idx | None => Wants end)]> c) false)
  | w_submit s v c b w i0 i1 i2 s' r : c !! b = Some (w, Ready (i0, i1, i2)) → rw_submit b i0 s = Ok r s' →
      vstep (World s v c false) (if r then Some (Return b) else None)
            (World s' v (if r then delete b c else <[b := (w, Waits (i0, i1, i2))]> c) false)
  | w_resume s v c b w i0 i1 i2 s' r : c !! b = Some (w, Waits (i0, i1, i2)) → rw_resume b i0 s = Ok r s' →
      vstep (World s v c false) (if r then Some (Return b) else None) (World s' v (if r then delete b c else c) false)
  | w_intr_begin s v c s' : intr_begin s = Ok tt s' → vstep (World s v c false) None (World s' v c true)
  | w_intr_turn s v c s' r : intr_turn s = Ok r s' → vstep (World s v c true) None (World s' v c r)
  | w_device s v c i s' v' : dev_step s v s' v' → vstep (World s v c i) None (World s' v' c i).
End World.

(** Whether [j] is one of the [l]. *)
Definition isone (l : list Z) (j : Z) : bool := existsb (Z.eqb j) l.
Lemma isone_elem l j : isone l j = true ↔ j ∈ l.
Proof.
  unfold isone. rewrite existsb_exists. split; [intros (x & Hx & ->%Z.eqb_eq); by apply list_elem_of_In|].
  intros H. exists j. split; [by apply list_elem_of_In|apply Z.eqb_refl].
Qed.
Lemma isone_false l j : isone l j = false ↔ j ∉ l.
Proof. rewrite <-not_true_iff_false, isone_elem. done. Qed.
Ltac isone := unfold isone; cbn [existsb]; repeat match goal with |- context [?x =? ?y] => destruct (Z.eqb_spec x y); subst; cbn [orb] end; try reflexivity; try congruence; try lia.

Section Code.
Context {D : Type} {MM : Mmio D}.
Implicit Types s : vdisk D.

(** All but the lock, the descriptors and who was woken. *)
Definition rest s :=
  (vd_avail_idx s, vd_avail_ring s, vd_used_idx_dev s, vd_used_ring s, vd_used_idx s, vd_info s, vd_ops s,
   (vd_bdisk s, vd_blockno s, vd_data s)).

Lemma wp_alloc_desc Q s :
  (∀ i, 0 ≤ i < NUM → vfree i s ≠ 0 → Q i (set_vd_free (<[i := 0]> (vd_free s)) s)) → Q (-1) s → wp alloc_desc Q s.
Proof.
  intros HQ HQ0. unfold alloc_desc. wp_step. apply (wp_for_ret (λ _ s', s' = s)); [done| |by intros s' ->].
  intros ds i rst s' Hl ->. assert (i ∈ seqZ 0 NUM) as Hi%elem_of_seqZ by (rewrite Hl; apply elem_of_app; right; by left).
  do 2 wp_step. destruct (Z.eqb_spec (vfree i s) 0); cbn [negb]; [done|]. unfold put_free. do 3 wp_step. wp_step. apply HQ; [lia|done].
Qed.

Lemma vfree_insert i v j s : vfree j (set_vd_free (<[i := v]> (vd_free s)) s) = if isone [i] j then v else vfree j s.
Proof. unfold vfree. isone; cbn; [by rewrite lookup_insert_eq|by rewrite lookup_insert_ne]. Qed.

Lemma wp_free_desc i Q s :
  0 ≤ i < NUM → vfree i s = 0 →
  (∀ s', rest s' = rest s → vd_lock s' = vd_lock s → (∀ j, vfree j s' = if isone [i] j then 1 else vfree j s) →
     (∀ j, vdesc j s' = if isone [i] j then desc0 else vdesc j s) → Q tt s') → wp (free_desc i) Q s.
Proof.
  intros Hi Hf HQ. unfold free_desc. wp_step. rewrite wp_panic_if. split; [rewrite Z.geb_leb; apply Z.leb_gt; lia|]. do 2 wp_step.
  wp_step. rewrite wp_panic_if, Hf. split; [done|]. unfold put_desc, put_free, vwakeup. repeat wp_step. apply HQ; [done|done| |].
  - intros j. apply (vfree_insert i 1 j s).
  - intros j. unfold vdesc. isone; cbn; [by rewrite lookup_insert_eq|by rewrite lookup_insert_ne].
Qed.

(** Three descriptors of the table. *)
Record three (i0 i1 i2 : Z) : Prop := {
  th_01 : i0 ≠ i1; th_02 : i0 ≠ i2; th_12 : i1 ≠ i2;
  th_0 : 0 ≤ i0 < NUM; th_1 : 0 ≤ i1 < NUM; th_2 : 0 ≤ i2 < NUM
}.

Lemma wp_alloc3_desc Q s :
  (∀ j, vfree j s = 0 ∨ vfree j s = 1) →
  (∀ i0 i1 i2 s', three i0 i1 i2 → vfree i0 s = 1 → vfree i1 s = 1 → vfree i2 s = 1 → rest s' = rest s → vd_lock s' = vd_lock s →
     (∀ j, vfree j s' = if isone [i0; i1; i2] j then 0 else vfree j s) → (∀ j, vdesc j s' = vdesc j s) → Q (Some (i0, i1, i2)) s') →
  (∀ s', rest s' = rest s → vd_lock s' = vd_lock s → (∀ j, vfree j s' = vfree j s) → (∀ j, vfree j s = 0 → vdesc j s' = vdesc j s) → Q None s') →
  wp alloc3_desc Q s.
Proof.
  intros H01 HQ HQ0. unfold alloc3_desc. wp_step. apply wp_alloc_desc; [|by apply HQ0].
  intros i0 Hi0 Hf0. assert (vfree i0 s = 1) as G0 by (destruct (H01 i0); congruence). destruct (Z.ltb_spec i0 0); [lia|]. set (s1 := set_vd_free _ s).
  assert (∀ j, vfree j s1 = if isone [i0] j then 0 else vfree j s) as E1 by (intros; apply vfree_insert). wp_step. apply wp_alloc_desc.
  2: { cbn [Z.ltb Z.compare]. wp_step. apply wp_free_desc; [done|rewrite E1; isone|]. intros s' R L F X. apply HQ0; [done|done| |].
    - intros j. rewrite F, E1. isone.
    - intros j Hj. rewrite X. isone. }
  intros i1 Hi1 Hf1. rewrite E1 in Hf1. assert (i0 ≠ i1 ∧ vfree i1 s = 1) as [N1 G1]. { destruct (H01 i1) as [Hn|Hn]; revert Hf1; isone; intros; split; congruence. }
  destruct (Z.ltb_spec i1 0); [lia|]. set (s2 := set_vd_free _ s1). assert (∀ j, vfree j s2 = if isone [i0; i1] j then 0 else vfree j s) as E2.
  { intros j. unfold s2. rewrite vfree_insert, E1. isone. }
  wp_step. apply wp_alloc_desc.
  2: { cbn [Z.ltb Z.compare]. wp_step. apply wp_free_desc; [done|rewrite E2; isone|]. intros s3 R3 L3 F3 X3. wp_step. apply wp_free_desc; [done|rewrite F3, E2; isone|].
    intros s' R L F X. apply HQ0; [by rewrite R, R3|by rewrite L, L3| |].
    - intros j. rewrite F, F3, E2. isone.
    - intros j Hj. rewrite X, X3. isone. }
  intros i2 Hi2 Hf2. rewrite E2 in Hf2. assert (i0 ≠ i2 ∧ i1 ≠ i2 ∧ vfree i2 s = 1) as (N2 & N3 & G2). { destruct (H01 i2) as [Hn|Hn]; revert Hf2; isone; intros; split_and!; congruence. }
  destruct (Z.ltb_spec i2 0); [lia|]. wp_step. apply HQ; try done. intros j. rewrite vfree_insert, E2. isone.
Qed.

Lemma wp_free_chain i0 i1 i2 Q s :
  three i0 i1 i2 → vfree i0 s = 0 → vfree i1 s = 0 → vfree i2 s = 0 →
  Z.land (vq_flags (vdesc i0 s)) VRING_DESC_F_NEXT ≠ 0 → vq_next (vdesc i0 s) = i1 →
  Z.land (vq_flags (vdesc i1 s)) VRING_DESC_F_NEXT ≠ 0 → vq_next (vdesc i1 s) = i2 → Z.land (vq_flags (vdesc i2 s)) VRING_DESC_F_NEXT = 0 →
  (∀ s', rest s' = rest s → vd_lock s' = vd_lock s → (∀ j, vfree j s' = if isone [i0; i1; i2] j then 1 else vfree j s) →
     (∀ j, isone [i0; i1; i2] j = false → vdesc j s' = vdesc j s) → Q tt s') → wp (free_chain i0) Q s.
Proof.
  intros [] G0 G1 G2 F0 E0 F1 E1 F2 HQ. unfold free_chain. change (Z.to_nat NUM + 1)%nat with 9%nat.
  apply wp_loop_S. do 2 wp_step. wp_step. apply wp_free_desc; [done|done|]. intros s1 R1 L1 V1 X1. rewrite (proj2 (Z.eqb_neq _ _) F0). cbn [negb]. wp_step. rewrite E0.
  assert (∀ j, j ≠ i0 → vdesc j s1 = vdesc j s) as X1' by (intros j Hj; rewrite X1; isone).
  apply wp_loop_S. do 2 wp_step. wp_step. apply wp_free_desc; [done|rewrite V1; isone|]. intros s2 R2 L2 V2 X2. rewrite X1' by done. rewrite (proj2 (Z.eqb_neq _ _) F1). cbn [negb]. wp_step. rewrite E1.
  assert (∀ j, j ≠ i0 → j ≠ i1 → vdesc j s2 = vdesc j s) as X2' by (intros j Hj Hj'; rewrite X2, <-X1' by done; isone).
  apply wp_loop_S. do 2 wp_step. wp_step. apply wp_free_desc; [done|rewrite V2, V1; isone|]. intros s3 R3 L3 V3 X3. rewrite X2' by done. rewrite F2. cbn [negb Z.eqb]. wp_step.
  apply HQ; [congruence|congruence| |].
  - intros j. rewrite V3, V2, V1. isone.
  - intros j Hj%isone_false. rewrite X3, X2, X1. revert Hj. rewrite !not_elem_of_cons. intros (? & ? & ? & _). isone.
Qed.
End Code.

Section Inv.
Context {D : Type} {MM : Mmio D}.
Implicit Types (s : vdisk D) (v : device) (c : gmap Z (bool * phase)) (x : bool * phase).

(** The block each buffer is for. *)
Context (bn : Z → Z).

(** Whether the call [x] has the descriptor [j]. *)
Definition own x (j : Z) : bool :=
  match x.2 with Wants => false | Ready (i0, i1, i2) | Waits (i0, i1, i2) => isone [i0; i1; i2] j end.
(** Whether its request is served. *)
Definition served s x : bool :=
  match x.2 with Wants => false | Ready (i0, _, _) | Waits (i0, _, _) => vi_status (vinfo_of i0 s) =? 0 end.

(** The request as the device is to read it. *)
Record formatted s (b : Z) (w : bool) (i0 i1 i2 : Z) : Prop := {
  fm_three : three i0 i1 i2;
  fm_0 : vdesc i0 s = VDesc (POps i0) 16 VRING_DESC_F_NEXT i1;
  fm_1 : vdesc i1 s = VDesc (PData b) BSIZE (Z.lor (if w then 0 else VRING_DESC_F_WRITE) VRING_DESC_F_NEXT) i2;
  fm_2 : vdesc i2 s = VDesc (PStatus i0) 1 VRING_DESC_F_WRITE 0;
  fm_op : vop i0 s = BlkReq (if w then VIRTIO_BLK_T_OUT else VIRTIO_BLK_T_IN) 0 (u32 (bn b * (BSIZE / 512)));
  fm_b : vi_b (vinfo_of i0 s) = b
}.

(** [A] is what the device has still to read of the avail ring, [T] what it
    took, [U] what the driver has still to read of the used ring. *)
Definition req_ok (A : list Z) (T : gset Z) (U : list Z) s (b : Z) x : Prop :=
  match x.2 with
  | Wants => True
  | Ready (i0, i1, i2) =>
      formatted s b x.1 i0 i1 i2 ∧ vi_status (vinfo_of i0 s) = 255 ∧ bdisk b s = 1 ∧
      vd_avail_ring s !! (vd_avail_idx s mod NUM) = Some i0
  | Waits (i0, i1, i2) =>
      formatted s b x.1 i0 i1 i2 ∧
      (i0 ∈ A ∨ i0 ∈ T → vi_status (vinfo_of i0 s) = 255 ∧ bdisk b s = 1) ∧
      (i0 ∈ U → vi_status (vinfo_of i0 s) = 0 ∧ bdisk b s = 1) ∧
      (i0 ∉ A → i0 ∉ T → i0 ∉ U → vi_status (vinfo_of i0 s) = 0 ∧ bdisk b s = 0)
  end.

(** A window of a ring: the entries [l] from index [i] to [j]. *)
Record window (ring : gmap Z Z) (i j : Z) (l : list Z) : Prop := {
  wn_entry : ∀ k h, l !! k = Some h → ring !! ((i + Z.of_nat k) mod NUM) = Some h;
  wn_start : 0 ≤ i < 65536;
  wn_end : j = u16 (i + Z.of_nat (length l))
}.

(** Each request is in one place. *)
Record places (A : list Z) (T : gset Z) (U : list Z) : Prop := {
  pl_A : NoDup A;
  pl_U : NoDup U;
  pl_AT : ∀ h, h ∈ A → h ∉ T;
  pl_AU : ∀ h, h ∈ A → h ∉ U;
  pl_TU : ∀ h, h ∈ T → h ∉ U
}.

Record winv (A U : list Z) s v c (i : bool) : Prop := {
  wi_free : ∀ j, vfree j s = 0 ∨ vfree j s = 1;
  wi_own : ∀ b x j, c !! b = Some x → own x j = true → vfree j s = 0;
  wi_disj : ∀ b b' x x' j, c !! b = Some x → c !! b' = Some x' → own x j = true → own x' j = true → b = b';
  wi_kept : ∀ j, 0 ≤ j < NUM → vfree j s = 0 → ∃ b x, c !! b = Some x ∧ own x j = true;
  wi_req : ∀ b x, c !! b = Some x → req_ok A (dv_taken v) U s b x;
  wi_head : ∀ h, h ∈ A ∨ h ∈ dv_taken v ∨ h ∈ U → ∃ b w i1 i2, c !! b = Some (w, Waits (h, i1, i2));
  wi_avail : window (vd_avail_ring s) (dv_last v) (vd_avail_idx s) A;
  wi_used : window (vd_used_ring s) (vd_used_idx s) (vd_used_idx_dev s) U;
  wi_places : places A (dv_taken v) U;
  wi_lock : vd_lock s = true ↔ i = true ∨ ∃ b w idx, c !! b = Some (w, Ready idx);
  wi_ready : ∀ b w idx, c !! b = Some (w, Ready idx) → i = false ∧ ∀ b' w' idx', c !! b' = Some (w', Ready idx') → b' = b;
  wi_bn : ∀ b, bblockno b s = bn b ∧ 0 ≤ bn b < 2 ^ 31
}.

(** ** Frames *)

Lemma own_head w i0 i1 i2 : own (w, Waits (i0, i1, i2)) i0 = true.
Proof. unfold own. cbn. by rewrite Z.eqb_refl. Qed.
Lemma own_head_ready w i0 i1 i2 : own (w, Ready (i0, i1, i2)) i0 = true.
Proof. unfold own. cbn. by rewrite Z.eqb_refl. Qed.

Lemma formatted_frame s s' b w i0 i1 i2 :
  (∀ j, isone [i0; i1; i2] j = true → vdesc j s' = vdesc j s ∧ vop j s' = vop j s ∧ vi_b (vinfo_of j s') = vi_b (vinfo_of j s)) →
  formatted s b w i0 i1 i2 → formatted s' b w i0 i1 i2.
Proof.
  intros H [Ht H0 H1 H2 Ho Hb]. assert (∀ j, j ∈ [i0; i1; i2] → isone [i0; i1; i2] j = true) as Hin by (intros j; apply isone_elem).
  destruct (H i0) as (E1 & E2 & E3), (H i1) as (E4 & _), (H i2) as (E5 & _); [apply Hin; set_solver..|]. split; congruence.
Qed.

(** What the requirements on a call read. *)
Lemma req_frame A T U A' T' U' s s' b x :
  req_ok A T U s b x →
  (∀ j, own x j = true → vdesc j s' = vdesc j s ∧ vop j s' = vop j s ∧ vinfo_of j s' = vinfo_of j s ∧
     (j ∈ A' ↔ j ∈ A) ∧ (j ∈ T' ↔ j ∈ T) ∧ (j ∈ U' ↔ j ∈ U)) →
  bdisk b s' = bdisk b s →
  (∀ idx, x.2 = Ready idx → vd_avail_idx s' = vd_avail_idx s ∧ vd_avail_ring s' = vd_avail_ring s) →
  req_ok A' T' U' s' b x.
Proof.
  intros H Hj Hb Hr. destruct x as [w [|[[i0 i1] i2]|[[i0 i1] i2]]]; [done|..].
  - destruct H as (Hf & Hs & Hd & Ha). destruct (Hj i0) as (_ & _ & Ei & _); [apply own_head_ready|]. destruct (Hr _ eq_refl) as [Er1 Er2]. unfold req_ok. cbn.
    rewrite Hb, Ei, Er1, Er2. split; [|done]. eapply formatted_frame; [|done]. intros j Hj'. destruct (Hj j Hj') as (-> & -> & -> & _). done.
  - destruct H as (Hf & H1 & H2 & H3). destruct (Hj i0) as (_ & _ & Ei & EA & ET & EU); [apply own_head|]. unfold req_ok. cbn. rewrite Hb, Ei, EA, ET, EU. split; [|done].
    eapply formatted_frame; [|done]. intros j Hj'. destruct (Hj j Hj') as (-> & -> & -> & _). done.
Qed.

Lemma served_frame s s' x : (∀ j, own x j = true → vi_status (vinfo_of j s') = vi_status (vinfo_of j s)) → served s' x = served s x.
Proof.
  intros H. destruct x as [w [|[[i0 i1] i2]|[[i0 i1] i2]]]; [done|..]; unfold served; cbn; rewrite (H i0); try done; [apply own_head_ready|apply own_head].
Qed.

(** ** Rings *)

Lemma short_list l : NoDup l → (∀ h, h ∈ l → 0 ≤ h < NUM) → (length l ≤ 8)%nat.
Proof.
  intros Hn Hl. change 8%nat with (length (seqZ 0 NUM)). apply submseteq_length, NoDup_submseteq; [done|]. intros h Hh. apply elem_of_seqZ. specialize (Hl h Hh). lia.
Qed.

Lemma ring_slot i (k : nat) (l : list Z) : 0 ≤ i → (k < length l)%nat → (length l < 8)%nat → (i + Z.of_nat k) mod NUM ≠ u16 (i + Z.of_nat (length l)) mod NUM.
Proof.
  intros Hi Hk Hl. unfold u16, NUM. change (2 ^ 16) with 65536.
  assert ((i + Z.of_nat (length l)) mod 65536 mod 8 = (i + Z.of_nat (length l)) mod 8) as ->. { rewrite <-Znumtheory.Zmod_div_mod; [done|lia|lia|by exists 8192]. }
  pose proof (Z.div_mod (i + Z.of_nat k) 8). pose proof (Z.div_mod (i + Z.of_nat (length l)) 8). pose proof (Z.mod_pos_bound (i + Z.of_nat k) 8). pose proof (Z.mod_pos_bound (i + Z.of_nat (length l)) 8). lia.
Qed.

(** The slot at the end of the window is written, and the end moves. *)
Lemma window_write ring i j l h : window ring i j l → (length l < 8)%nat → window (<[j mod NUM := h]> ring) i j l.
Proof.
  intros [He Hs Hj] Hl. split; [|done|done]. intros k g Hk. rewrite lookup_insert_ne; [by apply He|]. rewrite Hj. apply lookup_lt_Some in Hk. apply not_eq_sym, ring_slot; [lia|done|done].
Qed.
Lemma window_end ring i j l h : window ring i j l → ring !! (j mod NUM) = Some h → window ring i (u16 (j + 1)) (l ++ [h]).
Proof.
  intros [He Hs Hj] Hr. unfold u16 in *. change (2 ^ 16) with 65536 in *. split; [|done|].
  - intros k g Hk. apply lookup_app_Some in Hk as [Hk|[Hk1 Hk2]]; [by apply He|]. apply list_lookup_singleton_Some in Hk2 as [Hk2 <-]. replace k with (length l) by lia.
    rewrite Hj in Hr. unfold NUM in *. rewrite <-Znumtheory.Zmod_div_mod in Hr; [done|lia|lia|by exists 8192].
  - unfold u16. change (2 ^ 16) with 65536. rewrite Hj, length_app, Zplus_mod_idemp_l. cbn [length]. f_equal. lia.
Qed.
(** The first entry is read. *)
Lemma window_first ring i j l : window ring i j l → i ≠ j → (length l ≤ 8)%nat → ∃ h l', l = h :: l' ∧ ring !! (i mod NUM) = Some h ∧ window ring (u16 (i + 1)) j l'.
Proof.
  intros [He Hs Hj] Hne Hlen. unfold u16 in *. change (2 ^ 16) with 65536 in *. destruct l as [|h l].
  { rewrite Z.add_0_r, Z.mod_small in Hj by done. by destruct Hne. }
  exists h, l. split; [done|]. split; [by specialize (He 0%nat h eq_refl); rewrite Z.add_0_r in He|]. split.
  - intros k g Hk. specialize (He (S k) g Hk). rewrite <-He. f_equal. unfold NUM.
    rewrite <-(Zplus_mod_idemp_l ((i + 1) mod 65536)), <-Znumtheory.Zmod_div_mod, Zplus_mod_idemp_l; [f_equal; lia|lia|lia|by exists 8192].
  - apply Z.mod_pos_bound. lia.
  - unfold u16. change (2 ^ 16) with 65536. rewrite Hj, Zplus_mod_idemp_l. cbn [length]. f_equal. lia.
Qed.
Lemma window_empty ring i j l : window ring i j l → i = j → (length l ≤ 8)%nat → l = [].
Proof.
  intros [He Hs Hj] Heq Hlen. destruct l as [|h l]; [done|]. unfold u16 in Hj. change (2 ^ 16) with 65536 in *. cbn [length] in *.
  pose proof (Z.div_mod (i + Z.of_nat (S (length l))) 65536). pose proof (Z.mod_pos_bound (i + Z.of_nat (S (length l))) 65536). lia.
Qed.
End Inv.
