(* ===== verification/VirtioSteps.v ===== *)
(** * The steps of the disk driver

    Each step of the driver and of the device keeps the invariant and is a step
    of the specification. *)

From S2P Require Import Prelude Mem Layout PageAlloc BufIface Proc Trap Virtio VirtioInv.

Set Default Proof Using "Type".

Section Steps.
Context {D : Type} {MM : Mmio D}.
Implicit Types (s : vdisk D) (v : device) (c : gmap Z (bool * phase)) (x : bool * phase).
Context (bn : Z → Z).

(** ** Reading the invariant *)

Lemma head_call A U s v c i h :
  winv bn A U s v c i → h ∈ A ∨ h ∈ dv_taken v ∨ h ∈ U →
  ∃ b w i1 i2, c !! b = Some (w, Waits (h, i1, i2)) ∧ req_ok bn A (dv_taken v) U s b (w, Waits (h, i1, i2)) ∧ 0 ≤ h < NUM ∧ vfree h s = 0.
Proof.
  intros H Hh. destruct (wi_head _ _ _ _ _ _ _ H h Hh) as (b & w & i1 & i2 & E). exists b, w, i1, i2. split; [done|].
  pose proof (wi_req _ _ _ _ _ _ _ H b _ E) as Hr. split; [done|]. destruct Hr as ([[]] & _). split; [done|]. by eapply (wi_own _ _ _ _ _ _ _ H); [|apply own_head].
Qed.
Lemma head_unique A U s v c i h b b' x x' :
  winv bn A U s v c i → c !! b = Some x → c !! b' = Some x' → own x h = true → own x' h = true → b' = b ∧ x' = x.
Proof. intros H E E' Ho Ho'. assert (b' = b) as -> by by eapply (wi_disj _ _ _ _ _ _ _ H). split; [done|]. congruence. Qed.
Lemma list_short A U s v c i h l :
  winv bn A U s v c i → NoDup (h :: l) → 0 ≤ h < NUM → (∀ g, g ∈ l → g ∈ A ∨ g ∈ dv_taken v ∨ g ∈ U) → (length l < 8)%nat.
Proof.
  intros H Hn Hh Hl. assert (length (h :: l) ≤ 8)%nat as Hlen; [|cbn in Hlen; lia]. apply short_list; [done|]. intros g Hg. apply elem_of_cons in Hg as [->|Hg]; [done|].
  destruct (head_call _ _ _ _ _ _ g H (Hl g Hg)) as (_ & _ & _ & _ & _ & _ & Hg' & _). done.
Qed.
Lemma lists_short A U s v c i : winv bn A U s v c i → (length A ≤ 8)%nat ∧ (length U ≤ 8)%nat.
Proof.
  intros H. pose proof (wi_places _ _ _ _ _ _ _ H) as []. split; apply short_list; try done; intros h Hh.
  - destruct (head_call _ _ _ _ _ _ h H (or_introl Hh)) as (_ & _ & _ & _ & _ & _ & Hg & _). done.
  - destruct (head_call _ _ _ _ _ _ h H (or_intror (or_intror Hh))) as (_ & _ & _ & _ & _ & _ & Hg & _). done.
Qed.

(** What [rest] covers. *)
Record same_rest s s' : Prop := {
  sr_avail : vd_avail_idx s' = vd_avail_idx s ∧ vd_avail_ring s' = vd_avail_ring s;
  sr_used : vd_used_idx_dev s' = vd_used_idx_dev s ∧ vd_used_ring s' = vd_used_ring s ∧ vd_used_idx s' = vd_used_idx s;
  sr_info : ∀ j, vinfo_of j s' = vinfo_of j s;
  sr_op : ∀ j, vop j s' = vop j s;
  sr_bdisk : ∀ b, bdisk b s' = bdisk b s;
  sr_bn : ∀ b, bblockno b s' = bblockno b s;
  sr_data : vd_data s' = vd_data s ∧ vd_blockno s' = vd_blockno s
}.
Lemma rest_same s s' : rest s' = rest s → same_rest s s'.
Proof. intros [= E1 E2 E3 E4 E5 E6 E7 E8 E9 E10]. split; unfold vinfo_of, vop, bdisk, bblockno; intros; rewrite ?E1, ?E2, ?E3, ?E4, ?E5, ?E6, ?E7, ?E8, ?E9, ?E10; done. Qed.

Lemma no_ready A U s v c i b w idx : winv bn A U s v c i → vd_lock s = false → c !! b ≠ Some (w, Ready idx).
Proof.
  intros H Hl E. assert (vd_lock s = true); [|congruence]. apply (wi_lock _ _ _ _ _ _ _ H). right. by exists b, w, idx.
Qed.

(** ** No descriptors *)

Lemma winv_wants A U s s' v c b w :
  winv bn A U s v c false → vd_lock s = false → c !! b = None ∨ c !! b = Some (w, Wants) → same_rest s s' → vd_lock s' = false →
  (∀ j, vfree j s' = vfree j s) → (∀ j, vfree j s = 0 → vdesc j s' = vdesc j s) → winv bn A U s' v (<[b := (w, Wants)]> c) false.
Proof.
  intros H Hl Hc R L F X. assert (∀ b' x, <[b := (w, Wants)]> c !! b' = Some x → own x = (λ _, false) ∧ b' = b ∧ x = (w, Wants) ∨ c !! b' = Some x) as Hlk.
  { intros b' x [[<- <-]|[_ E]]%lookup_insert_Some; [by left|by right]. }
  assert (∀ b' x, c !! b' = Some x → x ≠ (w, Wants) → <[b := (w, Wants)]> c !! b' = Some x) as Hup.
  { intros b' x E Hx. rewrite lookup_insert_ne; [done|]. intros <-. destruct Hc as [Hc|Hc]; congruence. }
  destruct H as [W1 W2 W3 W4 W5 W6 W7 W8 W9 W10 W11 W12] eqn:EH. destruct R as [[R1 R2] (R3 & R4 & R5) R6 R7 R8 R9 R10]. split.
  - intros j. rewrite F. auto.
  - intros b' x j E Ho. rewrite F. destruct (Hlk b' x E) as [(Hn & _)|E']; [by rewrite Hn in Ho|by eapply W2].
  - intros b1 b2 x1 x2 j E1 E2 O1 O2. destruct (Hlk b1 x1 E1) as [(Hn & _)|E1']; [by rewrite Hn in O1|]. destruct (Hlk b2 x2 E2) as [(Hn & _)|E2']; [by rewrite Hn in O2|by eapply W3].
  - intros j Hj. rewrite F. intros Hf. destruct (W4 j Hj Hf) as (b' & x & E & Ho). exists b', x. split; [|done]. apply Hup; [done|]. by intros ->.
  - intros b' x E. destruct (Hlk b' x E) as [(_ & _ & ->)|E']; [done|]. eapply req_frame; [by apply W5| |done|done]. intros j Ho. rewrite X by by eapply W2. done.
  - intros h Hh. destruct (W6 h Hh) as (b' & w' & i1 & i2 & E). exists b', w', i1, i2. by apply Hup.
  - by rewrite R1, R2.
  - by rewrite R3, R4, R5.
  - done.
  - rewrite L. split; [done|]. intros [?|(b' & w' & idx & E)]; [done|]. destruct (Hlk _ _ E) as [(_ & _ & ?)|E']; [done|]. exfalso. by eapply no_ready.
  - intros b' w' idx E. destruct (Hlk _ _ E) as [(_ & _ & ?)|E']; [done|]. exfalso. by eapply no_ready.
  - intros b'. rewrite R9. apply W12.
Qed.

(** The holder of a buffer that no call is for uses it for another block. *)
Lemma winv_fill A U s v c i b n y :
  winv bn A U s v c i → c !! b = None → 0 ≤ n < 2 ^ 31 →
  winv (λ b', if b' =? b then n else bn b') A U (set_vd_blockno (<[b := n]> (vd_blockno s)) (set_vd_data y s)) v c i.
Proof.
  intros H Ec Hn. destruct H as [W1 W2 W3 W4 W5 W6 W7 W8 W9 W10 W11 W12]. split; try done.
  - intros b' x E. assert (b' ≠ b) as Hne by congruence. pose proof (W5 b' x E) as Hr. destruct x as [w' [|[[i0 i1] i2]|[[i0 i1] i2]]]; [done|..]; destruct Hr as (Hf & Hr); split; try done.
    all: destruct Hf as [F1 F2 F3 F4 F5 F6]; split; try done; by rewrite (proj2 (Z.eqb_neq b' b) Hne).
  - intros b'. unfold bblockno. cbn. destruct (Z.eqb_spec b' b) as [->|Hne]; [by rewrite lookup_insert_eq|]. rewrite lookup_insert_ne by done. apply W12.
Qed.

(** ** A request written down *)

Record prepared s s' (b : Z) (w : bool) (i0 i1 i2 : Z) : Prop := {
  pr_fmt : formatted bn s' b w i0 i1 i2;
  pr_status : vi_status (vinfo_of i0 s') = 255;
  pr_bdisk : bdisk b s' = 1;
  pr_idx : vd_avail_idx s' = vd_avail_idx s;
  pr_ring : vd_avail_ring s' = <[vd_avail_idx s mod NUM := i0]> (vd_avail_ring s);
  pr_desc : ∀ j, isone [i0; i1; i2] j = false → vdesc j s' = vdesc j s ∧ vop j s' = vop j s ∧ vinfo_of j s' = vinfo_of j s;
  pr_others : ∀ b', b' ≠ b → bdisk b' s' = bdisk b' s;
  pr_used : vd_used_idx_dev s' = vd_used_idx_dev s ∧ vd_used_ring s' = vd_used_ring s ∧ vd_used_idx s' = vd_used_idx s;
  pr_bn : ∀ b', bblockno b' s' = bblockno b' s;
  pr_data : vd_data s' = vd_data s ∧ vd_blockno s' = vd_blockno s;
  pr_free : ∀ j, vfree j s' = vfree j s;
  pr_lock : vd_lock s' = vd_lock s
}.

Lemma wp_rw_format b w i0 i1 i2 Q s :
  three i0 i1 i2 → bblockno b s = bn b → (∀ s', prepared s s' b w i0 i1 i2 → Q tt s') → wp (rw_format b w (i0, i1, i2)) Q s.
Proof.
  intros Ht Hb HQ. pose proof Ht as [N01 N02 N12 _ _ _]. unfold rw_format, put_desc, put_bdisk. repeat wp_step. rewrite Hb. apply HQ. split; try done.
  - split; [done|..]; unfold vdesc, vop, vinfo_of; cbn; rewrite ?lookup_insert_eq; try done; rewrite lookup_insert_ne by done; rewrite ?lookup_insert_eq; try done.
    rewrite lookup_insert_ne by done. by rewrite lookup_insert_eq.
  - unfold vinfo_of. cbn. rewrite !lookup_insert_eq. done.
  - unfold bdisk. cbn. by rewrite lookup_insert_eq.
  - intros j Hj%isone_false. rewrite !not_elem_of_cons in Hj. destruct Hj as (? & ? & ? & _). unfold vdesc, vop, vinfo_of. cbn. by rewrite !lookup_insert_ne.
  - intros b' Hb'. unfold bdisk. cbn. by rewrite lookup_insert_ne.
Qed.

Lemma winv_prepare A U s s' v c b w i0 i1 i2 :
  winv bn A U s v c false → vd_lock s = false → (c !! b = None ∨ c !! b = Some (w, Wants)) → three i0 i1 i2 →
  vfree i0 s = 1 → vfree i1 s = 1 → vfree i2 s = 1 →
  (∀ s1, (∀ j, vfree j s1 = if isone [i0; i1; i2] j then 0 else vfree j s) → (∀ j, vdesc j s1 = vdesc j s) → same_rest s s1 → vd_lock s1 = true → prepared s1 s' b w i0 i1 i2 →
  winv bn A U s' v (<[b := (w, Ready (i0, i1, i2))]> c) false).
Proof.
  intros H Hl Hc Ht F0 F1 F2 s1 F X R L P. set (x0 := (w, Ready (i0, i1, i2))).
  assert (∀ b' x, <[b := x0]> c !! b' = Some x → b' = b ∧ x = x0 ∨ b' ≠ b ∧ c !! b' = Some x) as Hlk by (intros b' x [[<- <-]|[? E]]%lookup_insert_Some; [by left|by right]).
  assert (∀ b' x, c !! b' = Some x → x ≠ (w, Wants) → b' ≠ b ∧ <[b := x0]> c !! b' = Some x) as Hup.
  { intros b' x E Hx. assert (b' ≠ b) as Hb by (intros ->; destruct Hc; congruence). by rewrite lookup_insert_ne. }
  assert (∀ j, vfree j s' = if isone [i0; i1; i2] j then 0 else vfree j s) as Ff by (intros j; by rewrite (pr_free _ _ _ _ _ _ _ P), F).
  assert (∀ b' x j, c !! b' = Some x → own x j = true → isone [i0; i1; i2] j = false) as Hnew.
  { intros b' x j E Ho. pose proof (wi_own _ _ _ _ _ _ _ H b' x j E Ho) as Hf. destruct (isone _ j) eqn:Ej; [|done]. exfalso. apply isone_elem in Ej. rewrite !elem_of_cons, elem_of_nil in Ej. destruct Ej as [->|[->|[->|[]]]]; congruence. }
  assert (∀ b' x, b' ≠ b → c !! b' = Some x → req_ok bn A (dv_taken v) U s' b' x) as Hoth.
  { intros b' x Hne E. eapply req_frame; [by apply (wi_req _ _ _ _ _ _ _ H)| |by rewrite (pr_others _ _ _ _ _ _ _ P), (sr_bdisk _ _ R)|].
    - intros j Ho. destruct (pr_desc _ _ _ _ _ _ _ P j) as (-> & -> & ->); [by eapply Hnew|]. by rewrite X, (sr_op _ _ R), (sr_info _ _ R).
    - intros idx Ei. destruct x as [w' ph]. cbn in Ei. subst ph. exfalso. by eapply no_ready. }
  assert (i0 ∉ A) as HiA. { intros Hin. destruct (head_call _ _ _ _ _ _ i0 H (or_introl Hin)) as (_ & _ & _ & _ & _ & _ & _ & Hz). congruence. }
  assert (length A < 8)%nat as HlA. { apply (list_short A U s v c false i0); [done|apply NoDup_cons; split; [done|apply (wi_places _ _ _ _ _ _ _ H)]|apply Ht|auto]. }
  destruct (sr_avail _ _ R) as [Ra1 Ra2], (sr_used _ _ R) as (Ru1 & Ru2 & Ru3), (pr_used _ _ _ _ _ _ _ P) as (Pu1 & Pu2 & Pu3).
  pose proof (pr_idx _ _ _ _ _ _ _ P) as Pi. pose proof (pr_ring _ _ _ _ _ _ _ P) as Pr. rewrite Ra1 in Pi, Pr. rewrite Ra2 in Pr.
  split.
  - intros j. rewrite Ff. destruct (isone _ j); [by left|apply (wi_free _ _ _ _ _ _ _ H)].
  - intros b' x j E Ho. rewrite Ff. destruct (Hlk b' x E) as [[-> ->]|[_ E']]; [unfold own in Ho; cbn [x0 snd] in Ho; by rewrite Ho|].
    rewrite (Hnew _ _ _ E' Ho). by eapply (wi_own _ _ _ _ _ _ _ H).
  - intros b1 b2 x1 x2 j E1 E2 O1 O2. destruct (Hlk b1 x1 E1) as [[-> ->]|[_ E1']], (Hlk b2 x2 E2) as [[-> ->]|[_ E2']]; [done|..|by eapply (wi_disj _ _ _ _ _ _ _ H)].
    + pose proof (Hnew _ _ _ E2' O2). unfold own in O1. cbn [x0 snd] in O1. congruence.
    + pose proof (Hnew _ _ _ E1' O1). unfold own in O2. cbn [x0 snd] in O2. congruence.
  - intros j Hj. rewrite Ff. destruct (isone _ j) eqn:Ej; intros Hf; [exists b, x0; by rewrite lookup_insert_eq|].
    destruct (wi_kept _ _ _ _ _ _ _ H j Hj Hf) as (b' & x & E & Ho). exists b', x. split; [|done]. apply Hup; [done|]. by intros ->.
  - intros b' x E. destruct (Hlk b' x E) as [[-> ->]|[Hne E']]; [|by apply Hoth]. unfold req_ok, x0. cbn. rewrite Pr, Pi, lookup_insert_eq. by destruct P.
  - intros h Hh. destruct (wi_head _ _ _ _ _ _ _ H h Hh) as (b' & w' & j1 & j2 & E). exists b', w', j1, j2. by apply Hup.
  - rewrite Pr, Pi. apply window_write; [|done]. apply (wi_avail _ _ _ _ _ _ _ H).
  - rewrite Pu1, Pu2, Pu3, Ru1, Ru2, Ru3. apply (wi_used _ _ _ _ _ _ _ H).
  - apply (wi_places _ _ _ _ _ _ _ H).
  - rewrite (pr_lock _ _ _ _ _ _ _ P), L. split; [|done]. intros _. right. exists b, w, (i0, i1, i2). by rewrite lookup_insert_eq.
  - intros b' w' idx E. split; [done|]. assert (∀ b1 w1 idx1, <[b := x0]> c !! b1 = Some (w1, Ready idx1) → b1 = b) as Hone.
    { intros b1 w1 idx1 E1. destruct (Hlk _ _ E1) as [[-> _]|[_ E1']]; [done|]. exfalso. by eapply no_ready. }
    intros b1 w1 idx1 E1. rewrite (Hone _ _ _ E1). symmetry. by eapply Hone.
  - intros b'. rewrite (pr_bn _ _ _ _ _ _ _ P), (sr_bn _ _ R). apply (wi_bn _ _ _ _ _ _ _ H).
Qed.

(** ** The other steps *)

(** The calls and their descriptors are the same. *)
Lemma winv_update A U A' U' s s' v v' c i i' :
  winv bn A U s v c i → (∀ j, vfree j s' = vfree j s) → (∀ b, bblockno b s' = bblockno b s) →
  (∀ b x, c !! b = Some x → req_ok bn A' (dv_taken v') U' s' b x) →
  (∀ h, h ∈ A' ∨ h ∈ dv_taken v' ∨ h ∈ U' → h ∈ A ∨ h ∈ dv_taken v ∨ h ∈ U) →
  window (vd_avail_ring s') (dv_last v') (vd_avail_idx s') A' → window (vd_used_ring s') (vd_used_idx s') (vd_used_idx_dev s') U' →
  places A' (dv_taken v') U' → (vd_lock s' = true ↔ i' = true ∨ ∃ b w idx, c !! b = Some (w, Ready idx)) →
  (i' = true → ∀ b w idx, c !! b ≠ Some (w, Ready idx)) → winv bn A' U' s' v' c i'.
Proof.
  intros H F B Hr Hh Ha Hu Hp Hl Hi. split; try done.
  - intros j. rewrite F. apply (wi_free _ _ _ _ _ _ _ H).
  - intros b x j E Ho. rewrite F. by eapply (wi_own _ _ _ _ _ _ _ H).
  - apply (wi_disj _ _ _ _ _ _ _ H).
  - intros j Hj. rewrite F. by apply (wi_kept _ _ _ _ _ _ _ H).
  - intros h Hh'. by apply (wi_head _ _ _ _ _ _ _ H), Hh.
  - intros b w idx E. split; [destruct i'; [|done]; exfalso; by eapply Hi|]. by apply (wi_ready _ _ _ _ _ _ _ H b w idx).
  - intros b. rewrite B. apply (wi_bn _ _ _ _ _ _ _ H).
Qed.

(** Only the lock, the interrupt's loop and the device's registers change. *)
Lemma winv_lock A U s v c i i' l d :
  winv bn A U s v c i → (l = true ↔ i' = true ∨ ∃ b w idx, c !! b = Some (w, Ready idx)) → (i' = true → ∀ b w idx, c !! b ≠ Some (w, Ready idx)) →
  winv bn A U (set_vd_dev d (set_vd_lock l s)) v c i'.
Proof.
  intros H Hl Hi. apply (winv_update A U A U s _ v v c i); try done; [intros b x E; eapply req_frame; [by apply (wi_req _ _ _ _ _ _ _ H)|done|done|done]|apply (wi_avail _ _ _ _ _ _ _ H)|apply (wi_used _ _ _ _ _ _ _ H)|apply (wi_places _ _ _ _ _ _ _ H)].
Qed.

Lemma winv_submit A U s v c b w i0 i1 i2 d :
  winv bn A U s v c false → c !! b = Some (w, Ready (i0, i1, i2)) →
  winv bn (A ++ [i0]) U (set_vd_lock false (set_vd_dev d (set_vd_avail_idx (u16 (vd_avail_idx s + 1)) s))) v (<[b := (w, Waits (i0, i1, i2))]> c) false.
Proof.
  intros H Ec. set (x0 := (w, Waits (i0, i1, i2))). set (s' := set_vd_lock false _).
  pose proof (wi_req _ _ _ _ _ _ _ H b _ Ec) as (Hf & Hst & Hbd & Hrg). pose proof (wi_ready _ _ _ _ _ _ _ H b w _ Ec) as [_ Huniq].
  assert (∀ b' x, <[b := x0]> c !! b' = Some x → b' = b ∧ x = x0 ∨ b' ≠ b ∧ c !! b' = Some x) as Hlk by (intros b' x [[<- <-]|[? E]]%lookup_insert_Some; [by left|by right]).
  assert (∀ j, own (w, Ready (i0, i1, i2)) j = own x0 j) as Eown by done.
  assert (∀ b' x j, b' ≠ b → c !! b' = Some x → own x j = true → own x0 j = false) as Hdis.
  { intros b' x j Hne E Ho. destruct (own x0 j) eqn:E0; [|done]. rewrite <-Eown in E0. destruct Hne. by eapply (wi_disj _ _ _ _ _ _ _ H). }
  assert (∀ h, h ∈ A ∨ h ∈ dv_taken v ∨ h ∈ U → h ≠ i0) as Hnh.
  { intros h Hh ->. destruct (wi_head _ _ _ _ _ _ _ H i0 Hh) as (b' & w' & j1 & j2 & E). destruct (head_unique _ _ _ _ _ _ i0 _ _ _ _ H Ec E) as [_ [=]]; [apply own_head_ready|apply own_head]. }
  assert (∀ b' x, c !! b' = Some x → (∀ idx, x.2 ≠ Ready idx) → <[b := x0]> c !! b' = Some x) as Hup.
  { intros b' x E Hx. rewrite lookup_insert_ne; [done|]. intros <-. rewrite Ec in E. injection E as <-. by apply (Hx (i0, i1, i2)). }
  pose proof (wi_places _ _ _ _ _ _ _ H) as []. split.
  - apply (wi_free _ _ _ _ _ _ _ H).
  - intros b' x j E Ho. destruct (Hlk b' x E) as [[-> ->]|[_ E']]; [rewrite <-Eown in Ho|]; by eapply (wi_own _ _ _ _ _ _ _ H).
  - intros b1 b2 x1 x2 j E1 E2 O1 O2. destruct (Hlk b1 x1 E1) as [[-> ->]|[N1 E1']], (Hlk b2 x2 E2) as [[-> ->]|[N2 E2']]; [done| | |by eapply (wi_disj _ _ _ _ _ _ _ H)].
    + rewrite (Hdis _ _ _ N2 E2' O2) in O1. done.
    + rewrite (Hdis _ _ _ N1 E1' O1) in O2. done.
  - intros j Hj Hfr. destruct (wi_kept _ _ _ _ _ _ _ H j Hj Hfr) as (b' & x & E & Ho). destruct (decide (b' = b)) as [->|Hne].
    + rewrite Ec in E. injection E as <-. exists b, x0. by rewrite lookup_insert_eq.
    + exists b', x. by rewrite lookup_insert_ne.
  - intros b' x E. destruct (Hlk b' x E) as [[-> ->]|[Hne E']].
    + split; [by apply (formatted_frame bn s)|]. split; [intros _; exact (conj Hst Hbd)|]. split; [intros Hu; destruct (Hnh i0); auto|]. intros Hn. destruct Hn. apply elem_of_app. right. by left.
    + eapply req_frame; [by apply (wi_req _ _ _ _ _ _ _ H)| |done|].
      * intros j Ho. split_and!; try done. rewrite elem_of_app, list_elem_of_singleton. split; [|by left]. intros [?| ->]; [done|]. specialize (Hdis _ _ _ Hne E' Ho). unfold x0 in Hdis. by rewrite own_head in Hdis.
      * intros idx Ei. destruct x as [w' ph]. cbn in Ei. subst ph. by destruct Hne, (Huniq _ _ _ E').
  - intros h Hh. destruct (decide (h = i0)) as [->|Hne]; [exists b, w, i1, i2; by rewrite lookup_insert_eq|].
    destruct (wi_head _ _ _ _ _ _ _ H h) as (b' & w' & j1 & j2 & E); [rewrite elem_of_app, list_elem_of_singleton in Hh; naive_solver|]. exists b', w', j1, j2. by apply Hup.
  - apply window_end; [apply (wi_avail _ _ _ _ _ _ _ H)|done].
  - apply (wi_used _ _ _ _ _ _ _ H).
  - split; try done.
    + apply NoDup_app. split; [done|]. split; [|apply NoDup_singleton]. intros h Hh ->%list_elem_of_singleton. by apply (Hnh i0); auto.
    + intros h [Hh| ->%list_elem_of_singleton]%elem_of_app; [by apply pl_AT|]. intros Ht. by apply (Hnh i0); auto.
    + intros h [Hh| ->%list_elem_of_singleton]%elem_of_app; [by apply pl_AU|]. intros Ht. by apply (Hnh i0); auto.
  - split; [done|]. intros [?|(b' & w' & idx & E)]; [done|]. destruct (Hlk _ _ E) as [[_ ?]|[Hne E']]; [done|]. by destruct Hne, (Huniq _ _ _ E').
  - intros b' w' idx E. destruct (Hlk _ _ E) as [[_ ?]|[Hne E']]; [done|]. by destruct Hne, (Huniq _ _ _ E').
  - apply (wi_bn _ _ _ _ _ _ _ H).
Qed.

(** The request is done: its descriptors are free again. *)
Lemma winv_done A U s s' v c b w i0 i1 i2 :
  winv bn A U s v c false → vd_lock s = false → c !! b = Some (w, Waits (i0, i1, i2)) → bdisk b s = 0 →
  (∀ j, vfree j s' = if isone [i0; i1; i2] j then 1 else vfree j s) → vd_lock s' = false →
  (∀ j, isone [i0; i1; i2] j = false → vdesc j s' = vdesc j s ∧ vop j s' = vop j s ∧ vinfo_of j s' = vinfo_of j s) →
  (∀ b', bdisk b' s' = bdisk b' s) → (∀ b', bblockno b' s' = bblockno b' s) →
  vd_avail_idx s' = vd_avail_idx s ∧ vd_avail_ring s' = vd_avail_ring s →
  vd_used_idx_dev s' = vd_used_idx_dev s ∧ vd_used_ring s' = vd_used_ring s ∧ vd_used_idx s' = vd_used_idx s →
  winv bn A U s' v (delete b c) false.
Proof.
  intros H Hl Ec Hb F L X B Bn [Ea1 Ea2] (Eu1 & Eu2 & Eu3). set (x0 := (w, Waits (i0, i1, i2))) in *. pose proof (wi_req _ _ _ _ _ _ _ H b _ Ec) as (Hf & HA & HU & _).
  assert (∀ h, h ∈ A ∨ h ∈ dv_taken v ∨ h ∈ U → h ≠ i0) as Hnh.
  { intros h Hh ->. assert (bdisk b s = 1) as Hb1; [|congruence]. destruct Hh as [Hh|[Hh|Hh]]; [apply HA; by left|apply HA; by right|by apply HU]. }
  assert (∀ b' x, delete b c !! b' = Some x → b' ≠ b ∧ c !! b' = Some x) as Hlk by (intros b' x [? E]%lookup_delete_Some; split; [done|done]).
  assert (∀ b' x j, b' ≠ b → c !! b' = Some x → own x j = true → isone [i0; i1; i2] j = false) as Hdis.
  { intros b' x j Hne E Ho. destruct (isone _ j) eqn:E0; [|done]. destruct Hne. by eapply (wi_disj _ _ _ _ _ _ _ H). }
  split.
  - intros j. rewrite F. destruct (isone _ j); [by right|apply (wi_free _ _ _ _ _ _ _ H)].
  - intros b' x j [Hne E]%Hlk Ho. rewrite F, (Hdis _ _ _ Hne E Ho). by eapply (wi_own _ _ _ _ _ _ _ H).
  - intros b1 b2 x1 x2 j [_ E1]%Hlk [_ E2]%Hlk O1 O2. by eapply (wi_disj _ _ _ _ _ _ _ H).
  - intros j Hj. rewrite F. destruct (isone _ j) eqn:Ej; [done|]. intros Hfr. destruct (wi_kept _ _ _ _ _ _ _ H j Hj Hfr) as (b' & x & E & Ho). exists b', x.
    rewrite lookup_delete_ne; [done|]. intros <-. rewrite Ec in E. injection E as <-. unfold own in Ho. cbn [x0 snd] in Ho. congruence.
  - intros b' x [Hne E]%Hlk. eapply req_frame; [by apply (wi_req _ _ _ _ _ _ _ H)| |done|done]. intros j Ho. destruct (X j) as (-> & -> & ->); [by eapply Hdis|done].
  - intros h Hh. destruct (wi_head _ _ _ _ _ _ _ H h Hh) as (b' & w' & j1 & j2 & E). exists b', w', j1, j2. rewrite lookup_delete_ne; [done|]. intros <-. rewrite Ec in E. injection E as -> <- -> ->. by apply (Hnh i0).
  - rewrite Ea1, Ea2. apply (wi_avail _ _ _ _ _ _ _ H).
  - rewrite Eu1, Eu2, Eu3. apply (wi_used _ _ _ _ _ _ _ H).
  - apply (wi_places _ _ _ _ _ _ _ H).
  - rewrite L. split; [done|]. intros [?|(b' & w' & idx & [_ E]%Hlk)]; [done|]. exfalso. by eapply no_ready.
  - intros b' w' idx [_ E]%Hlk. exfalso. by eapply no_ready.
  - intros b'. rewrite Bn. apply (wi_bn _ _ _ _ _ _ _ H).
Qed.

(** The interrupt passes on that a request is done. *)
Lemma winv_intr A U h s v c woken :
  winv bn A (h :: U) s v c true →
  vi_status (vinfo_of h s) = 0 ∧ winv bn A U (set_vd_used_idx (u16 (vd_used_idx s + 1)) (set_vd_woken woken (set_vd_bdisk (<[vi_b (vinfo_of h s) := 0]> (vd_bdisk s)) s))) v c true.
Proof.
  intros H. set (s' := set_vd_used_idx _ _). destruct (head_call _ _ _ _ _ _ h H) as (b & w & i1 & i2 & Ec & (Hf & HA & HU & _) & _ & _); [right; right; by left|].
  destruct HU as [Hst Hb1]; [by left|]. split; [done|]. pose proof (wi_places _ _ _ _ _ _ _ H) as [PA PU PAT PAU PTU]. apply NoDup_cons in PU as [PhU PU].
  assert (∀ b', b' ≠ b → bdisk b' s' = bdisk b' s) as Hbo. { intros b' Hne. unfold bdisk, s'. cbn. by rewrite (fm_b _ _ _ _ _ _ _ Hf), lookup_insert_ne. }
  assert (∀ g, g ≠ h → g ∈ U ↔ g ∈ h :: U) as HgU. { intros g Hg. rewrite elem_of_cons. naive_solver. }
  apply (winv_update A (h :: U) A U s _ v v c true); try done.
  - intros b' x E. destruct (decide (b' = b)) as [->|Hne].
    + rewrite Ec in E. injection E as <-. split; [by apply (formatted_frame bn s)|]. assert (h ∉ A) by (intros Hin; destruct (PAU h Hin); by left). assert (h ∉ dv_taken v) by (intros Hin; destruct (PTU h Hin); by left).
      split; [by intros [?|?]|]. split; [done|]. intros _ _ _. split; [done|]. unfold bdisk, s'. cbn. by rewrite (fm_b _ _ _ _ _ _ _ Hf), lookup_insert_eq.
    + eapply req_frame; [by apply (wi_req _ _ _ _ _ _ _ H)| |by apply Hbo|done]. intros j Ho. split_and!; try done. apply HgU. intros ->. destruct Hne. eapply (wi_disj _ _ _ _ _ _ _ H); [done|exact Ec|done|apply own_head].
  - intros g [?|[?|?]]; [auto|auto|right; right; by right].
  - apply (wi_avail _ _ _ _ _ _ _ H).
  - destruct (lists_short _ _ _ _ _ _ H) as [_ Hlu]. pose proof (wi_used _ _ _ _ _ _ _ H) as Hw. destruct (decide (vd_used_idx s = vd_used_idx_dev s)) as [E|Hne].
    { pose proof (window_empty _ _ _ _ Hw E Hlu). done. }
    destruct (window_first _ _ _ _ Hw Hne Hlu) as (h' & l' & [= <- <-] & _ & Hw'). done.
  - split; try done; [intros g Hg Hg'; apply (PAU g Hg); by right|intros g Hg Hg'; apply (PTU g Hg); by right].
  - apply (wi_lock _ _ _ _ _ _ _ H).
  - intros _ b' w' idx E. by destruct (wi_ready _ _ _ _ _ _ _ H _ _ _ E).
Qed.

(** The device takes a request. *)
Lemma winv_fetch A U s v c i :
  winv bn A U s v c i → dv_last v ≠ vd_avail_idx s →
  ∃ A', winv bn A' U s (Device (u16 (dv_last v + 1)) ({[default 0 (vd_avail_ring s !! (dv_last v mod NUM))]} ∪ dv_taken v) (dv_img v)) c i.
Proof.
  intros H Hne. destruct (lists_short _ _ _ _ _ _ H) as [HlA _]. destruct (window_first _ _ _ _ (wi_avail _ _ _ _ _ _ _ H) Hne HlA) as (h & A' & -> & Er & Hw). exists A'. rewrite Er. cbn [default].
  change (default 0 (Some h)) with h. pose proof (wi_places _ _ _ _ _ _ _ H) as [PA PU PAT PAU PTU]. apply NoDup_cons in PA as [PhA PA].
  apply (winv_update (h :: A') U A' U s s v _ c i); try done; cbn.
  - intros b x E. destruct x as [w' [|idx|[[j0 j1] j2]]]; [done|apply (wi_req _ _ _ _ _ _ _ H b _ E)|]. destruct (wi_req _ _ _ _ _ _ _ H b _ E) as (Hf & HA & HU & HN). split; [done|].
    split; [intros Hin; apply HA; set_solver|]. split; [done|]. intros N1 N2 N3. apply HN; set_solver.
  - set_solver.
  - apply (wi_used _ _ _ _ _ _ _ H).
  - split; [done|done|set_solver|set_solver|]. intros g [->%elem_of_singleton|Hg]%elem_of_union; [apply PAU; by left|by apply PTU].
  - apply (wi_lock _ _ _ _ _ _ _ H).
  - intros -> b w' idx E. by destruct (wi_ready _ _ _ _ _ _ _ H _ _ _ E).
Qed.

(** The device completes a request: what it reads is what the driver meant. *)
Definition completed (h b : Z) (w : bool) s v : vdisk D * device :=
  let m := move w (bn b) b (dv_img v) (vd_data s) in
  (set_vd_used_idx_dev (u16 (vd_used_idx_dev s + 1))
     (set_vd_used_ring (<[vd_used_idx_dev s mod NUM := h]> (vd_used_ring s))
        (set_vd_info (<[h := VInfo (vi_b (vinfo_of h s)) 0]> (vd_info s)) (set_vd_data m.2 s))),
   Device (dv_last v) (dv_taken v ∖ {[h]}) m.1).

Lemma complete_formatted h b w i1 i2 s v : formatted bn s b w h i1 i2 → 0 ≤ bn b < 2 ^ 31 → complete h s v = Some (completed h b w s v).
Proof.
  intros [_ E0 E1 E2 Eo _] Hb. unfold complete. rewrite E0. cbn [vq_next vq_addr vq_len vq_flags]. rewrite E1. cbn [vq_next vq_addr vq_len vq_flags]. rewrite E2. cbn [vq_next vq_addr vq_len vq_flags]. rewrite Eo.
  cbn [vr_type vr_sector]. change (BSIZE / 512) with 2. rewrite u32_small by lia. rewrite Z.mod_mul, Z.div_mul by done. by destruct w.
Qed.

Lemma winv_complete A U s v c i h b w i1 i2 :
  winv bn A U s v c i → h ∈ dv_taken v → c !! b = Some (w, Waits (h, i1, i2)) →
  winv bn A (U ++ [h]) (completed h b w s v).1 (completed h b w s v).2 c i.
Proof.
  intros H Ht Ec. set (s' := (completed h b w s v).1). set (v' := (completed h b w s v).2). destruct (wi_req _ _ _ _ _ _ _ H b _ Ec) as (Hf & HA & _). destruct HA as [_ Hb1]; [by right|].
  pose proof (wi_places _ _ _ _ _ _ _ H) as [PA PU PAT PAU PTU]. assert (h ∉ A) as HhA by (intros Hin; by apply (PAT h)). assert (h ∉ U) as HhU by by apply PTU.
  assert (∀ j, j ≠ h → vinfo_of j s' = vinfo_of j s) as Hio. { intros j Hj. unfold vinfo_of, s'. cbn. by rewrite lookup_insert_ne. }
  assert (vinfo_of h s' = VInfo (vi_b (vinfo_of h s)) 0) as Hih. { unfold vinfo_of at 1, s'. cbn. by rewrite lookup_insert_eq. }
  assert (∀ b' x j, b' ≠ b → c !! b' = Some x → own x j = true → j ≠ h) as Hdis.
  { intros b' x j Hne E Ho ->. destruct Hne. eapply (wi_disj _ _ _ _ _ _ _ H); [done|exact Ec|done|apply own_head]. }
  apply (winv_update A U A (U ++ [h]) s s' v v' c i); try done.
  - intros b' x E. destruct (decide (b' = b)) as [->|Hne].
    + rewrite Ec in E. injection E as <-. split.
      { eapply formatted_frame; [|exact Hf]. intros j _. split_and!; try done. destruct (decide (j = h)) as [->|Hj]; [by rewrite Hih|by rewrite Hio]. }
      split; [intros [?|Hn]; [done|]; unfold v' in Hn; cbn in Hn; set_solver|]. split; [intros _; by rewrite Hih|]. intros _ _ Hn. destruct Hn. apply elem_of_app. right. by left.
    + eapply req_frame; [by apply (wi_req _ _ _ _ _ _ _ H)| |done|done]. intros j Ho. pose proof (Hdis _ _ _ Hne E Ho) as Hj. rewrite Hio by done. split_and!; try done.
      * unfold v'. cbn. set_solver.
      * rewrite elem_of_app, list_elem_of_singleton. naive_solver.
  - intros g. unfold v'. cbn. rewrite elem_of_app, list_elem_of_singleton. set_solver.
  - apply (wi_avail _ _ _ _ _ _ _ H).
  - apply window_end; [|unfold s'; cbn; by rewrite lookup_insert_eq]. apply window_write; [apply (wi_used _ _ _ _ _ _ _ H)|].
    apply (list_short A U s v c i h); [done|by apply NoDup_cons|apply Hf|auto].
  - split; unfold v'; cbn; [done|apply NoDup_app; split; [done|split; [|apply NoDup_singleton]]; by intros g Hg ->%list_elem_of_singleton|set_solver|..].
    + intros g Hg. rewrite elem_of_app, list_elem_of_singleton. intros [?| ->]; [by apply (PAU g)|done].
    + intros g [Hg Hgh]%elem_of_difference. rewrite elem_of_app, list_elem_of_singleton. intros [?| ->]; [by apply (PTU g)|]. by apply Hgh, elem_of_singleton.
  - apply (wi_lock _ _ _ _ _ _ _ H).
  - intros -> b' w' idx E. by destruct (wi_ready _ _ _ _ _ _ _ H _ _ _ E).
Qed.
End Steps.
