(* ===== verification/VirtioProps.v ===== *)
(** * The disk driver does what it promises

    The runs of the driver with its callers, its interrupts and the device are
    runs of the specification of [VirtioInv]. *)

From S2P Require Import Prelude Wlp Mem Layout PageAlloc BufIface Proc Trap Virtio VirtioInv VirtioSteps.

Set Default Proof Using "Type".

Section Props.
Context {D : Type} {MM : Mmio D}.
Implicit Types (s : vdisk D) (v : device) (c : gmap Z (bool * phase)) (x : bool * phase).
Context (bn : Z → Z).
(** Loads and stores of the device's registers return. *)
Definition regs_ok : Prop :=
  (∀ a (d : D), wp (mmio_ld32 a) (λ _ _, True) d) ∧ (∀ a y (d : D), wp (mmio_st32 a y) (λ _ _, True) d).
Context (Hregs : regs_ok).

(** What the specification sees of a state. *)
Definition calls s c : gmap Z (bool * bool) := (λ x, (x.1, served s x)) <$> c.
Definition seen s v c : disks := Disks (dv_img v) (vd_data s) (vd_blockno s) (calls s c).

Lemma calls_same s s' c : (∀ b x, c !! b = Some x → served s' x = served s x) → calls s' c = calls s c.
Proof. intros H. apply map_fmap_ext. intros b x E. by rewrite (H b x E). Qed.
Lemma calls_insert s s' c b x : (∀ b' x', b' ≠ b → c !! b' = Some x' → served s' x' = served s x') → calls s' (<[b := x]> c) = <[b := (x.1, served s' x)]> (calls s c).
Proof.
  intros H. unfold calls. rewrite fmap_insert. apply map_eq. intros b'. destruct (decide (b' = b)) as [->|Hne]; [by rewrite !lookup_insert_eq|].
  rewrite !lookup_insert_ne, !lookup_fmap by done. destruct (c !! b') as [x'|] eqn:E; [|done]. cbn. by rewrite (H b' x').
Qed.
Lemma calls_delete s s' c b : (∀ b' x', b' ≠ b → c !! b' = Some x' → served s' x' = served s x') → calls s' (delete b c) = delete b (calls s c).
Proof.
  intros H. unfold calls. rewrite fmap_delete. apply map_eq. intros b'. destruct (decide (b' = b)) as [->|Hne]; [by rewrite !lookup_delete_eq|].
  rewrite !lookup_delete_ne, !lookup_fmap by done. destruct (c !! b') as [x'|] eqn:E; [|done]. cbn. by rewrite (H b' x').
Qed.

(** [s] with another lock: what the driver reads is the same. *)
Lemma same_rest_lock s l : same_rest s (set_vd_lock l s).
Proof. by split. Qed.
Lemma same_rest_trans s1 s2 s3 : same_rest s1 s2 → same_rest s2 s3 → same_rest s1 s3.
Proof. intros [[A1 A2] (A3 & A4 & A5) A6 A7 A8 A9 [A10 A11]] [[B1 B2] (B3 & B4 & B5) B6 B7 B8 B9 [B10 B11]]. split; intros; split_and?; congruence. Qed.

(** ** [virtio_disk_rw] *)

Definition phase_of (r : option (Z * Z * Z)) : phase := match r with Some idx => Ready idx | None => Wants end.

Lemma wp_rw_start A U s v c b w :
  winv bn A U s v c false → vd_lock s = false → c !! b = None ∨ c !! b = Some (w, Wants) →
  wp (rw_start b w) (λ r s', (∃ A' U', winv bn A' U' s' v (<[b := (w, phase_of r)]> c) false) ∧
    seen s' v (<[b := (w, phase_of r)]> c) = Disks (dv_img v) (vd_data s) (vd_blockno s) (<[b := (w, false)]> (calls s c))) s.
Proof.
  intros H Hl Hc. unfold rw_start, vacquire, vrelease. wp_step. rewrite wp_acquire. split; [done|]. set (s0 := set_vd_lock true s). wp_step. apply wp_alloc3_desc.
  - apply (wi_free _ _ _ _ _ _ _ H).
  - intros i0 i1 i2 s1 Ht F0 F1 F2 R1 L1 V1 X1. wp_step. pose proof (same_rest_trans _ _ _ (same_rest_lock s true) (rest_same _ _ R1)) as R. apply (wp_rw_format bn); [done|rewrite (sr_bn _ _ R); apply (wi_bn _ _ _ _ _ _ _ H)|].
    intros s2 P. wp_step. split; [exists A, U; by eapply winv_prepare|]. unfold seen. destruct (pr_data _ _ _ _ _ _ _ _ P) as [-> ->], (sr_data _ _ R) as [-> ->]. f_equal.
    rewrite (calls_insert s s2).
    + unfold served. cbn. by rewrite (pr_status _ _ _ _ _ _ _ _ P).
    + intros b' x' Hne E. apply served_frame. intros j Ho. destruct (pr_desc _ _ _ _ _ _ _ _ P j) as (_ & _ & ->); [|by rewrite (sr_info _ _ R)].
      pose proof (wi_own _ _ _ _ _ _ _ H b' x' j E Ho) as Hf. apply isone_false. rewrite !elem_of_cons, elem_of_nil. intros [->|[->|[->|[]]]]; change (vfree ?j s0) with (vfree j s) in *; congruence.
  - intros s1 R1 L1 V1 X1. wp_step. rewrite wp_release. split; [by rewrite L1|]. wp_step. pose proof (same_rest_trans _ _ _ (same_rest_lock s true) (rest_same _ _ R1)) as R.
    pose proof (same_rest_trans _ _ _ R (same_rest_lock s1 false)) as R'. split; [exists A, U; by eapply winv_wants|]. unfold seen. destruct (sr_data _ _ R') as [-> ->]. f_equal. apply calls_insert.
    intros b' x' _ E. apply served_frame. intros j _. by rewrite (sr_info _ _ R').
Qed.

Lemma wp_vdev_st a y Q s : (∀ d, Q tt (set_vd_dev d s)) → wp (vdev (mmio_st32 a y)) Q s.
Proof using Hregs. intros HQ. unfold vdev. rewrite wp_lift. eapply wp_mono; [apply Hregs|]. by intros []. Qed.
Lemma wp_vdev_ld a Q s : (∀ r d, Q r (set_vd_dev d s)) → wp (vdev (mmio_ld32 a)) Q s.
Proof using Hregs. intros HQ. unfold vdev. rewrite wp_lift. eapply wp_mono; [apply Hregs|]. done. Qed.

Lemma wp_rw_submit A U s v c b w i0 i1 i2 :
  winv bn A U s v c false → c !! b = Some (w, Ready (i0, i1, i2)) →
  wp (rw_submit b i0) (λ r s', r = false ∧ (∃ A' U', winv bn A' U' s' v (<[b := (w, Waits (i0, i1, i2))]> c) false) ∧ seen s' v (<[b := (w, Waits (i0, i1, i2))]> c) = seen s v c) s.
Proof using Hregs.
  intros H Ec. unfold rw_submit, rw_wait, vrelease. do 3 wp_step. apply wp_vdev_st. intros d. pose proof (wi_req _ _ _ _ _ _ _ H b _ Ec) as (Hf & Hst & Hbd & _). do 2 wp_step.
  change (bdisk b (set_vd_dev d (set_vd_avail_idx (u16 (vd_avail_idx s + 1)) s))) with (bdisk b s). rewrite Hbd. cbn [Z.eqb Pos.eqb]. wp_step. rewrite wp_release. split.
  { apply (wi_lock _ _ _ _ _ _ _ H). right. by exists b, w, (i0, i1, i2). }
  wp_step. split; [done|]. split; [exists (A ++ [i0]), U; by apply winv_submit|]. unfold seen. f_equal. rewrite (calls_insert s); [|done].
  apply insert_id. unfold calls. by rewrite lookup_fmap, Ec.
Qed.

Lemma wp_rw_resume A U s v c b w i0 i1 i2 :
  winv bn A U s v c false → vd_lock s = false → c !! b = Some (w, Waits (i0, i1, i2)) →
  wp (rw_resume b i0) (λ r s', if (r : bool) then (∃ A' U', winv bn A' U' s' v (delete b c) false) ∧ calls s c !! b = Some (w, true) ∧ seen s' v (delete b c) = Disks (dv_img v) (vd_data s) (vd_blockno s) (delete b (calls s c))
    else (∃ A' U', winv bn A' U' s' v c false) ∧ seen s' v c = seen s v c) s.
Proof.
  intros H Hl Ec. unfold rw_resume, rw_wait, vacquire, vrelease. wp_step. rewrite wp_acquire. split; [done|]. do 2 wp_step. change (bdisk b (set_vd_lock true s)) with (bdisk b s).
  destruct (Z.eqb_spec (bdisk b s) 1) as [Hb|Hb].
  { wp_step. rewrite wp_release. split; [done|]. wp_step. split; [|done]. exists A, U. apply (winv_lock bn A U s v c false false false (vd_dev s)); [done| |done]. pose proof (wi_lock _ _ _ _ _ _ _ H) as Hk. by rewrite Hl in Hk. }
  pose proof (wi_req _ _ _ _ _ _ _ H b _ Ec) as (Hf & HA & HU & HN).
  assert (vi_status (vinfo_of i0 s) = 0 ∧ bdisk b s = 0) as [Hst Hb0] by (apply HN; intros Hin; apply Hb; [apply HA; by left|apply HA; by right|by apply HU]).
  do 2 wp_step. wp_step. set (s1 := set_vd_info _ _). destruct Hf as [Ht E0 E1 E2 Eo Eb].
  assert (∀ j, isone [i0; i1; i2] j = true → vfree j s1 = 0) as Hfr by (intros j Hj; apply (wi_own _ _ _ _ _ _ _ H b _ j Ec Hj)).
  apply (wp_free_chain i0 i1 i2); try done; try (apply Hfr, isone_elem; rewrite !elem_of_cons; auto).
  { unfold s1. change (vdesc i0 _) with (vdesc i0 s). by rewrite E0. } { unfold s1. change (vdesc i0 _) with (vdesc i0 s). by rewrite E0. }
  { unfold s1. change (vdesc i1 _) with (vdesc i1 s). rewrite E1. by destruct w. } { unfold s1. change (vdesc i1 _) with (vdesc i1 s). by rewrite E1. }
  { unfold s1. change (vdesc i2 _) with (vdesc i2 s). by rewrite E2. }
  intros s2 R L F X. wp_step. rewrite wp_release. split; [by rewrite L|]. wp_step. pose proof (rest_same _ _ R) as [Ra Ru Ri Ro Rb Rn Rd].
  assert (∀ j, isone [i0; i1; i2] j = false → vinfo_of j s2 = vinfo_of j s) as Hi.
  { intros j Hj. rewrite Ri. unfold s1, vinfo_of. cbn. rewrite lookup_insert_ne; [done|]. intros <-. revert Hj. cbn. by rewrite Z.eqb_refl. }
  split; [exists A, U; eapply winv_done; try done|split].
  - intros j Hj. split; [apply (X j Hj)|]. split; [apply Ro|by apply Hi].
  - unfold calls. rewrite lookup_fmap, Ec. cbn. unfold served. cbn. by rewrite Hst.
  - unfold seen. cbn [set_vd_lock vd_data vd_blockno]. destruct Rd as [-> ->]. f_equal. apply calls_delete. intros b' x' Hne E. apply served_frame. intros j Ho. change (vinfo_of j (set_vd_lock false s2)) with (vinfo_of j s2). rewrite (Hi j); [done|].
    destruct (isone [i0; i1; i2] j) eqn:Ej; [|done]. destruct Hne. by eapply (wi_disj _ _ _ _ _ _ _ H).
Qed.

(** ** [virtio_disk_intr] *)

Lemma wp_intr_begin A U s v c :
  winv bn A U s v c false → vd_lock s = false →
  wp intr_begin (λ _ s', (∃ A' U', winv bn A' U' s' v c true) ∧ seen s' v c = seen s v c) s.
Proof using Hregs.
  intros H Hl. unfold intr_begin, vacquire. wp_step. rewrite wp_acquire. split; [done|]. wp_step. apply wp_vdev_ld. intros r d. apply wp_vdev_st. intros d'.
  split; [|done]. exists A, U. apply (winv_lock bn A U s v c false true true d'); [done| |].
  - split; [by left|done].
  - intros _ b w idx E. by destruct (no_ready bn _ _ _ _ _ _ _ _ _ H Hl E).
Qed.

Lemma wp_intr_turn A U s v c :
  winv bn A U s v c true →
  wp intr_turn (λ r s', (∃ A' U', winv bn A' U' s' v c r) ∧ seen s' v c = seen s v c) s.
Proof.
  intros H. unfold intr_turn, intr_iter, intr_end, vrelease. repeat wp_step. destruct (lists_short bn _ _ _ _ _ _ H) as [_ Hlu]. pose proof (wi_used _ _ _ _ _ _ _ H) as Hw.
  assert (∀ b w idx, c !! b ≠ Some (w, Ready idx)) as Hnr by (intros b w idx E; by destruct (wi_ready _ _ _ _ _ _ _ H _ _ _ E)).
  destruct (Z.eqb_spec (vd_used_idx s) (vd_used_idx_dev s)) as [E|Hne].
  - do 2 wp_step. rewrite wp_release. split; [apply (wi_lock _ _ _ _ _ _ _ H); by left|]. wp_step. split; [|done]. exists A, U. apply (winv_lock bn A U s v c true false false (vd_dev s)); [done| |done].
    split; [done|]. intros [?|(b & w & idx & E')]; [done|]. by destruct (Hnr b w idx).
  - destruct (window_first _ _ _ _ Hw Hne Hlu) as (h & U' & -> & Er & Hw'). do 4 wp_step. rewrite Er. change (default 0 (Some h)) with h.
    destruct (head_call bn _ _ _ _ _ _ h H) as (b & w & i1 & i2 & Ec & _ & Hh & _); [right; right; by left|]. rewrite i32_small by (unfold NUM in Hh; lia).
    destruct (winv_intr bn A U' h s v c (vd_woken s ++ [CBuf (vi_b (vinfo_of h s))]) H) as [Hst Hi]. rewrite Hst. cbn [Z.eqb negb]. wp_step. unfold put_bdisk, vwakeup. do 5 wp_step.
    split; [by exists A, U'|done].
Qed.

(** ** The device *)

Lemma dev_step_ok A U s v c i s' v' :
  winv bn A U s v c i → dev_ok s v s' v' →
  (∃ A' U', winv bn A' U' s' v' c i) ∧ sstep (seen s v c) None (seen s' v' c).
Proof.
  intros H [(Hne & -> & ->)|(h & Hh & Hr)].
  - destruct (winv_fetch bn A U s v c i H Hne) as [A' H']. split; [by exists A', U|apply s_none].
  - destruct (head_call bn A U s v c i h H) as (b & w & i1 & i2 & Ec & (Hf & HA & _) & _ & _); [auto|]. destruct HA as [Hst _]; [by right|].
    destruct (wi_bn _ _ _ _ _ _ _ H b) as [Eb Hb]. specialize (Hr _ (complete_formatted bn h b w i1 i2 s v Hf Hb)).
    assert (s' = (completed bn h b w s v).1 ∧ v' = (completed bn h b w s v).2) as [-> ->] by by rewrite Hr. clear Hr.
    assert (calls (completed bn h b w s v).1 c = <[b := (w, true)]> (calls s c)) as Hcs.
    { rewrite <-(insert_id c b (w, Waits (h, i1, i2)) Ec) at 1. rewrite (calls_insert s).
      - unfold served, vinfo_of. cbn. by rewrite lookup_insert_eq.
      - intros b' x' Hne E. apply served_frame. intros j Ho. unfold vinfo_of. cbn. rewrite lookup_insert_ne; [done|]. intros <-. destruct Hne. by eapply (wi_disj _ _ _ _ _ _ _ H); [| |exact Ho|apply own_head]. }
    split; [exists A, (U ++ [h]); by eapply winv_complete|]. unfold seen. rewrite Hcs. cbn. rewrite <-Eb. apply (s_serve (seen s v c)); [|done].
    cbn. unfold calls. rewrite lookup_fmap, Ec. cbn. unfold served. cbn. by rewrite Hst.
Qed.
End Props.

(** ** Runs *)

Section Runs.
Context {D : Type} {MM : Mmio D} (Hregs : regs_ok) (dev_step : vdisk D → device → vdisk D → device → Prop).
Implicit Types w : vworld (D := D).

Definition seen_of w : disks := seen (w_d w) (w_dev w) (w_call w).
Definition good w : Prop := ∃ bn A U, winv bn A U (w_d w) (w_dev w) (w_call w) (w_intr w).

Lemma locked_not {A} (m : M (vdisk D) A) s r s' : (vacquire;; m) s = Ok r s' → vd_lock s = false.
Proof. unfold vacquire, acquire, gets, panic_if, mbind, M_bind. by destruct (vd_lock s). Qed.
Lemma wp_ok {S A} (m : M S A) Q s r s' : wp m Q s → m s = Ok r s' → Q r s'.
Proof. intros (r' & s1 & E & H)%wp_Ok E'. rewrite E in E'. by injection E' as -> ->. Qed.

Lemma vstep_good w e w' : (∀ s v s' v', dev_step s v s' v' → dev_ok s v s' v') → good w → vstep dev_step w e w' → good w' ∧ sstep (seen_of w) e (seen_of w').
Proof using Hregs.
  intros Hdev (bn & A & U & H) Hw. destruct Hw as [s v c i b n y Ec Hn|s v c b wr s' r Ec E|s v c b wr s' r Ec E|s v c b wr i0 i1 i2 s' r Ec E|s v c b wr i0 i1 i2 s' r Ec E|s v c s' E|s v c s' r E|s v c i s' v' E];
    cbn in *; unfold seen_of; cbn [w_d w_dev w_call w_intr].
  - split; [eexists _, A, U; by apply winv_fill|]. apply (s_fill (seen s v c)). cbn. unfold calls. by rewrite lookup_fmap, Ec.
  - pose proof (wp_ok _ _ _ _ _ (wp_rw_start bn A U s v c b wr H (locked_not _ _ _ _ E) (or_introl Ec)) E) as [Hg Hs]. split; [by exists bn|]. fold (phase_of r). rewrite Hs.
    apply (s_call (seen s v c)). cbn. unfold calls. by rewrite lookup_fmap, Ec.
  - pose proof (wp_ok _ _ _ _ _ (wp_rw_start bn A U s v c b wr H (locked_not _ _ _ _ E) (or_intror Ec)) E) as [Hg Hs]. split; [by exists bn|]. fold (phase_of r). rewrite Hs.
    rewrite insert_id; [apply s_none|]. unfold calls. by rewrite lookup_fmap, Ec.
  - pose proof (wp_ok _ _ _ _ _ (wp_rw_submit bn Hregs A U s v c b wr i0 i1 i2 H Ec) E) as (-> & Hg & ->). split; [by exists bn|apply s_none].
  - pose proof (wp_ok _ _ _ _ _ (wp_rw_resume bn A U s v c b wr i0 i1 i2 H (locked_not _ _ _ _ E) Ec) E) as Hr. destruct r; cbn in Hr.
    + destruct Hr as (Hg & Hc & ->). split; [by exists bn|]. by apply (s_return (seen s v c) b wr).
    + destruct Hr as (Hg & ->). split; [by exists bn|apply s_none].
  - pose proof (wp_ok _ _ _ _ _ (wp_intr_begin bn Hregs A U s v c H (locked_not _ _ _ _ E)) E) as [Hg ->]. split; [by exists bn|apply s_none].
  - pose proof (wp_ok _ _ _ _ _ (wp_intr_turn bn A U s v c H) E) as [Hg ->]. split; [by exists bn|apply s_none].
  - destruct (dev_step_ok bn A U s v c i s' v' H (Hdev _ _ _ _ E)) as [Hg Hs]. split; [by exists bn|done].
Qed.

Lemma run_good w tr w' : (∀ s v s' v', dev_step s v s' v' → dev_ok s v s' v') → good w → run (vstep dev_step) w tr w' → good w' ∧ run sstep (seen_of w) tr (seen_of w').
Proof using Hregs.
  intros Hdev Hg Hr. induction Hr as [|w e w1 tr w2 Hs Hr IH]; [split; [done|apply run_nil]|].
  destruct (vstep_good _ _ _ Hdev Hg Hs) as [Hg1 Hs1], (IH Hg1) as [Hg2 Hr2]. split; [done|]. by eapply run_cons.
Qed.

(** ** What does not happen *)

Definition returns {S A} (m : M S A) (s : S) : Prop := ∃ r s', m s = Ok r s'.
Lemma wp_returns {S A} (m : M S A) Q s : wp m Q s → returns m s.
Proof. intros (r & s' & E & _)%wp_Ok. by exists r, s'. Qed.

(** Each piece of the driver that has its turn does it: the checks of the driver
    do not fail; and a descriptor is free unless it is a call's. *)
Record safe w : Prop := {
  sf_lock : vd_lock (w_d w) = true ↔ w_intr w = true ∨ ∃ b wr idx, w_call w !! b = Some (wr, Ready idx);
  sf_start : ∀ b wr, vd_lock (w_d w) = false → w_call w !! b = None ∨ w_call w !! b = Some (wr, Wants) → returns (rw_start b wr) (w_d w);
  sf_submit : ∀ b wr i0 i1 i2, w_call w !! b = Some (wr, Ready (i0, i1, i2)) → returns (rw_submit b i0) (w_d w);
  sf_resume : ∀ b wr i0 i1 i2, vd_lock (w_d w) = false → w_call w !! b = Some (wr, Waits (i0, i1, i2)) → returns (rw_resume b i0) (w_d w);
  sf_intr : vd_lock (w_d w) = false → returns intr_begin (w_d w);
  sf_turn : w_intr w = true → returns intr_turn (w_d w);
  sf_free : ∀ j, 0 ≤ j < NUM → vfree j (w_d w) = 1 ∨ ∃ b x, w_call w !! b = Some x ∧ own x j = true
}.

Lemma good_safe w : good w → safe w.
Proof using Hregs.
  destruct w as [s v c i]. intros (bn & A & U & H). cbn in H. assert (vd_lock s = false → i = false) as Hi.
  { intros Hl. destruct i; [|done]. assert (vd_lock s = true); [|congruence]. apply (wi_lock _ _ _ _ _ _ _ H). by left. }
  split; cbn.
  - apply (wi_lock _ _ _ _ _ _ _ H).
  - intros b wr Hl Hc. rewrite (Hi Hl) in H. by eapply wp_returns, wp_rw_start.
  - intros b wr i0 i1 i2 Ec. destruct (wi_ready _ _ _ _ _ _ _ H _ _ _ Ec) as [-> _]. by eapply wp_returns, wp_rw_submit.
  - intros b wr i0 i1 i2 Hl Ec. rewrite (Hi Hl) in H. by eapply wp_returns, wp_rw_resume.
  - intros Hl. rewrite (Hi Hl) in H. by eapply wp_returns, wp_intr_begin.
  - intros ->. by eapply wp_returns, wp_intr_turn.
  - intros j Hj. destruct (wi_free _ _ _ _ _ _ _ H j) as [Hf|Hf]; [right|by left]. by apply (wi_kept _ _ _ _ _ _ _ H).
Qed.
End Runs.

(** ** The start *)

Section Boot.
Context {D : Type} {MM : Mmio D} {V : Type} {PO : PageAllocOps V}.

Record booted (s0 s : vdisk D) : Prop := {
  bo_lock : vd_lock s = false;
  bo_avail : vd_avail_idx s = 0;
  bo_used : vd_used_idx_dev s = 0 ∧ vd_used_idx s = vd_used_idx s0;
  bo_free : ∀ j, vfree j s = if isone (seqZ 0 NUM) j then 1 else vfree j s0;
  bo_data : vd_data s = vd_data s0 ∧ vd_blockno s = vd_blockno s0
}.

Lemma wlp_vreg_ld r Q (x : V * vdisk D) : (∀ y d, Q y (x.1, set_vd_dev d x.2)) → wlp (vreg_ld r) Q x.
Proof. intros HQ. unfold vreg_ld, vdev. rewrite !wlp_lift. apply wlp_true. intros y d. apply HQ. Qed.
Lemma wlp_vreg_st r y Q (x : V * vdisk D) : (∀ d, Q tt (x.1, set_vd_dev d x.2)) → wlp (vreg_st r y) Q x.
Proof. intros HQ. unfold vreg_st, vdev. rewrite !wlp_lift. apply wlp_true. intros [] d. apply HQ. Qed.
Lemma wlp_vpage Q (x : V * vdisk D) : (∀ y p, Q y (p, x.2)) → wlp vpage Q x.
Proof. intros HQ. unfold vpage. rewrite wlp_lift. apply wlp_true. intros y p. apply HQ. Qed.
Lemma wlp_vreg_if (e : bool) r Q (x : V * vdisk D) : (∀ y d, Q y (x.1, set_vd_dev d x.2)) → wlp (if e then mret 0 else vreg_ld r) Q x.
Proof. intros HQ. destruct e; [|by apply wlp_vreg_ld]. rewrite wlp_ret. destruct x as [p s]. specialize (HQ 0 (vd_dev s)). by destruct s. Qed.

Ltac boot_step :=
  first [wlp_step
        |lazymatch goal with
         | |- wlp (vreg_ld _) _ _ => apply wlp_vreg_ld; intros ? ?
         | |- wlp (vreg_st _ _) _ _ => apply wlp_vreg_st; intros ?
         | |- wlp vpage _ _ => apply wlp_vpage; intros ? ?
         | |- wlp (if _ then mret 0 else _) _ _ => apply wlp_vreg_if; intros ? ?
         | |- wlp (vset _) _ _ => unfold vset
         end]; cbn [fst snd].

Lemma wlp_virtio_disk_init p s0 Q : (∀ p' s, booted s0 s → Q tt (p', s)) → wlp virtio_disk_init Q (p, s0).
Proof.
  intros HQ. unfold virtio_disk_init. change (seqZ 0 NUM) with [0; 1; 2; 3; 4; 5; 6; 7]. repeat boot_step. cbn [for_each]. repeat boot_step. apply HQ. split; try done.
  intros j. unfold vfree. cbn. rewrite !lookup_insert. repeat case_decide; subst; try done.
  rewrite (proj2 (isone_false _ _)); [done|]. intros Hj%elem_of_seqZ. unfold NUM in Hj. lia.
Qed.

Lemma booted_good s0 s v :
  booted s0 s → vd_free s0 = ∅ → vd_used_idx s0 = 0 → (∀ b, 0 ≤ bblockno b s0 < 2 ^ 31) → dv_last v = 0 → dv_taken v = ∅ → good (World s v ∅ false).
Proof.
  intros [Hl Ha [Hu1 Hu2] Hf [Hd Hb]] F0 U0 Hbn L0 T0. exists (λ b, bblockno b s0), [], []. cbn.
  assert (∀ j, vfree j s = if isone (seqZ 0 NUM) j then 1 else 0) as Hf'. { intros j. rewrite Hf. unfold vfree. by rewrite F0. }
  split; try done.
  - intros j. rewrite Hf'. destruct (isone _ j); auto.
  - intros j Hj. rewrite Hf', (proj2 (isone_elem _ _)); [done|]. by apply elem_of_seqZ.
  - intros h [Hh|[Hh|Hh]]; [by apply elem_of_nil in Hh|by rewrite T0 in Hh|by apply elem_of_nil in Hh].
  - rewrite L0, Ha. by split.
  - rewrite Hu1, Hu2, U0. by split.
  - rewrite T0. split; try apply NoDup_nil_2; set_solver.
  - rewrite Hl. split; [done|]. by intros [?|(b & w & idx & E)].
  - intros b. unfold bblockno at 1. by rewrite Hb.
Qed.
End Boot.

(** C6: The processes that call [virtio_disk_rw], the interrupts and the device,
    which completes each request with status OK, interleaved in any way from [virtio_disk_init] on, are a run of the
    specification: each call is served exactly once before it returns, by moving
    the bytes of its block between the disk and its buffer in the direction asked
    for, and nothing else changes the disk or a buffer.  At every point, each
    piece of the driver whose turn it is returns - no check of the driver panics -
    and a descriptor that belongs to no call under way is free. *)
Theorem virtio_disk_serves {D V} {MM : Mmio D} {PO : PageAllocOps V} (dev_step : vdisk D → device → vdisk D → device → Prop)
    (p p' : V) (s0 s : vdisk D) (v : device) (tr : list event) (w : vworld) :
  regs_ok → (∀ s v s' v', dev_step s v s' v' → dev_ok s v s' v') →
  vd_free s0 = ∅ → vd_used_idx s0 = 0 → (∀ b, 0 ≤ bblockno b s0 < 2 ^ 31) → dv_last v = 0 → dv_taken v = ∅ →
  virtio_disk_init (p, s0) = Ok tt (p', s) →
  run (vstep dev_step) (World s v ∅ false) tr w →
  run sstep (Disks (dv_img v) (vd_data s0) (vd_blockno s0) ∅) tr (seen_of w) ∧ safe w.
Proof.
  intros Hregs Hdev F0 U0 Hbn L0 T0 Hi Hr. pose proof (wlp_virtio_disk_init p s0 (λ _ x, booted s0 x.2) ltac:(done)) as Hb. unfold wlp in Hb. rewrite Hi in Hb. cbn in Hb.
  destruct (run_good Hregs dev_step _ _ _ Hdev (booted_good _ _ _ Hb F0 U0 Hbn L0 T0) Hr) as [Hg Hs]. split; [|by apply (good_safe Hregs)].
  unfold seen_of in Hs at 1. cbn in Hs. unfold seen in Hs at 1. destruct (bo_data _ _ Hb) as [E1 E2]. by rewrite E1, E2 in Hs.
Qed.

(** A buffer filled for block 5, written, and the call returned. *)
Module DiskWitness.
#[local] Instance regs : Mmio unit := {|
  mmio_ld8 := λ _, mret 0; mmio_st8 := λ _ _, mret tt; mmio_st32 := λ _ _, mret tt;
  mmio_ld32 := λ a,
    let r := a - VIRTIO0 in
    mret (if r =? VIRTIO_MMIO_MAGIC_VALUE then 0x74726976 else if r =? VIRTIO_MMIO_VERSION then 2 else if r =? VIRTIO_MMIO_DEVICE_ID then 2
          else if r =? VIRTIO_MMIO_VENDOR_ID then 0x554d4551 else if r =? VIRTIO_MMIO_STATUS then 11 else if r =? VIRTIO_MMIO_QUEUE_NUM_MAX then 1024
          else 0) |}.
#[local] Instance pages : PageAllocOps Z := {|
  pa_mem := λ _, ∅; pa_set_mem := λ _ s, s; pa_kalloc := (n ← gets id; modify (Z.add 4096);; mret n); pa_kfree := λ _, mret tt;
  pa_kalloc_huge := mret 0; pa_kfree_huge := λ _, mret tt |}.

Definition off : vdisk unit := VDisk ∅ 0 ∅ 0 ∅ ∅ 0 ∅ ∅ false ∅ ∅ ∅ [] tt.
Definition state {A} (r : res (vdisk unit) A) : vdisk unit := match r with Ok _ s => s | _ => off end.
Definition bytes : mem := stbytes ∅ 0 [7; 8; 9].
Definition d1 : vdisk unit := match virtio_disk_init (0x87000000, off) with Ok _ x => x.2 | _ => off end.
Definition d2 : vdisk unit := set_vd_blockno (<[1 := 5]> (vd_blockno d1)) (set_vd_data (<[1 := bytes]> (vd_data d1)) d1).
Definition d3 : vdisk unit := state (rw_start 1 true d2).
Definition d4 : vdisk unit := state (rw_submit 1 0 d3).
Definition v0 : device := Device 0 ∅ ∅.
Definition v1 : device := Device 1 ({[0]} ∪ ∅) ∅.
Definition x5 : vdisk unit * device := default (off, v0) (complete 0 d4 v1).
Definition d6 : vdisk unit := state (intr_begin x5.1).
Definition d7 : vdisk unit := state (intr_turn d6).
Definition d8 : vdisk unit := state (intr_turn d7).
Definition d9 : vdisk unit := state (rw_resume 1 0 d8).
Definition c1 : gmap Z (bool * phase) := <[1 := (true, Ready (0, 1, 2))]> ∅.
Definition c2 : gmap Z (bool * phase) := <[1 := (true, Waits (0, 1, 2))]> c1.
Definition w9 : vworld := World d9 x5.2 (delete 1 c2) false.
Definition events : list event := [Fill 1 5 bytes; Call 1 true; Return 1].

Lemma demo_run : run (vstep dev_ok) (World d1 v0 ∅ false) events w9.
Proof.
  refine (run_cons _ _ (Some (Fill 1 5 bytes)) (World d2 v0 ∅ false) [Call 1 true; Return 1] _ _ _); [exact (w_fill dev_ok d1 v0 ∅ false 1 5 bytes eq_refl ltac:(lia))|].
  refine (run_cons _ _ (Some (Call 1 true)) (World d3 v0 c1 false) [Return 1] _ _ _); [refine (w_begin dev_ok d2 v0 ∅ 1 true d3 (Some (0, 1, 2)) eq_refl _); vm_compute; reflexivity|].
  refine (run_cons _ _ None (World d4 v0 c2 false) [Return 1] _ _ _); [refine (w_submit dev_ok d3 v0 c1 1 true 0 1 2 d4 false eq_refl _); vm_compute; reflexivity|].
  refine (run_cons _ _ None (World d4 v1 c2 false) [Return 1] _ _ _); [refine (w_device dev_ok d4 v0 c2 false d4 v1 _); left; split; [vm_compute; discriminate|split; [reflexivity|vm_compute; reflexivity]]|].
  refine (run_cons _ _ None (World x5.1 x5.2 c2 false) [Return 1] _ _ _); [refine (w_device dev_ok d4 v1 c2 false x5.1 x5.2 _); right; exists 0; split; [unfold v1; cbn; set_solver|intros r Hr; unfold x5; rewrite Hr; by destruct r]|].
  refine (run_cons _ _ None (World d6 x5.2 c2 true) [Return 1] _ _ _); [refine (w_intr_begin dev_ok x5.1 x5.2 c2 d6 _); vm_compute; reflexivity|].
  refine (run_cons _ _ None (World d7 x5.2 c2 true) [Return 1] _ _ _); [refine (w_intr_turn dev_ok d6 x5.2 c2 d7 true _); vm_compute; reflexivity|].
  refine (run_cons _ _ None (World d8 x5.2 c2 false) [Return 1] _ _ _); [refine (w_intr_turn dev_ok d7 x5.2 c2 d8 false _); vm_compute; reflexivity|].
  refine (run_cons _ _ (Some (Return 1)) w9 [] _ _ _); [refine (w_resume dev_ok d8 x5.2 c2 1 true 0 1 2 d9 true eq_refl _); vm_compute; reflexivity|]. apply run_nil.
Qed.

Lemma virtio_disk_serves_witness :
  (run sstep (Disks (dv_img v0) (vd_data off) (vd_blockno off) ∅) events (seen_of w9) ∧ safe w9) ∧ ldbytes (a_img (seen_of w9)) (5 * BSIZE) 4 = [7; 8; 9; 0] ∧ a_req (seen_of w9) = ∅.
Proof.
  split; [|split; [vm_compute; reflexivity|done]].
  apply (virtio_disk_serves (MM := regs) (PO := pages) dev_ok 0x87000000 (0x87000000 + 3 * 4096) off d1 v0 events w9).
  - by split.
  - auto.
  - reflexivity.
  - reflexivity.
  - intros b. unfold bblockno. cbn [off vd_blockno]. rewrite lookup_empty. cbn. lia.
  - reflexivity.
  - reflexivity.
  - vm_compute. reflexivity.
  - apply demo_run.
Defined.
End DiskWitness.
