(* ===== verification/Uart.v ===== *)
(** * The serial line: [kernel/uart.c]

    The driver of the UART.  Its registers are behind [Mmio]; what the chip does is
    a hypothesis, after its data sheet.  [uartwrite], [uartputc_sync] and [uartintr]
    are cut where other harts and the chip may act: where they sleep, where they
    take the lock and between two accesses to registers. *)

From S2P Require Import Prelude Mem Layout Spinlock Trap.

Set Default Proof Using "Type".

Definition RHR : Z := 0.
Definition THR : Z := 0.
Definition IER : Z := 1.
Definition IER_RX_ENABLE : Z := Z.shiftl 1 0.
Definition IER_TX_ENABLE : Z := Z.shiftl 1 1.
Definition FCR : Z := 2.
Definition FCR_FIFO_ENABLE : Z := Z.shiftl 1 0.
Definition FCR_FIFO_CLEAR : Z := Z.shiftl 3 1.
Definition ISR : Z := 2.
Definition LCR : Z := 3.
Definition LCR_EIGHT_BITS : Z := Z.shiftl 3 0.
Definition LCR_BAUD_LATCH : Z := Z.shiftl 1 7.
Definition LSR : Z := 5.
Definition LSR_RX_READY : Z := Z.shiftl 1 0.
Definition LSR_TX_IDLE : Z := Z.shiftl 1 5.

Section Uart.
Context {D : Type} {MM : Mmio D}.

(** [tx_lock], [tx_busy], the chip, and the state of the hart that runs. *)
Record uart := Uart { u_lock : bool; u_busy : Z; u_dev : D; u_cpu : cpu }.
Definition set_u_lock v s : uart := Uart v (u_busy s) (u_dev s) (u_cpu s).
Definition set_u_busy v s : uart := Uart (u_lock s) v (u_dev s) (u_cpu s).
Definition set_u_dev v s : uart := Uart (u_lock s) (u_busy s) v (u_cpu s).
Definition set_u_cpu v s : uart := Uart (u_lock s) (u_busy s) (u_dev s) v.

Definition ReadReg (reg : Z) : M uart Z := lift u_dev set_u_dev (mmio_ld8 (UART0 + reg)).
Definition WriteReg (reg v : Z) : M uart unit := lift u_dev set_u_dev (mmio_st8 (UART0 + reg) (u8 v)).

Definition uartinit : M uart unit :=
  WriteReg IER 0;;
  WriteReg LCR LCR_BAUD_LATCH;;
  WriteReg 0 3;;
  WriteReg 1 0;;
  WriteReg LCR LCR_EIGHT_BITS;;
  WriteReg FCR (Z.lor FCR_FIFO_ENABLE FCR_FIFO_CLEAR);;
  WriteReg IER (Z.lor IER_TX_ENABLE IER_RX_ENABLE);;
  modify (set_u_lock false).

(** ** [uartwrite] *)

Inductive turn := Wrote (i : Z) | Slept (i : Z) | Finished.

Definition tx_acquire : M uart unit := Prelude.acquire u_lock set_u_lock.
Definition tx_release : M uart unit := Prelude.release u_lock set_u_lock.

(** One turn of the loops, with the lock held: a byte is sent, or the process
    sleeps, which gives the lock up, or all is sent. *)
Definition uartwrite_turn (buf : list Z) (i : Z) : M uart turn :=
  if i <? Z.of_nat (length buf) then
    busy ← gets u_busy;
    if negb (busy =? 0) then tx_release;; mret (Slept i) else
    WriteReg THR (default 0 (buf !! Z.to_nat i));;
    modify (set_u_busy 1);;
    mret (Wrote (i + 1))
  else
    tx_release;;
    mret Finished.

(** From the lock, taken at first and after each sleep, to the end or a sleep. *)
Definition uartwrite (buf : list Z) (i : Z) : M uart turn :=
  tx_acquire;;
  loop (length buf + 1) (λ i, r ← uartwrite_turn buf i; mret match r with Wrote i' => inl i' | _ => inr r end) i.

(** ** [uartputc_sync] *)

(** Before the byte: [panicked] stops the hart for good. *)
Definition sync_begin (panicking panicked : bool) : M uart unit :=
  (if panicking then mret tt else modify (λ s, set_u_cpu (push_off_cpu (u_cpu s)) s));;
  if panicked then nofuel else mret tt.
(** One look at the status. *)
Definition sync_idle : M uart bool :=
  v ← ReadReg LSR;
  mret (negb (Z.land v LSR_TX_IDLE =? 0)).
Definition sync_send (panicking : bool) (c : Z) : M uart unit :=
  WriteReg THR c;;
  if panicking then mret tt else modify (λ s, set_u_cpu (pop_off_cpu (u_cpu s)) s).

(** With the chip undisturbed, [n] looks at most. *)
Definition uartputc_sync (n : nat) (panicking panicked : bool) (c : Z) : M uart unit :=
  sync_begin panicking panicked;;
  loop n (λ _ : unit, sync_idle ≫= λ idle : bool, mret (if idle then inr tt else inl tt)) tt;;
  sync_send panicking c.

(** ** [uartgetc], [uartintr] *)

Definition uartgetc : M uart Z :=
  v ← ReadReg LSR;
  if negb (Z.land v LSR_RX_READY =? 0) then ReadReg RHR else mret (-1).

Definition intr_ack : M uart unit := ReadReg ISR;; mret tt.
(** With the lock taken: whether the chip is idle. *)
Definition intr_look : M uart bool :=
  tx_acquire;;
  v ← ReadReg LSR;
  mret (negb (Z.land v LSR_TX_IDLE =? 0)).
(** [wakeup] follows [tx_busy = 0]. *)
Definition intr_clear : M uart unit :=
  modify (set_u_busy 0);;
  tx_release.
(** The bytes given to [consoleintr], at most [n] of them. *)
Definition intr_rx (n : nat) : M uart (list Z) :=
  loop n (λ l : list Z, c ← uartgetc; mret (if c =? -1 then inr l else inl (l ++ [c]))) [].

Definition uartintr (n : nat) : M uart (list Z) :=
  intr_ack;;
  idle ← intr_look;
  (if idle : bool then intr_clear else tx_release);;
  intr_rx n.
End Uart.
Arguments uart D : clear implicits.

(** ** The chip and the parties *)

(** The bytes to send, whether it asks for an interrupt because it has sent them,
    and the bytes received. *)
Record chip := ChipV { ch_fifo : list Z; ch_ip : bool; ch_rx : list Z }.

Section World.
Context {D : Type} {MM : Mmio D} (view : D → chip).

(** What its registers do: it takes bytes while fewer than 16 wait. *)
Record chip_ok : Prop := {
  ck_lsr : ∀ d, ∃ v d', mmio_ld8 (UART0 + LSR) d = Ok v d' ∧ view d' = view d ∧
    (Z.land v LSR_TX_IDLE =? 0) = negb (bool_decide (ch_fifo (view d) = [])) ∧ (Z.land v LSR_RX_READY =? 0) = bool_decide (ch_rx (view d) = []);
  ck_thr : ∀ c d, (length (ch_fifo (view d)) < 16)%nat → ∃ d', mmio_st8 (UART0 + THR) c d = Ok tt d' ∧
    view d' = ChipV (ch_fifo (view d) ++ [c]) (ch_ip (view d)) (ch_rx (view d));
  ck_isr : ∀ d, ∃ v d', mmio_ld8 (UART0 + ISR) d = Ok v d' ∧ view d' = ChipV (ch_fifo (view d)) false (ch_rx (view d));
  ck_rhr : ∀ c l d, ch_rx (view d) = c :: l → ∃ d', mmio_ld8 (UART0 + RHR) d = Ok c d' ∧ view d' = ChipV (ch_fifo (view d)) (ch_ip (view d)) l
}.

(** What it does by itself. *)
Inductive chip_move : chip → list Z → list Z → chip → Prop :=
  | Sends c l ip rx : chip_move (ChipV (c :: l) ip rx) [c] [] (ChipV l (ip || bool_decide (l = [])) rx)
  | Receives c l ip rx : 0 ≤ c < 256 → chip_move (ChipV l ip rx) [] [c] (ChipV l ip (rx ++ [c])).

(** A process in [uartwrite], and the handler of the interrupt. *)
Inductive wpc := WWait | WHold | WAsleep | WDone.
Record writer := Writer { w_buf : list Z; w_i : Z; w_pc : wpc }.
Inductive ipc := IOff | IAcked | ISeen | IRx.

(** [g_sync] are the harts in [uartputc_sync] that have seen the chip idle;
    [g_log] the bytes given to the chip and by whom; [g_line] what it has sent;
    [g_in] what it has received; [g_got] what went to [consoleintr]. *)
Record uworld := UW {
  g_u : uart D; g_sync : gmap Z Z; g_w : gmap Z writer; g_i : ipc;
  g_log : list (option Z * Z); g_line : list Z; g_in : list Z; g_got : list Z
}.

(** [wakeup(&tx_chan)] *)
Definition woken (w : writer) : writer := match w_pc w with WAsleep => Writer (w_buf w) (w_i w) WWait | _ => w end.

Inductive ustep : uworld → uworld → Prop :=
  | SLook h c u u' sy ws ip log ln i o : sy !! h = None → 0 ≤ h < NCPU → sync_idle u = Ok true u' →
      ustep (UW u sy ws ip log ln i o) (UW u' (<[h := c]> sy) ws ip log ln i o)
  | SSpin u u' sy ws ip log ln i o : sync_idle u = Ok false u' →
      ustep (UW u sy ws ip log ln i o) (UW u' sy ws ip log ln i o)
  | SSend h c b u u' sy ws ip log ln i o : sy !! h = Some c → sync_send b c u = Ok tt u' →
      ustep (UW u sy ws ip log ln i o) (UW u' (delete h sy) ws ip (log ++ [(None, u8 c)]) ln i o)
  | SCall p buf u sy ws ip log ln i o : ws !! p = None → Forall (λ c, 0 ≤ c < 256) buf →
      ustep (UW u sy ws ip log ln i o) (UW u sy (<[p := Writer buf 0 WWait]> ws) ip log ln i o)
  | SLock p buf k u u' sy ws ip log ln i o : ws !! p = Some (Writer buf k WWait) → u_lock u = false → tx_acquire u = Ok tt u' →
      ustep (UW u sy ws ip log ln i o) (UW u' sy (<[p := Writer buf k WHold]> ws) ip log ln i o)
  | SWrite p buf k k' u u' sy ws ip log ln i o : ws !! p = Some (Writer buf k WHold) → uartwrite_turn buf k u = Ok (Wrote k') u' →
      ustep (UW u sy ws ip log ln i o) (UW u' sy (<[p := Writer buf k' WHold]> ws) ip (log ++ [(Some p, default 0 (buf !! Z.to_nat k))]) ln i o)
  | SSleep p buf k k' u u' sy ws ip log ln i o : ws !! p = Some (Writer buf k WHold) → uartwrite_turn buf k u = Ok (Slept k') u' →
      ustep (UW u sy ws ip log ln i o) (UW u' sy (<[p := Writer buf k' WAsleep]> ws) ip log ln i o)
  | SDone p buf k u u' sy ws ip log ln i o : ws !! p = Some (Writer buf k WHold) → uartwrite_turn buf k u = Ok Finished u' →
      ustep (UW u sy ws ip log ln i o) (UW u' sy (<[p := Writer buf k WDone]> ws) ip log ln i o)
  | SAck u u' sy ws log ln i o : intr_ack u = Ok tt u' →
      ustep (UW u sy ws IOff log ln i o) (UW u' sy ws IAcked log ln i o)
  | SIdle u u' sy ws log ln i o : u_lock u = false → intr_look u = Ok true u' →
      ustep (UW u sy ws IAcked log ln i o) (UW u' sy ws ISeen log ln i o)
  | SBusy u u' u'' sy ws log ln i o : u_lock u = false → intr_look u = Ok false u' → tx_release u' = Ok tt u'' →
      ustep (UW u sy ws IAcked log ln i o) (UW u'' sy ws IRx log ln i o)
  | SClear u u' sy ws log ln i o : intr_clear u = Ok tt u' →
      ustep (UW u sy ws ISeen log ln i o) (UW u' sy (woken <$> ws) IRx log ln i o)
  | SGet c u u' sy ws log ln i o : uartgetc u = Ok c u' → c ≠ -1 →
      ustep (UW u sy ws IRx log ln i o) (UW u' sy ws IRx log ln i (o ++ [c]))
  | SEnd u u' sy ws log ln i o : uartgetc u = Ok (-1) u' →
      ustep (UW u sy ws IRx log ln i o) (UW u' sy ws IOff log ln i o)
  | SChip d' sent recv u sy ws ip log ln i o : chip_move (view (u_dev u)) sent recv (view d') →
      ustep (UW u sy ws ip log ln i o) (UW (set_u_dev d' u) sy ws ip log (ln ++ sent) (i ++ recv) o).

(** ** The invariant *)

Definition mine (p : Z) (log : list (option Z * Z)) : list Z := (filter (λ x : option Z * Z, x.1 = Some p) log).*2.
(** The bytes in the chip, with who gave them. *)
Definition inside (g : uworld) : list (option Z * Z) := drop (length (g_line g)) (g_log g).
Definition of_sync (l : list (option Z * Z)) : nat := length (filter (λ x : option Z * Z, x.1 = None) l).
Definition of_writers (l : list (option Z * Z)) : nat := length (filter (λ x : option Z * Z, x.1 ≠ None) l).

#[local] Arguments mine : simpl never.
#[local] Arguments inside : simpl never.
#[local] Arguments of_sync : simpl never.
#[local] Arguments of_writers : simpl never.

Record uinv (g : uworld) : Prop := {
  ui_log : (g_log g).*2 = g_line g ++ ch_fifo (view (u_dev (g_u g)));
  ui_sync : (of_sync (inside g) + size (g_sync g) ≤ 8)%nat;
  ui_harts : ∀ h, is_Some (g_sync g !! h) → 0 ≤ h < NCPU;
  ui_one : (of_writers (inside g) ≤ 1)%nat;
  ui_none : u_busy (g_u g) = 0 ∨ g_i g = ISeen → of_writers (inside g) = 0%nat;
  ui_hold : ∀ p q w w', g_w g !! p = Some w → g_w g !! q = Some w' → w_pc w = WHold → w_pc w' = WHold → p = q;
  ui_lock : u_lock (g_u g) = true ↔ (∃ p w, g_w g !! p = Some w ∧ w_pc w = WHold) ∨ g_i g = ISeen;
  ui_seen : g_i g = ISeen → ∀ p w, g_w g !! p = Some w → w_pc w ≠ WHold;
  ui_sleep : ∀ p w, g_w g !! p = Some w → w_pc w = WAsleep → u_busy (g_u g) ≠ 0;
  ui_wake : u_busy (g_u g) ≠ 0 → ch_fifo (view (u_dev (g_u g))) ≠ [] ∨ ch_ip (view (u_dev (g_u g))) = true ∨ g_i g = IAcked ∨ g_i g = ISeen;
  ui_mine : ∀ p w, g_w g !! p = Some w → 0 ≤ w_i w ≤ Z.of_nat (length (w_buf w)) ∧ mine p (g_log g) = take (Z.to_nat (w_i w)) (w_buf w) ∧ (w_pc w = WDone → w_i w = Z.of_nat (length (w_buf w))) ∧ Forall (λ c, 0 ≤ c < 256) (w_buf w);
  ui_new : ∀ p, g_w g !! p = None → mine p (g_log g) = [];
  ui_rx : g_in g = g_got g ++ ch_rx (view (u_dev (g_u g))) ∧ Forall (λ c, 0 ≤ c < 256) (ch_rx (view (u_dev (g_u g))))
}.

Context (Hchip : chip_ok).

(** ** What the pieces do *)

Notation fifo u := (ch_fifo (view (u_dev u))).
Notation rx u := (ch_rx (view (u_dev u))).

(** Nothing the others see. *)
Definition same_u (u u' : uart D) : Prop := u_lock u' = u_lock u ∧ u_busy u' = u_busy u ∧ view (u_dev u') = view (u_dev u).

Lemma run_lsr (u : uart D) : ∃ v d', ReadReg LSR u = Ok v (set_u_dev d' u) ∧ same_u u (set_u_dev d' u) ∧
  (Z.land v LSR_TX_IDLE =? 0) = negb (bool_decide (fifo u = [])) ∧ (Z.land v LSR_RX_READY =? 0) = bool_decide (rx u = []).
Proof using Hchip. destruct (ck_lsr Hchip (u_dev u)) as (v & d' & E & Hv & H1 & H2). exists v, d'. unfold ReadReg, lift. by rewrite E. Qed.

Lemma run_sync_idle u : ∃ u', sync_idle u = Ok (bool_decide (fifo u = [])) u' ∧ same_u u u'.
Proof using Hchip. destruct (run_lsr u) as (v & d' & E & Hs & H1 & _). exists (set_u_dev d' u). unfold sync_idle. unfold mbind, M_bind. rewrite E. cbn. by rewrite H1, negb_involutive. Qed.

Lemma run_thr c u : (length (fifo u) < 16)%nat → ∃ d', WriteReg THR c u = Ok tt (set_u_dev d' u) ∧ view d' = ChipV (fifo u ++ [u8 c]) (ch_ip (view (u_dev u))) (rx u).
Proof using Hchip. intros Hl. destruct (ck_thr Hchip (u8 c) (u_dev u) Hl) as (d' & E & Hv). exists d'. unfold WriteReg, lift. by rewrite E. Qed.

Lemma run_sync_send b c u : (length (fifo u) < 16)%nat → ∃ u', sync_send b c u = Ok tt u' ∧ u_lock u' = u_lock u ∧ u_busy u' = u_busy u ∧ view (u_dev u') = ChipV (fifo u ++ [u8 c]) (ch_ip (view (u_dev u))) (rx u).
Proof using Hchip.
  intros Hl. destruct (run_thr c u Hl) as (d' & E & Hv). unfold sync_send. unfold mbind, M_bind. rewrite E. destruct b; cbn; eexists; split_and!; done.
Qed.

Lemma run_turn buf k u : u_lock u = true → (length (fifo u) < 16)%nat → ∃ r u', uartwrite_turn buf k u = Ok r u' ∧
  if k <? Z.of_nat (length buf) then
    if u_busy u =? 0 then r = Wrote (k + 1) ∧ u_lock u' = true ∧ u_busy u' = 1 ∧ view (u_dev u') = ChipV (fifo u ++ [u8 (default 0 (buf !! Z.to_nat k))]) (ch_ip (view (u_dev u))) (rx u)
    else r = Slept k ∧ u' = set_u_lock false u
  else r = Finished ∧ u' = set_u_lock false u.
Proof using Hchip.
  intros Hl Hf. unfold uartwrite_turn, tx_release, Prelude.release, panic_if, gets, modify, mret, M_ret, mbind, M_bind. destruct (k <? _); [destruct (u_busy u =? 0) eqn:Eb|]; cbn [negb]; rewrite ?Eb, ?Hl; cbn [negb]; [|eexists _, _; split_and!; done..].
  destruct (run_thr (default 0 (buf !! Z.to_nat k)) u Hf) as (d' & E & Hv). rewrite E. eexists _, _. split_and!; done.
Qed.

Lemma run_ack u : ∃ d', intr_ack u = Ok tt (set_u_dev d' u) ∧ view d' = ChipV (fifo u) false (rx u).
Proof using Hchip. destruct (ck_isr Hchip (u_dev u)) as (v & d' & E & Hv). exists d'. unfold intr_ack, ReadReg, lift, mbind, M_bind. by rewrite E. Qed.

Lemma run_look u : u_lock u = false → ∃ u', intr_look u = Ok (bool_decide (fifo u = [])) u' ∧ same_u (set_u_lock true u) u'.
Proof using Hchip.
  intros Hl. destruct (run_lsr (set_u_lock true u)) as (v & d' & E & Hs & H1 & _). eexists. split; [|exact Hs]. unfold intr_look, tx_acquire, Prelude.acquire, panic_if, gets, modify, mret, M_ret, mbind, M_bind in *. rewrite Hl. rewrite E. by rewrite H1, negb_involutive.
Qed.

Lemma run_getc u : ∃ u', uartgetc u = Ok (default (-1) (head (rx u))) u' ∧ u_lock u' = u_lock u ∧ u_busy u' = u_busy u ∧ view (u_dev u') = ChipV (fifo u) (ch_ip (view (u_dev u))) (tail (rx u)).
Proof using Hchip.
  destruct (run_lsr u) as (v & d' & E & (S1 & S2 & S3) & _ & H2). unfold uartgetc. unfold mbind, M_bind. rewrite E, H2. destruct (rx u) as [|c l] eqn:Er.
  - rewrite bool_decide_eq_true_2 by done. cbn. eexists. split_and!; try done. cbn in *. rewrite S3. destruct (view (u_dev u)); cbn in *; by subst.
  - rewrite bool_decide_eq_false_2 by done. cbn [negb]. destruct (ck_rhr Hchip c l d') as (d2 & E2 & Hv); [cbn in S3; by rewrite S3|]. unfold ReadReg, lift. cbn [u_dev set_u_dev]. rewrite E2. eexists. split_and!; try done. cbn in *. by rewrite Hv, S3.
Qed.

(** ** The steps keep the invariant *)

Lemma counts_length l : (of_sync l + of_writers l = length l)%nat.
Proof using. unfold of_sync, of_writers. induction l as [|x l IH]; [done|]. rewrite !filter_cons. repeat case_decide; cbn [length]; (tauto || lia). Qed.
Lemma counts_app l x : of_sync (l ++ [x]) = (of_sync l + match x.1 with None => 1 | _ => 0 end)%nat ∧ of_writers (l ++ [x]) = (of_writers l + match x.1 with None => 0 | _ => 1 end)%nat.
Proof using. unfold of_sync, of_writers. rewrite !filter_app, !length_app. destruct x as [[p|] c]; done. Qed.
Lemma counts_tail x l : (of_sync l ≤ of_sync (x :: l) ∧ of_writers l ≤ of_writers (x :: l))%nat.
Proof using. unfold of_sync, of_writers. rewrite !filter_cons. repeat case_decide; cbn [length]; lia. Qed.
Lemma mine_app p log x : mine p (log ++ [x]) = mine p log ++ (if decide (x.1 = Some p) then [x.2] else []).
Proof using. unfold mine. rewrite filter_app, fmap_app. f_equal. rewrite filter_cons, filter_nil. by case_decide. Qed.

Section Inv.
Context (u : uart D) (sy : gmap Z Z) (ws : gmap Z writer) (ip : ipc) (log : list (option Z * Z)) (ln i o : list Z).
Notation G := (UW u sy ws ip log ln i o).
Context (Hinv : uinv G).

Lemma inside_length : length (inside G) = length (fifo u) ∧ (length ln ≤ length log)%nat.
Proof using Hinv. destruct Hinv as [H1 _ _ _ _ _ _ _ _ _ _ _ _]. cbn in H1. apply (f_equal length) in H1. rewrite length_fmap, length_app in H1. unfold inside. cbn. rewrite length_drop. lia. Qed.
(** At most nine bytes wait in the chip. *)
Lemma fifo_room : (length (fifo u) ≤ 9)%nat.
Proof using Hinv. destruct inside_length as [<- _]. rewrite <-counts_length. destruct Hinv as [_ H2 _ H4 _ _ _ _ _ _ _ _ _]. lia. Qed.
Lemma fifo_empty : fifo u = [] → inside G = [].
Proof using Hinv. intros E. apply nil_length_inv. destruct inside_length as [-> _]. by rewrite E. Qed.
Lemma inside_app x sy' ws' ip' u' : inside (UW u' sy' ws' ip' (log ++ [x]) ln i o) = inside G ++ [x].
Proof using Hinv. unfold inside. cbn. destruct inside_length as [_ Hl]. by rewrite drop_app_le. Qed.

(** A step that leaves the lock, the flag and the chip as they are. *)
Lemma inv_same u' : same_u u u' → uinv (UW u' sy ws ip log ln i o).
Proof using Hinv. intros (S1 & S2 & S3). destruct Hinv as [H1 H2 H3 H4 H5 H6 H7 H8 H9 H10 H11 H12 H13]. by split; cbn in *; rewrite ?S1, ?S2, ?S3. Qed.

Lemma inv_look h c : sy !! h = None → 0 ≤ h < NCPU → fifo u = [] → uinv (UW u (<[h := c]> sy) ws ip log ln i o).
Proof using Hinv.
  intros Hh Hr Hf. pose proof (fifo_empty Hf) as Hin. destruct Hinv as [H1 H2 H3 H4 H5 H6 H7 H8 H9 H10 H11 H12 H13]. split; try done; cbn in *.
  - change (inside (UW u (<[h := c]> sy) ws ip log ln i o)) with (inside G). rewrite Hin. cbn. rewrite <-size_dom, dom_insert_L. change 8%nat with (size (list_to_set (seqZ 0 8) : gset Z)). apply subseteq_size. intros x [->%elem_of_singleton|Hx%elem_of_dom]%elem_of_union; apply elem_of_list_to_set, elem_of_seqZ; [unfold NCPU in *; lia|]. specialize (H3 x Hx). unfold NCPU in H3. lia.
  - intros x [y [[<- _]|[_ E]]%lookup_insert_Some]; [done|]. apply H3. by eexists.
Qed.

Lemma inv_send h c u' : sy !! h = Some c → u_lock u' = u_lock u → u_busy u' = u_busy u → view (u_dev u') = ChipV (fifo u ++ [u8 c]) (ch_ip (view (u_dev u))) (rx u) →
  uinv (UW u' (delete h sy) ws ip (log ++ [(None, u8 c)]) ln i o).
Proof using Hinv.
  intros Hh S1 S2 S3. pose proof (inside_app (None, u8 c) (delete h sy) ws ip u') as Hin. destruct (counts_app (inside G) (None, u8 c)) as [C1 C2]. cbn in C1, C2. destruct Hinv as [H1 H2 H3 H4 H5 H6 H7 H8 H9 H10 H11 H12 H13].
  assert (∀ p, mine p (log ++ [(None, u8 c)]) = mine p log) as Hm by (intros p; rewrite mine_app; cbn; by rewrite app_nil_r). split; cbn in *; rewrite ?Hin, ?S1, ?S2, ?S3; cbn; try done.
  - by rewrite fmap_app, H1, <-app_assoc.
  - rewrite C1. rewrite map_size_delete, Hh. assert (size sy ≠ 0%nat); [|lia]. rewrite map_size_non_empty_iff. intros ->. done.
  - intros x [y [_ E]%lookup_delete_Some]. apply H3. by eexists.
  - lia.
  - intros Hb. rewrite C2, H5 by done. done.
  - intros _. left. by destruct (fifo u).
  - intros p w E. rewrite Hm. by apply H11.
  - intros p E. rewrite Hm. by apply H12.
Qed.

Lemma inv_call p buf : ws !! p = None → Forall (λ c, 0 ≤ c < 256) buf → uinv (UW u sy (<[p := Writer buf 0 WWait]> ws) ip log ln i o).
Proof using Hinv.
  intros Hp Hbuf. destruct Hinv as [H1 H2 H3 H4 H5 H6 H7 H8 H9 H10 H11 H12 H13]. cbn in *.
  assert (∀ q w, <[p := Writer buf 0 WWait]> ws !! q = Some w → w_pc w ≠ WWait → ws !! q = Some w) as Hw by (intros q w [[<- <-]|[_ E]]%lookup_insert_Some Hpc; done).
  split; try done; cbn.
  - intros q q' w w' E E' P P'. apply (H6 q q' w w'); [apply Hw; [done|congruence]..|done|done].
  - rewrite H7. split; (intros [(q & w & E & P)|?]; [left; exists q, w|by right]); [split; [|done]; rewrite lookup_insert_ne; [done|congruence]|split; [apply Hw; [done|congruence]|done]].
  - intros Hs q w E P. apply (H8 Hs q w); [apply Hw; [done|congruence]|done].
  - intros q w E P. apply (H9 q w); [apply Hw; [done|congruence]|done].
  - intros q w [[<- <-]|[_ E]]%lookup_insert_Some; [|by apply H11]. cbn. split_and!; try done; [lia|by apply H12].
  - intros q [E ?]%lookup_insert_None. by apply H12.
Qed.

(** The lock: one writer holds it, or the handler. *)
Lemma no_holder : u_lock u = false → (∀ q w, ws !! q = Some w → w_pc w ≠ WHold) ∧ ip ≠ ISeen.
Proof using Hinv. intros Hl. destruct Hinv as [_ _ _ _ _ _ H7 _ _ _ _ _ _]. cbn in H7. rewrite Hl in H7. split; [intros q w E P; assert (false = true) by (apply H7; left; by exists q, w); done|intros P; assert (false = true) by (apply H7; by right); done]. Qed.
Lemma only_holder p w0 : ws !! p = Some w0 → w_pc w0 = WHold → u_lock u = true ∧ ip ≠ ISeen ∧ ∀ q w, q ≠ p → ws !! q = Some w → w_pc w ≠ WHold.
Proof using Hinv.
  intros E P. destruct Hinv as [_ _ _ _ _ H6 H7 H8 _ _ _ _ _]. cbn in *. split; [apply H7; left; by exists p, w0|]. split; [intros Hs; by apply (H8 Hs p w0)|]. intros q w Hne Eq Pq. apply Hne. by apply (H6 q p w w0).
Qed.

Lemma inv_lock p buf k : ws !! p = Some (Writer buf k WWait) → u_lock u = false → uinv (UW (set_u_lock true u) sy (<[p := Writer buf k WHold]> ws) ip log ln i o).
Proof using Hinv.
  intros Hp Hl. destruct (no_holder Hl) as [Hnh His]. destruct Hinv as [H1 H2 H3 H4 H5 H6 H7 H8 H9 H10 H11 H12 H13]. cbn in *. split; try done; cbn.
  - intros q q' w w' [[<- _]|[_ E]]%lookup_insert_Some [[<- _]|[_ E']]%lookup_insert_Some P P'; [done|by destruct (Hnh _ _ E')|by destruct (Hnh _ _ E)|by destruct (Hnh _ _ E)].
  - split; [|done]. intros _. left. exists p, (Writer buf k WHold). by rewrite lookup_insert_eq.
  - intros q w [[_ <-]|[_ E]]%lookup_insert_Some P; [done|by apply (H9 q w)].
  - intros q w [[<- <-]|[_ E]]%lookup_insert_Some; [|by apply H11]. destruct (H11 _ _ Hp) as (M1 & M2 & _ & M4). cbn in *. split_and!; (done || lia).
  - intros q [E ?]%lookup_insert_None. by apply H12.
Qed.

(** A writer gives the lock up. *)
Lemma inv_unlock p buf k pc : ws !! p = Some (Writer buf k WHold) → (pc = WAsleep ∧ u_busy u ≠ 0 ∨ pc = WDone ∧ k = Z.of_nat (length buf)) →
  uinv (UW (set_u_lock false u) sy (<[p := Writer buf k pc]> ws) ip log ln i o).
Proof using Hinv.
  intros Hp Hpc. destruct (only_holder p _ Hp eq_refl) as (Hl & His & Hoth). destruct Hinv as [H1 H2 H3 H4 H5 H6 H7 H8 H9 H10 H11 H12 H13]. cbn in *.
  assert (∀ q w, <[p := Writer buf k pc]> ws !! q = Some w → w_pc w ≠ WHold) as Hnh by (intros q w [[<- <-]|[Hne E]]%lookup_insert_Some; [cbn; by destruct Hpc as [[-> _]|[-> _]]|by apply (Hoth q)]). split; try done; cbn.
  - intros q q' w w' E _ P. by destruct (Hnh _ _ E).
  - split; [done|]. intros [(q & w & E & P)|?]; [by destruct (Hnh _ _ E)|done].
  - intros q w [[_ <-]|[_ E]]%lookup_insert_Some P; [by destruct Hpc as [[_ ?]|[-> _]]|by apply (H9 q w)].
  - intros q w [[<- <-]|[_ E]]%lookup_insert_Some; [|by apply H11]. destruct (H11 _ _ Hp) as (M1 & M2 & _ & M4). cbn in *. split_and!; try (done || lia). intros ->. by destruct Hpc as [[? _]|[_ ?]].
  - intros q [E ?]%lookup_insert_None. by apply H12.
Qed.

Lemma inv_write p buf k u' : ws !! p = Some (Writer buf k WHold) → k < Z.of_nat (length buf) → u_busy u = 0 → u_lock u' = true → u_busy u' = 1 →
  view (u_dev u') = ChipV (fifo u ++ [u8 (default 0 (buf !! Z.to_nat k))]) (ch_ip (view (u_dev u))) (rx u) →
  uinv (UW u' sy (<[p := Writer buf (k + 1) WHold]> ws) ip (log ++ [(Some p, default 0 (buf !! Z.to_nat k))]) ln i o).
Proof using Hinv.
  intros Hp Hk Hb0 S1 S2 S3. destruct (only_holder p _ Hp eq_refl) as (Hl & His & Hoth). set (c := default 0 (buf !! Z.to_nat k)) in *. pose proof (inside_app (Some p, c) sy (<[p := Writer buf (k + 1) WHold]> ws) ip u') as Hin.
  destruct (counts_app (inside G) (Some p, c)) as [C1 C2]. cbn in C1, C2. destruct Hinv as [H1 H2 H3 H4 H5 H6 H7 H8 H9 H10 H11 H12 H13]. destruct (H11 _ _ Hp) as (M1 & M2 & _ & M4). cbn in *.
  destruct (lookup_lt_is_Some_2 buf (Z.to_nat k)) as [b Eb]; [lia|]. assert (c = b) as Ecb by (unfold c; by rewrite Eb). assert (u8 c = c) as Hc by (rewrite Ecb; apply Z.mod_small; by apply (proj1 (Forall_lookup _ _) M4 _ _ Eb)). split; cbn; rewrite ?Hin, ?S1, ?S2, ?S3; cbn; try done.
  - by rewrite fmap_app, H1, Hc, <-app_assoc.
  - lia.
  - rewrite C2, H5 by (by left). done.
  - intros [?|?]; done.
  - intros q q' w w' E E' P P'. assert (∀ x y, <[p := Writer buf (k + 1) WHold]> ws !! x = Some y → w_pc y = WHold → x = p) as Ho; [|by rewrite (Ho _ _ E P), (Ho _ _ E' P')]. intros x y [[<- _]|[Hne Ex]]%lookup_insert_Some Px; [done|]. by destruct (Hoth x y (not_eq_sym Hne) Ex).
  - split; [|done]. intros _. left. exists p, (Writer buf (k + 1) WHold). by rewrite lookup_insert_eq.
  - intros _. left. by destruct (fifo u).
  - intros q w [[<- <-]|[Hne E]]%lookup_insert_Some; rewrite mine_app; cbn.
    + rewrite decide_True by done. split_and!; [lia..| |done|done]. rewrite M2, Ecb. replace (Z.to_nat (k + 1)) with (S (Z.to_nat k)) by lia. symmetry. by apply take_S_r.
    + rewrite decide_False by congruence. rewrite app_nil_r. by apply H11.
  - intros q [E Hne]%lookup_insert_None. rewrite mine_app. cbn. rewrite decide_False by congruence. rewrite app_nil_r. by apply H12.
Qed.

Lemma inv_ack u' : ip = IOff → u_lock u' = u_lock u → u_busy u' = u_busy u → view (u_dev u') = ChipV (fifo u) false (rx u) → uinv (UW u' sy ws IAcked log ln i o).
Proof using Hinv.
  intros -> S1 S2 S3. destruct Hinv as [H1 H2 H3 H4 H5 H6 H7 H8 H9 H10 H11 H12 H13]. cbn in *. split; cbn; rewrite ?S1, ?S2, ?S3; cbn; try done.
  - intros [?|?]; [|done]. apply H5. by left.
  - rewrite H7. split; (intros [?|?]; [by left|done]).
  - intros _. right; right. by left.
Qed.

Lemma inv_idle : ip = IAcked → u_lock u = false → fifo u = [] → uinv (UW (set_u_lock true u) sy ws ISeen log ln i o).
Proof using Hinv.
  intros Hip Hl Hf. destruct (no_holder Hl) as [Hnh _]. pose proof (fifo_empty Hf) as Hin. subst ip. destruct Hinv as [H1 H2 H3 H4 H5 H6 H7 H8 H9 H10 H11 H12 H13]. cbn in *. split; cbn; try done.
  - intros _. change (inside (UW (set_u_lock true u) sy ws ISeen log ln i o)) with (inside (UW u sy ws IAcked log ln i o)). by rewrite Hin.
  - split; [intros _; by right|done].
  - intros _. right; right. by right.
Qed.
Lemma inv_busy : ip = IAcked → fifo u ≠ [] → uinv (UW u sy ws IRx log ln i o).
Proof using Hinv.
  intros -> Hf. destruct Hinv as [H1 H2 H3 H4 H5 H6 H7 H8 H9 H10 H11 H12 H13]. cbn in *. split; cbn; try done.
  - intros [?|?]; [|done]. apply H5. by left.
  - rewrite H7. split; (intros [?|?]; [by left|done]).
  - intros _. by left.
Qed.

Lemma inv_clear : ip = ISeen → uinv (UW (set_u_lock false (set_u_busy 0 u)) sy (woken <$> ws) IRx log ln i o).
Proof using Hinv.
  intros ->. destruct Hinv as [H1 H2 H3 H4 H5 H6 H7 H8 H9 H10 H11 H12 H13]. cbn in *. assert (∀ q w, (woken <$> ws) !! q = Some w → w_pc w ≠ WHold ∧ w_pc w ≠ WAsleep) as Hnh.
  { intros q w E. rewrite lookup_fmap in E. apply fmap_Some in E as ([b k pc] & E & ->). specialize (H8 eq_refl q _ E). by destruct pc. }
  split; cbn; try done.
  - intros _. apply H5. by right.
  - intros q q' w w' E _ P. by destruct (Hnh q w E).
  - split; [done|]. intros [(q & w & E & P)|?]; [by destruct (Hnh q w E)|done].
  - intros q w E P. by destruct (Hnh q w E).
  - intros q w E. rewrite lookup_fmap in E. apply fmap_Some in E as ([b k pc] & E & ->). destruct (H11 q _ E) as (M1 & M2 & M3 & M4). cbn in *. destruct pc; cbn; split_and!; (done || lia).
  - intros q E. rewrite lookup_fmap in E. apply fmap_None in E. by apply H12.
Qed.

Lemma inv_getc u' c : ip = IRx → c = default (-1) (head (rx u)) → u_lock u' = u_lock u → u_busy u' = u_busy u → view (u_dev u') = ChipV (fifo u) (ch_ip (view (u_dev u))) (tail (rx u)) →
  uinv (if decide (c = -1) then UW u' sy ws IOff log ln i o else UW u' sy ws IRx log ln i (o ++ [c])).
Proof using Hinv.
  intros -> -> S1 S2 S3. destruct Hinv as [H1 H2 H3 H4 H5 H6 H7 H8 H9 H10 H11 H12 [H13 H14]]. cbn in *. destruct (rx u) as [|c l]; cbn in *.
  - rewrite decide_True by done. split; cbn; rewrite ?S1, ?S2, ?S3; cbn; try done.
    + intros [?|?]; [|done]. apply H5. by left.
    + rewrite H7. split; (intros [?|?]; [by left|done]).
    + intros Hb. destruct (H10 Hb) as [?|[?|[?|?]]]; [by left|by right; left|done|done].
  - apply Forall_cons in H14 as [Hc H14]. rewrite decide_False by lia. split; cbn; rewrite ?S1, ?S2, ?S3; cbn; try done. split; [|done]. by rewrite H13, <-app_assoc.
Qed.

Lemma inv_chip d' sent recv : chip_move (view (u_dev u)) sent recv (view d') → uinv (UW (set_u_dev d' u) sy ws ip log (ln ++ sent) (i ++ recv) o).
Proof using Hinv.
  destruct inside_length as [Hl1 Hl2]. destruct Hinv as [H1 H2 H3 H4 H5 H6 H7 H8 H9 H10 H11 H12 [H13 H14]]. cbn in *. intros Hm. inversion Hm as [c l ipp r E1 E2 E3 E4|c l ipp r Hc E1 E2 E3 E4]; subst sent recv; rewrite <-E1 in *; cbn in *.
  - assert (∃ x, inside G = x :: inside (UW (set_u_dev d' u) sy ws ip log (ln ++ [c]) (i ++ []) o)) as [x Hx]. { unfold inside in *. cbn in *. rewrite length_app. cbn. rewrite <-drop_drop. destruct (drop (length ln) log) as [|x m] eqn:Ed; [done|]. by exists x. }
    destruct (counts_tail x (inside (UW (set_u_dev d' u) sy ws ip log (ln ++ [c]) (i ++ []) o))) as [C1 C2]. rewrite <-Hx in C1, C2. split; cbn; rewrite <-?E4; cbn; try done.
    + by rewrite H1, <-app_assoc.
    + lia.
    + lia.
    + intros Hb. specialize (H5 Hb). lia.
    + intros Hb. destruct l as [|c' l]; [|by left]. right; left. by rewrite bool_decide_eq_true_2, orb_true_r.
    + by rewrite app_nil_r.
  - rewrite app_nil_r. split; cbn; rewrite <-?E4; cbn; try done. split; [by rewrite H13, app_assoc|]. apply Forall_app. split; [done|]. by apply Forall_singleton.
Qed.
End Inv.

Lemma ustep_inv g g' : uinv g → ustep g g' → uinv g'.
Proof using Hchip.
  intros Hinv Hst. destruct Hst as [h c u u' sy ws ip log ln i o Hh Hr E|u u' sy ws ip log ln i o E|h c b u u' sy ws ip log ln i o Hh E|p buf u sy ws ip log ln i o Hp Hb|p buf k u u' sy ws ip log ln i o Hp Hl E|p buf k k' u u' sy ws ip log ln i o Hp E|p buf k k' u u' sy ws ip log ln i o Hp E|p buf k u u' sy ws ip log ln i o Hp E|u u' sy ws log ln i o E|u u' sy ws log ln i o Hl E|u u' u'' sy ws log ln i o Hl E E'|u u' sy ws log ln i o E|c u u' sy ws log ln i o E Hc|u u' sy ws log ln i o E|d' sent recv u sy ws ip log ln i o Hm];
    try (pose proof (fifo_room _ _ _ _ _ _ _ _ Hinv) as Hroom; cbn in Hroom).
  - destruct (run_sync_idle u) as (u2 & E2 & Hs). rewrite E in E2. injection E2 as Hf <-. apply (inv_same u); [|done]. apply inv_look; try done. symmetry in Hf. by apply bool_decide_eq_true in Hf.
  - destruct (run_sync_idle u) as (u2 & E2 & Hs). rewrite E in E2. injection E2 as _ <-. by apply (inv_same u).
  - destruct (run_sync_send b c u ltac:(lia)) as (u2 & E2 & S1 & S2 & S3). rewrite E in E2. injection E2 as <-. by apply (inv_send u).
  - by apply inv_call.
  - assert (u' = set_u_lock true u) as ->. { unfold tx_acquire, Prelude.acquire, panic_if, gets, modify, mret, M_ret, mbind, M_bind in E. rewrite Hl in E. by injection E. } by apply inv_lock.
  - destruct (only_holder _ _ _ _ _ _ _ _ Hinv p _ Hp eq_refl) as (Hl & _ & _). destruct (run_turn buf k u Hl ltac:(lia)) as (r & u2 & E2 & Hr). rewrite E in E2. injection E2 as <- <-. destruct (Z.ltb_spec k (Z.of_nat (length buf))); [|by destruct Hr]. destruct (Z.eqb_spec (u_busy u) 0); [|by destruct Hr]. destruct Hr as ([= ->] & S1 & S2 & S3). by apply (inv_write u).
  - destruct (only_holder _ _ _ _ _ _ _ _ Hinv p _ Hp eq_refl) as (Hl & _ & _). destruct (run_turn buf k u Hl ltac:(lia)) as (r & u2 & E2 & Hr). rewrite E in E2. injection E2 as <- <-. destruct (Z.ltb_spec k (Z.of_nat (length buf))); [|by destruct Hr]. destruct (Z.eqb_spec (u_busy u) 0); [by destruct Hr|]. destruct Hr as ([= ->] & ->). apply inv_unlock; [done|done|]. by left.
  - destruct (only_holder _ _ _ _ _ _ _ _ Hinv p _ Hp eq_refl) as (Hl & _ & _). destruct (run_turn buf k u Hl ltac:(lia)) as (r & u2 & E2 & Hr). rewrite E in E2. injection E2 as <- <-. destruct (Z.ltb_spec k (Z.of_nat (length buf))); [destruct (u_busy u =? 0); by destruct Hr|]. destruct Hr as [_ ->]. apply inv_unlock; [done|done|]. right. split; [done|]. destruct Hinv as [_ _ _ _ _ _ _ _ _ _ H11 _ _]. destruct (H11 p _ Hp) as (M1 & _). cbn in M1. lia.
  - destruct (run_ack u) as (d' & E2 & Hv). rewrite E in E2. injection E2 as ->. by apply (inv_ack u sy ws IOff).
  - destruct (run_look u Hl) as (u2 & E2 & Hs). rewrite E in E2. injection E2 as Hf <-. symmetry in Hf. apply bool_decide_eq_true in Hf. apply (inv_same (set_u_lock true u)); [|done]. by apply (inv_idle u sy ws IAcked).
  - destruct (run_look u Hl) as (u2 & E2 & S1 & S2 & S3). rewrite E in E2. injection E2 as Hf <-. symmetry in Hf. apply bool_decide_eq_false in Hf. cbn in S1, S2, S3. assert (u'' = set_u_lock false u') as ->. { unfold tx_release, Prelude.release, panic_if, gets, modify, mret, M_ret, mbind, M_bind in E'. rewrite S1 in E'. by injection E'. }
    apply (inv_same u); [by apply (inv_busy u sy ws IAcked)|]. by split_and!.
  - assert (u' = set_u_lock false (set_u_busy 0 u)) as ->; [|by apply (inv_clear u sy ws ISeen)]. assert (u_lock u = true) as Hl by (destruct Hinv as [_ _ _ _ _ _ H7 _ _ _ _ _ _]; apply H7; by right). unfold intr_clear, tx_release, Prelude.release, panic_if, gets, modify, mret, M_ret, mbind, M_bind in E. cbn in E. rewrite Hl in E. by injection E.
  - destruct (run_getc u) as (u2 & E2 & S1 & S2 & S3). rewrite E in E2. injection E2 as Hcc <-. pose proof (inv_getc u sy ws IRx log ln i o Hinv u' c eq_refl Hcc S1 S2 S3) as H. by rewrite decide_False in H.
  - destruct (run_getc u) as (u2 & E2 & S1 & S2 & S3). rewrite E in E2. injection E2 as Hcc <-. pose proof (inv_getc u sy ws IRx log ln i o Hinv u' (-1) eq_refl Hcc S1 S2 S3) as H. by rewrite decide_True in H.
  - by apply inv_chip.
Qed.
End World.
Arguments uworld D : clear implicits.

(** Nothing sent yet, nobody calling. *)
Definition uworld0 {D} (d : D) (c : cpu) : uworld D := UW (Uart false 0 d c) ∅ ∅ IOff [] [] [] [].

Lemma uworld0_inv {D} (view : D → chip) d c : view d = ChipV [] false [] → uinv view (uworld0 d c).
Proof.
  intros Hv. split; cbn; rewrite ?Hv; try done.
  - cbn. rewrite map_size_empty. cbn. lia.
  - by intros h [? ?].
  - cbn. lia.
  - split; [done|]. by intros [(p & w & ? & _)|?].
Qed.

(** C16: The serial line with any number of processes in [uartwrite], up to one
    [uartputc_sync] on each hart, the interrupt handler and the chip interleaved.
    What the chip has sent and still holds is what it was given, in that order; it
    never holds more than nine bytes, of the sixteen it has room for, so that none
    is lost; each [uartwrite] has sent the bytes of its buffer from the first on,
    and all of them when it returns; a process sleeps only while [tx_busy] is set
    and bytes are under way or the interrupt that wakes it is due; what is
    received goes to the console in order; and no access of the driver fails. *)
Theorem uart_delivers {D} {MM : Mmio D} (view : D → chip) d c g :
  chip_ok view → view d = ChipV [] false [] → rtc (ustep view) (uworld0 d c) g →
  let u := g_u g in let v := view (u_dev u) in
  (g_log g).*2 = g_line g ++ ch_fifo v ∧ Z.of_nat (length (ch_fifo v)) ≤ NCPU + 1 ∧
  (∀ p w, g_w g !! p = Some w → mine p (g_log g) = take (Z.to_nat (w_i w)) (w_buf w) ∧ (w_pc w = WDone → mine p (g_log g) = w_buf w)) ∧
  (∀ p w, g_w g !! p = Some w → w_pc w = WAsleep → u_busy u ≠ 0 ∧ (ch_fifo v ≠ [] ∨ ch_ip v = true ∨ g_i g = IAcked ∨ g_i g = ISeen)) ∧
  g_in g = g_got g ++ ch_rx v ∧
  (∀ p buf k, g_w g !! p = Some (Writer buf k WHold) → ∃ r u', uartwrite_turn buf k u = Ok r u') ∧
  (∀ h b c, g_sync g !! h = Some c → ∃ u', sync_send b c u = Ok tt u').
Proof.
  intros Hch Hv Hr u v. assert (uinv view g) as Hinv by (pose proof (uworld0_inv view d c Hv) as H0; clear Hv; induction Hr as [|g1 g2 g3 Hst _ IH]; [done|apply IH; by apply (ustep_inv view Hch g1)]).
  pose proof Hinv as [H1 H2 H3 H4 H5 H6 H7 H8 H9 H10 H11 H12 [H13 H14]]. destruct g as [gu sy ws ip log ln i o]. pose proof (fifo_room view _ _ _ _ _ _ _ _ Hinv) as Hroom. cbn in *. fold v in Hroom, H1, H10, H13. subst u. split_and!; try done.
  - unfold NCPU. lia.
  - intros p w E. destruct (H11 p w E) as (M1 & M2 & M3 & _). split; [done|]. intros P. rewrite M2. apply take_ge. rewrite (M3 P). lia.
  - intros p w E P. split; [by apply (H9 p w)|]. apply H10. by apply (H9 p w).
  - intros p buf k E. assert (u_lock gu = true) as Hl by (apply H7; left; by eexists _, _). destruct (run_turn view Hch buf k gu Hl ltac:(fold v; lia)) as (r & u' & E' & _). by exists r, u'.
  - intros h b x E. destruct (run_sync_send view Hch b x gu ltac:(fold v; lia)) as (u' & E' & _). by exists u'.
Qed.

(** ** A chip and a run *)

Module UartWitness.
#[local] Instance chip_regs : Mmio chip := {|
  mmio_ld8 a := λ d,
    if a =? UART0 + LSR then Ok (Z.lor (if ch_fifo d then LSR_TX_IDLE else 0) (if ch_rx d then 0 else LSR_RX_READY)) d
    else if a =? UART0 + ISR then Ok 0 (ChipV (ch_fifo d) false (ch_rx d))
    else match ch_rx d with c :: l => Ok c (ChipV (ch_fifo d) (ch_ip d) l) | [] => Ok 0 d end;
  mmio_st8 a v := λ d,
    if (a =? UART0 + THR) && bool_decide (length (ch_fifo d) < 16)%nat then Ok tt (ChipV (ch_fifo d ++ [v]) (ch_ip d) (ch_rx d)) else Ok tt d;
  mmio_ld32 a := λ d, Ok 0 d;
  mmio_st32 a v := λ d, Ok tt d
|}.

Lemma regs_fine : chip_ok (λ d : chip, d).
Proof.
  split.
  - intros [f ip r]. eexists _, _. split; [reflexivity|]. split; [done|]. destruct f, r; done.
  - intros c [f ip r] Hl. eexists. split; [|reflexivity]. cbn in *. by rewrite bool_decide_eq_true_2.
  - intros [f ip r]. by eexists _, _.
  - intros c l [f ip r] Hr. cbn in *. subst r. by eexists.
Qed.

(** A process writes a byte; the chip sends it and interrupts. *)
Definition c0 : cpu := Cpu 0 false true.
Definition g1 : uworld chip := UW (Uart false 1 (ChipV [] true []) c0) ∅ (<[7 := Writer [72; 105] 1 WAsleep]> ∅) IOff [(Some 7, 72)] [72] [] [].

Lemma run1 : rtc (ustep (λ d : chip, d)) (uworld0 (ChipV [] false []) c0) g1.
Proof.
  eapply rtc_l; [apply (SCall _ 7 [72; 105]); [done|repeat (apply Forall_cons; split; [lia|]); constructor]|].
  eapply rtc_l; [eapply (SLock _ 7); [apply lookup_insert_eq|reflexivity|reflexivity]|].
  eapply rtc_l; [eapply (SWrite _ 7); [apply lookup_insert_eq|reflexivity]|].
  eapply rtc_l; [eapply (SSleep _ 7); [apply lookup_insert_eq|reflexivity]|].
  eapply rtc_l; [apply (SChip _ (ChipV [] true []) [72] []); apply (Sends 72 [] false [])|].
  rewrite !insert_insert_eq. apply rtc_refl.
Qed.

Lemma uart_delivers_witness : (g_log g1).*2 = g_line g1 ++ [] ∧ mine 7 (g_log g1) = [72] ∧ (ch_ip (u_dev (g_u g1)) = true ∨ g_i g1 = IAcked).
Proof.
  destruct (uart_delivers (λ d : chip, d) (ChipV [] false []) c0 g1 regs_fine eq_refl run1) as (H1 & _ & H3 & H4 & _).
  split; [exact H1|]. split; [exact (proj1 (H3 7 (Writer [72; 105] 1 WAsleep) eq_refl))|]. destruct (H4 7 (Writer [72; 105] 1 WAsleep) eq_refl eq_refl) as [_ [H|[H|[H|H]]]]; [by destruct H|by left|by right|discriminate H].
Defined.
End UartWitness.
