(* ===== verification/Console.v ===== *)
(** * The console: [kernel/console.c]

    The input ring with its read, write and edit counters, the interrupt
    handler that edits the current line, and the reader.  Characters sent to
    the UART are appended to [c_out].  As for pipes, a reader runs until it
    returns or sleeps; [uok] says which addresses of the caller are mapped. *)

From S2P Require Import Prelude Mem Layout Ring.

Definition BACKSPACE : Z := 0x100.
Definition INPUT_BUF_SIZE : Z := 128.

(** [C(x)]: control characters. *)
Definition C (x : Z) : Z := x - 64.
Definition C_P : Z := C 80.
Definition C_U : Z := C 85.
Definition C_H : Z := C 72.
Definition C_D : Z := C 68.
Definition NL : Z := 10.
Definition CR : Z := 13.
Definition DEL : Z := 127.

Record console := Cons {
  c_lock : bool;
  c_buf : gmap Z Z;
  c_r : Z;
  c_w : Z;
  c_e : Z;
  c_out : list Z
}.

Definition set_c_lock (b : bool) (s : console) : console := Cons b (c_buf s) (c_r s) (c_w s) (c_e s) (c_out s).
Definition set_c_buf (v : gmap Z Z) (s : console) : console := Cons (c_lock s) v (c_r s) (c_w s) (c_e s) (c_out s).
Definition set_c_r (v : Z) (s : console) : console := Cons (c_lock s) (c_buf s) v (c_w s) (c_e s) (c_out s).
Definition set_c_w (v : Z) (s : console) : console := Cons (c_lock s) (c_buf s) (c_r s) v (c_e s) (c_out s).
Definition set_c_e (v : Z) (s : console) : console := Cons (c_lock s) (c_buf s) (c_r s) (c_w s) v (c_out s).
Definition emit (l : list Z) (s : console) : console :=
  Cons (c_lock s) (c_buf s) (c_r s) (c_w s) (c_e s) (c_out s ++ l).

Definition consputc (c : Z) : M console unit :=
  if c =? BACKSPACE then modify (emit [8; 32; 8]) else modify (emit [u8 c]).

(** [cons.buf[i % INPUT_BUF_SIZE]] *)
Definition cbuf (s : console) (i : Z) : Z := default 0 (c_buf s !! (i mod INPUT_BUF_SIZE)).

Section Console.
(** What [procdump] prints. *)
Context (procdump : list Z).

Definition erase : M console unit :=
  modify (λ s, set_c_e (u32 (c_e s - 1)) s);;
  consputc BACKSPACE.

Definition kill_line : M console unit :=
  loop (Z.to_nat INPUT_BUF_SIZE + 1) (λ _ : unit,
    gets (λ s, negb (c_e s =? c_w s) && negb (cbuf s (u32 (c_e s - 1)) =? NL)) ≫= λ go : bool,
    if go then erase;; mret (inl tt) else mret (inr tt)) tt.

Definition insert_char (c : Z) : M console unit :=
  gets (λ s, negb (c =? 0) && (u32 (c_e s - c_r s) <? INPUT_BUF_SIZE)) ≫= λ room : bool,
  if room then
    let c := if c =? CR then NL else c in
    consputc c;;
    modify (λ s, set_c_buf (<[c_e s mod INPUT_BUF_SIZE := u8 c]> (c_buf s)) s);;
    modify (λ s, set_c_e (u32 (c_e s + 1)) s);;
    gets (λ s, (c =? NL) || (c =? C_D) || (u32 (c_e s - c_r s) =? INPUT_BUF_SIZE)) ≫= λ line : bool,
    if line then modify (λ s, set_c_w (c_e s) s) else mret tt
  else mret tt.

Definition consoleintr (c : Z) : M console unit :=
  acquire c_lock set_c_lock;;
  (if c =? C_P then modify (emit procdump)
   else if c =? C_U then kill_line
   else if (c =? C_H) || (c =? DEL) then
     gets (λ s, negb (c_e s =? c_w s)) ≫= λ go : bool, if go then erase else mret tt
   else insert_char c);;
  release c_lock set_c_lock.
End Console.

(** How a run of [consoleread] ends. *)
Inductive cend := CDone (r : Z) | CSleep (dst n : Z).

Section Read.
Context (uok : Z → bool).

(** [consoleread] from its loop with [n] bytes left to read at [dst], the lock just
    taken; [target] is the count of the call. *)
Definition consoleread (killed : bool) (target : Z) (dst n : Z) (um : mem) : M console (cend * mem) :=
  acquire c_lock set_c_lock;;
  r ← loop (Z.to_nat n + 1) (λ x : Z * Z * mem,
    let '(dst, n, um) := x in
    if negb (0 <? n) then mret (inr (CDone (i32 (target - n)), um)) else
    gets (λ s, c_r s =? c_w s) ≫= λ empty : bool,
    if empty then mret (inr (if killed then CDone (-1) else CSleep dst n, um)) else
    c ← gets (λ s, cbuf s (c_r s));
    modify (λ s, set_c_r (u32 (c_r s + 1)) s);;
    if c =? C_D then
      (if n <? target then modify (λ s, set_c_r (u32 (c_r s - 1)) s) else mret tt);;
      mret (inr (CDone (i32 (target - n)), um))
    else if uok dst then
      let um := stb um dst c in
      let dst := u64 (dst + 1) in
      let n := n - 1 in
      if c =? NL then mret (inr (CDone (i32 (target - n)), um)) else mret (inl (dst, n, um))
    else mret (inr (CDone (i32 (target - n)), um))) (dst, n, um);
  release c_lock set_c_lock;;
  mret r.

(** [either_copyin] of a chunk; [uartwrite] puts it on the wire. *)
Definition consolewrite (um : mem) (src n : Z) : M console Z :=
  loop (Z.to_nat n + 1) (λ i,
    if negb (i <? n) then mret (inr i) else
    let nn := Z.min 32 (n - i) in
    let addrs := (λ k, u64 (src + i + k)) <$> seqZ 0 nn in
    if negb (forallb uok addrs) then mret (inr i) else
    modify (emit ((λ a, ldb um a) <$> addrs));;
    mret (inl (i + nn))) 0.
End Read.

(** ** The line editor the console implements

    [lines]: input ready for readers; [pending]: the line being edited. *)

Record editor := Ed { lines : list Z; pending : list Z }.

(** The characters in order of typing. *)
Definition ed_key (c : Z) (x : editor) : editor :=
  if c =? C_P then x
  else if c =? C_U then Ed (lines x) []
  else if (c =? C_H) || (c =? DEL) then Ed (lines x) (removelast (pending x))
  else if negb (c =? 0) && (Z.of_nat (length (lines x ++ pending x)) <? INPUT_BUF_SIZE) then
    let c := if c =? CR then NL else c in
    let p := pending x ++ [u8 c] in
    if (c =? NL) || (c =? C_D) || (Z.of_nat (length (lines x ++ p)) =? INPUT_BUF_SIZE)
    then Ed (lines x ++ p) [] else Ed (lines x) p
  else x.

Record cons_ok (x : editor) (s : console) : Prop := {
  co_r : 0 ≤ c_r s < 4294967296;
  co_w : 0 ≤ c_w s < 4294967296;
  co_e : 0 ≤ c_e s < 4294967296;
  co_all : rq INPUT_BUF_SIZE (c_buf s) (c_r s) (c_e s) = lines x ++ pending x;
  co_lines : u32 (c_w s - c_r s) = Z.of_nat (length (lines x));
  co_size : Z.of_nat (length (lines x ++ pending x)) ≤ INPUT_BUF_SIZE;
  co_pending : NL ∉ pending x;
  co_bytes : Forall (λ b, 0 ≤ b < 256) (lines x ++ pending x)
}.

Lemma ibs_pos : 0 < INPUT_BUF_SIZE.
Proof. unfold INPUT_BUF_SIZE. lia. Qed.
Lemma ibs_div : (INPUT_BUF_SIZE | 4294967296).
Proof. by exists 33554432. Qed.

Section ConsoleOk.
Context (x : editor) (s : console) (Hok : cons_ok x s).

Lemma cons_len : u32 (c_e s - c_r s) = Z.of_nat (length (lines x ++ pending x)).
Proof. destruct Hok as [_ _ _ Ha _ _ _ _]. by rewrite <-Ha, rq_length. Qed.

Lemma cons_pending_len : u32 (c_e s - c_w s) = Z.of_nat (length (pending x)).
Proof.
  pose proof cons_len as Hl. rewrite length_app in Hl. destruct Hok as [Hr Hw He _ Hlw Hs _ _].
  rewrite length_app in Hs. replace (c_e s - c_w s) with (c_e s - c_r s - (c_w s - c_r s)) by lia.
  rewrite <-u32_sub_l, <-u32_sub_r, Hl, Hlw. unfold INPUT_BUF_SIZE in Hs. rewrite u32_small; lia.
Qed.

Lemma cons_edit : (c_e s =? c_w s) = bool_decide (pending x = []).
Proof.
  pose proof cons_pending_len as Hl. destruct Hok as [Hr Hw He _ Hlw _ _ _].
  destruct (Z.eqb_spec (c_e s) (c_w s)) as [E|E]; symmetry.
  - apply bool_decide_true. apply length_zero_iff_nil. rewrite E, Z.sub_diag in Hl. change (u32 0) with 0 in Hl. lia.
  - apply bool_decide_false. intros Hp. rewrite Hp in Hl. cbn in Hl. apply E. symmetry. by apply u32_eq.
Qed.

Lemma cons_empty : (c_r s =? c_w s) = bool_decide (lines x = []).
Proof.
  destruct Hok as [Hr Hw He _ Hlw _ _ _]. destruct (Z.eqb_spec (c_r s) (c_w s)) as [E|E]; symmetry.
  - apply bool_decide_true. rewrite E, Z.sub_diag in Hlw. apply length_zero_iff_nil. change (u32 0) with 0 in Hlw. lia.
  - apply bool_decide_false. intros Hp. rewrite Hp in Hlw. by apply E, u32_eq.
Qed.

Lemma cons_last p ch :
  pending x = p ++ [ch] →
  cbuf s (u32 (c_e s - 1)) = ch ∧ cons_ok (Ed (lines x) p) (set_c_e (u32 (c_e s - 1)) s).
Proof.
  intros Hp. destruct Hok as [Hr Hw He Ha Hlw Hs Hnl Hb]. rewrite Hp, app_assoc in Ha.
  destruct (rq_unpush INPUT_BUF_SIZE ibs_pos ibs_div (c_buf s) (c_r s) (c_e s) ch _ Ha) as (Hq & Hc & Hlen).
  split; [exact Hc|]. rewrite Hp in Hs, Hnl, Hb. split; cbn; try done.
  - apply u32_bound.
  - rewrite !length_app in *. cbn in *. lia.
  - set_solver.
  - rewrite app_assoc in Hb. by apply Forall_app in Hb as [? _].
Qed.
End ConsoleOk.

Ltac wp_red ::= idtac.

Lemma set_e_out v l s : set_c_e v (emit l s) = emit l (set_c_e v s).
Proof. done. Qed.

Lemma cons_ok_out x l s : cons_ok x s → cons_ok x (emit l s).
Proof. by intros []. Qed.

Lemma cons_ok_lock x b s : cons_ok x s → cons_ok x (set_c_lock b s).
Proof. by intros []. Qed.

Lemma erase_spec x s p ch :
  cons_ok x s → pending x = p ++ [ch] →
  wp erase (λ _ s', cons_ok (Ed (lines x) p) s' ∧ c_lock s' = c_lock s) s.
Proof.
  intros Hok Hp. destruct (cons_last x s Hok p ch Hp) as [_ Hok']. unfold erase. wp_simpl.
  unfold consputc. cbn [BACKSPACE Z.eqb Pos.eqb]. wp_simpl. split; [|done]. by apply cons_ok_out.
Qed.

Lemma kill_line_spec x s :
  cons_ok x s → wp kill_line (λ _ s', cons_ok (Ed (lines x) []) s' ∧ c_lock s' = c_lock s) s.
Proof.
  intros Hok. unfold kill_line.
  apply wp_loop with (meas := λ _ s', Z.to_nat (u32 (c_e s' - c_w s')))
    (I := λ _ s', ∃ p, cons_ok (Ed (lines x) p) s' ∧ c_lock s' = c_lock s).
  - exists (pending x). by destruct x.
  - rewrite (cons_pending_len x s Hok). destruct Hok as [_ _ _ _ _ Hs _ _]. rewrite length_app in Hs. lia.
  - clear Hok. intros [] s1 (p & Hok & Hl). wp_simpl. rewrite (cons_edit _ _ Hok). cbn [pending].
    destruct p as [|ch p _] using rev_ind; [rewrite bool_decide_true by done; by wp_simpl|].
    rewrite bool_decide_false by (by destruct p). destruct (cons_last _ _ Hok p ch eq_refl) as [Hc _].
    rewrite Hc. assert (ch ≠ NL) as Hne by (destruct Hok as [_ _ _ _ _ _ Hn _]; set_solver).
    rewrite (proj2 (Z.eqb_neq _ _) Hne). cbn [negb andb]. wp_step.
    wp_apply (erase_spec _ _ p ch Hok); [done|]. intros [] s2 [Hok2 Hl2]. wp_simpl. split; [exists p; by rewrite Hl2|].
    rewrite (cons_pending_len _ _ Hok), (cons_pending_len _ _ Hok2). cbn. rewrite length_app. cbn. lia.
Qed.

Lemma insert_char_spec x s c :
  cons_ok x s → 0 ≤ c < 256 → (c =? C_P) || (c =? C_U) || (c =? C_H) || (c =? DEL) = false →
  wp (insert_char c) (λ _ s', cons_ok (ed_key c x) s' ∧ c_lock s' = c_lock s) s.
Proof.
  intros Hok Hc Hk. rewrite !orb_false_iff in Hk. destruct Hk as (((K1 & K2) & K3) & K4).
  unfold insert_char, ed_key. rewrite K1, K2, K3, K4. cbn [orb]. wp_simpl. rewrite (cons_len x s Hok).
  destruct (negb (c =? 0) && _) eqn:Hroom; [|wp_simpl; done].
  apply andb_true_iff in Hroom as [_ Hroom%Z.ltb_lt]. cbv zeta.
  set (c' := if c =? CR then NL else c). assert (0 ≤ c' < 256) as Hc'.
  { unfold c', CR, NL. case_match; lia. }
  assert (u8 c' = c') as Hu by (unfold u8; apply Z.mod_small; lia).
  unfold consputc. rewrite (proj2 (Z.eqb_neq c' BACKSPACE)) by (unfold BACKSPACE; lia). wp_simpl.
  cbn [c_buf c_e c_r emit set_c_buf set_c_e].
  destruct Hok as [Hr Hw He Ha Hlw Hs Hnl Hb].
  destruct (rq_push INPUT_BUF_SIZE ibs_pos ibs_div (c_buf s) (c_r s) (c_e s) (u8 c')) as [Hq Hlen].
  { by rewrite <-rq_length with (size := INPUT_BUF_SIZE) (data := c_buf s), Ha. }
  { unfold INPUT_BUF_SIZE. lia. }
  rewrite <-rq_length with (size := INPUT_BUF_SIZE) (data := <[c_e s mod INPUT_BUF_SIZE := u8 c']> (c_buf s)), Hq, Ha.
  rewrite <-(app_assoc (lines x)), Hu. rewrite Hu in Hq. rewrite !length_app in *. cbn [length] in *.
  assert (Forall (λ b, 0 ≤ b < 256) (lines x ++ pending x ++ [c'])) as Hb'.
  { rewrite app_assoc. apply Forall_app. split; [done|]. by apply Forall_singleton. }
  destruct ((c' =? NL) || (c' =? C_D) || _) eqn:El; wp_simpl; (split; [|done]); split; cbn; try done; try apply u32_bound.
  - by rewrite app_nil_r, Hq, Ha, <-app_assoc.
  - rewrite Hlen. rewrite <-rq_length with (size := INPUT_BUF_SIZE) (data := c_buf s), Ha, !length_app. cbn. lia.
  - rewrite app_nil_r, !length_app. cbn. lia.
  - set_solver.
  - by rewrite app_nil_r.
  - by rewrite Hq, Ha, <-app_assoc.
  - rewrite !length_app. cbn. lia.
  - apply orb_false_iff in El as [El _]. apply orb_false_iff in El as [El _]. apply Z.eqb_neq in El. set_solver.
Qed.

Lemma ed_key_erase c x : (c =? C_H) || (c =? DEL) = true → ed_key c x = Ed (lines x) (removelast (pending x)).
Proof.
  intros Hc. unfold ed_key. apply orb_true_iff in Hc as [Hc|Hc]; apply Z.eqb_eq in Hc as ->; reflexivity.
Qed.

(** The handler is the line editor. *)
Lemma consoleintr_spec pd x s c :
  cons_ok x s → c_lock s = false → 0 ≤ c < 256 →
  wp (consoleintr pd c) (λ _ s', cons_ok (ed_key c x) s' ∧ c_lock s' = false) s.
Proof.
  intros Hok Hl Hc. unfold consoleintr. wp_simpl. apply (cons_ok_lock x true) in Hok.
  revert Hok. generalize (eq_refl : c_lock (set_c_lock true s) = true). generalize (set_c_lock true s).
  clear s Hl. intros s Hl Hok.
  assert (∀ s', cons_ok (ed_key c x) s' → c_lock s' = c_lock s →
    wp (release c_lock set_c_lock) (λ _ s', cons_ok (ed_key c x) s' ∧ c_lock s' = false) s') as Hend.
  { intros s' Hok' Hl'. wp_simpl; [congruence|]. split; [by apply cons_ok_lock|done]. }
  destruct (c =? C_P) eqn:K1.
  { wp_step. apply Hend; [|done]. apply Z.eqb_eq in K1 as ->. by apply cons_ok_out. }
  destruct (c =? C_U) eqn:K2.
  { wp_apply kill_line_spec; [done|]. intros [] s' [Hok' Hl']. apply Hend; [|done]. by apply Z.eqb_eq in K2 as ->. }
  destruct ((c =? C_H) || (c =? DEL)) eqn:K3.
  - wp_simpl. rewrite (cons_edit _ _ Hok).
    assert (ed_key c x = Ed (lines x) (removelast (pending x))) as Hk by (by apply ed_key_erase).
    destruct (pending x) as [|ch p _] eqn:Ep using rev_ind.
    + rewrite bool_decide_true by done. cbn [negb]. wp_step. apply Hend; [|done]. rewrite Hk. cbn. by destruct x; cbn in *; subst.
    + rewrite bool_decide_false by (by destruct p). cbn [negb]. rewrite removelast_last in Hk.
      wp_apply (erase_spec x s p ch Hok Ep). intros [] s' [Hok' Hl']. apply Hend; [|done]. by rewrite Hk.
  - wp_apply insert_char_spec; [done..| |].
    { rewrite K1, K2. cbn. rewrite <-K3. done. }
    intros [] s' [Hok' Hl']. by apply Hend.
Qed.

(** ** Reading *)

(** At most [n] bytes of the input [l]: a line, or what precedes an end-of-file
    mark, which is left for the next read unless it comes first ([first]).  A
    byte whose address is not mapped is taken, ends the read and goes nowhere.
    The result: bytes delivered, input left, and whether the read is over. *)
Fixpoint ed_read (uok : Z → bool) (dst : Z) (n : nat) (first : bool) (l : list Z) : list Z * list Z * bool :=
  match n, l with
  | O, _ => ([], l, true)
  | _, [] => ([], [], false)
  | S n', c :: l' =>
      if c =? C_D then ([], if first then l' else l, true)
      else if negb (uok dst) then ([], l', true)
      else if c =? NL then ([c], l', true)
      else let '(d, r, fin) := ed_read uok (u64 (dst + 1)) n' false l' in (c :: d, r, fin)
  end.

Fixpoint cstore (um : mem) (dst : Z) (l : list Z) : mem * Z :=
  match l with
  | [] => (um, dst)
  | c :: l' => cstore (stb um dst c) (u64 (dst + 1)) l'
  end.

(** The next address does not depend on the memory. *)
Lemma cstore_addr um um' dst l : (cstore um dst l).2 = (cstore um' dst l).2.
Proof. revert um um' dst. induction l as [|c l IH]; intros um um' dst; [done|]. apply IH. Qed.

Lemma cons_pop x s ch l :
  cons_ok x s → lines x = ch :: l →
  cbuf s (c_r s) = ch ∧ cons_ok (Ed l (pending x)) (set_c_r (u32 (c_r s + 1)) s) ∧
  u32 (u32 (c_r s + 1) - 1) = c_r s ∧ 0 ≤ ch < 256.
Proof.
  intros [Hr Hw He Ha Hlw Hs Hnl Hb] Hl. rewrite Hl in *. cbn [app] in *.
  destruct (rq_pop INPUT_BUF_SIZE ibs_pos ibs_div (c_buf s) (c_r s) (c_e s) ch _ Ha) as (Hq & Hc & Hlen).
  apply Forall_cons in Hb as [Hch Hb]. split; [exact Hc|]. split; [|split; [|exact Hch]].
  - split; cbn; try done; [apply u32_bound| |cbn in Hs; lia].
    rewrite u32_sub_r. replace (c_w s - (c_r s + 1)) with (c_w s - c_r s - 1) by lia.
    rewrite <-u32_sub_l, Hlw. cbn [length] in *. rewrite length_app in *. unfold INPUT_BUF_SIZE in *.
    rewrite u32_small; lia.
  - rewrite u32_sub_l. replace (c_r s + 1 - 1) with (c_r s) by lia. by apply u32_small.
Qed.

Lemma set_r_id s r : r = c_r s → set_c_r r s = s.
Proof. intros ->. by destruct s. Qed.

Section ReadSpec.
Context (uok : Z → bool).

Definition read_end (killed : bool) (target n : Z) (dst' : Z) (d : list Z) (fin : bool) : cend :=
  if fin then CDone (i32 (target - (n - Z.of_nat (length d))))
  else if killed then CDone (-1) else CSleep dst' (n - Z.of_nat (length d)).

Lemma consoleread_loop killed target (n : nat) fuel x s dst um (Q : cend * mem → console → Prop) :
  cons_ok x s → Z.of_nat n ≤ target < 2147483648 → (n < fuel)%nat →
  (∀ d rest fin s', ed_read uok dst n (bool_decide (Z.of_nat n = target)) (lines x) = (d, rest, fin) →
     cons_ok (Ed rest (pending x)) s' → c_lock s' = c_lock s →
     Q (read_end killed target (Z.of_nat n) (cstore um dst d).2 d fin, (cstore um dst d).1) s') →
  wp (loop fuel (λ x : Z * Z * mem,
    let '(dst, n, um) := x in
    if negb (0 <? n) then mret (inr (CDone (i32 (target - n)), um)) else
    gets (λ s, c_r s =? c_w s) ≫= λ empty : bool,
    if empty then mret (inr (if killed then CDone (-1) else CSleep dst n, um)) else
    c ← gets (λ s, cbuf s (c_r s));
    modify (λ s, set_c_r (u32 (c_r s + 1)) s);;
    if c =? C_D then
      (if n <? target then modify (λ s, set_c_r (u32 (c_r s - 1)) s) else mret tt);;
      mret (inr (CDone (i32 (target - n)), um))
    else if uok dst then
      let um := stb um dst c in
      let dst := u64 (dst + 1) in
      let n := n - 1 in
      if c =? NL then mret (inr (CDone (i32 (target - n)), um)) else mret (inl (dst, n, um))
    else mret (inr (CDone (i32 (target - n)), um))) (dst, Z.of_nat n, um)) Q s.
Proof.
  revert fuel x s dst um Q. induction n as [|n IH]; intros fuel x s dst um Q Hok Ht Hf HQ;
    (destruct fuel as [|fuel]; [lia|]); apply wp_loop_S.
  - cbn. apply (HQ [] (lines x) true); [by destruct (lines x)|by destruct x|done].
  - rewrite (proj2 (Z.ltb_lt 0 _)) by lia. cbn [negb]. wp_simpl. rewrite (cons_empty x s Hok).
    destruct (lines x) as [|ch l] eqn:El.
    { rewrite bool_decide_true by done. wp_simpl. specialize (HQ [] [] false s eq_refl).
      unfold read_end in HQ. cbn [length] in HQ. rewrite Z.sub_0_r in HQ. destruct x; cbn in *; subst.
      destruct killed; by apply HQ. }
    rewrite bool_decide_false by done. destruct (cons_pop x s ch l Hok El) as (Hc & Hok' & Hback & Hch).
    wp_simpl. rewrite Hc. cbn [ed_read] in HQ. destruct (ch =? C_D) eqn:Ecd.
    + destruct (Z.ltb_spec (Z.of_nat (S n)) target) as [Hlt|Hge].
      * rewrite bool_decide_false in HQ by lia. wp_simpl. cbn [set_c_r c_r]. rewrite Hback.
        specialize (HQ [] (ch :: l) true s eq_refl). unfold read_end in HQ. cbn [length] in HQ. rewrite Z.sub_0_r in HQ.
        rewrite <-El in HQ. destruct x, s; cbn in *. by apply HQ.
      * rewrite bool_decide_true in HQ by lia. wp_simpl. specialize (HQ [] l true _ eq_refl Hok' eq_refl).
        unfold read_end in HQ. cbn [length] in HQ. by rewrite Z.sub_0_r in HQ.
    + destruct (uok dst) eqn:Eu; cbn [negb] in HQ.
      2: { wp_simpl. specialize (HQ [] l true _ eq_refl Hok' eq_refl). unfold read_end in HQ. cbn [length] in HQ. by rewrite Z.sub_0_r in HQ. }
      cbv zeta. replace (Z.of_nat (S n) - 1) with (Z.of_nat n) by lia. destruct (ch =? NL) eqn:En.
      * wp_simpl. specialize (HQ [ch] l true _ eq_refl Hok' eq_refl). unfold read_end in HQ. cbn [length] in HQ.
        by replace (Z.of_nat (S n) - Z.of_nat 1) with (Z.of_nat n) in HQ by lia.
      * wp_step. apply (IH fuel (Ed l (pending x))); [done|lia..|]. cbn [lines pending].
        rewrite bool_decide_false by lia. intros d rest fin s' Hr Hok2 Hl2.
        rewrite Hr in HQ. specialize (HQ (ch :: d) rest fin s' eq_refl Hok2 Hl2). cbn [cstore] in HQ.
        unfold read_end in *. cbn [length] in HQ.
        by replace (Z.of_nat (S n) - Z.of_nat (S (length d))) with (Z.of_nat n - Z.of_nat (length d)) in HQ by lia.
Qed.

Lemma consoleread_spec killed target (n : nat) x s dst um :
  cons_ok x s → c_lock s = false → Z.of_nat n ≤ target < 2147483648 →
  wp (consoleread uok killed target dst (Z.of_nat n) um) (λ r s',
    let '(d, rest, fin) := ed_read uok dst n (bool_decide (Z.of_nat n = target)) (lines x) in
    cons_ok (Ed rest (pending x)) s' ∧ c_lock s' = false ∧
    r = (read_end killed target (Z.of_nat n) (cstore um dst d).2 d fin, (cstore um dst d).1)) s.
Proof.
  intros Hok Hl Ht. unfold consoleread. wp_simpl.
  apply (consoleread_loop killed target n _ x); [by apply cons_ok_lock|done|lia|].
  intros d rest fin s' Hr Hok' Hl'. wp_simpl. rewrite Hr. split_and!; [by apply cons_ok_lock|done|done].
Qed.
End ReadSpec.

(** A read delivers at most one line, and never an end-of-file mark. *)
Lemma ed_read_line uok dst n first l d rest fin :
  ed_read uok dst n first l = (d, rest, fin) →
  (length d ≤ n)%nat ∧ C_D ∉ d ∧ NL ∉ removelast d ∧
  ∃ gone, l = d ++ gone ++ rest ∧ (gone = [] ∨ (gone = [C_D] ∧ d = [] ∧ first = true) ∨
    (∃ c, gone = [c] ∧ uok (cstore ∅ dst d).2 = false)).
Proof.
  revert dst first l d rest fin. induction n as [|n IH]; intros dst first l d rest fin; cbn [ed_read].
  - destruct l; intros [= <- <- <-]; (split_and!; [cbn; lia|set_solver|set_solver|]); exists []; auto.
  - destruct l as [|c l]; [intros [= <- <- <-]; (split_and!; [cbn; lia|set_solver|set_solver|]); exists []; auto|].
    destruct (Z.eqb_spec c C_D) as [->|Hd].
    { intros [= <- <- <-]. split_and!; [cbn; lia|set_solver|set_solver|].
      destruct first; [exists [C_D]; naive_solver|exists []; auto]. }
    destruct (uok dst) eqn:Eu; cbn [negb].
    2: { intros [= <- <- <-]. split_and!; [cbn; lia|set_solver|set_solver|]. exists [c]. split; [done|]. right. right. by exists c. }
    destruct (Z.eqb_spec c NL) as [->|Hnl].
    { intros [= <- <- <-]. split_and!; [cbn; lia|set_solver|set_solver|]. exists []. auto. }
    destruct (ed_read uok _ n false l) as [[d' r'] f'] eqn:E. intros [= <- <- <-].
    destruct (IH _ _ _ _ _ _ E) as (Hlen & Hcd & Hn & gone & -> & He). split_and!; [cbn; lia|set_solver| |].
    + destruct d'; [cbn; set_solver|]. cbn [removelast] in *. set_solver.
    + exists gone. split; [done|]. destruct He as [->|[(_ & _ & ?)|(c' & -> & Hu)]]; [by left|done|].
      right. right. exists c'. split; [done|]. cbn [cstore]. by rewrite (cstore_addr _ ∅).
Qed.

(** ** Typing and reading in any order *)

Inductive cev :=
| Key (c : Z)
| Read (uok : Z → bool) (killed : bool) (target : Z) (n : nat) (dst : Z) (um : mem).

Definition cev_ok (e : cev) : Prop :=
  match e with
  | Key c => 0 ≤ c < 256
  | Read _ _ target n _ _ => Z.of_nat n ≤ target < 2147483648
  end.

Definition cexec (pd : list Z) (e : cev) : M console (option (cend * mem)) :=
  match e with
  | Key c => consoleintr pd c;; mret None
  | Read uok killed target n dst um =>
      r ← consoleread uok killed target dst (Z.of_nat n) um; mret (Some r)
  end.

(** The same on the line editor. *)
Definition ed_exec (e : cev) (x : editor) : option (cend * mem) * editor :=
  match e with
  | Key c => (None, ed_key c x)
  | Read uok killed target n dst um =>
      let '(d, rest, fin) := ed_read uok dst n (bool_decide (Z.of_nat n = target)) (lines x) in
      (Some (read_end killed target (Z.of_nat n) (cstore um dst d).2 d fin, (cstore um dst d).1),
       Ed rest (pending x))
  end.

Fixpoint cruns (pd : list Z) (es : list cev) : M console (list (option (cend * mem))) :=
  match es with
  | [] => mret []
  | e :: es' => r ← cexec pd e; rs ← cruns pd es'; mret (r :: rs)
  end.

Fixpoint ed_runs (es : list cev) (x : editor) : list (option (cend * mem)) * editor :=
  match es with
  | [] => ([], x)
  | e :: es' => let '(r, x') := ed_exec e x in let '(rs, x'') := ed_runs es' x' in (r :: rs, x'')
  end.

Lemma cexec_spec pd e x s :
  cons_ok x s → c_lock s = false → cev_ok e →
  wp (cexec pd e) (λ r s', r = (ed_exec e x).1 ∧ cons_ok (ed_exec e x).2 s' ∧ c_lock s' = false) s.
Proof.
  intros Hok Hl He. destruct e as [c|uok killed target n dst um]; cbn [cexec ed_exec].
  - wp_step. wp_apply consoleintr_spec; [done..|]. intros [] s' [Hok' Hl']. by wp_simpl.
  - wp_step. wp_apply consoleread_spec; [done..|]. intros r s'.
    destruct (ed_read _ _ _ _ _) as [[d rest] fin]. intros (Hok' & Hl' & ->). by wp_simpl.
Qed.

(** C28: The console is a line editor.  For every sequence of keystrokes and
    reads, the interrupt handler and [consoleread] never panic or run away,
    and every read returns exactly what the line editor [ed_exec] returns:
    erase and kill act on the line being typed, a read gets at most one line,
    input past [INPUT_BUF_SIZE] unread bytes is dropped, and a byte read to an
    address that is not mapped ends the read and is lost; the 32-bit counters
    may wrap. *)
Theorem console_refines_editor pd es x s :
  cons_ok x s → c_lock s = false → Forall cev_ok es →
  ∃ s', cruns pd es s = Ok (ed_runs es x).1 s' ∧ cons_ok (ed_runs es x).2 s'.
Proof.
  intros Hok Hl Hes. assert (wp (cruns pd es) (λ rs s', rs = (ed_runs es x).1 ∧ cons_ok (ed_runs es x).2 s') s) as Hwp.
  { revert x s Hok Hl. induction Hes as [|e es He Hes IH]; intros x s Hok Hl; cbn [cruns ed_runs]; [by wp_simpl|].
    wp_step. wp_apply (cexec_spec pd e x); [done..|]. intros r s' (-> & Hok' & Hl'). wp_step.
    destruct (ed_exec e x) as [r x'] eqn:E. cbn [fst snd] in *.
    wp_apply (IH x'); [done..|]. intros rs s'' [-> Hok'']. wp_simpl. by destruct (ed_runs es x'). }
  apply wp_Ok in Hwp as (rs & s' & Hrun & -> & Hok'). eauto.
Qed.

(** Reads respect lines.  Whatever has been typed, a read hands over at most the
    bytes asked for, all from one line (a newline can only be the last of
    them), never the end-of-file mark, and in the order of the input; only an
    end-of-file mark found first, or a byte whose address is not mapped, is
    consumed without being delivered. *)
Theorem consoleread_one_line uok killed (n : nat) x s dst um :
  cons_ok x s → c_lock s = false → Z.of_nat n < 2147483648 →
  ∃ d gone rest e s',
    consoleread uok killed (Z.of_nat n) dst (Z.of_nat n) um s = Ok (e, (cstore um dst d).1) s' ∧
    lines x = d ++ gone ++ rest ∧ cons_ok (Ed rest (pending x)) s' ∧
    (length d ≤ n)%nat ∧ C_D ∉ d ∧ NL ∉ removelast d ∧
    (gone = [] ∨ (gone = [C_D] ∧ d = []) ∨ ∃ c, gone = [c] ∧ uok (cstore um dst d).2 = false).
Proof.
  intros Hok Hl Hn.
  destruct (wp_Ok _ _ _ (consoleread_spec uok killed (Z.of_nat n) n x s dst um Hok Hl ltac:(lia)))
    as (r & s' & Hrun & Hpost). destruct (ed_read _ _ _ _ _) as [[d rest] fin] eqn:E.
  destruct Hpost as (Hok' & _ & ->). destruct (ed_read_line _ _ _ _ _ _ _ _ E) as (Hlen & Hcd & Hnl & gone & Heq & He).
  rewrite (cstore_addr ∅ um) in He. exists d, gone, rest. eexists. exists s'. split_and!; [exact Hrun|done..|]. naive_solver.
Qed.

Module ConsoleWitness.
(** An idle console whose counters are about to wrap. *)
Definition s0 : console := Cons false ∅ 4294967295 4294967295 4294967295 [].

Lemma s0_ok : cons_ok (Ed [] []) s0.
Proof. split; cbn; try done; try lia. set_solver. Qed.

(** "hx", erase, "i", return; then a read to an unmapped address, and a read of ten
    bytes. *)
Definition typed : list cev :=
  [Key 104; Key 120; Key 127; Key 105; Key 13; Read (λ _, false) false 10 10 0 ∅; Read (λ _, true) false 10 10 5000 ∅].

Lemma console_refines_editor_witness :
  ∃ s', cruns [] typed s0 = Ok (ed_runs typed (Ed [] [])).1 s' ∧ cons_ok (ed_runs typed (Ed [] [])).2 s'.
Proof. apply (console_refines_editor [] typed (Ed [] []) s0 s0_ok eq_refl). repeat constructor; cbn; lia. Defined.
End ConsoleWitness.
