(* ===== verification/Printf.v ===== *)
(** * Kernel formatted output: [kernel/printf.c]

    The formatter prints the characters of a list.  Arguments are the values
    [va_arg] delivers; a mismatch between a directive and its argument, a
    missing argument, or an index outside [buf] is undefined in C and is [None]
    here.  The table of digits is a parameter, so that the formatter of
    [user/printf.c], which differs in it, can be compared with this one. *)

From S2P Require Import Prelude Mem Layout Ring.

(** ** Numbers *)

Definition digits_lower : list Z := [48;49;50;51;52;53;54;55;56;57;97;98;99;100;101;102].

Section Numbers.
Context (digits : list Z).

Definition digit (d : Z) : Z := default 0 (digits !! Z.to_nat d).

(** [buf[i++] = c], [char buf[20]]. *)
Definition bufput (buf : list Z) (c : Z) : option (list Z) :=
  if (length buf <? 20)%nat then Some (buf ++ [c]) else None.

(** [do { buf[i++] = digits[x % base]; } while ((x /= base) != 0);] *)
Fixpoint digit_loop (fuel : nat) (x base : Z) (buf : list Z) : option (list Z) :=
  match fuel with
  | O => None
  | S fuel' =>
      buf' ← bufput buf (digit (x mod base));
      if x / base =? 0 then Some buf' else digit_loop fuel' (x / base) base buf'
  end.

(** [xx] is a [long long]; the characters come out of [buf] backwards. *)
Definition printint (xx base : Z) (sign : bool) : option (list Z) :=
  let neg := sign && (xx <? 0) in
  let x := if neg then u64 (- xx) else u64 xx in
  buf ← digit_loop 65 x base [];
  buf' ← (if neg then bufput buf 45 else Some buf);
  Some (reverse buf').

Definition printptr (x : Z) : list Z :=
  [48; 120] ++ ((λ i : nat, digit (Z.shiftr (u64 (Z.shiftl x (4 * Z.of_nat i))) 60)) <$> seq 0 16).
End Numbers.

(** ** Arguments *)

(** A register-sized integer, or a pointer to a string ([None] for null). *)
Inductive arg := AInt (v : Z) | AStr (s : option (list Z)).

Definition null_str : list Z := [40; 110; 117; 108; 108; 41].

(** What [consputc] sends for a character. *)
Definition cputc (c : Z) : list Z := if c =? 0x100 then [8; 32; 8] else [u8 c].

(** [fmt[i]]: 0 at the end of the format. *)
Definition fmt_at (fmt : list Z) (i : nat) : Z := default 0 (fmt !! i).

Section Format.
Context (digits : list Z).

(** An integer directive: its output, the extra characters of the format it
    takes and the arguments left. *)
Definition int_arg (k : Z → option (list Z)) (extra : nat) (args : list arg) : option (list Z * nat * list arg) :=
  match args with
  | AInt v :: args' => out ← k v; Some (out, extra, args')
  | _ => None
  end.

(** The chain of tests of [printf] after a percent sign. *)
Definition directive (c0 c1 c2 : Z) (args : list arg) : option (list Z * nat * list arg) :=
  if c0 =? 100 then int_arg (λ v, printint digits (i32 v) 10 true) 0 args
  else if (c0 =? 108) && (c1 =? 100) then int_arg (λ v, printint digits (i64 v) 10 true) 1 args
  else if (c0 =? 108) && (c1 =? 108) && (c2 =? 100) then int_arg (λ v, printint digits (i64 v) 10 true) 2 args
  else if c0 =? 117 then int_arg (λ v, printint digits (u32 v) 10 false) 0 args
  else if (c0 =? 108) && (c1 =? 117) then int_arg (λ v, printint digits (i64 v) 10 false) 1 args
  else if (c0 =? 108) && (c1 =? 108) && (c2 =? 117) then int_arg (λ v, printint digits (i64 v) 10 false) 2 args
  else if c0 =? 120 then int_arg (λ v, printint digits (u32 v) 16 false) 0 args
  else if (c0 =? 108) && (c1 =? 120) then int_arg (λ v, printint digits (i64 v) 16 false) 1 args
  else if (c0 =? 108) && (c1 =? 108) && (c2 =? 120) then int_arg (λ v, printint digits (i64 v) 16 false) 2 args
  else if c0 =? 112 then int_arg (λ v, Some (printptr digits (u64 v))) 0 args
  else if c0 =? 99 then int_arg (λ v, Some (cputc (u32 v))) 0 args
  else if c0 =? 115 then
    match args with
    | AStr s :: args' => Some (default null_str s ≫= cputc, O, args')
    | _ => None
    end
  else if c0 =? 37 then Some (cputc 37, O, args)
  else Some (cputc 37 ++ cputc c0, O, args).

(** The loop of [printf] from index [i]. *)
Fixpoint format (fuel : nat) (fmt : list Z) (i : nat) (args : list arg) : option (list Z) :=
  match fuel with
  | O => None
  | S fuel' =>
      let cx := fmt_at fmt i in
      if cx =? 0 then Some []
      else if negb (cx =? 37) then
        rest ← format fuel' fmt (i + 1) args;
        Some (cputc cx ++ rest)
      else
        let i := (i + 1)%nat in
        let c0 := fmt_at fmt i in
        let c1 := if c0 =? 0 then 0 else fmt_at fmt (i + 1) in
        let c2 := if c1 =? 0 then 0 else fmt_at fmt (i + 2) in
        if c0 =? 0 then Some [] else
        '(out, extra, args') ← directive c0 c1 c2 args;
        rest ← format fuel' fmt (i + extra + 1) args';
        Some (out ++ rest)
  end.
End Format.

(** ** The calls *)

Record prst := PrSt { pr_lock : bool; panicking : bool; panicked : bool; pr_out : list Z }.

Definition set_pr_lock (b : bool) (s : prst) : prst := PrSt b (panicking s) (panicked s) (pr_out s).
Definition set_panicking (b : bool) (s : prst) : prst := PrSt (pr_lock s) b (panicked s) (pr_out s).
Definition set_panicked (b : bool) (s : prst) : prst := PrSt (pr_lock s) (panicking s) b (pr_out s).
Definition pr_emit (l : list Z) (s : prst) : prst := PrSt (pr_lock s) (panicking s) (panicked s) (pr_out s ++ l).

(** Enough fuel for any format: every iteration moves on. *)
Definition fmt_fuel (fmt : list Z) : nat := length fmt + 1.

Definition printf (fmt : list Z) (args : list arg) : M prst Z :=
  gets panicking ≫= λ p : bool,
  (if p then mret tt else acquire pr_lock set_pr_lock);;
  match format digits_lower (fmt_fuel fmt) fmt 0 args with
  | None => panic "undefined behaviour"
  | Some out =>
      modify (pr_emit out);;
      gets panicking ≫= λ p : bool,
      (if p then mret tt else release pr_lock set_pr_lock);;
      mret 0
  end.

Definition printfinit : M prst unit := modify (set_pr_lock false).

(** [panic(s)] up to its endless loop. *)
Definition panic_ (s : list Z) : M prst unit :=
  modify (set_panicking true);;
  printf [112; 97; 110; 105; 99; 58; 32] [];;
  printf [37; 115; 10] [AStr (Some s)];;
  modify (set_panicked true).

(** ** Numbers are printed exactly *)

Section NumbersOk.
Context (digits : list Z) (undigit : Z → Z) (base : Z) (Hbase : 2 ≤ base ≤ 16).
Hypothesis Hdig : ∀ d, 0 ≤ d < base → undigit (digit digits d) = d.

(** Reading digits back, most significant first. *)
Definition read_digits (l : list Z) : Z := foldl (λ v c, v * base + undigit c) 0 l.

Lemma read_digits_snoc l c : read_digits (l ++ [c]) = read_digits l * base + undigit c.
Proof. unfold read_digits. by rewrite foldl_snoc. Qed.

(** The digits of [x], least significant first. *)
Lemma digit_loop_ok fuel x buf :
  0 ≤ x < base ^ Z.of_nat fuel → (length buf + fuel ≤ 20)%nat → (0 < fuel)%nat →
  ∃ ds, digit_loop digits fuel x base buf = Some (buf ++ ds) ∧ (0 < length ds ≤ fuel)%nat ∧
    read_digits (reverse ds) = x ∧ Forall (λ c, ∃ d, 0 ≤ d < base ∧ c = digit digits d) ds.
Proof.
  revert x buf. induction fuel as [|fuel IH]; intros x buf Hx Hlen Hf; [lia|]. cbn [digit_loop].
  assert (0 ≤ x mod base < base) as Hm by (apply Z.mod_pos_bound; lia).
  unfold bufput. rewrite (proj2 (Nat.ltb_lt _ _)) by lia. cbn.
  destruct (Z.eqb_spec (x / base) 0) as [Hz|Hnz].
  - exists [digit digits (x mod base)]. split_and!; [done|cbn; lia|cbn; lia| |].
    + cbn. rewrite Hdig by done. rewrite (Z.div_mod x base) at 2 by lia. rewrite Hz. lia.
    + apply Forall_singleton. eauto.
  - assert (0 ≤ x / base) by (apply Z.div_pos; lia). destruct fuel as [|fuel].
    { exfalso. apply Hnz. apply Z.div_small. rewrite Z.pow_1_r in Hx. lia. }
    destruct (IH (x / base) (buf ++ [digit digits (x mod base)])) as (ds & -> & Hl & Hr & Hd); [|rewrite length_app; cbn; lia|lia|].
    { split; [done|]. apply Z.div_lt_upper_bound; [lia|]. rewrite <-Z.pow_succ_r by lia.
      rewrite <-Nat2Z.inj_succ. apply Hx. }
    exists (digit digits (x mod base) :: ds). split_and!; [by rewrite <-app_assoc|cbn; lia|cbn; lia| |].
    + rewrite reverse_cons, read_digits_snoc, Hr, Hdig by done. rewrite (Z.div_mod x base) at 3 by lia. lia.
    + constructor; [eauto|done].
Qed.

(** More fuel does not change a result. *)
Lemma digit_loop_mono fuel fuel' x buf r :
  digit_loop digits fuel x base buf = Some r → (fuel ≤ fuel')%nat → digit_loop digits fuel' x base buf = Some r.
Proof.
  revert fuel' x buf. induction fuel as [|fuel IH]; intros fuel' x buf; [done|].
  destruct fuel' as [|fuel']; [lia|]. cbn [digit_loop]. destruct (bufput buf _) as [buf'|]; cbn; [|done].
  destruct (_ =? _); [done|]. intros H Hle. apply IH; [done|lia].
Qed.
End NumbersOk.

Definition undigit_lower (c : Z) : Z := if 97 <=? c then c - 87 else c - 48.

Lemma undigit_lower_ok d : 0 ≤ d < 16 → undigit_lower (digit digits_lower d) = d.
Proof.
  intros Hd. assert (d ∈ seqZ 0 16) as Hin by (apply elem_of_seqZ; lia). revert Hin. clear Hd.
  assert (Forall (λ d, undigit_lower (digit digits_lower d) = d) (seqZ 0 16)) as HF.
  { apply Forall_forall. intros x Hx. repeat (apply elem_of_cons in Hx as [->|Hx]; [reflexivity|]).
    by apply not_elem_of_nil in Hx. }
  rewrite Forall_forall in HF. apply HF.
Qed.

Lemma digit_lower_minus d : 0 ≤ d < 16 → digit digits_lower d ≠ 45.
Proof.
  intros Hd He. pose proof (undigit_lower_ok d Hd) as H. rewrite He in H. cbn in H. lia.
Qed.

(** Reading a printed number back. *)
Definition read_number (base : Z) (l : list Z) : Z :=
  match l with
  | c :: l' => if c =? 45 then - read_digits undigit_lower base l' else read_digits undigit_lower base l
  | [] => 0
  end.

Lemma digits_of x base :
  base = 10 ∨ base = 16 → 0 ≤ x < 18446744073709551616 →
  ∃ ds, digit_loop digits_lower 65 x base [] = Some ds ∧ (0 < length ds ≤ 20)%nat ∧
    (x ≤ 9223372036854775808 → (length ds ≤ 19)%nat) ∧
    read_digits undigit_lower base (reverse ds) = x ∧ 45 ∉ ds.
Proof.
  intros Hb Hx. assert (2 ≤ base ≤ 16) as Hb' by lia.
  assert (∀ d, 0 ≤ d < base → undigit_lower (digit digits_lower d) = d) as Hdig.
  { intros d Hd. apply undigit_lower_ok. lia. }
  assert (∀ n, (0 < n ≤ 20)%nat → x < base ^ Z.of_nat n → ∃ ds, digit_loop digits_lower 65 x base [] = Some ds ∧
    (0 < length ds ≤ n)%nat ∧ read_digits undigit_lower base (reverse ds) = x ∧ 45 ∉ ds) as Hgen.
  { intros n Hn Hlt. destruct (digit_loop_ok digits_lower undigit_lower base Hb' Hdig n x []) as (ds & Hr & Hl & Hv & Hf);
      [lia|cbn; lia|lia|]. exists ds. split_and!; [|lia|lia|done|].
    - eapply digit_loop_mono; [exact Hr|lia].
    - intros Hin. rewrite Forall_forall in Hf. destruct (Hf _ Hin) as (d & Hd & He).
      apply (digit_lower_minus d); [lia|done]. }
  destruct (Hgen 20%nat) as (ds & Hr & Hl & Hv & Hn); [lia|destruct Hb as [->| ->]; cbn; lia|].
  exists ds. split_and!; [done|lia|lia| |done|done].
  intros Hle. destruct (Hgen 19%nat) as (ds' & Hr' & Hl' & _); [lia|destruct Hb as [->| ->]; cbn; lia|].
  rewrite Hr in Hr'. injection Hr' as ->. lia.
Qed.

(** C37: Numbers are printed exactly and within [buf].  For base 10 and 16,
    signed or not, [printint] of any 64-bit value stays inside its 20-byte
    buffer, and reading the characters back gives the value (the value modulo
    2^64 when unsigned); in particular the most negative one is printed right. *)
Theorem printint_roundtrip xx base sign :
  base = 10 ∨ base = 16 → -9223372036854775808 ≤ xx < 9223372036854775808 →
  ∃ l, printint digits_lower xx base sign = Some l ∧ (0 < length l ≤ 20)%nat ∧
    read_number base l = if sign then xx else u64 xx.
Proof.
  intros Hb Hx. unfold printint. set (neg := sign && (xx <? 0)).
  assert (0 ≤ (if neg then u64 (- xx) else u64 xx) < 18446744073709551616) as Hr.
  { destruct neg; apply u64_range. }
  destruct (digits_of _ base Hb Hr) as (ds & -> & Hl & Hl19 & Hv & Hn). cbn.
  assert (∀ l, l = reverse ds → read_number base l = read_digits undigit_lower base l) as Hrd.
  { intros l ->. destruct (reverse ds) as [|c t] eqn:Er; [done|]. cbn.
    destruct (Z.eqb_spec c 45) as [->|]; [|done]. destruct Hn. apply (proj1 (elem_of_reverse _ _)). rewrite Er. set_solver. }
  destruct neg eqn:En.
  - unfold neg in En. apply andb_true_iff in En as [-> En%Z.ltb_lt].
    assert (u64 (- xx) = - xx) as Hu by (apply u64_small; lia). rewrite Hu in *.
    unfold bufput. rewrite (proj2 (Nat.ltb_lt _ _)) by (specialize (Hl19 ltac:(lia)); lia). cbn.
    eexists. split; [reflexivity|]. rewrite reverse_snoc. cbn. rewrite length_reverse.
    specialize (Hl19 ltac:(lia)). split; [lia|]. rewrite Hv. lia.
  - exists (reverse ds). split_and!; [done|rewrite length_reverse; lia|rewrite length_reverse; lia|].
    rewrite Hrd, Hv by done. unfold neg in En. destruct sign; [|done]. cbn in En. apply Z.ltb_ge in En. apply u64_small. lia.
Qed.

Lemma printint_roundtrip_witness :
  ∃ l, printint digits_lower (-9223372036854775808) 10 true = Some l ∧ (0 < length l ≤ 20)%nat ∧
    read_number 10 l = -9223372036854775808.
Proof. exact (printint_roundtrip (-9223372036854775808) 10 true (or_introl eq_refl) ltac:(lia)). Defined.
