(* ===== verification/Uprintf.v ===== *)
(** * User formatted output: [user/printf.c]

    [vprintf] is a state machine over the format; the kernel's [printf] looks
    ahead instead.  They accept the same directives, and given the same table
    of digits they print the same characters. *)

From S2P Require Import Prelude Mem Layout Ring Printf.

Module Uprintf.
Definition digits_upper : list Z := [48;49;50;51;52;53;54;55;56;57;65;66;67;68;69;70].

(** [write(fd, &c, 1)] of a [char]. *)
Definition putc (c : Z) : list Z := [u8 c].

Section Vprintf.
Context (digits : list Z).

Definition printint (xx base : Z) (sgn : bool) : option (list Z) :=
  let neg := if sgn && (xx <? 0) then true else false in
  let x := if sgn && (xx <? 0) then u64 (- xx) else u64 xx in
  buf ← digit_loop digits 65 x base [];
  buf' ← (if neg then bufput buf 45 else Some buf);
  Some (reverse buf').

Definition printptr (x : Z) : list Z :=
  putc 48 ++ putc 120 ++
  ((λ i : nat, digit digits (Z.shiftr (u64 (Z.shiftl x (4 * Z.of_nat i))) 60)) <$> seq 0 16).

(** The branch [state == '%']. *)
Definition directive (c0 c1 c2 : Z) (args : list arg) : option (list Z * nat * list arg) :=
  if c0 =? 100 then int_arg (λ v, printint (i32 v) 10 true) 0 args
  else if (c0 =? 108) && (c1 =? 100) then int_arg (λ v, printint (i64 v) 10 true) 1 args
  else if (c0 =? 108) && (c1 =? 108) && (c2 =? 100) then int_arg (λ v, printint (i64 v) 10 true) 2 args
  else if c0 =? 117 then int_arg (λ v, printint (u32 v) 10 false) 0 args
  else if (c0 =? 108) && (c1 =? 117) then int_arg (λ v, printint (i64 v) 10 false) 1 args
  else if (c0 =? 108) && (c1 =? 108) && (c2 =? 117) then int_arg (λ v, printint (i64 v) 10 false) 2 args
  else if c0 =? 120 then int_arg (λ v, printint (u32 v) 16 false) 0 args
  else if (c0 =? 108) && (c1 =? 120) then int_arg (λ v, printint (i64 v) 16 false) 1 args
  else if (c0 =? 108) && (c1 =? 108) && (c2 =? 120) then int_arg (λ v, printint (i64 v) 16 false) 2 args
  else if c0 =? 112 then int_arg (λ v, Some (printptr (u64 v))) 0 args
  else if c0 =? 99 then int_arg (λ v, Some (putc (u32 v))) 0 args
  else if c0 =? 115 then
    match args with
    | AStr s :: args' => Some (default null_str s ≫= putc, O, args')
    | _ => None
    end
  else if c0 =? 37 then Some (putc 37, O, args)
  else Some (putc 37 ++ putc c0, O, args).

(** The loop from index [i]; [pct] is [state == '%']. *)
Fixpoint vprintf_from (fuel : nat) (fmt : list Z) (i : nat) (pct : bool) (args : list arg) : option (list Z) :=
  match fuel with
  | O => None
  | S fuel' =>
      if fmt_at fmt i =? 0 then Some [] else
      let c0 := fmt_at fmt i in
      if negb pct then
        if c0 =? 37 then vprintf_from fuel' fmt (i + 1) true args
        else rest ← vprintf_from fuel' fmt (i + 1) false args; Some (putc c0 ++ rest)
      else
        let c1 := if c0 =? 0 then 0 else fmt_at fmt (i + 1) in
        let c2 := if c1 =? 0 then 0 else fmt_at fmt (i + 2) in
        '(out, extra, args') ← directive c0 c1 c2 args;
        rest ← vprintf_from fuel' fmt (i + extra + 1) false args';
        Some (out ++ rest)
  end.

Definition vprintf (fmt : list Z) (args : list arg) : option (list Z) :=
  vprintf_from (length fmt + 1) fmt 0 false args.
End Vprintf.

Definition fprintf (fmt : list Z) (args : list arg) : option (list Z) := vprintf digits_upper fmt args.
Definition printf (fmt : list Z) (args : list arg) : option (list Z) := vprintf digits_upper fmt args.

(** ** Equivalence with the kernel's formatter *)

(** Strings are bytes.  [consputc(0x100)] is a backspace, so a [%c] must not be
    given that value. *)
Definition byte_list (l : list Z) : Prop := Forall (λ c, 0 ≤ c < 256) l.
Definition arg_ok (a : arg) : Prop :=
  match a with AInt v => True | AStr s => from_option byte_list True s end.
Definition not_backspace (a : arg) : Prop :=
  match a with AInt v => u32 v ≠ 0x100 | AStr _ => True end.

Lemma putc_cputc c : c ≠ 0x100 → cputc c = putc c.
Proof. intros Hc. unfold cputc. by rewrite (proj2 (Z.eqb_neq _ _) Hc). Qed.

Lemma int_arg_ext k k' n args :
  (∀ v args', args = AInt v :: args' → k v = k' v) → int_arg k n args = int_arg k' n args.
Proof. intros H. destruct args as [|[v|] args']; [done| |done]. cbn. by rewrite (H v args'). Qed.

Lemma bind_putc l : byte_list l → l ≫= cputc = l ≫= putc.
Proof. induction 1 as [|c l Hc Hl IH]; [done|]. cbn. rewrite IH, putc_cputc by lia. done. Qed.

Lemma directive_eq digits c0 c1 c2 args :
  0 ≤ c0 < 256 → Forall arg_ok args → c0 ≠ 99 ∨ Forall not_backspace args →
  Printf.directive digits c0 c1 c2 args = directive digits c0 c1 c2 args.
Proof.
  intros Hc Ha Hnb. unfold Printf.directive, directive, printint. cbv zeta.
  assert (∀ (b : bool), (if b then true else false) = b) as Hb by (by intros []).
  unfold Printf.printint. cbv zeta.
  repeat match goal with
  | |- (if c0 =? 99 then _ else _) = _ => fail 1
  | |- (if ?b then _ else _) = _ => destruct b; [apply int_arg_ext; intros v a ->; try by rewrite Hb|]
  end; [done|].
  destruct (Z.eqb_spec c0 99) as [->|_].
  { apply int_arg_ext. intros v a ->. destruct Hnb as [|Hnb]; [done|]. apply Forall_cons in Hnb as [Hv _].
    by rewrite putc_cputc. }
  destruct (c0 =? 115).
  { destruct args as [|[v|str] a]; [done..|]. apply Forall_cons in Ha as [Hs _]. destruct str as [l|]; cbn; [|done].
    by rewrite bind_putc. }
  destruct (c0 =? 37); [done|]. rewrite (putc_cputc c0) by lia. done.
Qed.

Lemma directive_args digits c0 c1 c2 args out extra args' :
  directive digits c0 c1 c2 args = Some (out, extra, args') →
  (∃ k, args = k ++ args') ∧ (extra = 0%nat ∨ extra = 1%nat ∧ c0 ≠ 0 ∧ c1 ≠ 0 ∨ extra = 2%nat ∧ c0 ≠ 0 ∧ c1 ≠ 0 ∧ c2 ≠ 0).
Proof.
  assert (∀ k n, int_arg k n args = Some (out, extra, args') → (∃ k, args = k ++ args') ∧ extra = n) as Hi.
  { intros k n. destruct args as [|[v|] a]; cbn; [done| |done]. destruct (k v); cbn; [|done].
    intros [= _ <- <-]. split; [by exists [AInt v]|done]. }
  unfold directive.
  repeat match goal with
  | |- (if c0 =? 115 then _ else _) = _ → _ => fail 1
  | |- (if ?b then _ else _) = _ → _ => destruct b eqn:?; [intros H; apply Hi in H as [? ->]; (split; [done|]);
       rewrite ?andb_true_iff, ?Z.eqb_eq in *; first [by left|right; left; split_and!; [done|lia|lia]|right; right; split_and!; [done|lia|lia|lia]]|]
  end.
  destruct (c0 =? 115).
  { destruct args as [|[v|str] a]; [done..|]. intros [= _ <- <-]. split; [by exists [AStr str]|by left]. }
  destruct (c0 =? 37); intros [= _ <- <-]; (split; [by exists []|by left]).
Qed.

Lemma fmt_at_nz fmt i : fmt_at fmt i ≠ 0 → (i < length fmt)%nat.
Proof. unfold fmt_at. destruct (fmt !! i) eqn:E; [|done]. intros _. by eapply lookup_lt_Some. Qed.

Lemma fmt_at_range fmt i : byte_list fmt → 0 ≤ fmt_at fmt i < 256.
Proof.
  intros Hf. unfold fmt_at. destruct (fmt !! i) eqn:E; cbn; [|lia].
  by apply (proj1 (Forall_lookup _ _) Hf _ _ E).
Qed.

Lemma fmt_at_in fmt i c : fmt_at fmt i = c → c ≠ 0 → c ∈ fmt.
Proof.
  unfold fmt_at. destruct (fmt !! i) eqn:E; cbn; intros <- Hc; [|done]. by eapply list_elem_of_lookup_2.
Qed.

Lemma format_eq digits fmt : byte_list fmt → ∀ m f1 f2 i args,
  (length fmt - i ≤ m)%nat → (m < f1)%nat → (m < f2)%nat → Forall arg_ok args →
  99 ∉ fmt ∨ Forall not_backspace args →
  Printf.format digits f1 fmt i args = vprintf_from digits f2 fmt i false args.
Proof.
  intros Hfmt m. induction m as [m IH] using lt_wf_ind. intros f1 f2 i args Hm H1 H2 Ha Hnb.
  destruct f1 as [|f1], f2 as [|f2]; [lia..|]. cbn [Printf.format vprintf_from negb]. cbv zeta.
  destruct (Z.eqb_spec (fmt_at fmt i) 0) as [|Hnz]; [done|]. pose proof (fmt_at_nz _ _ Hnz) as Hi.
  pose proof (fmt_at_range fmt i Hfmt) as Hr.
  destruct (Z.eqb_spec (fmt_at fmt i) 37) as [_|_]; cbn [negb].
  2: { rewrite (IH (m - 1)%nat ltac:(lia) f1 f2 (i + 1)%nat) by (lia || done).
       rewrite putc_cputc by lia. done. }
  destruct (Z.eqb_spec (fmt_at fmt (i + 1)) 0) as [Hz|Hnz1].
  { destruct f2; [lia|]. cbn [vprintf_from]. by rewrite Hz. }
  pose proof (fmt_at_nz _ _ Hnz1) as Hi1. destruct f2 as [|f2]; [lia|]. cbn [vprintf_from negb]. cbv zeta.
  rewrite (proj2 (Z.eqb_neq _ _) Hnz1).
  set (c1 := fmt_at fmt (i + 1 + 1)). set (c2 := if c1 =? 0 then 0 else fmt_at fmt (i + 1 + 2)).
  rewrite directive_eq; [|by apply fmt_at_range|done|].
  2: { destruct Hnb as [Hnb|?]; [left|by right]. intros E. apply Hnb. eapply fmt_at_in; [exact E|done]. }
  destruct (directive digits (fmt_at fmt (i + 1)) c1 c2 args) as [[[out extra] args']|] eqn:Ed; cbn; [|done].
  apply directive_args in Ed as [[k ->] Hex].
  rewrite (IH (m - 2)%nat ltac:(lia) f1 f2 (i + 1 + extra + 1)%nat); [done|lia|lia|lia| |].
  - by apply Forall_app in Ha as [_ ?].
  - destruct Hnb as [?|Hnb]; [by left|right]. by apply Forall_app in Hnb as [_ ?].
Qed.

(** C38: The kernel's [printf] and the user library's [vprintf] are equivalent.
    For every format and argument list, given one table of digits, the
    look-ahead loop and the state machine print the same characters (or are
    both undefined), except that a [%c] of 0x100 is a backspace in the kernel. *)
Theorem printf_equiv digits fmt args :
  byte_list fmt → Forall arg_ok args → 99 ∉ fmt ∨ Forall not_backspace args →
  Printf.format digits (fmt_fuel fmt) fmt 0 args = vprintf digits fmt args.
Proof. intros Hf Ha Hnb. unfold vprintf, fmt_fuel. apply (format_eq digits fmt Hf (length fmt)); try done; lia. Qed.

(** The bounds given to the loops are enough: with any larger bound
    [vprintf] gives the same result, so [None] only stands for undefined
    behaviour, never for a loop cut short. *)
Theorem vprintf_terminates digits fmt args fuel :
  byte_list fmt → Forall arg_ok args → 99 ∉ fmt ∨ Forall not_backspace args → (length fmt < fuel)%nat →
  vprintf_from digits fuel fmt 0 false args = vprintf digits fmt args.
Proof.
  intros Hf Ha Hnb Hfuel. unfold vprintf.
  rewrite <-(format_eq digits fmt Hf (length fmt) fuel fuel) by (done || lia).
  apply (format_eq digits fmt Hf (length fmt)); try done; lia.
Qed.

Module Witness.
(** "%d: %s" *)
Definition fmt : list Z := [37; 100; 58; 32; 37; 115].
Definition args : list arg := [AInt 42; AStr (Some [104; 105])].

Lemma fmt_bytes : byte_list fmt.
Proof. repeat constructor; lia. Qed.
Lemma args_ok : Forall arg_ok args.
Proof. repeat constructor; cbn; lia. Qed.
Lemma no_char : 99 ∉ fmt ∨ Forall not_backspace args.
Proof. right. repeat constructor. vm_compute. discriminate. Qed.

Lemma printf_equiv_witness :
  Printf.format digits_upper (fmt_fuel fmt) fmt 0 args = vprintf digits_upper fmt args ∧
  vprintf digits_upper fmt args = Some [52; 50; 58; 32; 104; 105].
Proof. split; [exact (printf_equiv digits_upper fmt args fmt_bytes args_ok no_char)|vm_compute; reflexivity]. Defined.
End Witness.
End Uprintf.
