(* ===== verification/Grep.v ===== *)
(** * The pattern matcher and main loop of [user/grep.c]

    C strings are lists of non-zero bytes; [p[0]] of an empty list is the
    terminating zero. *)

From S2P Require Import Prelude.

Definition STAR : Z := 42.
Definition DOT : Z := 46.
Definition DOLLAR : Z := 36.
Definition CARET : Z := 94.
Definition NEWLINE : Z := 10.

(** *** The matcher *)

(** The loop of [matchstar]: try here, then skip one more character [c]. *)
Fixpoint matchstar_with (here : list Z → bool) (c : Z) (text : list Z) : bool :=
  here text ||
  match text with
  | [] => false
  | x :: text' => if (x =? c) || (c =? DOT) then matchstar_with here c text' else false
  end.

Fixpoint matchhere (re text : list Z) : bool :=
  match re with
  | [] => true
  | r0 :: re1 =>
      match re1 with
      | r1 :: re2 =>
          if r1 =? STAR then matchstar_with (matchhere re2) r0 text
          else match text with
               | x :: text' => if (r0 =? DOT) || (r0 =? x) then matchhere re1 text' else false
               | [] => false
               end
      | [] =>
          if r0 =? DOLLAR then bool_decide (text = [])
          else match text with
               | x :: text' => if (r0 =? DOT) || (r0 =? x) then matchhere re1 text' else false
               | [] => false
               end
      end
  end.

Definition matchstar (c : Z) (re text : list Z) : bool := matchstar_with (matchhere re) c text.

(** The loop of [match]: also looks at the empty string at the end. *)
Fixpoint match_any (re text : list Z) : bool :=
  matchhere re text || match text with [] => false | _ :: text' => match_any re text' end.

Definition match_ (re text : list Z) : bool :=
  match re with
  | r0 :: re1 => if r0 =? CARET then matchhere re1 text else match_any re text
  | [] => match_any re text
  end.

(** *** What a pattern means *)

(** A pattern is a sequence of characters, wildcards and starred characters,
    possibly anchored at the end. *)
Inductive item := One (c : Z) | Many (c : Z).

(** [c] matches the character [x]. *)
Definition cmatch (c x : Z) : Prop := c = DOT ∨ c = x.

Fixpoint parse (re : list Z) : list item * bool :=
  match re with
  | [] => ([], false)
  | r0 :: re1 =>
      match re1 with
      | r1 :: re2 =>
          if r1 =? STAR then let '(its, a) := parse re2 in (Many r0 :: its, a)
          else let '(its, a) := parse re1 in (One r0 :: its, a)
      | [] => if r0 =? DOLLAR then ([], true) else ([One r0], false)
      end
  end.

(** The strings an item, and a sequence of items, stand for. *)
Definition item_lang (i : item) (w : list Z) : Prop :=
  match i with
  | One c => ∃ x, w = [x] ∧ cmatch c x
  | Many c => Forall (cmatch c) w
  end.

Fixpoint lang (its : list item) (w : list Z) : Prop :=
  match its with
  | [] => w = []
  | i :: its' => ∃ w1 w2, w = w1 ++ w2 ∧ item_lang i w1 ∧ lang its' w2
  end.

(** The pattern matches a prefix of [text], all of it when anchored. *)
Definition here_spec (re text : list Z) : Prop :=
  ∃ w rest, text = w ++ rest ∧ lang (parse re).1 w ∧ ((parse re).2 = true → rest = []).

(** *** Correctness of the matcher *)

Lemma parse_cons2 r0 r1 re2 :
  parse (r0 :: r1 :: re2) =
    if r1 =? STAR then (Many r0 :: (parse re2).1, (parse re2).2)
    else (One r0 :: (parse (r1 :: re2)).1, (parse (r1 :: re2)).2).
Proof.
  change (parse (r0 :: r1 :: re2)) with
    (if r1 =? STAR then let '(its, a) := parse re2 in (Many r0 :: its, a)
     else let '(its, a) := parse (r1 :: re2) in (One r0 :: its, a)).
  destruct (_ =? _); [by destruct (parse re2)|by destruct (parse (r1 :: re2))].
Qed.

Lemma cmatch_test c x : (c =? DOT) || (c =? x) = true ↔ cmatch c x.
Proof. unfold cmatch. by rewrite orb_true_iff, !Z.eqb_eq. Qed.

Lemma star_test c x : (x =? c) || (c =? DOT) = true ↔ cmatch c x.
Proof. unfold cmatch. rewrite orb_true_iff, !Z.eqb_eq. naive_solver. Qed.

Lemma matchstar_with_spec here c text :
  matchstar_with here c text = true ↔ ∃ w rest, text = w ++ rest ∧ Forall (cmatch c) w ∧ here rest = true.
Proof.
  induction text as [|x text IH]; cbn [matchstar_with].
  - rewrite orb_false_r. split.
    + intros H. exists [], []. done.
    + intros (w & rest & Heq & _ & H). symmetry in Heq. apply app_eq_nil in Heq as [-> ->]. done.
  - rewrite orb_true_iff. split.
    + intros [H|H]; [by exists [], (x :: text)|]. destruct (_ || _) eqn:E; [|done].
      apply star_test in E. apply IH in H as (w & rest & -> & Hw & Hr). exists (x :: w), rest. by split_and!; [|constructor|].
    + intros ([|y w] & rest & Heq & Hw & Hr); cbn in Heq; subst; [by left|]. injection Heq as <- ->. right.
      apply Forall_cons in Hw as [Hx Hw]. rewrite (proj2 (star_test c x) Hx). apply IH. eauto.
Qed.

Lemma matchhere_spec re text : matchhere re text = true ↔ here_spec re text.
Proof.
  remember (length re) as n eqn:Hn. revert re Hn text. induction n as [n IH] using lt_wf_ind. intros re -> text.
  assert (∀ r0 re1, (∀ t, matchhere re1 t = true ↔ here_spec re1 t) →
    parse (r0 :: re1) = (One r0 :: (parse re1).1, (parse re1).2) →
    (match text with
     | x :: text' => if (r0 =? DOT) || (r0 =? x) then matchhere re1 text' else false
     | [] => false
     end = true ↔ here_spec (r0 :: re1) text)) as Hone.
  { intros r0 re1 IH1 Hp. unfold here_spec. rewrite Hp. cbn [fst snd lang item_lang]. destruct text as [|x text'].
    - split; [done|]. intros (w & rest & Heq & (w1 & w2 & -> & (y & -> & _) & _) & _). by destruct w2.
    - destruct (_ || _) eqn:E.
      + apply cmatch_test in E. rewrite IH1. split.
        * intros (w & rest & -> & Hl & Ha). exists (x :: w), rest. split_and!; [done| |done].
          exists [x], w. split_and!; [done| |done]. by exists x.
        * intros (w & rest & Heq & (w1 & w2 & -> & (y & -> & _) & Hl) & Ha). injection Heq as -> ->. by exists w2, rest.
      + split; [done|]. intros (w & rest & Heq & (w1 & w2 & -> & (y & -> & Hy) & Hl) & Ha). injection Heq as -> ->.
        apply cmatch_test in Hy. congruence. }
  destruct re as [|r0 [|r1 re2]]; cbn [matchhere].
  - split; [|done]. intros _. by exists [], text.
  - destruct (r0 =? DOLLAR) eqn:E.
    + rewrite bool_decide_eq_true. unfold here_spec. cbn [parse]. rewrite E. cbn. split.
      * intros ->. by exists [], [].
      * intros (w & rest & -> & -> & Hr). by rewrite Hr.
    + apply (Hone r0 []); [|cbn; by rewrite E]. intros t. by apply (IH 0%nat ltac:(cbn; lia) []).
  - destruct (r1 =? STAR) eqn:E.
    + rewrite matchstar_with_spec. unfold here_spec. cbn [parse]. rewrite E.
      destruct (parse re2) as [its a] eqn:Ep. cbn [fst snd lang item_lang]. split.
      * intros (w & rest & -> & Hw & Hr). apply (IH (length re2) ltac:(cbn; lia) re2 eq_refl) in Hr.
        unfold here_spec in Hr. rewrite Ep in Hr. destruct Hr as (w' & rest' & -> & Hl & Ha).
        exists (w ++ w'), rest'. split_and!; [by rewrite app_assoc| |done]. eauto.
      * intros (w & rest & -> & (w1 & w2 & -> & Hw1 & Hl) & Ha). exists w1, (w2 ++ rest).
        split_and!; [by rewrite app_assoc|done|]. apply (IH (length re2) ltac:(cbn; lia) re2 eq_refl).
        unfold here_spec. rewrite Ep. by exists w2, rest.
    + apply (Hone r0 (r1 :: re2)).
      * intros t. by apply (IH (length (r1 :: re2)) ltac:(cbn; lia)).
      * by rewrite parse_cons2, E.
Qed.

Lemma match_any_spec re text :
  match_any re text = true ↔ ∃ pre suf, text = pre ++ suf ∧ here_spec re suf.
Proof.
  induction text as [|x text IH]; cbn [match_any]; rewrite orb_true_iff, matchhere_spec.
  - split.
    + intros [H|]; [|done]. by exists [], [].
    + intros (pre & suf & Heq & H). symmetry in Heq. apply app_eq_nil in Heq as [-> ->]. by left.
  - rewrite IH. split.
    + intros [H|(pre & suf & -> & H)]; [by exists [], (x :: text)|by exists (x :: pre), suf].
    + intros ([|y pre] & suf & Heq & H); cbn in Heq; subst; [by left|]. injection Heq as -> ->. right. eauto.
Qed.

(** C39: The matcher decides the language of its patterns.  [match] answers yes
    exactly when some part of the text (a prefix, when the pattern starts with
    ^; a suffix, when it ends with an unstarred $) is in the language of the
    pattern, where a dot is any character and a star any number of repetitions. *)
Theorem match_correct re text :
  match_ re text = true ↔
  match re with
  | r0 :: re1 => if r0 =? CARET then here_spec re1 text else ∃ pre suf, text = pre ++ suf ∧ here_spec re suf
  | [] => True
  end.
Proof.
  destruct re as [|r0 re1]; cbn [match_].
  - split; [done|]. intros _. apply match_any_spec. by exists [], text; split; [|exists [], text].
  - destruct (r0 =? CARET); [apply matchhere_spec|apply match_any_spec].
Qed.

(** *** The main loop

    [read(fd, ..)] returns at most what is asked for, and possibly less: [sizes]
    gives the limit of each call, at least one byte.  The file is a list of
    bytes; [buf] holds the [m] bytes not yet consumed. *)

(** [strchr(p, '\n')]: the text before the newline and after it, unless a zero
    byte ends the string first. *)
Fixpoint strchr_nl (p : list Z) : option (list Z * list Z) :=
  match p with
  | [] => None
  | c :: p' =>
      if c =? 0 then None
      else if c =? NEWLINE then Some ([], p')
      else '(l, r) ← strchr_nl p'; Some (c :: l, r)
  end.

(** The inner loop: the output and the bytes left. *)
Fixpoint grep_lines (fuel : nat) (re p : list Z) : list Z * list Z :=
  match fuel with
  | O => ([], p)
  | S fuel' =>
      match strchr_nl p with
      | None => ([], p)
      | Some (line, rest) =>
          let '(out, rem) := grep_lines fuel' re rest in
          ((if match_ re line then line ++ [NEWLINE] else []) ++ out, rem)
      end
  end.

Definition BUFLEN : nat := 1024.

Fixpoint grep (fuel : nat) (re buf file : list Z) (sizes : nat → nat) : option (list Z) :=
  match fuel with
  | O => None
  | S fuel' =>
      let want := (BUFLEN - length buf - 1)%nat in
      let n := min want (S (sizes fuel')) in
      match take n file with
      | [] => Some []
      | got =>
          let buf' := buf ++ got in
          let '(out, rem) := grep_lines (length buf' + 1) re buf' in
          rest ← grep fuel' re rem (drop n file) sizes;
          Some (out ++ rest)
      end
  end.

(** The complete lines of a text, and what follows the last newline. *)
Fixpoint split_lines (l : list Z) : list (list Z) * list Z :=
  match l with
  | [] => ([], [])
  | c :: l' =>
      let '(ls, p) := split_lines l' in
      if c =? NEWLINE then ([] :: ls, p)
      else match ls with [] => ([], c :: p) | x :: ls' => ((c :: x) :: ls', p) end
  end.

Definition matching (re : list Z) (ls : list (list Z)) : list Z :=
  ls ≫= λ line, if match_ re line then line ++ [NEWLINE] else [].

Lemma matching_app re ls ls' : matching re (ls ++ ls') = matching re ls ++ matching re ls'.
Proof. unfold matching. apply bind_app. Qed.

Lemma split_strchr p :
  0 ∉ p →
  match strchr_nl p with
  | None => split_lines p = ([], p)
  | Some (line, rest) => split_lines p = (line :: (split_lines rest).1, (split_lines rest).2) ∧ p = line ++ NEWLINE :: rest
  end.
Proof.
  induction p as [|c p IH]; intros Hz; [done|]. cbn [strchr_nl split_lines]. apply not_elem_of_cons in Hz as [Hc Hz].
  rewrite (proj2 (Z.eqb_neq c 0)) by congruence. specialize (IH Hz). destruct (Z.eqb_spec c NEWLINE) as [->|Hn].
  - destruct (split_lines p). done.
  - destruct (strchr_nl p) as [[line rest]|]; cbn; [destruct IH as [-> ->]; done|by rewrite IH].
Qed.

Lemma grep_lines_spec fuel re p :
  0 ∉ p → (length p < fuel)%nat → grep_lines fuel re p = (matching re (split_lines p).1, (split_lines p).2).
Proof.
  revert p. induction fuel as [|fuel IH]; intros p Hz Hf; [lia|]. cbn [grep_lines].
  pose proof (split_strchr p Hz) as Hs. destruct (strchr_nl p) as [[line rest]|]; [|by rewrite Hs].
  destruct Hs as [-> Hp]. rewrite IH; [done| |].
  - intros Hin. apply Hz. rewrite Hp. set_solver.
  - rewrite Hp, length_app in Hf. cbn in Hf. lia.
Qed.

Lemma split_lines_app x y :
  split_lines (x ++ y) =
    ((split_lines x).1 ++ (split_lines ((split_lines x).2 ++ y)).1, (split_lines ((split_lines x).2 ++ y)).2).
Proof.
  induction x as [|c x IH]; [cbn; by destruct (split_lines y)|]. cbn [app split_lines]. rewrite IH.
  destruct (split_lines x) as [ls p]. cbn [fst snd]. destruct (c =? NEWLINE) eqn:E; [done|].
  destruct ls as [|l ls]; [|done]. cbn [fst snd app split_lines].
  rewrite E. by destruct (split_lines (p ++ y)) as [[|l ls] q].
Qed.

Lemma split_lines_nonl p : split_lines (split_lines p).2 = ([], (split_lines p).2).
Proof.
  induction p as [|c p IH]; [done|]. cbn [split_lines]. destruct (split_lines p) as [ls q]. cbn in IH.
  destruct (c =? NEWLINE) eqn:E; cbn; [done|]. destruct ls as [|l ls]; cbn; [|done]. by rewrite IH, E.
Qed.

Lemma split_lines_sub p c : c ∈ (split_lines p).2 → c ∈ p.
Proof.
  induction p as [|d p IH]; [done|]. cbn [split_lines]. destruct (split_lines p) as [ls q]. cbn in IH.
  destruct (d =? NEWLINE); cbn; [set_solver|]. destruct ls; cbn; set_solver.
Qed.

(** Every line, the last one included, leaves room in the buffer. *)
Definition short_lines (l : list Z) : Prop :=
  Forall (λ line, (length line + 1 < BUFLEN)%nat) ((split_lines l).1 ++ [(split_lines l).2]).

Lemma short_lines_rest x y : short_lines (x ++ y) → short_lines ((split_lines x).2 ++ y).
Proof.
  unfold short_lines. rewrite (split_lines_app x y). cbn [fst snd].
  rewrite <-app_assoc. intros [_ H]%Forall_app. exact H.
Qed.

Lemma first_line_prefix x y :
  split_lines x = ([], x) → ∃ z t, (split_lines (x ++ y)).1 ++ [(split_lines (x ++ y)).2] = (x ++ z) :: t.
Proof.
  induction x as [|c x IH]; intros Hx.
  - cbn. destruct (split_lines y) as [[|l ls] p]; cbn; eauto.
  - cbn [split_lines app] in *. destruct (split_lines x) as [ls q] eqn:Ex. destruct (c =? NEWLINE); [done|].
    destruct ls; [|done]. injection Hx as ->. destruct (IH eq_refl) as (z & t & Hz).
    destruct (split_lines (x ++ y)) as [[|l ls] p]; cbn in *; injection Hz as -> ->; eauto.
Qed.

Lemma short_lines_buf x y : split_lines x = ([], x) → short_lines (x ++ y) → (length x + 1 < BUFLEN)%nat.
Proof.
  intros Hx Hs. destruct (first_line_prefix x y Hx) as (z & t & Hz). unfold short_lines in Hs. rewrite Hz in Hs.
  apply Forall_cons in Hs as [Hl _]. rewrite length_app in Hl. lia.
Qed.

Lemma grep_spec fuel re buf file sizes :
  split_lines buf = ([], buf) → 0 ∉ buf ++ file → short_lines (buf ++ file) → (length file < fuel)%nat →
  grep fuel re buf file sizes = Some (matching re (split_lines (buf ++ file)).1).
Proof.
  revert buf file. induction fuel as [|fuel IH]; intros buf file Hb Hz Hs Hf; [lia|]. cbn [grep].
  pose proof (short_lines_buf buf file Hb Hs) as Hl. set (n := min _ _).
  assert (0 < n)%nat as Hn by (unfold n; lia). destruct file as [|c file0] eqn:Ef.
  { rewrite take_nil, app_nil_r, Hb. done. }
  rewrite <-Ef in *. destruct (take n file) as [|g got] eqn:Eg.
  { rewrite Ef in Eg. destruct n; [lia|done]. }
  rewrite <-Eg. assert (file = take n file ++ drop n file) as Hfile by (by rewrite take_drop).
  assert (0 ∉ buf ++ take n file) as Hz1 by (rewrite Hfile in Hz; set_solver).
  rewrite grep_lines_spec; [|done|lia]. rewrite Hfile, app_assoc in Hs, Hz.
  assert (∀ c, c ∈ (split_lines (buf ++ take n file)).2 → c ∈ buf ++ take n file) as Hsub by (intros; by apply split_lines_sub).
  rewrite IH.
  - cbn [mbind option_bind]. f_equal. transitivity (matching re (split_lines ((buf ++ take n file) ++ drop n file)).1).
    + rewrite (split_lines_app (buf ++ take n file)). cbn [fst].
      by rewrite matching_app.
    + by rewrite <-app_assoc, take_drop.
  - apply split_lines_nonl.
  - intros [Hin|Hin]%elem_of_app; [by apply Hz1, Hsub|]. apply Hz. set_solver.
  - by apply short_lines_rest.
  - assert (0 < length file)%nat by (rewrite Ef; cbn; lia). rewrite length_drop. clearbody n. lia.
Qed.

(** C40: [grep] prints the matching lines.  However [read] splits the file, if it
    has no zero byte and no line fills the buffer the output is, in order, the lines that [match]
    accepts, each with its newline; a last line without a newline is not
    looked at.  One more iteration than the file has bytes is enough. *)
Theorem grep_correct re file sizes :
  0 ∉ file → short_lines file →
  grep (length file + 1) re [] file sizes = Some (matching re (split_lines file).1).
Proof. intros Hz Hs. apply grep_spec; [done..|lia]. Qed.

(** A long line ends the search.  If a line is longer than the buffer, the next
    [read] asks for no bytes, returns 0 and is taken for the end of the file:
    nothing after it is searched, whatever it contains. *)
Theorem grep_long_line_stops re file rest :
  length file = (BUFLEN - 1)%nat → 0 ∉ file → NEWLINE ∉ file →
  grep (length (file ++ rest) + 1) re [] (file ++ rest) (λ _, BUFLEN) = Some [].
Proof.
  intros Hl Hz Hn. assert (split_lines file = ([], file)) as Hs.
  { clear -Hn. induction file as [|c l IH]; [done|]. cbn. apply not_elem_of_cons in Hn as [Hc Hn].
    rewrite IH by done. by rewrite (proj2 (Z.eqb_neq _ _)) by congruence. }
  assert (∀ fuel fl, grep (S fuel) re file fl (λ _, BUFLEN) = Some []) as Hstop.
  { intros fuel fl. cbn [grep]. by rewrite Hl. }
  assert (∀ k, grep (S (S k)) re [] (file ++ rest) (λ _, BUFLEN) = Some []) as Hall.
  { intros k. remember (S k) as k1 eqn:Ek. cbn [grep].
    change (min (BUFLEN - length [] - 1) (S BUFLEN))%nat with 1023%nat.
    rewrite take_app_le, take_ge by (rewrite Hl; done). destruct file as [|c f] eqn:Ef; [done|].
    rewrite <-Ef in *. cbn [app]. rewrite grep_lines_spec by (done || lia).
    rewrite Hs. cbn [fst snd]. rewrite Ek, Hstop. done. }
  assert (0 < length (file ++ rest))%nat as Hpos by (rewrite length_app, Hl; unfold BUFLEN; lia).
  destruct (length (file ++ rest)) as [|k]; [lia|]. rewrite Nat.add_1_r. apply Hall.
Qed.

Module GrepWitness.
(** The pattern "h.*o" on a file of three lines. *)
Definition re : list Z := [104; 46; 42; 111].
Definition file : list Z := [104; 101; 108; 108; 111; 10; 98; 10; 104; 111; 10].

Lemma grep_correct_witness :
  grep (length file + 1) re [] file (λ _, 2%nat) = Some (matching re (split_lines file).1) ∧
  matching re (split_lines file).1 = [104; 101; 108; 108; 111; 10; 104; 111; 10].
Proof.
  split; [|vm_compute; reflexivity]. apply (grep_correct re file (λ _, 2%nat)).
  - unfold file. set_solver.
  - unfold short_lines. repeat constructor; cbn; unfold BUFLEN; lia.
Defined.

Definition long : list Z := replicate 1023 97.

Lemma grep_long_line_stops_witness :
  grep (length (long ++ [10; 104; 111; 10]) + 1) re [] (long ++ [10; 104; 111; 10]) (λ _, BUFLEN) = Some [].
Proof.
  apply (grep_long_line_stops re long [10; 104; 111; 10]).
  - done.
  - unfold long. by intros [? _]%elem_of_replicate.
  - unfold long. by intros [? _]%elem_of_replicate.
Defined.
End GrepWitness.
