(* ===== verification/Ulib.v ===== *)
(** * User programs and their library

    A user program is a tree of system calls: what it asks of the kernel, and how
    it goes on with the answer.  On it and on the program's byte memory are the
    functions of [user/ulib.c]. *)

From S2P Require Import Prelude Mem Layout Fs Trap Printf Uprintf.

(** ** System calls

    Strings and buffers are passed as the bytes the kernel copies; [read] answers
    with the bytes it puts into the buffer, [pipe] with the two descriptors, and
    [None] is the answer [-1]. *)
Inductive call : Type → Type :=
  | Fork : call Z
  | Exit (status : Z) : call Empty_set
  | Wait : call Z
  | Pipe : call (option (Z * Z))
  | Write (fd : Z) (bs : list Z) : call Z
  | Read (fd n : Z) : call (option (list Z))
  | Close (fd : Z) : call Z
  | Kill (pid sig : Z) : call Z
  | Exec (path : list Z) (argv : list (list Z)) : call Z
  | Open (path : list Z) (mode : Z) : call Z
  | Mknod (path : list Z) (major minor : Z) : call Z
  | Unlink (path : list Z) : call Z
  | Fstat (fd : Z) : call (option stat)
  | Link (old new : list Z) : call Z
  | Mkdir (path : list Z) : call Z
  | Chdir (path : list Z) : call Z
  | Dup (fd : Z) : call Z
  | Getpid : call Z
  | Sbrk (n how : Z) : call Z
  | Pause (n : Z) : call Z
  | Uptime : call Z
  | Halt : call Z.

Inductive prog (A : Type) : Type :=
  | Ret (a : A)
  | Do {R} (c : call R) (k : R → prog A)
  | Stuck.
Arguments Ret {A} _.
Arguments Do {A R} _ _.
Arguments Stuck {A}.

#[global] Instance prog_ret : MRet prog := λ A, Ret.
#[global] Instance prog_bind : MBind prog := λ A B f,
  fix go p := match p with Ret a => f a | Do c k => Do c (λ r, go (k r)) | Stuck => Stuck end.

Definition ask {R} (c : call R) : prog R := Do c Ret.
Definition exit {A} (status : Z) : prog A := Do (Exit status) (λ e : Empty_set, match e with end).

(** A loop, with the most turns it may take. *)
Fixpoint repeat_prog {X B} (n : nat) (body : X → prog (X + B)) (x : X) : prog B :=
  match n with
  | O => Stuck
  | S n' => body x ≫= λ r, match r with inl x' => repeat_prog n' body x' | inr b => mret b end
  end.

(** A loop over a list. *)
Fixpoint each_prog {X} (l : list X) (body : X → prog unit) : prog unit :=
  match l with [] => mret tt | x :: l' => body x;; each_prog l' body end.

(** The bytes of a literal. *)
Definition codes (s : string) : list Z := (λ c, Z.of_N (Ascii.N_of_ascii c)) <$> String.list_ascii_of_string s.

(** The C string at [a], of at most [n] bytes. *)
Fixpoint ldstr (n : nat) (m : mem) (a : Z) : list Z :=
  match n with
  | O => []
  | S n' => if ldb m a =? 0 then [] else ldb m a :: ldstr n' m (a + 1)
  end.

(** [putc] writes one byte at a time. *)
Definition put (fd : Z) (bs : list Z) : prog unit := each_prog bs (λ b, ask (Write fd [b]);; mret tt).
Definition ufprintf (fd : Z) (fmt : list Z) (args : list arg) : prog unit := put fd (default [] (Uprintf.fprintf fmt args)).
Definition uprintf (fmt : list Z) (args : list arg) : prog unit := ufprintf 1 fmt args.

(** ** [user/ulib.c] *)

Module Ulib.
Section Start.
(** The program's [main]. *)
Context (main : prog Z).
Definition start : prog unit := r ← main; exit r.
End Start.

(** [while(( *s++ = *t++ ) != 0);] *)
Fixpoint strcpy (n : nat) (m : mem) (s t : Z) : option mem :=
  match n with
  | O => None
  | S n' => let c := ldb m t in
            let m' := stb m s c in
            if c =? 0 then Some m' else strcpy n' m' (s + 1) (t + 1)
  end.

Fixpoint strcmp (n : nat) (m : mem) (p q : Z) : option Z :=
  match n with
  | O => None
  | S n' => if negb (ldb m p =? 0) && (ldb m p =? ldb m q) then strcmp n' m (p + 1) (q + 1) else Some (ldb m p - ldb m q)
  end.

Fixpoint strlen_from (k : nat) (m : mem) (s n : Z) : option Z :=
  match k with
  | O => None
  | S k' => if ldb m (s + n) =? 0 then Some n else strlen_from k' m s (n + 1)
  end.
Definition strlen (k : nat) (m : mem) (s : Z) : option Z := strlen_from k m s 0.

Definition memset (m : mem) (dst c n : Z) : mem := foldl (λ m i, stb m (dst + i) c) m (seqZ 0 n).

(** In a constant string; whether there is a byte [c]. *)
Fixpoint strchr (s : list Z) (c : Z) : bool :=
  match s with [] => false | x :: s' => if x =? c then true else strchr s' c end.

(** At most [max - 1] bytes, up to the end of a line. *)
Definition gets_step (buf max : Z) (x : mem * Z) : prog ((mem * Z) + (mem * Z)) :=
  let '(m, i) := x in
  if negb (i + 1 <? max) then mret (inr (m, i)) else
  cc ← ask (Read 0 1);
  match cc with
  | Some (c :: _) =>
      let m := stb m (buf + i) c in
      if (c =? 10) || (c =? 13) then mret (inr (m, i + 1)) else mret (inl (m, i + 1))
  | _ => mret (inr (m, i))
  end.
Definition gets (m : mem) (buf max : Z) : prog mem :=
  r ← repeat_prog (Z.to_nat max) (gets_step buf max) (m, 0);
  mret (stb r.1 (buf + r.2) 0).

Definition stat (n : list Z) : prog (option Fs.stat) :=
  fd ← ask (Open n 0);
  if fd <? 0 then mret None else
  r ← ask (Fstat fd);
  ask (Close fd);;
  mret r.

(** [int] arithmetic. *)
Fixpoint atoi_from (s : list Z) (n : Z) : Z :=
  match s with
  | c :: s' => if (48 <=? c) && (c <=? 57) then atoi_from s' (i32 (n * 10 + c - 48)) else n
  | [] => n
  end.
Definition atoi (s : list Z) : Z := atoi_from s 0.

Definition memmove (m : mem) (dst src n : Z) : mem :=
  let copy m i := stb m (dst + i) (ldb m (src + i)) in
  if src >? dst then foldl copy m (seqZ 0 n) else foldl copy m (reverse (seqZ 0 n)).

Fixpoint memcmp (m : mem) (s1 s2 : Z) (n : nat) : Z :=
  match n with
  | O => 0
  | S n' => if negb (ldb m s1 =? ldb m s2) then ldb m s1 - ldb m s2 else memcmp m (s1 + 1) (s2 + 1) n'
  end.

Definition memcpy (m : mem) (dst src n : Z) : mem := memmove m dst src n.

Definition sbrk (n : Z) : prog Z := ask (Sbrk n SBRK_EAGER).
Definition sbrklazy (n : Z) : prog Z := ask (Sbrk n SBRK_LAZY).
End Ulib.
