(* ===== verification/Sh.v ===== *)
(** * The shell: [user/sh.c]

    A line is parsed into a tree of commands, whose words are pointers into the
    line; then the ends of the words are overwritten by zeros, and the tree is
    run.  The nodes of the tree are objects from [malloc], here entries of a table
    by their addresses: a node is changed while another already points to it.
    [malloc] is taken not to fail: the shell does not look. *)

From S2P Require Import Prelude Mem Layout Fs Trap Sysfile Printf Uprintf Ulib.

Definition MAXARGS : Z := 10.

(** [struct cmd] and the structures it stands for. *)
Inductive node :=
  | execcmd_ (argv eargv : list Z)
  | redircmd_ (cmd file efile mode fd : Z)
  | pipecmd_ (left right : Z)
  | listcmd_ (left right : Z)
  | backcmd_ (cmd : Z).

Record shst := Shst { sh_mem : mem; sh_heap : gmap Z node; sh_next : Z }.
Definition set_sh_mem m s : shst := Shst m (sh_heap s) (sh_next s).

(** ** Constructors *)

Definition new (n : node) : M shst Z :=
  p ← gets sh_next;
  modify (λ s, Shst (sh_mem s) (<[p := n]> (sh_heap s)) (p + 1));;
  mret p.

Definition execcmd : M shst Z := new (execcmd_ (replicate (Z.to_nat MAXARGS) 0) (replicate (Z.to_nat MAXARGS) 0)).
Definition redircmd (subcmd file efile mode fd : Z) : M shst Z := new (redircmd_ subcmd file efile mode fd).
Definition pipecmd (left right : Z) : M shst Z := new (pipecmd_ left right).
Definition listcmd (left right : Z) : M shst Z := new (listcmd_ left right).
Definition backcmd (subcmd : Z) : M shst Z := new (backcmd_ subcmd).

(** ** Tokens *)

Definition whitespace : list Z := [32; 9; 13; 10; 11].
(** [<|>&;()] *)
Definition symbols : list Z := [60; 124; 62; 38; 59; 40; 41].

(** [while(s < es && strchr(whitespace, *s)) s++;] with [n] = [es - s]. *)
Fixpoint skip_white (n : nat) (m : mem) (s : Z) : Z :=
  match n with
  | O => s
  | S n' => if Ulib.strchr whitespace (ldb m s) then skip_white n' m (s + 1) else s
  end.
(** The end of a word. *)
Fixpoint skip_word (n : nat) (m : mem) (s : Z) : Z :=
  match n with
  | O => s
  | S n' => if negb (Ulib.strchr whitespace (ldb m s)) && negb (Ulib.strchr symbols (ldb m s)) then skip_word n' m (s + 1) else s
  end.

(** The token, where it starts and ends, and [*ps]. *)
Definition gettoken (s es : Z) : M shst (Z * Z * Z * Z) :=
  m ← gets sh_mem;
  let s := skip_white (Z.to_nat (es - s)) m s in
  let q := s in
  let c := ldb m s in
  let '(ret, s) :=
    if c =? 0 then (c, s)
    else if (c =? 124) || (c =? 40) || (c =? 41) || (c =? 59) || (c =? 38) || (c =? 60) then (c, s + 1)
    else if c =? 62 then if ldb m (s + 1) =? 62 then (43, s + 1 + 1) else (c, s + 1)
    else (97, skip_word (Z.to_nat (es - s)) m s) in
  let eq := s in
  mret (ret, q, eq, skip_white (Z.to_nat (es - s)) m s).

(** Whether the next byte is one of [toks], and [*ps]. *)
Definition peek (s es : Z) (toks : list Z) : M shst (bool * Z) :=
  m ← gets sh_mem;
  let s := skip_white (Z.to_nat (es - s)) m s in
  mret (negb (ldb m s =? 0) && Ulib.strchr toks (ldb m s), s).

(** ** The parser

    Every function takes and returns [*ps]. *)

(** The loop of [parseredirs]. *)
Definition redirs_step (es : Z) (x : Z * Z) : M shst ((Z * Z) + (Z * Z)) :=
  let '(cmd, s) := x in
  '(b, s) ← peek s es [60; 62];
  if negb b then mret (inr (cmd, s)) else
  '(tok, _, _, s) ← gettoken s es;
  '(tok2, q, eq, s) ← gettoken s es;
  panic_if (negb (tok2 =? 97)) "missing file for redirection";;
  cmd ← (if tok =? 60 then redircmd cmd q eq O_RDONLY 0
         else if tok =? 62 then redircmd cmd q eq (Z.lor (Z.lor O_WRONLY O_CREATE) O_TRUNC) 1
         else if tok =? 43 then redircmd cmd q eq (Z.lor O_WRONLY O_CREATE) 1
         else mret cmd);
  mret (inl (cmd, s)).
Definition parseredirs (cmd s es : Z) : M shst (Z * Z) := loop (Z.to_nat (es - s) + 1) (redirs_step es) (cmd, s).

Definition upd_exec (cmd : Z) (f : list Z → list Z) (g : list Z → list Z) : M shst unit :=
  modify (λ s, Shst (sh_mem s)
    (alter (λ n, match n with execcmd_ a e => execcmd_ (f a) (g e) | _ => n end) cmd (sh_heap s)) (sh_next s)).

(** The loop over the words of a command. *)
Definition exec_step (cmd es : Z) (x : Z * Z * Z) : M shst ((Z * Z * Z) + (Z * Z * Z)) :=
  let '(ret, argc, s) := x in
  '(b, s) ← peek s es [124; 41; 38; 59];
  if (b : bool) then mret (inr (ret, argc, s)) else
  '(tok, q, eq, s) ← gettoken s es;
  if tok =? 0 then mret (inr (ret, argc, s)) else
  panic_if (negb (tok =? 97)) "syntax";;
  upd_exec cmd (λ a, <[Z.to_nat argc := q]> a) (λ e, <[Z.to_nat argc := eq]> e);;
  let argc := argc + 1 in
  panic_if (argc >=? MAXARGS) "too many args";;
  '(ret, s) ← parseredirs ret s es;
  mret (inl (ret, argc, s)).

(** [parseexec] when there is no block. *)
Definition parsewords (s es : Z) : M shst (Z * Z) :=
  cmd ← execcmd;
  '(ret, s) ← parseredirs cmd s es;
  '(ret, argc, s) ← loop (Z.to_nat (es - s) + 1) (exec_step cmd es) (ret, 0, s);
  upd_exec cmd (λ a, <[Z.to_nat argc := 0]> a) (λ e, <[Z.to_nat argc := 0]> e);;
  mret (ret, s).

(** [while(peek(ps, es, "&"))] *)
Definition back_step (es : Z) (x : Z * Z) : M shst ((Z * Z) + (Z * Z)) :=
  let '(cmd, s) := x in
  '(b, s) ← peek s es [38];
  if negb b then mret (inr (cmd, s)) else
  '(_, _, _, s) ← gettoken s es;
  cmd ← backcmd cmd;
  mret (inl (cmd, s)).

Fixpoint parseline (n : nat) (s es : Z) : M shst (Z * Z) :=
  match n with
  | O => nofuel
  | S n' =>
      '(cmd, s) ← parsepipe n' s es;
      '(cmd, s) ← loop (Z.to_nat (es - s) + 1) (back_step es) (cmd, s);
      '(b, s) ← peek s es [59];
      if negb (b : bool) then mret (cmd, s) else
      '(_, _, _, s) ← gettoken s es;
      '(rcmd, s) ← parseline n' s es;
      p ← listcmd cmd rcmd;
      mret (p, s)
  end
with parsepipe (n : nat) (s es : Z) : M shst (Z * Z) :=
  match n with
  | O => nofuel
  | S n' =>
      '(cmd, s) ← parseexec n' s es;
      '(b, s) ← peek s es [124];
      if negb (b : bool) then mret (cmd, s) else
      '(_, _, _, s) ← gettoken s es;
      '(rcmd, s) ← parsepipe n' s es;
      p ← pipecmd cmd rcmd;
      mret (p, s)
  end
with parseblock (n : nat) (s es : Z) : M shst (Z * Z) :=
  match n with
  | O => nofuel
  | S n' =>
      '(b, s) ← peek s es [40];
      panic_if (negb b) "parseblock";;
      '(_, _, _, s) ← gettoken s es;
      '(cmd, s) ← parseline n' s es;
      '(b, s) ← peek s es [41];
      panic_if (negb b) "syntax - missing )";;
      '(_, _, _, s) ← gettoken s es;
      parseredirs cmd s es
  end
with parseexec (n : nat) (s es : Z) : M shst (Z * Z) :=
  match n with
  | O => nofuel
  | S n' =>
      '(b, s) ← peek s es [40];
      if (b : bool) then parseblock n' s es else
      parsewords s es
  end.

(** [for(i=0; ecmd->argv[i]; i++) *ecmd->eargv[i] = 0;] *)
Fixpoint end_words (argv eargv : list Z) (m : mem) : mem :=
  match argv, eargv with
  | q :: argv', eq :: eargv' => if q =? 0 then m else end_words argv' eargv' (stb m eq 0)
  | _, _ => m
  end.

Fixpoint nulterminate (n : nat) (cmd : Z) : M shst unit :=
  match n with
  | O => nofuel
  | S n' =>
      if cmd =? 0 then mret tt else
      c ← gets (λ s, sh_heap s !! cmd);
      match c with
      | Some (execcmd_ argv eargv) => modify (λ s, set_sh_mem (end_words argv eargv (sh_mem s)) s)
      | Some (redircmd_ cmd _ efile _ _) => nulterminate n' cmd;; modify (λ s, set_sh_mem (stb (sh_mem s) efile 0) s)
      | Some (pipecmd_ l r) => nulterminate n' l;; nulterminate n' r
      | Some (listcmd_ l r) => nulterminate n' l;; nulterminate n' r
      | Some (backcmd_ cmd) => nulterminate n' cmd
      | None => mret tt
      end
  end.

(** The fuel: each call but the first in a row of four is behind a byte that is
    read, a line has no more bytes than memory has, and the children of a node
    are older than it. *)
Definition parsecmd (s : Z) : M shst Z :=
  m ← gets sh_mem;
  match Ulib.strlen (S (size m)) m s with
  | None => nofuel
  | Some len =>
      let es := s + len in
      '(cmd, s) ← parseline (4 * Z.to_nat len + 4) s es;
      '(_, s) ← peek s es [];
      panic_if (negb (s =? es)) "syntax";;
      next ← gets sh_next;
      nulterminate (Z.to_nat next) cmd;;
      mret cmd
  end.

(** ** Running a command *)

(** [panic] of the shell. *)
Definition die {A} (s : string) : prog A := ufprintf 2 (codes "%s" ++ [10]) [AStr (Some (codes s))];; exit 1.

Definition fork1 : prog Z :=
  pid ← ask Fork;
  if pid =? -1 then die "fork" else mret pid.

(** A C string, and the argument vector of [exec], up to its null pointer. *)
Definition str_at (m : mem) (a : Z) : list Z := ldstr (S (size m)) m a.
Fixpoint args_at (m : mem) (argv : list Z) : list (list Z) :=
  match argv with
  | q :: argv' => if q =? 0 then [] else str_at m q :: args_at m argv'
  | [] => []
  end.

Fixpoint runcmd (n : nat) (st : shst) (cmd : Z) : prog Empty_set :=
  match n with
  | O => Stuck
  | S n' =>
      if cmd =? 0 then exit 1 else
      match sh_heap st !! cmd with
      | None => die "runcmd"
      | Some (execcmd_ argv _) =>
          let path := default 0 (argv !! 0%nat) in
          if path =? 0 then exit 1 else
          ask (Exec (str_at (sh_mem st) path) (args_at (sh_mem st) argv));;
          ufprintf 2 (codes "exec %s failed" ++ [10]) [AStr (Some (str_at (sh_mem st) path))];;
          exit 0
      | Some (redircmd_ cmd file _ mode fd) =>
          ask (Close fd);;
          r ← ask (Open (str_at (sh_mem st) file) mode);
          if r <? 0 then ufprintf 2 (codes "open %s failed" ++ [10]) [AStr (Some (str_at (sh_mem st) file))];; exit 1 else
          runcmd n' st cmd
      | Some (listcmd_ l r) =>
          pid ← fork1;
          if pid =? 0 then runcmd n' st l else
          ask Wait;;
          runcmd n' st r
      | Some (pipecmd_ l r) =>
          p ← ask Pipe;
          match p with
          | None => die "pipe"
          | Some (p0, p1) =>
              pid ← fork1;
              if pid =? 0 then ask (Close 1);; ask (Dup p1);; ask (Close p0);; ask (Close p1);; runcmd n' st l else
              pid ← fork1;
              if pid =? 0 then ask (Close 0);; ask (Dup p0);; ask (Close p0);; ask (Close p1);; runcmd n' st r else
              ask (Close p0);;
              ask (Close p1);;
              ask Wait;;
              ask Wait;;
              exit 0
          end
      | Some (backcmd_ cmd) =>
          pid ← fork1;
          if pid =? 0 then runcmd n' st cmd else exit 0
      end
  end.

(** ** The loop *)

Section Main.
(** The address of [buf]. *)
Context (buf : Z).
Definition NBUF_ : Z := 100.

Definition getcmd (m : mem) (buf nbuf : Z) : prog (mem * Z) :=
  ask (Write 2 (codes "$ "));;
  let m := Ulib.memset m buf 0 nbuf in
  m ← Ulib.gets m buf nbuf;
  mret (m, if ldb m buf =? 0 then -1 else 0).

(** [while ( *cmd == ' ' || *cmd == '\t') cmd++;] *)
Fixpoint skip_blank (n : nat) (m : mem) (cmd : Z) : Z :=
  match n with
  | O => cmd
  | S n' => if (ldb m cmd =? 32) || (ldb m cmd =? 9) then skip_blank n' m (cmd + 1) else cmd
  end.

(** [runcmd(parsecmd(cmd))] in the child; its [panic]s end it. *)
Definition run_line (m : mem) (cmd : Z) : prog Empty_set :=
  match parsecmd cmd (Shst m ∅ 1) with
  | Ok p st => runcmd (Z.to_nat (sh_next st)) st p
  | Panic s => die s
  | NoFuel => Stuck
  end.

(** A turn of the loop that reads commands. *)
Definition main_step (m : mem) : prog (mem + unit) :=
  '(m, r) ← getcmd m buf NBUF_;
  if r <? 0 then mret (inr tt) else
  let cmd := skip_blank (Z.to_nat NBUF_) m buf in
  if ldb m cmd =? 10 then mret (inl m) else
  if (ldb m cmd =? 99) && (ldb m (cmd + 1) =? 100) && (ldb m (cmd + 2) =? 32) then
    let m := stb m (cmd + default 0 (Ulib.strlen (S (size m)) m cmd) - 1) 0 in
    r ← ask (Chdir (str_at m (cmd + 3)));
    (if r <? 0 then ufprintf 2 (codes "cannot cd %s" ++ [10]) [AStr (Some (str_at m (cmd + 3)))] else mret tt);;
    mret (inl m)
  else
    pid ← fork1;
    if pid =? 0 then (e ← run_line m cmd; match (e : Empty_set) with end) else
    ask Wait;;
    mret (inl m).

(** [n] bounds the commands read and the descriptors opened. *)
Definition sh_main (n : nat) (m : mem) : prog unit :=
  repeat_prog n (λ _ : unit,
    fd ← ask (Open (codes "console") O_RDWR);
    if negb (fd >=? 0) then mret (inr tt) else
    if fd >=? 3 then ask (Close fd);; mret (inr tt) else mret (inl tt)) tt;;
  repeat_prog n main_step m;;
  exit 0.
End Main.
