(* ===== verification/ShGrammar.v ===== *)
(** * The language of the shell

    Tokens, commands and the grammar of a command line, and a parser on tokens
    that decides the grammar.  [ShParse] proves that [user/sh.c] does what this
    parser does. *)

From S2P Require Import Prelude Mem Layout Fs Trap Sysfile Printf Uprintf Ulib Sh.

Set Default Proof Using "Type".

(** ** Tokens *)

Inductive token := TWord (w : list Z) | TSym (c : Z) | TAppend.

Definition iswhite (c : Z) : bool := Ulib.strchr whitespace c.
Definition issym (c : Z) : bool := Ulib.strchr symbols c.
Definition isword (c : Z) : bool := negb (iswhite c) && negb (issym c).

(** Words are as long as they can be, and [>>] is one token. *)
Fixpoint tokens (l : list Z) : list token :=
  match l with
  | [] => []
  | c :: l' =>
      if iswhite c then tokens l'
      else if c =? 62 then
        match l' with
        | c2 :: l'' => if c2 =? 62 then TAppend :: tokens l'' else TSym c :: tokens l'
        | [] => [TSym c]
        end
      else if issym c then TSym c :: tokens l'
      else match l' with
           | c2 :: _ =>
               if isword c2 then match tokens l' with TWord w :: ts => TWord (c :: w) :: ts | ts => TWord [c] :: ts end
               else TWord [c] :: tokens l'
           | [] => [TWord [c]]
           end
  end.

(** ** Commands *)

Inductive cmd :=
  | Simple (argv : list (list Z))
  | Redirect (c : cmd) (file : list Z) (mode fd : Z)
  | Piped (c1 c2 : cmd)
  | Seq (c1 c2 : cmd)
  | Bg (c : cmd).

(** [<], [>] and [>>]. *)
Definition isop (t : token) : bool := match t with TSym c => (c =? 60) || (c =? 62) | TAppend => true | TWord _ => false end.
Definition redirect (c : cmd) (r : token * list Z) : cmd :=
  match r.1 with
  | TAppend => Redirect c r.2 (Z.lor O_WRONLY O_CREATE) 1
  | TSym x => if x =? 60 then Redirect c r.2 O_RDONLY 0 else Redirect c r.2 (Z.lor (Z.lor O_WRONLY O_CREATE) O_TRUNC) 1
  | TWord _ => c
  end.
Definition redirected (c : cmd) (rs : list (token * list Z)) : cmd := foldl redirect c rs.

(** Words and redirections in any order. *)
Inductive Items : list token → list (list Z) → list (token * list Z) → Prop :=
  | it_nil : Items [] [] []
  | it_word w ts ws rs : Items ts ws rs → Items (TWord w :: ts) (w :: ws) rs
  | it_redir t f ts ws rs : isop t = true → Items ts ws rs → Items (t :: TWord f :: ts) ws ((t, f) :: rs).

(** The grammar: [( ) | & ;] are symbols 40, 41, 124, 38 and 59. *)
Inductive Command : list token → cmd → Prop :=
  | cm_simple ts ws rs : Items ts ws rs → Z.of_nat (length ws) < MAXARGS → Command ts (redirected (Simple ws) rs)
  | cm_block ts ts' c rs : Line ts c → Items ts' [] rs → Command (TSym 40 :: ts ++ TSym 41 :: ts') (redirected c rs)
with Pipeline : list token → cmd → Prop :=
  | pl_one ts c : Command ts c → Pipeline ts c
  | pl_more ts ts' c c' : Command ts c → Pipeline ts' c' → Pipeline (ts ++ TSym 124 :: ts') (Piped c c')
with Line : list token → cmd → Prop :=
  | ln_one ts n c : Pipeline ts c → Line (ts ++ replicate n (TSym 38)) (Nat.iter n Bg c)
  | ln_more ts n ts' c c' : Pipeline ts c → Line ts' c' → Line (ts ++ replicate n (TSym 38) ++ TSym 59 :: ts') (Seq (Nat.iter n Bg c) c').

Scheme Command_ind' := Induction for Command Sort Prop
  with Pipeline_ind' := Induction for Pipeline Sort Prop
  with Line_ind' := Induction for Line Sort Prop.
Combined Scheme grammar_ind from Command_ind', Pipeline_ind', Line_ind'.

(** ** The parser on tokens *)

Inductive pres (A : Type) := POk (a : A) (ts : list token) | PErr | PFuel.
Arguments POk {A} _ _.
Arguments PErr {A}.
Arguments PFuel {A}.

Definition stops (t : token) : bool := match t with TSym c => (c =? 124) || (c =? 41) || (c =? 38) || (c =? 59) | _ => false end.

Fixpoint predirs (ts : list token) (rs : list (token * list Z)) : pres (list (token * list Z)) :=
  match ts with
  | [] => POk rs []
  | t :: ts1 =>
      if isop t then match ts1 with TWord f :: ts2 => predirs ts2 (rs ++ [(t, f)]) | _ => PErr end
      else POk rs ts
  end.

Fixpoint pitems (ts : list token) (ws : list (list Z)) (rs : list (token * list Z)) : pres cmd :=
  match ts with
  | [] => POk (redirected (Simple ws) rs) []
  | t :: ts1 =>
      if isop t then match ts1 with TWord f :: ts2 => pitems ts2 ws (rs ++ [(t, f)]) | _ => PErr end
      else if stops t then POk (redirected (Simple ws) rs) ts
      else match t with
           | TWord w => if Z.of_nat (length ws) + 1 >=? MAXARGS then PErr else pitems ts1 (ws ++ [w]) rs
           | _ => PErr
           end
  end.

Fixpoint pback (ts : list token) (c : cmd) : cmd * list token :=
  match ts with
  | TSym x :: ts1 => if x =? 38 then pback ts1 (Bg c) else (c, ts)
  | _ => (c, ts)
  end.

Definition starts (x : Z) (ts : list token) : option (list token) :=
  match ts with TSym y :: ts1 => if y =? x then Some ts1 else None | _ => None end.

Fixpoint pline (n : nat) (ts : list token) : pres cmd :=
  match n with
  | O => PFuel
  | S n' =>
      match ppipe n' ts with
      | POk c ts1 =>
          let '(c, ts2) := pback ts1 c in
          match starts 59 ts2 with
          | Some ts3 => match pline n' ts3 with POk c' ts4 => POk (Seq c c') ts4 | r => r end
          | None => POk c ts2
          end
      | r => r
      end
  end
with ppipe (n : nat) (ts : list token) : pres cmd :=
  match n with
  | O => PFuel
  | S n' =>
      match pexec n' ts with
      | POk c ts1 =>
          match starts 124 ts1 with
          | Some ts2 => match ppipe n' ts2 with POk c' ts3 => POk (Piped c c') ts3 | r => r end
          | None => POk c ts1
          end
      | r => r
      end
  end
with pblock (n : nat) (ts : list token) : pres cmd :=
  match n with
  | O => PFuel
  | S n' =>
      match starts 40 ts with
      | None => PErr
      | Some ts1 =>
          match pline n' ts1 with
          | POk c ts2 =>
              match starts 41 ts2 with
              | None => PErr
              | Some ts3 => match predirs ts3 [] with POk rs ts4 => POk (redirected c rs) ts4 | PErr => PErr | PFuel => PFuel end
              end
          | r => r
          end
      end
  end
with pexec (n : nat) (ts : list token) : pres cmd :=
  match n with
  | O => PFuel
  | S n' => match starts 40 ts with Some _ => pblock n' ts | None => pitems ts [] [] end
  end.

(** ** It accepts only the grammar *)

Lemma starts_Some x ts ts1 : starts x ts = Some ts1 ↔ ts = TSym x :: ts1.
Proof.
  split; [|intros ->; cbn; by rewrite Z.eqb_refl]. destruct ts as [|[w|y|] ts]; try done. cbn. destruct (Z.eqb_spec y x); [|done]. naive_solver.
Qed.

Lemma predirs_sound ts : ∀ rs rs' ts', predirs ts rs = POk rs' ts' → ∃ ts1 rs1, ts = ts1 ++ ts' ∧ rs' = rs ++ rs1 ∧ Items ts1 [] rs1.
Proof.
  induction ts as [ts IH] using (induction_ltof1 _ (@length token)). unfold ltof in IH. intros rs rs' ts' E. destruct ts as [|t ts]; cbn in E.
  { injection E as <- <-. exists [], []. split_and!; [done|by rewrite app_nil_r|constructor]. }
  destruct (isop t) eqn:Ht; [|injection E as <- <-; exists [], []; split_and!; [done|by rewrite app_nil_r|constructor]].
  destruct ts as [|[f| |] ts]; try done. apply IH in E as (ts1 & rs1 & -> & -> & Hi); [|cbn; lia]. exists (t :: TWord f :: ts1), ((t, f) :: rs1). rewrite <-app_assoc. split_and!; try done. by constructor.
Qed.
Lemma predirs_fuel ts : ∀ rs, predirs ts rs ≠ PFuel.
Proof.
  induction ts as [ts IH] using (induction_ltof1 _ (@length token)). unfold ltof in IH. intros rs. destruct ts as [|t ts]; cbn; [done|]. destruct (isop t); [|done].
  destruct ts as [|[f| |] ts]; try done. apply IH. cbn. lia.
Qed.

Lemma pitems_sound ts : ∀ ws rs c ts', Z.of_nat (length ws) < MAXARGS → pitems ts ws rs = POk c ts' →
  ∃ ts1 ws1 rs1, ts = ts1 ++ ts' ∧ Items ts1 ws1 rs1 ∧ c = redirected (Simple (ws ++ ws1)) (rs ++ rs1) ∧ Z.of_nat (length (ws ++ ws1)) < MAXARGS.
Proof.
  induction ts as [ts IH] using (induction_ltof1 _ (@length token)). unfold ltof in IH. intros ws rs c ts' Hl E.
  assert (∀ c', POk c' ts = POk c ts' → c' = redirected (Simple ws) rs →
    ∃ ts1 ws1 rs1, ts = ts1 ++ ts' ∧ Items ts1 ws1 rs1 ∧ c = redirected (Simple (ws ++ ws1)) (rs ++ rs1) ∧ Z.of_nat (length (ws ++ ws1)) < MAXARGS) as Hend.
  { intros c' [= <- <-] ->. exists [], [], []. rewrite !app_nil_r. split_and!; try done. constructor. }
  destruct ts as [|t ts]; cbn in E; [by apply (Hend _ E)|]. destruct (isop t) eqn:Ht.
  - destruct ts as [|[f| |] ts]; try done. apply IH in E as (ts1 & ws1 & rs1 & -> & Hi & -> & Hlen); [|cbn; lia|done].
    exists (t :: TWord f :: ts1), ws1, ((t, f) :: rs1). rewrite <-app_assoc. split_and!; try done. by constructor.
  - destruct (stops t); [by apply (Hend _ E)|]. destruct t as [w| |]; try done. destruct (_ >=? _) eqn:Hg; [done|].
    apply IH in E as (ts1 & ws1 & rs1 & -> & Hi & -> & Hlen); [|cbn; lia|rewrite length_app; cbn; lia].
    exists (TWord w :: ts1), (w :: ws1), rs1. rewrite <-app_assoc in *. split_and!; try done. by constructor.
Qed.
Lemma pitems_fuel ts : ∀ ws rs, pitems ts ws rs ≠ PFuel.
Proof.
  induction ts as [ts IH] using (induction_ltof1 _ (@length token)). unfold ltof in IH. intros ws rs. destruct ts as [|t ts]; cbn; [done|]. destruct (isop t).
  - destruct ts as [|[f| |] ts]; try done. apply IH. cbn. lia.
  - destruct (stops t); [done|]. destruct t as [w| |]; try done. destruct (_ >=? _); [done|]. apply IH. cbn. lia.
Qed.

Lemma pback_sound ts : ∀ c c' ts', pback ts c = (c', ts') → ∃ k, ts = replicate k (TSym 38) ++ ts' ∧ c' = Nat.iter k Bg c ∧ starts 38 ts' = None.
Proof.
  induction ts as [|t ts IH]; intros c c' ts' E; cbn in E; [injection E as <- <-; by exists O|].
  destruct t as [w|x|]; try (injection E as <- <-; by exists O). destruct (Z.eqb_spec x 38) as [->|Hx].
  - apply IH in E as (k & -> & -> & Hs). exists (S k). split_and!; [done| |done]. by rewrite Nat.iter_succ_r.
  - injection E as <- <-. exists O. split_and!; try done. cbn. by destruct (Z.eqb_spec x 38).
Qed.

Lemma parser_sound n :
  (∀ ts c ts', pline n ts = POk c ts' → ∃ ts1, ts = ts1 ++ ts' ∧ Line ts1 c) ∧
  (∀ ts c ts', ppipe n ts = POk c ts' → ∃ ts1, ts = ts1 ++ ts' ∧ Pipeline ts1 c) ∧
  (∀ ts c ts', pblock n ts = POk c ts' → ∃ ts1, ts = ts1 ++ ts' ∧ Command ts1 c) ∧
  (∀ ts c ts', pexec n ts = POk c ts' → ∃ ts1, ts = ts1 ++ ts' ∧ Command ts1 c).
Proof.
  induction n as [|n (IHl & IHp & IHb & IHe)]; [done|]. split_and!; intros ts c ts' E; cbn in E.
  - destruct (ppipe n ts) as [c1 ts1| |] eqn:Ep; try done. apply IHp in Ep as (ta & -> & Hp). destruct (pback ts1 c1) as [c2 ts2] eqn:Eb. apply pback_sound in Eb as (k & -> & -> & _).
    destruct (starts 59 ts2) as [ts3|] eqn:Es.
    + apply starts_Some in Es as ->. destruct (pline n ts3) as [c3 ts4| |] eqn:El; try done. injection E as <- <-. apply IHl in El as (tb & -> & Hl).
      exists (ta ++ replicate k (TSym 38) ++ TSym 59 :: tb). split; [by rewrite <-!app_assoc|]. by constructor.
    + injection E as <- <-. exists (ta ++ replicate k (TSym 38)). split; [by rewrite app_assoc|]. by constructor.
  - destruct (pexec n ts) as [c1 ts1| |] eqn:Ep; try done. apply IHe in Ep as (ta & -> & Hc). destruct (starts 124 ts1) as [ts2|] eqn:Es.
    + apply starts_Some in Es as ->. destruct (ppipe n ts2) as [c2 ts3| |] eqn:El; try done. injection E as <- <-. apply IHp in El as (tb & -> & Hl).
      exists (ta ++ TSym 124 :: tb). split; [by rewrite <-app_assoc|]. by constructor.
    + injection E as <- <-. exists ta. split; [done|]. by constructor.
  - destruct (starts 40 ts) as [ts1|] eqn:Es; [|done]. apply starts_Some in Es as ->. destruct (pline n ts1) as [c1 ts2| |] eqn:El; try done. apply IHl in El as (ta & -> & Hl).
    destruct (starts 41 ts2) as [ts3|] eqn:Es; [|done]. apply starts_Some in Es as ->. destruct (predirs ts3 []) as [rs ts4| |] eqn:Er; try done. injection E as <- <-.
    apply predirs_sound in Er as (tb & rs1 & -> & -> & Hi). exists (TSym 40 :: ta ++ TSym 41 :: tb). split; [cbn; by rewrite <-app_assoc|]. by constructor.
  - destruct (starts 40 ts) as [ts1|]; [by apply IHb|]. apply pitems_sound in E as (ta & ws & rs & -> & Hi & -> & Hlen); [|done]. exists ta. split; [done|]. by constructor.
Qed.

(** ** It needs little fuel *)

Lemma parser_fuel n :
  (∀ ts, (4 * length ts + 4 ≤ n)%nat → pline n ts ≠ PFuel) ∧
  (∀ ts, (4 * length ts + 3 ≤ n)%nat → ppipe n ts ≠ PFuel) ∧
  (∀ ts, (4 * length ts + 1 ≤ n)%nat → pblock n ts ≠ PFuel) ∧
  (∀ ts, (4 * length ts + 2 ≤ n)%nat → pexec n ts ≠ PFuel).
Proof.
  induction n as [|n (IHl & IHp & IHb & IHe)]; [split_and!; intros; lia|]. destruct (parser_sound n) as (Sl & Sp & _ & Se). split_and!; intros ts Hn; cbn.
  - destruct (ppipe n ts) as [c1 ts1| |] eqn:Ep; [|done|by apply IHp in Ep; [|lia]]. apply Sp in Ep as (ta & -> & _). destruct (pback ts1 c1) as [c2 ts2] eqn:Eb. apply pback_sound in Eb as (k & -> & _).
    destruct (starts 59 ts2) as [ts3|] eqn:Es; [|done]. apply starts_Some in Es as ->. rewrite !length_app in Hn. cbn in Hn. destruct (pline n ts3) eqn:El; try done. by apply IHl in El; [|lia].
  - destruct (pexec n ts) as [c1 ts1| |] eqn:Ep; [|done|by apply IHe in Ep; [|lia]]. apply Se in Ep as (ta & -> & _). destruct (starts 124 ts1) as [ts2|] eqn:Es; [|done].
    apply starts_Some in Es as ->. rewrite !length_app in Hn. cbn in Hn. destruct (ppipe n ts2) eqn:El; try done. by apply IHp in El; [|lia].
  - destruct (starts 40 ts) as [ts1|] eqn:Es; [|done]. apply starts_Some in Es as ->. cbn in Hn. destruct (pline n ts1) as [c1 ts2| |] eqn:El; [|done|by apply IHl in El; [|lia]].
    destruct (starts 41 ts2) as [ts3|]; [|done]. destruct (predirs ts3 []) eqn:Er; try done. by apply predirs_fuel in Er.
  - destruct (starts 40 ts); [apply IHb; lia|apply pitems_fuel].
Qed.

(** ** It accepts the grammar *)

(** What may follow. *)
Definition follows (xs : list Z) (ts : list token) : Prop := ts = [] ∨ ∃ x ts1, ts = TSym x :: ts1 ∧ x ∈ xs.

Lemma pitems_complete ts ws rs : Items ts ws rs → ∀ ws0 rs0 ts', Z.of_nat (length (ws0 ++ ws)) < MAXARGS → follows [124; 41; 38; 59] ts' →
  pitems (ts ++ ts') ws0 rs0 = POk (redirected (Simple (ws0 ++ ws)) (rs0 ++ rs)) ts'.
Proof.
  induction 1 as [|w ts ws rs _ IH|t f ts ws rs Ht _ IH]; intros ws0 rs0 ts' Hl Hf; cbn.
  - rewrite !app_nil_r. destruct Hf as [->|(x & ts1 & -> & Hx)]; [done|]. repeat (apply elem_of_cons in Hx as [->|Hx]; [done|]). by apply elem_of_nil in Hx.
  - rewrite length_app in Hl. cbn in Hl. destruct (_ >=? _) eqn:Hg; [lia|]. rewrite IH; [by rewrite <-app_assoc|rewrite !length_app; cbn; lia|done].
  - rewrite Ht, IH by done. by rewrite <-app_assoc.
Qed.
Lemma predirs_complete ts ws rs : Items ts ws rs → ws = [] → ∀ rs0 ts', follows [124; 41; 38; 59] ts' → predirs (ts ++ ts') rs0 = POk (rs0 ++ rs) ts'.
Proof.
  induction 1 as [|w ts ws rs _ IH|t f ts ws rs Ht _ IH]; intros Hw rs0 ts' Hf; cbn; [|done|].
  - rewrite app_nil_r. destruct Hf as [->|(x & ts1 & -> & Hx)]; [done|]. repeat (apply elem_of_cons in Hx as [->|Hx]; [done|]). by apply elem_of_nil in Hx.
  - rewrite Ht, IH by done. by rewrite <-app_assoc.
Qed.
Lemma Items_starts ts ws rs ts' : Items ts ws rs → follows [124; 41; 38; 59] ts' → starts 40 (ts ++ ts') = None.
Proof.
  intros [] Hf; cbn.
  - destruct Hf as [->|(x & ts1 & -> & Hx)]; [done|]. repeat (apply elem_of_cons in Hx as [->|Hx]; [done|]). by apply elem_of_nil in Hx.
  - done.
  - destruct t as [|c|]; try done. cbn in H. destruct (Z.eqb_spec c 40) as [->|]; [done|]. done.
Qed.
Lemma pback_complete n c ts : starts 38 ts = None → pback (replicate n (TSym 38) ++ ts) c = (Nat.iter n Bg c, ts).
Proof.
  intros Hs. induction n as [|n IH] in c |- *; cbn.
  - destruct ts as [|[w|x|] ts]; try done. cbn in *. by destruct (x =? 38).
  - rewrite IH. by rewrite <-Nat.iter_succ_r.
Qed.
Lemma follows_mono xs ys ts : follows xs ts → xs ⊆ ys → follows ys ts.
Proof. intros [->|(x & ts1 & -> & Hx)] Hs; [by left|right]. exists x, ts1. split; [done|]. by apply Hs. Qed.
Lemma follows_starts xs x ts : follows xs ts → x ∉ xs → starts x ts = None.
Proof. intros [->|(y & ts1 & -> & Hy)] Hx; [done|]. cbn. destruct (Z.eqb_spec y x) as [->|]; [done|]. done. Qed.

Ltac len := cbn [length app] in *; rewrite ?length_app in *; cbn [length app] in *; rewrite ?length_app in *; lia.

Lemma parser_complete :
  (∀ ts c, Command ts c → ∀ n ts', (4 * length (ts ++ ts') + 2 ≤ n)%nat → follows [124; 41; 38; 59] ts' → pexec n (ts ++ ts') = POk c ts') ∧
  (∀ ts c, Pipeline ts c → ∀ n ts', (4 * length (ts ++ ts') + 3 ≤ n)%nat → follows [41; 38; 59] ts' → ppipe n (ts ++ ts') = POk c ts') ∧
  (∀ ts c, Line ts c → ∀ n ts', (4 * length (ts ++ ts') + 4 ≤ n)%nat → follows [41] ts' → pline n (ts ++ ts') = POk c ts').
Proof.
  apply grammar_ind.
  - intros ts ws rs Hi Hl n ts' Hn Hf. destruct n as [|n]; [lia|]. cbn [pexec]. rewrite (Items_starts _ _ _ _ Hi Hf). by rewrite (pitems_complete _ _ _ Hi).
  - intros ts ts1 c rs _ IH Hi n ts' Hn Hf. destruct n as [|[|n]]; [len..|]. cbn. rewrite <-app_assoc. cbn. rewrite IH.
    + cbn. by rewrite (predirs_complete _ _ _ Hi).
    + len.
    + right. exists 41, (ts1 ++ ts'). split; [done|by left].
  - intros ts c _ IH n ts' Hn Hf. destruct n as [|n]; [lia|]. cbn. rewrite IH; [|lia|apply (follows_mono [41; 38; 59]); [done|set_solver]]. by rewrite (follows_starts _ 124 _ Hf) by set_solver.
  - intros ts ts1 c c' _ IH1 _ IH2 n ts' Hn Hf. destruct n as [|n]; [lia|]. cbn. rewrite <-app_assoc in Hn |- *. cbn in Hn |- *. rewrite IH1; [|lia|right; exists 124, (ts1 ++ ts'); split; [done|by left]].
    cbn. rewrite IH2; [done|len|done].
  - intros ts k c _ IH n ts' Hn Hf. destruct n as [|n]; [lia|]. cbn. rewrite <-app_assoc in Hn |- *. rewrite IH; [|lia|].
    + rewrite pback_complete by (apply (follows_starts _ 38 _ Hf); set_solver). by rewrite (follows_starts _ 59 _ Hf) by set_solver.
    + destruct k; [apply (follows_mono [41]); [done|set_solver]|]. right. eexists 38, _. split; [done|set_solver].
  - intros ts k ts1 c c' _ IH1 _ IH2 n ts' Hn Hf. destruct n as [|n]; [lia|]. cbn. rewrite <-!app_assoc in Hn |- *. cbn in Hn |- *. rewrite IH1; [|lia|].
    + rewrite pback_complete by done. cbn. rewrite IH2; [done|len|done].
    + destruct k; [right; exists 59, (ts1 ++ ts')|right; eexists 38, _]; (split; [done|set_solver]).
Qed.

(** The parser decides the grammar. *)
Lemma parser_correct ts c n : (4 * length ts + 4 ≤ n)%nat → pline n ts = POk c [] ↔ Line ts c.
Proof.
  intros Hn. split.
  - intros E. apply parser_sound in E as (ts1 & -> & Hl). by rewrite app_nil_r.
  - intros Hl. destruct parser_complete as (_ & _ & H). specialize (H ts c Hl n []). rewrite app_nil_r in H. apply H; [done|by left].
Qed.

(** The tokens of a text. *)
Lemma tokens_ok l : Forall (λ t, match t with TSym c => issym c = true | _ => True end) (tokens l).
Proof.
  induction l as [l IH] using (induction_ltof1 _ (@length Z)). unfold ltof in IH. destruct l as [|c l]; cbn [tokens]; [constructor|].
  assert (Forall (λ t, match t with TSym c => issym c = true | _ => True end) (tokens l)) as Hl by (apply IH; cbn; lia).
  destruct (iswhite c); [done|]. destruct (Z.eqb_spec c 62) as [->|].
  { destruct l as [|c2 l]; [by constructor|]. destruct (c2 =? 62); [|by constructor]. constructor; [done|]. apply IH. cbn. lia. }
  destruct (issym c) eqn:E; [by constructor|]. destruct l as [|c2 l]; [by constructor|]. destruct (isword c2); [|by constructor].
  destruct (tokens (c2 :: l)) as [|t ts]; [by constructor|]. inversion Hl; subst. destruct t; by repeat constructor.
Qed.

(** ** Its loops *)

Lemma predirs_head ts : ∀ rs rs' ts', predirs ts rs = POk rs' ts' → match ts' with t :: _ => isop t = false | [] => True end.
Proof.
  induction ts as [ts IH] using (induction_ltof1 _ (@length token)). unfold ltof in IH. intros rs rs' ts' E. destruct ts as [|t ts]; cbn in E; [by injection E as <- <-|].
  destruct (isop t) eqn:Ht; [|by injection E as <- <-]. destruct ts as [|[f| |] ts]; try done. by apply IH in E; [|cbn; lia].
Qed.
Lemma pitems_redirs ts ws : ∀ rs, pitems ts ws rs = match predirs ts rs with POk rs' ts' => pitems ts' ws rs' | PErr => PErr | PFuel => PFuel end.
Proof.
  induction ts as [ts IH] using (induction_ltof1 _ (@length token)). unfold ltof in IH. intros rs. destruct ts as [|t ts]; cbn; [done|].
  destruct (isop t) eqn:Ht; [|cbn; by rewrite Ht]. destruct ts as [|[f| |] ts]; try done. apply IH. cbn. lia.
Qed.
