(* ===== verification/ShParse.v ===== *)
(** * The shell's parser against its grammar

    [parsecmd] does on the bytes of a line what the parser of [ShGrammar] does on
    its tokens, and the nodes it makes are the tree. *)

From S2P Require Import Prelude Mem Layout Fs Trap Sysfile Printf Uprintf Ulib Sh ShGrammar.

Set Default Proof Using "Type".

#[local] Arguments Ulib.strchr : simpl never.
#[local] Arguments iswhite : simpl never.
#[local] Arguments issym : simpl never.
#[local] Arguments isword : simpl never.

(** ** Programs that return or panic *)

Definition outcome {S A} (Q : A → S → Prop) (E : Prop) (r : res S A) : Prop :=
  match r with Ok a s => Q a s | Panic _ => E | NoFuel => False end.

Lemma outcome_bind {S A B} (m : M S A) (f : A → M S B) Q E s :
  outcome (λ a s', outcome Q E (f a s')) E (m s) → outcome Q E ((m ≫= f) s).
Proof. unfold mbind, M_bind. by destruct (m s). Qed.
Lemma outcome_mono {S A} (Q Q' : A → S → Prop) (E E' : Prop) r : outcome Q E r → (∀ a s, Q a s → Q' a s) → (E → E') → outcome Q' E' r.
Proof. destruct r; cbn; auto. Qed.
Lemma outcome_panic_if {S} (b : bool) msg Q E (s : S) : (b = true → E) → (b = false → Q tt s) → outcome Q E (panic_if b msg s).
Proof. destruct b; cbn; auto. Qed.

Lemma strchr_in l c : Ulib.strchr l c = true ↔ c ∈ l.
Proof. induction l as [|x l IH]; [set_solver|]. cbv [Ulib.strchr]; fold Ulib.strchr. destruct (Z.eqb_spec x c) as [->|]; [set_solver|]. rewrite IH. set_solver. Qed.

Section Line.
(** A C string of memory, from [s0] to its zero at [es]. *)
Context (m : mem) (s0 es : Z).
Record line_ok : Prop := {
  lo_start : 0 < s0 ≤ es;
  lo_end : ldb m es = 0;
  lo_chars : ∀ a, s0 ≤ a < es → ldb m a ≠ 0
}.
Context (Hline : line_ok).

Definition chars (s : Z) : list Z := ldbytes m s (Z.to_nat (es - s)).
Definition toks (s : Z) : list token := tokens (chars s).

Lemma chars_nil s : es ≤ s → chars s = [].
Proof. intros H. unfold chars. by rewrite Z2Nat.nonpos by lia. Qed.
Lemma chars_cons s : s < es → chars s = ldb m s :: chars (s + 1).
Proof.
  intros H. unfold chars. replace (Z.to_nat (es - s)) with (S (Z.to_nat (es - (s + 1)))) by lia. unfold ldbytes. cbn. f_equal; [f_equal; lia|].
  rewrite <-fmap_S_seq, <-list_fmap_compose. apply list_fmap_ext. intros i x _. cbn. f_equal. lia.
Qed.

(** ** Tokens *)

Lemma skip_white_spec n s : n = Z.to_nat (es - s) → s ≤ es →
  s ≤ skip_white n m s ≤ es ∧ toks (skip_white n m s) = toks s ∧ (skip_white n m s < es → iswhite (ldb m (skip_white n m s)) = false).
Proof.
  induction n as [|n IH] in s |- *; intros Hn Hs; cbn; [split_and!; try done; lia|]. fold (iswhite (ldb m s)). destruct (iswhite (ldb m s)) eqn:E.
  - destruct (IH (s + 1)) as (H1 & H2 & H3); [lia..|]. split; [lia|]. split; [|done]. rewrite H2. unfold toks. rewrite (chars_cons s) by lia. cbn. by rewrite E.
  - split_and!; try done; lia.
Qed.

(** What a word's bytes are, and where one may end. *)
Definition solid (a : Z) : Prop := s0 ≤ a < es ∧ isword (ldb m a) = true.

Record span (q eq : Z) (w : list Z) : Prop := {
  sp_range : s0 ≤ q < eq ∧ eq ≤ es;
  sp_bytes : w = ldbytes m q (Z.to_nat (eq - q));
  sp_solid : ∀ a, q ≤ a < eq → solid a;
  sp_end : ¬ solid eq
}.

Lemma skip_word_spec n s : n = Z.to_nat (es - s) → s0 ≤ s ≤ es →
  s ≤ skip_word n m s ≤ es ∧ (∀ a, s ≤ a < skip_word n m s → solid a) ∧ ¬ solid (skip_word n m s).
Proof.
  induction n as [|n IH] in s |- *; intros Hn Hs; cbn; [split_and!; try lia; intros [? _]; lia|]. fold (iswhite (ldb m s)) (issym (ldb m s)) (isword (ldb m s)). destruct (isword (ldb m s)) eqn:E.
  - destruct (IH (s + 1)) as (H1 & H2 & H3); [lia..|]. split; [lia|]. split; [|done]. intros a Ha. destruct (decide (a = s)) as [->|]; [split; [lia|done]|apply H2; lia].
  - split_and!; [lia..|]. intros [_ ?]. congruence.
Qed.

Lemma ldbytes_cons s k : 0 < k → ldbytes m s (Z.to_nat k) = ldb m s :: ldbytes m (s + 1) (Z.to_nat (k - 1)).
Proof.
  intros H. replace (Z.to_nat k) with (S (Z.to_nat (k - 1))) by lia. unfold ldbytes. cbn. f_equal; [f_equal; lia|].
  rewrite <-fmap_S_seq, <-list_fmap_compose. apply list_fmap_ext. intros i x _. cbn. f_equal. lia.
Qed.

Lemma isword_not c : isword c = true → iswhite c = false ∧ issym c = false ∧ (c =? 62) = false.
Proof.
  unfold isword. intros [H1 H2]%andb_prop. apply negb_true_iff in H1, H2. split_and!; try done. destruct (Z.eqb_spec c 62) as [->|]; [by vm_compute in H2|done].
Qed.

Lemma toks_word s e : s0 ≤ s < e → e ≤ es → (∀ a, s ≤ a < e → solid a) → ¬ solid e → toks s = TWord (ldbytes m s (Z.to_nat (e - s))) :: toks e.
Proof.
  intros Hs He Hw Hn. remember (Z.to_nat (e - s - 1)) as k eqn:Hk. induction k as [|k IH] in s, Hs, Hw, Hk |- *.
  - assert (e = s + 1) as -> by lia. unfold toks. rewrite (chars_cons s) by lia. destruct (Hw s) as [_ (E1 & E2 & E3)%isword_not]; [lia|]. cbn. rewrite E1, E2, E3.
    rewrite ldbytes_cons by lia. replace (s + 1 - s - 1) with 0 by lia. cbn. destruct (decide (s + 1 < es)) as [Hlt|]; [|by rewrite chars_nil by lia].
    rewrite (chars_cons (s + 1)) by lia. destruct (isword (ldb m (s + 1))) eqn:E; [|done]. destruct Hn. split; [lia|done].
  - specialize (IH (s + 1)). unfold toks in *. rewrite (chars_cons s) by lia. destruct (Hw s) as [_ (E1 & E2 & E3)%isword_not]; [lia|]. cbn. rewrite E1, E2, E3.
    rewrite (chars_cons (s + 1)) at 1 by lia. destruct (Hw (s + 1)) as [_ ->]; [lia|]. rewrite IH by (try lia; intros; apply Hw; lia). rewrite (ldbytes_cons s) by lia. by replace (e - s - 1) with (e - (s + 1)) by lia.
Qed.

Definition code (t : token) : Z := match t with TWord _ => 97 | TSym c => c | TAppend => 43 end.

Record tok_at (s ret q eq s' : Z) : Prop := {
  ta_range : s ≤ s' ≤ es;
  ta_tok : match toks s with
           | [] => ret = 0 ∧ toks s' = []
           | t :: ts => ret = code t ∧ toks s' = ts ∧ s < s' ∧ ∀ w, t = TWord w → span q eq w
           end
}.

Lemma issym_in c : issym c = true → c = 60 ∨ c = 124 ∨ c = 62 ∨ c = 38 ∨ c = 59 ∨ c = 40 ∨ c = 41.
Proof. intros H. cbv [issym symbols Ulib.strchr]  in H. repeat match type of H with (if ?a =? c then _ else _) = _ => destruct (Z.eqb_spec a c); [subst; tauto|] end. done. Qed.

(** The cases of [switch]. *)
Lemma toks_sym s : s < es → iswhite (ldb m s) = false → issym (ldb m s) = true → ldb m s ≠ 62 → toks s = TSym (ldb m s) :: toks (s + 1).
Proof. intros Hs Hw Hy Hn. unfold toks. rewrite (chars_cons s) by lia. cbn. rewrite Hw, Hy. by destruct (Z.eqb_spec (ldb m s) 62). Qed.
Lemma toks_gt s : s0 ≤ s < es → ldb m s = 62 → toks s = if ldb m (s + 1) =? 62 then TAppend :: toks (s + 1 + 1) else TSym 62 :: toks (s + 1).
Proof using Hline.
  intros Hs Hc. unfold toks. rewrite (chars_cons s) by lia. cbn. rewrite Hc. change (iswhite 62) with false. cbn. destruct (decide (s + 1 < es)).
  - rewrite (chars_cons (s + 1)) by lia. done.
  - assert (s + 1 = es) as -> by lia. by rewrite (lo_end Hline), chars_nil by lia.
Qed.

Lemma gettoken_spec s (st : shst) : sh_mem st = m → s0 ≤ s ≤ es → ∃ ret q eq s', gettoken s es st = Ok (ret, q, eq, s') st ∧ tok_at s ret q eq s'.
Proof using Hline.
  intros Hm Hs. unfold gettoken, mbind, M_bind, gets. rewrite Hm. destruct (skip_white_spec _ s eq_refl) as (H1 & H2 & H3); [lia|]. set (s1 := skip_white _ m s) in *.
  assert (∀ e, s1 ≤ e ≤ es → ∃ s', skip_white (Z.to_nat (es - e)) m e = s' ∧ e ≤ s' ≤ es ∧ toks s' = toks e) as Hend.
  { intros e He. destruct (skip_white_spec _ e eq_refl) as (? & ? & _); [lia|]. by eexists. }
  destruct (decide (s1 = es)) as [E|Hne].
  { rewrite E, (lo_end Hline). cbn. destruct (Hend es) as (s' & -> & Hr & Ht); [lia|]. eexists _, _, _, _. split; [done|]. split; [lia|]. rewrite <-H2, E, Ht. unfold toks. by rewrite chars_nil. }
  assert (ldb m s1 ≠ 0) as Hz by (apply (lo_chars Hline); lia). specialize (H3 ltac:(lia)). rewrite (proj2 (Z.eqb_neq _ _) Hz). destruct (issym (ldb m s1)) eqn:Ey.
  - destruct (decide (ldb m s1 = 62)) as [E|Hn].
    + pose proof (toks_gt s1 ltac:(lia) E) as Ht. rewrite H2 in Ht. rewrite E. cbn [Z.eqb Pos.eqb orb]. destruct (ldb m (s1 + 1) =? 62) eqn:E2.
      * assert (s1 + 1 < es). { destruct (decide (s1 + 1 = es)) as [Ee|]; [|lia]. rewrite Ee, (lo_end Hline) in E2. done. }
        destruct (Hend (s1 + 1 + 1)) as (s' & -> & Hr & Ht'); [lia|]. eexists _, _, _, _. split; [done|]. split; [lia|]. rewrite Ht. split_and!; [done|done|lia|done].
      * destruct (Hend (s1 + 1)) as (s' & -> & Hr & Ht'); [lia|]. eexists _, _, _, _. split; [done|]. split; [lia|]. rewrite Ht. split_and!; [done|done|lia|done].
    + pose proof (toks_sym s1 ltac:(lia) H3 Ey Hn) as Ht. rewrite H2 in Ht. destruct (Hend (s1 + 1)) as (s' & Es & Hr & Ht'); [lia|]. exists (ldb m s1), s1, (s1 + 1), s'. split.
      * destruct (issym_in _ Ey) as [->|[->|[Hc|[->|[->|[->| ->]]]]]]; try done; cbn [Z.eqb Pos.eqb orb]; by rewrite Es.
      * split; [lia|]. rewrite Ht. split_and!; [done|done|lia|done].
  - assert (isword (ldb m s1) = true) as Hw by (unfold isword; by rewrite H3, Ey). destruct (skip_word_spec _ s1 eq_refl) as (W1 & W2 & W3); [lia|]. set (e := skip_word _ m s1) in *.
    assert (s1 < e) as Hlt. { destruct (decide (s1 = e)) as [<-|]; [|lia]. destruct W3. split; [lia|done]. }
    pose proof (toks_word s1 e ltac:(lia) ltac:(lia) W2 W3) as Ht. rewrite H2 in Ht. destruct (Hend e) as (s' & Es & Hr & Ht'); [lia|]. exists 97, s1, e, s'. split.
    + assert (∀ c, issym c = true → (ldb m s1 =? c) = false) as Hns by (intros c Hc; apply Z.eqb_neq; congruence). rewrite !Hns by done. cbn [orb]. fold e. by rewrite Es.
    + split; [lia|]. rewrite Ht. split_and!; [done|done|lia|]. intros w [= <-]. split; [lia|done|done|done].
Qed.

(** [peek] of symbols. *)
Definition next_is (toks_ : list Z) (ts : list token) : bool :=
  match ts with TSym c :: _ => Ulib.strchr toks_ c | TAppend :: _ => Ulib.strchr toks_ 62 | _ => false end.

Lemma toks_black s : s < es → iswhite (ldb m s) = false → toks s ≠ [].
Proof.
  intros Hs Hw. unfold toks. rewrite (chars_cons s) by lia. cbn [tokens]. rewrite Hw. destruct (ldb m s =? 62); [destruct (chars (s + 1)) as [|c2 l]; [done|]; by destruct (c2 =? 62)|].
  destruct (issym (ldb m s)); [done|]. destruct (chars (s + 1)) as [|c2 l]; [done|]. destruct (isword c2); [|done]. by destruct (tokens (c2 :: l)) as [|[] ?].
Qed.

Lemma peek_spec s xs (st : shst) : sh_mem st = m → s0 ≤ s ≤ es → xs ⊆ symbols → ∃ s', peek s es xs st = Ok (next_is xs (toks s), s') st ∧ s ≤ s' ≤ es ∧ toks s' = toks s ∧ (toks s' = [] → s' = es).
Proof using Hline.
  intros Hm Hs Hx. unfold peek, mbind, M_bind, gets. rewrite Hm. destruct (skip_white_spec _ s eq_refl) as (H1 & H2 & H3); [lia|]. set (s1 := skip_white _ m s) in *. exists s1. split; [|split_and!; try (done || lia)].
  2:{ intros E. destruct (decide (s1 = es)); [done|]. destruct (toks_black s1); [lia|apply H3; lia|done]. }
  unfold mret, M_ret. do 2 f_equal. rewrite <-H2. destruct (decide (s1 = es)) as [->|Hne]; [rewrite (lo_end Hline); unfold toks; by rewrite chars_nil|].
  assert (ldb m s1 ≠ 0) as Hz by (apply (lo_chars Hline); lia). specialize (H3 ltac:(lia)). rewrite (proj2 (Z.eqb_neq _ _) Hz). cbn. destruct (issym (ldb m s1)) eqn:Ey.
  - destruct (decide (ldb m s1 = 62)) as [E|Hn]; [rewrite (toks_gt s1) by (done || lia); rewrite E; by destruct (_ =? _)|]. by rewrite (toks_sym s1) by (done || lia).
  - destruct (skip_word_spec _ s1 eq_refl) as (W1 & W2 & W3); [lia|]. set (e := skip_word _ m s1) in *. assert (isword (ldb m s1) = true) as Hw by (unfold isword; by rewrite H3, Ey).
    assert (s1 < e) as Hlt. { destruct (decide (s1 = e)) as [<-|]; [|lia]. destruct W3. split; [lia|done]. }
    rewrite (toks_word s1 e) by (done || lia). cbn. apply not_true_iff_false. intros Hc%strchr_in%Hx%strchr_in. unfold issym in Ey. congruence.
Qed.
End Line.
