(* ===== verification/ShTree.v ===== *)
(** * The shell's trees

    The nodes that represent a command, and the proof that the functions of the
    parser make the tree that the parser of [ShGrammar] finds.
    [parsecmd] turns the ends of the words into zeros, and what the tree's pointers
    point to are the words. *)

From S2P Require Import Prelude Mem Layout Fs Trap Sysfile Printf Uprintf Ulib Sh ShGrammar ShParse.

Set Default Proof Using "Type".

#[local] Arguments Ulib.strchr : simpl never.

(** ** Trees *)

(** [op] in terms of [open]. *)
Definition mode_of (t : token) : Z :=
  match t with
  | TSym x => if x =? 60 then O_RDONLY else Z.lor (Z.lor O_WRONLY O_CREATE) O_TRUNC
  | _ => Z.lor O_WRONLY O_CREATE
  end.
Definition fd_of (t : token) : Z := match t with TSym x => if x =? 60 then 0 else 1 | _ => 1 end.
Lemma redirect_op c t f : isop t = true → redirect c (t, f) = Redirect c f (mode_of t) (fd_of t).
Proof. destruct t as [w|x|]; [done| |done]. cbn. by destruct (x =? 60). Qed.

Section Tree.
(** [str q eq w]: the word [w] is at [q], and ends before [eq]. *)
Context (str : Z → Z → list Z → Prop).
Implicit Types (h : gmap Z node).

Definition words (ws : list (list Z)) (argv eargv : list Z) : Prop :=
  ∃ qs eqs k, argv = qs ++ replicate (S k) 0 ∧ eargv = eqs ++ replicate (S k) 0 ∧ Forall3 (λ w q eq, q ≠ 0 ∧ str q eq w) ws qs eqs.

(** The command [c] is at [p]; the nodes of a command are older than its own. *)
Fixpoint repr h (p : Z) (c : cmd) : Prop :=
  match c with
  | Simple ws => ∃ argv eargv, h !! p = Some (execcmd_ argv eargv) ∧ words ws argv eargv
  | Redirect c f mode fd => ∃ p1 q eq, h !! p = Some (redircmd_ p1 q eq mode fd) ∧ str q eq f ∧ 0 < p1 < p ∧ repr h p1 c
  | Piped c1 c2 => ∃ p1 p2, h !! p = Some (pipecmd_ p1 p2) ∧ 0 < p1 < p ∧ 0 < p2 < p ∧ repr h p1 c1 ∧ repr h p2 c2
  | Seq c1 c2 => ∃ p1 p2, h !! p = Some (listcmd_ p1 p2) ∧ 0 < p1 < p ∧ 0 < p2 < p ∧ repr h p1 c1 ∧ repr h p2 c2
  | Bg c => ∃ p1, h !! p = Some (backcmd_ p1) ∧ 0 < p1 < p ∧ repr h p1 c
  end.

Lemma repr_frame h h' p c : repr h p c → (∀ a, a ≤ p → h' !! a = h !! a) → repr h' p c.
Proof.
  induction c as [ws|c IH f mode fd|c1 IH1 c2 IH2|c1 IH1 c2 IH2|c IH] in p |- *; cbn; intros H Hh; rewrite (Hh p) by lia.
  - done.
  - destruct H as (p1 & q & eq & ? & ? & ? & H). exists p1, q, eq. split_and!; try (done || lia). apply IH; [done|]. intros; apply Hh; lia.
  - destruct H as (p1 & p2 & ? & ? & ? & H1 & H2). exists p1, p2. split_and!; try (done || lia); [apply IH1|apply IH2]; try done; intros; apply Hh; lia.
  - destruct H as (p1 & p2 & ? & ? & ? & H1 & H2). exists p1, p2. split_and!; try (done || lia); [apply IH1|apply IH2]; try done; intros; apply Hh; lia.
  - destruct H as (p1 & ? & ? & H). exists p1. split_and!; try (done || lia). apply IH; [done|]. intros; apply Hh; lia.
Qed.

(** [p] is [p0] behind the redirections [rs]. *)
Fixpoint chain h (p0 : Z) (rs : list (token * list Z)) (p : Z) : Prop :=
  match rs with
  | [] => p = p0
  | r :: rs' => ∃ p1 q eq, h !! p1 = Some (redircmd_ p0 q eq (mode_of r.1) (fd_of r.1)) ∧ str q eq r.2 ∧ isop r.1 = true ∧ p0 < p1 ∧ chain h p1 rs' p
  end.

Lemma chain_le h p0 rs p : chain h p0 rs p → p0 ≤ p.
Proof. induction rs as [|r rs IH] in p0 |- *; cbn; [lia|]. intros (p1 & q & eq & _ & _ & _ & ? & H). apply IH in H. lia. Qed.
Lemma chain_frame h h' p0 rs p : chain h p0 rs p → (∀ a, p0 < a ≤ p → h' !! a = h !! a) → chain h' p0 rs p.
Proof.
  induction rs as [|r rs IH] in p0 |- *; cbn; [done|]. intros (p1 & q & eq & E & ? & ? & ? & H) Hh. pose proof (chain_le _ _ _ _ H). exists p1, q, eq. rewrite Hh by lia. split_and!; try done.
  apply IH; [done|]. intros; apply Hh; lia.
Qed.
Lemma chain_snoc h p0 rs p t f p' q eq : chain h p0 rs p → h !! p' = Some (redircmd_ p q eq (mode_of t) (fd_of t)) → str q eq f → isop t = true → p < p' → chain h p0 (rs ++ [(t, f)]) p'.
Proof.
  intros H E Hs Ht Hp. induction rs as [|r rs IH] in p0, H |- *; cbn in *; [subst; exists p', q, eq; done|].
  destruct H as (p1 & q1 & eq1 & ? & ? & ? & ? & H). exists p1, q1, eq1. split_and!; try done. by apply IH.
Qed.
Lemma chain_repr h p0 rs p c : 0 < p0 → repr h p0 c → chain h p0 rs p → repr h p (redirected c rs).
Proof.
  induction rs as [|[t f] rs IH] in p0, c |- *; cbn; [by intros _ ? ->|]. intros Hp Hr (p1 & q & eq & E & Hs & Ht & Hlt & H). apply (IH p1); [lia| |done]. rewrite redirect_op by done. cbn. exists p0, q, eq. split_and!; try (done || lia).
Qed.
End Tree.

(** ** The parser makes trees *)

Section Parse.
Context (m : mem) (s0 es : Z) (Hline : line_ok m s0 es).
Notation toks := (ShParse.toks m es).
Notation span := (ShParse.span m s0 es).

(** The nodes below [b] are as they were. *)
Record grown (b : Z) (st st' : shst) : Prop := {
  gr_mem : sh_mem st' = sh_mem st;
  gr_next : sh_next st ≤ sh_next st';
  gr_old : ∀ a, a < b → sh_heap st' !! a = sh_heap st !! a
}.
Lemma grown_refl b st : grown b st st.
Proof. by split. Qed.
Lemma grown_trans b st1 st2 st3 : grown b st1 st2 → grown b st2 st3 → grown b st1 st3.
Proof. intros [A1 A2 A3] [B1 B2 B3]. split; [congruence|lia|]. intros a Ha. by rewrite B3, A3. Qed.
Lemma grown_le b b' st st' : grown b st st' → b' ≤ b → grown b' st st'.
Proof. intros [A1 A2 A3] H. split; try done. intros a Ha. apply A3. lia. Qed.

Definition ready (s : Z) (st : shst) : Prop := sh_mem st = m ∧ s0 ≤ s ≤ es ∧ 0 < sh_next st.
Lemma ready_grown s s' st st' b : ready s st → grown b st st' → s ≤ s' ≤ es → ready s' st'.
Proof. intros (H1 & H2 & H3) [G1 G2 _] Hs. split_and!; [congruence|lia..]. Qed.

Lemma outcome_gettoken {A} s st (f : Z * Z * Z * Z → M shst A) Q E :
  ready s st → (∀ ret q eq s', tok_at m s0 es s ret q eq s' → outcome Q E (f (ret, q, eq, s') st)) → outcome Q E ((gettoken s es ≫= f) st).
Proof using Hline.
  intros (Hm & Hs & _) H. apply outcome_bind. destruct (gettoken_spec m s0 es Hline s st Hm Hs) as (ret & q & eq & s' & -> & Ht). cbn. by apply H.
Qed.
Lemma outcome_peek {A} s xs st (f : bool * Z → M shst A) Q E :
  ready s st → xs ⊆ symbols → (∀ s', s ≤ s' ≤ es → toks s' = toks s → outcome Q E (f (next_is xs (toks s), s') st)) → outcome Q E ((peek s es xs ≫= f) st).
Proof using Hline.
  intros (Hm & Hs & _) Hx H. apply outcome_bind. destruct (peek_spec m s0 es Hline s xs st Hm Hs Hx) as (s' & -> & ? & ? & _). cbn. by apply H.
Qed.
Definition made (n : node) (st : shst) : shst := Shst (sh_mem st) (<[sh_next st := n]> (sh_heap st)) (sh_next st + 1).
Lemma outcome_new {A} n st (f : Z → M shst A) Q E : outcome Q E (f (sh_next st) (made n st)) → outcome Q E ((new n ≫= f) st).
Proof. done. Qed.
Lemma made_grown n st : grown (sh_next st) st (made n st).
Proof. split; cbn; [done|lia|]. intros a Ha. by rewrite lookup_insert_ne by lia. Qed.
Lemma made_at n st : sh_heap (made n st) !! sh_next st = Some n.
Proof. cbn. by rewrite lookup_insert_eq. Qed.

(** The tests of the loops on the next token. *)
Lemma next_op ts : next_is [60; 62] ts = match ts with t :: _ => isop t | [] => false end.
Proof. destruct ts as [|[w|c|] ts]; try done. cbn. cbv [Ulib.strchr]. rewrite !(Z.eqb_sym _ c). by destruct (c =? 60), (c =? 62). Qed.
Lemma next_stop ts : next_is [124; 41; 38; 59] ts = match ts with t :: _ => stops t | [] => false end.
Proof. destruct ts as [|[w|c|] ts]; try done. cbn. cbv [Ulib.strchr]. rewrite !(Z.eqb_sym _ c). by destruct (c =? 124), (c =? 41), (c =? 38), (c =? 59). Qed.
Lemma next_starts x ts : x ≠ 62 → next_is [x] ts = match starts x ts with Some _ => true | None => false end.
Proof.
  intros Hx. destruct ts as [|[w|c|] ts]; try done; cbn; cbv [Ulib.strchr].
  - rewrite (Z.eqb_sym c x). by destruct (x =? c).
  - by destruct (Z.eqb_spec x 62).
Qed.

(** A token other than a word has another code. *)
Lemma code_cases s t ts : toks s = t :: ts → (∃ w, t = TWord w) ∨ (code t ≠ 97 ∧ code t ≠ 0).
Proof.
  intros E. pose proof (tokens_ok (chars m es s)) as H. fold (toks s) in H. rewrite E in H. inversion H as [|t' ts' Ht _]; subst. destruct t as [w|c|]; [by left; exists w|right|by right].
  cbn. split; intros ->; by vm_compute in Ht.
Qed.

Lemma redirs_loop k p0 rs cmd s st :
  es - s < Z.of_nat k → ready s st → chain span (sh_heap st) p0 rs cmd → cmd < sh_next st → 
  outcome (λ '(p, s') st', grown (sh_next st) st st' ∧ s ≤ s' ≤ es ∧ p < sh_next st' ∧ ∃ rs', predirs (toks s) rs = POk rs' (toks s') ∧ chain span (sh_heap st') p0 rs' p)
    (predirs (toks s) rs = PErr) (loop k (redirs_step es) (cmd, s) st).
Proof using Hline.
  induction k as [|k IH] in rs, cmd, s, st |- *; intros Hk Hr Hc Hn; [destruct Hr as (_ & ? & _); lia|]. cbn [loop]. apply outcome_bind. unfold redirs_step at 1. apply outcome_peek; [done|set_solver|].
  intros s1 Hs1 Et1. rewrite next_op. destruct (toks s) as [|t ts] eqn:Et; cbn [negb].
  { cbn. split; [apply grown_refl|]. split; [done|]. split; [done|]. exists rs. by rewrite Et1. }
  destruct (isop t) eqn:Ho; cbn [negb].
  2:{ cbn. split; [apply grown_refl|]. split; [done|]. split; [done|]. exists rs. rewrite Et1, Ho. done. }
  assert (ready s1 st) as Hr1 by (eapply ready_grown; [done|apply (grown_refl 0)|done]). apply outcome_gettoken; [done|]. intros tok q0 eq0 s2 [R2 T2]. rewrite Et1 in T2. destruct T2 as (-> & Et2 & Hlt & _).
  assert (ready s2 st) as Hr2 by (eapply ready_grown; [done|apply (grown_refl 0)|done]). apply outcome_gettoken; [done|]. intros tok q eq s3 [R3 T3]. rewrite Et2 in T3.
  apply outcome_bind. cbn [predirs]. rewrite Ho. destruct ts as [|t2 ts]; [destruct T3 as [-> _]; done|]. destruct T3 as (-> & Et3 & Hlt3 & Hsp).
  destruct (code_cases s2 t2 ts Et2) as [[f ->]|[Hnw _]].
  2:{ apply outcome_panic_if; [intros _; by destruct t2|]. rewrite (proj2 (Z.eqb_neq _ _) Hnw). done. }
  cbn. specialize (Hsp f eq_refl). set (n := redircmd_ cmd q eq (mode_of t) (fd_of t)).
  assert ((if code t =? 60 then redircmd cmd q eq O_RDONLY 0 else if code t =? 62 then redircmd cmd q eq (Z.lor (Z.lor O_WRONLY O_CREATE) O_TRUNC) 1
    else if code t =? 43 then redircmd cmd q eq (Z.lor O_WRONLY O_CREATE) 1 else mret cmd) = new n) as ->.
  { subst n. destruct t as [w|c|]; [done| |done]. cbn in Ho |- *. destruct (c =? 60); [done|]. by destruct (c =? 62). }
  apply outcome_new. cbn [outcome mret M_ret]. specialize (IH (rs ++ [(t, f)]) (sh_next st) s3 (made n st)).
  pose proof (made_grown n st) as Hg. rewrite <-Et3. eapply outcome_mono; [apply IH| |done].
  - lia.
  - eapply ready_grown; [exact Hr2|done|lia].
  - eapply chain_snoc; [|apply made_at|done|done|done]. eapply chain_frame; [done|]. intros a Ha. apply Hg. lia.
  - cbn. lia.
  - intros [p s'] st' (G & Hs' & Hp & rs' & E & Hch). split; [eapply grown_trans; [done|eapply grown_le; [done|cbn; lia]]|]. split; [lia|]. eauto.
Qed.

Lemma outcome_parseredirs {A} p0 rs cmd s st (f : Z * Z → M shst A) Q E :
  ready s st → chain span (sh_heap st) p0 rs cmd → cmd < sh_next st → (predirs (toks s) rs = PErr → E) →
  (∀ p s' st' rs', grown (sh_next st) st st' → s ≤ s' ≤ es → p < sh_next st' → predirs (toks s) rs = POk rs' (toks s') → chain span (sh_heap st') p0 rs' p → outcome Q E (f (p, s') st')) →
  outcome Q E ((parseredirs cmd s es ≫= f) st).
Proof using Hline.
  intros Hr Hc Hn HE HQ. apply outcome_bind. eapply outcome_mono; [apply (redirs_loop _ p0 rs); try done; lia| |done]. intros [p s'] st' (G & Hs & Hp & rs' & E1 & Hch). by eapply HQ.
Qed.

(** A command being read: [ret] is the node [e] behind its redirections. *)
Record building (e : Z) (ws : list (list Z)) (rs : list (token * list Z)) (ret : Z) (st : shst) : Prop := {
  bd_node : ∃ qs eqs k, sh_heap st !! e = Some (execcmd_ (qs ++ replicate (S k) 0) (eqs ++ replicate (S k) 0)) ∧
              Forall3 (λ w q eq, q ≠ 0 ∧ span q eq w) ws qs eqs ∧ (length ws + S k = 10)%nat;
  bd_chain : chain span (sh_heap st) e rs ret;
  bd_range : 0 < e ∧ ret < sh_next st
}.

Lemma building_repr e ws rs ret st : building e ws rs ret st → repr span (sh_heap st) ret (redirected (Simple ws) rs).
Proof.
  intros [(qs & eqs & k & E & HF & _) Hc [He _]]. eapply chain_repr; [done| |done]. cbn. eexists _, _. split; [done|]. by exists qs, eqs, k.
Qed.

Lemma insert_end {A} (l : list A) y z k n : length l = n → <[n := y]> (l ++ replicate (S k) z) = (l ++ [y]) ++ replicate k z.
Proof. intros <-. rewrite <-(Nat.add_0_r (length l)), insert_app_r. cbn. by rewrite <-app_assoc. Qed.

Definition updated (e : Z) (n : nat) (q eq : Z) (st : shst) : shst :=
  Shst (sh_mem st) (alter (λ x, match x with execcmd_ a b => execcmd_ (<[n := q]> a) (<[n := eq]> b) | _ => x end) e (sh_heap st)) (sh_next st).
Lemma updated_grown e n q eq st : grown e st (updated e n q eq st).
Proof. split; cbn; [done|lia|]. intros a Ha. by rewrite lookup_alter_ne by lia. Qed.
Lemma updated_chain e n q eq st rs ret : chain span (sh_heap st) e rs ret → chain span (sh_heap (updated e n q eq st)) e rs ret.
Proof. intros H. eapply chain_frame; [done|]. intros a Ha. cbn. by rewrite lookup_alter_ne by lia. Qed.

Lemma building_word e ws rs ret st w q eq :
  building e ws rs ret st → span q eq w → Z.of_nat (length ws) + 1 < MAXARGS → building e (ws ++ [w]) rs ret (updated e (length ws) q eq st).
Proof using Hline.
  intros [(qs & eqs & k & E & HF & Hlen) Hc Hr] Hs Hl. pose proof (Forall3_length_lm _ _ _ _ HF) as L1. pose proof (Forall3_length_lr _ _ _ _ HF) as L2. split; [|by apply updated_chain|done].
  destruct k as [|k]; [unfold MAXARGS in Hl; lia|]. exists (qs ++ [q]), (eqs ++ [eq]), k. split_and!.
  - cbn [sh_heap updated]. rewrite lookup_alter, decide_True by done. rewrite E. cbn [fmap option_fmap option_map]. by rewrite !insert_end.
  - apply Forall3_app; [done|]. constructor; [|constructor]. split; [|done]. destruct Hs as [? _ _ _]. destruct Hline as [? _ _]. lia.
  - rewrite length_app. cbn. lia.
Qed.

Lemma exec_loop k e ws rs ret s st :
  es - s < Z.of_nat k → ready s st → building e ws rs ret st → match toks s with t :: _ => isop t = false | [] => True end →
  outcome (λ '(ret', argc, s') st', grown e st st' ∧ s ≤ s' ≤ es ∧
      ∃ ws' rs', pitems (toks s) ws rs = POk (redirected (Simple ws') rs') (toks s') ∧ building e ws' rs' ret' st' ∧ argc = Z.of_nat (length ws'))
    (pitems (toks s) ws rs = PErr) (loop k (exec_step e es) (ret, Z.of_nat (length ws), s) st).
Proof using Hline.
  induction k as [|k IH] in ws, rs, ret, s, st |- *; intros Hk Hr Hb Hop; [destruct Hr as (_ & ? & _); lia|]. cbn [loop]. apply outcome_bind. unfold exec_step at 1. apply outcome_peek; [done|set_solver|].
  intros s1 Hs1 Et1. rewrite next_stop. assert (ready s1 st) as Hr1 by (eapply ready_grown; [done|apply (grown_refl 0)|done]). destruct (toks s) as [|t ts] eqn:Et.
  { apply outcome_gettoken; [done|]. intros tok q eq s2 [R2 T2]. rewrite Et1 in T2. destruct T2 as [-> E2]. cbn. split; [apply grown_refl|]. split; [lia|]. exists ws, rs. by rewrite E2. }
  destruct (stops t) eqn:Hst.
  { cbn. split; [apply grown_refl|]. split; [done|]. exists ws, rs. by rewrite Et1, Hop, Hst. }
  apply outcome_gettoken; [done|]. intros tok q eq s2 [R2 T2]. rewrite Et1 in T2. destruct T2 as (-> & Et2 & Hlt & Hsp). cbn [pitems]. rewrite Hop, Hst.
  destruct (code_cases s t ts Et) as [[w ->]|[Hn97 Hn0]].
  2:{ rewrite (proj2 (Z.eqb_neq _ _) Hn0). apply outcome_bind, outcome_panic_if; [by destruct t|]. rewrite (proj2 (Z.eqb_neq _ _) Hn97). done. }
  cbn [code Z.eqb Pos.eqb]. apply outcome_bind. cbn [panic_if negb outcome mret M_ret]. apply outcome_bind. unfold upd_exec, modify. rewrite Nat2Z.id. fold (updated e (length ws) q eq st). cbn [outcome].
  apply outcome_bind, outcome_panic_if; [intros ->; done|]. intros Hg. rewrite Hg. specialize (Hsp w eq_refl).
  assert (building e (ws ++ [w]) rs ret (updated e (length ws) q eq st)) as Hb2 by (apply building_word; [done|done|lia]). pose proof (updated_grown e (length ws) q eq st) as G2.
  apply (outcome_parseredirs e rs); [by eapply ready_grown|apply Hb2|apply Hb2| |].
  { intros HE. rewrite pitems_redirs, <-Et2, HE. done. }
  intros p s3 st3 rs3 G3 Hs3 Hp E3 Hc3. cbn [outcome mret M_ret]. rewrite pitems_redirs, <-Et2, E3.
  assert (grown e st st3) as G by (eapply grown_trans; [done|]; eapply grown_le; [done|]; destruct Hb2 as [_ Hc [? ?]]; apply chain_le in Hc; cbn in *; lia).
  replace (Z.of_nat (length ws) + 1) with (Z.of_nat (length (ws ++ [w]))) by (rewrite length_app; cbn; lia). eapply outcome_mono; [apply IH| |done].
  - lia.
  - eapply ready_grown; [exact Hr|done|lia].
  - destruct Hb2 as [(qs & eqs & k2 & E & HF) Hc2 [He Hret]]. split; [|done|split; [done|lia]]. exists qs, eqs, k2. rewrite (gr_old _ _ _ G3); [done|]. apply chain_le in Hc2. lia.
  - by eapply predirs_head.
  - intros [[ret' argc] s'] st' (G' & Hs' & ws' & rs' & Ep & Hb' & ->). split; [by eapply grown_trans|]. split; [lia|]. by exists ws', rs'.
Qed.

(** What a function of the parser leaves, for the result [r] on tokens. *)
Definition parsed (s : Z) (st : shst) (r : pres cmd) (x : Z * Z) (st' : shst) : Prop :=
  grown (sh_next st) st st' ∧ s ≤ x.2 ≤ es ∧ 0 < x.1 < sh_next st' ∧ ∃ c, r = POk c (toks x.2) ∧ repr span (sh_heap st') x.1 c.

Lemma repr_grown st st' p c : repr span (sh_heap st) p c → grown (sh_next st) st st' → p < sh_next st → repr span (sh_heap st') p c.
Proof. intros H G Hp. eapply repr_frame; [done|]. intros a Ha. apply G. lia. Qed.

(** [c] as the last step of a function. *)
Lemma parsed_ret s st s' st' p c r : grown (sh_next st) st st' → s ≤ s' ≤ es → 0 < p < sh_next st' → r = POk c (toks s') → repr span (sh_heap st') p c → parsed s st r (p, s') st'.
Proof. intros G Hs Hp -> Hr. split; [done|]. split; [done|]. split; [done|]. by exists c. Qed.

Lemma back_loop k cmd s c st :
  es - s < Z.of_nat k → ready s st → repr span (sh_heap st) cmd c → 0 < cmd < sh_next st →
  outcome (parsed s st (POk (pback (toks s) c).1 (pback (toks s) c).2)) False (loop k (back_step es) (cmd, s) st).
Proof using Hline.
  induction k as [|k IH] in cmd, s, c, st |- *; intros Hk Hr Hc Hn; [destruct Hr as (_ & ? & _); lia|]. cbn [loop]. apply outcome_bind. unfold back_step at 1. apply outcome_peek; [done|set_solver|].
  intros s1 Hs1 Et1. rewrite next_starts by done. assert (ready s1 st) as Hr1 by (eapply ready_grown; [done|apply (grown_refl 0)|done]). destruct (starts 38 (toks s)) as [ts|] eqn:Es; cbn [negb].
  - apply starts_Some in Es. rewrite Es. cbn [pback Z.eqb Pos.eqb]. apply outcome_gettoken; [done|]. intros tok q eq s2 [R2 T2]. rewrite Et1, Es in T2. destruct T2 as (_ & Et2 & Hlt & _).
    apply outcome_new. cbn [outcome mret M_ret]. pose proof (made_grown (backcmd_ cmd) st) as G. rewrite <-Et2. eapply outcome_mono; [apply (IH _ _ (Bg c))| |done].
    + lia.
    + eapply ready_grown; [exact Hr1|done|lia].
    + exists cmd. split; [apply made_at|]. split; [lia|]. eapply repr_grown; [done|done|lia].
    + cbn. lia.
    + intros [p s'] st' (G' & Hs' & Hp & Hx). cbn in *. split; [eapply grown_trans; [done|eapply grown_le; [done|cbn; lia]]|]. split; [cbn; lia|]. by split.
  - cbn [outcome mret M_ret]. assert (pback (toks s) c = (c, toks s)) as ->. { destruct (toks s) as [|[w|x|] ts]; try done. cbn in Es |- *. by destruct (x =? 38). }
    apply (parsed_ret _ _ _ _ _ c); [apply grown_refl|done|done|cbn; by rewrite Et1|done].
Qed.

(** The second command of [left | right] and [left; right]. *)
Lemma node_of_two (mk : Z → Z → node) (C : cmd → cmd → cmd) s st st1 st2 s' p1 p2 c1 c2 r :
  (∀ h p c1 c2, repr span h p (C c1 c2) ↔ ∃ p1 p2, h !! p = Some (mk p1 p2) ∧ 0 < p1 < p ∧ 0 < p2 < p ∧ repr span h p1 c1 ∧ repr span h p2 c2) →
  grown (sh_next st) st st1 → 0 < p1 < sh_next st1 → repr span (sh_heap st1) p1 c1 →
  grown (sh_next st1) st1 st2 → s ≤ s' ≤ es → 0 < p2 < sh_next st2 → repr span (sh_heap st2) p2 c2 → r = POk (C c1 c2) (toks s') →
  parsed s st r (sh_next st2, s') (made (mk p1 p2) st2).
Proof.
  intros HC G1 Hp1 R1 G2 Hs Hp2 R2 ->. pose proof (made_grown (mk p1 p2) st2) as G3. pose proof (gr_next _ _ _ G1). pose proof (gr_next _ _ _ G2).
  eapply parsed_ret; [|done|cbn; lia|done|].
  - eapply grown_trans; [done|]. eapply grown_trans; (eapply grown_le; [done|lia]).
  - apply HC. exists p1, p2. split; [apply made_at|]. split; [lia|]. split; [lia|]. split.
    + eapply repr_grown; [eapply repr_grown; [done|done|lia]|done|lia].
    + eapply repr_grown; [done|done|lia].
Qed.

(** A call of another function of the parser. *)
Lemma outcome_call {A} (r : pres cmd) (mm : M shst (Z * Z)) s st (f : Z * Z → M shst A) Q E :
  (r ≠ PFuel → outcome (parsed s st r) (r = PErr) (mm st)) → r ≠ PFuel → (r = PErr → E) →
  (∀ p s' st' c, r = POk c (toks s') → grown (sh_next st) st st' → s ≤ s' ≤ es → 0 < p < sh_next st' → repr span (sh_heap st') p c → outcome Q E (f (p, s') st')) →
  outcome Q E ((mm ≫= f) st).
Proof.
  intros Hm Hf HE HQ. apply outcome_bind. eapply outcome_mono; [by apply Hm| |done]. intros [p s'] st' (G & Hs & Hp & c & Er & R). cbn in *. by eapply HQ.
Qed.
(** One more token, known to be there. *)
Lemma outcome_skip {A} s st t ts (f : Z * Z * Z * Z → M shst A) Q E :
  ready s st → toks s = t :: ts → (∀ ret q eq s', toks s' = ts → s < s' ≤ es → outcome Q E (f (ret, q, eq, s') st)) → outcome Q E ((gettoken s es ≫= f) st).
Proof using Hline.
  intros Hr Et H. apply outcome_gettoken; [done|]. intros ret q eq s' [R T]. rewrite Et in T. destruct T as (_ & E' & Hlt & _). apply H; [done|lia].
Qed.

Lemma parsewords_spec s st : ready s st → outcome (parsed s st (pitems (toks s) [] [])) (pitems (toks s) [] [] = PErr) (parsewords s es st).
Proof using Hline.
  intros Hr. unfold parsewords, execcmd. apply outcome_new. set (st0 := made _ st). set (e := sh_next st). assert (grown e st st0) as G0 by apply made_grown.
  assert (0 < e) as He by apply Hr. assert (ready s st0) as Hr0 by (eapply ready_grown; [done|done|destruct Hr as (_ & ? & _); lia]).
  apply (outcome_parseredirs e []); [done|done|cbn; lia|by rewrite pitems_redirs; intros ->|]. intros p2 s2 st2 rs2 G2 Hs2 Hp2 E2 C2. rewrite pitems_redirs, E2.
  assert (grown e st st2) as G by (eapply grown_trans; [done|]; eapply grown_le; [done|cbn; lia]).
  apply outcome_bind. eapply outcome_mono; [apply (exec_loop _ e [] rs2)| |done].
  + lia.
  + eapply ready_grown; [exact Hr|done|lia].
  + split; [|done|done]. exists [], [], 9%nat. rewrite (gr_old _ _ _ G2) by (cbn; lia). split; [apply made_at|]. split; [constructor|done].
  + by eapply predirs_head.
  + intros [[p3 argc] s3] st3 (G3 & Hs3 & ws & rs & E3 & Hb & ->). rewrite E3. apply outcome_bind. unfold upd_exec, modify. rewrite Nat2Z.id. fold (updated e (length ws) 0 0 st3). cbn [outcome mret M_ret].
    assert (sh_heap (updated e (length ws) 0 0 st3) = sh_heap st3) as Hsame.
    { destruct Hb as [(qs & eqs & k & E & HF & _) _ _]. cbn. apply map_eq. intros a. destruct (decide (a = e)) as [->|]; [|by rewrite lookup_alter_ne]. rewrite lookup_alter, decide_True, E by done.
      cbn [fmap option_fmap option_map]. rewrite (Forall3_length_lm _ _ _ _ HF) at 1. rewrite (Forall3_length_lr _ _ _ _ HF). rewrite !list_insert_id; [done|..]; by rewrite lookup_app_r, Nat.sub_diag by lia. }
    pose proof (bd_chain _ _ _ _ _ Hb) as Hc. apply chain_le in Hc. eapply parsed_ret; [|lia| |done|].
    * eapply grown_trans; [done|]. eapply grown_trans; [done|apply updated_grown].
    * cbn. destruct Hb as [_ _ ?]. lia.
    * rewrite Hsame. by eapply building_repr.
Qed.

Lemma parse_spec n : ∀ s st, ready s st →
  (pline n (toks s) ≠ PFuel → outcome (parsed s st (pline n (toks s))) (pline n (toks s) = PErr) (parseline n s es st)) ∧
  (ppipe n (toks s) ≠ PFuel → outcome (parsed s st (ppipe n (toks s))) (ppipe n (toks s) = PErr) (parsepipe n s es st)) ∧
  (pblock n (toks s) ≠ PFuel → outcome (parsed s st (pblock n (toks s))) (pblock n (toks s) = PErr) (parseblock n s es st)) ∧
  (pexec n (toks s) ≠ PFuel → outcome (parsed s st (pexec n (toks s))) (pexec n (toks s) = PErr) (parseexec n s es st)).
Proof using Hline.
  assert (∀ s s' st, ready s st → s ≤ s' ≤ es → ready s' st) as Hmove by (intros; eapply ready_grown; [done|apply (grown_refl 0)|done]).
  induction n as [|n IH]; intros s st Hr; [done|]. split_and!; intros Hf; cbn [pline ppipe pblock pexec] in Hf |- *; cbn [parseline parsepipe parseblock parseexec].
  - apply (outcome_call (ppipe n (toks s)) _ s); [by apply IH|by intros E; rewrite E in Hf|by intros ->|]. intros p1 s1 st1 c1 E1 G1 Hs1 Hp1 R1. rewrite E1 in Hf |- *.
    assert (ready s1 st1) as Hr1 by by eapply ready_grown. apply outcome_bind. eapply outcome_mono; [apply (back_loop _ _ _ c1); try done; lia| |done].
    intros [p2 s2] st2 (G2 & Hs2 & Hp2 & c2 & Eb & R2). cbn in Hs2, Hp2, Eb, R2. destruct (pback (toks s1) c1) as [c2' ts2] eqn:Epb. cbn in Eb. injection Eb as <- ->. cbn in Hf |- *.
    assert (grown (sh_next st) st st2) as G by (eapply grown_trans; [done|]; eapply grown_le; [done|apply G1]). assert (ready s2 st2) as Hr2 by (eapply ready_grown; [exact Hr|done|lia]).
    apply outcome_peek; [done|set_solver|]. intros s3 Hs3 Et3. rewrite next_starts by done. destruct (starts 59 (toks s2)) as [ts|] eqn:Es; cbn [negb].
    2:{ eapply parsed_ret; [done|lia|done|by rewrite Et3|done]. }
    apply starts_Some in Es. eapply outcome_skip; [by eapply Hmove|by rewrite Et3|]. intros _ _ _ s4 Et4 Hs4. rewrite <-Et4 in Hf |- *.
    apply (outcome_call (pline n (toks s4)) _ s4); [apply IH; apply (Hmove s2); [done|lia]|by intros E; rewrite E in Hf|by intros ->|]. intros p5 s5 st5 c5 E5 G5 Hs5 Hp5 R5. rewrite E5.
    apply outcome_new. cbn [outcome mret M_ret]. eapply (node_of_two listcmd_ Seq); try done. lia.
  - apply (outcome_call (pexec n (toks s)) _ s); [by apply IH|by intros E; rewrite E in Hf|by intros ->|]. intros p1 s1 st1 c1 E1 G1 Hs1 Hp1 R1. rewrite E1 in Hf |- *.
    assert (ready s1 st1) as Hr1 by by eapply ready_grown. apply outcome_peek; [done|set_solver|]. intros s2 Hs2 Et2. rewrite next_starts by done. destruct (starts 124 (toks s1)) as [ts|] eqn:Es; cbn [negb].
    2:{ eapply parsed_ret; [done|lia|done|by rewrite Et2|done]. }
    apply starts_Some in Es. eapply outcome_skip; [by eapply Hmove|by rewrite Et2|]. intros _ _ _ s3 Et3 Hs3. rewrite <-Et3 in Hf |- *.
    apply (outcome_call (ppipe n (toks s3)) _ s3); [apply IH; apply (Hmove s1); [done|lia]|by intros E; rewrite E in Hf|by intros ->|]. intros p4 s4 st4 c4 E4 G4 Hs4 Hp4 R4. rewrite E4.
    apply outcome_new. cbn [outcome mret M_ret]. eapply (node_of_two pipecmd_ Piped); try done. lia.
  - apply outcome_peek; [done|set_solver|]. intros s1 Hs1 Et1. rewrite next_starts by done. destruct (starts 40 (toks s)) as [ts|] eqn:Es; [|done]. cbn [negb]. apply outcome_bind. cbn [panic_if outcome mret M_ret].
    apply starts_Some in Es. eapply outcome_skip; [by eapply Hmove|by rewrite Et1|]. intros _ _ _ s2 Et2 Hs2. rewrite <-Et2 in Hf |- *.
    apply (outcome_call (pline n (toks s2)) _ s2); [apply IH; apply (Hmove s); [done|lia]|by intros E; rewrite E in Hf|by intros ->|]. intros p3 s3 st3 c3 E3 G3 Hs3 Hp3 R3. rewrite E3 in Hf |- *.
    assert (ready s3 st3) as Hr3 by (eapply ready_grown; [exact Hr|done|lia]). apply outcome_peek; [done|set_solver|]. intros s4 Hs4 Et4. rewrite next_starts by done.
    destruct (starts 41 (toks s3)) as [ts'|] eqn:Es'; [|done]. cbn [negb]. apply outcome_bind. cbn [panic_if outcome mret M_ret]. apply starts_Some in Es'. eapply outcome_skip; [by eapply Hmove|by rewrite Et4|].
    intros _ _ _ s5 Et5 Hs5. rewrite <-Et5 in Hf |- *.
    eapply outcome_mono; [apply (redirs_loop _ p3 []); [lia|apply (Hmove s3); [done|lia]|done|apply Hp3]| |by intros ->]. intros [p6 s6] st6 (G6 & Hs6 & Hp6 & rs & E6 & C6). rewrite E6.
    pose proof (chain_le _ _ _ _ _ C6). eapply parsed_ret; [|lia|lia|done|].
    + eapply grown_trans; [done|]. eapply grown_le; [done|apply G3].
    + eapply chain_repr; [apply Hp3| |done]. eapply repr_grown; [done|done|lia].
  - apply outcome_peek; [done|set_solver|]. intros s1 Hs1 Et1. rewrite next_starts by done. destruct (starts 40 (toks s)) as [ts|] eqn:Es.
    { rewrite <-Et1 in Hf |- *. destruct (IH s1 st) as (_ & _ & Hb & _); [by eapply Hmove|]. eapply outcome_mono; [by apply Hb| |done].
      intros [p s'] st' (G & Hs & Hx). split; [done|]. split; [cbn in *; lia|done]. }
    rewrite <-Et1 in Hf |- *. eapply outcome_mono; [apply parsewords_spec; by eapply Hmove| |done].
    intros [p s'] st' (G & Hs & Hx). split; [done|]. split; [cbn in *; lia|done].
Qed.
End Parse.

#[local] Arguments str_at : simpl never.

(** The command a tree stands for, read as [runcmd] reads it. *)
Fixpoint decode (n : nat) (st : shst) (p : Z) : option cmd :=
  match n with
  | O => None
  | S n' =>
      if p =? 0 then None else
      match sh_heap st !! p with
      | Some (execcmd_ argv _) => Some (Simple (args_at (sh_mem st) argv))
      | Some (redircmd_ p1 q _ mode fd) => c ← decode n' st p1; Some (Redirect c (str_at (sh_mem st) q) mode fd)
      | Some (pipecmd_ l r) => c1 ← decode n' st l; c2 ← decode n' st r; Some (Piped c1 c2)
      | Some (listcmd_ l r) => c1 ← decode n' st l; c2 ← decode n' st r; Some (Seq c1 c2)
      | Some (backcmd_ p1) => c ← decode n' st p1; Some (Bg c)
      | None => None
      end
  end.

Lemma repr_impl (str str' : Z → Z → list Z → Prop) h p c : repr str h p c → (∀ q eq w, str q eq w → str' q eq w) → repr str' h p c.
Proof.
  induction c as [ws|c IH f mode fd|c1 IH1 c2 IH2|c1 IH1 c2 IH2|c IH] in p |- *; cbn; intros H Hs.
  - destruct H as (argv & eargv & ? & qs & eqs & k & ? & ? & HF). exists argv, eargv. split; [done|]. exists qs, eqs, k. split_and!; try done. eapply Forall3_impl; [done|]. cbn. naive_solver.
  - destruct H as (p1 & q & eq & ? & ? & ? & H). exists p1, q, eq. split_and!; try (done || lia); eauto.
  - destruct H as (p1 & p2 & ? & ? & ? & H1 & H2). exists p1, p2. split_and!; try (done || lia); eauto.
  - destruct H as (p1 & p2 & ? & ? & ? & H1 & H2). exists p1, p2. split_and!; try (done || lia); eauto.
  - destruct H as (p1 & ? & ? & H). exists p1. split_and!; try (done || lia); eauto.
Qed.

(** A string is no longer than memory. *)
Lemma ldb_dom (m : mem) a : ldb m a ≠ 0 → a ∈ dom m.
Proof. unfold ldb. intros H. apply elem_of_dom. destruct (m !! a); [by eexists|done]. Qed.
Lemma run_size (m : mem) q k : (∀ a, q ≤ a < q + Z.of_nat k → ldb m a ≠ 0) → (k ≤ size m)%nat.
Proof.
  intros H. rewrite <-size_dom.
  assert (size (list_to_set (seqZ q (Z.of_nat k)) : gset Z) = k) as <-.
  { rewrite size_list_to_set by apply NoDup_seqZ. rewrite length_seqZ. lia. }
  apply subseteq_size. intros a Ha. apply elem_of_list_to_set, elem_of_seqZ in Ha. apply ldb_dom, H. lia.
Qed.
Lemma ldstr_spec m w : ∀ n q, (length w ≤ n)%nat → (∀ i c, w !! i = Some c → ldb m (q + Z.of_nat i) = c ∧ c ≠ 0) → ldb m (q + Z.of_nat (length w)) = 0 → ldstr n m q = w.
Proof.
  induction w as [|c w IH]; intros n q Hn Hw Hz.
  - rewrite Z.add_0_r in Hz. destruct n; cbn; [done|]. by rewrite Hz.
  - destruct n as [|n]; [cbn in Hn; lia|]. cbn in Hn. destruct (Hw O c eq_refl) as [Hc Hc0]. rewrite Z.add_0_r in Hc. cbn. rewrite Hc. destruct (Z.eqb_spec c 0); [done|]. f_equal. apply IH; [lia| |].
    + intros i c' E. replace (q + 1 + Z.of_nat i) with (q + Z.of_nat (S i)) by lia. by apply Hw.
    + cbn in Hz. by replace (q + 1 + Z.of_nat (length w)) with (q + Z.pos (Pos.of_succ_nat (length w))) by lia.
Qed.

Section Cmd.
Context (m : mem) (s0 es : Z) (Hline : line_ok m s0 es).
Notation span := (ShParse.span m s0 es).
Notation solid := (ShParse.solid m s0 es).

Definition kept (m' : mem) : Prop := ∀ a, solid a → ldb m' a = ldb m a.
Definition ended (m' : mem) (q eq : Z) (w : list Z) : Prop := span q eq w ∧ ldb m' eq = 0.
Definition zeros (m1 m2 : mem) : Prop := ∀ a, ldb m1 a = 0 → ldb m2 a = 0.

Lemma ended_str m' q eq w : kept m' → ended m' q eq w → str_at m' q = w.
Proof using Hline.
  intros Hk [[Hr -> Hs _] Hz]. assert (∀ a, q ≤ a < eq → ldb m' a = ldb m a ∧ ldb m a ≠ 0) as Hb.
  { intros a Ha. split; [by apply Hk, Hs|]. apply (lo_chars _ _ _ Hline). lia. }
  assert (length (ldbytes m q (Z.to_nat (eq - q))) = Z.to_nat (eq - q)) as Hlen by (unfold ldbytes; by rewrite length_fmap, length_seq).
  apply ldstr_spec; rewrite ?Hlen.
  - apply le_S, (run_size _ q). intros a Ha. destruct (Hb a) as [-> ?]; [lia|done].
  - intros i c E. assert (i < Z.to_nat (eq - q))%nat by (rewrite <-Hlen; by eapply lookup_lt_Some). unfold ldbytes in E. rewrite list_lookup_fmap, lookup_seq_lt in E by done. cbn in E. injection E as <-.
    apply Hb. lia.
  - by replace (q + Z.of_nat (Z.to_nat (eq - q))) with eq by lia.
Qed.

Lemma kept_stb m' eq : kept m' → ¬ solid eq → kept (stb m' eq 0).
Proof. intros Hk He a Ha. rewrite ldb_stb_ne; [by apply Hk|]. intros ->. done. Qed.
Lemma zeros_stb m' eq : zeros m' (stb m' eq 0).
Proof. intros a Ha. destruct (decide (a = eq)) as [->|]; [by rewrite ldb_stb_eq|by rewrite ldb_stb_ne]. Qed.

Lemma end_words_spec ws qs eqs k m' :
  Forall3 (λ w q eq, q ≠ 0 ∧ span q eq w) ws qs eqs → kept m' →
  let m2 := end_words (qs ++ replicate (S k) 0) (eqs ++ replicate (S k) 0) m' in
  kept m2 ∧ zeros m' m2 ∧ Forall3 (λ w q eq, q ≠ 0 ∧ ended m2 q eq w) ws qs eqs.
Proof.
  intros HF. revert m'. induction HF as [|w q eq ws qs eqs [Hq Hs] HF IH]; intros m' Hk; cbn.
  { split; [done|]. split; [by intros a|constructor]. }
  destruct (Z.eqb_spec q 0); [done|]. destruct (IH (stb m' eq 0)) as (K & Zm & F); [apply kept_stb; [done|apply Hs]|]. split; [done|]. split.
  - intros a Ha. by apply Zm, zeros_stb.
  - constructor; [|done]. split; [done|]. split; [done|]. apply Zm. by rewrite ldb_stb_eq.
Qed.

(** What [nulterminate] leaves. *)
Record nulled (st st' : shst) (p : Z) (c : cmd) : Prop := {
  nu_kept : kept (sh_mem st');
  nu_zeros : zeros (sh_mem st) (sh_mem st');
  nu_heap : sh_heap st' = sh_heap st ∧ sh_next st' = sh_next st;
  nu_tree : repr (ended (sh_mem st')) (sh_heap st') p c
}.

Lemma ended_zeros m1 m2 q eq w : zeros m1 m2 → ended m1 q eq w → ended m2 q eq w.
Proof. intros Hz [? ?]. split; [done|]. by apply Hz. Qed.

Lemma wp_nulterminate_mono n p c Q st : wp (nulterminate n p) (λ _ st', nulled st st' p c) st → (∀ st', nulled st st' p c → Q tt st') → wp (nulterminate n p) Q st.
Proof. intros H HQ. eapply wp_mono; [done|]. intros [] st' Hn. by apply HQ. Qed.

(** Two subtrees one after the other. *)
Lemma wp_nulterminate_two n p1 p2 c1 c2 Q st :
  (∀ st, kept (sh_mem st) → repr span (sh_heap st) p1 c1 → wp (nulterminate n p1) (λ _ st', nulled st st' p1 c1) st) →
  (∀ st, kept (sh_mem st) → repr span (sh_heap st) p2 c2 → wp (nulterminate n p2) (λ _ st', nulled st st' p2 c2) st) →
  kept (sh_mem st) → repr span (sh_heap st) p1 c1 → repr span (sh_heap st) p2 c2 →
  (∀ st', kept (sh_mem st') → zeros (sh_mem st) (sh_mem st') → sh_heap st' = sh_heap st ∧ sh_next st' = sh_next st →
     repr (ended (sh_mem st')) (sh_heap st') p1 c1 → repr (ended (sh_mem st')) (sh_heap st') p2 c2 → Q tt st') →
  wp (nulterminate n p1;; nulterminate n p2) Q st.
Proof.
  intros H1 H2 Hk R1 R2 HQ. wp_step. eapply wp_nulterminate_mono; [by apply H1|]. intros st1 [K1 Z1 [E1 N1] T1]. eapply wp_nulterminate_mono; [apply H2; [done|by rewrite E1]|]. intros st2 [K2 Z2 [E2 N2] T2].
  apply HQ; try done; [intros a Ha; by apply Z2, Z1|split; congruence|]. rewrite E2. eapply repr_impl; [done|]. intros q eq w. by apply ended_zeros.
Qed.

Lemma wp_nulterminate n : ∀ p c st, 0 < p ≤ Z.of_nat n → kept (sh_mem st) → repr span (sh_heap st) p c → wp (nulterminate n p) (λ _ st', nulled st st' p c) st.
Proof.
  induction n as [|n IH]; intros p c st Hp Hk Hr; [lia|]. cbn. destruct (Z.eqb_spec p 0); [lia|]. do 2 wp_step. destruct c as [ws|c f mode fd|c1 c2|c1 c2|c]; cbn in Hr.
  - destruct Hr as (argv & eargv & E & qs & eqs & k & -> & -> & HF). rewrite E. wp_step. destruct (end_words_spec ws qs eqs k (sh_mem st) HF Hk) as (K & Zm & F). split; [done|done|done|].
    eexists _, _. split; [done|]. by exists qs, eqs, k.
  - destruct Hr as (p1 & q & eq & E & Hs & Hlt & Hr). rewrite E. wp_step. eapply wp_nulterminate_mono; [apply (IH p1 c); [lia|done|done]|]. intros st1 [K1 Z1 [E1 N1] T1]. wp_step. split; cbn.
    + apply kept_stb; [done|apply Hs].
    + intros a Ha. by apply zeros_stb, Z1.
    + done.
    + exists p1, q, eq. rewrite E1 in T1 |- *. split; [done|]. split; [split; [done|by rewrite ldb_stb_eq]|]. split; [done|]. eapply repr_impl; [done|]. intros ? ? ?. apply ended_zeros, zeros_stb.
  - destruct Hr as (p1 & p2 & E & Hl1 & Hl2 & R1 & R2). rewrite E. apply (wp_nulterminate_two n p1 p2 c1 c2); try done; [intros; apply IH; [lia|done|done]..|]. intros st' K Zm [E' N'] T1 T2. split; try done. exists p1, p2. by rewrite E' in T1, T2 |- *.
  - destruct Hr as (p1 & p2 & E & Hl1 & Hl2 & R1 & R2). rewrite E. apply (wp_nulterminate_two n p1 p2 c1 c2); try done; [intros; apply IH; [lia|done|done]..|]. intros st' K Zm [E' N'] T1 T2. split; try done. exists p1, p2. by rewrite E' in T1, T2 |- *.
  - destruct Hr as (p1 & E & Hlt & Hr). rewrite E. eapply wp_nulterminate_mono; [apply (IH p1 c); [lia|done|done]|]. intros st1 [K1 Z1 [E1 N1] T1]. split; try done. exists p1. by rewrite E1 in T1 |- *.
Qed.

Lemma args_at_spec m' ws qs eqs k : kept m' → Forall3 (λ w q eq, q ≠ 0 ∧ ended m' q eq w) ws qs eqs → args_at m' (qs ++ replicate (S k) 0) = ws.
Proof using Hline.
  intros Hk HF. induction HF as [|w q eq ws qs eqs [Hq He] HF IH]; cbn; [done|]. destruct (Z.eqb_spec q 0); [done|]. rewrite (ended_str _ _ _ _ Hk He). by f_equal.
Qed.
Lemma decode_spec n st : ∀ p c, 0 < p ≤ Z.of_nat n → kept (sh_mem st) → repr (ended (sh_mem st)) (sh_heap st) p c → decode n st p = Some c.
Proof using Hline.
  induction n as [|n IH]; intros p c Hp Hk Hr; [lia|]. cbn [decode]. destruct (Z.eqb_spec p 0); [lia|]. destruct c as [ws|c f mode fd|c1 c2|c1 c2|c]; cbn in Hr |- *.
  - destruct Hr as (argv & eargv & -> & qs & eqs & k & -> & -> & HF). by rewrite (args_at_spec _ _ _ _ _ Hk HF).
  - destruct Hr as (p1 & q & eq & -> & Hs & Hlt & Hr). rewrite (IH p1 c) by (done || lia). cbn. by rewrite (ended_str _ _ _ _ Hk Hs).
  - destruct Hr as (p1 & p2 & -> & ? & ? & R1 & R2). rewrite (IH p1 c1), (IH p2 c2) by (done || lia). done.
  - destruct Hr as (p1 & p2 & -> & ? & ? & R1 & R2). rewrite (IH p1 c1), (IH p2 c2) by (done || lia). done.
  - destruct Hr as (p1 & -> & ? & Hr). by rewrite (IH p1 c) by (done || lia).
Qed.

(** ** [parsecmd] *)

Lemma ustrlen_spec k s n : Z.of_nat k > es - (s + n) → s0 ≤ s + n ≤ es → Ulib.strlen_from k m s n = Some (es - s).
Proof using Hline.
  induction k as [|k IH] in n |- *; intros Hk Hs; [lia|]. cbn. destruct (decide (s + n = es)) as [E|Hne].
  - rewrite E, (lo_end _ _ _ Hline). cbn. f_equal. lia.
  - assert (ldb m (s + n) ≠ 0) as Hz by (apply (lo_chars _ _ _ Hline); lia). rewrite (proj2 (Z.eqb_neq _ _) Hz). apply IH; lia.
Qed.
Lemma tokens_length l : (length (tokens l) ≤ length l)%nat.
Proof.
  induction l as [l IH] using (induction_ltof1 _ (@length Z)). unfold ltof in IH. destruct l as [|c l]; cbn [tokens]; [done|]. assert (length (tokens l) ≤ length l)%nat as Hl by (apply IH; cbn; lia).
  destruct (iswhite c); [cbn; lia|]. destruct (c =? 62).
  { destruct l as [|c2 l]; [done|]. destruct (c2 =? 62); [|cbn in *; lia]. assert (length (tokens l) ≤ length l)%nat by (apply IH; cbn; lia). cbn. lia. }
  destruct (issym c); [cbn; lia|]. destruct l as [|c2 l]; [done|]. destruct (isword c2); [|cbn in *; lia]. destruct (tokens (c2 :: l)) as [|[w|x|] ts]; cbn in *; lia.
Qed.

Lemma parsecmd_spec :
  outcome (λ p st, 0 < p < sh_next st ∧ ∃ c, decode (Z.to_nat (sh_next st)) st p = Some c ∧ Line (tokens (chars m es s0)) c)
    (∀ c, ¬ Line (tokens (chars m es s0)) c) (parsecmd s0 (Shst m ∅ 1)).
Proof using Hline.
  pose proof (lo_start _ _ _ Hline) as Hs0. set (st0 := Shst m ∅ 1). change (tokens (chars m es s0)) with (toks m es s0). set (ts := toks m es s0). unfold parsecmd. apply outcome_bind. cbn [gets outcome sh_mem st0].
  unfold Ulib.strlen. rewrite ustrlen_spec.
  2:{ assert (Z.to_nat (es - s0) ≤ size m)%nat; [|lia]. apply (run_size _ s0). intros a Ha. apply (lo_chars _ _ _ Hline). lia. } 2: lia.
  replace (s0 + (es - s0)) with es by lia. set (n := (4 * Z.to_nat (es - s0) + 4)%nat). assert (4 * length ts + 4 ≤ n)%nat as Hn.
  { pose proof (tokens_length (chars m es s0)). assert (length (chars m es s0) = Z.to_nat (es - s0)) by (unfold chars, ldbytes; by rewrite length_fmap, length_seq). subst ts n. unfold toks. lia. }
  destruct (parser_fuel n) as (Hf & _). specialize (Hf ts Hn). assert (ready m s0 es s0 st0) as Hr by (split_and!; [done|lia|lia|cbn; lia]).
  destruct (parse_spec m s0 es Hline n s0 st0 Hr) as (Hp & _). specialize (Hp Hf). apply outcome_bind. fold ts in Hp. eapply outcome_mono; [exact Hp| |].
  2:{ intros E c Hl. apply (parser_correct _ _ n Hn) in Hl. congruence. }
  intros [p s1] st1 (G & Hs1 & Hp1 & c & E & R). cbn [fst snd] in Hs1, Hp1, E, R.
  assert (ready m s0 es s1 st1) as (Hm1 & Hr1 & _) by (eapply ready_grown; [done|done|lia]). destruct (peek_spec m s0 es Hline s1 [] st1 Hm1 Hr1) as (s2 & Epk & Hs2 & Et2 & He2); [set_solver|].
  apply outcome_bind. rewrite Epk. cbn [outcome]. apply outcome_bind, outcome_panic_if.
  { intros Hne%negb_true_iff%Z.eqb_neq c' Hl. apply (parser_correct _ _ n Hn) in Hl. rewrite E in Hl. injection Hl as -> Hnil. apply Hne, He2. by rewrite Et2. }
  intros Heq%negb_false_iff%Z.eqb_eq. assert (toks m es s1 = []) as Hnil. { rewrite <-Et2, Heq. unfold toks. by rewrite chars_nil. }
  rewrite Hnil in E. apply (parser_correct _ _ n Hn) in E. apply outcome_bind. cbn [gets outcome]. apply outcome_bind.
  destruct (wp_Ok _ _ _ (wp_nulterminate (Z.to_nat (sh_next st1)) p c st1 ltac:(lia) ltac:(by intros a _; rewrite Hm1) R)) as ([] & st2 & -> & [K Zm [Eh En] T]).
  cbn [outcome mret M_ret]. rewrite En. split; [done|]. exists c. split; [|done]. apply decode_spec; [lia|done|done].
Qed.
End Cmd.
