(* ===== verification/ShRun.v ===== *)
(** * What the shell runs

    The system calls of the shell, carried out on descriptor tables, give the
    processes it makes and what they run; and what a command means is such a tree
    of processes directly. *)

From S2P Require Import Prelude Mem Layout Fs Trap Sysfile Printf Uprintf Ulib Sh ShGrammar ShParse ShTree.

Set Default Proof Using "Type".

#[local] Arguments str_at : simpl never.

(** ** Processes *)

(** What a descriptor stands for. *)
Inductive obj := Tty | OFile (path : list Z) (mode : Z) | PRead (pipe : positive) | PWrite (pipe : positive).

(** What a process does that others see: it makes another one and goes on, waits
    for one, runs a program with a table of descriptors (and goes on if that
    fails), changes its directory, exits. *)
Inductive job :=
  | JFork (child parent : job)
  | JWait (rest : job)
  | JExec (path : list Z) (argv : list (list Z)) (t : gmap Z obj) (rest : job)
  | JChdir (dir : list Z) (rest : job)
  | JExit (status : Z)
  | JStuck.

Section Run.
(** Which files can be opened, and how. *)
Context (opens : list Z → Z → bool).

(** A process: its descriptors, a name of its own, and what it reads. *)
Record env := Env { e_fds : gmap Z obj; e_name : positive; e_in : list Z }.

(** The lowest free descriptor. *)
Definition lowest (t : gmap Z obj) : option Z := snd <$> list_find (λ fd, t !! fd = None) (seqZ 0 NOFILE).
Definition with_fd (t : gmap Z obj) (o : obj) (k : Z → gmap Z obj → job) (fail : job) : job :=
  match lowest t with Some fd => k fd (<[fd := o]> t) | None => fail end.

Fixpoint run {A} (p : prog A) (e : env) : job :=
  match p with
  | Ret _ => JExit 0
  | Stuck => JStuck
  | @Do _ R c k =>
      let t := e_fds e in let i := e_name e in
      match c in call R return (R → prog A) → job with
      | Fork => λ k, JFork (run (k 0) (Env t (i~0)%positive (e_in e))) (run (k 1) (Env t (i~1)%positive (e_in e)))
      | Exit n => λ _, JExit n
      | Wait => λ k, JWait (run (k 1) e)
      | Pipe => λ k,
          with_fd t (PRead i) (λ p0 t1,
            with_fd t1 (PWrite i) (λ p1 t2, run (k (Some (p0, p1))) (Env t2 (i~1)%positive (e_in e))) (run (k None) e)) (run (k None) e)
      | Write _ bs => λ k, run (k (Z.of_nat (length bs))) e
      | Read _ n => λ k, run (k (Some (take (Z.to_nat n) (e_in e)))) (Env t i (drop (Z.to_nat n) (e_in e)))
      | Close fd => λ k, run (k (if decide (is_Some (t !! fd)) then 0 else -1)) (Env (delete fd t) i (e_in e))
      | Exec path argv => λ k, JExec path argv t (run (k (-1)) e)
      | Open path mode => λ k,
          if opens path mode then with_fd t (OFile path mode) (λ fd t1, run (k fd) (Env t1 i (e_in e))) (run (k (-1)) e) else run (k (-1)) e
      | Dup fd => λ k, match t !! fd with Some o => with_fd t o (λ fd t1, run (k fd) (Env t1 i (e_in e))) (run (k (-1)) e) | None => run (k (-1)) e end
      | Chdir dir => λ k, JChdir dir (run (k 0) e)
      | _ => λ _, JStuck
      end k
  end.

(** ** What a command means *)

Fixpoint plan (c : cmd) (t : gmap Z obj) (i : positive) : job :=
  match c with
  | Simple [] => JExit 1
  | Simple (w :: ws) => JExec w (w :: ws) t (JExit 0)
  | Redirect c f mode fd => if opens f mode then plan c (<[fd := OFile f mode]> t) i else JExit 1
  | Piped c1 c2 =>
      JFork (plan c1 (<[1 := PWrite i]> t) (i~1~0)%positive)
        (JFork (plan c2 (<[0 := PRead i]> t) (i~1~1~0)%positive) (JWait (JWait (JExit 0))))
  | Seq c1 c2 => JFork (plan c1 t (i~0)%positive) (JWait (plan c2 t (i~1)%positive))
  | Bg c => JFork (plan c t (i~0)%positive) (JExit 0)
  end.

(** ** [runcmd] *)

(** The standard descriptors are open, and two more can be. *)
Definition std (t : gmap Z obj) : Prop :=
  is_Some (t !! 0) ∧ is_Some (t !! 1) ∧ is_Some (t !! 2) ∧ ∃ fd1 fd2, 0 ≤ fd1 < fd2 ∧ fd2 < NOFILE ∧ t !! fd1 = None ∧ t !! fd2 = None.

Lemma lowest_spec t fd : t !! fd = None → 0 ≤ fd < NOFILE → ∃ fd', lowest t = Some fd' ∧ 0 ≤ fd' ≤ fd ∧ t !! fd' = None ∧ ∀ x, 0 ≤ x < fd' → is_Some (t !! x).
Proof.
  intros Hn Hr. unfold lowest. destruct (list_find_elem_of (λ fd, t !! fd = None) (seqZ 0 NOFILE) fd) as [[j x] E]; [by apply elem_of_seqZ|done|]. rewrite E.
  apply list_find_Some in E as (Ej & Hx & Hlt). apply lookup_seqZ in Ej as [-> Hj]. exists (0 + Z.of_nat j). cbn. split; [done|]. split.
  - split; [lia|]. destruct (decide (0 + Z.of_nat j ≤ fd)); [done|]. exfalso. apply (Hlt (Z.to_nat fd) fd); [|lia|done]. apply lookup_seqZ. lia.
  - split; [done|]. intros y Hy. apply not_eq_None_Some. intros Hny. apply (Hlt (Z.to_nat y) y); [|lia|done]. apply lookup_seqZ. lia.
Qed.
(** The descriptor just closed is the lowest, if those below are open. *)
Lemma lowest_closed t fd : t !! fd = None → 0 ≤ fd < NOFILE → (∀ x, 0 ≤ x < fd → is_Some (t !! x)) → lowest t = Some fd.
Proof.
  intros Hn Hr Hx. destruct (lowest_spec t fd Hn Hr) as (fd' & -> & Hle & Hn' & _). destruct (decide (fd' = fd)) as [->|]; [done|]. destruct (Hx fd') as [? ?]; [lia|congruence].
Qed.

(** The descriptors of the redirections of a command line. *)
Fixpoint fds_ok (c : cmd) : Prop :=
  match c with
  | Simple _ => True
  | Redirect c _ _ fd => (fd = 0 ∨ fd = 1) ∧ fds_ok c
  | Piped c1 c2 | Seq c1 c2 => fds_ok c1 ∧ fds_ok c2
  | Bg c => fds_ok c
  end.
Lemma redirected_ok c rs : fds_ok c → fds_ok (redirected c rs).
Proof.
  unfold redirected. induction rs as [|[t f] rs IH] in c |- *; cbn; [done|]. intros H. apply IH. unfold redirect. cbn. destruct t as [w|x|]; [done| |cbn; auto]. destruct (x =? 60); cbn; auto.
Qed.
Lemma grammar_fds : (∀ ts c, Command ts c → fds_ok c) ∧ (∀ ts c, Pipeline ts c → fds_ok c) ∧ (∀ ts c, Line ts c → fds_ok c).
Proof.
  assert (∀ n c, fds_ok c → fds_ok (Nat.iter n Bg c)) as Hit by (intros n c H; by induction n).
  apply grammar_ind; intros; cbn; auto; try (by apply redirected_ok). all: split; auto.
Qed.

Lemma run_put {A} fd bs (p : prog A) e : run (put fd bs;; p) e = run p e.
Proof. unfold put. induction bs as [|b bs IH]; [done|]. exact IH. Qed.

Lemma std_insert t fd o : std t → is_Some (t !! fd) → std (<[fd := o]> t).
Proof.
  intros (S0 & S1 & S2 & f1 & f2 & H1 & H2 & N1 & N2) Hfd. assert (∀ x, is_Some (t !! x) → is_Some (<[fd := o]> t !! x)) as Hs by (intros x Hx; rewrite lookup_insert; case_decide; [by eexists|done]).
  assert (∀ x, t !! x = None → <[fd := o]> t !! x = None) as Hn by (intros x Hx; rewrite lookup_insert_ne; [done|]; intros ->; rewrite Hx in Hfd; by destruct Hfd).
  split_and!; eauto 10.
Qed.
Lemma std_open t fd : std t → fd = 0 ∨ fd = 1 → is_Some (t !! fd) ∧ lowest (delete fd t) = Some fd.
Proof.
  intros (S0 & S1 & _) Hfd. split; [by destruct Hfd as [->| ->]|]. apply lowest_closed; [by rewrite lookup_delete_eq|unfold NOFILE; lia|]. intros x Hx. rewrite lookup_delete_ne by lia. by assert (x = 0) as -> by lia.
Qed.
Lemma std_pipe t o : std t → ∃ p0 p1, lowest t = Some p0 ∧ lowest (<[p0 := o]> t) = Some p1 ∧ p0 ≠ p1 ∧ 2 < p0 ∧ 2 < p1 ∧ t !! p0 = None ∧ t !! p1 = None.
Proof.
  intros (S0 & S1 & S2 & f1 & f2 & H1 & H2 & N1 & N2). destruct (lowest_spec t f1) as (p0 & E0 & R0 & E0n & _); [done|lia|]. assert (p0 ≠ f2) by lia.
  destruct (lowest_spec (<[p0 := o]> t) f2) as (p1 & E1 & R1 & E1n & _); [by rewrite lookup_insert_ne|lia|]. assert (p0 ≠ p1) as Hne by (intros <-; by rewrite lookup_insert_eq in E1n).
  rewrite lookup_insert_ne in E1n by done. assert (∀ x, 0 ≤ x → t !! x = None → 2 < x) as Hgt.
  { intros x Hx Hn. destruct (decide (x = 0)) as [->|]; [destruct S0; congruence|]. destruct (decide (x = 1)) as [->|]; [destruct S1; congruence|]. destruct (decide (x = 2)) as [->|]; [destruct S2; congruence|]. lia. }
  exists p0, p1. split_and!; try done; apply Hgt; (done || lia).
Qed.

(** The children of a pipe: what is left is the end of the pipe in the place of a
    standard descriptor. *)
Lemma pipe_table (t : gmap Z obj) p0 p1 fd o o0 o1 : p0 ≠ p1 → fd < p0 → fd < p1 → t !! p0 = None → t !! p1 = None → 
  delete p1 (delete p0 (<[fd := o]> (delete fd (<[p1 := o1]> (<[p0 := o0]> t))))) = <[fd := o]> t.
Proof. intros. apply map_eq. intros x. rewrite !lookup_delete, !lookup_insert, !lookup_delete, !lookup_insert. repeat case_decide; subst; try done; try lia; congruence. Qed.

(** The calls of the shell, one by one. *)
Section Calls.
Context {A : Type}.
Implicit Types (t : gmap Z obj) (i : positive) (inp : list Z).
Lemma run_fprintf fd fmt args (p : prog A) e : run (ufprintf fd fmt args;; p) e = run p e.
Proof. apply run_put. Qed.
Lemma run_exit n e : run (exit n : prog A) e = JExit n.
Proof. done. Qed.
Lemma run_fork (f : Z → prog A) t i inp : run (fork1 ≫= f) (Env t i inp) = JFork (run (f 0) (Env t (i~0)%positive inp)) (run (f 1) (Env t (i~1)%positive inp)).
Proof. done. Qed.
Lemma run_wait (p : prog A) e : run (ask Wait;; p) e = JWait (run p e).
Proof. done. Qed.
Lemma run_exec path argv (p : prog A) e : run (ask (Exec path argv);; p) e = JExec path argv (e_fds e) (run p e).
Proof. done. Qed.
Lemma run_close fd (p : prog A) t i inp : run (ask (Close fd);; p) (Env t i inp) = run p (Env (delete fd t) i inp).
Proof. done. Qed.
Lemma run_open path mode fd (f : Z → prog A) t i inp : lowest t = Some fd →
  run (ask (Open path mode) ≫= f) (Env t i inp) = if opens path mode then run (f fd) (Env (<[fd := OFile path mode]> t) i inp) else run (f (-1)) (Env t i inp).
Proof. intros H. cbn. unfold with_fd. by rewrite H. Qed.
Lemma run_dup fd o fd' (p : prog A) t i inp : t !! fd = Some o → lowest t = Some fd' → run (ask (Dup fd);; p) (Env t i inp) = run p (Env (<[fd' := o]> t) i inp).
Proof. intros H1 H2. cbn. rewrite H1. unfold with_fd. by rewrite H2. Qed.
Lemma run_pipe p0 p1 (f : option (Z * Z) → prog A) t i inp : lowest t = Some p0 → lowest (<[p0 := PRead i]> t) = Some p1 →
  run (ask Pipe ≫= f) (Env t i inp) = run (f (Some (p0, p1))) (Env (<[p1 := PWrite i]> (<[p0 := PRead i]> t)) (i~1)%positive inp).
Proof. intros H1 H2. cbn. unfold with_fd. by rewrite H1, H2. Qed.
End Calls.

(** A child of a pipe, up to its command. *)
Lemma run_pipe_child {A} t p0 p1 fd end_ o0 o1 o (p : prog A) i inp :
  std t → fd = 0 ∨ fd = 1 → p0 ≠ p1 → 2 < p0 → 2 < p1 → t !! p0 = None → t !! p1 = None → <[p1 := o1]> (<[p0 := o0]> t) !! end_ = Some o → end_ = p0 ∨ end_ = p1 →
  run (ask (Close fd);; ask (Dup end_);; ask (Close p0);; ask (Close p1);; p) (Env (<[p1 := o1]> (<[p0 := o0]> t)) i inp) = run p (Env (<[fd := o]> t) i inp).
Proof.
  intros Hstd Hfd Hne G0 G1 N0 N1 He Hend. rewrite run_close, (run_dup _ o fd), !run_close, pipe_table; try done; try lia.
  - rewrite lookup_delete_ne; [done|lia].
  - rewrite !delete_insert_ne by lia. destruct (std_open t fd Hstd Hfd) as [_ Hl]. destruct Hstd as (S0 & S1 & _). apply lowest_closed; [rewrite !lookup_insert_ne by lia; by rewrite lookup_delete_eq|unfold NOFILE; lia|].
    intros x Hx. assert (x = 0) as -> by lia. rewrite !lookup_insert_ne, lookup_delete_ne by lia. done.
Qed.

Lemma runcmd_plan n st : ∀ p c t i inp, decode n st p = Some c → fds_ok c → std t → run (runcmd n st p) (Env t i inp) = plan c t i.
Proof.
  induction n as [|n IH]; intros p c t i inp Hd Hok Hstd; [done|]. cbn [decode] in Hd. cbn [runcmd]. destruct (p =? 0); [done|]. destruct (sh_heap st !! p) as [[argv eargv|p1 q eq mode fd|l r|l r|p1]|] eqn:Eh; [..|done].
  - injection Hd as <-. destruct argv as [|q argv]; [done|]. change (default 0 ((q :: argv) !! 0%nat)) with q. cbn [args_at]. destruct (q =? 0); [done|]. by rewrite run_exec, run_fprintf.
  - destruct (decode n st p1) as [c1|] eqn:E1; [|done]. injection Hd as <-. destruct Hok as [Hfd Hok]. destruct (std_open t fd Hstd Hfd) as [Hs Hlow]. rewrite run_close, (run_open _ _ fd) by done.
    cbn [plan]. destruct (opens _ mode); [|change (-1 <? 0) with true; cbv beta iota; by rewrite run_fprintf]. rewrite insert_delete_eq. destruct (Z.ltb_spec fd 0); [lia|]. apply IH; try done. by apply std_insert.
  - destruct (decode n st l) as [c1|] eqn:E1; [|done]. destruct (decode n st r) as [c2|] eqn:E2; [|done]. injection Hd as <-. destruct Hok as [Hok1 Hok2].
    destruct (std_pipe t (PRead i) Hstd) as (p0 & p1 & L0 & L1 & Hne & G0 & G1 & N0 & N1). rewrite (run_pipe p0 p1) by done. cbv beta iota. rewrite run_fork. cbv beta. change (1 =? 0) with false. cbv iota. rewrite run_fork. cbn [plan]. change (0 =? 0) with true. change (1 =? 0) with false. cbv beta iota. f_equal; [|f_equal].
    + rewrite (run_pipe_child _ _ _ _ _ _ _ (PWrite i)); try done; auto; [|by rewrite lookup_insert_eq]. apply IH; try done. apply std_insert; [done|apply Hstd].
    + rewrite (run_pipe_child _ _ _ _ _ _ _ (PRead i)); try done; auto; [|by rewrite lookup_insert_ne, lookup_insert_eq]. apply IH; try done. apply std_insert; [done|apply Hstd].
  - destruct (decode n st l) as [c1|] eqn:E1; [|done]. destruct (decode n st r) as [c2|] eqn:E2; [|done]. injection Hd as <-. destruct Hok as [Hok1 Hok2]. rewrite run_fork. cbn [plan]. change (0 =? 0) with true. change (1 =? 0) with false. cbv beta iota.
    rewrite run_wait. f_equal; [by apply IH|]. f_equal. by apply IH.
  - destruct (decode n st p1) as [c1|] eqn:E1; [|done]. injection Hd as <-. rewrite run_fork. cbn [plan]. change (0 =? 0) with true. change (1 =? 0) with false. cbv beta iota. f_equal. by apply IH.
Qed.
End Run.
