(* ===== verification/ShProps.v ===== *)
(** * The shell does what its lines say

    [main] reads lines; each is blank, a change of directory, or a command that a
    new process runs: the tree of processes is the one the command stands for. *)

From S2P Require Import Prelude Mem Layout Fs Trap TrapProps Sysfile Printf Uprintf Ulib Sh ShGrammar ShParse ShTree ShRun.

Set Default Proof Using "Type".

#[local] Arguments str_at : simpl never.

Section Props.
Context (opens : list Z → Z → bool).
Notation run := (ShRun.run opens).
Notation plan := (ShRun.plan opens).

Lemma run_assoc {A B C} (p : prog A) (f : A → prog B) (g : B → prog C) : ∀ e, run ((p ≫= f) ≫= g) e = run (p ≫= λ x, f x ≫= g) e.
Proof. induction p as [a|R c k IH|]; intros e; [done| |done]. destruct c; cbn; unfold with_fd; repeat case_match; first [apply IH|done|f_equal; apply IH]. Qed.
Lemma run_void {A} (p : prog Empty_set) (f : Empty_set → prog A) : ∀ e, run (p ≫= f) e = run p e.
Proof. induction p as [[]|R c k IH|]; intros e; [|done]. destruct c; cbn; unfold with_fd; repeat case_match; first [apply IH|done|f_equal; apply IH]. Qed.

(** ** Lines in memory *)

(** The C string [l] is at [a]. *)
Record text_at (m : mem) (a : Z) (l : list Z) : Prop := {
  tx_bytes : ∀ k c, l !! k = Some c → ldb m (a + Z.of_nat k) = c;
  tx_end : ldb m (a + Z.of_nat (length l)) = 0;
  tx_chars : Forall (λ c, c ≠ 0) l
}.
Lemma text_tail m a c l : text_at m a (c :: l) → text_at m (a + 1) l.
Proof.
  intros [H1 H2 H3]. inversion H3; subst. split; [|by replace (a + 1 + Z.of_nat (length l)) with (a + Z.of_nat (length (c :: l))) by (cbn; lia)|done].
  intros k x E. replace (a + 1 + Z.of_nat k) with (a + Z.of_nat (S k)) by lia. by apply H1.
Qed.
Lemma text_head m a c l : text_at m a (c :: l) → ldb m a = c ∧ c ≠ 0.
Proof. intros [H1 _ H3]. inversion H3; subst. split; [|done]. specialize (H1 O c eq_refl). by rewrite Z.add_0_r in H1. Qed.
Lemma text_empty m a : text_at m a [] → ldb m a = 0.
Proof. intros [_ H _]. by rewrite Z.add_0_r in H. Qed.
Lemma text_line m a l : text_at m a l → 0 < a → line_ok m a (a + Z.of_nat (length l)) ∧ chars m (a + Z.of_nat (length l)) a = l.
Proof.
  intros H Ha. pose proof H as [H1 H2 H3]. split.
  - split; [lia|done|]. intros b Hb. destruct (lookup_lt_is_Some_2 l (Z.to_nat (b - a))) as [c Ec]; [lia|]. pose proof (H1 _ _ Ec) as Hc. rewrite Z2Nat.id in Hc by lia.
    replace (a + (b - a)) with b in Hc by lia. rewrite Hc. by eapply Forall_lookup_1 in H3.
  - unfold chars. replace (Z.to_nat (a + Z.of_nat (length l) - a)) with (length l) by lia. clear H H2 H3. apply list_eq. intros k. destruct (decide (k < length l)%nat) as [Hk|Hk].
    + rewrite ldbytes_lookup by done. destruct (lookup_lt_is_Some_2 l k Hk) as [c Ec]. by rewrite Ec, (H1 _ _ Ec).
    + rewrite !lookup_ge_None_2; [done|lia|by rewrite length_ldbytes; lia].
Qed.
Lemma text_str m a l : text_at m a l → str_at m a = l.
Proof.
  intros [H1 H2 H3]. unfold str_at. apply ldstr_spec; [|intros i c E; split; [by apply H1|by eapply Forall_lookup_1 in H3]|done].
  apply le_S, (run_size _ a). intros b Hb. destruct (lookup_lt_is_Some_2 l (Z.to_nat (b - a))) as [c Ec]; [lia|]. pose proof (H1 _ _ Ec) as Hc. rewrite Z2Nat.id in Hc by lia.
  replace (a + (b - a)) with b in Hc by lia. rewrite Hc. by eapply Forall_lookup_1 in H3.
Qed.

(** A line that is typed: no zeros and no ends of lines; it fits in the buffer. *)
Definition typed (l : list Z) : Prop := Forall (λ c, 0 < c < 256 ∧ c ≠ 10 ∧ c ≠ 13) l ∧ Z.of_nat (length l) + 2 ≤ NBUF_ - 1.

(** ** [gets] *)

Lemma run_read {A} fd n (f : option (list Z) → prog A) t i inp : run (ask (Read fd n) ≫= f) (Env t i inp) = run (f (Some (take (Z.to_nat n) inp))) (Env t i (drop (Z.to_nat n) inp)).
Proof. done. Qed.
Lemma run_gets_step {A} buf max c rest (f : (mem * Z) + (mem * Z) → prog A) m j t i : j + 1 < max →
  run (Ulib.gets_step buf max (m, j) ≫= f) (Env t i (c :: rest)) =
  run (f (if (c =? 10) || (c =? 13) then inr (stb m (buf + j) c, j + 1) else inl (stb m (buf + j) c, j + 1))) (Env t i rest).
Proof.
  intros Hj. unfold Ulib.gets_step. rewrite (proj2 (Z.ltb_lt _ _) Hj). cbn [negb]. rewrite run_assoc, run_read. change (Z.to_nat 1) with 1%nat. cbn [take drop].
  by destruct ((c =? 10) || (c =? 13)).
Qed.

Lemma run_gets_end {A} buf max (f : (mem * Z) + (mem * Z) → prog A) m j t i : j + 1 < max → run (Ulib.gets_step buf max (m, j) ≫= f) (Env t i []) = run (f (inr (m, j))) (Env t i []).
Proof. intros Hj. unfold Ulib.gets_step. rewrite (proj2 (Z.ltb_lt _ _) Hj). cbn [negb]. by rewrite run_assoc, run_read. Qed.

Lemma gets_loop {A} (buf max : Z) (l rest : list Z) (f : mem * Z → prog A) n m j t i :
  Forall (λ c, 0 < c < 256 ∧ c ≠ 10 ∧ c ≠ 13) l → j + Z.of_nat (length l) + 1 < max → (length l < n)%nat → 
  run (repeat_prog n (Ulib.gets_step buf max) (m, j) ≫= f) (Env t i (l ++ 10 :: rest)) =
  run (f (stbytes m (buf + j) (l ++ [10]), j + Z.of_nat (length l) + 1)) (Env t i rest).
Proof.
  intros Hl. revert n m j. induction Hl as [|c l (Hc & H10 & H13) Hl IH]; intros n m j Hj Hn; (destruct n as [|n]; [cbn in Hn; lia|]); cbn [repeat_prog length app] in *;
    rewrite run_assoc, run_gets_step by lia.
  - cbn [Z.eqb Pos.eqb orb]. cbn. by rewrite Z.add_0_r.
  - rewrite (proj2 (Z.eqb_neq c 10)), (proj2 (Z.eqb_neq c 13)) by done. cbn [orb]. rewrite IH by lia. cbn [stbytes]. do 3 f_equal; [f_equal; lia|lia].
Qed.

(** [gets] of a line, and at the end of the input. *)
Lemma run_gets {A} buf max l rest (f : mem → prog A) m t i : 0 < buf → Forall (λ c, 0 < c < 256 ∧ c ≠ 10 ∧ c ≠ 13) l → Z.of_nat (length l) + 1 < max →
  ∃ m', text_at m' buf (l ++ [10]) ∧ run (Ulib.gets m buf max ≫= f) (Env t i (l ++ 10 :: rest)) = run (f m') (Env t i rest).
Proof.
  intros Hb Hl Hmax. eexists. split; [|unfold Ulib.gets; rewrite run_assoc, gets_loop by (done || lia); reflexivity]. cbn [fst snd]. rewrite Z.add_0_r. split.
  - intros k c E. rewrite ldb_stb_ne by (apply lookup_lt_Some in E; rewrite length_app in E; cbn in E; lia). rewrite (ldb_stbytes_in _ _ _ _ _ E). apply Z.mod_small.
    apply lookup_app_Some in E as [E|[_ E]]; [eapply Forall_lookup_1 in Hl; [|done]; lia|]. apply list_lookup_singleton_Some in E as [_ <-]. lia.
  - rewrite length_app. cbn [length]. replace (buf + (0 + Z.of_nat (length l) + 1)) with (buf + Z.of_nat (length l + 1)) by lia. by rewrite ldb_stb_eq.
  - apply Forall_app. split; [eapply Forall_impl; [done|]; cbn; lia|]. by constructor.
Qed.
Lemma run_gets_eof {A} buf max (f : mem → prog A) m t i : 1 < max → run (Ulib.gets m buf max ≫= f) (Env t i []) = run (f (stb m (buf + 0) 0)) (Env t i []).
Proof.
  intros Hmax. unfold Ulib.gets. rewrite run_assoc. destruct (Z.to_nat max) as [|n] eqn:E; [lia|]. cbn [repeat_prog].
  by rewrite run_assoc, run_gets_end.
Qed.

(** ** A turn of [main] *)

Lemma run_write_call {A} fd bs (p : prog A) e : run (ask (Write fd bs);; p) e = run p e.
Proof. done. Qed.
Lemma run_getcmd {A} buf l rest (f : mem * Z → prog A) m t i : 0 < buf → typed l →
  ∃ m', text_at m' buf (l ++ [10]) ∧ run (getcmd m buf NBUF_ ≫= f) (Env t i (l ++ 10 :: rest)) = run (f (m', 0)) (Env t i rest).
Proof.
  intros Hb [Hl Hlen]. destruct (run_gets buf NBUF_ l rest (λ m, mret (m, if ldb m buf =? 0 then -1 else 0) ≫= f) (Ulib.memset m buf 0 NBUF_) t i Hb Hl) as (m' & Ht & E); [lia|].
  exists m'. split; [done|]. unfold getcmd. rewrite run_assoc, run_write_call, run_assoc, E.
  assert (ldb m' buf ≠ 0) as Hz. { destruct l as [|c l]; cbn in Ht; destruct (text_head _ _ _ _ Ht) as [-> ?]; done. }
  by rewrite (proj2 (Z.eqb_neq _ _) Hz).
Qed.
Lemma run_getcmd_eof {A} buf (f : mem * Z → prog A) m t i : ∃ m', run (getcmd m buf NBUF_ ≫= f) (Env t i []) = run (f (m', -1)) (Env t i []).
Proof.
  eexists. unfold getcmd. rewrite run_assoc, run_write_call, run_assoc, run_gets_eof by done. rewrite Z.add_0_r. cbn. rewrite ldb_stb_eq. reflexivity.
Qed.

Definition blank (c : Z) : bool := (c =? 32) || (c =? 9).
Fixpoint drop_blank (l : list Z) : list Z := match l with c :: l' => if blank c then drop_blank l' else l | [] => [] end.

Lemma skip_blank_spec m l x r : ∀ n a, text_at m a (l ++ x :: r) → blank x = false → (length l ≤ n)%nat →
  a ≤ skip_blank n m a ∧ text_at m (skip_blank n m a) (drop_blank l ++ x :: r).
Proof.
  induction l as [|c l IH]; intros n a Ht Hx Hn; cbn [app drop_blank length] in *.
  - destruct n as [|n]; cbn [skip_blank]; [split; [lia|done]|]. destruct (text_head _ _ _ _ Ht) as [-> _]. fold (blank x). rewrite Hx. split; [lia|done].
  - destruct n as [|n]; [lia|]. cbn [skip_blank]. destruct (text_head _ _ _ _ Ht) as [-> _]. fold (blank c). destruct (blank c); [|split; [lia|done]].
    destruct (IH n (a + 1)) as [? ?]; [by eapply text_tail|done|lia|]. split; [lia|done].
Qed.
Lemma tokens_blank l r : tokens (drop_blank l ++ r) = tokens (l ++ r).
Proof.
  induction l as [|c l IH]; [done|]. cbn [drop_blank app]. destruct (blank c) eqn:E; [|done]. rewrite IH. cbn [tokens]. unfold blank in E. apply orb_prop in E as [->%Z.eqb_eq| ->%Z.eqb_eq]; done.
Qed.
Lemma drop_blank_forall (P : Z → Prop) l : Forall P l → Forall P (drop_blank l).
Proof. induction 1; cbn; [done|]. destruct (blank _); [done|by constructor]. Qed.

(** What a line does; [next] is what follows. *)
Inductive Turn (t : gmap Z obj) (l : list Z) (i : positive) (next : positive → job) : job → Prop :=
  | tn_blank : drop_blank l = [] → Turn t l i next (next i)
  | tn_cd dir : drop_blank l = [99; 100; 32] ++ dir → Turn t l i next (JChdir dir (next i))
  | tn_run c : drop_blank l ≠ [] → (∀ dir, drop_blank l ≠ [99; 100; 32] ++ dir) → Line (tokens (l ++ [10])) c →
      Turn t l i next (JFork (plan c t (i~0)%positive) (JWait (next (i~1)%positive)))
  | tn_syntax : drop_blank l ≠ [] → (∀ dir, drop_blank l ≠ [99; 100; 32] ++ dir) → (∀ c, ¬ Line (tokens (l ++ [10])) c) →
      Turn t l i next (JFork (JExit 1) (JWait (next (i~1)%positive))).

(** [runcmd(parsecmd(cmd))] *)
Lemma run_line_spec m a l t i inp : text_at m a l → 0 < a → std t →
  (∃ c, Line (tokens l) c ∧ run (run_line m a) (Env t i inp) = plan c t i) ∨ ((∀ c, ¬ Line (tokens l) c) ∧ run (run_line m a) (Env t i inp) = JExit 1).
Proof.
  intros Ht Ha Hstd. destruct (text_line _ _ _ Ht Ha) as [Hline Hch]. pose proof (parsecmd_spec _ _ _ Hline) as H. rewrite Hch in H. unfold run_line. destruct (parsecmd a (Shst m ∅ 1)) as [p st|msg|]; cbn in H; [| |done].
  - destruct H as (_ & c & Hd & Hl). left. exists c. split; [done|]. apply runcmd_plan; [done|by eapply grammar_fds|done].
  - right. split; [done|]. unfold die. by rewrite run_fprintf.
Qed.

(** The test for [cd ]. *)
Lemma cd_test m a l : text_at m a (l ++ [10]) → (ldb m a =? 99) && (ldb m (a + 1) =? 100) && (ldb m (a + 2) =? 32) = true ↔ ∃ dir, l = [99; 100; 32] ++ dir.
Proof.
  intros Ht. assert (∀ b x r, text_at m b (x :: r) → ldb m b = x ∧ text_at m (b + 1) r) as Hx by (intros b x r H; split; [by eapply text_head|by eapply text_tail]).
  replace (a + 2) with (a + 1 + 1) by lia. destruct l as [|c1 [|c2 [|c3 dir]]]; cbn [app] in Ht.
  - destruct (Hx _ _ _ Ht) as [-> _]. split; [done|by intros [? ?]].
  - destruct (Hx _ _ _ Ht) as [-> H1], (Hx _ _ _ H1) as [-> _]. split; [by destruct (c1 =? 99)|by intros [? ?]].
  - destruct (Hx _ _ _ Ht) as [-> H1], (Hx _ _ _ H1) as [-> H2], (Hx _ _ _ H2) as [-> _]. split; [by destruct (c1 =? 99), (c2 =? 100)|by intros [? ?]].
  - destruct (Hx _ _ _ Ht) as [-> H1], (Hx _ _ _ H1) as [-> H2], (Hx _ _ _ H2) as [-> _]. rewrite !andb_true_iff, !Z.eqb_eq. split; [intros [[-> ->] ->]; by exists dir|by intros [? [= -> -> -> _]]].
Qed.
(** [cmd[strlen(cmd)-1] = 0] takes the end of the line away. *)
Lemma chop_spec m a l : text_at m a (l ++ [10]) → 0 < a → text_at (stb m (a + default 0 (Ulib.strlen (S (size m)) m a) - 1) 0) a l.
Proof.
  intros Ht Ha. destruct (text_line _ _ _ Ht Ha) as [Hline _]. unfold Ulib.strlen. rewrite (ustrlen_spec _ _ _ Hline).
  2:{ assert (length (l ++ [10%Z]) ≤ size m)%nat; [|lia]. apply (run_size _ a). intros b Hb. apply (lo_chars _ _ _ Hline). lia. } 2: lia.
  change (default 0 (Some ?x)) with x. rewrite length_app. cbn [length]. replace (a + (a + Z.of_nat (length l + 1) - a) - 1) with (a + Z.of_nat (length l)) by lia. destruct Ht as [H1 _ H3]. split.
  - intros k c E. pose proof (lookup_lt_Some _ _ _ E). rewrite ldb_stb_ne by lia. apply H1. by rewrite lookup_app_l.
  - by rewrite ldb_stb_eq.
  - by apply Forall_app in H3 as [? _].
Qed.

Lemma main_step_spec {A} buf m l rest (f : mem + unit → prog A) t i : 0 < buf → typed l → std t →
  ∃ m', Turn t l i (λ i', run (f (inl m')) (Env t i' rest)) (run (main_step buf m ≫= f) (Env t i (l ++ 10 :: rest))).
Proof.
  intros Hb Hl Hstd. unfold main_step. rewrite run_assoc.
  match goal with |- context [run (getcmd _ _ _ ≫= ?g) _] => destruct (run_getcmd buf l rest g m t i Hb Hl) as (m1 & Ht & ->) end. cbv beta iota. change (0 <? 0) with false. cbv iota zeta.
  destruct (skip_blank_spec m1 l 10 [] (Z.to_nat NBUF_) buf Ht) as [Hge Ht1]; [done|destruct Hl; lia|]. set (cmd := skip_blank _ m1 buf) in *. destruct (decide (drop_blank l = [])) as [E|Hne].
  { exists m1. rewrite E in Ht1. destruct (text_head _ _ _ _ Ht1) as [-> _]. change (10 =? 10) with true. cbv iota. by apply (tn_blank _ _ _ (λ i', run (f (inl m1)) (Env t i' rest))). }
  assert (ldb m1 cmd ≠ 10) as H10.
  { destruct (drop_blank l) as [|c d] eqn:E; [done|]. destruct (text_head _ _ _ _ Ht1) as [-> _]. destruct Hl as [Hl _]. apply drop_blank_forall in Hl. rewrite E in Hl. inversion Hl. naive_solver. }
  rewrite (proj2 (Z.eqb_neq _ _) H10). destruct ((ldb m1 cmd =? 99) && (ldb m1 (cmd + 1) =? 100) && (ldb m1 (cmd + 2) =? 32)) eqn:Ecd.
  - apply (cd_test m1 cmd _ Ht1) in Ecd as [dir Edir]. pose proof (chop_spec _ _ _ Ht1 ltac:(lia)) as Ht2. set (m2 := stb m1 _ 0) in *. exists m2. rewrite Edir in Ht2.
    assert (str_at m2 (cmd + 3) = dir) as Estr. { apply text_str. replace (cmd + 3) with (cmd + 1 + 1 + 1) by lia. eapply text_tail, text_tail, text_tail, Ht2. }
    rewrite Estr. by apply tn_cd.
  - assert (∀ dir, drop_blank l ≠ [99; 100; 32] ++ dir) as Hncd. { intros dir Edir. apply not_true_iff_false in Ecd. apply Ecd, (cd_test _ _ _ Ht1). by exists dir. }
    exists m1. rewrite run_assoc, run_fork. change (0 =? 0) with true. change (1 =? 0) with false. cbv beta iota. rewrite run_assoc, run_void, run_assoc, run_wait.
    destruct (run_line_spec m1 cmd (drop_blank l ++ [10]) t (i~0)%positive rest Ht1 ltac:(lia) Hstd) as [(c & Hc & ->)|[Hn ->]]; rewrite tokens_blank in *.
    + by apply (tn_run _ _ _ (λ i', run (f (inl m1)) (Env t i' rest))).
    + by apply (tn_syntax _ _ _ (λ i', run (f (inl m1)) (Env t i' rest))).
Qed.

(** ** The shell *)

(** What the lines do, one after the other. *)
Inductive Session (t : gmap Z obj) : list (list Z) → positive → job → Prop :=
  | se_eof i : Session t [] i (JExit 0)
  | se_line l ls i next j : Turn t l i next j → (∀ i', Session t ls i' (next i')) → Session t (l :: ls) i j.

Definition text (ls : list (list Z)) : list Z := concat ((λ l, l ++ [10]) <$> ls).

Lemma main_loop buf t ls : 0 < buf → std t → Forall typed ls → ∀ n m i, (length ls < n)%nat →
  Session t ls i (run (repeat_prog n (main_step buf) m;; (exit 0 : prog unit)) (Env t i (text ls))).
Proof.
  intros Hb Hstd Hls. induction Hls as [|l ls Hl Hls IH]; intros n m i Hn; (destruct n as [|n]; [cbn in Hn; lia|]); cbn [repeat_prog]; rewrite run_assoc.
  - unfold main_step. rewrite run_assoc. match goal with |- context [run (getcmd _ _ _ ≫= ?g) _] => destruct (run_getcmd_eof buf g m t i) as (m' & E) end. cbn [text fmap list_fmap concat]. rewrite E. apply se_eof.
  - change (text (l :: ls)) with ((l ++ [10]) ++ text ls). rewrite <-app_assoc. cbn [app].
    match goal with |- context [run (main_step _ _ ≫= ?g) _] => destruct (main_step_spec buf m l (text ls) g t i Hb Hl Hstd) as (m' & HT) end.
    eapply se_line; [exact HT|]. intros i'. apply IH. cbn in Hn. lia.
Qed.

Lemma open_console {A} n (p : prog A) t i inp : std t → (0 < n)%nat →
  run (repeat_prog n (λ _ : unit, fd ← ask (Open (codes "console") O_RDWR); if negb (fd >=? 0) then mret (inr tt) else if fd >=? 3 then ask (Close fd);; mret (inr tt) else mret (inl tt)) tt;; p) (Env t i inp) =
  run p (Env t i inp).
Proof.
  intros Hstd Hn. destruct n as [|n]; [lia|]. destruct (std_pipe t Tty Hstd) as (p0 & _ & L0 & _ & _ & G0 & _ & N0 & _). cbn [repeat_prog]. rewrite !run_assoc, (run_open _ _ _ p0) by done. destruct (opens _ _).
  - destruct (p0 >=? 0) eqn:E1; [|lia]. destruct (p0 >=? 3) eqn:E2; [|lia]. cbn [negb]. rewrite !run_assoc, run_close. by rewrite delete_insert_id.
  - done.
Qed.

End Props.

(** C14: [parsecmd] decides the grammar of command lines: on every string it either
    returns the tree of the one command the string stands for, with every word of
    the tree a zero-terminated string of its own, or reports a syntax error, and
    then the string stands for no command. *)
Theorem parsecmd_decides (m : mem) (a : Z) (l : list Z) :
  text_at m a l → 0 < a →
  match parsecmd a (Shst m ∅ 1) with
  | Ok p st => ∃ c, decode (Z.to_nat (sh_next st)) st p = Some c ∧ Line (tokens l) c ∧ ∀ c', Line (tokens l) c' → c' = c
  | Panic _ => ∀ c, ¬ Line (tokens l) c
  | NoFuel => False
  end.
Proof.
  intros Ht Ha. destruct (text_line _ _ _ Ht Ha) as [Hline Hch]. pose proof (parsecmd_spec _ _ _ Hline) as H. rewrite Hch in H. destruct (parsecmd a (Shst m ∅ 1)) as [p st|msg|]; cbn in H; [|done|done].
  destruct H as (_ & c & Hd & Hl). exists c. split_and!; try done. intros c' Hl'. pose proof (Nat.le_refl (4 * length (tokens l) + 4)) as Hn. apply (parser_correct _ _ _ Hn) in Hl, Hl'. congruence.
Qed.

(** C7: The shell runs what it is told: for every sequence of lines that fit in its
    buffer, whatever they say, when [fork], [wait] and [chdir] succeed and the commands
    leave its input alone, the processes it makes are those the lines stand for.  The commands of a pipeline run with the ends of one fresh pipe in the
    place of their standard output and input and hold no other end of it,
    redirections replace the descriptor they name, [;] waits for the first
    command, [&] does not, [cd] changes the shell's own directory, and a line that
    is no command costs only the process that parses it. *)
Theorem sh_runs_lines (opens : list Z → Z → bool) (buf : Z) (m : mem) (t : gmap Z obj) (ls : list (list Z)) (n : nat) (i : positive) :
  0 < buf → std t → Forall typed ls → (length ls < n)%nat → Session opens t ls i (run opens (sh_main buf n m) (Env t i (text ls))).
Proof. intros Hb Hstd Hls Hn. unfold sh_main. rewrite open_console by (done || lia). by apply main_loop. Qed.

Module ShWitness.
Definition line1 : list Z := codes "ls -l | wc > out".
Definition line2 : list Z := codes "cd /bin".
Definition line3 : list Z := codes "a & b".
Definition mem1 : mem := stbytes ∅ 1000 (line1 ++ [10; 0]).

Lemma text1 : text_at mem1 1000 (line1 ++ [10]).
Proof.
  split; [|vm_compute; reflexivity|by apply (bool_decide_unpack _); vm_compute].
  assert (Forall (λ '(k, c), ldb mem1 (1000 + Z.of_nat k) = c) (imap (λ k c, (k, c)) (line1 ++ [10]))) as H by (apply (bool_decide_unpack _); vm_compute; reflexivity).
  intros k c E. rewrite Forall_forall in H. apply (H (k, c)). apply list_elem_of_lookup. exists k. by rewrite list_lookup_imap, E.
Qed.

Definition cmd1 : cmd := Piped (Simple [codes "ls"; codes "-l"]) (Redirect (Simple [codes "wc"]) (codes "out") 1537 1).
Definition node1 (r : res shst Z) : option cmd := match r with Ok p st => decode (Z.to_nat (sh_next st)) st p | _ => None end.

Lemma parsecmd_decides_witness :
  node1 (parsecmd 1000 (Shst mem1 ∅ 1)) = Some cmd1 ∧ ∃ c, node1 (parsecmd 1000 (Shst mem1 ∅ 1)) = Some c ∧ Line (tokens (line1 ++ [10])) c.
Proof.
  split; [vm_compute; reflexivity|]. pose proof (parsecmd_decides mem1 1000 (line1 ++ [10]) text1 ltac:(lia)) as H.
  assert (node1 (parsecmd 1000 (Shst mem1 ∅ 1)) ≠ None) as Hok by (vm_compute; discriminate). revert H Hok. destruct (parsecmd 1000 (Shst mem1 ∅ 1)) as [p st|msg|]; cbn [node1]; [|done|done].
  intros (c & Hd & Hl & _) _. by exists c.
Defined.

Definition tab : gmap Z obj := <[0 := Tty]> (<[1 := Tty]> (<[2 := Tty]> ∅)).
Lemma std_tab : std tab.
Proof. split_and!; [by eexists..|]. exists 3, 4. done. Qed.
Lemma typed_lines : Forall typed [line1; line2; line3].
Proof. repeat apply Forall_cons_2; [..|by apply Forall_nil_2]; (split; [by apply (bool_decide_unpack _); vm_compute|vm_compute; discriminate]). Qed.

Lemma sh_runs_lines_witness :
  Session (λ _ _, true) tab [line1; line2; line3] 1 (run (λ _ _, true) (sh_main 1000 4 ∅) (Env tab 1 (text [line1; line2; line3]))) ∧
  run (λ _ _, true) (sh_main 1000 4 ∅) (Env tab 1 (text [line1; line2; line3])) =
    JFork (JFork (JExec (codes "ls") [codes "ls"; codes "-l"] (<[1 := PWrite 2]> tab) (JExit 0))
             (JFork (JExec (codes "wc") [codes "wc"] (<[1 := OFile (codes "out") 1537]> (<[0 := PRead 2]> tab)) (JExit 0)) (JWait (JWait (JExit 0)))))
      (JWait (JChdir (codes "/bin") (JFork (JExit 1) (JWait (JExit 0))))).
Proof.
  split; [|vm_compute; reflexivity]. apply (sh_runs_lines (λ _ _, true) 1000 ∅ tab [line1; line2; line3] 4 1); [lia|apply std_tab|apply typed_lines|cbn; lia].
Defined.
End ShWitness.
