(* ===== verification/Umalloc.v ===== *)
(** * The user allocator: [user/umalloc.c]

    Free blocks are linked in a circle through their headers, in the order of
    their addresses.  A [Header] is 16 bytes: a pointer and a size in units of 16
    bytes. *)

From S2P Require Import Prelude Mem Layout.

Set Default Proof Using "Type".

Definition HDR : Z := 16.

(** A process's memory, [freep], and the end of its memory. *)
Record ust := Ust { u_mem : mem; u_freep : Z; u_brk : Z }.
Definition set_u_mem m s : ust := Ust m (u_freep s) (u_brk s).
Definition set_u_freep p s : ust := Ust (u_mem s) p (u_brk s).

Definition hptr (p : Z) : M ust Z := gets (λ s, ld64 (u_mem s) p).
Definition hsize (p : Z) : M ust Z := gets (λ s, ld32 (u_mem s) (p + 8)).
Definition set_hptr (p v : Z) : M ust unit := modify (λ s, set_u_mem (st64 (u_mem s) p v) s).
Definition set_hsize (p v : Z) : M ust unit := modify (λ s, set_u_mem (st32 (u_mem s) (p + 8) v) s).

Lemma wp_hptr p Q s : wp (hptr p) Q s ↔ Q (ld64 (u_mem s) p) s.
Proof. apply reflexivity. Qed.
Lemma wp_hsize p Q s : wp (hsize p) Q s ↔ Q (ld32 (u_mem s) (p + 8)) s.
Proof. apply reflexivity. Qed.

Section Umalloc.
(** The address of [base], and the system call. *)
Context (base : Z) (sbrk : Z → M ust Z).

(** The loop of [free]; the circle has no more blocks than memory has bytes. *)
Definition free_step (bp p : Z) : M ust (Z + Z) :=
  nxt ← hptr p;
  if (bp >? p) && (bp <? nxt) then mret (inr p) else
  if (p >=? nxt) && ((bp >? p) || (bp <? nxt)) then mret (inr p) else
  mret (inl nxt).

Definition free (ap : Z) : M ust unit :=
  let bp := ap - HDR in
  freep ← gets u_freep;
  brk ← gets u_brk;
  p ← loop (Z.to_nat brk) (free_step bp) freep;
  nxt ← hptr p;
  bsize ← hsize bp;
  (if bp + HDR * bsize =? nxt then
     nsize ← hsize nxt;
     set_hsize bp (u32 (bsize + nsize));;
     nn ← hptr nxt;
     set_hptr bp nn
   else set_hptr bp nxt);;
  psize ← hsize p;
  (if p + HDR * psize =? bp then
     bsize ← hsize bp;
     set_hsize p (u32 (psize + bsize));;
     bn ← hptr bp;
     set_hptr p bn
   else set_hptr p bp);;
  modify (set_u_freep p).

(** The argument of [sbrk] is an [int]. *)
Definition morecore (nu : Z) : M ust Z :=
  let nu := if nu <? 4096 then 4096 else nu in
  p ← sbrk (i32 (nu * HDR));
  if p =? -1 then mret 0 else
  set_hsize p nu;;
  free (p + HDR);;
  gets u_freep.

Definition malloc_step (nunits : Z) (x : Z * Z) : M ust ((Z * Z) + Z) :=
  let '(prevp, p) := x in
  size ← hsize p;
  if size >=? nunits then
    p ← (if size =? nunits then
           nxt ← hptr p;
           set_hptr prevp nxt;;
           mret p
         else
           set_hsize p (size - nunits);;
           let p := p + HDR * (size - nunits) in
           set_hsize p nunits;;
           mret p);
    modify (set_u_freep prevp);;
    mret (inr (p + HDR))
  else
    freep ← gets u_freep;
    p ← (if p =? freep then morecore nunits else mret p);
    if p =? 0 then mret (inr 0) else
    nxt ← hptr p;
    mret (inl (p, nxt)).

Definition malloc (nbytes : Z) : M ust Z :=
  let nunits := u32 ((nbytes + HDR - 1) / HDR + 1) in
  freep ← gets u_freep;
  prevp ← (if freep =? 0 then
             set_hptr base base;;
             modify (set_u_freep base);;
             set_hsize base 0;;
             mret base
           else mret freep);
  p ← hptr prevp;
  brk ← gets u_brk;
  loop (Z.to_nat brk + 8) (malloc_step nunits) (prevp, p).
End Umalloc.

(** ** The circle *)

(** The blocks [L] in memory: each header points to the next, the last to [e]. *)
Fixpoint seg (m : mem) (L : list (Z * Z)) (e : Z) : Prop :=
  match L with
  | [] => True
  | (a, z) :: L' => ld64 m a = match L' with (b, _) :: _ => b | [] => e end ∧ ld32 m (a + 8) = z ∧ seg m L' e
  end.

Definition hd_addr (L : list (Z * Z)) (e : Z) : Z := match L with (b, _) :: _ => b | [] => e end.

Lemma seg_app m L1 L2 e : seg m (L1 ++ L2) e ↔ seg m L1 (hd_addr L2 e) ∧ seg m L2 e.
Proof.
  induction L1 as [|[a z] L1 IH]; cbn; [tauto|]. rewrite IH. destruct L1 as [|[b y] L1]; cbn; tauto.
Qed.
Lemma seg_lookup m L e i a z : seg m L e → L !! i = Some (a, z) → ld64 m a = match L !! S i with Some (b, _) => b | None => e end ∧ ld32 m (a + 8) = z.
Proof.
  induction L as [|[b y] L IH] in i |- *; [done|]. intros (H1 & H2 & H3) E. destruct i as [|i]; [|by apply IH]. injection E as -> ->. cbn. rewrite H1. by destruct L as [|[c x] L].
Qed.

(** What a header reads. *)
Definition same_hdr (m m' : mem) (a : Z) : Prop := ∀ b, a ≤ b < a + 16 → ldb m' b = ldb m b.
Lemma same_hdr_ld m m' a : same_hdr m m' a → ld64 m' a = ld64 m a ∧ ld32 m' (a + 8) = ld32 m (a + 8).
Proof. intros H. split; apply ldn_ext; intros; apply H; lia. Qed.
Lemma seg_frame m m' L e : seg m L e → (∀ a z, (a, z) ∈ L → same_hdr m m' a) → seg m' L e.
Proof.
  induction L as [|[a z] L IH]; [done|]. intros (H1 & H2 & H3) Hs. destruct (same_hdr_ld m m' a) as [E1 E2]; [apply (Hs a z); by left|]. cbn. rewrite E1, E2. split_and!; try done.
  apply IH; [done|]. intros b y Hb. apply (Hs b y). by right.
Qed.

(** Blocks in the order of addresses, between [lo] and [hi]. *)
Fixpoint sorted (lo : Z) (L : list (Z * Z)) (hi : Z) : Prop :=
  match L with [] => lo ≤ hi | (a, z) :: L' => lo ≤ a ∧ 1 ≤ z ∧ sorted (a + 16 * z) L' hi end.
Lemma sorted_le lo L hi : sorted lo L hi → lo ≤ hi.
Proof. induction L as [|[a z] L IH] in lo |- *; cbn; [done|]. intros (? & ? & H%IH). lia. Qed.
Lemma sorted_app lo L1 L2 hi : sorted lo (L1 ++ L2) hi ↔ ∃ mid, sorted lo L1 mid ∧ sorted mid L2 hi.
Proof.
  induction L1 as [|[a z] L1 IH] in lo |- *; cbn.
  - split; [intros H; exists lo; split; [lia|done]|]. intros (mid & Hle & H). destruct L2 as [|[a z] L2]; cbn in *; [lia|]. destruct H as (? & ? & ?). split_and!; try done; lia.
  - rewrite IH. split; [intros (? & ? & mid & ? & ?); by exists mid|]. intros (mid & (? & ? & ?) & ?). split_and!; try done. by exists mid.
Qed.
Lemma sorted_weaken lo lo' L hi hi' : sorted lo L hi → lo' ≤ lo → hi ≤ hi' → sorted lo' L hi'.
Proof. induction L as [|[a z] L IH] in lo, lo' |- *; cbn; [lia|]. intros (? & ? & H) ? ?. split_and!; try lia. by eapply IH. Qed.
Lemma sorted_elem lo L hi a z : sorted lo L hi → (a, z) ∈ L → lo ≤ a ∧ 1 ≤ z ∧ a + 16 * z ≤ hi.
Proof.
  induction L as [|[b y] L IH] in lo |- *; [by intros _ ?%elem_of_nil|]. intros (H1 & H2 & H3) [[= -> ->]|Hin]%elem_of_cons.
  - apply sorted_le in H3. lia.
  - destruct (IH _ H3 Hin) as (? & ? & ?). lia.
Qed.
Lemma sorted_length lo L hi : sorted lo L hi → 16 * Z.of_nat (length L) ≤ hi - lo.
Proof. induction L as [|[a z] L IH] in lo |- *; cbn [sorted length]; [lia|]. intros (? & ? & H%IH). lia. Qed.
