(* ===== verification/UmallocCorrect.v ===== *)
(** * [free] and [malloc] of the user allocator

    [free] puts a block into the circle, joined with its neighbours.  [malloc]
    takes a block out of the circle, or the end of a larger one, and asks the
    kernel for memory when there is none. *)

From S2P Require Import Prelude Mem Layout Umalloc.

Set Default Proof Using "Type".

(** Memory below this fits the sizes of headers. *)
Definition LIMIT : Z := 2 ^ 32.

Definition apart (a z h y : Z) : Prop := a + 16 * z ≤ h ∨ h + 16 * y ≤ a.

Section Free.
Context (base lo : Z).

(** The blocks in the circle [L] and those in use [V], by their headers. *)
Record heap_ok (L : list (Z * Z)) (V : gmap Z Z) (s : ust) : Prop := {
  ho_range : 0 < base ∧ base + 16 ≤ lo ∧ u_brk s ≤ LIMIT;
  ho_sorted : sorted lo L (u_brk s);
  ho_live : ∀ h z, V !! h = Some z → lo ≤ h ∧ 1 ≤ z ∧ h + 16 * z ≤ u_brk s ∧ ld32 (u_mem s) (h + 8) = z;
  ho_disj : ∀ h h' z z', V !! h = Some z → V !! h' = Some z' → h ≠ h' → apart h z h' z';
  ho_apart : ∀ a z h y, (a, z) ∈ L → V !! h = Some y → apart a z h y
}.
Record circle (L : list (Z * Z)) (s : ust) : Prop := {
  ci_seg : seg (u_mem s) ((base, 0) :: L) base;
  ci_freep : ∃ z, (u_freep s, z) ∈ (base, 0) :: L
}.

(** ** Where a block belongs *)

Lemma split_blocks lo' L hi bp z : sorted lo' L hi → (∀ a y, (a, y) ∈ L → apart a y bp z) → 1 ≤ z → lo' ≤ bp → bp + 16 * z ≤ hi →
  ∃ L1 L2, L = L1 ++ L2 ∧ sorted lo' L1 bp ∧ sorted (bp + 16 * z) L2 hi.
Proof.
  induction L as [|[a y] L IH] in lo' |- *; intros Hs Ha Hz Hlo Hhi; [exists [], []; by split_and!|]. destruct Hs as (H1 & H2 & H3). destruct (Ha a y) as [Hle|Hge]; [by left| |].
  - destruct (IH (a + 16 * y)) as (L1 & L2 & -> & S1 & S2); try done; [intros b x Hb; apply Ha; by right|]. exists ((a, y) :: L1), L2. split_and!; done.
  - exists [], ((a, y) :: L). split_and!; [done|done|cbn; split_and!; done].
Qed.

Lemma sorted_next lo' L hi i a z b y : sorted lo' L hi → L !! i = Some (a, z) → L !! S i = Some (b, y) → a + 16 * z ≤ b.
Proof.
  induction L as [|[c x] L IH] in lo', i |- *; [done|]. intros (H1 & H2 & H3) Ea Eb. destruct i as [|i]; [|by eapply IH]. injection Ea as -> ->. destruct L as [|[c' x'] L]; [done|]. injection Eb as -> ->. destruct H3 as (? & ? & ?). lia.
Qed.

Lemma wp_free_step bp p (Q : Z + Z → ust → Prop) s :
  Q (let nxt := ld64 (u_mem s) p in if ((bp >? p) && (bp <? nxt)) || ((p >=? nxt) && ((bp >? p) || (bp <? nxt))) then inr p else inl nxt) s → wp (free_step bp p) Q s.
Proof. unfold free_step, hptr. intros H. repeat wp_step. cbv zeta in H. destruct ((bp >? p) && _); [by wp_step|]. by destruct ((p >=? _) && _); wp_step. Qed.

Section Loop.
Context (P L2 : list (Z * Z)) (m : mem) (bp hi : Z).
(** The circle, with those before [bp] and those behind it. *)
Context (HP : sorted lo P bp) (H2 : sorted (bp + 16) L2 hi) (Hbase : base + 16 ≤ lo) (Hseg : seg m ((base, 0) :: P ++ L2) base).
Notation N := ((base, 0) :: P ++ L2).

Lemma node_S i : N !! S i = (P ++ L2) !! i.
Proof. done. Qed.
Lemma node_low i a z : N !! i = Some (a, z) → (i ≤ length P)%nat → base ≤ a < bp.
Proof using HP Hbase.
  intros E Hi. pose proof (sorted_le _ _ _ HP). destruct i as [|i]; [injection E as <- <-; lia|]. rewrite node_S, lookup_app_l in E by lia. apply list_elem_of_lookup_2 in E. destruct (sorted_elem _ _ _ _ _ HP E) as (? & ? & ?). lia.
Qed.
Lemma node_high i a z : N !! i = Some (a, z) → (length P < i)%nat → bp < a.
Proof using H2.
  intros E Hi. destruct i as [|i]; [lia|]. rewrite node_S, lookup_app_r in E by lia. apply list_elem_of_lookup_2 in E. destruct (sorted_elem _ _ _ _ _ H2 E) as (? & ? & ?). lia.
Qed.
Lemma node_next i a z b y : N !! i = Some (a, z) → N !! S i = Some (b, y) → a < b.
Proof using HP H2 Hbase.
  intros Ea Eb. pose proof (sorted_le _ _ _ HP). destruct (decide (S i ≤ length P)%nat) as [Hi|Hi]; [|destruct (decide (i ≤ length P)%nat)].
  - destruct i as [|i]; [apply (node_low 1) in Eb as ?; [|done]; injection Ea as <- <-; rewrite node_S, lookup_app_l in Eb by lia; apply list_elem_of_lookup_2 in Eb; destruct (sorted_elem _ _ _ _ _ HP Eb) as (? & ? & ?); lia|].
    rewrite node_S, lookup_app_l in Ea, Eb by lia. pose proof (sorted_next _ _ _ _ _ _ _ _ HP Ea Eb). apply list_elem_of_lookup_2 in Ea. destruct (sorted_elem _ _ _ _ _ HP Ea) as (? & ? & ?). lia.
  - pose proof (node_low _ _ _ Ea l). pose proof (node_high _ _ _ Eb ltac:(lia)). lia.
  - destruct i as [|i]; [lia|]. rewrite node_S, lookup_app_r in Ea, Eb by lia. replace (S i - length P)%nat with (S (i - length P)) in Eb by lia.
    pose proof (sorted_next _ _ _ _ _ _ _ _ H2 Ea Eb). apply list_elem_of_lookup_2 in Ea. destruct (sorted_elem _ _ _ _ _ H2 Ea) as (? & ? & ?). lia.
Qed.

Lemma wp_free_loop n : ∀ j q y p pz (s : ust) (Q : Z → ust → Prop), u_mem s = m → N !! j = Some (q, y) → N !! length P = Some (p, pz) →
  ((if decide (j ≤ length P) then length P - j else length N - j + length P) < n)%nat → Q p s → wp (loop n (free_step bp) q) Q s.
Proof using HP H2 Hbase Hseg.
  induction n as [|n IH]; intros j q y p pz s Q Hm Ej Ep Hn HQ; [lia|]. cbn [loop]. wp_step. apply wp_free_step. cbv zeta. rewrite Hm.
  destruct (seg_lookup _ _ _ _ _ _ Hseg Ej) as [-> _]. pose proof (node_low _ _ _ Ep (le_n _)) as Hp. assert (j < length N)%nat as Hj by (by eapply lookup_lt_Some).
  destruct (decide (j ≤ length P)%nat) as [Hle|Hgt].
  - pose proof (node_low _ _ _ Ej Hle) as Hq. destruct (decide (j = length P)) as [->|Hne].
    + rewrite Ep in Ej. injection Ej as <- <-. assert ((bp >? p) = true) as -> by lia. destruct (N !! S (length P)) as [[b x]|] eqn:Eb.
      * pose proof (node_high _ _ _ Eb ltac:(lia)). assert ((bp <? b) = true) as -> by lia. cbn [andb orb]. by wp_step.
      * assert ((bp <? base) = false) as -> by lia. assert ((p >=? base) = true) as -> by lia. cbn [andb orb]. by wp_step.
    + destruct (lookup_lt_is_Some_2 N (S j)) as [[b x] Eb]; [cbn in *; rewrite length_app in *; lia|]. rewrite Eb. pose proof (node_low _ _ _ Eb ltac:(lia)). pose proof (node_next _ _ _ _ _ Ej Eb).
      assert ((bp <? b) = false) as -> by lia. assert ((q >=? b) = false) as -> by lia. rewrite andb_false_r. cbn [andb orb]. eapply (IH (S j)); try done. destruct (decide _); lia.
  - pose proof (node_high _ _ _ Ej ltac:(lia)) as Hq. assert ((bp >? q) = false) as -> by lia. cbn [andb orb]. destruct (N !! S j) as [[b x]|] eqn:Eb.
    + pose proof (node_next _ _ _ _ _ Ej Eb). assert ((q >=? b) = false) as -> by lia. cbn [andb orb]. apply lookup_lt_Some in Eb as Hj'. eapply (IH (S j)); try done. destruct (decide _); lia.
    + assert ((bp <? base) = false) as -> by lia. rewrite andb_false_r. eapply (IH 0%nat); try done. apply lookup_ge_None in Eb. destruct (decide _); lia.
Qed.
End Loop.

(** ** Joining *)

Definition in_blocks (L : list (Z * Z)) (b : Z) : Prop := ∃ a z, (a, z) ∈ L ∧ a ≤ b < a + 16 * z.
Definition in_base (b : Z) : Prop := base ≤ b < base + 16.

Lemma in_blocks_nil b : ¬ in_blocks [] b.
Proof. by intros (a & z & ?%elem_of_nil & _). Qed.
Lemma in_blocks_cons a z L b : in_blocks ((a, z) :: L) b ↔ a ≤ b < a + 16 * z ∨ in_blocks L b.
Proof.
  split; [intros (a' & z' & [[= -> ->]|H]%elem_of_cons & Hb); [by left|right; by exists a', z']|]. intros [H|(a' & z' & H & Hb)]; [exists a, z; split; [by left|done]|exists a', z'; split; [by right|done]].
Qed.
Lemma in_blocks_app L1 L2 b : in_blocks (L1 ++ L2) b ↔ in_blocks L1 b ∨ in_blocks L2 b.
Proof. induction L1 as [|[a z] L1 IH]; cbn; [pose proof (in_blocks_nil b); tauto|]. rewrite !in_blocks_cons, IH. tauto. Qed.

(** What [free] of the block [(bp, z)] makes of the circle [L]. *)
Record freed (L : list (Z * Z)) (s : ust) (bp z : Z) (L' : list (Z * Z)) (s' : ust) : Prop := {
  fr_circle : circle L' s';
  fr_sorted : sorted lo L' (u_brk s);
  fr_brk : u_brk s' = u_brk s;
  fr_blocks : ∀ b, in_blocks L' b ↔ in_blocks L b ∨ bp ≤ b < bp + 16 * z;
  fr_fits : ∃ a y, (a, y) ∈ L' ∧ z ≤ y;
  fr_length : (length L' ≤ S (length L))%nat;
  fr_same : ∀ b, ¬ in_blocks L' b → ¬ in_base b → ldb (u_mem s') b = ldb (u_mem s) b
}.

(** Stores into a header. *)
Lemma st_hdr_out m a v w b : b < a ∨ a + 16 ≤ b → ldb (st64 (st32 m (a + 8) v) a w) b = ldb m b.
Proof. intros H. rewrite !ldb_stn_out by (cbn; lia). done. Qed.
Lemma st_ptr_out m a w b : b < a ∨ a + 16 ≤ b → ldb (st64 m a w) b = ldb m b.
Proof. intros H. by rewrite ldb_stn_out by (cbn; lia). Qed.
Lemma st_hdr_ld m a v w : 0 ≤ v < 2 ^ 32 → 0 ≤ w < 2 ^ 64 → ld64 (st64 (st32 m (a + 8) v) a w) a = w ∧ ld32 (st64 (st32 m (a + 8) v) a w) (a + 8) = v.
Proof.
  intros Hv Hw. split; [by apply ld64_st64_eq|]. rewrite ldn_stn_ne by (cbn; lia). by apply ld32_st32_eq.
Qed.
Lemma st_ptr_ld m a w : 0 ≤ w < 2 ^ 64 → ld64 (st64 m a w) a = w ∧ ld32 (st64 m a w) (a + 8) = ld32 m (a + 8).
Proof. intros Hw. split; [by apply ld64_st64_eq|]. by rewrite ldn_stn_ne by (cbn; lia). Qed.

(** [if(bp + bp->s.size == p->s.ptr)]: the block with what follows it. *)
Lemma wp_join_right L2 bp z nxt hi s (Q : unit → ust → Prop) :
  seg (u_mem s) L2 base → nxt = hd_addr L2 base → sorted (bp + 16 * z) L2 hi → hi ≤ LIMIT → 0 < base → base + 16 ≤ bp → 1 ≤ z → ld32 (u_mem s) (bp + 8) = z →
  (∀ L2' z1 m', sorted (bp + 16 * z1) L2' hi → z ≤ z1 → ld64 m' bp = hd_addr L2' base → ld32 m' (bp + 8) = z1 → seg m' L2' base → (length L2' ≤ length L2)%nat →
     (∀ b, (bp ≤ b < bp + 16 * z1 ∨ in_blocks L2' b) ↔ bp ≤ b < bp + 16 * z ∨ in_blocks L2 b) → (∀ b, b < bp ∨ bp + 16 ≤ b → ldb m' b = ldb (u_mem s) b) → Q tt (set_u_mem m' s)) →
  wp (if bp + HDR * z =? nxt then nsize ← hsize nxt; set_hsize bp (u32 (z + nsize));; nn ← hptr nxt; set_hptr bp nn else set_hptr bp nxt) Q s.
Proof.
  intros Hseg -> Hs Hhi Hb0 Hbb Hz Hld HQ. unfold LIMIT in Hhi. assert (∀ L, sorted (bp + 16) L hi → 0 ≤ hd_addr L base < 2 ^ 64) as Hrange.
  { intros L HL. pose proof (sorted_le _ _ _ HL). destruct L as [|[a y] L]; cbn [hd_addr]; [lia|]. destruct HL as (? & ? & HL%sorted_le). lia. }
  pose proof (sorted_le _ _ _ Hs) as Hle. unfold HDR, hsize, set_hsize, hptr, set_hptr. destruct (Z.eqb_spec (bp + 16 * z) (hd_addr L2 base)) as [E|Hne].
  - destruct L2 as [|[b zb] L2]; cbn [hd_addr] in *; [lia|]. subst b. destruct Hseg as (Hp & Hsz & Hseg). destruct Hs as (_ & Hzb & Hs). pose proof (sorted_le _ _ _ Hs) as Hle'. fold (hd_addr L2 base) in Hp.
    repeat wp_step. cbn [u_mem set_u_mem]. rewrite Hsz. assert (ld64 (st32 (u_mem s) (bp + 8) (u32 (z + zb))) (bp + 16 * z) = hd_addr L2 base) as ->.
    { rewrite ldn_stn_ne by (cbn; lia). exact Hp. }
    rewrite u32_small by lia. assert (sorted (bp + 16) L2 hi) as Hs16 by (eapply sorted_weaken; [done|lia|lia]). destruct (st_hdr_ld (u_mem s) bp (z + zb) (hd_addr L2 base)) as [E1 E2]; [lia|by apply Hrange|].
    apply (HQ L2 (z + zb)); try done; [by replace (bp + 16 * (z + zb)) with (bp + 16 * z + 16 * zb) by lia|lia| |cbn; lia| |intros; by apply st_hdr_out].
    + eapply seg_frame; [done|]. intros a y Ha b Hb. apply st_hdr_out. destruct (sorted_elem _ _ _ _ _ Hs Ha) as (? & ? & ?). lia.
    + intros b. rewrite in_blocks_cons. split; [intros [?|?]; [destruct (decide (b < bp + 16 * z)); [left|right; left]; lia|right; by right]|intros [?|[?|?]]; [left; lia|left; lia|by right]].
  - assert (sorted (bp + 16) L2 hi) as Hs16 by (eapply sorted_weaken; [done|lia|lia]). wp_step. destruct (st_ptr_ld (u_mem s) bp (hd_addr L2 base) (Hrange _ Hs16)) as [E1 E2].
    apply (HQ L2 z); try done; [by rewrite E2| |intros; by apply st_ptr_out]. eapply seg_frame; [done|]. intros a y Ha b Hb. apply st_ptr_out. destruct (sorted_elem _ _ _ _ _ Hs16 Ha) as (? & ? & ?). lia.
Qed.

(** The last block before [bp], or [base]. *)
Lemma last_before L1 bp : sorted lo L1 bp → base + 16 ≤ lo →
  ∃ A p pz, (base, 0) :: L1 = A ++ [(p, pz)] ∧ p + 16 ≤ bp ∧ p + 16 * pz ≤ bp ∧ (∀ a y, (a, y) ∈ A → a + 16 ≤ p) ∧
    (A = [] ∧ p = base ∧ pz = 0 ∧ L1 = [] ∨ ∃ A', A = (base, 0) :: A' ∧ L1 = A' ++ [(p, pz)] ∧ lo ≤ p ∧ 1 ≤ pz ∧ sorted lo A' p).
Proof.
  intros Hs Hb. destruct L1 as [|x L1] using rev_ind.
  - apply sorted_le in Hs. exists [], base, 0. split_and!; try done; [lia|lia|by intros ? ? ?%elem_of_nil|by left].
  - clear IHL1. destruct x as [p pz]. apply sorted_app in Hs as (mid & S1 & (H1 & H2 & H3)). cbn in H3. pose proof (sorted_le _ _ _ S1). assert (sorted lo L1 p) as S1' by (eapply sorted_weaken; [done|lia|lia]).
    exists ((base, 0) :: L1), p, pz. split_and!; [done|lia|lia| |right; exists L1; split_and!; (done || lia)].
    intros a y [[= -> ->]|Ha]%elem_of_cons; [lia|]. destruct (sorted_elem _ _ _ _ _ S1' Ha) as (? & ? & ?). lia.
Qed.

(** [if(p + p->s.size == bp)]: what precedes the block with the block. *)
Lemma wp_join_left L1 L2 bp z hi s (Q : unit → ust → Prop) A p pz :
  sorted lo L1 bp → base + 16 ≤ lo → 0 < base → hi ≤ LIMIT → (base, 0) :: L1 = A ++ [(p, pz)] → seg (u_mem s) A p → ld32 (u_mem s) (p + 8) = pz →
  ld64 (u_mem s) bp = hd_addr L2 base → ld32 (u_mem s) (bp + 8) = z → 1 ≤ z → seg (u_mem s) L2 base → sorted (bp + 16 * z) L2 hi →
  (∀ L' m', sorted lo L' hi → seg m' ((base, 0) :: L') base → (∃ y, (p, y) ∈ (base, 0) :: L') → (∃ a y, (a, y) ∈ L' ∧ z ≤ y) → (length L' ≤ S (length L1 + length L2))%nat →
     (∀ b, in_blocks L' b ↔ in_blocks L1 b ∨ bp ≤ b < bp + 16 * z ∨ in_blocks L2 b) → (∀ b, b < p ∨ p + 16 ≤ b → ldb m' b = ldb (u_mem s) b) → Q tt (set_u_mem m' s)) →
  wp (if p + HDR * pz =? bp then bsize ← hsize bp; set_hsize p (u32 (pz + bsize));; bn ← hptr bp; set_hptr p bn else set_hptr p bp) Q s.
Proof.
  intros Hs1 Hb Hb0 Hhi EA HA Hpz Hnx Hsz Hz Hseg2 Hs2 HQ. unfold LIMIT in Hhi. destruct (last_before L1 bp Hs1 Hb) as (A0 & p0 & pz0 & E0 & Hp & Hpz' & HlowA & Hcase).
  rewrite EA in E0. apply app_inj_tail in E0 as [<- [= <- <-]]. pose proof (sorted_le _ _ _ Hs2) as Hle2. assert (0 ≤ hd_addr L2 base < 2 ^ 64) as Hrange.
  { pose proof (sorted_le _ _ _ Hs1). destruct L2 as [|[a y] L2]; cbn [hd_addr]; [lia|]. destruct Hs2 as (? & ? & ?%sorted_le). lia. }
  assert (∀ m', (∀ b, b < p ∨ p + 16 ≤ b → ldb m' b = ldb (u_mem s) b) → seg m' A p ∧ seg m' L2 base ∧ ld64 m' bp = hd_addr L2 base ∧ ld32 m' (bp + 8) = z) as Hframe.
  { intros m' Hm'. split; [|split].
    - eapply seg_frame; [done|]. intros a y Ha b Hb'. apply Hm'. specialize (HlowA a y Ha). lia.
    - eapply seg_frame; [done|]. intros a y Ha b Hb'. apply Hm'. destruct (sorted_elem _ _ _ _ _ Hs2 Ha) as (? & ? & ?). lia.
    - destruct (same_hdr_ld (u_mem s) m' bp) as [-> ->]; [intros b Hb'; apply Hm'; lia|done]. }
  unfold HDR, hsize, set_hsize, hptr, set_hptr. destruct (Z.eqb_spec (p + 16 * pz) bp) as [E|Hne].
  - destruct Hcase as [(_ & -> & -> & _)|(A' & -> & -> & Hlop & Hpz1 & SA')]; [lia|]. repeat wp_step. cbn [u_mem set_u_mem]. rewrite Hsz.
    assert (ld64 (st32 (u_mem s) (p + 8) (u32 (pz + z))) bp = hd_addr L2 base) as ->. { rewrite ldn_stn_ne by (cbn; lia). exact Hnx. }
    rewrite u32_small by lia. destruct (st_hdr_ld (u_mem s) p (pz + z) (hd_addr L2 base)) as [E1 E2]; [lia|done|]. set (m' := st64 _ p _) in *.
    destruct (Hframe m' ltac:(intros; by apply st_hdr_out)) as (FA & F2 & _ & _). apply (HQ (A' ++ (p, pz + z) :: L2) m').
    + apply sorted_app. exists p. split; [done|]. cbn. split_and!; [lia|lia|]. by replace (p + 16 * (pz + z)) with (bp + 16 * z) by lia.
    + apply (seg_app m' ((base, 0) :: A') ((p, pz + z) :: L2)). split; [done|]. cbn. split_and!; try done. 
    + exists (pz + z). rewrite elem_of_cons, elem_of_app, elem_of_cons. auto.
    + exists p, (pz + z). split; [rewrite elem_of_app, elem_of_cons; auto|lia].
    + rewrite !length_app. cbn. lia.
    + intros b. rewrite !in_blocks_app, !in_blocks_cons. pose proof (in_blocks_nil b). split; [intros [?|[?|?]]; [auto| |auto]|intros [[?|[?|?]]|[?|?]]; [auto| |done| |auto]].
      * destruct (decide (b < bp)); [left; right; left; lia|right; left; lia].
      * right; left; lia.
      * right; left; lia.
    + intros b Hb'. by apply st_hdr_out.
  - wp_step. pose proof (sorted_le _ _ _ Hs1). destruct (st_ptr_ld (u_mem s) p bp) as [E1 E2]; [lia|]. set (m' := st64 _ p _) in *.
    destruct (Hframe m' ltac:(intros; by apply st_ptr_out)) as (FA & F2 & F3 & F4). apply (HQ (L1 ++ (bp, z) :: L2) m').
    + apply sorted_app. exists bp. split; [done|]. cbn. split_and!; [lia|done|done].
    + change ((base, 0) :: L1 ++ (bp, z) :: L2) with (((base, 0) :: L1) ++ (bp, z) :: L2). rewrite EA, <-app_assoc. cbn [app]. apply seg_app. split; [done|]. cbn. split_and!; try done. by rewrite E2.
    + exists pz. change ((base, 0) :: L1 ++ (bp, z) :: L2) with (((base, 0) :: L1) ++ (bp, z) :: L2). rewrite EA, !elem_of_app. left; right. by left.
    + exists bp, z. split; [rewrite elem_of_app, elem_of_cons; auto|lia].
    + rewrite !length_app. cbn. lia.
    + intros b. rewrite in_blocks_app, in_blocks_cons. tauto.
    + intros b Hb'. by apply st_ptr_out.
Qed.


(** ** [free] *)

Lemma wp_free L s bp z (Q : unit → ust → Prop) :
  circle L s → sorted lo L (u_brk s) → u_brk s ≤ LIMIT → 0 < base → base + 16 ≤ lo →
  (∀ a y, (a, y) ∈ L → apart a y bp z) → 1 ≤ z → lo ≤ bp → bp + 16 * z ≤ u_brk s → ld32 (u_mem s) (bp + 8) = z →
  (∀ L' s', freed L s bp z L' s' → Q tt s') → wp (free (bp + HDR)) Q s.
Proof.
  intros [Hseg [y0 Hfp]] Hs Hlim Hb0 Hb Hap Hz Hlo Hhi Hld HQ. destruct (split_blocks _ _ _ _ _ Hs Hap Hz Hlo Hhi) as (L1 & L2 & -> & S1 & S2).
  assert (sorted (bp + 16) L2 (u_brk s)) as S2' by (eapply sorted_weaken; [done|lia|lia]). destruct (last_before L1 bp S1 Hb) as (A & p & pz & EA & Hp & Hppz & HlowA & _).
  change ((base, 0) :: L1 ++ L2) with (((base, 0) :: L1) ++ L2) in Hseg. rewrite EA in Hseg. pose proof Hseg as Hseg0. rewrite <-EA in Hseg0. cbn [app] in Hseg0.
  rewrite <-app_assoc in Hseg. apply seg_app in Hseg as [HA (Hpn & Hpsz & Hseg2)]. cbn [hd_addr] in HA. fold (hd_addr L2 base) in Hpn.
  unfold free. do 4 wp_step. replace (bp + HDR - HDR) with bp by lia. rewrite wp_bind. apply list_elem_of_lookup_1 in Hfp as [j Ej].
  assert (((base, 0) :: L1 ++ L2) !! length L1 = Some (p, pz)) as Ep.
  { change ((base, 0) :: L1 ++ L2) with (((base, 0) :: L1) ++ L2). rewrite EA, <-app_assoc. cbn [app]. apply list_lookup_middle. apply (f_equal length) in EA. rewrite length_app in EA. cbn in EA. lia. }
  pose proof (sorted_length _ _ _ Hs) as Hlen. rewrite length_app in Hlen. pose proof (sorted_le _ _ _ Hs). apply lookup_lt_Some in Ej as Hj.
  eapply (wp_free_loop L1 L2 (u_mem s) bp (u_brk s) S1 S2' Hb Hseg0); [done|exact Ej|exact Ep|cbn in *; rewrite length_app in *; destruct (decide _); lia|].
  rewrite wp_bind, wp_hptr, wp_bind, wp_hsize, Hpn, Hld. wp_step.
  apply (wp_join_right L2 bp z _ (u_brk s)); try done; [lia|]. intros L2' z1 m1 S2'' Hz1 Hn1 Hsz1 Hseg2' Hlen2 Hblk Hm1. rewrite wp_bind, wp_hsize, wp_bind.
  assert (seg m1 A p ∧ ld32 m1 (p + 8) = pz) as [HA1 Hpz1].
  { split; [eapply seg_frame; [done|]; intros a y Ha b Hb'; apply Hm1; specialize (HlowA a y Ha); lia|]. destruct (same_hdr_ld (u_mem s) m1 p) as [_ ->]; [intros b Hb'; apply Hm1; lia|done]. }
  cbn [u_mem set_u_mem]. rewrite Hpz1. apply (wp_join_left L1 L2' bp z1 (u_brk s) _ _ A); try done; [lia|].
  intros L' m2 SL Hseg' Hin Hfit Hl' Hblk2 Hm2. wp_step. apply (HQ L'). split; cbn [u_mem u_freep u_brk set_u_mem set_u_freep]; try done.
  - intros b. rewrite Hblk2, in_blocks_app. specialize (Hblk b). tauto.
  - destruct Hfit as (a & y & Ha & Hy). exists a, y. split; [done|lia].
  - rewrite length_app. lia.
  - intros b Hnb Hnbase. rewrite Hblk2 in Hnb. specialize (Hblk b). assert (b < bp ∨ bp + 16 ≤ b) as Hob by (destruct (decide (bp ≤ b < bp + 16 * z1)); [tauto|lia]).
    assert (b < p ∨ p + 16 ≤ b) as Hop; [|cbn in Hm2; by rewrite Hm2, Hm1]. destruct (last_before L1 bp S1 Hb) as (A0 & p0 & pz0 & E0 & _ & _ & _ & Hcase). rewrite EA in E0. apply app_inj_tail in E0 as [<- [= <- <-]].
    unfold in_base in Hnbase. destruct Hcase as [(_ & -> & _)|(A' & _ & -> & Hlop & Hpz & _)]; [lia|]. assert (¬ (p ≤ b < p + 16 * pz)); [|lia]. intros Hin'. apply Hnb. left. apply in_blocks_app. right. apply in_blocks_cons. by left.
Qed.
End Free.

(** ** [malloc] *)

Section Alloc.
Context (base lo : Z) (sbrk : Z → M ust Z).
Notation circle := (circle base).
Notation in_base := (in_base base).

(** What [sbrk] promises: it fails and changes nothing, or it adds the bytes asked
    for at the end of memory and returns where they begin. *)
Definition sbrk_ok : Prop :=
  ∀ n s, 0 ≤ n < 2 ^ 31 → wp (sbrk n) (λ r s', (r = -1 ∧ s' = s) ∨
    (r = u_brk s ∧ u_brk s' = u_brk s + n ∧ u_brk s' ≤ LIMIT ∧ u_freep s' = u_freep s ∧ ∀ b, b < u_brk s → ldb (u_mem s') b = ldb (u_mem s) b)) s.
Context (Hsbrk : sbrk_ok).
Context (Hb0 : 0 < base) (Hb : base + 16 ≤ lo).

(** ** [morecore] *)

Record more (L : list (Z * Z)) (s : ust) (nu : Z) (L' : list (Z * Z)) (s' : ust) : Prop := {
  mo_circle : circle L' s';
  mo_sorted : sorted lo L' (u_brk s');
  mo_brk : u_brk s ≤ u_brk s' ≤ LIMIT;
  mo_blocks : ∀ b, in_blocks L' b ↔ in_blocks L b ∨ u_brk s ≤ b < u_brk s';
  mo_fits : ∃ a y, (a, y) ∈ L' ∧ nu ≤ y;
  mo_length : (length L' ≤ S (length L))%nat;
  mo_same : ∀ b, b < u_brk s → ¬ in_blocks L' b → ¬ in_base b → ldb (u_mem s') b = ldb (u_mem s) b
}.

Lemma wp_morecore L s nu (Q : Z → ust → Prop) :
  circle L s → sorted lo L (u_brk s) → 1 ≤ nu → 16 * nu < 2 ^ 31 → Q 0 s → (∀ L' s', more L s nu L' s' → Q (u_freep s') s') → wp (morecore sbrk nu) Q s.
Proof using Hsbrk Hb0 Hb.
  intros [Hseg [y0 Hfp]] Hs Hnu Hnu' H0 HQ. unfold morecore. set (nu' := if nu <? 4096 then 4096 else nu). assert (nu ≤ nu' ∧ 16 * nu' < 2 ^ 31) as [Hle Hlt] by (unfold nu'; destruct (Z.ltb_spec nu 4096); lia).
  unfold HDR. wp_step. rewrite i32_small by lia. eapply wp_mono; [apply Hsbrk; lia|]. pose proof (sorted_le _ _ _ Hs) as Hlb. intros r s1 [[-> ->]|(-> & Ebrk & Hlim & Efp & Hold)]; [change (-1 =? -1) with true; cbv iota; by rewrite wp_ret|].
  assert ((u_brk s =? -1) = false) as -> by lia. unfold set_hsize. wp_step. wp_step. wp_step. set (bp := u_brk s) in *. set (m2 := st32 (u_mem s1) (bp + 8) nu').
  assert (∀ b, b < bp → ldb m2 b = ldb (u_mem s) b) as Hm2. { intros b Hb'. unfold m2. rewrite ldb_stn_out by (cbn; lia). by apply Hold. }
  apply (wp_free base lo L _ bp nu'); cbn [u_mem u_brk u_freep set_u_mem].
  - split; cbn [u_mem u_freep set_u_mem]; [|exists y0; by rewrite Efp]. eapply seg_frame; [exact Hseg|]. intros a z Ha b Hb'. apply Hm2. apply elem_of_cons in Ha as [[= -> ->]|Ha]; [lia|]. destruct (sorted_elem _ _ _ _ _ Hs Ha) as (? & ? & ?). lia.
  - eapply sorted_weaken; [done|lia|lia].
  - done.
  - done.
  - done.
  - intros a y Ha. destruct (sorted_elem _ _ _ _ _ Hs Ha) as (? & ? & ?). left. lia.
  - lia.
  - lia.
  - lia.
  - unfold m2. rewrite ld32_st32_eq; [done|]. lia.
  - intros L' s' [F1 F2 F3 F4 F5 F6 F7]. cbn in F2, F3, F7. wp_step. apply (HQ L'). split; try done.
    + by rewrite F3.
    + rewrite F3. lia.
    + intros b. rewrite F4, F3, Ebrk. split; (intros [?|?]; [by left|right; lia]).
    + destruct F5 as (a & y & Ha & Hy). exists a, y. split; [done|lia].
    + intros b Hlt' Hnb Hnbase. rewrite F7 by done. by apply Hm2.
Qed.

(** ** A block is taken *)

Record carved (L : list (Z * Z)) (s : ust) (n h : Z) (L' : list (Z * Z)) (s' : ust) : Prop := {
  cv_circle : circle L' s';
  cv_sorted : sorted lo L' (u_brk s);
  cv_brk : u_brk s' = u_brk s;
  cv_blocks : ∀ b, in_blocks L b ↔ in_blocks L' b ∨ h ≤ b < h + 16 * n;
  cv_taken : ∀ b, h ≤ b < h + 16 * n → ¬ in_blocks L' b;
  cv_range : lo ≤ h ∧ h + 16 * n ≤ u_brk s ∧ ld32 (u_mem s') (h + 8) = n;
  cv_same : ∀ b, ¬ in_blocks L b → ¬ in_base b → ldb (u_mem s') b = ldb (u_mem s) b
}.

(** [A] and [B] are around [p]; [q] precedes [p]. *)
Lemma wp_take A B p z q n s (Q : (Z * Z) + Z → ust → Prop) :
  seg (u_mem s) ((base, 0) :: A ++ (p, z) :: B) base → sorted lo (A ++ (p, z) :: B) (u_brk s) → u_brk s ≤ LIMIT → ((base, 0) :: A) !! length A = Some q → 1 ≤ n ≤ z →
  (∀ L' s' h, carved (A ++ (p, z) :: B) s n h L' s' → Q (inr (h + HDR)) s') →
  wp (p ← (if z =? n then nxt ← hptr p; set_hptr q.1 nxt;; mret p
           else set_hsize p (z - n);; let p := p + HDR * (z - n) in set_hsize p n;; mret p);
      modify (set_u_freep q.1);; mret (inr (p + HDR))) Q s.
Proof using Hb0 Hb.
  intros Hseg Hs Hlim Hq Hn HQ. unfold LIMIT in Hlim. pose proof Hs as Hs0. apply sorted_app in Hs as (mid & SA & (Hmid & Hz & SB)). pose proof (sorted_le _ _ _ SA) as HA. pose proof (sorted_le _ _ _ SB) as HB.
  assert (sorted lo A p) as SA' by (eapply sorted_weaken; [done|lia|lia]). destruct (last_before base lo A p SA' Hb) as (A0 & q0 & qz & EA & Hq16 & Hqz & HlowA & Hcase).
  assert (q = (q0, qz)) as ->. { rewrite EA in Hq. assert (length A = length A0) as E by (apply (f_equal length) in EA; rewrite length_app in EA; cbn in EA; lia). rewrite E, list_lookup_middle in Hq by done. by injection Hq as <-. }
  change ((base, 0) :: A ++ (p, z) :: B) with (((base, 0) :: A) ++ (p, z) :: B) in Hseg. rewrite EA, <-app_assoc in Hseg. apply seg_app in Hseg as [HsA (Hqn & Hqs & Hpn & Hps & HsB)]. cbn [hd_addr app] in HsA, Hqn. fold (hd_addr B base) in Hpn.
  assert (0 ≤ hd_addr B base < 2 ^ 64) as Hrange. { destruct B as [|[a y] B]; cbn [hd_addr]; [lia|]. destruct SB as (? & ? & ?%sorted_le). lia. }
  assert (¬ in_base q0 ∨ q0 = base ∧ qz = 0) as Hqb by (destruct Hcase as [(_ & -> & -> & _)|(A' & _ & _ & ? & _)]; [by right|left; unfold UmallocCorrect.in_base; lia]).
  assert (∀ b, q0 ≤ b < q0 + 16 → in_blocks A b ∨ in_base b) as Hqin.
  { intros b Hb'. destruct Hcase as [(_ & -> & _)|(A' & _ & -> & ? & ? & _)]; [by right|left]. apply in_blocks_app. right. apply in_blocks_cons. left. lia. }
  unfold hptr, set_hptr, set_hsize, HDR. cbn [fst]. destruct (Z.eqb_spec z n) as [<-|Hne].
  - do 8 wp_step. rewrite Hpn. set (m' := st64 (u_mem s) q0 (hd_addr B base)). destruct (st_ptr_ld (u_mem s) q0 _ Hrange) as [E1 E2]. fold m' in E1, E2.
    apply (HQ (A ++ B) _ p). split; cbn [u_mem u_brk u_freep set_u_mem set_u_freep]; try done.
    + split; cbn [u_mem u_freep set_u_mem set_u_freep]; [|exists qz; change ((base, 0) :: A ++ B) with (((base, 0) :: A) ++ B); rewrite EA, !elem_of_app; left; right; by left].
      change ((base, 0) :: A ++ B) with (((base, 0) :: A) ++ B). rewrite EA, <-app_assoc. apply seg_app. split; [|cbn; split_and!; [done|by rewrite E2|]].
      * eapply seg_frame; [done|]. intros a y Ha b Hb'. apply st_ptr_out. specialize (HlowA a y Ha). lia.
      * eapply seg_frame; [done|]. intros a y Ha b Hb'. apply st_ptr_out. destruct (sorted_elem _ _ _ _ _ SB Ha) as (? & ? & ?). lia.
    + apply sorted_app. exists p. split; [done|]. eapply sorted_weaken; [done|lia|lia].
    + intros b. rewrite !in_blocks_app, in_blocks_cons. tauto.
    + intros b Hb'. rewrite in_blocks_app. intros [(a & y & Ha & ?)|(a & y & Ha & ?)]; [destruct (sorted_elem _ _ _ _ _ SA' Ha) as (? & ? & ?)|destruct (sorted_elem _ _ _ _ _ SB Ha) as (? & ? & ?)]; lia.
    + split_and!; [lia|lia|]. destruct (same_hdr_ld (u_mem s) m' p) as [_ ->]; [intros b Hb'; apply st_ptr_out; lia|done].
    + intros b Hnb Hnbase. apply st_ptr_out. destruct (decide (q0 ≤ b < q0 + 16)) as [Hin|]; [|lia]. destruct (Hqin b Hin) as [?|?]; [|done]. destruct Hnb. apply in_blocks_app. by left.
  - do 8 wp_step. cbn [u_mem set_u_mem]. set (h := p + 16 * (z - n)). set (m' := st32 (st32 (u_mem s) (p + 8) (z - n)) (h + 8) n). assert (p + 16 ≤ h) as Hph by lia.
    assert (∀ b, b < p ∨ p + 16 * z ≤ b → ldb m' b = ldb (u_mem s) b) as Hm' by (intros b Hb'; unfold m'; rewrite !ldb_stn_out by (cbn; lia); done).
    assert (ld64 m' p = hd_addr B base ∧ ld32 m' (p + 8) = z - n ∧ ld32 m' (h + 8) = n) as (E1 & E2 & E3).
    { unfold m'. rewrite (ldn_stn_ne 8 4), (ldn_stn_ne 8 4), (ldn_stn_ne 4 4), !ld32_st32_eq by (cbn; lia). done. }
    apply (HQ (A ++ (p, z - n) :: B) _ h). split; cbn [u_mem u_brk u_freep set_u_mem set_u_freep]; try done.
    + split; cbn [u_mem u_freep set_u_mem set_u_freep]; [|exists qz; change ((base, 0) :: A ++ (p, z - n) :: B) with (((base, 0) :: A) ++ (p, z - n) :: B); rewrite EA, !elem_of_app; left; right; by left].
      change ((base, 0) :: A ++ (p, z - n) :: B) with (((base, 0) :: A) ++ (p, z - n) :: B). rewrite EA, <-app_assoc. apply seg_app. split; [|cbn; split_and!; try done].
      * eapply seg_frame; [done|]. intros a y Ha b Hb'. apply Hm'. specialize (HlowA a y Ha). lia.
      * destruct (same_hdr_ld (u_mem s) m' q0) as [-> _]; [intros b Hb'; apply Hm'; lia|done].
      * destruct (same_hdr_ld (u_mem s) m' q0) as [_ ->]; [intros b Hb'; apply Hm'; lia|done].
      * eapply seg_frame; [done|]. intros a y Ha b Hb'. apply Hm'. destruct (sorted_elem _ _ _ _ _ SB Ha) as (? & ? & ?). lia.
    + apply sorted_app. exists p. split; [done|]. cbn. split_and!; [lia|lia|]. eapply sorted_weaken; [done|lia|lia].
    + intros b. rewrite !in_blocks_app, !in_blocks_cons. split; [intros [?|[?|?]]; [auto| |auto]|intros [[?|[?|?]]|?]; [auto| |auto|]]; [destruct (decide (b < h)); [left; right; left|right]; lia|right; left; lia|right; left; lia].
    + intros b Hb'. rewrite in_blocks_app, in_blocks_cons. intros [(a & y & Ha & ?)|[?|(a & y & Ha & ?)]]; [destruct (sorted_elem _ _ _ _ _ SA' Ha) as (? & ? & ?)| |destruct (sorted_elem _ _ _ _ _ SB Ha) as (? & ? & ?)]; lia.
    + split_and!; [lia|lia|done].
    + intros b Hnb Hnbase. apply Hm'. destruct (decide (p ≤ b < p + 16 * z)); [|lia]. destruct Hnb. apply in_blocks_app. right. apply in_blocks_cons. by left.
Qed.

(** ** The loop *)

Lemma sorted_lt lo' L hi i j a z b y : sorted lo' L hi → (i < j)%nat → L !! i = Some (a, z) → L !! j = Some (b, y) → a < b.
Proof.
  induction L as [|[c x] L IH] in lo', i, j |- *; [done|]. intros (H1 & H2 & H3) Hij Ea Eb. destruct j as [|j]; [lia|]. destruct i as [|i]; [|apply (IH (c + 16 * x) i j); (done || lia)].
  injection Ea as -> ->. apply (list_elem_of_lookup_2 L j) in Eb. destruct (sorted_elem _ _ _ _ _ H3 Eb) as (? & ? & ?). lia.
Qed.
Lemma circle_lt L hi i j a z b y : sorted lo L hi → (i < j)%nat → ((base, 0) :: L) !! i = Some (a, z) → ((base, 0) :: L) !! j = Some (b, y) → a < b.
Proof using Hb.
  intros Hs Hij Ea Eb. destruct j as [|j]; [lia|]. destruct i as [|i]; [|apply (sorted_lt lo L hi i j a z b y); (done || lia)].
  injection Ea as <- <-. apply (list_elem_of_lookup_2 L j) in Eb. destruct (sorted_elem _ _ _ _ _ Hs Eb) as (? & ? & ?). lia.
Qed.
Lemma circle_inj L hi i j a z y : sorted lo L hi → ((base, 0) :: L) !! i = Some (a, z) → ((base, 0) :: L) !! j = Some (a, y) → i = j.
Proof using Hb.
  intros Hs Ei Ej. destruct (Nat.lt_trichotomy i j) as [H|[H|H]]; [|done|].
  - pose proof (circle_lt _ _ _ _ _ _ _ _ Hs H Ei Ej). lia.
  - pose proof (circle_lt _ _ _ _ _ _ _ _ Hs H Ej Ei). lia.
Qed.
Lemma circle_pos L hi i a z : sorted lo L hi → ((base, 0) :: L) !! i = Some (a, z) → 0 < a.
Proof using Hb0 Hb. intros Hs E. destruct i as [|i]; [injection E as <- <-; lia|]. apply (list_elem_of_lookup_2 L i) in E. destruct (sorted_elem _ _ _ _ _ Hs E) as (? & ? & ?). lia. Qed.

Lemma wp_step_take L s j q p z n (Q : (Z * Z) + Z → ust → Prop) :
  circle L s → sorted lo L (u_brk s) → u_brk s ≤ LIMIT → ((base, 0) :: L) !! j = Some q → L !! j = Some (p, z) → 1 ≤ n ≤ z →
  (∀ L' s' h, carved L s n h L' s' → Q (inr (h + HDR)) s') → wp (malloc_step sbrk n (q.1, p)) Q s.
Proof using Hb0 Hb.
  intros [Hseg _] Hs Hlim Eq Ep Hn HQ. destruct (seg_lookup _ _ _ (S j) p z Hseg Ep) as [_ Hsz]. unfold malloc_step. rewrite wp_bind, wp_hsize, Hsz. assert ((z >=? n) = true) as -> by lia.
  pose proof (take_drop_middle L j (p, z) Ep) as EL. rewrite <-EL in Hseg, Hs, HQ. assert (length (take j L) = j) as Hlen by (apply length_take_le; apply lookup_lt_Some in Ep; lia).
  apply (wp_take (take j L) (drop (S j) L)); try done. rewrite Hlen. destruct j as [|j]; [done|]. cbn. change (((base, 0) :: L) !! S j) with (L !! j) in Eq. rewrite <-Eq. apply lookup_take_lt. lia.
Qed.
Lemma wp_step_next s q p n (Q : (Z * Z) + Z → ust → Prop) :
  ld32 (u_mem s) (p + 8) < n → p ≠ u_freep s → p ≠ 0 → Q (inl (p, ld64 (u_mem s) p)) s → wp (malloc_step sbrk n (q, p)) Q s.
Proof.
  intros Hsz Hp Hp0 HQ. unfold malloc_step. rewrite wp_bind, wp_hsize. assert ((ld32 (u_mem s) (p + 8) >=? n) = false) as -> by lia. do 2 wp_step. rewrite (proj2 (Z.eqb_neq _ _) Hp). do 2 wp_step.
  rewrite (proj2 (Z.eqb_neq _ _) Hp0). rewrite wp_bind, wp_hptr. by wp_step.
Qed.
Lemma wp_step_more L s q n (Q : (Z * Z) + Z → ust → Prop) :
  circle L s → sorted lo L (u_brk s) → 1 ≤ n → 16 * n < 2 ^ 31 → ld32 (u_mem s) (u_freep s + 8) < n → Q (inr 0) s →
  (∀ L' s', more L s n L' s' → Q (inl (u_freep s', ld64 (u_mem s') (u_freep s'))) s') → wp (malloc_step sbrk n (q, u_freep s)) Q s.
Proof using Hsbrk Hb0 Hb.
  intros Hc Hs Hn1 Hn2 Hsz H0 HQ. unfold malloc_step. rewrite wp_bind, wp_hsize. assert ((ld32 (u_mem s) (u_freep s + 8) >=? n) = false) as -> by lia. do 2 wp_step. rewrite Z.eqb_refl, wp_bind.
  apply (wp_morecore L); [done..|exact H0|]. intros L' s' Hm. pose proof Hm as [[_ [z Hin]] Hs' _ _ _ _ _]. apply list_elem_of_lookup_1 in Hin as [f Ef]. pose proof (circle_pos _ _ _ _ _ Hs' Ef).
  assert ((u_freep s' =? 0) = false) as -> by lia. rewrite wp_bind, wp_hptr. wp_step. by apply (HQ L').
Qed.

(** The way from [k] round the circle to [f]. *)
Definition far (len k f : nat) : nat := if decide (k ≤ f)%nat then f - k else len - k + f.
Definition ahead (k f i : nat) : Prop := (k ≤ f ∧ k ≤ i ≤ f)%nat ∨ (f < k ∧ (k ≤ i ∨ i ≤ f))%nat.
Definition nx (len j : nat) : nat := if decide (S j = len) then 0%nat else S j.

Lemma circle_next L s j q : circle L s → ((base, 0) :: L) !! j = Some q → ∃ p z, ((base, 0) :: L) !! nx (S (length L)) j = Some (p, z) ∧ ld64 (u_mem s) q.1 = p ∧ ld32 (u_mem s) (p + 8) = z.
Proof.
  intros [Hseg _] Eq. destruct q as [a x]. destruct (seg_lookup _ _ _ _ _ _ Hseg Eq) as [Hn _]. unfold nx. destruct (((base, 0) :: L) !! S j) as [[p z]|] eqn:Ep.
  - exists p, z. rewrite decide_False; [|apply lookup_lt_Some in Ep; cbn in Ep; lia]. split_and!; try done. by destruct (seg_lookup _ _ _ _ _ _ Hseg Ep).
  - exists base, 0. rewrite decide_True; [|apply lookup_ge_None in Ep; apply lookup_lt_Some in Eq; cbn in Ep, Eq; lia]. split_and!; try done. by destruct Hseg as (_ & ? & _).
Qed.

Section Search.
Context (L : list (Z * Z)) (s : ust) (n : Z) (f : nat) (fz : Z).
Context (Hc : circle L s) (Hs : sorted lo L (u_brk s)) (Hlim : u_brk s ≤ LIMIT) (Hn : 1 ≤ n) (Hf : ((base, 0) :: L) !! f = Some (u_freep s, fz)).
Notation len := (S (length L)).

(** A block that is large enough is found. *)
Lemma wp_search_found fuel : ∀ j q p i a z (Q : Z → ust → Prop),
  ((base, 0) :: L) !! j = Some q → ld64 (u_mem s) q.1 = p → (far len (nx len j) f < fuel)%nat → ((base, 0) :: L) !! i = Some (a, z) → n ≤ z → ahead (nx len j) f i →
  (∀ L' s' h, carved L s n h L' s' → Q (h + HDR) s') → wp (loop fuel (malloc_step sbrk n) (q.1, p)) Q s.
Proof using Hb0 Hb Hc Hs Hlim Hn Hf.
  induction fuel as [|fuel IH]; intros j q p i a z Q Eq Ep Hfar Ei Hz Hah HQ; [lia|]. cbn [loop]. destruct (circle_next L s j q Hc Eq) as (p' & z' & Ep' & E & Hsz). rewrite Ep in E. subst p'. rewrite wp_bind.
  assert (j < len)%nat as Hj by (apply lookup_lt_Some in Eq; cbn in Eq; lia). assert (i < len)%nat as Hi by (apply lookup_lt_Some in Ei; cbn in Ei; lia). assert (f < len)%nat as Hfl by (apply lookup_lt_Some in Hf; cbn in Hf; lia).
  destruct (decide (n ≤ z')) as [Hbig|Hsmall].
  - unfold nx in Ep'. destruct (decide (S j = len)); [injection Ep' as <- <-; lia|]. apply (wp_step_take L s j q p z'); done.
  - set (k := nx len j) in *. assert (k < len)%nat as Hk by (unfold k, nx; destruct (decide _); lia). assert (i ≠ k) as Hik by (intros ->; rewrite Ei in Ep'; injection Ep' as -> ->; lia).
    assert (k ≠ f) as Hkf by (intros ->; unfold ahead in Hah; lia). apply wp_step_next; [lia| |pose proof (circle_pos _ _ _ _ _ Hs Ep'); lia|].
    + intros E. apply Hkf. rewrite E in Ep'. eapply circle_inj; done.
    + eapply (IH k (p, z') _ i a z); try done; unfold far, ahead, nx in *; repeat destruct (decide _); lia.
Qed.

End Search.

Section Grow.
Context (L : list (Z * Z)) (s : ust) (n : Z) (f : nat) (fz : Z).
Context (Hc : circle L s) (Hs : sorted lo L (u_brk s)) (Hlim : u_brk s ≤ LIMIT) (Hn : 1 ≤ n) (Hf : ((base, 0) :: L) !! f = Some (u_freep s, fz)).
Notation len := (S (length L)).

(** Otherwise the whole circle is walked, and the kernel asked. *)
Lemma wp_search fuel : 16 * n < 2 ^ 31 → ∀ j q p (Q : Z → ust → Prop),
  ((base, 0) :: L) !! j = Some q → ld64 (u_mem s) q.1 = p → (far len (nx len j) f + length L + 3 < fuel)%nat → Q 0 s →
  (∀ L' s' h, carved L s n h L' s' → Q (h + HDR) s') → (∀ L1 s1 L' s' h, more L s n L1 s1 → carved L1 s1 n h L' s' → Q (h + HDR) s') →
  wp (loop fuel (malloc_step sbrk n) (q.1, p)) Q s.
Proof using Hb0 Hb Hsbrk Hc Hs Hlim Hn Hf.
  intros Hn'. induction fuel as [|fuel IH]; intros j q p Q Eq Ep Hfar H0 HQ HM; [lia|]. cbn [loop]. destruct (circle_next L s j q Hc Eq) as (p' & z' & Ep' & E & Hsz). rewrite Ep in E. subst p'. rewrite wp_bind.
  assert (j < len)%nat as Hj by (apply lookup_lt_Some in Eq; cbn in Eq; lia). assert (f < len)%nat as Hfl by (apply lookup_lt_Some in Hf; cbn in Hf; lia).
  destruct (decide (n ≤ z')) as [Hbig|Hsmall].
  { unfold nx in Ep'. destruct (decide (S j = len)); [injection Ep' as <- <-; lia|]. apply (wp_step_take L s j q p z'); done. }
  destruct (decide (p = u_freep s)) as [->|Hpf].
  - apply (wp_step_more L); try done; [lia|]. intros L1 s1 Hm. pose proof Hm as [Hc1 Hs1 Hb1 _ (a & y & Ha & Hy) Hlen _]. pose proof Hc1 as [_ [z1 Hz1]]. apply list_elem_of_lookup_1 in Hz1 as [f1 Ef1]. apply list_elem_of_lookup_1 in Ha as [i Ei].
    assert (f1 < S (length L1))%nat as Hf1 by (apply lookup_lt_Some in Ef1; cbn in Ef1; lia). apply lookup_lt_Some in Ei as Hi.
    eapply (wp_search_found L1 s1 n f1 z1 Hc1 Hs1 (proj2 Hb1) Hn Ef1 fuel f1 (u_freep s1, z1) _ (S i) a y); try done; [unfold far, nx; repeat destruct (decide _); lia|unfold ahead, nx; destruct (decide _); lia|].
    intros L' s' h Hcv. by apply (HM L1 s1 L').
  - set (k := nx len j) in *. assert (k ≠ f) as Hkf by (intros ->; rewrite Ep' in Hf; injection Hf as E _; done). assert (k < len)%nat as Hk by (unfold k, nx; destruct (decide _); lia).
    apply wp_step_next; [lia|done|pose proof (circle_pos _ _ _ _ _ Hs Ep'); lia|]. apply (IH k (p, z')); try done. unfold far, nx in *; repeat destruct (decide _); lia.
Qed.
End Grow.

(** ** [malloc] *)

(** A block [h] of [n] units is handed out; memory may have grown. *)
Record given (L : list (Z * Z)) (s : ust) (n h : Z) (L' : list (Z * Z)) (s' : ust) : Prop := {
  gi_circle : circle L' s';
  gi_sorted : sorted lo L' (u_brk s');
  gi_brk : u_brk s ≤ u_brk s' ≤ LIMIT;
  gi_blocks : ∀ b, (in_blocks L' b ∨ h ≤ b < h + 16 * n) ↔ in_blocks L b ∨ u_brk s ≤ b < u_brk s';
  gi_taken : ∀ b, h ≤ b < h + 16 * n → ¬ in_blocks L' b;
  gi_range : lo ≤ h ∧ h + 16 * n ≤ u_brk s' ∧ ld32 (u_mem s') (h + 8) = n;
  gi_same : ∀ b, b < u_brk s → ¬ in_blocks L b → ¬ in_base b → ldb (u_mem s') b = ldb (u_mem s) b
}.

Lemma carved_given L s n h L' s' : u_brk s ≤ LIMIT → carved L s n h L' s' → given L s n h L' s'.
Proof.
  intros Hl [C1 C2 C3 C4 C5 C6 C7]. split; try done; rewrite ?C3; try done.
  - intros b. rewrite (C4 b). split; [by left|]. intros [?|?]; [done|lia].
  - intros b _. apply C7.
Qed.
Lemma more_given L s n h L1 s1 L' s' : more L s n L1 s1 → carved L1 s1 n h L' s' → given L s n h L' s'.
Proof.
  intros [M1 M2 M3 M4 M5 M6 M7] [C1 C2 C3 C4 C5 C6 C7]. split; try done; rewrite ?C3; try done.
  - intros b. rewrite <-(C4 b). apply M4.
  - intros b Hlt Hnb Hnbase. assert (¬ in_blocks L1 b) as Hn1 by (rewrite M4; intros [?|?]; [done|lia]). rewrite C7 by done. by apply M7.
Qed.

(** The units asked for, the header included. *)
Definition units (nbytes : Z) : Z := (nbytes + 15) / 16 + 1.
Lemma units_bounds nbytes : 0 ≤ nbytes ≤ 2 ^ 31 - 64 → 1 ≤ units nbytes ∧ nbytes + 16 ≤ 16 * units nbytes ∧ 16 * units nbytes < 2 ^ 31.
Proof. intros H. unfold units. pose proof (Z.div_mod (nbytes + 15) 16). pose proof (Z.mod_pos_bound (nbytes + 15) 16). lia. Qed.

Lemma wp_malloc_search L s nbytes (Q : Z → ust → Prop) :
  circle L s → sorted lo L (u_brk s) → u_brk s ≤ LIMIT → 0 ≤ nbytes ≤ 2 ^ 31 - 64 → Q 0 s →
  (∀ h L' s', given L s (units nbytes) h L' s' → Q (h + HDR) s') →
  wp (p ← hptr (u_freep s); brk ← gets u_brk; loop (Z.to_nat brk + 8) (malloc_step sbrk (units nbytes)) (u_freep s, p)) Q s.
Proof using Hb0 Hb Hsbrk.
  intros Hc Hs Hlim Hnb H0 HQ. destruct (units_bounds nbytes Hnb) as (Hu1 & _ & Hu2). pose proof Hc as [_ [z Hz]]. apply list_elem_of_lookup_1 in Hz as [f Ef]. rewrite wp_bind, wp_hptr. do 2 wp_step.
  pose proof (sorted_length _ _ _ Hs) as Hlen. assert (f < S (length L))%nat as Hf by (apply lookup_lt_Some in Ef; cbn in Ef; lia).
  apply (wp_search L s (units nbytes) f z Hc Hs Hlim Hu1 Ef _ Hu2 f (u_freep s, z)); try done.
  - unfold far, nx. repeat destruct (decide _); lia.
  - intros L' s' h Hcv. apply (HQ h L'). by apply carved_given.
  - intros L1 s1 L' s' h Hm Hcv. apply (HQ h L'). by apply (more_given L s _ h L1 s1).
Qed.
End Alloc.
