(* ===== verification/UmallocProps.v ===== *)
(** * What the user allocator promises a program

    A program that allocates, writes to what it holds and frees it: blocks are
    apart, keep what was written to them, and every byte the kernel gave is either
    held or free. *)

From S2P Require Import Prelude Mem Layout Umalloc UmallocCorrect.

Set Default Proof Using "Type".

Section Client.
Context (base lo : Z).

(** The memory of the program, the sizes of the blocks it holds, and the bytes it
    has written to them. *)
Record client := Client { c_ust : ust; c_held : gmap Z Z; c_bytes : gmap Z Z }.

(** [a] is in a block the program holds. *)
Definition holds (B : gmap Z Z) (a : Z) : Prop := ∃ p n, B !! p = Some n ∧ p ≤ a < p + n.

(** ** The invariant *)

(** [b] is in a live block, its header included. *)
Definition live (V : gmap Z Z) (b : Z) : Prop := ∃ h z, V !! h = Some z ∧ h ≤ b < h + 16 * z.

Record client_ok (L : list (Z * Z)) (V : gmap Z Z) (c : client) : Prop := {
  co_heap : heap_ok base lo L V (c_ust c);
  co_circle : u_freep (c_ust c) = 0 ∧ L = [] ∧ V = ∅ ∨ u_freep (c_ust c) ≠ 0 ∧ circle base L (c_ust c);
  co_cover : ∀ b, lo ≤ b < u_brk (c_ust c) → in_blocks L b ∨ live V b;
  co_held : ∀ h, V !! h = units <$> c_held c !! (h + 16);
  co_size : ∀ p n, c_held c !! p = Some n → 0 ≤ n ≤ 2 ^ 31 - 64;
  co_bytes : ∀ a v, c_bytes c !! a = Some v → holds (c_held c) a ∧ ldb (u_mem (c_ust c)) a = v
}.

Lemma apart_points a z h y : 1 ≤ z → 1 ≤ y → (∀ b, a ≤ b < a + 16 * z → h ≤ b < h + 16 * y → False) → apart a z h y.
Proof. intros Hz Hy H. unfold apart. destruct (decide (a + 16 * z ≤ h)); [by left|]. destruct (decide (h + 16 * y ≤ a)); [by right|]. exfalso. apply (H (Z.max a h)); lia. Qed.
Lemma live_not_free L V s b : heap_ok base lo L V s → live V b → ¬ in_blocks L b.
Proof. intros [_ _ _ _ H] (h & y & Hh & Hb) (a & z & Ha & Hb'). destruct (H a z h y Ha Hh) as [?|?]; lia. Qed.
Lemma live_low L V s b : heap_ok base lo L V s → live V b → lo ≤ b < u_brk s ∧ ¬ in_base base b.
Proof. intros [H0 _ H _ _] (h & y & Hh & Hb). destruct (H h y Hh) as (? & ? & ? & _). unfold in_base. lia. Qed.

Section Ok.
Context (L : list (Z * Z)) (V : gmap Z Z) (s : ust) (B C : gmap Z Z).
Context (Hok : client_ok L V (Client s B C)).

Lemma held_live p n a : B !! p = Some n → p - 16 ≤ a < p + n → live V a.
Proof using Hok.
  destruct Hok as [_ _ _ Hh Hsz _]. intros Hp Ha. destruct (units_bounds n (Hsz p n Hp)) as (_ & ? & _). exists (p - 16), (units n). rewrite Hh. cbn [c_held]. replace (p - 16 + 16) with p by lia. rewrite Hp. split; [done|lia].
Qed.
Lemma ok_range : 0 < base ∧ base + 16 ≤ lo ≤ u_brk s ∧ u_brk s ≤ LIMIT.
Proof using Hok. destruct Hok as [[H1 H2 _ _ _] _ _ _ _ _]. cbn in *. apply sorted_le in H2. lia. Qed.

(** A block handed out. *)
Lemma ok_given n h L' s' : 0 ≤ n ≤ 2 ^ 31 - 64 → given base lo L s (units n) h L' s' → client_ok L' (<[h := units n]> V) (Client s' (<[h + 16 := n]> B) C).
Proof using Hok.
  intros Hn [G1 G2 G3 G4 G5 G6 G7]. pose proof ok_range as Hr. pose proof Hok as [Hh _ Hcov Hheld Hsz Hby]. pose proof Hh as [H0 H1 H2 H3 H4]. cbn [c_ust c_held c_bytes] in *. destruct (units_bounds n Hn) as (Hu & _ & _).
  assert (∀ b, live V b → ldb (u_mem s') b = ldb (u_mem s) b) as Hsame. { intros b Hb. destruct (live_low _ _ _ _ Hh Hb). apply G7; [lia|by eapply live_not_free|done]. }
  assert (∀ b, live V b → ¬ (h ≤ b < h + 16 * units n) ∧ ¬ in_blocks L' b) as Hnew.
  { intros b Hb. pose proof (live_not_free _ _ _ _ Hh Hb). destruct (live_low _ _ _ _ Hh Hb). split; intros ?; assert (in_blocks L b ∨ u_brk s ≤ b < u_brk s') as [?|?] by (apply G4; auto); (done || lia). }
  assert (∀ h' z', V !! h' = Some z' → apart h (units n) h' z') as Hap.
  { intros h' z' E. destruct (H2 _ _ E) as (? & ? & ? & _). apply apart_points; [done..|]. intros b Hb1 Hb2. destruct (Hnew b); [by exists h', z'|done]. }
  split; cbn [c_ust c_held c_bytes].
  - split; [lia|done| | |].
    + intros h' z' [[<- <-]|[_ E]]%lookup_insert_Some; [lia|]. destruct (H2 _ _ E) as (? & ? & ? & <-). split_and!; [lia..|]. apply ldn_ext. intros b Hb. apply Hsame. exists h', (ld32 (u_mem s) (h' + 8)). split; [done|lia].
    + intros h1 h2 z1 z2 [[<- <-]|[N1 E1]]%lookup_insert_Some [[<- <-]|[N2 E2]]%lookup_insert_Some Hne; [done|by apply Hap|destruct (Hap _ _ E1); [by right|by left]|by apply (H3 h1 h2)].
    + intros a z h' y Ha [[<- <-]|[_ E]]%lookup_insert_Some; (apply apart_points; [by destruct (sorted_elem _ _ _ _ _ G2 Ha) as (? & ? & ?)|try lia|]).
      * intros b Hb1 Hb2. apply (G5 b Hb2). by exists a, z.
      * by destruct (H2 _ _ E) as (? & ? & _).
      * intros b Hb1 Hb2. destruct (Hnew b) as [_ []]; [by exists h', y|by exists a, z].
  - right. split; [|done]. destruct G1 as [_ [z Hz]]. apply list_elem_of_lookup_1 in Hz as [i Ei]. assert (0 < u_freep s'); [|lia]. eapply (circle_pos base lo); [lia|lia|exact G2|exact Ei].
  - intros b Hb. assert (in_blocks L b ∨ u_brk s ≤ b < u_brk s' ∨ live V b) as Hc. { destruct (decide (b < u_brk s)); [|right; left; lia]. destruct (Hcov b); [lia|by left|by right; right]. }
    assert (live V b → live (<[h := units n]> V) b) as Hl. { intros (h' & y & E & Hb'). exists h', y. split; [|done]. apply lookup_insert_Some. right. split; [|done]. intros ->. destruct (Hap _ _ E); lia. }
    assert ((in_blocks L b ∨ u_brk s ≤ b < u_brk s') ∨ live V b) as [Hc'|Hc'] by tauto; [|by right; apply Hl]. apply G4 in Hc' as [?|?]; [by left|]. right. exists h, (units n). split; [apply lookup_insert_eq|done].
  - intros h'. destruct (decide (h' = h)) as [->|Hne]; [by rewrite !lookup_insert_eq|]. rewrite !lookup_insert_ne by lia. apply Hheld.
  - intros p m [[<- <-]|[_ E]]%lookup_insert_Some; [done|by apply (Hsz p)].
  - intros a v E. destruct (Hby a v E) as [(p & m & Ep & Ha) <-]. assert (live V a) as Hla by (eapply held_live; [done|lia]). split; [|by apply Hsame].
    exists p, m. split; [|done]. apply lookup_insert_Some. right. split; [|done]. intros <-. assert (live V h) as Hlh by (eapply held_live; [done|lia]). destruct (Hnew h Hlh). lia.
Qed.

(** A block given back. *)
Lemma ok_freed p n L' s' : B !! p = Some n → freed base lo L s (p - 16) (units n) L' s' →
  client_ok L' (delete (p - 16) V) (Client s' (delete p B) (filter (λ '(a, _), ¬ (p ≤ a < p + n)) C)).
Proof using Hok.
  intros Hp [F1 F2 F3 F4 F5 F6 F7]. pose proof ok_range as Hr. pose proof Hok as [Hh _ Hcov Hheld Hsz Hby]. pose proof Hh as [H0 H1 H2 H3 H4]. cbn [c_ust c_held c_bytes] in *. destruct (units_bounds n (Hsz p n Hp)) as (Hu & Hun & _).
  assert (V !! (p - 16) = Some (units n)) as HV by (rewrite Hheld; replace (p - 16 + 16) with p by lia; by rewrite Hp).
  assert (∀ b, live (delete (p - 16) V) b → live V b ∧ ¬ in_blocks L' b) as Hrest.
  { intros b (h & y & [Hne E]%lookup_delete_Some & Hb). assert (live V b) as Hl by (by exists h, y). split; [done|]. rewrite F4. intros [?|?]; [by eapply live_not_free|]. destruct (H3 _ _ _ _ HV E Hne); lia. }
  assert (∀ b, live (delete (p - 16) V) b → ldb (u_mem s') b = ldb (u_mem s) b) as Hsame. { intros b Hb. destruct (Hrest b Hb) as [Hl Hnb]. apply F7; [done|by destruct (live_low _ _ _ _ Hh Hl)]. }
  split; cbn [c_ust c_held c_bytes]; rewrite ?F3.
  - split; rewrite ?F3; [done|done| | |].
    + intros h z E. assert (E' := E). apply lookup_delete_Some in E' as [_ E']. destruct (H2 _ _ E') as (? & ? & ? & <-). split_and!; [lia..|]. apply ldn_ext. intros b Hb. apply Hsame. exists h, (ld32 (u_mem s) (h + 8)). split; [done|lia].
    + intros h1 h2 z1 z2 [_ E1]%lookup_delete_Some [_ E2]%lookup_delete_Some. by apply H3.
    + intros a z h y Ha E. assert (E' := E). apply lookup_delete_Some in E' as [_ E']. destruct (H2 _ _ E') as (? & ? & _). apply apart_points; [by destruct (sorted_elem _ _ _ _ _ F2 Ha) as (? & ? & ?)|done|]. intros b Hb1 Hb2. destruct (Hrest b) as [_ []]; [by exists h, y|by exists a, z].
  - right. split; [|done]. destruct F1 as [_ [z Hz]]. apply list_elem_of_lookup_1 in Hz as [i Ei]. assert (0 < u_freep s'); [|lia]. eapply (circle_pos base lo); [lia|lia|exact F2|exact Ei].
  - intros b Hb. rewrite F4. destruct (Hcov b Hb) as [?|(h & y & E & Hb')]; [by left; left|]. destruct (decide (h = p - 16)) as [->|Hne]; [left; right; rewrite HV in E; by injection E as <-|]. right. exists h, y. split; [by rewrite lookup_delete_ne|done].
  - intros h. destruct (decide (h = p - 16)) as [->|Hne]; [replace (p - 16 + 16) with p by lia; by rewrite !lookup_delete_eq|]. rewrite !lookup_delete_ne by lia. apply Hheld.
  - intros q m [_ E]%lookup_delete_Some. by apply (Hsz q).
  - intros a v [E Hna]%map_lookup_filter_Some. destruct (Hby a v E) as [(q & m & Eq & Ha) <-]. assert (q ≠ p) as Hqp by (intros ->; rewrite Hp in Eq; injection Eq as <-; done). split; [exists q, m; by rewrite lookup_delete_ne|].
    apply Hsame. exists (q - 16), (units m). rewrite lookup_delete_ne, Hheld by lia. replace (q - 16 + 16) with q by lia. rewrite Eq. destruct (units_bounds m (Hsz q m Eq)) as (_ & ? & _). split; [done|lia].
Qed.

(** A write to a held block. *)
Lemma ok_same s' C' : u_freep s' = u_freep s → u_brk s' = u_brk s →
  (∀ b, in_base base b ∨ in_blocks L b → ldb (u_mem s') b = ldb (u_mem s) b) → (∀ h z b, V !! h = Some z → h ≤ b < h + 16 → ldb (u_mem s') b = ldb (u_mem s) b) →
  (∀ a v, C' !! a = Some v → holds B a ∧ ldb (u_mem s') a = v) → client_ok L V (Client s' B C').
Proof using Hok.
  intros Ef Eb Hfree Hhdr Hc. pose proof Hok as [[H0 H1 H2 H3 H4] Hci Hcov Hheld Hsz Hby]. cbn [c_ust c_held c_bytes] in *. split; cbn [c_ust c_held c_bytes]; rewrite ?Eb, ?Ef; try done.
  - split; rewrite ?Eb; try done. intros h z E. destruct (H2 h z E) as (? & ? & ? & <-). split_and!; try done. apply ldn_ext. intros b Hb. eapply Hhdr; [done|lia].
  - destruct Hci as [?|[Hf [Hs Hin]]]; [by left|right]. split; [done|]. split; rewrite ?Ef; [|done]. eapply seg_frame; [done|]. intros a z Ha b Hb. apply Hfree. apply elem_of_cons in Ha as [[= -> ->]|Ha]; [by left|right]. exists a, z. split; [done|]. destruct (sorted_elem _ _ _ _ _ H1 Ha) as (? & ? & ?). lia.
Qed.
Lemma ok_write a v : holds B a → 0 ≤ v < 256 → client_ok L V (Client (set_u_mem (stb (u_mem s) a v) s) B (<[a := v]> C)).
Proof using Hok.
  intros Hha Hv. pose proof Hok as [Hh _ _ Hheld Hsz Hby]. pose proof Hha as (p & n & Hp & Ha). cbn [c_ust c_held c_bytes] in *. assert (live V a) as Hl by (eapply held_live; [done|lia]). apply ok_same; cbn [u_mem u_freep u_brk set_u_mem]; try done.
  - intros b Hb. rewrite ldb_stb_ne; [done|]. intros <-. destruct Hb; [by destruct (live_low _ _ _ _ Hh Hl)|by eapply live_not_free].
  - intros h z b E Hb. rewrite ldb_stb_ne; [done|]. intros <-. assert (V !! (p - 16) = Some (units n)) as HV by (rewrite Hheld; replace (p - 16 + 16) with p by lia; by rewrite Hp).
    destruct (units_bounds n (Hsz p n Hp)) as (? & ? & _). destruct (decide (p - 16 = h)) as [<-|Hne]; [lia|]. pose proof Hh as [_ _ H2 H3 _]. destruct (H2 _ _ E) as (_ & ? & _). destruct (H3 _ _ _ _ HV E Hne); lia.
  - intros b w [[<- <-]|[Hne E]]%lookup_insert_Some; [split; [done|]; rewrite ldb_stb_eq; unfold u8; apply Z.mod_small; lia|]. rewrite ldb_stb_ne by done. by apply Hby.
Qed.
End Ok.

(** The first [malloc] makes a circle of [base] alone. *)
Lemma first_circle s : 0 < base → base < LIMIT → circle base [] (set_u_mem (st32 (u_mem (set_u_freep base (set_u_mem (st64 (u_mem s) base base) s))) (base + 8) 0) (set_u_freep base (set_u_mem (st64 (u_mem s) base base) s))).
Proof.
  intros H0 Hl. unfold LIMIT in Hl. split; cbn [u_mem u_freep set_u_mem set_u_freep].
  - cbn [seg]. rewrite (ldn_stn_ne 8 4), ld64_st64_eq, ld32_st32_eq by (cbn; lia). done.
  - exists 0. by left.
Qed.
Lemma ok_first s s1 B C : client_ok [] ∅ (Client s B C) → circle base [] s1 → u_freep s1 = base → u_brk s1 = u_brk s → client_ok [] ∅ (Client s1 B C).
Proof.
  intros Hok Hc Ef Eb. pose proof (ok_range _ _ _ _ _ Hok) as Hr. pose proof Hok as [[H0 H1 H2 H3 H4] _ Hcov Hheld Hsz Hby]. cbn [c_ust c_held c_bytes] in *. split; cbn [c_ust c_held c_bytes]; rewrite ?Eb; try done.
  - split; rewrite ?Eb; try done.
  - right. split; [lia|done].
  - intros a v E. destruct (Hby a v E) as [(p & n & Hp & Ha) _]. destruct (held_live _ _ _ _ _ Hok p n a Hp) as (? & ? & ? & _); [lia|done].
Qed.

(** ** The program's steps *)

Context (sbrk : Z → M ust Z).

Inductive cstep : client → client → Prop :=
  | CMalloc nbytes p s s' B C : 0 ≤ nbytes ≤ 2 ^ 31 - 64 → malloc base sbrk nbytes s = Ok p s' → p ≠ 0 →
      cstep (Client s B C) (Client s' (<[p := nbytes]> B) C)
  | CMallocFail nbytes s s' B C : 0 ≤ nbytes ≤ 2 ^ 31 - 64 → malloc base sbrk nbytes s = Ok 0 s' →
      cstep (Client s B C) (Client s' B C)
  | CFree p n s s' B C : B !! p = Some n → free p s = Ok tt s' →
      cstep (Client s B C) (Client s' (delete p B) (filter (λ '(a, _), ¬ (p ≤ a < p + n)) C))
  | CWrite a v s B C : holds B a → 0 ≤ v < 256 →
      cstep (Client s B C) (Client (set_u_mem (stb (u_mem s) a v) s) B (<[a := v]> C)).

(** Before the first [malloc]: nothing is held and [freep] is null. *)
Definition c_init (m : mem) : client := Client (Ust m 0 lo) ∅ ∅.

Definition c_run : client → client → Prop := rtc cstep.

Section Steps.
Context (Hsbrk : sbrk_ok sbrk).

Lemma wp_malloc_client L V s B C n :
  client_ok L V (Client s B C) → 0 ≤ n ≤ 2 ^ 31 - 64 →
  wp (malloc base sbrk n) (λ p s', ∃ L' V', (p = 0 ∧ client_ok L' V' (Client s' B C)) ∨ (p ≠ 0 ∧ client_ok L' V' (Client s' (<[p := n]> B) C))) s.
Proof using Hsbrk.
  intros Hok Hn. pose proof (ok_range _ _ _ _ _ Hok) as (Hb0 & Hb & Hlim). destruct (units_bounds n Hn) as (Hu1 & _ & Hu2). unfold malloc. unfold HDR at 1 2. replace (n + 16 - 1) with (n + 15) by lia. fold (units n). rewrite u32_small by lia.
  assert (∀ L1 V1 s1, client_ok L1 V1 (Client s1 B C) → circle base L1 s1 →
    wp (p ← hptr (u_freep s1); brk ← gets u_brk; loop (Z.to_nat brk + 8) (malloc_step sbrk (units n)) (u_freep s1, p))
      (λ p s', ∃ L' V', (p = 0 ∧ client_ok L' V' (Client s' B C)) ∨ (p ≠ 0 ∧ client_ok L' V' (Client s' (<[p := n]> B) C))) s1) as Hgo.
  { intros L1 V1 s1 Hok1 Hc1. pose proof (co_heap _ _ _ Hok1) as [_ Hs1 _ _ _]. pose proof (ok_range _ _ _ _ _ Hok1) as (_ & _ & Hlim1). apply (wp_malloc_search base lo sbrk Hsbrk Hb0 (proj1 Hb) L1); try done.
    - exists L1, V1. by left.
    - intros h L' s' Hg. exists L', (<[h := units n]> V1). right. pose proof Hg as [_ _ _ _ _ Hr _]. split; [unfold HDR; lia|]. by apply (ok_given L1 V1 s1). }
  do 2 wp_step. destruct (Z.eqb_spec (u_freep s) 0) as [E0|Hne].
  - pose proof Hok as [_ [(_ & -> & ->)|[? _]] _ _ _ _]; [|done]. unfold set_hptr, set_hsize. do 7 wp_step. set (s1 := set_u_mem _ _). assert (circle base [] s1) as Hc by (apply first_circle; [done|unfold LIMIT in *; lia]). apply (Hgo [] ∅ s1); [|done]. by apply (ok_first s).
  - pose proof Hok as [_ [(? & _)|[_ Hc]] _ _ _ _]; [done|]. wp_step. by apply (Hgo L V s).
Qed.

Lemma wp_free_client L V s B C p n :
  client_ok L V (Client s B C) → B !! p = Some n →
  wp (free p) (λ _ s', ∃ L' V', client_ok L' V' (Client s' (delete p B) (filter (λ '(a, _), ¬ (p ≤ a < p + n)) C))) s.
Proof.
  intros Hok Hp. pose proof (ok_range _ _ _ _ _ Hok) as (Hb0 & Hb & Hlim). pose proof Hok as [[H0 H1 H2 H3 H4] Hci _ Hheld Hsz _]. cbn [c_ust c_held c_bytes] in *.
  assert (V !! (p - 16) = Some (units n)) as HV by (rewrite Hheld; replace (p - 16 + 16) with p by lia; by rewrite Hp). destruct (H2 _ _ HV) as (? & ? & ? & ?).
  replace p with (p - 16 + HDR) at 1 by (unfold HDR; lia). destruct Hci as [(_ & _ & ->)|[_ Hc]]; [done|]. apply (wp_free base lo L s (p - 16) (units n)); try done; [lia|intros a y Ha; by apply (H4 a y)|].
  intros L' s' Hf. exists L', (delete (p - 16) V). by apply (ok_freed L V s).
Qed.

Lemma cstep_ok L V c c' : client_ok L V c → cstep c c' → ∃ L' V', client_ok L' V' c'.
Proof using Hsbrk.
  intros Hok Hst. destruct Hst as [n p s s' B C Hn E Hp|n s s' B C Hn E|p n s s' B C Hp E|a v s B C Ha Hv].
  - pose proof (wp_malloc_client _ _ _ _ _ n Hok Hn) as H. unfold wp in H. rewrite E in H. destruct H as (L' & V' & [[? _]|[_ ?]]); [done|by exists L', V'].
  - pose proof (wp_malloc_client _ _ _ _ _ n Hok Hn) as H. unfold wp in H. rewrite E in H. destruct H as (L' & V' & [[_ ?]|[? _]]); [by exists L', V'|done].
  - pose proof (wp_free_client _ _ _ _ _ p n Hok Hp) as H. unfold wp in H. by rewrite E in H.
  - exists L, V. by apply ok_write.
Qed.

Lemma c_init_ok m : 0 < base → base + 16 ≤ lo ≤ LIMIT → client_ok [] ∅ (c_init m).
Proof.
  intros H0 H1. split; cbn [c_init c_ust c_held c_bytes u_freep u_brk]; try done.
  - split; cbn [u_brk u_mem sorted]; try done; lia.
  - by left.
  - intros b Hb. lia.
Qed.
Lemma c_run_ok m c : 0 < base → base + 16 ≤ lo ≤ LIMIT → c_run (c_init m) c → ∃ L V, client_ok L V c.
Proof using Hsbrk.
  intros H0 H1 Hr. assert (∃ L V, client_ok L V (c_init m)) as Hi by (exists [], ∅; by apply c_init_ok). induction Hr as [|c1 c2 c3 Hst _ IH]; [done|]. apply IH. destruct Hi as (L & V & Hok). by apply (cstep_ok L V c1).
Qed.

End Steps.
End Client.

(** C17: [malloc] and [free] of the user library serve a program that writes only
    to what it holds, frees only what it holds and asks for at most 2^31 - 64 bytes
    at a time, for every order of its calls and whenever [sbrk] fails: blocks held lie in the program's memory and do not
    overlap, what was written to them is still there, the next [malloc] and the
    [free] of any held block return, and once there is a free list every byte got
    from the kernel is either in a free block or in a held one with its header. *)
Theorem umalloc_safe base lo sbrk m s B C :
  sbrk_ok sbrk → 0 < base → base + 16 ≤ lo ≤ LIMIT → c_run base sbrk (c_init lo m) (Client s B C) →
  (∀ p n, B !! p = Some n → lo ≤ p ∧ p + n ≤ u_brk s) ∧
  (∀ p q n k, B !! p = Some n → B !! q = Some k → p ≠ q → p + n ≤ q ∨ q + k ≤ p) ∧
  (∀ a v, C !! a = Some v → ldb (u_mem s) a = v) ∧
  (∀ n, 0 ≤ n ≤ 2 ^ 31 - 64 → ∃ p s', malloc base sbrk n s = Ok p s') ∧
  (∀ p n, B !! p = Some n → ∃ s', free p s = Ok tt s') ∧
  (u_freep s ≠ 0 → ∃ L, circle base L s ∧
    ∀ b, lo ≤ b < u_brk s → (in_blocks L b ↔ ¬ ∃ p n, B !! p = Some n ∧ p - 16 ≤ b < p - 16 + 16 * units n)).
Proof.
  intros Hsb H0 H1 Hr. destruct (c_run_ok base lo sbrk Hsb m _ H0 H1 Hr) as (L & V & Hok). pose proof Hok as [Hh Hci Hcov Hheld Hsz Hby]. pose proof Hh as [_ _ H2 H3 _]. cbn [c_ust c_held c_bytes] in *.
  assert (∀ p n, B !! p = Some n → V !! (p - 16) = Some (units n)) as HV by (intros p n Hp; rewrite Hheld; replace (p - 16 + 16) with p by lia; by rewrite Hp).
  assert (∀ p n, B !! p = Some n → n + 16 ≤ 16 * units n) as Hu by (intros p n Hp; destruct (units_bounds n (Hsz p n Hp)); lia). split_and!.
  - intros p n Hp. destruct (H2 _ _ (HV p n Hp)) as (? & ? & ? & _). specialize (Hu p n Hp). lia.
  - intros p q n k Hp Hq Hne. pose proof (Hu p n Hp). pose proof (Hu q k Hq). destruct (H3 _ _ _ _ (HV p n Hp) (HV q k Hq)); lia.
  - intros a v E. by destruct (Hby a v E).
  - intros n Hn. pose proof (wp_malloc_client base lo sbrk Hsb _ _ _ _ _ n Hok Hn) as H. unfold wp in H. destruct (malloc base sbrk n s) as [p s'| |]; [by exists p, s'|done..].
  - intros p n Hp. pose proof (wp_free_client base lo _ _ _ _ _ p n Hok Hp) as H. unfold wp in H. destruct (free p s) as [[] s'| |]; [by exists s'|done..].
  - intros Hf. destruct Hci as [[? _]|[_ Hc]]; [done|]. exists L. split; [done|]. intros b Hb. split.
    + intros Hin (p & n & Hp & Hpb). apply (live_not_free base lo L V s b Hh); [|done]. exists (p - 16), (units n). by rewrite (HV p n Hp).
    + intros Hno. destruct (Hcov b Hb) as [?|(h & z & E & Hhb)]; [done|]. destruct Hno. rewrite Hheld in E. apply fmap_Some in E as (n & E & ->). exists (h + 16), n. split; [done|lia].
Qed.

(** ** A run *)

Module UmallocWitness.
Definition lim : Z := 8192 + 65536.
Definition sbrk (n : Z) : M ust Z := λ s,
  if (0 <=? n) && (u_brk s + n <=? lim) then Ok (u_brk s) (Ust (u_mem s) (u_freep s) (u_brk s + n)) else Ok (-1) s.

Lemma sbrk_fine : sbrk_ok sbrk.
Proof.
  intros n s Hn. unfold wp, sbrk. destruct (Z.leb_spec (u_brk s + n) lim) as [H|H]; rewrite ?andb_false_r; [|by left]. assert ((0 <=? n) = true) as -> by lia. right. cbn. unfold lim, LIMIT in *. split_and!; (done || lia).
Qed.

Definition after {A} (r : res ust A) : ust := match r with Ok _ s => s | _ => Ust ∅ 0 0 end.
Definition s0 : ust := Ust ∅ 0 8192.
Definition s1 : ust := after (malloc 4096 sbrk 20 s0).
Definition s2 : ust := set_u_mem (stb (u_mem s1) 73696 7) s1.
Definition s3 : ust := after (malloc 4096 sbrk 100 s2).
Definition s4 : ust := after (malloc 4096 sbrk 70000 s3).
Definition s5 : ust := after (free 73568 s4).

Lemma run : c_run 4096 sbrk (c_init 8192 ∅) (Client s5 (delete 73568 (<[73568 := 100]> (<[73696 := 20]> ∅))) (filter (λ '(a, _), ¬ (73568 ≤ a < 73568 + 100)) (<[73696 := 7]> ∅))).
Proof.
  apply (rtc_l _ _ (Client s1 (<[73696 := 20]> ∅) ∅)). { apply (CMalloc 4096 sbrk 20); [lia|vm_compute; reflexivity|lia]. }
  apply (rtc_l _ _ (Client s2 (<[73696 := 20]> ∅) (<[73696 := 7]> ∅))). { apply CWrite; [|lia]. exists 73696, 20. split; [reflexivity|lia]. }
  apply (rtc_l _ _ (Client s3 (<[73568 := 100]> (<[73696 := 20]> ∅)) (<[73696 := 7]> ∅))). { apply (CMalloc 4096 sbrk 100); [lia|vm_compute; reflexivity|lia]. }
  apply (rtc_l _ _ (Client s4 (<[73568 := 100]> (<[73696 := 20]> ∅)) (<[73696 := 7]> ∅))). { apply (CMallocFail 4096 sbrk 70000); [lia|vm_compute; reflexivity]. }
  eapply rtc_once. apply CFree; [reflexivity|vm_compute; reflexivity].
Qed.

Lemma umalloc_safe_witness : ldb (u_mem s5) 73696 = 7 ∧ (∃ p s', malloc 4096 sbrk 60000 s5 = Ok p s') ∧ ∃ s', free 73696 s5 = Ok tt s'.
Proof.
  destruct (umalloc_safe 4096 8192 sbrk ∅ _ _ _ sbrk_fine ltac:(lia) ltac:(unfold LIMIT; lia) run) as (_ & _ & H1 & H2 & H3 & _).
  split_and!; [apply H1; reflexivity|apply H2; lia|apply (H3 73696 20); reflexivity].
Defined.
End UmallocWitness.
