(* ===== verification/Programs.v ===== *)
(** * The small user programs

    [cat], [wc], [echo], [ls], [ln], [mkdir], [rm], [kill], [halt], [zombie] and
    [init], as trees of system calls, and what [cat], [wc] and [echo] print for the
    files they are given, however many bytes each [read] returns.  The arguments are
    those of [main], the name of the program first; [n] bounds the turns of the
    loops that read. *)

From S2P Require Import Prelude Mem Layout Fs File Proc Trap Sysfile Printf Uprintf Ulib.

Set Default Proof Using "Type".

Notation len l := (Z.of_nat (length l)).
Notation "s ↵" := (codes s ++ [10]) (at level 1).

(** A loop over a list that may be left. *)
Fixpoint each_until {X} (l : list X) (body : X → prog bool) : prog unit :=
  match l with
  | [] => mret tt
  | x :: l' => body x ≫= λ go : bool, if go then each_until l' body else mret tt
  end.

(** ** [user/cat.c] *)

Definition cat_step (fd : Z) (_ : unit) : prog (unit + unit) :=
  r ← ask (Read fd 512);
  match r with
  | Some [] => mret (inr tt)
  | Some bs =>
      w ← ask (Write 1 bs);
      if negb (w =? len bs) then ufprintf 2 ("cat: write error"↵) [];; exit 1 else mret (inl tt)
  | None => ufprintf 2 ("cat: read error"↵) [];; exit 1
  end.
Definition cat (n : nat) (fd : Z) : prog unit := repeat_prog n (cat_step fd) tt.

Definition cat_main (n : nat) (argv : list (list Z)) : prog unit :=
  match argv with
  | [] | [_] => cat n 0;; exit 0
  | _ :: files =>
      each_prog files (λ f,
        fd ← ask (Open f O_RDONLY);
        if fd <? 0 then ufprintf 2 ("cat: cannot open %s"↵) [AStr (Some f)];; exit 1 else
        cat n fd;;
        ask (Close fd);; mret tt);;
      exit 0
  end.

(** ** [user/wc.c] *)

Record counts := Counts { c_l : Z; c_w : Z; c_c : Z; c_inword : bool }.

Definition wc_byte (x : counts) (b : Z) : counts :=
  let c := i32 (c_c x + 1) in
  let l := if b =? 10 then i32 (c_l x + 1) else c_l x in
  if Ulib.strchr [32; 13; 9; 10; 11] b then Counts l (c_w x) c false
  else if negb (c_inword x) then Counts l (i32 (c_w x + 1)) c true
  else Counts l (c_w x) c (c_inword x).

Definition wc_step (fd : Z) (x : counts) : prog (counts + counts) :=
  r ← ask (Read fd 512);
  match r with
  | Some [] => mret (inr x)
  | Some bs => mret (inl (foldl wc_byte x bs))
  | None => uprintf ("wc: read error"↵) [];; exit 1
  end.
Definition wc (n : nat) (fd : Z) (name : list Z) : prog unit :=
  x ← repeat_prog n (wc_step fd) (Counts 0 0 0 false);
  uprintf ("%d %d %d %s"↵) [AInt (c_l x); AInt (c_w x); AInt (c_c x); AStr (Some name)].

Definition wc_main (n : nat) (argv : list (list Z)) : prog unit :=
  match argv with
  | [] | [_] => wc n 0 [];; exit 0
  | _ :: files =>
      each_prog files (λ f,
        fd ← ask (Open f O_RDONLY);
        if fd <? 0 then uprintf ("wc: cannot open %s"↵) [AStr (Some f)];; exit 1 else
        wc n fd f;;
        ask (Close fd);; mret tt);;
      exit 0
  end.

(** ** [user/echo.c] *)

Fixpoint echo_args (args : list (list Z)) : prog unit :=
  match args with
  | [] => mret tt
  | a :: rest =>
      ask (Write 1 a);;
      ask (Write 1 (match rest with _ :: _ => [32] | [] => [10] end));;
      echo_args rest
  end.
Definition echo_main (argv : list (list Z)) : prog unit := echo_args (tail argv);; exit 0.

(** ** [user/kill.c], [ln.c], [mkdir.c], [rm.c], [halt.c], [zombie.c] *)

Definition kill_usage : prog unit := ufprintf 2 ("usage: kill [-s signum] pid..."↵) [];; exit 1.
Definition kill_main (argv : list (list Z)) : prog unit :=
  match argv with
  | [] | [_] => kill_usage
  | _ :: a1 :: rest =>
      let go signum pids := each_prog pids (λ p, ask (Kill (Ulib.atoi p) signum);; mret tt);; exit 0 in
      match rest with
      | a2 :: pids =>
          if decide (a1 = codes "-s") then
            match pids with [] => kill_usage | _ => go (Ulib.atoi a2) pids end
          else go SIGKILL (a1 :: rest)
      | [] => go SIGKILL [a1]
      end
  end.

Definition ln_main (argv : list (list Z)) : prog unit :=
  match argv with
  | [_; old; new] =>
      r ← ask (Link old new);
      (if r <? 0 then ufprintf 2 ("link %s %s: failed"↵) [AStr (Some old); AStr (Some new)] else mret tt);;
      exit 0
  | _ => ufprintf 2 ("Usage: ln old new"↵) [];; exit 1
  end.

Definition mkdir_main (argv : list (list Z)) : prog unit :=
  match argv with
  | [] | [_] => ufprintf 2 ("Usage: mkdir files..."↵) [];; exit 1
  | _ :: files =>
      each_until files (λ f,
        r ← ask (Mkdir f);
        if r <? 0 then ufprintf 2 ("mkdir: %s failed to create"↵) [AStr (Some f)];; mret false else mret true);;
      exit 0
  end.

Definition rm_main (argv : list (list Z)) : prog unit :=
  match argv with
  | [] | [_] => ufprintf 2 ("Usage: rm files..."↵) [];; exit 1
  | _ :: files =>
      each_until files (λ f,
        r ← ask (Unlink f);
        if r <? 0 then ufprintf 2 ("rm: %s failed to delete"↵) [AStr (Some f)];; mret false else mret true);;
      exit 0
  end.

Definition halt_main : prog Z := ask Halt;; mret 0.

Definition zombie_main : prog unit :=
  pid ← ask Fork;
  (if pid >? 0 then ask (Pause 5);; mret tt else mret tt);;
  exit 0.

(** ** [user/init.c] *)

Definition init_wait (pid : Z) (_ : unit) : prog (unit + unit) :=
  wpid ← ask Wait;
  if wpid =? pid then mret (inr tt) else
  if wpid <? 0 then uprintf ("init: wait returned an error"↵) [];; exit 1 else mret (inl tt).

(** One turn of the outer loop; [n] bounds the processes without a parent. *)
Definition init_turn (n : nat) (_ : unit) : prog (unit + unit) :=
  uprintf ("init: starting sh"↵) [];;
  pid ← ask Fork;
  if pid <? 0 then uprintf ("init: fork failed"↵) [];; exit 1 else
  if pid =? 0 then
    ask (Exec (codes "sh") [codes "sh"]);;
    uprintf ("init: exec sh failed"↵) [];;
    exit 1
  else
    repeat_prog n (init_wait pid) tt;;
    mret (inl tt).

Definition init_main (turns n : nat) : prog unit :=
  fd ← ask (Open (codes "console") O_RDWR);
  (if fd <? 0 then
     ask (Mknod (codes "console") CONSOLE 0);;
     ask (Open (codes "console") O_RDWR);; mret tt
   else mret tt);;
  ask (Dup 0);;
  ask (Dup 0);;
  repeat_prog turns (init_turn n) tt.

(** ** [user/ls.c] *)

(** The part behind the last slash. *)
Definition basename (path : list Z) : list Z :=
  reverse ((fix go l := match l with c :: l' => if c =? SLASH then [] else c :: go l' | [] => [] end) (reverse path)).
Definition fmtname (path : list Z) : list Z :=
  let p := basename path in
  if len p >=? DIRSIZ then p else p ++ replicate (Z.to_nat (DIRSIZ - len p)) 32.

Definition ls_line (path : list Z) (st : stat) : prog unit :=
  uprintf ("%s %d %d %d"↵) [AStr (Some (fmtname path)); AInt (st_type st); AInt (st_ino st); AInt (i32 (st_size st))].

(** The bytes of a string up to its zero. *)
Fixpoint upto0 (l : list Z) : list Z := match l with c :: l' => if c =? 0 then [] else c :: upto0 l' | [] => [] end.

Definition ls_step (fd : Z) (path : list Z) (_ : unit) : prog (unit + unit) :=
  r ← ask (Read fd DE_SIZE);
  match r with
  | Some (b0 :: b1 :: name) =>
      if negb (len (b0 :: b1 :: name) =? DE_SIZE) then mret (inr tt) else
      if b0 + 256 * b1 =? 0 then mret (inl tt) else
      let buf := path ++ [SLASH] ++ upto0 name in
      st ← Ulib.stat buf;
      match st with
      | None => uprintf ("ls: cannot stat %s"↵) [AStr (Some buf)];; mret (inl tt)
      | Some st => ls_line buf st;; mret (inl tt)
      end
  | _ => mret (inr tt)
  end.

Definition ls (n : nat) (path : list Z) : prog unit :=
  fd ← ask (Open path O_RDONLY);
  if fd <? 0 then ufprintf 2 ("ls: cannot open %s"↵) [AStr (Some path)] else
  r ← ask (Fstat fd);
  match r with
  | None => ufprintf 2 ("ls: cannot stat %s"↵) [AStr (Some path)];; ask (Close fd);; mret tt
  | Some st =>
      (if (st_type st =? T_DEVICE) || (st_type st =? T_FILE) then ls_line path st
       else if st_type st =? T_DIR then
         if len path + 1 + DIRSIZ + 1 >? 512 then uprintf ("ls: path too long"↵) []
         else repeat_prog n (ls_step fd path) tt
       else mret tt);;
      ask (Close fd);; mret tt
  end.

Definition ls_main (n : nat) (argv : list (list Z)) : prog unit :=
  match argv with
  | [] | [_] => ls n (codes ".");; exit 0
  | _ :: paths => each_prog paths (ls n);; exit 0
  end.

(** ** Running them on files *)

(** The files by their paths, what is left to read of the open descriptors, and
    what was written to each. *)
Record ws := Ws { w_files : gmap (list Z) (list Z); w_fds : gmap Z (list Z); w_out : gmap Z (list Z) }.
Definition set_fds t w : ws := Ws (w_files w) t (w_out w).
Definition wrote (fd : Z) (bs : list Z) w : ws := Ws (w_files w) (w_fds w) (<[fd := default [] (w_out w !! fd) ++ bs]> (w_out w)).
Definition unused (t : gmap Z (list Z)) : option Z := snd <$> list_find (λ fd, t !! fd = None) (seqZ 0 NOFILE).

Inductive outcome (A : Type) : Type := Returned (a : A) (w : ws) | Exited (status : Z) (w : ws) | Hung.
Arguments Returned {A} _ _.
Arguments Exited {A} _ _.
Arguments Hung {A}.

Section World.
(** How many of the bytes left a [read] returns: at least one. *)
Context (rd : list Z → nat) (Hrd : ∀ l, l ≠ [] → (1 ≤ rd l)%nat).

Fixpoint srun {A} (p : prog A) (w : ws) : outcome A :=
  match p with
  | Ret a => Returned a w
  | Stuck => Hung
  | @Do _ R c k =>
      match c in call R return (R → prog A) → outcome A with
      | Exit n => λ _, Exited n w
      | Write fd bs => λ k, srun (k (len bs)) (wrote fd bs w)
      | Read fd n => λ k,
          match w_fds w !! fd with
          | Some l => let m := Nat.min (Z.to_nat n) (rd l) in srun (k (Some (take m l))) (set_fds (<[fd := drop m l]> (w_fds w)) w)
          | None => srun (k None) w
          end
      | Open path mode => λ k,
          match w_files w !! path, unused (w_fds w) with
          | Some l, Some fd => srun (k fd) (set_fds (<[fd := l]> (w_fds w)) w)
          | _, _ => srun (k (-1)) w
          end
      | Close fd => λ k, srun (k (if decide (is_Some (w_fds w !! fd)) then 0 else -1)) (set_fds (delete fd (w_fds w)) w)
      | _ => λ _, Hung
      end k
  end.

Definition obind {A B} (o : outcome A) (f : A → ws → outcome B) : outcome B :=
  match o with Returned a w => f a w | Exited n w => Exited n w | Hung => Hung end.
Lemma srun_bind {A B} (p : prog A) (f : A → prog B) w : srun (p ≫= f) w = obind (srun p w) (λ a w', srun (f a) w').
Proof.
  induction p as [a|R c k IH|] in w |- *; [done| |done]. cbn. destruct c; cbn; try done; try apply IH.
  - destruct (w_fds w !! fd); apply IH.
  - destruct (w_files w !! path), (unused (w_fds w)); apply IH.
Qed.

Lemma wrote_nil fd w : is_Some (w_out w !! fd) → wrote fd [] w = w.
Proof. intros [x E]. unfold wrote. rewrite E. cbn. rewrite app_nil_r, insert_id by done. by destruct w. Qed.
Lemma wrote_app fd a b w : wrote fd b (wrote fd a w) = wrote fd (a ++ b) w.
Proof. unfold wrote. cbn. rewrite lookup_insert_eq. cbn. by rewrite insert_insert_eq, app_assoc. Qed.
Lemma srun_put fd bs w : is_Some (w_out w !! fd) → srun (put fd bs) w = Returned tt (wrote fd bs w).
Proof.
  unfold put. induction bs as [|b bs IH] in w |- *; intros Hs; [by rewrite wrote_nil|]. cbn [each_prog]. rewrite srun_bind. cbn. rewrite IH by (cbn; rewrite lookup_insert_eq; by eexists). by rewrite wrote_app.
Qed.

(** A [read]. *)
Definition chunk (n : Z) (l : list Z) : nat := Nat.min (Z.to_nat n) (rd l).
Lemma srun_read {A} fd n l (k : option (list Z) → prog A) w : w_fds w !! fd = Some l →
  srun (ask (Read fd n) ≫= k) w = srun (k (Some (take (chunk n l) l))) (set_fds (<[fd := drop (chunk n l) l]> (w_fds w)) w).
Proof using. intros E. cbn [ask mbind prog_bind srun]. by rewrite E. Qed.
Lemma srun_write {A} fd bs (k : Z → prog A) w : srun (ask (Write fd bs) ≫= k) w = srun (k (len bs)) (wrote fd bs w).
Proof using. done. Qed.
Lemma srun_open {A} f l fd mode (k : Z → prog A) w : w_files w !! f = Some l → unused (w_fds w) = Some fd → srun (ask (Open f mode) ≫= k) w = srun (k fd) (set_fds (<[fd := l]> (w_fds w)) w).
Proof using. intros E1 E2. cbn [ask mbind prog_bind srun]. by rewrite E1, E2. Qed.
Lemma srun_close {A} fd l (k : Z → prog A) w : w_fds w !! fd = Some l → srun (ask (Close fd) ≫= k) w = srun (k 0) (set_fds (delete fd (w_fds w)) w).
Proof using. intros E. cbn [ask mbind prog_bind srun]. rewrite decide_True; [done|by eexists]. Qed.
Lemma chunk_some l n : l ≠ [] → 1 ≤ n → ∃ b bs, take (chunk n l) l = b :: bs ∧ (length (drop (chunk n l) l) < length l)%nat.
Proof using Hrd.
  intros Hne Hn. pose proof (Hrd l Hne) as Hr. assert (1 ≤ chunk n l)%nat as Hc by (unfold chunk; lia). destruct l as [|b l]; [done|]. destruct (chunk n (b :: l)) as [|m]; [lia|]. exists b, (take m l). split; [done|]. cbn [drop length]. rewrite length_drop. lia.
Qed.

(** [cat] copies what it reads. *)
Lemma cat_copies fd l n w : (length l < n)%nat → w_fds w !! fd = Some l → is_Some (w_out w !! 1) → srun (cat n fd) w = Returned tt (wrote 1 l (set_fds (<[fd := []]> (w_fds w)) w)).
Proof using Hrd.
  unfold cat. induction n as [|n IH] in l, w |- *; [lia|]. intros Hn Hfd Ho. cbn [repeat_prog]. rewrite srun_bind. unfold cat_step at 1. rewrite (srun_read fd 512 l) by done. destruct (decide (l = [])) as [->|Hne].
  - rewrite take_nil, drop_nil. cbn [obind srun mret prog_ret]. by rewrite wrote_nil.
  - destruct (chunk_some l 512 Hne ltac:(lia)) as (b & bs & E & Hlen). set (m := chunk 512 l) in *. rewrite E, srun_write, Z.eqb_refl. cbn [negb obind srun mret prog_ret].
    rewrite (IH (drop m l)); [|lia|cbn; apply lookup_insert_eq|cbn; rewrite lookup_insert_eq; by eexists].
    f_equal. rewrite <-E. unfold wrote, set_fds. cbn. rewrite lookup_insert_eq. cbn. by rewrite !insert_insert_eq, <-app_assoc, take_drop.
Qed.

(** The descriptors of a program that is started: those up to 2 are open. *)
Record std_world (w : ws) : Prop := {
  sw_fds : ∀ fd, 0 ≤ fd ≤ 2 → is_Some (w_fds w !! fd);
  sw_free : w_fds w !! 3 = None;
  sw_out : is_Some (w_out w !! 1) ∧ is_Some (w_out w !! 2)
}.
Lemma std_wrote fd bs w : std_world w → std_world (wrote fd bs w).
Proof using.
  intros [H1 H2 [H3 H4]]. split; [done|done|]. cbn. split; (destruct (decide (fd = 1)) as [->|]; [|destruct (decide (fd = 2)) as [->|]]; rewrite ?lookup_insert_eq, ?lookup_insert_ne by lia; done).
Qed.
Lemma unused_3 w : std_world w → unused (w_fds w) = Some 3.
Proof using.
  intros [H1 H2 _]. unfold unused. change (seqZ 0 NOFILE) with (0 :: 1 :: 2 :: 3 :: seqZ 4 12). cbn [list_find].
  destruct (H1 0 ltac:(lia)) as [? ->]. destruct (H1 1 ltac:(lia)) as [? ->]. destruct (H1 2 ltac:(lia)) as [? ->]. rewrite H2. rewrite !decide_False, decide_True by done. done.
Qed.

(** Opening, reading to the end and closing. *)
Lemma opened_closed f l (body : Z → prog unit) out w : std_world w → w_files w !! f = Some l →
  srun (body 3) (set_fds (<[3 := l]> (w_fds w)) w) = Returned tt (wrote 1 out (set_fds (<[3 := []]> (w_fds w)) w)) →
  ∀ other, srun (fd ← ask (Open f O_RDONLY); if fd <? 0 then other else body fd;; ask (Close fd);; mret tt) w = Returned tt (wrote 1 out w).
Proof using.
  intros Hw Hf Hbody other. rewrite (srun_open f l 3) by (done || by apply unused_3). change (3 <? 0) with false. cbv iota. rewrite srun_bind, Hbody. cbn [obind]. rewrite (srun_close 3 []) by (cbn; apply lookup_insert_eq).
  cbn [srun mret prog_ret]. f_equal. destruct Hw as [_ Hn _], w as [fs t o]. unfold wrote, set_fds. cbn in *. f_equal. rewrite delete_insert_eq. by apply delete_id.
Qed.

Lemma each_files (body : list Z → prog unit) (out : list Z → list Z → list Z) fs ls : ∀ w,
  std_world w → Forall2 (λ f l, w_files w !! f = Some l) fs ls →
  (∀ f l w', (f, l) ∈ zip fs ls → std_world w' → w_files w' !! f = Some l → srun (body f) w' = Returned tt (wrote 1 (out f l) w')) →
  srun (each_prog fs body) w = Returned tt (wrote 1 (concat (zip_with out fs ls)) w).
Proof using.
  induction fs as [|f fs IH] in ls |- *; intros w Hw Hf Hb; [inversion Hf; cbn; destruct Hw as [_ _ [? _]]; by rewrite wrote_nil|]. inversion Hf as [|? l ? ls' E Hf']; subst. cbn [each_prog]. rewrite srun_bind, (Hb f l) by (done || by left). cbn [obind].
  rewrite (IH ls' (wrote 1 (out f l) w)); [by rewrite wrote_app|by apply std_wrote|done|]. intros f' l' w' Hin. apply Hb. by right.
Qed.

(** [cat] prints its files one after the other. *)
Theorem cat_prints n c fs ls w : std_world w → fs ≠ [] → Forall2 (λ f l, w_files w !! f = Some l) fs ls → Forall (λ l, (length l < n)%nat) ls →
  srun (cat_main n (c :: fs)) w = Exited 0 (wrote 1 (concat ls) w).
Proof using Hrd.
  intros Hw Hne Hf Hn. assert (srun (each_prog fs (λ f, fd ← ask (Open f O_RDONLY); if fd <? 0 then ufprintf 2 ("cat: cannot open %s"↵) [AStr (Some f)];; exit 1 else cat n fd;; ask (Close fd);; mret tt)) w = Returned tt (wrote 1 (concat ls) w)) as E.
  { rewrite (each_files _ (λ _ l, l) fs ls w Hw Hf); [do 2 f_equal; clear -Hf; induction Hf; [done|]; cbn; by f_equal|]. intros f l w' Hin Hw' El. apply (opened_closed f l (cat n)); try done.
    rewrite (cat_copies 3 l); [unfold set_fds; cbn; by rewrite insert_insert_eq| |cbn; apply lookup_insert_eq|by destruct Hw' as [_ _ [? _]]]. apply (proj1 (Forall_forall _ _) Hn). by eapply elem_of_zip_r. }
  destruct fs as [|f fs]; [done|]. cbn [cat_main]. rewrite srun_bind, E. done.
Qed.

(** A file that is not there ends it, with what was before it printed. *)
Theorem cat_missing n c f fs w : std_world w → w_files w !! f = None →
  srun (cat_main n (c :: f :: fs)) w = Exited 1 (wrote 2 (default [] (Uprintf.fprintf ("cat: cannot open %s"↵) [AStr (Some f)])) w).
Proof using.
  intros [_ _ [_ Ho]] Hf. unfold cat_main. cbn [each_prog]. rewrite !srun_bind. unfold ask at 1. cbn [srun]. rewrite Hf. cbn [obind srun]. change (-1 <? 0) with true. cbv iota. rewrite srun_bind. unfold ufprintf. by rewrite srun_put.
Qed.

(** ** What [wc] counts *)

Definition blank (b : Z) : bool := Ulib.strchr [32; 13; 9; 10; 11] b.
Definition lines (bs : list Z) : Z := len (filter (λ b, b = 10) bs).
(** A word begins at [k]. *)
Definition begins (bs : list Z) (k : nat) : Prop :=
  match bs !! k with Some b => blank b = false ∧ (k = 0%nat ∨ default true (blank <$> bs !! (k - 1)%nat) = true) | None => False end.
#[local] Instance begins_dec bs k : Decision (begins bs k).
Proof. unfold begins. destruct (bs !! k); apply _. Defined.
Definition words (bs : list Z) : Z := len (filter (begins bs) (seq 0 (length bs))).

Lemma begins_app bs b k : (k < length bs)%nat → begins (bs ++ [b]) k ↔ begins bs k.
Proof using. intros Hk. unfold begins. rewrite !lookup_app_l by lia. done. Qed.

Lemma words_snoc bs b : words (bs ++ [b]) = words bs + if negb (blank b) && default true (blank <$> last bs) then 1 else 0.
Proof using.
  unfold words. rewrite length_app, seq_app, filter_app, length_app, Nat2Z.inj_add. f_equal.
  - do 2 f_equal. apply filter_ext_in. intros k Hk%elem_of_seq. apply begins_app. lia.
  - cbn [length seq]. rewrite filter_cons, filter_nil. replace (0 + length bs)%nat with (length bs) by lia. assert (begins (bs ++ [b]) (length bs) ↔ negb (blank b) && default true (blank <$> last bs) = true) as Hb.
    { unfold begins. rewrite list_lookup_middle by done. rewrite last_lookup. destruct (blank b); cbn [negb andb]; [split; [by intros [? _]|done]|]. destruct bs as [|a bs]; [cbn; split; [done|intros _; split; [done|by left]]|].
      rewrite lookup_app_l by (cbn; lia). replace (length (a :: bs) - 1)%nat with (pred (length (a :: bs))) by (cbn; lia). split; [intros [_ [?|?]]; [done|done]|intros E; split; [done|by right]]. }
    destruct (decide (begins (bs ++ [b]) (length bs))) as [Hy|Hn]; [by rewrite (proj1 Hb Hy)|]. destruct (negb (blank b) && _); [|done]. destruct Hn. by apply Hb.
Qed.

Lemma words_le bs : 0 ≤ words bs ≤ len bs.
Proof using. unfold words. pose proof (length_filter (begins bs) (seq 0 (length bs))). rewrite length_seq in *. lia. Qed.
Lemma lines_le bs : 0 ≤ lines bs ≤ len bs.
Proof using. unfold lines. pose proof (length_filter (λ b, b = 10) bs). lia. Qed.

(** The loop counts lines, words and bytes. *)
Lemma wc_counts bs : len bs < 2147483648 → foldl wc_byte (Counts 0 0 0 false) bs = Counts (lines bs) (words bs) (len bs) (negb (default true (blank <$> last bs))).
Proof using.
  induction bs as [|b bs IH] using rev_ind; [done|]. rewrite length_app. cbn [length]. intros Hl. rewrite foldl_app, IH by lia. cbn [foldl]. rewrite last_snoc, words_snoc. cbn [fmap option_fmap option_map default].
  assert (lines (bs ++ [b]) = lines bs + if b =? 10 then 1 else 0) as ->. { unfold lines. rewrite filter_app, length_app, filter_cons, filter_nil. destruct (Z.eqb_spec b 10); [rewrite decide_True by done|rewrite decide_False by done]; cbn; lia. }
  pose proof (words_le bs). pose proof (lines_le bs). unfold wc_byte. cbn [c_l c_w c_c c_inword]. fold (blank b). rewrite !(i32_small (len bs + 1)), !(i32_small (lines bs + 1)), !(i32_small (words bs + 1)) by lia.
  assert (Z.of_nat (length bs + 1) = len bs + 1) as -> by lia. assert ((if b =? 10 then lines bs + 1 else lines bs) = lines bs + (if b =? 10 then 1 else 0)) as -> by (destruct (b =? 10); lia).
  destruct (blank b), (default true (blank <$> last bs)); cbn [negb andb]; rewrite ?Z.add_0_r; done.
Qed.

Lemma wc_reads fd l n x w : (length l < n)%nat → w_fds w !! fd = Some l → srun (repeat_prog n (wc_step fd) x) w = Returned (foldl wc_byte x l) (set_fds (<[fd := []]> (w_fds w)) w).
Proof using Hrd.
  induction n as [|n IH] in l, x, w |- *; [lia|]. intros Hn Hfd. cbn [repeat_prog]. rewrite srun_bind. unfold wc_step at 1. rewrite (srun_read fd 512 l) by done. destruct (decide (l = [])) as [->|Hne].
  - rewrite take_nil, drop_nil. done.
  - destruct (chunk_some l 512 Hne ltac:(lia)) as (b & bs & E & Hlen). set (m := chunk 512 l) in *. rewrite E. cbn [obind srun mret prog_ret]. rewrite (IH (drop m l)) by (lia || (cbn; apply lookup_insert_eq)). rewrite <-E, <-foldl_app, take_drop. unfold set_fds. cbn. by rewrite insert_insert_eq.
Qed.

(** The line [wc] prints for a file. *)
Definition wc_line (f l : list Z) : list Z := default [] (Uprintf.fprintf ("%d %d %d %s"↵) [AInt (lines l); AInt (words l); AInt (len l); AStr (Some f)]).

(** [wc] prints the numbers of lines, words and bytes of its files. *)
Theorem wc_prints n c fs ls w : std_world w → fs ≠ [] → Forall2 (λ f l, w_files w !! f = Some l) fs ls → Forall (λ l, (length l < n)%nat ∧ len l < 2147483648) ls →
  srun (wc_main n (c :: fs)) w = Exited 0 (wrote 1 (concat (zip_with wc_line fs ls)) w).
Proof using Hrd.
  intros Hw Hne Hf Hn. assert (srun (each_prog fs (λ f, fd ← ask (Open f O_RDONLY); if fd <? 0 then uprintf ("wc: cannot open %s"↵) [AStr (Some f)];; exit 1 else wc n fd f;; ask (Close fd);; mret tt)) w = Returned tt (wrote 1 (concat (zip_with wc_line fs ls)) w)) as E.
  { apply (each_files _ wc_line fs ls w Hw Hf). intros f l w' Hin Hw' El. apply (opened_closed f l (λ fd, wc n fd f)); try done. destruct (proj1 (Forall_forall _ _) Hn l) as [Hn1 Hn2]; [by eapply elem_of_zip_r|].
    unfold wc. rewrite srun_bind, (wc_reads 3 l) by (done || (cbn; apply lookup_insert_eq)). cbn [obind]. rewrite wc_counts by done. cbn [c_l c_w c_c]. unfold uprintf, ufprintf. rewrite srun_put by (by destruct Hw' as [_ _ [? _]]). unfold set_fds, wc_line. cbn [w_fds w_files w_out]. rewrite insert_insert_eq. reflexivity. }
  destruct fs as [|f fs]; [done|]. cbn [wc_main]. rewrite srun_bind, E. done.
Qed.

(** [echo] prints its arguments with blanks between them. *)
Theorem echo_prints c a rest w : srun (echo_main (c :: a :: rest)) w = Exited 0 (wrote 1 (a ++ concat ((λ x, 32 :: x) <$> rest) ++ [10]) w).
Proof using.
  unfold echo_main. cbn [tail]. rewrite srun_bind. assert (∀ args b w, srun (echo_args (b :: args)) w = Returned tt (wrote 1 (b ++ concat ((λ x, 32 :: x) <$> args) ++ [10]) w)) as E; [|by rewrite E].
  clear. induction args as [|x args IH]; intros b w; cbn [echo_args]; rewrite !srun_write.
  - cbn [srun mret prog_ret fmap list_fmap concat app]. by rewrite wrote_app.
  - specialize (IH x (wrote 1 [32] (wrote 1 b w))). cbn [echo_args] in IH. rewrite !srun_write in IH. rewrite IH, !wrote_app. cbn [fmap list_fmap concat]. by rewrite <-!app_assoc.
Qed.
End World.
