(* ===== verification/Mkfs.v ===== *)
(** * The image builder: [mkfs/mkfs.c]

    [mkfs] writes the file system the kernel boots from: the superblock, an empty
    log, the inodes and blocks of the root directory and of the files it is given,
    and the bitmap.  It runs on the host, which is taken to be little-endian; a
    failed [assert] and [die] end it. *)

From S2P Require Import Prelude Mem Kstring Layout BufIface Sleeplock TxIface Fs Trap.

Set Default Proof Using "Type".

Definition NINODES : Z := 200.
Definition nbitmap : Z := FSSIZE / BPB + 1.
Definition ninodeblocks : Z := NINODES / IPB + 1.
Definition nlog : Z := LOGBLOCKS + 1.
Definition nmeta : Z := 2 + nlog + ninodeblocks + nbitmap.
Definition nblocks : Z := FSSIZE - nmeta.

(** The bytes of [y] are those of [x], lowest first. *)
Definition xshort (x : Z) : Z := u8 x + 256 * u8 (Z.shiftr x 8).
Definition xint (x : Z) : Z := u8 x + 256 * u8 (Z.shiftr x 8) + 65536 * u8 (Z.shiftr x 16) + 16777216 * u8 (Z.shiftr x 24).

(** The image, by blocks, and its length in blocks; [sb], [freeinode] and
    [freeblock]. *)
Record mkst := Mk { k_img : disk; k_end : Z; k_sb : superblock; k_freeinode : Z; k_freeblock : Z }.
Definition set_k_img d e s : mkst := Mk d e (k_sb s) (k_freeinode s) (k_freeblock s).
Definition set_k_sb v s : mkst := Mk (k_img s) (k_end s) v (k_freeinode s) (k_freeblock s).
Definition set_k_freeinode v s : mkst := Mk (k_img s) (k_end s) (k_sb s) v (k_freeblock s).
Definition set_k_freeblock v s : mkst := Mk (k_img s) (k_end s) (k_sb s) (k_freeinode s) v.

Definition assert_ (c : bool) : M mkst unit := panic_if (negb c) "assert".
Definition die {A} (msg : string) : M mkst A := panic msg.

(** The offset in bytes is a [uint]; a write behind the end extends the image. *)
Definition wsect (sec : Z) (buf : mem) : M mkst unit :=
  let sec := u32 (sec * BSIZE) / BSIZE in
  modify (λ s, set_k_img (<[sec := buf]> (k_img s)) (Z.max (k_end s) (sec + 1)) s).

Definition rsect (sec : Z) : M mkst mem :=
  let sec := u32 (sec * BSIZE) / BSIZE in
  e ← gets k_end;
  if sec <? e then gets (λ s, dblk (k_img s) sec) else die "read".

Definition winode (inum : Z) (ip : dinode) : M mkst unit :=
  sb ← gets k_sb;
  let bn := IBLOCK inum sb in
  buf ← rsect bn;
  wsect bn (st_di buf (inum mod IPB) ip).

Definition rinode (inum : Z) : M mkst dinode :=
  sb ← gets k_sb;
  let bn := IBLOCK inum sb in
  buf ← rsect bn;
  mret (ld_di buf (inum mod IPB)).

Definition ialloc (type : Z) : M mkst Z :=
  inum ← gets k_freeinode;
  modify (set_k_freeinode (u32 (inum + 1)));;
  winode inum (d_set_size (xint 0) (d_set_nlink (xshort 1) (d_set_type (xshort type) dinode0)));;
  mret inum.

Definition balloc (used : Z) : M mkst unit :=
  assert_ (used <? BPB);;
  let buf := foldl (λ m i, stb m (i / 8) (Z.lor (ldb m (i / 8)) (Z.shiftl 1 (i mod 8)))) ∅ (seqZ 0 used) in
  sb ← gets k_sb;
  wsect (sb_bmapstart sb) buf.

(** [freeblock++] *)
Definition newblock : M mkst Z :=
  b ← gets k_freeblock;
  modify (set_k_freeblock (u32 (b + 1)));;
  mret b.

Definition addr (din : dinode) (k : Z) : Z := default 0 (di_addrs din !! Z.to_nat k).

(** The block of the file for its block [fbn], and the inode. *)
Definition iappend_block (fbn : Z) (din : dinode) : M mkst (Z * dinode) :=
  if fbn <? NDIRECT then
    din ← (if xint (addr din fbn) =? 0 then b ← newblock; mret (d_set_addr fbn (xint b) din) else mret din);
    mret (xint (addr din fbn), din)
  else
    din ← (if xint (addr din NDIRECT) =? 0 then b ← newblock; mret (d_set_addr NDIRECT (xint b) din) else mret din);
    indirect ← rsect (xint (addr din NDIRECT));
    indirect ← (if ld32 indirect (4 * (fbn - NDIRECT)) =? 0 then
                  b ← newblock;
                  let indirect := st32 indirect (4 * (fbn - NDIRECT)) (xint b) in
                  wsect (xint (addr din NDIRECT)) indirect;;
                  mret indirect
                else mret indirect);
    mret (xint (ld32 indirect (4 * (fbn - NDIRECT))), din).

(** The loop of [iappend]: [p] is what is left of the bytes. *)
Definition iappend_step (x : Z * list Z * dinode) : M mkst ((Z * list Z * dinode) + (Z * dinode)) :=
  let '(off, p, din) := x in
  let n := Z.of_nat (length p) in
  if negb (n >? 0) then mret (inr (off, din)) else
  let fbn := off / BSIZE in
  assert_ (fbn <? MAXFILE);;
  '(b, din) ← iappend_block fbn din;
  let n1 := Z.min n ((fbn + 1) * BSIZE - off) in
  buf ← rsect b;
  wsect b (stbytes buf (off - fbn * BSIZE) (take (Z.to_nat n1) p));;
  mret (inl (off + n1, drop (Z.to_nat n1) p, din)).

Definition iappend (inum : Z) (p : list Z) : M mkst unit :=
  din ← rinode inum;
  let off := xint (di_size din) in
  '(off, din) ← loop (S (length p)) iappend_step (off, p, din);
  winode inum (d_set_size (xint off) din).

(** [struct dirent], as its 16 bytes. *)
Definition dirent (inum : Z) (name : list Z) : list Z := [u8 (xshort inum); u8 (xshort inum / 256)] ++ name_bytes name.

(** [user/] *)
Definition USER_ : list Z := [117; 115; 101; 114; 47].
Definition UNDERSCORE : Z := 95.

Definition no_user (argv : list Z) : list Z := if decide (take 5 argv = USER_) then drop 5 argv else argv.
Definition no_underscore (name : list Z) : list Z :=
  match name with c :: l => if c =? UNDERSCORE then l else name | [] => [] end.

Section Main.
(** How many of the bytes left a [read] of the host returns. *)
Context (rd : list Z → Z).

(** [while((cc = read(fd, buf, sizeof(buf))) > 0) iappend(inum, buf, cc);] *)
Definition copy_step (inum : Z) (rest : list Z) : M mkst (list Z + unit) :=
  let cc := match rest with [] => 0 | _ => rd rest end in
  if negb (cc >? 0) then mret (inr tt) else
  iappend inum (take (Z.to_nat cc) rest);;
  mret (inl (drop (Z.to_nat cc) rest)).

(** A file of the command line: its name, and its bytes if it can be opened. *)
Definition add_file (rootino : Z) (arg : list Z * option (list Z)) : M mkst unit :=
  let '(argv, data) := arg in
  let shortname := no_user argv in
  assert_ (bool_decide (SLASH ∉ shortname));;
  match data with
  | None => die "open"
  | Some bytes =>
      let shortname := no_underscore shortname in
      assert_ (Z.of_nat (length shortname) <=? DIRSIZ);;
      inum ← ialloc T_FILE;
      iappend rootino (dirent inum shortname);;
      loop (S (length bytes)) (copy_step inum) bytes
  end.

Definition mkfs_sb : superblock :=
  SB FSMAGIC (xint FSSIZE) (xint nblocks) (xint NINODES) (xint nlog) (xint 2) (xint (2 + nlog)) (xint (2 + nlog + ninodeblocks)).

(** [struct superblock] at the start of a block. *)
Definition st_sb (m : mem) (sb : superblock) : mem :=
  let m := st32 m 0 (sb_magic sb) in
  let m := st32 m 4 (sb_size sb) in
  let m := st32 m 8 (sb_nblocks sb) in
  let m := st32 m 12 (sb_ninodes sb) in
  let m := st32 m 16 (sb_nlog sb) in
  let m := st32 m 20 (sb_logstart sb) in
  let m := st32 m 24 (sb_inodestart sb) in
  st32 m 28 (sb_bmapstart sb).

Definition DOT : list Z := [46].

(** The arguments behind the name of the image. *)
Definition main (files : list (list Z * option (list Z))) : M mkst unit :=
  modify (set_k_sb mkfs_sb);;
  modify (set_k_freeblock nmeta);;
  for_each (seqZ 0 FSSIZE) (λ i, wsect i ∅);;
  wsect 1 (st_sb ∅ mkfs_sb);;
  rootino ← ialloc T_DIR;
  assert_ (rootino =? ROOTINO);;
  iappend rootino (dirent rootino DOT);;
  iappend rootino (dirent rootino (DOT ++ DOT));;
  for_each files (add_file rootino);;
  din ← rinode rootino;
  let off := xint (di_size din) in
  let off := (off / BSIZE + 1) * BSIZE in
  winode rootino (d_set_size (xint off) din);;
  used ← gets k_freeblock;
  balloc used.

(** [mkfs] starts with an empty file. *)
Definition mk0 : mkst := Mk ∅ 0 (SB 0 0 0 0 0 0 0 0) 1 0.
End Main.
