(* ===== verification/MkfsCorrect.v ===== *)
(** * The files [mkfs] makes

    The blocks of the image are handed out in order, each to one block of one
    file; [finv] says what of a file holds while it grows. *)

From S2P Require Import Prelude Mem Kstring Layout BufIface Sleeplock TxIface Fs FsBlock FsFile FsBmap FsWrite Trap TrapProps Mkfs.

Set Default Proof Using "Type".

Notation sbk := (SB FSMAGIC 2000 1953 200 31 2 33 46).
Lemma mkfs_sb_eq : mkfs_sb = sbk.
Proof. reflexivity. Qed.

Lemma xint_small x : 0 ≤ x < 4294967296 → xint x = x.
Proof.
  intros Hx. unfold xint, u8. rewrite !Z.shiftr_div_pow2 by lia. change (2 ^ 8) with 256. change (2 ^ 16) with (256 * 256). change (2 ^ 24) with (256 * 256 * 256).
  rewrite <-!Z.div_div by lia. pose proof (Z.div_mod x 256). pose proof (Z.div_mod (x / 256) 256). pose proof (Z.div_mod (x / 256 / 256) 256). rewrite (Z.mod_small (x / 256 / 256 / 256)); [lia|].
  rewrite !Z.div_div by lia. split; [apply Z.div_pos; lia|apply Z.div_lt_upper_bound; lia].
Qed.

(** ** A growing file *)

(** Block [a] was given to block [bn] of inode [i]: [A a = (i, bn)], with -1 for
    the indirect block.  [nb] blocks of the file are there; [bytes] are its first
    bytes, behind them are zeros. *)
Record finv (cur : Z → mem) (fb : Z) (A : Z → Z * Z) (i : Z) (x : dinode) (nb : Z) (bytes : list Z) : Prop := {
  fi_len : length (di_addrs x) = 13%nat;
  fi_nb : 0 ≤ nb ≤ 268;
  fi_none : ∀ bn, nb ≤ bn < 268 → faddr cur x bn = 0;
  fi_own : ∀ bn, 0 ≤ bn < nb → 47 ≤ faddr cur x bn < fb ∧ A (faddr cur x bn) = (i, bn);
  fi_ind : 12 < nb → ind x ≠ 0;
  fi_indown : ind x ≠ 0 → 47 ≤ ind x < fb ∧ A (ind x) = (i, -1);
  fi_size : Z.of_nat (length bytes) ≤ 1024 * nb;
  fi_bytes : ∀ k, 0 ≤ k < 1024 * nb → fbyte cur x k = default 0 (bytes !! Z.to_nat k)
}.

Definition aset (a i bn : Z) (A : Z → Z * Z) : Z → Z * Z := λ b, if decide (b = a) then (i, bn) else A b.

Section Finv.
Context (cur : Z → mem) (fb : Z) (A : Z → Z * Z) (i : Z) (x : dinode) (nb : Z) (bytes : list Z).
Context (Hf : finv cur fb A i x nb bytes).

(** It depends on its own blocks only. *)
Lemma finv_frame cur' fb' A' : fb ≤ fb' → (∀ a, 47 ≤ a < fb → A' a = A a) → (∀ a, 47 ≤ a < fb → (A a).1 = i → cur' a = cur a) → finv cur' fb' A' i x nb bytes.
Proof using Hf.
  intros Hfb HA Hc. destruct Hf as [H1 H2 H3 H4 H5 H6 H7 H8]. assert (∀ bn, faddr cur' x bn = faddr cur x bn) as Ha. { intros bn. apply faddr_ext. intros Hi. destruct (H6 Hi) as [? E]. apply Hc; [done|by rewrite E]. }
  split; try done.
  - intros bn Hbn. rewrite Ha. by apply H3.
  - intros bn Hbn. rewrite Ha. destruct (H4 bn Hbn) as [? E]. split; [lia|]. by rewrite HA.
  - intros Hi. destruct (H6 Hi). split; [lia|]. by rewrite HA.
  - intros k Hk. rewrite <-H8 by done. unfold fbyte. rewrite Ha. destruct (H4 (k / 1024)) as [? E]; [pose proof (Z.div_mod k 1024); pose proof (Z.mod_pos_bound k 1024); lia|]. rewrite Hc; [done|done|by rewrite E].
Qed.

Lemma faddr_d_addr y k v bn : (Z.to_nat k < length (di_addrs y))%nat → 0 ≤ k → 0 ≤ bn → faddr cur (d_set_addr k v y) bn =
  if bn <? 12 then (if bn =? k then v else faddr cur y bn) else if k =? 12 then (if v =? 0 then 0 else ld32 (cur v) (4 * (bn - 12))) else faddr cur y bn.
Proof using.
  intros Hl Hk Hbn. unfold faddr, ind, d_set_addr. cbn [di_addrs]. destruct (Z.ltb_spec bn 12).
  - destruct (Z.eqb_spec bn k) as [->|Hne]; [by rewrite list_lookup_insert_eq|]. by rewrite list_lookup_insert_ne by lia.
  - destruct (Z.eqb_spec k 12) as [->|Hne]; [by rewrite list_lookup_insert_eq|]. by rewrite list_lookup_insert_ne by lia.
Qed.
Lemma ind_d_addr y k v : (Z.to_nat k < length (di_addrs y))%nat → 0 ≤ k → ind (d_set_addr k v y) = if k =? 12 then v else ind y.
Proof using.
  intros Hl Hk. unfold ind, d_set_addr. cbn [di_addrs]. destruct (Z.eqb_spec k 12) as [->|Hne]; [by rewrite list_lookup_insert_eq|]. by rewrite list_lookup_insert_ne by lia.
Qed.

(** A direct block. *)
Lemma finv_direct : nb < 12 → ind x = 0 → 47 ≤ fb → cur fb = ∅ → finv cur (fb + 1) (aset fb i nb A) i (d_set_addr nb fb x) (nb + 1) bytes.
Proof using Hf.
  intros Hnb Hi Hfb Hz. destruct Hf as [H1 H2 H3 H4 H5 H6 H7 H8]. assert (Z.to_nat nb < length (di_addrs x))%nat as Hlt by lia.
  assert (∀ bn, 0 ≤ bn → faddr cur (d_set_addr nb fb x) bn = if bn =? nb then fb else faddr cur x bn) as Ha.
  { intros bn Hbn. rewrite faddr_d_addr by lia. destruct (Z.ltb_spec bn 12); [done|]. assert ((nb =? 12) = false) as -> by lia. by assert ((bn =? nb) = false) as -> by lia. }
  assert (ind (d_set_addr nb fb x) = 0) as Hi' by (rewrite ind_d_addr by lia; assert ((nb =? 12) = false) as -> by lia; done). unfold aset. split; try done.
  - cbn [d_set_addr di_addrs]. by rewrite length_insert.
  - lia.
  - intros bn Hbn. rewrite Ha by lia. assert ((bn =? nb) = false) as -> by lia. apply H3. lia.
  - intros bn Hbn. rewrite Ha by lia. destruct (Z.eqb_spec bn nb) as [->|Hne]; [split; [lia|by rewrite decide_True]|]. destruct (H4 bn) as [? E]; [lia|]. split; [lia|]. rewrite decide_False by lia. done.
  - lia.
  - lia.
  - intros k Hk. unfold fbyte. pose proof (Z.div_mod k 1024). pose proof (Z.mod_pos_bound k 1024). rewrite Ha by (apply Z.div_pos; lia). destruct (Z.eqb_spec (k / 1024) nb) as [E|Hne]; [|apply H8; lia].
    rewrite Hz, lookup_ge_None_2 by lia. done.
Qed.

(** The indirect block. *)
Lemma finv_indirect : nb = 12 → ind x = 0 → 47 ≤ fb → cur fb = ∅ → finv cur (fb + 1) (aset fb i (-1) A) i (d_set_addr 12 fb x) nb bytes.
Proof using Hf.
  intros Hnb Hi Hfb Hz. destruct Hf as [H1 H2 H3 H4 H5 H6 H7 H8]. assert (Z.to_nat 12 < length (di_addrs x))%nat as Hlt by lia.
  assert (∀ bn, 0 ≤ bn → faddr cur (d_set_addr 12 fb x) bn = faddr cur x bn) as Ha.
  { intros bn Hbn. rewrite faddr_d_addr by lia. destruct (Z.ltb_spec bn 12); [by assert ((bn =? 12) = false) as -> by lia|]. rewrite Hz. assert ((fb =? 0) = false) as -> by lia. cbn. unfold faddr. rewrite Hi. by assert ((bn <? 12) = false) as -> by lia. }
  unfold aset. split; try done.
  - cbn [d_set_addr di_addrs]. by rewrite length_insert.
  - intros bn Hbn. rewrite Ha by lia. by apply H3.
  - intros bn Hbn. rewrite Ha by lia. destruct (H4 bn Hbn) as [? E]. split; [lia|]. by rewrite decide_False by lia.
  - lia.
  - rewrite ind_d_addr by lia. cbn. intros _. split; [lia|]. by rewrite decide_True.
  - intros k Hk. unfold fbyte. rewrite Ha by (apply Z.div_pos; lia). by apply H8.
Qed.

(** An entry of the indirect block. *)
Lemma finv_entry : 12 ≤ nb < 268 → ind x ≠ 0 → 47 ≤ fb < 4294967296 → cur fb = ∅ →
  finv (cur_set (ind x) (st32 (cur (ind x)) (4 * (nb - 12)) fb) cur) (fb + 1) (aset fb i nb A) i x (nb + 1) bytes.
Proof using Hf.
  intros Hnb Hi Hfb Hz. destruct Hf as [H1 H2 H3 H4 H5 H6 H7 H8]. destruct (H6 Hi) as [Hir HiA]. set (cur' := cur_set _ _ cur).
  assert (∀ bn, 0 ≤ bn → faddr cur' x bn = if bn =? nb then fb else faddr cur x bn) as Ha.
  { intros bn Hbn. unfold faddr. destruct (Z.ltb_spec bn 12); [by assert ((bn =? nb) = false) as -> by lia|]. rewrite (proj2 (Z.eqb_neq _ _) Hi). unfold cur', cur_set. rewrite decide_True by done.
    destruct (Z.eqb_spec bn nb) as [->|Hne]; [apply ld32_st32_eq; lia|]. apply (ldn_stn_ne 4 4). lia. }
  unfold aset. split; try done.
  - lia.
  - intros bn Hbn. rewrite Ha by lia. assert ((bn =? nb) = false) as -> by lia. apply H3. lia.
  - intros bn Hbn. rewrite Ha by lia. destruct (Z.eqb_spec bn nb) as [->|Hne]; [split; [lia|by rewrite decide_True]|]. destruct (H4 bn) as [? E]; [lia|]. split; [lia|]. rewrite decide_False by lia. done.
  - intros _. split; [lia|]. by rewrite decide_False by lia.
  - lia.
  - intros k Hk. unfold fbyte. pose proof (Z.div_mod k 1024). pose proof (Z.mod_pos_bound k 1024). rewrite Ha by (apply Z.div_pos; lia). unfold cur', cur_set. destruct (Z.eqb_spec (k / 1024) nb) as [E|Hne].
    + rewrite decide_False by lia. rewrite Hz, lookup_ge_None_2 by lia. done.
    + destruct (H4 (k / 1024)) as [? E]; [split; [apply Z.div_pos; lia|lia]|]. rewrite decide_False; [apply H8; lia|]. intros E2. rewrite E2, HiA in E. injection E. lia.
Qed.

(** Bytes behind the last. *)
Lemma finv_write l : Forall (λ c, 0 ≤ c < 256) l → let off := Z.of_nat (length bytes) in let a := faddr cur x (off / 1024) in
  off / 1024 < nb → off + Z.of_nat (length l) ≤ (off / 1024 + 1) * 1024 →
  finv (cur_set a (stbytes (cur a) (off - off / 1024 * 1024) l) cur) fb A i x nb (bytes ++ l).
Proof using Hf.
  intros Hl off a Hnb Hroom. destruct Hf as [H1 H2 H3 H4 H5 H6 H7 H8]. pose proof (Z.div_mod off 1024). pose proof (Z.mod_pos_bound off 1024). destruct (H4 (off / 1024)) as [Har HaA]; [split; [apply Z.div_pos; lia|done]|]. fold a in Har, HaA.
  set (cur' := cur_set _ _ cur). assert (∀ bn, faddr cur' x bn = faddr cur x bn) as Ha.
  { intros bn. apply faddr_ext. intros Hi. destruct (H6 Hi) as [_ HiA]. unfold cur', cur_set. rewrite decide_False; [done|]. intros E. rewrite E, HaA in HiA. injection HiA. pose proof (Z.div_pos off 1024). lia. }
  split; try done.
  - intros bn Hbn. rewrite Ha. by apply H3.
  - intros bn Hbn. rewrite Ha. by apply H4.
  - rewrite length_app, Nat2Z.inj_add. fold off. lia.
  - intros k Hk. unfold fbyte. rewrite Ha. unfold cur', cur_set. pose proof (Z.div_mod k 1024). pose proof (Z.mod_pos_bound k 1024). destruct (decide (faddr cur x (k / 1024) = a)) as [E|Hne].
    + assert (k / 1024 = off / 1024) as Ek. { destruct (H4 (k / 1024)) as [_ E2]; [split; [apply Z.div_pos; lia|lia]|]. rewrite E, HaA in E2. by injection E2. }
      destruct (decide (off ≤ k)) as [Hge|Hlt].
      * rewrite lookup_app_r by lia. destruct (l !! (Z.to_nat k - length bytes)%nat) as [c|] eqn:El.
        -- replace (k mod 1024) with (off - off / 1024 * 1024 + Z.of_nat (Z.to_nat k - length bytes)) by lia. rewrite (ldb_stbytes_in _ _ _ _ _ El). apply Z.mod_small. by apply (proj1 (Forall_lookup _ _) Hl _ _ El).
        -- apply lookup_ge_None in El. rewrite ldb_stbytes_out by lia. cbn. rewrite <-E. change (fbyte cur x k = 0). rewrite H8, lookup_ge_None_2 by lia. done.
      * rewrite ldb_stbytes_out by lia. rewrite lookup_app_l, <-E by lia. by apply H8.
    + assert (k / 1024 ≠ off / 1024) as Ek by (intros E; apply Hne; by rewrite E). change (fbyte cur x k = default 0 ((bytes ++ l) !! Z.to_nat k)). rewrite H8 by done. destruct (decide (k < off)); [by rewrite lookup_app_l by lia|].
      rewrite !lookup_ge_None_2; [done|rewrite length_app; lia|lia].
Qed.
End Finv.

(** ** The code *)

Definition cur (s : mkst) : Z → mem := dblk (k_img s).

Record okst (s : mkst) : Prop := {
  ok_sb : k_sb s = sbk;
  ok_end : k_end s = 2000;
  ok_fb : 47 ≤ k_freeblock s ≤ 2000;
  ok_zero : ∀ a, k_freeblock s ≤ a → cur s a = ∅
}.

(** What growing file [i] leaves alone. *)
Record grows (i : Z) (s : mkst) (A : Z → Z * Z) (s' : mkst) (A' : Z → Z * Z) : Prop := {
  gr_sb : k_sb s' = k_sb s;
  gr_end : k_end s' = k_end s;
  gr_fi : k_freeinode s' = k_freeinode s;
  gr_fb : k_freeblock s ≤ k_freeblock s';
  gr_A : ∀ a, a < k_freeblock s → A' a = A a;
  gr_cur : ∀ a, a < 47 ∨ (a < k_freeblock s ∧ (A a).1 ≠ i) → cur s' a = cur s a;
  gr_zero : ∀ a, k_freeblock s' ≤ a → cur s' a = cur s a
}.
Lemma grows_refl i s A : grows i s A s A.
Proof. split; (done || lia). Qed.
Lemma grows_trans i s A s' A' s'' A'' : 47 ≤ k_freeblock s → grows i s A s' A' → grows i s' A' s'' A'' → grows i s A s'' A''.
Proof.
  intros Hfb [F1 F2 F3 F4 F5 F6 F7] [G1 G2 G3 G4 G5 G6 G7]. split; try congruence; [lia|intros a Ha; rewrite G5 by lia; by apply F5| |].
  - intros a Ha. rewrite G6; [by apply F6|]. destruct Ha as [?|[? ?]]; [by left|right]. rewrite F5 by lia. split; [lia|done].
  - intros a Ha. rewrite G7 by lia. apply F7. lia.
Qed.
Lemma grows_ok i s A s' A' : grows i s A s' A' → okst s → k_freeblock s' ≤ 2000 → okst s'.
Proof. intros [F1 F2 F3 F4 F5 F6 F7] [O1 O2 O3 O4] Hl. split; [congruence|congruence|lia|]. intros a Ha. rewrite F7 by done. apply O4. lia. Qed.

Definition put (a : Z) (m : mem) (s : mkst) : mkst := set_k_img (<[a := m]> (k_img s)) (k_end s) s.
Lemma cur_putb a m s b : cur (put a m s) b = cur_set a m (cur s) b.
Proof. unfold cur, put, cur_set, dblk. cbn. destruct (decide (b = a)) as [->|Hne]; [by rewrite lookup_insert_eq|by rewrite lookup_insert_ne]. Qed.

Lemma wp_wsect a m s (Q : unit → mkst → Prop) : k_end s = 2000 → 0 ≤ a < 2000 → Q tt (put a m s) → wp (wsect a m) Q s.
Proof.
  intros He Ha HQ. unfold wsect, BSIZE. rewrite u32_small by lia. rewrite Z.div_mul by lia. wp_step. rewrite Z.max_l by lia. exact HQ.
Qed.
Lemma wp_rsect a s (Q : mem → mkst → Prop) : k_end s = 2000 → 0 ≤ a < 2000 → Q (cur s a) s → wp (rsect a) Q s.
Proof.
  intros He Ha HQ. unfold rsect, BSIZE. rewrite u32_small by lia. rewrite Z.div_mul by lia. do 2 wp_step. assert ((a <? k_end s) = true) as -> by lia. by wp_step.
Qed.
Lemma wp_newblock s (Q : Z → mkst → Prop) : 0 ≤ k_freeblock s < 2000 → Q (k_freeblock s) (set_k_freeblock (k_freeblock s + 1) s) → wp newblock Q s.
Proof. intros Hf HQ. unfold newblock. do 5 wp_step. rewrite u32_small by lia. exact HQ. Qed.

(** The blocks a file of [nb] blocks takes. *)
Definition cost (nb : Z) : Z := nb + if 12 <? nb then 1 else 0.
Definition meta (x : dinode) := (di_type x, di_major x, di_minor x, di_nlink x, di_size x).

Lemma meta_eq x t mj mi nl sz : meta x = (t, mj, mi, nl, sz) ↔ di_type x = t ∧ di_major x = mj ∧ di_minor x = mi ∧ di_nlink x = nl ∧ di_size x = sz.
Proof. unfold meta. split; [by intros [= -> -> -> -> ->]|by intros (-> & -> & -> & -> & ->)]. Qed.

Section Block.
Context (i : Z) (bytes : list Z).

Definition file_at (s : mkst) (A : Z → Z * Z) (x : dinode) (nb : Z) : Prop := finv (cur s) (k_freeblock s) A i x nb bytes.

Lemma grows_new s A bn : grows i s A (set_k_freeblock (k_freeblock s + 1) s) (aset (k_freeblock s) i bn A).
Proof. split; cbn [set_k_freeblock k_sb k_end k_freeinode k_freeblock]; try done; [lia|]. intros a Ha. unfold aset. rewrite decide_False by lia. done. Qed.
Lemma grows_put s A a m : a < k_freeblock s → 47 ≤ a → (A a).1 = i → grows i s A (put a m s) A.
Proof.
  intros Ha Hlo HA. split; try done; cbn [put set_k_img k_freeblock].
  - intros b Hb. rewrite cur_putb. unfold cur_set. rewrite decide_False; [done|]. intros ->. destruct Hb as [?|[_ ?]]; [lia|done].
  - intros b Hb. rewrite cur_putb. unfold cur_set. by rewrite decide_False by lia.
Qed.

Section At.
Context (s : mkst) (A : Z → Z * Z) (x : dinode) (nb fbn : Z) (Hok : okst s) (Hf : file_at s A x nb) (Hfbn : 0 ≤ fbn < 268) (Hnb : nb = fbn ∨ nb = fbn + 1).
Notation fb := (k_freeblock s).

Lemma old_small bn : 0 ≤ bn < 268 → 0 ≤ faddr (cur s) x bn < 4294967296.
Proof using Hok Hf. intros Hbn. destruct Hok as [_ _ ? _], Hf as [_ _ H3 H4 _ _ _ _]. destruct (decide (nb ≤ bn)); [rewrite H3; lia|]. destruct (H4 bn); lia. Qed.
Lemma ind_small : 0 ≤ ind x < 4294967296.
Proof using Hok Hf. destruct Hok as [_ _ ? _], Hf as [_ _ _ _ _ H6 _ _]. destruct (decide (ind x = 0)); [lia|]. destruct (H6 n); lia. Qed.

(** The entry in the indirect block that is there. *)
Lemma wp_entry (Q : Z * dinode → mkst → Prop) : ind x ≠ 0 → 12 ≤ fbn → fb + (fbn + 1 - nb) ≤ 2000 →
  (∀ s' A', grows i s A s' A' → file_at s' A' x (fbn + 1) → k_freeblock s' = fb + (fbn + 1 - nb) → Q (faddr (cur s') x fbn, x) s') →
  wp (indirect ← rsect (xint (addr x NDIRECT));
      indirect ← (if ld32 indirect (4 * (fbn - NDIRECT)) =? 0 then
                    b ← newblock;
                    let indirect := st32 indirect (4 * (fbn - NDIRECT)) (xint b) in
                    wsect (xint (addr x NDIRECT)) indirect;;
                    mret indirect
                  else mret indirect);
      mret (xint (ld32 indirect (4 * (fbn - NDIRECT))), x)) Q s.
Proof using Hok Hf Hfbn Hnb.
  intros Hi H12 Hroom HQ. change (addr x NDIRECT) with (ind x). change NDIRECT with 12. rewrite (xint_small _ ind_small). pose proof Hok as [O1 O2 O3 O4]. pose proof Hf as [H1 H2 H3 H4 H5 H6 H7 H8]. destruct (H6 Hi) as [Hir HiA].
  rewrite wp_bind. apply wp_rsect; [done|lia|]. assert (ld32 (cur s (ind x)) (4 * (fbn - 12)) = faddr (cur s) x fbn) as Efa. { unfold faddr. assert ((fbn <? 12) = false) as -> by lia. by rewrite (proj2 (Z.eqb_neq _ _) Hi). }
  rewrite Efa, wp_bind. destruct Hnb as [->| ->].
  - rewrite H3 by lia. change (0 =? 0) with true. cbv iota. rewrite wp_bind. apply wp_newblock; [lia|]. rewrite xint_small by lia. cbv zeta. rewrite wp_bind. set (s1 := set_k_freeblock (fb + 1) s). set (m' := st32 (cur s (ind x)) (4 * (fbn - 12)) fb).
    apply wp_wsect; [done|lia|]. do 2 wp_step. assert (ld32 m' (4 * (fbn - 12)) = fb) as -> by (apply ld32_st32_eq; lia). rewrite xint_small by lia.
    pose proof (finv_entry _ _ _ _ _ _ _ Hf ltac:(lia) Hi ltac:(lia) (O4 fb ltac:(lia))) as Hf'. fold m' in Hf'.
    assert (faddr (cur (put (ind x) m' s1)) x fbn = fb) as Efb. { unfold faddr. assert ((fbn <? 12) = false) as -> by lia. rewrite (proj2 (Z.eqb_neq _ _) Hi), cur_putb. unfold cur_set. rewrite decide_True by done. apply ld32_st32_eq. lia. }
    rewrite <-Efb at 1. apply (HQ _ (aset fb i fbn A)).
    + eapply grows_trans; [lia|apply grows_new|]. apply grows_put; cbn; [lia|lia|]. unfold aset. rewrite decide_False by lia. by rewrite HiA.
    + unfold file_at. eapply finv_frame; [exact Hf'|cbn; lia|done|]. intros a _ _. by rewrite cur_putb.
    + cbn. lia.
  - destruct (H4 fbn) as [Hr _]; [lia|]. assert ((faddr (cur s) x fbn =? 0) = false) as -> by lia. do 2 wp_step. rewrite Efa, xint_small by lia. apply (HQ s A); [apply grows_refl|done|lia].
Qed.
End At.

Section AtBlock.
Context (s : mkst) (A : Z → Z * Z) (x : dinode) (nb fbn : Z) (Hok : okst s) (Hf : file_at s A x nb) (Hfbn : 0 ≤ fbn < 268) (Hnb : nb = fbn ∨ nb = fbn + 1).
Notation fb := (k_freeblock s).

Lemma wp_iappend_block (Q : Z * dinode → mkst → Prop) : (ind x ≠ 0 ↔ 12 < nb) → fb + cost (fbn + 1) - cost nb ≤ 2000 →
  (∀ s' A' x', grows i s A s' A' → meta x' = meta x → file_at s' A' x' (fbn + 1) → (ind x' ≠ 0 ↔ 12 < fbn + 1) → k_freeblock s' = fb + cost (fbn + 1) - cost nb → Q (faddr (cur s') x' fbn, x') s') →
  wp (iappend_block fbn x) Q s.
Proof using Hok Hf Hfbn Hnb.
  intros Hind Hroom HQ. unfold iappend_block. change (fbn <? NDIRECT) with (fbn <? 12). pose proof Hok as [O1 O2 O3 O4]. pose proof Hf as [H1 H2 H3 H4 H5 H6 H7 H8]. unfold cost in Hroom, HQ. destruct (Z.ltb_spec fbn 12) as [Hd|Hd].
  - assert (addr x fbn = faddr (cur s) x fbn) as Ea by (unfold faddr; by assert ((fbn <? 12) = true) as -> by lia). pose proof (old_small s A x nb Hok Hf fbn ltac:(lia)) as Hsm. rewrite Ea, (xint_small _ Hsm), wp_bind. destruct Hnb as [->| ->].
    + rewrite H3 by lia. change (0 =? 0) with true. cbv iota. rewrite wp_bind. apply wp_newblock; [repeat case_match; lia|]. rewrite xint_small by lia. do 2 wp_step. set (s1 := set_k_freeblock (fb + 1) s). assert (ind x = 0) as Hi0 by lia.
      pose proof (finv_direct _ _ _ _ _ _ _ Hf ltac:(lia) Hi0 ltac:(lia) (O4 fb ltac:(lia))) as Hf'. assert (addr (d_set_addr fbn fb x) fbn = fb) as -> by (unfold addr, d_set_addr; cbn [di_addrs]; by rewrite list_lookup_insert_eq by lia).
      rewrite xint_small by lia. assert (faddr (cur s1) (d_set_addr fbn fb x) fbn = fb) as Efb. { rewrite faddr_d_addr by lia. assert ((fbn <? 12) = true) as -> by lia. by rewrite Z.eqb_refl. }
      rewrite <-Efb at 1. apply (HQ s1 (aset fb i fbn A)); [apply grows_new|done|done| |cbn; repeat case_match; lia]. rewrite ind_d_addr by lia. assert ((fbn =? 12) = false) as -> by lia. lia.
    + destruct (H4 fbn) as [Hr _]; [lia|]. assert ((faddr (cur s) x fbn =? 0) = false) as -> by lia. do 2 wp_step. rewrite Ea, (xint_small _ Hsm). apply (HQ s A); [apply grows_refl|done|done|done|lia].
  - change (addr x NDIRECT) with (ind x). rewrite (xint_small _ (ind_small s A x nb Hok Hf)), wp_bind. destruct (Z.eqb_spec (ind x) 0) as [Hi0|Hi0].
    + assert (nb = 12 ∧ fbn = 12) as [E1 E2] by lia. rewrite wp_bind. apply wp_newblock; [repeat case_match; lia|]. rewrite xint_small by lia. wp_step. set (s1 := set_k_freeblock (fb + 1) s). change NDIRECT with 12 at 1.
      pose proof (finv_indirect _ _ _ _ _ _ _ Hf E1 Hi0 ltac:(lia) (O4 fb ltac:(lia))) as Hf'. set (x1 := d_set_addr 12 fb x) in *. set (A1 := aset fb i (-1) A) in *.
      assert (okst s1) as Hok1 by (eapply grows_ok; [apply (grows_new s A (-1))|done|cbn; repeat case_match; lia]).
      assert (file_at s1 A1 x1 nb) as Hf1 by exact Hf'. assert (ind x1 = fb) as Ei by (apply ind_d_addr; lia).
      apply (wp_entry s1 A1 x1 nb fbn Hok1 Hf1 Hfbn Hnb); [lia|lia|cbn; repeat case_match; lia|]. intros s' A' Hg Hf2 Efb. apply (HQ s' A' x1).
      * eapply grows_trans; [lia|apply grows_new|exact Hg].
      * done.
      * done.
      * lia.
      * cbn in Efb. repeat case_match; lia.
    + wp_step. apply (wp_entry s A x nb fbn Hok Hf Hfbn Hnb); [done|done|repeat case_match; lia|]. intros s' A' Hg Hf' Efb. apply (HQ s' A' x); [done|done|done|lia|repeat case_match; lia].
Qed.
End AtBlock.
End Block.

(** ** [iappend] *)

Definition blocks (n : Z) : Z := (n + 1023) / 1024.
Notation len l := (Z.of_nat (length l)).

Lemma cost_mono n m : n ≤ m → cost (blocks n) ≤ cost (blocks m).
Proof. intros H. pose proof (Z.div_le_mono (n + 1023) (m + 1023) 1024). unfold cost, blocks. repeat case_match; lia. Qed.

(** File [i], closed. *)
Record grown (i : Z) (s : mkst) (A : Z → Z * Z) (x : dinode) (bytes : list Z) : Prop := {
  go_file : finv (cur s) (k_freeblock s) A i x (blocks (len bytes)) bytes;
  go_ind : ind x ≠ 0 ↔ 12 < blocks (len bytes)
}.

Section Append.
Context (i : Z).

Lemma wp_iappend_step s A x bytes p (Q : (Z * list Z * dinode) + (Z * dinode) → mkst → Prop) :
  okst s → grown i s A x bytes → Forall (λ c, 0 ≤ c < 256) p → p ≠ [] → len bytes + len p ≤ 268 * 1024 →
  k_freeblock s + cost (blocks (len bytes + len p)) - cost (blocks (len bytes)) ≤ 2000 →
  (∀ n1 s' A' x', (1 ≤ n1 ≤ length p)%nat → okst s' → grows i s A s' A' → meta x' = meta x → grown i s' A' x' (bytes ++ take n1 p) →
     k_freeblock s' = k_freeblock s + cost (blocks (len bytes + Z.of_nat n1)) - cost (blocks (len bytes)) → Q (inl (len bytes + Z.of_nat n1, drop n1 p, x')) s') →
  wp (iappend_step (len bytes, p, x)) Q s.
Proof.
  intros Hok [Hf Hi] Hp Hne Hsz Hroom HQ. unfold iappend_step. assert (1 ≤ length p)%nat as Hl by (destruct p; [done|cbn; lia]). assert ((len p >? 0) = true) as -> by lia. cbn [negb]. change BSIZE with 1024. change MAXFILE with 268.
  set (off := len bytes) in *. assert (0 ≤ off / 1024 < 268 ∧ off / 1024 * 1024 ≤ off < (off / 1024 + 1) * 1024) as [Hfbn Hoff] by (pose proof (Z.div_mod off 1024); pose proof (Z.mod_pos_bound off 1024); lia).
  assert (blocks off = off / 1024 ∨ blocks off = off / 1024 + 1) as Hnb by (unfold blocks; pose proof (Z.div_mod (off + 1023) 1024); pose proof (Z.mod_pos_bound (off + 1023) 1024); lia). set (fbn := off / 1024) in *.
  unfold assert_. wp_step. wp_step; [assert ((fbn <? 268) = true) as -> by lia; done|]. wp_step.
  set (n1 := Z.min (len p) ((fbn + 1) * 1024 - off)). assert (blocks (off + n1) = fbn + 1) as Hnb' by (unfold blocks; symmetry; apply (Z.div_unique _ _ _ (off + n1 + 1023 - 1024 * (fbn + 1))); lia).
  pose proof (cost_mono (off + n1) (off + len p) ltac:(lia)) as Hc. rewrite Hnb' in Hc. apply (wp_iappend_block i bytes s A x (blocks off) fbn Hok Hf Hfbn Hnb _ Hi); [lia|].
  intros s1 A1 x1 Hg Hm Hf1 Hi1 Hfb. pose proof (grows_ok _ _ _ _ _ Hg Hok ltac:(lia)) as Hok1. pose proof Hok1 as [_ He1 Hfb1 _]. pose proof Hf1 as [_ _ _ H4 _ _ _ _]. destruct (H4 fbn ltac:(lia)) as [Hr HA]. set (a := faddr (cur s1) x1 fbn) in *.
  rewrite wp_bind. apply wp_rsect; [done|lia|]. rewrite wp_bind. apply wp_wsect; [done|lia|]. wp_step. set (l := take (Z.to_nat n1) p). assert (length l = Z.to_nat n1) as Hll by (apply length_take_le; lia).
  pose proof (finv_write _ _ _ _ _ _ _ Hf1 l (Forall_take _ _ _ Hp)) as Hf2. cbv zeta in Hf2. fold off in Hf2. fold fbn in Hf2. fold a in Hf2. specialize (Hf2 ltac:(lia) ltac:(lia)).
  assert (grows i s1 A1 (put a (stbytes (cur s1 a) (off - fbn * 1024) l) s1) A1) as Hg2 by (apply grows_put; [lia|lia|by rewrite HA]).
  replace (off + n1) with (off + Z.of_nat (Z.to_nat n1)) by lia. apply (HQ _ _ A1); [lia| |eapply grows_trans; [by destruct Hok as [_ _ [? _] _]|done|done]|done| |cbn; rewrite Z2Nat.id, Hnb' by lia; exact Hfb].
  - eapply grows_ok; [done|done|cbn; lia].
  - split; rewrite length_app, Nat2Z.inj_add; fold off; fold l; rewrite Hll, Z2Nat.id, Hnb' by lia; [|done]. eapply finv_frame; [exact Hf2|cbn; lia|done|]. intros b _ _. by rewrite cur_putb.
Qed.

Lemma wp_iappend_loop fuel : ∀ s A x bytes p (Q : Z * dinode → mkst → Prop),
  (length p < fuel)%nat → okst s → grown i s A x bytes → Forall (λ c, 0 ≤ c < 256) p → len bytes + len p ≤ 268 * 1024 →
  k_freeblock s + cost (blocks (len bytes + len p)) - cost (blocks (len bytes)) ≤ 2000 →
  (∀ s' A' x', okst s' → grows i s A s' A' → meta x' = meta x → grown i s' A' x' (bytes ++ p) →
     k_freeblock s' = k_freeblock s + cost (blocks (len bytes + len p)) - cost (blocks (len bytes)) → Q (len bytes + len p, x') s') →
  wp (loop fuel iappend_step (len bytes, p, x)) Q s.
Proof.
  induction fuel as [|fuel IH]; intros s A x bytes p Q Hfuel Hok Hgo Hp Hsz Hroom HQ; [lia|]. cbn [loop]. rewrite wp_bind. destruct (decide (p = [])) as [->|Hne].
  - unfold iappend_step. change (negb (len [] >? 0)) with true. cbv iota. do 2 wp_step. specialize (HQ s A x). rewrite app_nil_r in HQ. cbn [length] in HQ. rewrite Z.add_0_r in HQ. apply HQ; [done|apply grows_refl|done|done|lia].
  - apply (wp_iappend_step s A x bytes p); try done. intros n1 s' A' x' Hn1 Hok' Hg Hm Hgo' Hfb. assert (len (take n1 p) = Z.of_nat n1) as Hlt by (rewrite length_take_le; lia). assert (len (drop n1 p) = len p - Z.of_nat n1) as Hld by (rewrite length_drop; lia).
    replace (len bytes + Z.of_nat n1) with (len (bytes ++ take n1 p)) by (rewrite length_app; lia). assert (len (bytes ++ take n1 p) = len bytes + Z.of_nat n1) as Hlb by (rewrite length_app; lia).
    apply (IH s' A' x'); [rewrite length_drop; lia|done|done|by apply Forall_drop|lia|rewrite Hlb, Hld, Hfb; replace (len bytes + Z.of_nat n1 + (len p - Z.of_nat n1)) with (len bytes + len p) by lia; lia|].
    intros s2 A2 x2 Hok2 Hg2 Hm2 Hgo2 Hfb2. rewrite Hlb, Hld in Hfb2 |- *. rewrite <-app_assoc, take_drop in Hgo2. replace (len bytes + Z.of_nat n1 + (len p - Z.of_nat n1)) with (len bytes + len p) in Hfb2 |- * by lia.
    apply (HQ s2 A2); [done|eapply grows_trans; [by destruct Hok as [_ _ [? _] _]|done|done]|congruence|done|lia].
Qed.
End Append.

(** ** The image *)

(** Inode [i] of the image. *)
Definition di (s : mkst) (i : Z) : dinode := ld_di (cur s (IBLOCK i sbk)) (i mod IPB).

Lemma IBLOCK_eq i : 0 ≤ i < 200 → IBLOCK i sbk = i / 16 + 33 ∧ 33 ≤ i / 16 + 33 < 46.
Proof. intros Hi. unfold IBLOCK. change IPB with 16. cbn [sb_inodestart]. pose proof (Z.div_mod i 16). pose proof (Z.mod_pos_bound i 16). rewrite u32_small by lia. lia. Qed.

Record closed (s : mkst) (A : Z → Z * Z) (i ty : Z) (bytes : list Z) : Prop := {
  cl_meta : meta (di s i) = (ty, 0, 0, 1, len bytes);
  cl_grown : grown i s A (di s i) bytes
}.

(** The files made so far, with their types and bytes. *)
Record image (C : gmap Z (Z * list Z)) (A : Z → Z * Z) (s : mkst) : Prop := {
  im_ok : okst s;
  im_fi : 1 ≤ k_freeinode s ≤ 200;
  im_dom : ∀ i, is_Some (C !! i) → 1 ≤ i < k_freeinode s;
  im_files : ∀ i ty bytes, C !! i = Some (ty, bytes) → closed s A i ty bytes;
  im_free : ∀ i, k_freeinode s ≤ i < 200 → di s i = dinode0;
  im_fixed : ∀ a, a = 0 ∨ 2 ≤ a < 33 ∨ a = 46 → cur s a = ∅;
  im_sb : cur s 1 = st_sb ∅ sbk
}.

(** [winode] *)
Definition put_di (i : Z) (x : dinode) (s : mkst) : mkst := put (IBLOCK i sbk) (st_di (cur s (IBLOCK i sbk)) (i mod IPB) x) s.
Lemma di_put_eq i x s : di_fits x → di (put_di i x s) i = x.
Proof. intros Hx. unfold di, put_di. rewrite cur_putb. unfold cur_set. rewrite decide_True by done. by apply ld_st_di. Qed.
Lemma di_put_ne i j x s : 0 ≤ i < 200 → 0 ≤ j < 200 → i ≠ j → di (put_di i x s) j = di s j.
Proof.
  intros Hi Hj Hne. unfold di, put_di. rewrite cur_putb. unfold cur_set. destruct (decide _) as [E|]; [|done]. destruct (IBLOCK_eq i Hi) as [E1 _]. destruct (IBLOCK_eq j Hj) as [E2 _]. rewrite E. apply ld_st_di_ne. change IPB with 16.
  rewrite E1, E2 in E. pose proof (Z.div_mod i 16). pose proof (Z.div_mod j 16). lia.
Qed.
Lemma cur_put_di i x s a : 0 ≤ i < 200 → ¬ 33 ≤ a < 46 → cur (put_di i x s) a = cur s a.
Proof. intros Hi Ha. destruct (IBLOCK_eq i Hi). unfold put_di. rewrite cur_putb. unfold cur_set. by rewrite decide_False by lia. Qed.
Lemma grown_put_di i j x y bytes s A : 0 ≤ i < 200 → grown j s A y bytes → grown j (put_di i x s) A y bytes.
Proof. intros Hi [Hf Hd]. split; [|done]. eapply finv_frame; [exact Hf|cbn; lia|done|]. intros a Ha _. apply cur_put_di; [done|lia]. Qed.

Lemma wp_winode i x s (Q : unit → mkst → Prop) : okst s → 0 ≤ i < 200 → Q tt (put_di i x s) → wp (winode i x) Q s.
Proof.
  intros [Hsb He _ _] Hi HQ. destruct (IBLOCK_eq i Hi). unfold winode. do 2 wp_step. rewrite Hsb, wp_bind. apply wp_rsect; [done|lia|]. apply wp_wsect; [done|lia|]. exact HQ.
Qed.
Lemma wp_rinode i s (Q : dinode → mkst → Prop) : okst s → 0 ≤ i < 200 → Q (di s i) s → wp (rinode i) Q s.
Proof.
  intros [Hsb He _ _] Hi HQ. destruct (IBLOCK_eq i Hi). unfold rinode. do 2 wp_step. rewrite Hsb, wp_bind. apply wp_rsect; [done|lia|]. by wp_step.
Qed.

Lemma okst_put_di i x s : 0 ≤ i < 200 → okst s → okst (put_di i x s).
Proof. intros Hi [O1 O2 O3 O4]. split; try done. intros a Ha. cbn in Ha. rewrite cur_put_di by lia. by apply O4. Qed.

(** Another inode written. *)
Lemma image_put_di C A s i ty bytes x : image C A s → di_fits x → 1 ≤ i < k_freeinode s → meta x = (ty, 0, 0, 1, len bytes) → grown i s A x bytes → image (<[i := (ty, bytes)]> C) A (put_di i x s).
Proof.
  intros [I1 I2 I3 I4 I5 I6 I7] Hx Hi Hm Hg. split; try done.
  - apply okst_put_di; [lia|done].
  - intros j [y E]. apply lookup_insert_Some in E as [[<- _]|[_ E]]; [done|]. apply I3. by exists y.
  - intros j tj bj [[<- [= <- <-]]|[Hne E]]%lookup_insert_Some.
    + split; rewrite di_put_eq by done; [done|]. apply grown_put_di; [lia|done].
    + assert (1 ≤ j < k_freeinode s) as Hj by (apply I3; by exists (tj, bj)). destruct (I4 j tj bj E) as [Hmj Hgj]. split; rewrite di_put_ne by lia; [done|]. apply grown_put_di; [lia|done].
  - intros j Hj. cbn in Hj. rewrite di_put_ne by lia. by apply I5.
  - intros a Ha. rewrite cur_put_di by lia. by apply I6.
  - by rewrite cur_put_di by lia.
Qed.

(** The other files while [i] grows. *)
Lemma image_grows C A s i s1 A1 : image C A s → grows i s A s1 A1 → okst s1 → image (delete i C) A1 s1.
Proof.
  intros [I1 I2 I3 I4 I5 I6 I7] [G1 G2 G3 G4 G5 G6 G7] Hok1. assert (∀ j, 0 ≤ j < 200 → di s1 j = di s j) as Hdi. { intros j Hj. unfold di. destruct (IBLOCK_eq j Hj) as [-> ?]. rewrite G6; [done|left; lia]. }
  split; rewrite ?G3; try done.
  - intros j [y [_ E]%lookup_delete_Some]. apply I3. by exists y.
  - intros j ty bytes [Hne E]%lookup_delete_Some. assert (1 ≤ j < k_freeinode s) as Hj by (apply I3; by exists (ty, bytes)). destruct (I4 j ty bytes E) as [Hm [Hf Hi]]. split; rewrite Hdi by lia; [done|]. split; [|done].
    eapply finv_frame; [exact Hf|done|intros a Ha; apply G5; lia|]. intros a Ha Ea. apply G6. right. split; [lia|]. by rewrite Ea.
  - intros j Hj. rewrite Hdi by lia. by apply I5.
  - intros a Ha. rewrite G6; [by apply I6|left; lia].
  - rewrite G6; [done|left; lia].
Qed.

Lemma grown_fits i s A x bytes : okst s → grown i s A x bytes → short (di_type x) → short (di_major x) → short (di_minor x) → short (di_nlink x) → di_fits (d_set_size (len bytes) x).
Proof.
  intros Hok [Hf Hi] H1 H2 H3 H4. pose proof Hf as [F1 F2 _ _ _ _ F7 _]. unfold di_fits. cbn [d_set_size di_type di_major di_minor di_nlink di_size di_addrs]. split_and!; try done; [lia..|]. apply Forall_lookup. intros k a Ek. apply lookup_lt_Some in Ek as Hk.
  destruct (decide (k = 12%nat)) as [->|Hne].
  - pose proof (ind_small i bytes s A x _ Hok Hf) as H. unfold ind in H. by rewrite Ek in H.
  - pose proof (old_small i bytes s A x _ Hok Hf (Z.of_nat k) ltac:(lia)) as H. unfold faddr in H. assert ((Z.of_nat k <? 12) = true) as E by lia. rewrite E, Nat2Z.id, Ek in H. done.
Qed.

Lemma grown_size i s A x bytes n : grown i s A x bytes → grown i s A (d_set_size n x) bytes.
Proof. intros [[] Hi]. by split. Qed.

Lemma wp_iappend C A s i ty bytes p (Q : unit → mkst → Prop) :
  image C A s → C !! i = Some (ty, bytes) → Forall (λ c, 0 ≤ c < 256) p → len bytes + len p ≤ 268 * 1024 →
  k_freeblock s + cost (blocks (len bytes + len p)) - cost (blocks (len bytes)) ≤ 2000 →
  (∀ A' s', image (<[i := (ty, bytes ++ p)]> C) A' s' → k_freeinode s' = k_freeinode s →
     k_freeblock s' = k_freeblock s + cost (blocks (len bytes + len p)) - cost (blocks (len bytes)) → Q tt s') →
  wp (iappend i p) Q s.
Proof.
  intros Him HC Hp Hsz Hroom HQ. pose proof Him as [Hok Hfi Hdom Hfiles _ _ _]. assert (1 ≤ i < k_freeinode s) as Hir by (apply Hdom; by exists (ty, bytes)). destruct (Hfiles i ty bytes HC) as [Hm Hg].
  unfold iappend. rewrite wp_bind. apply wp_rinode; [done|lia|]. pose proof (ld_di_fits (cur s (IBLOCK i sbk)) (i mod IPB)) as Hfit. fold (di s i) in Hfit. set (x := di s i) in *. pose proof Hm as Hm'. apply meta_eq in Hm' as (M1 & M2 & M3 & M4 & M5). rewrite M5, xint_small by lia. rewrite wp_bind.
  apply (wp_iappend_loop i _ s A x bytes p); try done; [lia|]. intros s1 A1 x1 Hok1 Hgr Hm1 Hg1 Hfb1. pose proof Hgr as [G1 G2 G3 G4 G5 G6 G7]. rewrite xint_small by lia. replace (len bytes + len p) with (len (bytes ++ p)) by (rewrite length_app; lia).
  rewrite Hm in Hm1. apply meta_eq in Hm1 as (N1 & N2 & N3 & N4 & N5). unfold di_fits in Hfit. rewrite M1, M2, M3, M4 in Hfit. destruct Hfit as (F1 & F2 & F3 & F4 & _). apply wp_winode; [done|lia|]. apply (HQ A1); [|by cbn|done]. rewrite <-insert_delete_eq. apply image_put_di.
  - by apply (image_grows C A s).
  - apply (grown_fits i s1 A1); by rewrite ?N1, ?N2, ?N3, ?N4.
  - by rewrite G3.
  - apply meta_eq. cbn [d_set_size di_type di_major di_minor di_nlink di_size]. done.
  - by apply grown_size.
Qed.

(** ** [ialloc] *)

Lemma empty_grown i s A t mj mi nl sz : grown i s A (DI t mj mi nl sz (replicate 13 0)) [].
Proof.
  set (x := DI _ _ _ _ _ _). assert (∀ k, default 0 (replicate 13 0 !! k) = 0) as Hz. { intros k. destruct (replicate 13 0 !! k) as [a|] eqn:E; [|done]. by apply lookup_replicate in E as [-> _]. }
  assert (ind x = 0) as Hi by apply Hz. assert (∀ bn, faddr (cur s) x bn = 0) as Ha. { intros bn. unfold faddr. rewrite Hi. destruct (bn <? 12); [apply Hz|done]. }
  assert (blocks (len (@nil Z)) = 0) as Hb by reflexivity. split; rewrite Hb; [|rewrite Hi; lia]. split; try done; try lia; intros k Hk; lia.
Qed.

Lemma wp_ialloc C A s ty (Q : Z → mkst → Prop) : image C A s → k_freeinode s < 200 → 0 ≤ ty < 32768 →
  (∀ s', image (<[k_freeinode s := (ty, [])]> C) A s' → k_freeinode s' = k_freeinode s + 1 → k_freeblock s' = k_freeblock s → Q (k_freeinode s) s') → wp (ialloc ty) Q s.
Proof.
  intros [I1 I2 I3 I4 I5 I6 I7] Hfi Hty HQ. unfold ialloc. do 4 wp_step. rewrite u32_small by lia. set (s1 := set_k_freeinode (k_freeinode s + 1) s). assert (okst s1) as Hok1 by (by destruct I1). rewrite wp_bind. apply wp_winode; [done|lia|]. wp_step.
  assert (xshort ty = ty) as ->. { unfold xshort, u8. rewrite Z.shiftr_div_pow2 by lia. change (2 ^ 8) with 256. pose proof (Z.div_mod ty 256). rewrite (Z.mod_small (ty / 256)); [lia|]. split; [apply Z.div_pos; lia|apply Z.div_lt_upper_bound; lia]. }
  apply HQ; [|done|done]. apply image_put_di; try done.
  - split; try done; cbn [s1 set_k_freeinode k_freeinode].
    + lia.
    + intros j Hj. specialize (I3 j Hj). lia.
    + intros j t b E. destruct (I4 j t b E) as [Hm [Hf Hi]]. by split.
    + intros j Hj. apply I5. lia.
  - unfold di_fits, short. cbn [d_set_size d_set_nlink d_set_type dinode0 di_type di_major di_minor di_nlink di_size di_addrs]. change (xint 0) with 0. change (xshort 1) with 1. split_and!; try lia; [done|]. apply Forall_replicate. lia.
  - cbn. lia.
  - apply empty_grown.
Qed.
