(* ===== verification/MkfsProps.v ===== *)
(** * The image [mkfs] makes is the one the kernel expects

    The superblock describes the layout the file system is proved for, the log is
    empty, the root directory names the files, each file has its bytes, no block
    belongs to two of them, and the bitmap marks what is in use. *)

From S2P Require Import Prelude Mem Kstring Layout BufIface Log LogDisk Sleeplock TxIface Fs FsBlock FsFile FsBmap FsWrite FileWrite FsProps Trap TrapProps Mkfs MkfsCorrect.

Set Default Proof Using "Type".

Notation len l := (Z.of_nat (length l)).
Notation byte c := (0 ≤ c < 256) (only parsing).

(** ** The files of the command line *)

Section Files.
(** [read] of the host returns at least a byte and at most the buffer, unless it is
    at the end. *)
Context (rd : list Z → Z) (Hrd : ∀ l, l ≠ [] → 1 ≤ rd l ≤ Z.min 1024 (len l)).

Lemma wp_copy i fuel : ∀ rest b C A s (Q : unit → mkst → Prop),
  (length rest < fuel)%nat → image C A s → C !! i = Some (T_FILE, b) → Forall (λ c, byte c) rest → len b + len rest ≤ 268 * 1024 →
  k_freeblock s + cost (blocks (len b + len rest)) - cost (blocks (len b)) ≤ 2000 →
  (∀ A' s', image (<[i := (T_FILE, b ++ rest)]> C) A' s' → k_freeinode s' = k_freeinode s →
     k_freeblock s' = k_freeblock s + cost (blocks (len b + len rest)) - cost (blocks (len b)) → Q tt s') →
  wp (loop fuel (copy_step rd i) rest) Q s.
Proof using Hrd.
  induction fuel as [|fuel IH]; intros rest b C A s Q Hfuel Him HC Hby Hsz Hroom HQ; [lia|]. cbn [loop]. rewrite wp_bind. unfold copy_step at 1. destruct (decide (rest = [])) as [->|Hne].
  - change (negb (0 >? 0)) with true. cbv iota. do 2 wp_step. specialize (HQ A s). rewrite app_nil_r in HQ. cbn [length] in HQ. rewrite Z.add_0_r in HQ. apply HQ; [by rewrite insert_id|done|lia].
  - assert ((match rest with [] => 0 | _ :: _ => rd rest end) = rd rest) as -> by (by destruct rest). pose proof (Hrd rest Hne) as Hr. assert ((rd rest >? 0) = true) as -> by lia. cbn [negb]. rewrite wp_bind. set (n := Z.to_nat (rd rest)).
    assert (len (take n rest) = Z.of_nat n) as Ht by (rewrite length_take_le; lia). assert (len (drop n rest) = len rest - Z.of_nat n) as Hd by (rewrite length_drop; lia).
    pose proof (cost_mono (len b + Z.of_nat n) (len b + len rest) ltac:(lia)). pose proof (cost_mono (len b) (len b + Z.of_nat n) ltac:(lia)).
    apply (wp_iappend C A s i T_FILE b (take n rest)); try done; [by apply Forall_take|lia|rewrite Ht; lia|]. intros A1 s1 Him1 Hfi1 Hfb1. rewrite Ht in Hfb1. rewrite wp_ret. assert (len (b ++ take n rest) = len b + Z.of_nat n) as Hlb by (rewrite length_app; lia).
    assert (len (b ++ take n rest) + len (drop n rest) = len b + len rest) as Hsum by lia.
    apply (IH (drop n rest) (b ++ take n rest) (<[i := (T_FILE, b ++ take n rest)]> C) A1 s1); [rewrite length_drop; lia|done|apply lookup_insert_eq|by apply Forall_drop|lia|rewrite Hsum, Hlb; lia|].
    intros A2 s2 Him2 Hfi2 Hfb2. rewrite <-app_assoc, take_drop, insert_insert_eq in Him2. apply (HQ A2); [done|congruence|rewrite Hsum, Hlb in Hfb2; lia].
Qed.

(** The name a file gets. *)
Definition fname (argv : list Z) : list Z := no_underscore (no_user argv).

Record arg_ok (f : list Z * list Z) : Prop := {
  ao_name : Forall (λ c, byte c) f.1;
  ao_slash : SLASH ∉ no_user f.1;
  ao_len : len (fname f.1) ≤ 14;
  ao_bytes : Forall (λ c, byte c) f.2;
  ao_size : len f.2 ≤ 268 * 1024
}.

(** The root directory of the files. *)
Definition root_dir (files : list (list Z * list Z)) : list Z :=
  dirent 1 DOT ++ dirent 1 (DOT ++ DOT) ++ concat (imap (λ k (f : list Z * list Z), dirent (2 + Z.of_nat k) (fname f.1)) files).

(** The blocks of the files and of the directory. *)
Definition need (files : list (list Z * list Z)) : Z := foldr (λ f n, cost (blocks (len f.2)) + n) 0 files.

Lemma dirent_len i name : length (dirent i name) = 16%nat.
Proof. unfold dirent, name_bytes. rewrite length_app, length_take, length_app, length_replicate. cbn [length]. lia. Qed.
Lemma dirent_bytes i name : Forall (λ c, byte c) name → Forall (λ c, byte c) (dirent i name).
Proof.
  intros Hn. unfold dirent, name_bytes, u8. apply Forall_app. split.
  - repeat (apply Forall_cons; split; [apply Z.mod_pos_bound; lia|]). constructor.
  - apply Forall_take, Forall_app. split; [done|]. apply Forall_replicate. lia.
Qed.
Lemma fname_bytes argv : Forall (λ c, byte c) argv → Forall (λ c, byte c) (fname argv).
Proof.
  intros H. unfold fname, no_user. assert (Forall (λ c, byte c) (if decide (take 5 argv = USER_) then drop 5 argv else argv)) as Hs by (case_decide; [by apply Forall_drop|done]). destruct (if decide _ then _ else _) as [|c l]; [done|]. cbn. apply Forall_cons in Hs as [? ?]. case_match; [done|by apply Forall_cons].
Qed.
Lemma root_dir_snoc files f : root_dir (files ++ [f]) = root_dir files ++ dirent (2 + len files) (fname f.1).
Proof.
  unfold root_dir. rewrite <-!app_assoc. do 2 f_equal. rewrite imap_app, concat_app. f_equal. cbn [imap concat]. rewrite app_nil_r. cbn. by rewrite Nat.add_0_r.
Qed.
Lemma root_dir_len files : len (root_dir files) = 16 * (2 + len files).
Proof.
  induction files as [|f files IH] using rev_ind; [unfold root_dir; cbn [imap concat]; rewrite !length_app, !dirent_len; cbn; lia|]. rewrite root_dir_snoc, length_app, dirent_len, Nat2Z.inj_add, IH, length_app. cbn. lia.
Qed.
Lemma need_app l1 l2 : need (l1 ++ l2) = need l1 + need l2.
Proof. unfold need. induction l1 as [|f l1 IH]; cbn [app foldr]; [lia|]. rewrite IH. lia. Qed.
Lemma need_pos l : 0 ≤ need l.
Proof. unfold need. induction l as [|f l IH]; cbn [foldr]; [lia|]. assert (0 ≤ cost (blocks (len f.2))); [|lia]. pose proof (cost_mono 0 (len f.2) ltac:(lia)). change (cost (blocks 0)) with 0 in *. lia. Qed.

(** The files [done] are in the image. *)
Record built (done : list (list Z * list Z)) (C : gmap Z (Z * list Z)) (A : Z → Z * Z) (s : mkst) : Prop := {
  bu_image : image C A s;
  bu_fi : k_freeinode s = 2 + len done;
  bu_root : C !! 1 = Some (T_DIR, root_dir done);
  bu_files : ∀ k f, done !! k = Some f → C !! (2 + Z.of_nat k) = Some (T_FILE, f.2);
  bu_fb : k_freeblock s = 47 + cost (blocks (len (root_dir done))) + need done
}.

Lemma wp_add_file ds C A s f : built ds C A s → arg_ok f → len ds < 198 →
  47 + cost (blocks (len (root_dir (ds ++ [f])))) + need (ds ++ [f]) ≤ 2000 →
  wp (add_file rd 1 (f.1, Some f.2)) (λ _ s', ∃ C' A', built (ds ++ [f]) C' A' s') s.
Proof using Hrd.
  intros [B1 B2 B3 B4 B5] [F1 F2 F3 F4 F5] Hn Hroom. rewrite root_dir_len, length_app, need_app in Hroom. cbn [length] in Hroom. change (need [f]) with (cost (blocks (len f.2)) + 0) in Hroom. rewrite root_dir_len in B5. pose proof (need_pos ds).
  pose proof (cost_mono 0 (len f.2) ltac:(lia)) as Hc0. change (cost (blocks 0)) with 0 in Hc0. set (R := cost (blocks (16 * (2 + Z.of_nat (length ds + 1))))) in *. assert (16 * (2 + len ds) + 16 = 16 * (2 + Z.of_nat (length ds + 1))) as ER by lia.
  unfold add_file, assert_. wp_step. wp_step; [by rewrite bool_decide_eq_true_2|]. fold (fname f.1). wp_step. wp_step; [change DIRSIZ with 14; assert ((len (fname f.1) <=? 14) = true) as -> by lia; done|]. rewrite wp_bind.
  apply (wp_ialloc C A s T_FILE _ B1); [lia|done|]. intros s1 I1 Hfi1 Hfb1. rewrite B2 in *. set (i := 2 + len ds) in *. rewrite wp_bind.
  apply (wp_iappend _ A s1 1 T_DIR (root_dir ds) _ _ I1); [by rewrite lookup_insert_ne by lia|by apply dirent_bytes, fname_bytes|rewrite root_dir_len, dirent_len; lia|rewrite root_dir_len, dirent_len; fold i; change (Z.of_nat 16) with 16; rewrite ER; fold R; lia|].
  intros A2 s2 I2 Hfi2 Hfb2. rewrite root_dir_len, dirent_len in Hfb2. fold i in Hfb2. change (Z.of_nat 16) with 16 in Hfb2. rewrite ER in Hfb2. fold R in Hfb2. eapply (wp_copy i _ f.2 []); [lia|exact I2|rewrite lookup_insert_ne by lia; apply lookup_insert_eq|done|cbn; lia|cbn [length]; rewrite Z.add_0_l; change (cost (blocks (Z.of_nat 0))) with 0; lia|].
  intros A3 s3 I3 Hfi3 Hfb3. cbn [length] in Hfb3. rewrite Z.add_0_l in Hfb3. change (cost (blocks (Z.of_nat 0))) with 0 in Hfb3. cbn [app] in I3. eexists _, A3. split; [exact I3|rewrite length_app; cbn; lia| | |].
  - rewrite lookup_insert_ne, lookup_insert_eq by lia. by rewrite root_dir_snoc.
  - intros k g [E|[Hk E]]%lookup_app_Some.
    + apply lookup_lt_Some in E as Hk. rewrite !lookup_insert_ne by lia. by apply B4.
    + apply list_lookup_singleton_Some in E as [E <-]. replace (2 + Z.of_nat k) with i by lia. apply lookup_insert_eq.
  - rewrite root_dir_len, need_app, length_app. cbn [length]. change (need [f]) with (cost (blocks (len f.2)) + 0). fold R. lia.
Qed.

Lemma wp_add_files rest : ∀ ds C A s, built ds C A s → Forall arg_ok rest → len (ds ++ rest) ≤ 198 → 47 + cost (blocks (len (root_dir (ds ++ rest)))) + need (ds ++ rest) ≤ 2000 →
  wp (for_each (map (λ f : list Z * list Z, (f.1, Some f.2)) rest) (add_file rd 1)) (λ _ s', ∃ C' A', built (ds ++ rest) C' A' s') s.
Proof using Hrd.
  induction rest as [|f rest IH]; intros ds C A s Hb Hok Hn Hroom; cbn [map for_each]; [wp_step; rewrite app_nil_r; by exists C, A|]. apply Forall_cons in Hok as [Hf Hok]. rewrite wp_bind.
  replace (ds ++ f :: rest) with ((ds ++ [f]) ++ rest) in * by (by rewrite <-app_assoc). rewrite !length_app in Hn. cbn [length] in Hn. eapply wp_mono; [apply (wp_add_file ds C A s f Hb Hf); [lia|]|].
  - rewrite root_dir_len in Hroom |- *. rewrite need_app in Hroom. rewrite (length_app _ rest) in Hroom. pose proof (need_pos rest). pose proof (cost_mono (16 * (2 + len (ds ++ [f]))) (16 * (2 + Z.of_nat (length (ds ++ [f]) + length rest))) ltac:(lia)). lia.
  - intros _ s' (C' & A' & Hb'). apply (IH _ C' A' s' Hb' Hok); [rewrite !length_app; cbn [length]; lia|done].
Qed.
End Files.

(** ** The finished image *)

Definition inode_at (d : disk) (i : Z) : dinode := ld_di (dblk d (IBLOCK i mkfs_sb)) (i mod IPB).

Record fs_image (files : list (list Z * list Z)) (d : disk) : Prop := {
  fm_sb : ld_sb (dblk d 1) = mkfs_sb;
  fm_log : settled 2 d (dblk d);
  fm_root : let x := inode_at d ROOTINO in
    on_disk mkfs_sb ROOTINO (dblk d) x ∧ di_type x = T_DIR ∧ di_nlink x = 1 ∧ len (root_dir files) ≤ di_size x ∧
    ∀ k, 0 ≤ k < di_size x → fbyte (dblk d) x k = default 0 (root_dir files !! Z.to_nat k);
  fm_file : ∀ k name bytes, files !! k = Some (name, bytes) → let i := 2 + Z.of_nat k in let x := inode_at d i in
    on_disk mkfs_sb i (dblk d) x ∧ di_type x = T_FILE ∧ di_nlink x = 1 ∧ di_size x = len bytes ∧
    ∀ j, 0 ≤ j < len bytes → fbyte (dblk d) x j = default 0 (bytes !! Z.to_nat j);
  fm_free : ∀ i, 2 + len files ≤ i < sb_ninodes mkfs_sb → di_type (inode_at d i) = 0;
  fm_apart : ∀ i j a, 1 ≤ i < 2 + len files → 1 ≤ j < 2 + len files → owned (dblk d) (inode_at d i) a → owned (dblk d) (inode_at d j) a → i = j;
  fm_used : ∀ b, 0 ≤ b < sb_size mkfs_sb → bused mkfs_sb (dblk d) b = true ↔ b < 47 + cost (blocks (len (root_dir files))) + need files
}.

Lemma bit_of_sets l m k : bit_of (foldl (λ m i, stb m (i / 8) (Z.lor (ldb m (i / 8)) (Z.shiftl 1 (i mod 8)))) m l) k = bit_of m k || existsb (Z.eqb k) l.
Proof. induction l as [|i l IH] in m |- *; cbn [foldl existsb]; [by rewrite orb_false_r|]. rewrite IH. rewrite orb_assoc. f_equal. exact (bit_of_set m i k). Qed.

Lemma finv_owner cur fb A i x nb bytes a : finv cur fb A i x nb bytes → owned cur x a → 47 ≤ a < fb ∧ (A a).1 = i.
Proof.
  intros [H1 H2 H3 H4 H5 H6 H7 H8] [Ha [->|(bn & Hbn & ->)]]; [destruct (H6 Ha) as [? E]; by rewrite E|]. destruct (decide (nb ≤ bn)); [rewrite H3 in Ha by lia; done|]. destruct (H4 bn) as [? E]; [lia|]. by rewrite E.
Qed.
Lemma finv_file_ok cur fb A i x nb bytes : finv cur fb A i x nb bytes → fb ≤ 2000 → 0 ≤ di_size x ≤ 1024 * nb → (∀ a, 47 ≤ a < fb → bused sbk cur a = true) → file_ok sbk cur x.
Proof.
  intros Hf Hfb Hsz Hu. pose proof Hf as [H1 H2 H3 H4 H5 H6 H7 H8]. assert (∀ bn, 0 ≤ bn < 268 → faddr cur x bn ≠ 0 → 0 ≤ bn < nb) as Hin by (intros bn Hbn Hne; destruct (decide (nb ≤ bn)); [rewrite H3 in Hne by lia; done|lia]). split.
  - done.
  - intros a Ha. change (dstart sbk) with 47. change (sb_size sbk) with 2000. destruct (finv_owner _ _ _ _ _ _ _ a Hf Ha). split; [lia|by apply Hu].
  - intros bn bn' Hbn Hbn' E Hne. destruct (H4 bn (Hin bn Hbn Hne)) as [_ E1]. rewrite E in Hne. destruct (H4 bn' (Hin bn' Hbn' Hne)) as [_ E2]. rewrite E, E2 in E1. by injection E1.
  - intros bn Hbn Hne E. destruct (H4 bn (Hin bn Hbn Hne)) as [_ E1]. rewrite E in E1, Hne. destruct (H6 Hne) as [_ E2]. rewrite E2 in E1. injection E1. lia.
  - lia.
  - intros bn Hbn Hlt. destruct (H4 bn); lia.
Qed.

(** The size of the root directory is rounded up, and the bitmap is written. *)
Definition bitmap (used : Z) : mem := foldl (λ m i, stb m (i / 8) (Z.lor (ldb m (i / 8)) (Z.shiftl 1 (i mod 8)))) ∅ (seqZ 0 used).
Definition finished (s : mkst) : mkst :=
  let x := di s 1 in put 46 (bitmap (k_freeblock s)) (put_di 1 (d_set_size ((di_size x / 1024 + 1) * 1024) x) s).

Section Finish.
Context (A : Z → Z * Z) (s : mkst).
Notation h := (dblk (k_img (finished s))).

Lemma fin_cur a : ¬ 33 ≤ a < 47 → h a = cur s a.
Proof using. intros Ha. change (h a) with (cur (finished s) a). unfold finished. rewrite cur_putb. unfold cur_set. rewrite decide_False by lia. apply cur_put_di; lia. Qed.
Lemma fin_used b : 0 ≤ b < 8192 → 47 ≤ k_freeblock s → bused sbk h b = true ↔ b < k_freeblock s.
Proof using.
  intros Hb' Hfb. unfold bused. assert (BBLOCK b sbk = 46) as ->. { unfold BBLOCK. change BPB with 8192. rewrite Z.div_small by lia. reflexivity. } change (h 46) with (cur (finished s) 46). unfold finished. rewrite cur_putb. unfold cur_set. rewrite decide_True by done.
  change BPB with 8192. rewrite Z.mod_small by lia. unfold bitmap. rewrite bit_of_sets. change (bit_of ∅ b) with (Z.testbit 0 (b mod 8)). rewrite Z.bits_0. cbn [orb]. rewrite existsb_exists. split.
  - intros (c & Hc & E). apply list_elem_of_In, elem_of_seqZ in Hc. lia.
  - intros Hlt. exists b. split; [apply list_elem_of_In, elem_of_seqZ; lia|apply Z.eqb_refl].
Qed.

Lemma fin_inode i : 2 ≤ i < 200 → inode_at (k_img (finished s)) i = di s i.
Proof using. intros Hi. unfold inode_at. rewrite mkfs_sb_eq. destruct (IBLOCK_eq i ltac:(lia)) as [E ?]. change (dblk (k_img (finished s)) (IBLOCK i sbk)) with (cur (finished s) (IBLOCK i sbk)). unfold finished. rewrite cur_putb. unfold cur_set. rewrite decide_False by lia. apply (di_put_ne 1); lia. Qed.
Lemma fin_finv i x nb bytes : finv (cur s) (k_freeblock s) A i x nb bytes → finv h (k_freeblock s) A i x nb bytes.
Proof using. intros Hf. eapply finv_frame; [exact Hf|done|done|]. intros a Ha _. apply fin_cur. lia. Qed.

Context (files : list (list Z * list Z)) (C : gmap Z (Z * list Z)).
Context (Hb : built files C A s) (Hmod : (2 + len files) mod 64 ≠ 0) (Hlen : len files ≤ 198).

Lemma fin_fits : di_fits (d_set_size ((di_size (di s 1) / 1024 + 1) * 1024) (di s 1)) ∧ di_size (di s 1) = 16 * (2 + len files).
Proof using Hb Hlen.
  destruct Hb as [[_ _ _ I4 _ _ _] _ B3 _ _]. destruct (I4 _ _ _ B3) as [Hm _]. apply meta_eq in Hm as (_ & _ & _ & _ & Hs). rewrite root_dir_len in Hs. split; [|done]. destruct (ld_di_fits (cur s (IBLOCK 1 sbk)) (1 mod IPB)) as (F1 & F2 & F3 & F4 & _ & F6). rewrite Hs.
  unfold di_fits. cbn [d_set_size di_type di_major di_minor di_nlink di_size di_addrs]. pose proof (Z.div_mod (16 * (2 + len files)) 1024). pose proof (Z.mod_pos_bound (16 * (2 + len files)) 1024). destruct F6. split_and!; (done || lia).
Qed.
Lemma fin_root : inode_at (k_img (finished s)) 1 = d_set_size ((di_size (di s 1) / 1024 + 1) * 1024) (di s 1).
Proof using Hb Hlen. unfold inode_at. rewrite mkfs_sb_eq. change (dblk (k_img (finished s)) (IBLOCK 1 sbk)) with (cur (finished s) (IBLOCK 1 sbk)). unfold finished. rewrite cur_putb. unfold cur_set. rewrite decide_False by done. apply di_put_eq, fin_fits. Qed.

(** Each inode has its file. *)
Lemma fin_file i ty bytes : C !! i = Some (ty, bytes) → ∃ nb, finv h (k_freeblock s) A i (inode_at (k_img (finished s)) i) nb bytes ∧
  len bytes ≤ di_size (inode_at (k_img (finished s)) i) ≤ 1024 * nb ∧ di_type (inode_at (k_img (finished s)) i) = ty ∧ di_nlink (inode_at (k_img (finished s)) i) = 1 ∧ (i ≠ 1 → di_size (inode_at (k_img (finished s)) i) = len bytes).
Proof using Hb Hmod Hlen.
  intros E. pose proof Hb as [[I1 I2 I3 I4 I5 I6 I7] B2 B3 B4 B5]. assert (1 ≤ i < k_freeinode s) as Hi by (apply I3; by exists (ty, bytes)). destruct (I4 i ty bytes E) as [Hm Hg]. exists (blocks (len bytes)). pose proof (Z.div_mod (len bytes + 1023) 1024). pose proof (Z.mod_pos_bound (len bytes + 1023) 1024).
  destruct (decide (i = 1)) as [->|Hne].
  - rewrite fin_root. destruct fin_fits as [_ Hs]. rewrite B3 in E. injection E as <- <-. apply meta_eq in Hm as (M1 & M2 & M3 & M4 & M5). cbn [d_set_size di_type di_nlink di_size]. split; [apply fin_finv; by destruct (grown_size _ _ _ _ _ ((di_size (di s 1) / 1024 + 1) * 1024) Hg)|].
    rewrite Hs, root_dir_len. pose proof (Z.div_mod (16 * (2 + len files)) 1024). pose proof (Z.mod_pos_bound (16 * (2 + len files)) 1024). assert ((16 * (2 + len files)) mod 1024 ≠ 0) as Hm0. { change 1024 with (16 * 64). rewrite Z.mul_mod_distr_l by lia. lia. }
    split_and!; try done; [lia|]. unfold blocks. rewrite <-(Z.div_unique (16 * (2 + len files) + 1023) 1024 (16 * (2 + len files) / 1024 + 1) ((16 * (2 + len files)) mod 1024 - 1)) by lia. lia.
  - rewrite fin_inode by lia. apply meta_eq in Hm as (M1 & M2 & M3 & M4 & M5). split; [apply fin_finv; by destruct Hg|]. rewrite M5. unfold blocks. split_and!; (done || lia).
Qed.

Lemma fin_on_disk i ty bytes : k_freeblock s ≤ 2000 → C !! i = Some (ty, bytes) → on_disk mkfs_sb i h (inode_at (k_img (finished s)) i).
Proof using Hb Hmod Hlen.
  intros Hfb E. destruct (fin_file i ty bytes E) as (nb & Hf & Hs & _). pose proof Hb as [[[_ _ Hlo _] _ _ _ _ _ _] _ _ _ _]. rewrite mkfs_sb_eq. split.
  - intros b Hb'. change (dstart sbk) with 47 in Hb'. apply fin_used; lia.
  - eapply finv_file_ok; [exact Hf|done|lia|]. intros a Ha. apply fin_used; lia.
  - unfold inode_at. by rewrite mkfs_sb_eq.
Qed.

Lemma fin_image : fs_image files (k_img (finished s)).
Proof using Hb Hmod Hlen.
  pose proof Hb as [[I1 I2 I3 I4 I5 I6 I7] B2 B3 B4 B5]. pose proof I1 as [_ _ Hfb _]. split.
  - change (dblk (k_img (finished s)) 1) with (h 1). rewrite fin_cur, I7 by lia. vm_compute. reflexivity.
  - split; [|done]. rewrite fin_cur, I6 by lia. reflexivity.
  - cbv zeta. change ROOTINO with 1. destruct (fin_file _ _ _ B3) as (nb & Hf & Hs & Ht & Hl & _). pose proof Hf as [_ _ _ _ _ _ _ H8]. split_and!; [apply (fin_on_disk 1 T_DIR (root_dir files)); [lia|done]|done|done|lia|]. intros k Hk. apply H8. lia.
  - intros k name bytes E. destruct (fin_file _ _ _ (B4 k _ E)) as (nb & Hf & Hs & Ht & Hl & Hsz). cbn [snd] in *. pose proof Hf as [_ _ _ _ _ _ _ H8]. split_and!; [apply (fin_on_disk _ T_FILE bytes); [lia|exact (B4 k _ E)]|done|done|apply Hsz; lia|]. intros j Hj. apply H8. lia.
  - intros i Hi. change (sb_ninodes mkfs_sb) with 200 in Hi. rewrite fin_inode, I5 by lia. done.
  - intros i j a Hi Hj Hoi Hoj. assert (∀ l, 1 ≤ l < 2 + len files → ∃ t b, C !! l = Some (t, b)) as Hin.
    { intros l Hl. destruct (decide (l = 1)) as [->|]; [by exists T_DIR, (root_dir files)|]. destruct (lookup_lt_is_Some_2 files (Z.to_nat (l - 2))) as [f Ef]; [lia|]. exists T_FILE, f.2. rewrite <-(B4 _ _ Ef). f_equal. lia. }
    destruct (Hin i Hi) as (ti & bi & Ei). destruct (Hin j Hj) as (tj & bj & Ej). destruct (fin_file _ _ _ Ei) as (ni & Fi & _). destruct (fin_file _ _ _ Ej) as (nj & Fj & _). destruct (finv_owner _ _ _ _ _ _ _ a Fi Hoi) as [_ <-]. by destruct (finv_owner _ _ _ _ _ _ _ a Fj Hoj) as [_ <-].
  - intros b Hb'. change (sb_size mkfs_sb) with 2000 in Hb'. rewrite mkfs_sb_eq, fin_used by lia. by rewrite B5.
Qed.
End Finish.

(** ** [main] *)

Lemma zero_image s : (∀ a, cur s a = ∅) → k_end s = 2000 → k_sb s = sbk → k_freeinode s = 1 → k_freeblock s = 47 → image ∅ (λ _, (0, 0)) (put 1 (st_sb ∅ mkfs_sb) s).
Proof.
  intros Z1 Z2 Z3 Z4 Z5. assert (∀ a, a ≠ 1 → cur (put 1 (st_sb ∅ mkfs_sb) s) a = ∅) as Hc by (intros a Ha; rewrite cur_putb; unfold cur_set; by rewrite decide_False).
  split; cbn [put set_k_img k_freeinode k_sb k_end k_freeblock].
  - split; cbn [put set_k_img k_freeinode k_sb k_end k_freeblock]; [done|done|lia|]. intros a Ha. apply Hc. lia.
  - lia.
  - by intros i [? ?].
  - done.
  - intros i Hi. unfold di. rewrite Hc by (destruct (IBLOCK_eq i); lia). unfold ld_di, ldi16. rewrite !ldn_zero by done. done.
  - intros a Ha. apply Hc. lia.
  - rewrite cur_putb. unfold cur_set. by rewrite decide_True.
Qed.

Lemma wp_zero s (Q : unit → mkst → Prop) : k_img s = ∅ → k_end s = 0 →
  (∀ s', (∀ a, cur s' a = ∅) → k_end s' = 2000 → k_sb s' = k_sb s → k_freeinode s' = k_freeinode s → k_freeblock s' = k_freeblock s → Q tt s') →
  wp (for_each (seqZ 0 FSSIZE) (λ i, wsect i ∅)) Q s.
Proof.
  intros Hi He HQ. apply (wp_for_each (λ l s', (∀ a, cur s' a = ∅) ∧ k_end s' = len l ∧ k_sb s' = k_sb s ∧ k_freeinode s' = k_freeinode s ∧ k_freeblock s' = k_freeblock s)).
  - split; [|done]. intros a. unfold cur, dblk. by rewrite Hi, lookup_empty.
  - intros l x rest s' E (H1 & H2 & H3). assert (x = len l ∧ 0 ≤ x < 2000) as [-> Hx].
    { assert (seqZ 0 FSSIZE !! length l = Some x) as Hl by (rewrite E; by apply list_lookup_middle). apply lookup_seqZ in Hl as [-> ?]. change FSSIZE with 2000 in *. lia. }
    unfold wsect, BSIZE. rewrite u32_small by lia. rewrite Z.div_mul by lia. wp_step. split_and!; [|cbn; rewrite length_app; cbn; lia|apply H3..]. intros a. unfold cur, dblk. cbn. destruct (decide (a = len l)) as [->|Hne]; [by rewrite lookup_insert_eq|rewrite lookup_insert_ne by done; apply H1].
  - intros s' (H1 & H2 & H3 & H4 & H5). by apply HQ.
Qed.

(** The entries [.] and [..]. *)
Lemma wp_dots s : image (<[1 := (T_DIR, [])]> ∅) (λ _, (0, 0)) s → k_freeinode s = 2 → k_freeblock s = 47 →
  wp (iappend 1 (dirent 1 DOT);; iappend 1 (dirent 1 (DOT ++ DOT))) (λ _ s', ∃ C A, built [] C A s') s.
Proof.
  intros I F G. assert (Forall (λ c, byte c) DOT) as Hd by (apply Forall_cons; split; [lia|constructor]). rewrite wp_bind.
  eapply (wp_iappend _ _ s 1 T_DIR []); [exact I|apply lookup_insert_eq|by apply dirent_bytes|rewrite dirent_len; cbn; lia|rewrite dirent_len, G; vm_compute; done|]. intros A1 s1 I1 F1 G1. rewrite dirent_len, G in G1. cbn [app] in I1.
  eapply (wp_iappend _ _ s1 1 T_DIR (dirent 1 DOT)); [exact I1|apply lookup_insert_eq|by apply dirent_bytes, Forall_app|rewrite !dirent_len; cbn; lia|rewrite !dirent_len, G1; vm_compute; done|]. intros A2 s2 I2 F2 G2. rewrite !dirent_len, G1 in G2.
  exists (<[1 := (T_DIR, root_dir [])]> ∅), A2. split.
  - rewrite !insert_insert_eq in I2. unfold root_dir. cbn [imap concat]. by rewrite app_nil_r.
  - cbn. lia.
  - apply lookup_insert_eq.
  - done.
  - rewrite G2, root_dir_len. reflexivity.
Qed.

Section Main.
Context (rd : list Z → Z) (Hrd : ∀ l, l ≠ [] → 1 ≤ rd l ≤ Z.min 1024 (len l)).
Context (files : list (list Z * list Z)) (Hok : Forall arg_ok files) (Hlen : len files ≤ 198).
Context (Hroom : 47 + cost (blocks (len (root_dir files))) + need files ≤ 2000) (Hmod : (2 + len files) mod 64 ≠ 0).

Lemma wp_main (Q : unit → mkst → Prop) : (∀ s, fs_image files (k_img s) → Q tt s) → wp (main rd (map (λ f : list Z * list Z, (f.1, Some f.2)) files)) Q mk0.
Proof using Hrd Hok Hlen Hroom Hmod.
  intros HQ. unfold main. do 4 wp_step. rewrite wp_bind. apply wp_zero; [done|done|]. intros s0 Z1 Z2 Z3 Z4 Z5. cbn in Z3, Z4, Z5. change nmeta with 47 in Z5. rewrite wp_bind. apply wp_wsect; [done|lia|]. set (s1 := put 1 _ s0). rewrite wp_bind.
  pose proof (zero_image s0 Z1 Z2 Z3 Z4 Z5) as I1. fold s1 in I1.
  apply (wp_ialloc _ _ _ T_DIR _ I1); [cbn; lia|done|]. intros s2 I2 F2 G2. change (k_freeinode s1) with (k_freeinode s0) in *. rewrite Z4 in *. unfold assert_. wp_step. wp_step.
  assert (k_freeblock s2 = 47) as Hfb2 by (rewrite G2; exact Z5). pose proof (wp_dots s2 I2 F2 Hfb2) as Hdots. rewrite wp_bind in Hdots. rewrite wp_bind. eapply wp_mono; [exact Hdots|]. clear Hdots. intros [] s3 Hdots. rewrite wp_bind. eapply wp_mono; [exact Hdots|]. intros _ s4 (C4 & A4 & B4).
  rewrite wp_bind. eapply wp_mono; [by apply (wp_add_files rd Hrd files [] C4 A4)|]. intros _ s5 (C5 & A5 & B5). cbn [app] in B5. pose proof B5 as [[Hok5 _ _ _ _ _ _] _ _ _ _]. rewrite wp_bind. apply wp_rinode; [done|lia|]. cbv zeta.
  destruct (fin_fits A5 s5 files C5 B5 Hlen) as [Hfit Hsz]. change BSIZE with 1024. assert (0 ≤ 16 * (2 + len files) / 1024 ≤ 4) as Hq by (pose proof (Z.div_mod (16 * (2 + len files)) 1024); pose proof (Z.mod_pos_bound (16 * (2 + len files)) 1024); lia).
  rewrite Hsz, (xint_small (16 * _)), xint_small by lia. rewrite wp_bind. apply wp_winode; [done|lia|]. do 2 wp_step. unfold balloc, assert_. pose proof Hok5 as [Hsb5 He5 Hfb5 _]. cbn [put_di put set_k_img k_freeblock]. wp_step. wp_step; [change BPB with 8192; assert ((k_freeblock s5 <? 8192) = true) as -> by lia; done|].
  do 2 wp_step. cbn [put_di put set_k_img k_sb]. rewrite Hsb5. apply wp_wsect; [done|cbn; lia|]. apply HQ. pose proof (fin_image A5 s5 files C5 B5 Hmod Hlen) as Hfin. unfold finished in Hfin. rewrite Hsz in Hfin. exact Hfin.
Qed.
End Main.

(** C15: [mkfs] makes the file system the kernel is proved for.  Given at most 198
    files whose names have no slash and at most 14 characters, none longer than a
    file can be, and that fit on the disk, with a number of entries in the root
    directory that is not a multiple of 64, and however many bytes each [read] of
    the host returns, [mkfs] ends without a failed assertion, and in its image the
    superblock describes a layout that [layout_ok] accepts, the log is empty, the
    root directory holds [.], [..] and the names with the inodes of the files, each
    file is sound on the disk and has its bytes, the other inodes are free, no block
    belongs to two files, and the bitmap marks the blocks in use and no others. *)
Theorem mkfs_image rd files :
  (∀ l, l ≠ [] → 1 ≤ rd l ≤ Z.min 1024 (len l)) → Forall arg_ok files → len files ≤ 198 → (2 + len files) mod 64 ≠ 0 →
  47 + cost (blocks (len (root_dir files))) + need files ≤ FSSIZE →
  layout_ok 2 mkfs_sb ∧
  ∃ s, main rd (map (λ f : list Z * list Z, (f.1, Some f.2)) files) mk0 = Ok tt s ∧ fs_image files (k_img s).
Proof.
  intros Hrd Hok Hlen Hmod Hroom. split; [split; [split; vm_compute; done|vm_compute; done..]|].
  destruct (wp_Ok _ _ _ (wp_main rd Hrd files Hok Hlen Hroom Hmod (λ _ s, fs_image files (k_img s)) (λ s H, H))) as ([] & s & Hrun & Hs). exists s. split; [exact Hrun|exact Hs].
Qed.

Module MkfsWitness.
(** [user/_cat] with three bytes, and an empty [README]. *)
Definition args : list (list Z * list Z) := [([117; 115; 101; 114; 47; 95; 99; 97; 116], [7; 8; 9]); ([82; 69; 65; 68; 77; 69], [])].
Definition rd (l : list Z) : Z := Z.min 1024 (len l).

Lemma argv_files_ok : Forall arg_ok args.
Proof.
  repeat (apply Forall_cons; split; [split; [by apply (bool_decide_unpack _); vm_compute|by apply (bool_decide_unpack _); vm_compute|vm_compute; done|by apply (bool_decide_unpack _); vm_compute|vm_compute; done]|]). constructor.
Qed.

Lemma mkfs_image_witness : ∃ s, main rd (map (λ f : list Z * list Z, (f.1, Some f.2)) args) mk0 = Ok tt s ∧ fbyte (dblk (k_img s)) (inode_at (k_img s) 2) 1 = 8.
Proof.
  destruct (mkfs_image rd args) as [_ (s & Hrun & [_ _ _ Hf _ _ _])].
  - intros [|c l] Hl; [done|]. unfold rd. cbn [length]. lia.
  - exact argv_files_ok.
  - vm_compute. done.
  - vm_compute. done.
  - vm_compute. done.
  - exists s. split; [exact Hrun|]. destruct (Hf 0%nat _ _ eq_refl) as (_ & _ & _ & _ & Hb). apply (Hb 1). cbn. lia.
Defined.
End MkfsWitness.
